(* ===== verification/_CoqProject ===== *)
-Q . S2P
Prelude.v
Kutil.v
Fifo.v
Dlist.v
Heapdl.v
HeapdlInv.v
HeapdlFree.v
HeapdlSpec.v
Allocator.v
Memory.v
Process.v
ProcessInv.v
ProcessSpec.v
Timer.v
TimerInv.v
TimerSpec.v
Descriptors.v
Sched.v
SchedSpec.v
Arith64.v
Sheet.v
SheetSpec.v
Stream.v
Font.v
Draw.v
DrawSpec.v
Float.v
Printf.v
PrintfSpec.v
PrintfFloat.v
Input.v
Video.v
ScreenDemo.v
Kbc.v
Kernel.v
Selftest.v
KernelStart.v
KernelBoot.v
Path.v
Memtest.v
HeapDebug.v
HeapTable.v
Error.v
ErrorNames.v
Frames.v
ArrayQueue.v
Bits.v
UsbMemory.v
Ring.v
Paging64.v
Segment64.v
Graphics64.v
Console64.v
Mouse64.v
Pci.v
PciLog.v
ArrayMap.v
Usb.v
UsbSpec.v
UsbProtocol.v
Trb.v
TrbNames.v
XhciDevice.v
Xhci.v
XhciSpec.v
XhciProgress.v
DeviceState.v
XhciInit.v
XhciInitSpec.v
Main64.v
MainSpec64.v
Loader.v
LoaderSpec.v
LoaderKernel.v
LoaderBoot.v
Kernel64.v
Kernel64Spec.v
Paging32.v
Terminal.v
Support64.v
