(* ===== verification/Prelude.v ===== *)
(** * A verification development of the unagi-os kernel

    unagi-os is a small x86 kernel.  The repository holds a 32-bit kernel in C and
    its 64-bit successor in C++, which share the directory src/src.

    In the 32-bit kernel [kernel_main] (src/src/kernel.c)
    sets up the interrupt table, the timer chip, the keyboard controller, the
    heap, the graphics and the disk, starts three tasks and enters an event loop.
    An interrupt puts a datum into a FIFO, which wakes the task that sleeps on it;
    the timer interrupt fires the timers that are due and, when the time slice is
    over, switches to the next task.  The tasks draw into the buffers of
    overlapping sheets, and the window layer brings them to the frame buffer.

    The 64-bit kernel (src/src/main.cpp) is started by a UEFI loader, sets up
    segments, page tables and the bitmap of page frames, scans the PCI buses for a
    USB controller, exchanges commands and events with it over rings in memory,
    and then takes messages from a queue that the interrupt handler fills.

    ** How the code is translated

    A C function is a Rocq function of the state it reads, with the state it
    changes among its results.  Integers are [Z] with the wrap-around of their
    width written out ([u8], [u32], [s32], ...); structs are records; an array is
    a list, and a pointer into an array of structs is an index; linked cells and
    blocks of the heap live in finite maps from addresses, so that aliasing is
    visible.  A result [None] is a fault: an access outside of an array, the use of
    a null pointer, or a loop that runs out of fuel.  Theorems therefore say that
    a call returns, and with what.  Port writes and far jumps are recorded in the
    order in which they are made.  Hardware is a parameter with its documented
    behaviour as a hypothesis (the ATA controller, memory that is not there) or
    without any (the keyboard controller).

    ** Files

    - [Prelude]: machine integers, arrays, loops, shared lemmas and tactics.
    - [Kutil] (src/src/util/kutil.c): strings, bytes, alignment.
    - [Arith64] (src/src/util/arith64.c): the compiler's 64-bit routines.
    - [Fifo] (src/src/util/fifo.c): the ring buffer, and that any sequence of calls
      behaves as a bounded queue.
    - [Dlist] (src/src/util/dlist.c): circular doubly linked lists over a store of
      links, and the separation lemmas the heap and the timers use.
    - [Heapdl], [HeapdlInv], [HeapdlFree], [HeapdlSpec] (src/src/memory/heapdl.c):
      the chunk allocator; the representation invariant (chunks tile the region,
      the free list names the free ones); malloc, free and init against it.
    - [Allocator]: what an allocator promises to its clients, as a class, and what
      clients may conclude.  [Memory] (src/src/memory/memory.c) discharges it for
      the chunk allocator.  [Memtest]: the memory test of the same file.
    - [HeapTable] (src/src/memory/heap.c, kheap.c): the alternative allocator.
    - [Process], [ProcessInv], [ProcessSpec] (src/src/kernel/process.c): tasks and
      levels; the queues as lists; run, sleep and the round robin.
    - [Timer], [TimerInv], [TimerSpec] (src/src/pic/timer.c): the sorted list of
      timers; arming, freeing and the interrupt handler.
    - [Descriptors] (src/src/gdt/gdt.c, src/src/idt/idt.c): segment and gate
      descriptors.
    - [Sched], [SchedSpec] (src/src/kernel/mprocessfifo.c, src/src/idt/idt.c,
      src/src/pic/pic.c): the parts put together, the interrupt handlers, and the
      invariant of the kernel under any sequence of interrupts.
    - [Sheet], [SheetSpec] (src/src/drivers/graphic/sheet.c): the window layers;
      the drawing loops pixel by pixel, and that the screen stays right.
    - [Font] (src/src/font/hankaku.c), [Draw], [DrawSpec], [Video]
      (src/src/drivers/graphic/videomode.c): rectangles, text, windows, text
      boxes with their line buffer, and the globals of the screen.  [Video] also
      has the mouse handler of src/src/kernel.c.
    - [Printf], [PrintfSpec], [PrintfFloat] (src/src/util/printf.c): the formatter.
      Its floating point conversions are over any arithmetic, the class [FPU] of
      [Float]: what the compiler keeps of an intermediate result is not in the
      source.  [Float] has two of them, IEEE 754 doubles and the rationals.
    - [Input] (src/src/drivers/ps2mouse.c, keyboard.c), [Kbc]
      (src/src/drivers/ps2kbc.c, src/src/io/io.c): mouse packets, scancodes, and
      the controller's initialisation as a trace of port accesses.
    - [Stream] (src/src/disk/disk.c, dstream.c): sectors and byte streams.
    - [Path] (src/src/fs/pathparser.c): paths.
    - [Kernel] (src/src/kernel.c): one turn of the loop of each task, and the start
      of the tasks, over the state of all components.  [KernelStart], [KernelBoot]:
      [kernel_main] itself, and the invariant of the state it really starts in,
      as a second instance of the interface [SwitchInv] of [SchedSpec].
    - [Selftest], [HeapDebug] (src/src/test.c): the self tests that the kernel runs,
      and the check of the heap that can be called by hand.
    - [ScreenDemo] (src/src/drivers/graphic/videomode.c): the tests of drawing.
    - [Paging32] (src/src/memory/paging/paging.c, src/src/kernel/features.c): page
      directories and the mapping of single pages.  [Terminal]
      (src/src/drivers/graphic/colortextmode.c): the text mode terminal.

    The 64-bit kernel:

    - [Error], [ErrorNames] (error.hpp), [Bits]: error codes; bit fields of a word.
    - [Frames] (memory_manager.cpp, memory_map.hpp, main.cpp): page frames.
    - [ArrayQueue] (queue.hpp): the message queue.
    - [UsbMemory] (usb/memory.cpp): the pool the USB driver takes its memory from.
    - [Ring] (usb/xhci/ring.cpp, ring.hpp, trb.hpp, registers.hpp): the rings over
      which driver and controller talk; the controller is a function written from
      the protocol of the cycle bit.
    - [Paging64] (paging.cpp): the page tables, and the processor's walk of them.
    - [Segment64] (segment.cpp, interrupt.cpp, interrupt.hpp): descriptors.
    - [Graphics64] (graphics.cpp, font.cpp): the interface of a pixel writer as a
      class with its two instances; rectangles and text on any writer.
    - [Console64] (console.cpp), [Mouse64] (mouse.cpp): clients of that interface.
    - [Pci], [PciLog] (pci.cpp, pci.hpp): the scan of the buses, the set-up of
      interrupts, and the list of devices that is logged.
    - [ArrayMap] (usb/arraymap.hpp): the small map from setup blocks to requests.
    - [Usb], [UsbSpec], [UsbProtocol] (usb/device.cpp, usb/descriptor.hpp,
      usb/classdriver): a USB device, its descriptors, the keyboard and the mouse,
      over any transport ([Transport], with its laws [TransportLaws]); the parser of
      configurations; the dialogue that brings a device up; the reports.
    - [Trb], [TrbNames] (usb/xhci/trb.hpp, trb.cpp), [XhciDevice], [DeviceState]
      (usb/xhci/device.cpp, context.hpp): the blocks of transfers and commands, their
      names in the log, and the transport that xHCI gives.
    - [Xhci], [XhciSpec], [XhciProgress] (usb/xhci/xhci.cpp, devmgr.cpp, port.cpp):
      ports, slots and commands as a state machine driven by the events of the
      controller; the invariant over all of its runs, and its progress.
    - [XhciInit], [XhciInitSpec] (usb/xhci/xhci.cpp, registers.hpp, registers.cpp,
      register.hpp): starting the controller as a trace of register accesses, and a
      monitor of the documented order.
    - [Main64], [MainSpec64] (main.cpp): the choice of the controller, the interrupt
      handler and the main loop as a machine, the desktop and the mouse pointer.
    - [Kernel64], [Kernel64Spec] (main.cpp): [KernelMainNewStack], the calls that
      put the parts above together, up to the main loop.
    - [Support64] (logger.cpp, newlib_support.c, libcxx_support.cpp): the log, and
      what the C library asks of the kernel.

    The boot loader of the 64-bit kernel (src/UnagiLoaderPkg/efimain.c, elf.hpp):

    - [Loader]: a program over the calls of the firmware, as a free monad.
    - [LoaderSpec]: its runs against a firmware that answers as it likes.
    - [LoaderKernel], [LoaderBoot]: its runs against a firmware that keeps its
      documented promises ([conforms]) and serves the file of the kernel ([served]).

    ** What is proved

    - Safety and invariants: any sequence of interrupts keeps the invariant of
      timers, task queues and FIFOs and never faults ([SchedSpec]), and [kernel_main]
      leads to a state from which that holds ([KernelBoot]); clients of the
      heap never hold overlapping blocks ([Memory]); text never leaves its padded
      buffer ([DrawSpec]); [snprintf] never leaves its bound ([PrintfSpec]); the
      keyboard controller is only accessed when it is ready ([Kbc]).
    - Functional correctness: malloc, free, kzalloc and heap initialisation; run,
      sleep and switch of tasks; arming, re-arming, freeing and firing of timers;
      moving, raising, hiding and showing of sheets; disk streams; the memory test;
      mouse packets; complete painting of windows.
    - Refinement and equivalence: FIFO and bounded queue; line buffer and line with
      a cursor; 64-bit division and shifts and those of [Z].
    - 64-bit kernel: frames are never given out twice, the search finds the first
      free run and ends ([Frames]); the message queue is a bounded queue
      ([ArrayQueue]); blocks of the pool are aligned and disjoint ([UsbMemory]);
      commands and events arrive in order and are never seen half written
      ([Ring]); the page tables are the identity below 2 TiB ([Paging64]); the
      console shows the last lines of the text ([Console64]); the scan of the PCI
      buses ends and finds every reachable function ([Pci]).
    - USB: at most one port is being addressed at any time, and the turn passes on
      ([XhciSpec], [XhciProgress]); the controller is started in the documented
      order whatever it answers, or not at all ([XhciInitSpec]); configurations are
      parsed as the list of descriptors they are ([UsbSpec]); a device comes up by
      three requests, and every key and movement reaches its observer
      ([UsbProtocol]); a control transfer comes back as the request it was
      ([XhciDevice]); no event of the controller is lost between interrupt and main
      loop, and the pointer is drawn where the mouse leads it ([MainSpec64]).
    - Start of the 64-bit kernel: on a machine as documented its entry reaches the
      main loop of [Main64] with the screen, the memory, the controller and the event
      ring in order ([Kernel64Spec]).
    - Boot: the loader jumps to the kernel only after the firmware has accepted the
      key of the latest memory map, and calls no boot service after that
      ([LoaderSpec]); the segments of the kernel are then in memory as the file has
      them, in pages that the memory map hands over as taken ([LoaderBoot]).
    - Leftovers of the 32-bit kernel: mapping a page changes the translation of this
      page alone ([Paging32]); the terminal shows what is written to it ([Terminal]).
    - Round trips: descriptors, decimal numbers through [sprintf], paths; the text
      of a double, in exact arithmetic, is the double rounded to the digits asked
      for ([PrintfFloat]).
    - Liveness: within as many switches as a level has tasks each of them runs.
    - What the code does wrong is proved too, on the states where it happens:
      [mem_free_wraps], [kmalloc_wraps], [stale_turn], [settimer_lost],
      [alarm_late], [lowering_leaves_stale_pixels], [updown_loses_sheets],
      [table_blocks_overlap], [start_block_is_last], [path_free_faults],
      [mouse_move_lost], [setup_frames_faults], [AllocMem_wraps], [ring_stalls],
      [walk_leaves_table], [negative_char_faults], [second_put_shadowed],
      [zero_length_descriptor_hangs], [missing_endpoint_faults],
      [key_lost_after_modifier], [unknown_code_faults], [unplugged_port_blocks],
      [run_after_failure], [DCBAAP_roundtrip], [hlt_does_not_stop],
      [missing_file_unnoticed], [page_zero_cleared], [pd_flags_misplaced],
      [unaligned_table_lost], [long_text_faults], [negative_char_colour],
      [long_message_faults], [no_heap], [test_dlist_on_null],
      [halfway_carry_lost], [zero_exponent], [precision_42_faults],
      [low_screen_faults], [allocated_has_no_state].

    ** Fuel

    Loops with a counter run exactly as often as the code's.  The other loops get
    a fuel that the theorems show to be enough: the search of the free list the
    number of chunks that fit into the heap ([heap_fuel]), the list of timers the number
    of timers there can be, [dstream_read] one call for each sector, the format
    loop the length of the format, path parsing the length of the path, the memory
    test the number of pages.  Waiting for a device is bounded by a parameter.
    The search for frames gets one round for each frame of the range, the scan of
    the PCI buses a depth of 33 ([scan_fuel]; each level but the last adds one of
    at most 32 devices, or stops the scan because the table is full).  The walk
    along a capability list is cut off at 256, one step for each address there is;
    beyond that it would not end in the code either.  The search for a descriptor
    takes at most one step for each of the 256 bytes there are ([desc_fuel]).
    Polls of the xHCI registers are bounded by a parameter [patience]: a poll that
    exceeds it is reported as one that never ends, and [controller_starts] says
    when it does not.  In the loader the walk along the program headers has 65536
    steps ([phdr_fuel]; their number has 16 bits), writing the memory map one turn
    for each of its bytes; the number of graphics modes is a parameter.
    The loops over the formatter's buffer of 32 characters have 32 turns; the
    nesting of [_ftoa] and [_etoa] is bounded by [FLOAT_DEPTH], of which
    [ftoa_in_range] needs none and the numbers of [depth_enough] one.

    ** Not modelled

    Assembly, apart from the effects recorded where C calls it, and the layout of the
    lines that the 64-bit kernel logs; what is read to print them is, where it can
    fail ([TrbNames], [PciLog], [log_hid]). Bit fields of registers that no code reads
    have no definition. *)
From Stdlib Require Import ZArith Lia.
From stdpp Require Import base option list gmap numbers sorting.

#[global] Open Scope Z_scope.

(** ** Status codes of src/src/status.h *)
Definition EIO : Z := 1.
Definition EINVARG : Z := 2.
Definition ENOMEM : Z := 3.
Definition EBADPATH : Z := 4.

(** ** Machine integers

    A C integer is a [Z].  Unsigned arithmetic wraps, so every unsigned
    operation that can leave its range is written with [u8], [u16], [u32], [u64];
    [s32] and [s64] convert a bit pattern to a signed integer.  Signed overflow has
    no defined meaning in C: signed operations are those of [Z]. *)
Definition UINT32_MAX : Z := 4294967295.
Definition INT32_MAX : Z := 2147483647.
Definition u8 (z : Z) : Z := z mod 2 ^ 8.
Definition u16 (z : Z) : Z := z mod 2 ^ 16.
Definition u32 (z : Z) : Z := z mod 2 ^ 32.
Definition s32 (z : Z) : Z := (z + 2 ^ 31) mod 2 ^ 32 - 2 ^ 31.
Definition u64 (z : Z) : Z := z mod 2 ^ 64.
Definition s64 (z : Z) : Z := (z + 2 ^ 63) mod 2 ^ 64 - 2 ^ 63.

(** ** Arrays

    An array of the source is a list; an access outside of it is a fault,
    which the models return as [None]. *)
Definition lookupZ {A} (l : list A) (i : Z) : option A :=
  if 0 <=? i then l !! Z.to_nat i else None.

Definition updateZ {A} (l : list A) (i : Z) (x : A) : option (list A) :=
  if (0 <=? i) && (i <? Z.of_nat (length l)) then Some (<[Z.to_nat i := x]> l)
  else None.

Declare Scope c_scope.
Delimit Scope c_scope with C.
Notation "l $[ i ]" := (lookupZ l i) (at level 1, i at level 99) : c_scope.
Notation "l $[ i := x ]" := (updateZ l i x) (at level 1, i at level 99) : c_scope.
#[global] Open Scope c_scope.

(** ** Loops

    [for_loop n i f s] runs [f i], [f (i+1)], ..., [n] bodies in all, threading
    the state and stopping at the first fault; [for_range lo hi] is
    [for (i = lo; i < hi; i++)]. *)
Fixpoint for_loop {S} (n : nat) (i : Z) (f : Z -> S -> option S) (s : S) : option S :=
  match n with
  | O => Some s
  | Datatypes.S n => s' ← f i s; for_loop n (i + 1) f s'
  end.

Definition for_range {S} (lo hi : Z) (f : Z -> S -> option S) (s : S) : option S :=
  for_loop (Z.to_nat (hi - lo)) lo f s.

(** A loop with early exit: the body says whether the loop goes on, is left by
    [break], or whether the function returns. *)
Inductive step (S R : Type) : Type :=
| Continue (s : S)
| Break (s : S)
| Return (s : S) (r : R).
Arguments Continue {S R} s.
Arguments Break {S R} s.
Arguments Return {S R} s r.

Fixpoint loop_until {S R} (n : nat) (i : Z) (f : Z -> S -> option (step S R)) (s : S)
  : option (step S R) :=
  match n with
  | O => Some (Continue s)
  | Datatypes.S n =>
      r ← f i s;
      match r with
      | Continue s' => loop_until n (i + 1) f s'
      | Break s' => Some (Break s')
      | Return s' v => Some (Return s' v)
      end
  end.

Lemma loop_until_S {S R} n i (f : Z -> S -> option (step S R)) s :
  loop_until (Datatypes.S n) i f s
  = (r ← f i s;
     match r with
     | Continue s => loop_until n (i + 1) f s
     | Break s => Some (Break s)
     | Return s v => Some (Return s v)
     end).
Proof. done. Qed.

Lemma loop_until_ext {S R} (f g : Z -> S -> option (step S R)) n i s :
  (forall i s, f i s = g i s) -> loop_until n i f s = loop_until n i g s.
Proof.
  intros H. revert i s. induction n as [|n IH]; intros i s; cbn [loop_until]; [done|].
  rewrite H. destruct (g i s) as [[]|]; cbn; auto.
Qed.

(** ** Lemmas on machine integers *)
Lemma u8_range z : 0 <= u8 z < 2 ^ 8.
Proof. apply Z.mod_pos_bound. lia. Qed.

Lemma u16_range z : 0 <= u16 z < 2 ^ 16.
Proof. apply Z.mod_pos_bound. lia. Qed.

Lemma u32_range z : 0 <= u32 z < 2 ^ 32.
Proof. apply Z.mod_pos_bound. lia. Qed.

Lemma u32_nonneg z : 0 <= u32 z.
Proof. apply u32_range. Qed.

Create HintDb machine.
#[export] Hint Resolve u8_range u16_range u32_range u32_nonneg : machine.

Lemma u8_small z : 0 <= z < 2 ^ 8 -> u8 z = z.
Proof. intros. by apply Z.mod_small. Qed.

Lemma u16_small z : 0 <= z < 2 ^ 16 -> u16 z = z.
Proof. intros. by apply Z.mod_small. Qed.

Lemma u32_small z : 0 <= z < 2 ^ 32 -> u32 z = z.
Proof. intros. by apply Z.mod_small. Qed.

Lemma s32_small z : - 2 ^ 31 <= z < 2 ^ 31 -> s32 z = z.
Proof. intros. unfold s32. rewrite Z.mod_small; lia. Qed.

Lemma u32_add_idemp_l a b : u32 (u32 a + b) = u32 (a + b).
Proof. unfold u32. by rewrite Zplus_mod_idemp_l. Qed.

Lemma u32_add_idemp_r a b : u32 (a + u32 b) = u32 (a + b).
Proof. unfold u32. by rewrite Zplus_mod_idemp_r. Qed.

Lemma u32_sub_idemp_l a b : u32 (u32 a - b) = u32 (a - b).
Proof. unfold u32. by rewrite Zminus_mod_idemp_l. Qed.

Lemma u32_sub_idemp_r a b : u32 (a - u32 b) = u32 (a - b).
Proof. unfold u32. by rewrite Zminus_mod_idemp_r. Qed.

(** ** Lemmas on arrays *)
Lemma lookupZ_Some {A} (l : list A) i x :
  l$[i] = Some x <-> 0 <= i /\ l !! Z.to_nat i = Some x.
Proof. unfold lookupZ. destruct (Z.leb_spec 0 i); split; naive_solver lia. Qed.

Lemma lookupZ_lt {A} (l : list A) i x :
  l$[i] = Some x -> 0 <= i < Z.of_nat (length l).
Proof. intros [? H]%lookupZ_Some. apply lookup_lt_Some in H. lia. Qed.

Lemma lookupZ_is_Some {A} (l : list A) i :
  0 <= i < Z.of_nat (length l) -> is_Some (l$[i]).
Proof.
  intros. unfold lookupZ. destruct (Z.leb_spec 0 i); [|lia].
  apply lookup_lt_is_Some. lia.
Qed.

Lemma updateZ_in {A} (l : list A) i x :
  0 <= i < Z.of_nat (length l) -> l$[i := x] = Some (<[Z.to_nat i := x]> l).
Proof.
  intros. unfold updateZ.
  destruct (Z.leb_spec 0 i); destruct (Z.ltb_spec i (Z.of_nat (length l))); try lia; done.
Qed.

Lemma updateZ_out {A} (l : list A) i x :
  ~ (0 <= i < Z.of_nat (length l)) -> l$[i := x] = None.
Proof.
  intros. unfold updateZ.
  destruct (Z.leb_spec 0 i); destruct (Z.ltb_spec i (Z.of_nat (length l))); try lia; done.
Qed.

Lemma updateZ_Some {A} (l l' : list A) i x :
  l$[i := x] = Some l' ->
  0 <= i < Z.of_nat (length l) /\ l' = <[Z.to_nat i := x]> l.
Proof.
  unfold updateZ.
  destruct (Z.leb_spec 0 i); destruct (Z.ltb_spec i (Z.of_nat (length l))); naive_solver lia.
Qed.

Lemma lookupZ_insert {A} (l : list A) i j x :
  0 <= i < Z.of_nat (length l) ->
  (<[Z.to_nat i := x]> l)$[j] = if decide (i = j) then Some x else l$[j].
Proof.
  intros. unfold lookupZ. destruct (Z.leb_spec 0 j); case_decide; subst; try lia; try done.
  - apply list_lookup_insert_eq. lia.
  - apply list_lookup_insert_ne. lia.
Qed.

Lemma lookupZ_insert_eq {A} (l : list A) i x :
  0 <= i < Z.of_nat (length l) -> (<[Z.to_nat i := x]> l)$[i] = Some x.
Proof. intros. rewrite lookupZ_insert by done. by rewrite decide_True. Qed.

Lemma lookupZ_insert_ne {A} (l : list A) i j x :
  0 <= i -> i <> j -> (<[Z.to_nat i := x]> l)$[j] = l$[j].
Proof.
  intros. unfold lookupZ. destruct (Z.leb_spec 0 j); [|done].
  apply list_lookup_insert_ne. lia.
Qed.

Lemma updateZ_length {A} (l l' : list A) i x :
  l$[i := x] = Some l' -> length l' = length l.
Proof. intros [_ ->]%updateZ_Some. apply length_insert. Qed.

(** ** Lemmas on loops *)
Lemma for_range_nil {S} lo hi (f : Z -> S -> option S) s :
  hi <= lo -> for_range lo hi f s = Some s.
Proof. intros. unfold for_range. by rewrite Z2Nat.nonpos by lia. Qed.

Lemma for_range_cons {S} lo hi (f : Z -> S -> option S) s :
  lo < hi -> for_range lo hi f s = (s' ← f lo s; for_range (lo + 1) hi f s').
Proof.
  intros. unfold for_range.
  replace (Z.to_nat (hi - lo)) with (Datatypes.S (Z.to_nat (hi - (lo + 1)))) by lia.
  done.
Qed.

(** An invariant of the body, indexed by the loop counter, is one of the loop. *)
Lemma for_range_inv {S} (I : Z -> S -> Prop) lo hi (f : Z -> S -> option S) s :
  lo <= hi -> I lo s ->
  (forall i s, lo <= i < hi -> I i s -> exists s', f i s = Some s' /\ I (i + 1) s') ->
  exists s', for_range lo hi f s = Some s' /\ I hi s'.
Proof.
  intros Hle HI Hstep.
  remember (Z.to_nat (hi - lo)) as n eqn:Hn.
  revert lo s Hle HI Hstep Hn. induction n as [|n IH]; intros lo s Hle HI Hstep Hn.
  - exists s. rewrite for_range_nil by lia. by replace hi with lo by lia.
  - rewrite for_range_cons by lia.
    destruct (Hstep lo s) as (s1 & Hf & HI1); [lia|done|]. rewrite Hf. simpl.
    apply IH; [lia|done| |lia]. intros i s' ? ?. apply Hstep; [lia|done].
Qed.

Lemma for_loop_ext {S} n lo (f g : Z -> S -> option S) s :
  (forall i s, lo <= i < lo + Z.of_nat n -> f i s = g i s) -> for_loop n lo f s = for_loop n lo g s.
Proof.
  revert lo s. induction n as [|n IH]; intros lo s H; [done|]. cbn [for_loop]. rewrite H by lia.
  destruct (g lo s) as [s'|]; [|done]. apply IH. intros i t Hi. apply H. lia.
Qed.

(** What every body keeps is kept by the loop, when it returns. *)
Lemma for_range_keeps {S} (P : S -> Prop) lo hi (f : Z -> S -> option S) s s' :
  (forall i s s', f i s = Some s' -> P s -> P s') ->
  for_range lo hi f s = Some s' -> P s -> P s'.
Proof.
  intros Hf. unfold for_range. generalize (Z.to_nat (hi - lo)). intros n. revert lo s.
  induction n as [|n IH]; intros lo s E HP; cbn [for_loop] in E; [by injection E as ->|].
  apply option.bind_Some in E as (s1 & E1 & E). eauto.
Qed.

(** A loop whose bodies all go on, and one that is left at index [lo + k]. *)
Lemma loop_until_all {S R} (f : Z -> S -> option (step S R)) (g : Z -> S) (n : nat) lo :
  (forall i, lo <= i < lo + Z.of_nat n -> f i (g i) = Some (Continue (g (i + 1)))) ->
  loop_until n lo f (g lo) = Some (Continue (g (lo + Z.of_nat n))).
Proof.
  revert lo. induction n as [|n IH]; intros lo H; cbn [loop_until].
  - by rewrite Z.add_0_r.
  - rewrite H by lia. simpl. rewrite IH by (intros; apply H; lia). do 3 f_equal. lia.
Qed.

Lemma loop_until_stop {S R} (f : Z -> S -> option (step S R)) (g : Z -> S) (n k : nat) lo r :
  (k < n)%nat ->
  (forall i, lo <= i < lo + Z.of_nat k -> f i (g i) = Some (Continue (g (i + 1)))) ->
  f (lo + Z.of_nat k) (g (lo + Z.of_nat k)) = Some r ->
  (forall s, r <> Continue s) ->
  loop_until n lo f (g lo) = Some r.
Proof.
  revert n lo. induction k as [|k IH]; intros n lo Hn H Hr Hc; (destruct n as [|n]; [lia|]);
    cbn [loop_until].
  - rewrite Z.add_0_r in Hr. rewrite Hr. simpl. destruct r; try done. by destruct (Hc s).
  - rewrite H by lia. simpl. apply IH; [lia|intros; apply H; lia| |done].
    replace (lo + 1 + Z.of_nat k) with (lo + Z.of_nat (Datatypes.S k)) by lia. done.
Qed.

Lemma lookupZ_nat {A} (l : list A) (n : nat) : l$[Z.of_nat n] = l !! n.
Proof. unfold lookupZ. destruct (Z.leb_spec 0 (Z.of_nat n)); [|lia]. by rewrite Nat2Z.id. Qed.

Lemma updateZ_nat {A} (l : list A) (n : nat) x :
  (n < length l)%nat -> l$[Z.of_nat n := x] = Some (<[n := x]> l).
Proof. intros. rewrite updateZ_in by lia. by rewrite Nat2Z.id. Qed.

(** ** Lemmas on sorted lists *)
Lemma StronglySorted_impl {A} (R R' : A -> A -> Prop) l :
  (forall x y, R x y -> R' x y) -> StronglySorted R l -> StronglySorted R' l.
Proof.
  intros HR. induction 1 as [|x l HS IH HF]; constructor; [done|].
  eapply Forall_impl; [exact HF|]. apply HR.
Qed.

(** ** Lemmas on filters *)
Section filters.
Context {A : Type} (P : A -> Prop) `{HP : !forall x, Decision (P x)}.

Lemma filter_all (l : list A) : (forall x, x ∈ l -> P x) -> filter P l = l.
Proof.
  induction l as [|x l IH]; intros Hl; [done|].
  rewrite filter_cons_True by (apply Hl; by apply elem_of_cons; left). f_equal. apply IH.
  intros y Hy. apply Hl. by apply elem_of_cons; right.
Qed.

Lemma filter_none (l : list A) : (forall x, x ∈ l -> ~ P x) -> filter P l = [].
Proof.
  induction l as [|x l IH]; intros Hl; [done|].
  rewrite filter_cons_False by (apply Hl; by apply elem_of_cons; left). apply IH.
  intros y Hy. apply Hl. by apply elem_of_cons; right.
Qed.

(** A list cut into a part that satisfies [P] and one that does not. *)
Lemma filter_split (l1 l2 : list A) :
  (forall x, x ∈ l1 -> P x) -> (forall x, x ∈ l2 -> ~ P x) -> filter P (l1 ++ l2) = l1.
Proof. intros H1 H2. by rewrite list.filter_app, filter_all, filter_none, app_nil_r. Qed.

Lemma filter_split_r (l1 l2 : list A) :
  (forall x, x ∈ l1 -> ~ P x) -> (forall x, x ∈ l2 -> P x) -> filter P (l1 ++ l2) = l2.
Proof. intros H1 H2. by rewrite list.filter_app, filter_none, filter_all. Qed.
End filters.

(** ** Automation

    [invert_binds H] opens a computation of the option monad that returned. *)
Ltac invert_binds H :=
  repeat (apply option.bind_Some in H; destruct H as (? & ? & H)).

Lemma bind_Some_eq {A B} (a : A) (k : A -> option B) : (Some a ≫= k) = k a.
Proof. reflexivity. Qed.

(** [concrete] decides a comparison of closed integers by computation. *)
Ltac concrete :=
  repeat match goal with |- _ /\ _ => split end;
  vm_compute; first [reflexivity | discriminate | intros; discriminate | congruence].
