(* ===== verification/Kutil.v ===== *)
(** * The byte, string and alignment helpers of src/src/util/kutil.c

    A pointer to memory is the list of the bytes (each a [Z] in 0..255) from
    that address on; reading or writing past the end of the list is a fault. *)
From Stdlib Require Import ZArith Lia Sorted.
From stdpp Require Import base option list numbers.
From S2P Require Import Prelude.

Set Default Proof Using "Type".

(** ** Strings *)

(** The bytes are copied up to the terminator, which is written last; the result
    is the destination memory and the offset of the pointer returned. *)
Fixpoint kstrcpy_from (i : Z) (dest src : list Z) : option (list Z * Z) :=
  match src with
  | [] => None
  | c :: src =>
      if c =? 0 then dest ← dest$[i := 0]; Some (dest, i)
      else dest ← dest$[i := c]; kstrcpy_from (i + 1) dest src
  end.
Definition kstrcpy (dest src : list Z) : option (list Z * Z) := kstrcpy_from 0 dest src.

Fixpoint kstrcmp (s1 s2 : list Z) : option Z :=
  match s1, s2 with
  | c1 :: s1, c2 :: s2 =>
      if negb (c1 =? 0) && (c1 =? c2) then kstrcmp s1 s2 else Some (c1 - c2)
  | _, _ => None
  end.

Fixpoint kstrlen (str : list Z) : option Z :=
  match str with
  | [] => None
  | c :: str => if negb (c =? 0) then n ← kstrlen str; Some (n + 1) else Some 0
  end.

(** [max] bounds the loop: [for (len = 0; len < max; len++) if (!str[len]) break;] *)
Fixpoint kstrnlen_from (max : nat) (len : Z) (str : list Z) : option Z :=
  match max with
  | O => Some len
  | S max =>
      match str with
      | [] => None
      | c :: str => if c =? 0 then Some len else kstrnlen_from max (len + 1) str
      end
  end.
Definition kstrnlen (str : list Z) (max : Z) : option Z :=
  kstrnlen_from (Z.to_nat max) 0 str.

(** ** Memory *)
Definition kmemset (ptr : list Z) (c size : Z) : option (list Z) :=
  for_range 0 size (fun i dst => dst$[i := u8 c]) ptr.

(** The C library name, which the compiler requires. *)
Definition memset (ptr : list Z) (c size : Z) : option (list Z) := kmemset ptr c size.

Definition kmemcpy (dst src : list Z) (size : Z) : option (list Z) :=
  for_range 0 size (fun i dst => b ← src$[i]; dst$[i := b]) dst.

Fixpoint kmemcmp_n (n : nat) (s1 s2 : list Z) : option Z :=
  match n with
  | O => Some 0
  | S n =>
      match s1, s2 with
      | c1 :: s1, c2 :: s2 =>
          if negb (c1 =? c2) then Some (if c1 <? c2 then -1 else 1)
          else kmemcmp_n n s1 s2
      | _, _ => None
      end
  end.
Definition kmemcmp (str1 str2 : list Z) (n : Z) : option Z := kmemcmp_n (Z.to_nat n) str1 str2.

(** [hex_chars], the characters of 0123456789abcdef. *)
Definition hex_char (d : Z) : Z := if d <? 10 then 48 + d else 87 + d.

(** The loop runs [i] from [size - 1] down to 0; at [i] it writes the two digits
    of byte [i] at offset [(size - i - 1) * 2]. *)
Definition hex_to_ascii (ascii_str_buf hex_number : list Z) (size : Z) : option (list Z) :=
  buf ← for_range 0 size (fun k buf =>
          let i := size - 1 - k in
          byte ← hex_number$[i];
          buf ← buf$[(size - i - 1) * 2 := hex_char (Z.land (Z.shiftr byte 4) 0xF)];
          buf$[(size - i - 1) * 2 + 1 := hex_char (Z.land byte 0xF)]) ascii_str_buf;
  buf$[size * 2 := 0].

(** ** Characters and masks *)
Definition is_digit (c : Z) : bool := (48 <=? c) && (c <=? 57).
Definition to_digit (c : Z) : Z := c - 48.

Definition isMaskBitsAllSet (data mask : Z) : bool := Z.land data mask =? mask.
Definition isMaskBitsAllClear (data mask : Z) : bool := Z.land data mask =? 0.

(** ** Alignment ([uintptr_t] is 32 bits wide) *)
Definition align_address_to_upper (addr ALIGN : Z) : Z :=
  let residual := addr mod ALIGN in
  if residual =? 0 then addr else u32 (addr + (ALIGN - residual)).

Definition align_address_to_lower (addr ALIGN : Z) : Z :=
  let residual := addr mod ALIGN in
  if residual =? 0 then addr else u32 (addr - residual).

(** ** Removal of array elements by index *)
Definition arr_remove_element_u32 (arr index_to_remove : list Z)
    (arr_size index_to_remove_size : Z) : option (list Z) :=
  '(arr, _, _) ← for_range 0 arr_size (fun oldi '(arr, di, newi) =>
      skip ← (if di <? index_to_remove_size
              then r ← index_to_remove$[di]; Some (oldi =? r) else Some false);
      if skip : bool then Some (arr, di + 1, newi)
      else x ← arr$[oldi]; arr ← arr$[newi := x]; Some (arr, di, newi + 1)) (arr, 0, 0);
  Some arr.

Definition test_kutil : option bool :=
  if negb (isMaskBitsAllSet 0xbf 0xa) then Some false
  else if isMaskBitsAllSet 0xbf 0xff then Some false
  else if isMaskBitsAllSet 0xbf 0xdf then Some false
  else if negb (isMaskBitsAllClear 0xbf 0x40) then Some false
  else if negb (isMaskBitsAllClear 0x9 0x6) then Some false
  else
    let arr := [10; 20; 30; 40; 50; 60; 70; 80] ++ replicate 120 0 in
    let index_to_remove := [2; 4] ++ replicate 126 0 in
    arr ← arr_remove_element_u32 arr index_to_remove 8 2;
    r ← loop_until 6 0 (fun i _ =>
          x ← arr$[i]; y ← [10; 20; 40; 60; 70; 80]$[i];
          Some (if x =? y then Continue tt else Return tt false)) tt;
    match r with Return _ b => Some b | _ => Some true end.

Example test_kutil_passes : test_kutil = Some true.
Proof. vm_compute. reflexivity. Qed.

(** ** Alignment lemmas *)
Lemma align_upper_eq addr a :
  0 < a -> 0 <= addr -> addr + a <= 2 ^ 32 ->
  align_address_to_upper addr a = (addr + a - 1) / a * a.
Proof.
  intros Ha H0 Hr. unfold align_address_to_upper.
  pose proof (Z.div_mod addr a ltac:(lia)) as E.
  pose proof (Z.mod_pos_bound addr a Ha).
  destruct (Z.eqb_spec (addr mod a) 0) as [E0|E0].
  - replace (addr + a - 1) with (addr / a * a + (a - 1)) by lia.
    rewrite Z.div_add_l by lia. rewrite (Z.div_small (a - 1)) by lia. lia.
  - rewrite u32_small by lia.
    replace (addr + a - 1) with ((addr / a + 1) * a + (addr mod a - 1)) by lia.
    rewrite Z.div_add_l by lia. rewrite (Z.div_small (addr mod a - 1)) by lia. lia.
Qed.

Lemma align_upper_spec addr a :
  0 < a -> 0 <= addr -> addr + a <= 2 ^ 32 ->
  let r := align_address_to_upper addr a in
  addr <= r < addr + a /\ (a | r).
Proof.
  intros Ha H0 Hr r. subst r. rewrite align_upper_eq by done. split.
  - pose proof (Z.div_mod (addr + a - 1) a ltac:(lia)).
    pose proof (Z.mod_pos_bound (addr + a - 1) a Ha). lia.
  - apply Z.divide_factor_r.
Qed.

Lemma align_lower_spec addr a :
  0 < a -> 0 <= addr < 2 ^ 32 ->
  let r := align_address_to_lower addr a in
  addr - a < r <= addr /\ 0 <= r /\ (a | r).
Proof.
  intros Ha H0. unfold align_address_to_lower.
  pose proof (Z.div_mod addr a ltac:(lia)). pose proof (Z.mod_pos_bound addr a Ha).
  assert (0 <= addr / a) by (apply Z.div_pos; lia).
  destruct (Z.eqb_spec (addr mod a) 0) as [E0|E0]; simpl.
  - split_and!; [lia..|]. by apply Z.mod_divide; [lia|].
  - rewrite u32_small by nia. split_and!; [nia..|]. exists (addr / a). lia.
Qed.

Lemma align_upper_id addr a : 0 < a -> (a | addr) -> align_address_to_upper addr a = addr.
Proof.
  intros Ha Hd. unfold align_address_to_upper.
  destruct (Z.eqb_spec (addr mod a) 0) as [E|E]; [done|].
  exfalso. apply E. by apply Z.mod_divide; [lia|].
Qed.

(** ** [arr_remove_element_u32] against its specification *)

(** The elements whose index (counted from [i]) is not in [idx]. *)
Fixpoint keep (idx : list Z) (i : Z) (l : list Z) : list Z :=
  match l with
  | [] => []
  | x :: l => if bool_decide (i ∈ idx) then keep idx (i + 1) l
              else x :: keep idx (i + 1) l
  end.

Lemma keep_snoc idx i l x :
  keep idx i (l ++ [x])
  = keep idx i l ++ (if bool_decide (i + Z.of_nat (length l) ∈ idx) then [] else [x]).
Proof.
  revert i. induction l as [|y l IH]; intros i; simpl.
  - rewrite Z.add_0_r. by case_bool_decide.
  - rewrite IH. replace (i + 1 + Z.of_nat (length l)) with (i + Z.of_nat (S (length l))) by lia.
    by case_bool_decide.
Qed.

Lemma length_keep idx i l : (length (keep idx i l) <= length l)%nat.
Proof.
  revert i. induction l as [|x l IH]; intros i; simpl; [done|].
  specialize (IH (i + 1)). case_bool_decide; simpl; lia.
Qed.

(** The next index to remove decides membership when the indices ascend. *)
Lemma sorted_split_elem (idx : list Z) (d : nat) (o : Z) :
  StronglySorted Z.lt idx ->
  (forall k r, idx !! k = Some r -> ((k < d)%nat <-> r < o)) ->
  (o ∈ idx <-> idx !! d = Some o).
Proof.
  intros Hs Hd. split; [|apply list_elem_of_lookup_2].
  intros [k Hk]%list_elem_of_lookup.
  assert (Hkd : (d <= k)%nat) by (destruct (decide (k < d)%nat) as [H|H]; [apply (Hd k o Hk) in H; lia|lia]).
  destruct (decide (k = d)) as [->|Hne]; [done|].
  destruct (lookup_lt_is_Some_2 idx d) as [r Hr]; [apply lookup_lt_Some in Hk; lia|].
  assert (r < o).
  { clear Hd. revert d k Hr Hk Hkd Hne. induction Hs as [|z idx' Hs IH Hall]; intros d k Hr Hk ? ?;
      [by rewrite lookup_nil in Hr|].
    destruct d, k; simplify_eq/=; try lia.
    - rewrite List.Forall_forall in Hall. apply Hall.
      apply list_elem_of_In. by eapply list_elem_of_lookup_2.
    - eapply IH; [done..|lia|lia]. }
  apply (Hd d r) in Hr. lia.
Qed.

Definition remove_inv (arr idx : list Z) (o : Z) (s : list Z * Z * Z) : Prop :=
  let kept := keep idx 0 (take (Z.to_nat o) arr) in
  exists d : nat,
    s = (kept ++ drop (length kept) arr, Z.of_nat d, Z.of_nat (length kept))
    /\ (d <= length idx)%nat
    /\ forall k r, idx !! k = Some r -> ((k < d)%nat <-> r < o).

Lemma remove_inv_step arr idx o s :
  StronglySorted Z.lt idx -> 0 <= o < Z.of_nat (length arr) ->
  remove_inv arr idx o s ->
  exists s', (let '(a, di, newi) := s in
      skip ← (if di <? Z.of_nat (length idx)
              then r ← idx$[di]; Some (o =? r) else Some false);
      if skip : bool then Some (a, di + 1, newi)
      else x ← a$[o]; a ← a$[newi := x]; Some (a, di, newi + 1)) = Some s'
    /\ remove_inv arr idx (o + 1) s'.
Proof.
  intros Hs Ho (d & -> & Hdl & Hd).
  pose proof (sorted_split_elem idx d o Hs Hd) as Hmem.
  destruct (lookup_lt_is_Some_2 arr (Z.to_nat o)) as [x Hx]; [lia|].
  assert (Hk : keep idx 0 (take (Z.to_nat (o + 1)) arr)
    = keep idx 0 (take (Z.to_nat o) arr) ++ (if bool_decide (o ∈ idx) then [] else [x])).
  { replace (Z.to_nat (o + 1)) with (S (Z.to_nat o)) by lia.
    rewrite (take_S_r _ _ x Hx), keep_snoc, length_take, Nat.min_l by lia.
    by rewrite Z.add_0_l, Z2Nat.id by lia. }
  unfold remove_inv. rewrite Hk. set (kept := keep idx 0 (take (Z.to_nat o) arr)).
  assert (Hkl : (length kept <= Z.to_nat o)%nat)
    by (etrans; [apply length_keep|rewrite length_take; lia]).
  assert (Hskip : (if Z.of_nat d <? Z.of_nat (length idx)
     then r ← idx$[Z.of_nat d]; Some (o =? r) else Some false) = Some (bool_decide (o ∈ idx))).
  { destruct (Z.ltb_spec (Z.of_nat d) (Z.of_nat (length idx))) as [Hlt|Hge].
    - destruct (lookup_lt_is_Some_2 idx d) as [r Hr]; [lia|].
      assert (idx$[Z.of_nat d] = Some r) as -> by (apply lookupZ_Some; rewrite Nat2Z.id; split; [lia|done]).
      simpl. f_equal. destruct (Z.eqb_spec o r) as [->|Hne]; symmetry.
      + apply bool_decide_eq_true, Hmem. done.
      + apply bool_decide_eq_false. rewrite Hmem, Hr. congruence.
    - f_equal. symmetry. apply bool_decide_eq_false. rewrite Hmem, lookup_ge_None_2 by lia. done. }
  rewrite Hskip. simpl. destruct (bool_decide_reflect (o ∈ idx)) as [Hin|Hin].
  - eexists. split; [done|]. rewrite app_nil_r. apply Hmem in Hin. exists (S d).
    split_and!; [repeat f_equal; lia|apply lookup_lt_Some in Hin; lia|].
    intros k r Hr. pose proof (Hd k r Hr).
    destruct (decide (k = d)) as [->|]; [assert (r = o) by congruence; lia|].
    destruct (decide (k < d)%nat); [lia|]. split; [lia|]. intros Hro.
    assert (r <> o); [|lia]. intros ->.
    assert (k = d); [|done]. eapply (NoDup_lookup idx); [|done|done].
    clear -Hs. induction Hs as [|z l ? IH Hall]; [apply NoDup_nil_2|].
    apply NoDup_cons_2; [|done]. rewrite list_elem_of_In, List.Forall_forall in *.
    intros Hz. specialize (Hall z Hz). lia.
  - assert ((kept ++ drop (length kept) arr)$[o] = Some x) as ->.
    { apply lookupZ_Some. split; [lia|]. rewrite lookup_app_r by lia.
      rewrite lookup_drop. rewrite <- Hx. f_equal. lia. }
    simpl. rewrite updateZ_in by (rewrite length_app, length_drop; lia). simpl.
    eexists. split; [done|]. exists d. split_and!; [|done|].
    + rewrite Nat2Z.id, length_app. simpl.
      replace (Z.of_nat (length kept) + 1) with (Z.of_nat (length kept + 1)) by lia.
      repeat f_equal. rewrite <- (Nat.add_0_r (length kept)) at 1. rewrite insert_app_r.
      rewrite <- app_assoc. f_equal.
      destruct (drop (length kept) arr) as [|y t] eqn:Et.
      { apply (f_equal length) in Et. rewrite length_drop in Et. simpl in Et. lia. }
      simpl. f_equal. rewrite <- drop_drop, Et. done.
    + intros k r Hr. pose proof (Hd k r Hr).
      assert (r <> o); [|lia]. intros ->. apply Hin. by eapply list_elem_of_lookup_2.
Qed.

Lemma arr_remove_spec arr idx :
  StronglySorted Z.lt idx -> Forall (fun r => 0 <= r) idx ->
  let kept := keep idx 0 arr in
  arr_remove_element_u32 arr idx (Z.of_nat (length arr)) (Z.of_nat (length idx))
  = Some (kept ++ drop (length kept) arr).
Proof.
  intros Hs Hpos kept. unfold arr_remove_element_u32.
  destruct (for_range_inv (remove_inv arr idx) 0 (Z.of_nat (length arr))
    (fun oldi '(a, di, newi) =>
      skip ← (if di <? Z.of_nat (length idx)
              then r ← idx$[di]; Some (oldi =? r) else Some false);
      if skip : bool then Some (a, di + 1, newi)
      else x ← a$[oldi]; a ← a$[newi := x]; Some (a, di, newi + 1)) (arr, 0, 0))
    as (s' & E & (d & -> & _)).
  - lia.
  - exists 0%nat. simpl. rewrite drop_0. split_and!; [done|lia|].
    intros k r Hr. rewrite Forall_lookup in Hpos. specialize (Hpos _ _ Hr). simpl in Hpos. lia.
  - intros i s Hi Hinv. by apply remove_inv_step.
  - rewrite E. simpl. rewrite Nat2Z.id, firstn_all. done.
Qed.
