(* ===== verification/Fifo.v ===== *)
(** * The ring buffer of src/src/util/fifo.{h,c}

    [FIFO32] and its operations, the abstract bounded queue they implement, and
    the refinement between the two.  A [FIFO32 *] is an [option FIFO32], [None]
    being the null pointer; an operation returns [None] when it accesses the
    buffer out of its bounds or through a null pointer. *)
From Stdlib Require Import ZArith Lia.
From stdpp Require Import base option list numbers.
From S2P Require Import Prelude.

Set Default Proof Using "Type".

(** ** Data and operations *)
Record FIFO32 := mkFIFO32 {
  fifo_buf : option (list Z);  (** [int32_t *buf], [None] when null *)
  fifo_buflen : Z;
  fifo_free : Z;
  fifo_next_r : Z;
  fifo_next_w : Z;
  fifo_flags : Z
}.

Definition fifo32_init (fifo : option FIFO32) (buf : option (list Z)) (buflen : Z)
  : option FIFO32 :=
  match fifo, buf with
  | None, _ => fifo
  | _, None => fifo
  | Some _, Some _ =>
      Some {| fifo_buf := buf; fifo_buflen := buflen; fifo_free := buflen;
              fifo_next_r := 0; fifo_next_w := 0; fifo_flags := 0 |}
  end.

Definition fifo32_enqueue (fifo : option FIFO32) (data : Z)
  : option (Z * option FIFO32) :=
  match fifo with
  | None => Some (- EIO, fifo)
  | Some f =>
      match fifo_buf f with
      | None => Some (- EIO, fifo)
      | Some b =>
          if fifo_free f =? 0 then Some (- EIO, fifo)
          else
            b' ← b$[fifo_next_w f := data];
            let w := fifo_next_w f + 1 in
            let w := if w =? fifo_buflen f then 0 else w in
            Some (0, Some {| fifo_buf := Some b'; fifo_buflen := fifo_buflen f;
                             fifo_free := fifo_free f - 1;
                             fifo_next_r := fifo_next_r f; fifo_next_w := w;
                             fifo_flags := fifo_flags f |})
      end
  end.

Definition fifo32_dequeue (fifo : option FIFO32) : option (Z * option FIFO32) :=
  match fifo with
  | None => Some (- EIO, fifo)
  | Some f =>
      if fifo_free f =? fifo_buflen f then Some (- EIO, fifo)
      else
        b ← fifo_buf f;
        data ← b$[fifo_next_r f];
        let r := fifo_next_r f + 1 in
        let r := if r =? fifo_buflen f then 0 else r in
        Some (data, Some {| fifo_buf := fifo_buf f; fifo_buflen := fifo_buflen f;
                            fifo_free := fifo_free f + 1;
                            fifo_next_r := r; fifo_next_w := fifo_next_w f;
                            fifo_flags := fifo_flags f |})
  end.

Definition fifo32_peek (fifo : option FIFO32) : option Z :=
  f ← fifo;
  if fifo_free f =? fifo_buflen f then Some (- EIO)
  else b ← fifo_buf f; b$[fifo_next_r f].

Definition fifo32_status_getUsageB (fifo : option FIFO32) : Z :=
  match fifo with
  | None => - EIO
  | Some f => fifo_buflen f - fifo_free f
  end.

Arguments fifo32_enqueue : simpl never.
Arguments fifo32_dequeue : simpl never.
Arguments fifo32_peek : simpl never.
Arguments fifo32_status_getUsageB : simpl never.

(** ** The source's own test, [test_fifo32] *)
Definition FIFO32_zero : FIFO32 := mkFIFO32 None 0 0 0 0 0.

(** [enqueue i; if (usage != expect i) return false] for each [i]. *)
Definition test_enq (data expect : Z -> Z) (i : Z) (f : option FIFO32)
  : option (step (option FIFO32) bool) :=
  '(_, f) ← fifo32_enqueue f (data i);
  if fifo32_status_getUsageB f =? expect i then Some (Continue f)
  else Some (Return f false).

(** [dp = peek; d = dequeue; if (dp != i) ...; if (d != i) ...; if (usage != ...)]. *)
Definition test_deq (peek : bool) (data : Z -> Z) (expect : Z -> option Z) (i : Z)
    (f : option FIFO32) : option (step (option FIFO32) bool) :=
  dp ← fifo32_peek f;
  '(d, f) ← fifo32_dequeue f;
  if peek && negb (u8 dp =? data i) then Some (Return f false)
  else if negb (d =? data i) then Some (Return f false)
  else match expect i with
       | Some n => if fifo32_status_getUsageB f =? n then Some (Continue f)
                   else Some (Return f false)
       | None => Some (Continue f)
       end.

Definition then_ {S R} (r : option (step S R)) (k : S -> option (step S R)) :=
  x ← r;
  match x with
  | Return s v => Some (Return s v)
  | Continue s | Break s => k s
  end.

Definition test_fifo32 : option bool :=
  let f := fifo32_init (Some FIFO32_zero) (Some (replicate 8 0)) 8 in
  let up i := i - 0x40 + 1 in
  let down i := Some (0x48 - i - 1) in
  r ← then_ (loop_until 8 0x40 (test_enq id up) f) (fun f =>
      then_ (loop_until 8 0x40 (test_deq true id down) f) (fun f =>
      then_ (loop_until 8 0x40 (test_enq (fun _ => 0) up) f) (fun f =>
      then_ (loop_until 8 0x40 (test_deq false (fun _ => 0) down) f) (fun f =>
      f ← for_range 0x40 0x44 (fun i f => snd <$> fifo32_enqueue f i) f;
      f ← for_range 0x40 0x43 (fun _ f => snd <$> fifo32_dequeue f) f;
      then_ (loop_until 7 0x44 (test_enq id (fun i => i - 0x43 + 1)) f) (fun f =>
      loop_until 8 0x43 (test_deq true id (fun _ => None)) f)))));
  match r with
  | Return _ b => Some b
  | Continue _ | Break _ => Some true
  end.

(** ** The abstract queue

    A queue of capacity [cap] is the list of its elements, oldest first. *)
Inductive fifo_op := Enqueue (data : Z) | Dequeue | Peek | Usage.

Definition queue_step (cap : Z) (q : list Z) (op : fifo_op) : Z * list Z :=
  match op with
  | Enqueue d => if Z.of_nat (length q) <? cap then (0, q ++ [d]) else (- EIO, q)
  | Dequeue => match q with [] => (- EIO, q) | x :: q' => (x, q') end
  | Peek => match q with [] => (- EIO, q) | x :: _ => (x, q) end
  | Usage => (Z.of_nat (length q), q)
  end.

Fixpoint queue_run (cap : Z) (q : list Z) (ops : list fifo_op) : list Z * list Z :=
  match ops with
  | [] => ([], q)
  | op :: ops =>
      let '(r, q) := queue_step cap q op in
      let '(rs, q) := queue_run cap q ops in
      (r :: rs, q)
  end.

(** The same operations on the ring buffer. *)
Definition fifo_step (f : option FIFO32) (op : fifo_op) : option (Z * option FIFO32) :=
  match op with
  | Enqueue d => fifo32_enqueue f d
  | Dequeue => fifo32_dequeue f
  | Peek => r ← fifo32_peek f; Some (r, f)
  | Usage => Some (fifo32_status_getUsageB f, f)
  end.

Fixpoint fifo_run (f : option FIFO32) (ops : list fifo_op)
  : option (list Z * option FIFO32) :=
  match ops with
  | [] => Some ([], f)
  | op :: ops =>
      '(r, f) ← fifo_step f op;
      '(rs, f) ← fifo_run f ops;
      Some (r :: rs, f)
  end.

(** ** The representation invariant *)

(** Position [i] after [next_r] in a ring of [n] cells. *)
Definition ring_index (n r : Z) (i : nat) : Z := (r + Z.of_nat i) mod n.

Record fifo_repr (f : FIFO32) (b : list Z) (q : list Z) : Prop := {
  repr_buf : fifo_buf f = Some b;
  repr_buflen : 0 < fifo_buflen f <= INT32_MAX;
  repr_alloc : fifo_buflen f <= Z.of_nat (length b);
  repr_free : fifo_free f = fifo_buflen f - Z.of_nat (length q);
  repr_cap : Z.of_nat (length q) <= fifo_buflen f;
  repr_r : 0 <= fifo_next_r f < fifo_buflen f;
  repr_w : fifo_next_w f = ring_index (fifo_buflen f) (fifo_next_r f) (length q);
  repr_elems : forall i x, q !! i = Some x ->
    b$[ring_index (fifo_buflen f) (fifo_next_r f) i] = Some x
}.

(** A null pointer behaves as a queue of capacity 0 for the operations that
    check it; an initialised buffer represents a queue. *)
Definition fifo_models (f : option FIFO32) (cap : Z) (q : list Z) : Prop :=
  exists g b, f = Some g /\ fifo_buflen g = cap /\ fifo_repr g b q.

(** ** Ring arithmetic *)
Lemma ring_index_range n r i : 0 < n -> 0 <= ring_index n r i < n.
Proof. intros. by apply Z.mod_pos_bound. Qed.

Lemma ring_index_0 n r : 0 <= r < n -> ring_index n r 0 = r.
Proof. intros. unfold ring_index. rewrite Z.add_0_r. by apply Z.mod_small. Qed.

(** The increment with wrap of the source is the successor of the ring. *)
Lemma ring_succ n r i :
  0 < n ->
  (if ring_index n r i + 1 =? n then 0 else ring_index n r i + 1) = ring_index n r (S i).
Proof.
  intros Hn. unfold ring_index. set (a := r + Z.of_nat i).
  replace (r + Z.of_nat (S i)) with (a + 1) by lia.
  pose proof (Z.mod_pos_bound a n Hn) as Hb.
  rewrite <- Zplus_mod_idemp_l.
  destruct (Z.eqb_spec (a mod n + 1) n) as [E|E].
  - rewrite E. by rewrite Z_mod_same_full.
  - symmetry. apply Z.mod_small. lia.
Qed.

Lemma ring_shift n r i :
  0 < n -> ring_index n (ring_index n r 1) i = ring_index n r (S i).
Proof.
  intros. unfold ring_index. rewrite Zplus_mod_idemp_l. f_equal. lia.
Qed.

Lemma ring_index_inj n r i j :
  0 < n -> Z.of_nat i < n -> Z.of_nat j < n ->
  ring_index n r i = ring_index n r j -> i = j.
Proof.
  unfold ring_index. intros Hn Hi Hj E.
  assert (Hm : (Z.of_nat i - Z.of_nat j) mod n = 0).
  { replace (Z.of_nat i - Z.of_nat j) with ((r + Z.of_nat i) - (r + Z.of_nat j)) by lia.
    by rewrite Zminus_mod, E, Z.sub_diag. }
  apply Z.mod_divide in Hm as [k Hk]; [|lia].
  assert (k = 0) by nia. lia.
Qed.

(** ** Each operation on each branch *)
Section operations.
Context (f : FIFO32) (b q : list Z) (Hr : fifo_repr f b q).

Lemma enqueue_repr d :
  Z.of_nat (length q) < fifo_buflen f ->
  exists g b', fifo32_enqueue (Some f) d = Some (0, Some g)
    /\ fifo_buflen g = fifo_buflen f /\ fifo_repr g b' (q ++ [d]).
Proof using Hr.
  destruct Hr as [Hb Hn Ha Hf Hc Hrd Hw He]. intros Hlt.
  assert (Hw' : 0 <= fifo_next_w f < fifo_buflen f)
    by (rewrite Hw; apply ring_index_range; lia).
  unfold fifo32_enqueue. rewrite Hb.
  destruct (Z.eqb_spec (fifo_free f) 0); [lia|].
  rewrite updateZ_in by lia. simpl.
  eexists _, _. split; [done|]. split; [done|]. constructor; simpl.
  - done.
  - done.
  - by rewrite length_insert.
  - rewrite length_app. simpl. lia.
  - rewrite length_app. simpl. lia.
  - done.
  - rewrite Hw, ring_succ by lia. by rewrite length_app, Nat.add_1_r.
  - intros i x Hi. rewrite lookupZ_insert by lia.
    apply lookup_app_Some in Hi as [Hi|[Hge Hi]].
    + rewrite decide_False; [by apply He|]. intros E. rewrite Hw in E.
      apply lookup_lt_Some in Hi.
      apply ring_index_inj in E; lia.
    + destruct (i - length q)%nat as [|k] eqn:Hk; simplify_eq/=.
      rewrite decide_True; [done|]. rewrite Hw. f_equal. lia.
Qed.

Lemma enqueue_full d :
  Z.of_nat (length q) = fifo_buflen f ->
  fifo32_enqueue (Some f) d = Some (- EIO, Some f).
Proof using Hr.
  destruct Hr. intros. unfold fifo32_enqueue. rewrite repr_buf0.
  destruct (Z.eqb_spec (fifo_free f) 0); [done|lia].
Qed.

Lemma dequeue_empty : q = [] -> fifo32_dequeue (Some f) = Some (- EIO, Some f).
Proof using Hr.
  destruct Hr. intros ->. unfold fifo32_dequeue. simpl in *.
  destruct (Z.eqb_spec (fifo_free f) (fifo_buflen f)); [done|lia].
Qed.

Lemma head_cell x q' : q = x :: q' -> b$[fifo_next_r f] = Some x.
Proof using Hr.
  destruct Hr as [? ? ? ? ? Hrd ? He]. intros ->.
  rewrite <- (ring_index_0 _ _ Hrd) at 1. by apply He.
Qed.

Lemma dequeue_repr x q' :
  q = x :: q' ->
  exists g, fifo32_dequeue (Some f) = Some (x, Some g)
    /\ fifo_buflen g = fifo_buflen f /\ fifo_repr g b q'.
Proof using Hr.
  intros Hq. pose proof (head_cell _ _ Hq) as Hx.
  destruct Hr as [Hb Hn Ha Hf Hc Hrd Hw He]. subst q. simpl in *.
  unfold fifo32_dequeue.
  destruct (Z.eqb_spec (fifo_free f) (fifo_buflen f)); [lia|].
  rewrite Hb. simpl. rewrite Hx. simpl.
  eexists. split; [done|]. split; [done|].
  pose proof (ring_succ (fifo_buflen f) (fifo_next_r f) 0 ltac:(lia)) as Hs.
  rewrite ring_index_0 in Hs by lia.
  constructor; simpl; rewrite ?Hs; try done; try lia.
  - apply ring_index_range. lia.
  - rewrite Hw, ring_shift by lia. done.
  - intros i y Hi. rewrite ring_shift by lia. by apply He.
Qed.

Lemma peek_repr :
  fifo32_peek (Some f) = Some (match q with [] => - EIO | x :: _ => x end).
Proof using Hr.
  pose proof head_cell as Hx. destruct Hr as [Hb Hn Ha Hf Hc Hrd Hw He].
  unfold fifo32_peek. simpl.
  destruct q as [|x q'] eqn:Eq; simpl in *.
  - destruct (Z.eqb_spec (fifo_free f) (fifo_buflen f)); [done|lia].
  - destruct (Z.eqb_spec (fifo_free f) (fifo_buflen f)); [lia|].
    rewrite Hb. simpl. by erewrite Hx.
Qed.

Lemma usage_repr : fifo32_status_getUsageB (Some f) = Z.of_nat (length q).
Proof using Hr. destruct Hr. unfold fifo32_status_getUsageB. lia. Qed.
End operations.

Lemma init_repr f b n :
  0 < n <= INT32_MAX -> n <= Z.of_nat (length b) ->
  fifo_models (fifo32_init (Some f) (Some b) n) n [].
Proof.
  intros. eexists _, b. split; [done|]. split; [done|].
  constructor; simpl; try done; lia.
Qed.

Lemma fifo_step_refines f cap q op :
  fifo_models f cap q ->
  exists f', fifo_step f op = Some (fst (queue_step cap q op), f')
    /\ fifo_models f' cap (snd (queue_step cap q op)).
Proof.
  intros (g & b & -> & Hcap & Hr). destruct op as [d| | |]; simpl fifo_step.
  - pose proof (repr_cap _ _ _ Hr). simpl.
    destruct (Z.ltb_spec (Z.of_nat (length q)) cap).
    + destruct (enqueue_repr _ _ _ Hr d) as (g' & b' & E & ? & ?); [lia|].
      rewrite E. eexists. split; [done|]. exists g', b'. naive_solver lia.
    + rewrite (enqueue_full _ _ _ Hr) by lia. eexists. split; [done|]. by exists g, b.
  - destruct q as [|x q'] eqn:Hq; simpl.
    + rewrite (dequeue_empty _ _ _ Hr) by done. eexists. split; [done|]. by exists g, b.
    + destruct (dequeue_repr _ _ _ Hr x q') as (g' & E & ? & ?); [done|].
      rewrite E. eexists. split; [done|]. exists g', b. naive_solver lia.
  - rewrite (peek_repr _ _ _ Hr). simpl. eexists. split; [by destruct q|].
    destruct q; by exists g, b.
  - rewrite (usage_repr _ _ _ Hr). eexists. split; [done|]. by exists g, b.
Qed.

Lemma fifo_run_refines f cap q ops :
  fifo_models f cap q ->
  exists f', fifo_run f ops = Some (fst (queue_run cap q ops), f')
    /\ fifo_models f' cap (snd (queue_run cap q ops)).
Proof.
  revert f q. induction ops as [|op ops IH]; intros f q Hm; simpl.
  - by eexists.
  - destruct (fifo_step_refines _ _ _ op Hm) as (f1 & E1 & Hm1).
    destruct (queue_step cap q op) as [r q1]. simpl in *.
    destruct (IH _ _ Hm1) as (f2 & E2 & Hm2).
    rewrite E1. simpl. rewrite E2. simpl.
    destruct (queue_run cap q1 ops) as [rs q2]. simpl in *. by eexists.
Qed.

(** The source's test passes on the model. *)
Example test_fifo32_passes : test_fifo32 = Some true.
Proof. vm_compute. reflexivity. Qed.

(** C6. A [FIFO32] initialised over a buffer of [n] cells is a queue of capacity
    [n]: whatever the sequence of enqueue, dequeue, peek and usage calls, no
    access leaves the buffer and every call returns what the abstract bounded
    queue returns: elements come out in the order they went in, across the
    wrap-around of both indices, a full queue refuses with [-EIO] and an empty
    one answers [-EIO]. *)
Theorem fifo32_refines_queue f b n ops :
  0 < n <= INT32_MAX -> n <= Z.of_nat (length b) ->
  exists f', fifo_run (fifo32_init (Some f) (Some b) n) ops
             = Some (fst (queue_run n [] ops), f')
    /\ fifo_models f' n (snd (queue_run n [] ops)).
Proof. intros. by apply fifo_run_refines, init_repr. Qed.

Lemma fifo32_refines_queue_witness :
  exists f', fifo_run (fifo32_init (Some FIFO32_zero) (Some (replicate 3 0)) 3)
               [Enqueue 7; Enqueue 8; Enqueue 9; Enqueue 10; Dequeue; Enqueue 11; Usage; Dequeue]
             = Some ([0; 0; 0; - EIO; 7; 0; 3; 8], f')
    /\ fifo_models f' 3 [9; 11].
Proof.
  apply (fifo32_refines_queue FIFO32_zero (replicate 3 0) 3
           [Enqueue 7; Enqueue 8; Enqueue 9; Enqueue 10; Dequeue; Enqueue 11; Usage; Dequeue]);
    vm_compute; intuition congruence.
Defined.
