(* ===== verification/Dlist.v ===== *)
(** * The circular doubly-linked list of src/src/util/dlist.{h,c}

    Nodes live at addresses; the store maps the address of a [DLIST] to its two
    pointers.  An operation returns [None] when it follows a pointer that is not
    the address of a node.  The file gives the operations, the predicate
    [dring st x l] (the nodes [x :: l] form a ring in that order), the rules of
    each operation on rings, and the traversal macro [list_for_each_entry]. *)
From Stdlib Require Import ZArith Lia.
From stdpp Require Import base option list gmap numbers.
From S2P Require Import Prelude.

Set Default Proof Using "Type".

(** ** Data and operations *)
Record DLIST := mkDLIST { d_next : Z; d_prev : Z }.

Abbreviation dstore := (gmap Z DLIST).

(** Assignments [p->next = v] and [p->prev = v]. *)
Definition set_next (st : dstore) (p v : Z) : option dstore :=
  n ← st !! p; Some (<[p := mkDLIST v (d_prev n)]> st).

Definition set_prev (st : dstore) (p v : Z) : option dstore :=
  n ← st !! p; Some (<[p := mkDLIST (d_next n) v]> st).

(** Both pointers are written, whatever the memory at [dlist] held. *)
Definition dlist_init (st : dstore) (dlist : Z) : dstore :=
  <[dlist := mkDLIST dlist dlist]> st.

Definition dlist_insert_after (st : dstore) (d0 dnew_a : Z) : option (dstore * bool) :=
  d1 ← d_next <$> st !! d0;
  dnew_z ← d_prev <$> st !! dnew_a;
  st ← set_next st d0 dnew_a;
  st ← set_prev st dnew_a d0;
  st ← set_next st dnew_z d1;
  st ← set_prev st d1 dnew_z;
  Some (st, true).

Definition dlist_insert_before (st : dstore) (d0 dnew_a : Z) : option (dstore * bool) :=
  d999 ← d_prev <$> st !! d0;
  dnew_z ← d_prev <$> st !! dnew_a;
  st ← set_prev st d0 dnew_z;
  st ← set_next st dnew_z d0;
  st ← set_prev st dnew_a d999;
  st ← set_next st d999 dnew_a;
  Some (st, true).

Definition dlist_remove (st : dstore) (node : Z) : option (dstore * bool) :=
  d0 ← d_prev <$> st !! node;
  d2 ← d_next <$> st !! node;
  st ← set_prev st node node;
  st ← set_next st node node;
  st ← set_next st d0 d2;
  st ← set_prev st d2 d0;
  Some (st, false).

(** [list_for_each_entry(pos, head, member) body], the loop
    [for (pos = head->next; pos != head; pos = pos->next)] over the addresses of
    the member nodes.  The body sees the state, may change it, and on [Continue]
    gives the node whose [next] is read to go on (the loop variable, which a
    body may reassign).  [nodes] reads the links in the current state.  [fuel]
    bounds the number of iterations. *)
Fixpoint for_each_from {S R} (nodes : S -> dstore) (fuel : nat) (head pos : Z)
    (body : Z -> S -> option (step (Z * S) R)) (s : S) : option (step S R) :=
  match fuel with
  | O => None
  | Datatypes.S fuel =>
      if pos =? head then Some (Continue s)
      else
        r ← body pos s;
        match r with
        | Continue (pos, s) =>
            pos ← d_next <$> nodes s !! pos;
            for_each_from nodes fuel head pos body s
        | Break (_, s) => Some (Break s)
        | Return (_, s) v => Some (Return s v)
        end
  end.

Definition list_for_each_entry {S R} (nodes : S -> dstore) (fuel : nat) (head : Z)
    (body : Z -> S -> option (step (Z * S) R)) (s : S) : option (step S R) :=
  pos ← d_next <$> nodes s !! head;
  for_each_from nodes fuel head pos body s.

(** ** Links and rings *)
Section links.
Implicit Types (st : dstore) (x y p q v : Z) (l m : list Z).

Definition nx st p : option Z := d_next <$> st !! p.
Definition pv st p : option Z := d_prev <$> st !! p.

(** [a] and [b] are neighbours: each points to the other. *)
Definition link st x y : Prop := nx st x = Some y /\ pv st y = Some x.

(** The links lead from [x] through the nodes of [l] to [y]. *)
Fixpoint dseg st x l y : Prop :=
  match l with
  | [] => link st x y
  | z :: l => link st x z /\ dseg st z l y
  end.

(** The last node of the non-empty list [x :: l]. *)
Fixpoint lastof x l : Z :=
  match l with [] => x | z :: l => lastof z l end.

Definition dring st x l : Prop := NoDup (x :: l) /\ dseg st x l x.

(** *** The two assignments *)
Lemma set_next_Some st p v n :
  st !! p = Some n -> set_next st p v = Some (<[p := mkDLIST v (d_prev n)]> st).
Proof. unfold set_next. by intros ->. Qed.

Lemma set_next_spec st p v :
  is_Some (nx st p) ->
  exists st', set_next st p v = Some st'
    /\ (forall q, nx st' q = if decide (q = p) then Some v else nx st q)
    /\ (forall q, pv st' q = pv st q)
    /\ (forall q, q <> p -> st' !! q = st !! q).
Proof.
  unfold nx, pv, set_next. intros [w Hw].
  destruct (st !! p) as [n|] eqn:E; simplify_eq/=.
  eexists. split; [done|]. split_and!; intros q; rewrite ?lookup_insert;
    repeat case_decide; subst; try done; simpl.
  by rewrite E.
Qed.

Lemma set_prev_spec st p v :
  is_Some (pv st p) ->
  exists st', set_prev st p v = Some st'
    /\ (forall q, pv st' q = if decide (q = p) then Some v else pv st q)
    /\ (forall q, nx st' q = nx st q)
    /\ (forall q, q <> p -> st' !! q = st !! q).
Proof.
  unfold nx, pv, set_prev. intros [w Hw].
  destruct (st !! p) as [n|] eqn:E; simplify_eq/=.
  eexists. split; [done|]. split_and!; intros q; rewrite ?lookup_insert;
    repeat case_decide; subst; try done; simpl.
  by rewrite E.
Qed.

Lemma nx_pv_is_Some st p : is_Some (nx st p) <-> is_Some (pv st p).
Proof. unfold nx, pv. by rewrite !fmap_is_Some. Qed.

(** *** Segments *)
Lemma dseg_app st x l m z y :
  dseg st x (l ++ z :: m) y <-> dseg st x l z /\ dseg st z m y.
Proof.
  revert x. induction l as [|w l IH]; intros x; simpl; [done|]. rewrite IH. tauto.
Qed.

Lemma dseg_first st x l y : dseg st x l y -> nx st x = Some (hd y l).
Proof. destruct l; simpl; unfold link; tauto. Qed.

Lemma dseg_last st x l y : dseg st x l y -> pv st y = Some (lastof x l).
Proof.
  revert x. induction l as [|z l IH]; intros x; simpl; [by intros []|].
  intros [_ H]. by apply IH.
Qed.

Lemma lastof_snoc x l z : lastof x (l ++ [z]) = z.
Proof. revert x. induction l as [|y l IH]; intros x; simpl; [done|apply IH]. Qed.

Lemma lastof_elem x l : lastof x l ∈ x :: l.
Proof.
  revert x. induction l as [|z l IH]; intros x; simpl; [set_solver|].
  specialize (IH z). set_solver.
Qed.

Lemma hd_elem x l : hd x l ∈ x :: l.
Proof. destruct l; set_solver. Qed.

(** A segment only depends on the [next] of its start and inner nodes and the
    [prev] of its inner nodes and end. *)
Lemma dseg_frame st st' x l y :
  dseg st x l y ->
  (forall q, q ∈ x :: l -> nx st' q = nx st q) ->
  (forall q, q ∈ l ++ [y] -> pv st' q = pv st q) ->
  dseg st' x l y.
Proof.
  revert x. induction l as [|z l IH]; intros x Hs Hn Hp; simpl in *.
  - destruct Hs as [H1 H2]. split; [rewrite Hn|rewrite Hp]; set_solver.
  - destruct Hs as [[H1 H2] Hs]. split; [split; [rewrite Hn|rewrite Hp]; set_solver|].
    apply IH; [done|set_solver|set_solver].
Qed.

Lemma dring_frame st st' x l :
  dring st x l -> (forall q, q ∈ x :: l -> st' !! q = st !! q) -> dring st' x l.
Proof.
  intros [Hnd Hs] H. split; [done|].
  eapply dseg_frame; [done| |]; intros q Hq; unfold nx, pv; rewrite H; set_solver.
Qed.

(** A ring can be read from any of its nodes. *)
Lemma dring_rotate st x l y m :
  dring st x (l ++ y :: m) -> dring st y (m ++ x :: l).
Proof.
  intros [Hnd Hs]. split.
  - eapply NoDup_Permutation_proper; [|exact Hnd]. solve_Permutation.
  - apply dseg_app in Hs. apply dseg_app. tauto.
Qed.

Lemma dring_nx st x l : dring st x l -> nx st x = Some (hd x l).
Proof. intros [_ H]. by apply dseg_first in H. Qed.

Lemma dring_pv st x l : dring st x l -> pv st x = Some (lastof x l).
Proof. intros [_ H]. by apply dseg_last in H. Qed.

Lemma dring_is_node st x l q : dring st x l -> q ∈ x :: l -> is_Some (st !! q).
Proof.
  intros Hr [->|Hq]%elem_of_cons.
  - apply dring_nx, fmap_Some in Hr as (n & -> & _). done.
  - apply list_elem_of_split in Hq as (l1 & l2 & ->).
    apply dring_rotate, dring_nx, fmap_Some in Hr as (n & -> & _). done.
Qed.

(** Redirecting the last link of a segment. *)
Lemma dseg_relink st st' x l y y' :
  dseg st x l y -> NoDup (x :: l) ->
  (forall q, q ∈ x :: l -> q <> lastof x l -> nx st' q = nx st q) ->
  (forall q, q ∈ l -> pv st' q = pv st q) ->
  nx st' (lastof x l) = Some y' -> pv st' y' = Some (lastof x l) ->
  dseg st' x l y'.
Proof.
  revert x. induction l as [|z l IH]; intros x Hs Hnd Hn Hp Hl Hy; simpl in *.
  - done.
  - destruct Hs as [[H1 H2] Hs]. apply list.NoDup_cons in Hnd as [Hx Hnd].
    pose proof (lastof_elem z l). split.
    + split; [rewrite Hn; [done|set_solver|]|rewrite Hp; [done|set_solver]].
      intros ->. done.
    + apply IH; try done; [intros; apply Hn|intros; apply Hp]; set_solver.
Qed.

(** What the four assignments of an operation did to the links: [upd f k v]
    is [f] with the value at [k] replaced. *)
Definition upd (f : Z -> option Z) (k v : Z) : Z -> option Z :=
  fun q => if decide (q = k) then Some v else f q.

Lemma insert_after_links st d0 a d1 z :
  nx st d0 = Some d1 -> pv st a = Some z ->
  is_Some (st !! z) -> is_Some (st !! d1) ->
  exists st', dlist_insert_after st d0 a = Some (st', true)
    /\ (forall q, nx st' q = upd (upd (nx st) d0 a) z d1 q)
    /\ (forall q, pv st' q = upd (upd (pv st) a d0) d1 z q)
    /\ (forall q, q ∉ [d0; a; z; d1] -> st' !! q = st !! q).
Proof.
  unfold dlist_insert_after, upd. intros H0 Ha Hz H1.
  unfold nx in H0. rewrite H0. unfold pv in Ha. rewrite Ha. simpl.
  fold (nx st d0) in H0. fold (pv st a) in Ha.
  destruct (set_next_spec st d0 a) as (s1 & -> & N1 & P1 & F1); [by eexists|]. simpl.
  destruct (set_prev_spec s1 a d0) as (s2 & -> & P2 & N2 & F2);
    [rewrite P1; by eexists|]. simpl.
  destruct (set_next_spec s2 z d1) as (s3 & -> & N3 & P3 & F3).
  { rewrite N2, N1. case_decide; [by eexists|]. by apply fmap_is_Some. } simpl.
  destruct (set_prev_spec s3 d1 z) as (s4 & -> & P4 & N4 & F4).
  { rewrite P3, P2, P1. case_decide; [by eexists|]. by apply fmap_is_Some. } simpl.
  exists s4. split; [done|]. split_and!; intros q.
  - by rewrite N4, N3, N2, N1.
  - by rewrite P4, P3, P2, P1.
  - intros Hq. rewrite F4, F3, F2, F1; set_solver.
Qed.

Lemma insert_before_links st d0 a d999 z :
  pv st d0 = Some d999 -> pv st a = Some z ->
  is_Some (st !! z) -> is_Some (st !! d999) ->
  exists st', dlist_insert_before st d0 a = Some (st', true)
    /\ (forall q, nx st' q = upd (upd (nx st) z d0) d999 a q)
    /\ (forall q, pv st' q = upd (upd (pv st) d0 z) a d999 q)
    /\ (forall q, q ∉ [d0; a; z; d999] -> st' !! q = st !! q).
Proof.
  unfold dlist_insert_before, upd. intros H0 Ha Hz H1.
  unfold pv in H0. rewrite H0. unfold pv in Ha. rewrite Ha. simpl.
  fold (pv st d0) in H0. fold (pv st a) in Ha.
  destruct (set_prev_spec st d0 z) as (s1 & -> & P1 & N1 & F1); [by eexists|]. simpl.
  destruct (set_next_spec s1 z d0) as (s2 & -> & N2 & P2 & F2).
  { rewrite N1. by apply fmap_is_Some. } simpl.
  destruct (set_prev_spec s2 a d999) as (s3 & -> & P3 & N3 & F3).
  { rewrite P2, P1. case_decide; by eexists. } simpl.
  destruct (set_next_spec s3 d999 a) as (s4 & -> & N4 & P4 & F4).
  { rewrite N3, N2, N1. case_decide; [by eexists|]. by apply fmap_is_Some. } simpl.
  exists s4. split; [done|]. split_and!; intros q.
  - by rewrite N4, N3, N2, N1.
  - by rewrite P4, P3, P2, P1.
  - intros Hq. rewrite F4, F3, F2, F1; set_solver.
Qed.

Lemma remove_links st n d0 d2 :
  pv st n = Some d0 -> nx st n = Some d2 ->
  is_Some (st !! d0) -> is_Some (st !! d2) ->
  exists st', dlist_remove st n = Some (st', false)
    /\ (forall q, nx st' q = upd (upd (nx st) n n) d0 d2 q)
    /\ (forall q, pv st' q = upd (upd (pv st) n n) d2 d0 q)
    /\ (forall q, q ∉ [n; d0; d2] -> st' !! q = st !! q).
Proof.
  unfold dlist_remove, upd. intros H0 H2 Hd0 Hd2.
  unfold pv in H0. rewrite H0. unfold nx in H2. rewrite H2. simpl.
  fold (pv st n) in H0. fold (nx st n) in H2.
  destruct (set_prev_spec st n n) as (s1 & -> & P1 & N1 & F1); [by eexists|]. simpl.
  destruct (set_next_spec s1 n n) as (s2 & -> & N2 & P2 & F2); [rewrite N1; by eexists|].
  simpl.
  destruct (set_next_spec s2 d0 d2) as (s3 & -> & N3 & P3 & F3).
  { rewrite N2, N1. case_decide; [by eexists|]. by apply fmap_is_Some. } simpl.
  destruct (set_prev_spec s3 d2 d0) as (s4 & -> & P4 & N4 & F4).
  { rewrite P3, P2, P1. case_decide; [by eexists|]. by apply fmap_is_Some. } simpl.
  exists s4. split; [done|]. split_and!; intros q.
  - by rewrite N4, N3, N2, N1.
  - by rewrite P4, P3, P2, P1.
  - intros Hq. rewrite F4, F3, F2, F1; set_solver.
Qed.
End links.

(** ** Rules of the operations on rings *)
Section rings.
Implicit Types (st : dstore) (x a n p q : Z) (l m : list Z).

(** A frame: [st'] agrees with [st] outside of [ps]. *)
Definition same_outside (ps : list Z) st st' : Prop :=
  forall q, q ∉ ps -> st' !! q = st !! q.

Lemma same_outside_mono ps ps' st st' :
  same_outside ps st st' -> (forall q, q ∈ ps -> q ∈ ps') -> same_outside ps' st st'.
Proof. unfold same_outside. set_solver. Qed.

Lemma same_outside_trans ps st1 st2 st3 :
  same_outside ps st1 st2 -> same_outside ps st2 st3 -> same_outside ps st1 st3.
Proof. unfold same_outside. intros H1 H2 q Hq. by rewrite H2, H1. Qed.

Lemma dring_same_outside st st' ps x l :
  dring st x l -> same_outside ps st st' -> (forall q, q ∈ x :: l -> q ∉ ps) ->
  dring st' x l.
Proof. intros Hr Hs Hd. eapply dring_frame; [done|]. intros. apply Hs, Hd. done. Qed.

Lemma dlist_init_ring st p : dring (dlist_init st p) p [].
Proof.
  split; [apply NoDup_singleton|]. unfold dlist_init. simpl. split; unfold nx, pv;
    by rewrite lookup_insert_eq.
Qed.

Lemma dlist_init_outside st p : same_outside [p] st (dlist_init st p).
Proof. intros q Hq. unfold dlist_init. apply lookup_insert_ne. set_solver. Qed.

(** Case analysis on updated links; an impossible case equates nodes of two
    disjoint lists ([H]) or two occurrences in a duplicate-free one. *)
Ltac clear_links :=
  repeat match goal with
         | H : forall q, nx _ q = _ |- _ => clear H
         | H : forall q, pv _ q = _ |- _ => clear H
         | H : forall q, q ∉ _ -> _ |- _ => clear H
         | H : dseg _ _ _ _ |- _ => clear H
         end.
Ltac upd_solve H :=
  clear_links; unfold upd; repeat case_decide; try done; try congruence; exfalso;
  match goal with
  | E : ?p = ?q |- _ =>
      first [ solve [refine (H p q _ _ E); set_solver]
            | solve [refine (H q p _ _ (eq_sym E)); set_solver]
            | solve [subst; set_solver] ]
  end.

Definition disj l m : Prop := forall p q, p ∈ l -> q ∈ m -> p <> q.

Lemma dlist_insert_after_ring st x l a m :
  dring st x l -> dring st a m -> disj (x :: l) (a :: m) ->
  exists st', dlist_insert_after st x a = Some (st', true)
    /\ dring st' x (a :: m ++ l)
    /\ same_outside (x :: l ++ a :: m) st st'.
Proof.
  intros Hx Ha Hd.
  pose proof (lastof_elem a m) as Hz. pose proof (hd_elem x l) as H1.
  destruct (insert_after_links st x a (hd x l) (lastof a m)) as (st' & E & N & P & F);
    [by apply dring_nx|by apply dring_pv|by apply (dring_is_node _ _ _ _ Ha)|by apply (dring_is_node _ _ _ _ Hx)|].
  exists st'. split; [done|]. split; [|intros q Hq; apply F; set_solver].
  destruct Hx as [NDx Sx]. destruct Ha as [NDa Sa]. split.
  { rewrite list.NoDup_cons in NDx, NDa |- *. rewrite list.NoDup_cons, list.NoDup_app. unfold disj in Hd. set_solver. }
  change (link st' x a /\ dseg st' a (m ++ l) x). split.
  { split; [rewrite N|rewrite P]; upd_solve Hd. }
  assert (Hseg : dseg st' a m (hd x l)).
  { eapply dseg_relink; [exact Sa|done|..].
    - intros q ? ?. rewrite N. upd_solve Hd.
    - intros q ?. rewrite P. apply list.NoDup_cons in NDa as [??]. upd_solve Hd.
    - rewrite N. upd_solve Hd.
    - rewrite P. upd_solve Hd. }
  destruct l as [|y l]; [by rewrite app_nil_r|].
  apply dseg_app. split; [done|]. destruct Sx as [_ Sx].
  rewrite !list.NoDup_cons in NDx. simpl in *.
  eapply dseg_frame; [exact Sx| |]; intros q Hq; [rewrite N|rewrite P]; upd_solve Hd.
Qed.

Lemma dlist_insert_before_ring st x l a m :
  dring st x l -> dring st a m -> disj (x :: l) (a :: m) ->
  exists st', dlist_insert_before st x a = Some (st', true)
    /\ dring st' x (l ++ a :: m)
    /\ same_outside (x :: l ++ a :: m) st st'.
Proof.
  intros Hx Ha Hd.
  pose proof (lastof_elem a m) as Hz. pose proof (lastof_elem x l) as H1.
  destruct (insert_before_links st x a (lastof x l) (lastof a m)) as (st' & E & N & P & F);
    [by apply dring_pv|by apply dring_pv|by apply (dring_is_node _ _ _ _ Ha)|by apply (dring_is_node _ _ _ _ Hx)|].
  exists st'. split; [done|]. split; [|intros q Hq; apply F; set_solver].
  destruct Hx as [NDx Sx]. destruct Ha as [NDa Sa].
  pose proof NDx as NDx'. pose proof NDa as NDa'.
  rewrite list.NoDup_cons in NDx', NDa'. split.
  { rewrite list.NoDup_cons, list.NoDup_app, list.NoDup_cons. unfold disj in Hd. set_solver. }
  apply dseg_app. split; eapply dseg_relink; try done;
    try (intros q ?; try intros ?); rewrite ?N, ?P; upd_solve Hd.
Qed.

(** Removing the node from which the ring is read leaves it alone, and leaves
    the other nodes in a ring. *)
Lemma dlist_remove_ring st n l :
  dring st n l ->
  exists st', dlist_remove st n = Some (st', false)
    /\ dring st' n []
    /\ match l with [] => True | x :: l' => dring st' x l' end
    /\ same_outside (n :: l) st st'.
Proof.
  intros Hn.
  pose proof (lastof_elem n l) as H0. pose proof (hd_elem n l) as H2.
  destruct (remove_links st n (lastof n l) (hd n l)) as (st' & E & N & P & F);
    [by apply dring_pv|by apply dring_nx|by apply (dring_is_node _ _ _ _ Hn)..|].
  exists st'. split; [done|]. destruct Hn as [ND Sn]. split_and!.
  - split; [apply NoDup_singleton|]. destruct l as [|y l].
    + split; [rewrite N|rewrite P]; upd_solve (I).
    + apply list.NoDup_cons in ND as [??]. pose proof (lastof_elem y l).
      simpl in *. split; [rewrite N|rewrite P]; upd_solve (I).
  - destruct l as [|y l]; [done|]. destruct Sn as [_ Sn].
    apply list.NoDup_cons in ND as [Hn ND]. split; [done|]. simpl in *.
    pose proof ND as [??]%list.NoDup_cons.
    eapply dseg_relink; try done; try (intros q ?; try intros ?); rewrite ?N, ?P; upd_solve (I).
  - intros q Hq. apply F. set_solver.
Qed.

(** The same rules at an inner node of a ring. *)
Lemma dlist_insert_after_inner st x l y m a k :
  dring st x (l ++ y :: m) -> dring st a k -> disj (x :: l ++ y :: m) (a :: k) ->
  exists st', dlist_insert_after st y a = Some (st', true)
    /\ dring st' x (l ++ y :: a :: k ++ m)
    /\ same_outside (x :: (l ++ y :: m) ++ a :: k) st st'.
Proof.
  intros Hx Ha Hd.
  destruct (dlist_insert_after_ring st y (m ++ x :: l) a k) as (st' & E & R & F).
  { by apply dring_rotate. }
  { done. }
  { intros p q Hp Hq. apply Hd; [|done]. set_solver. }
  exists st'. split; [done|]. split.
  - rewrite app_assoc in R.
    by apply (dring_rotate _ _ (a :: k ++ m)) in R.
  - eapply same_outside_mono; [done|]. set_solver.
Qed.

Lemma dlist_insert_before_inner st x l y m a k :
  dring st x (l ++ y :: m) -> dring st a k -> disj (x :: l ++ y :: m) (a :: k) ->
  exists st', dlist_insert_before st y a = Some (st', true)
    /\ dring st' x (l ++ a :: k ++ y :: m)
    /\ same_outside (x :: (l ++ y :: m) ++ a :: k) st st'.
Proof.
  intros Hx Ha Hd.
  destruct (dlist_insert_before_ring st y (m ++ x :: l) a k) as (st' & E & R & F).
  { by apply dring_rotate. }
  { done. }
  { intros p q Hp Hq. apply Hd; [|done]. set_solver. }
  exists st'. split; [done|]. split.
  - rewrite <- app_assoc in R. simpl in R. apply dring_rotate in R.
    by rewrite <- app_assoc in R.
  - eapply same_outside_mono; [done|]. set_solver.
Qed.

(** Removing an inner node of a ring. *)
Lemma dlist_remove_inner st x l n m :
  dring st x (l ++ n :: m) ->
  exists st', dlist_remove st n = Some (st', false)
    /\ dring st' n [] /\ dring st' x (l ++ m)
    /\ same_outside (x :: l ++ n :: m) st st'.
Proof.
  intros Hr. destruct (dlist_remove_ring st n (m ++ x :: l)) as (st' & E & R1 & R2 & F).
  { by apply dring_rotate. }
  exists st'. split; [done|]. split; [done|]. split.
  - destruct m as [|y m]; simpl in R2; [by rewrite app_nil_r|]. by apply dring_rotate.
  - eapply same_outside_mono; [done|]. set_solver.
Qed.

Lemma disj_sym l m : disj l m -> disj m l.
Proof. intros H p q Hp Hq E. by eapply (H q p). Qed.

(** Removing one node from each of two disjoint rings. *)
Lemma dlist_remove_two st x l n m x' l' n' m' :
  dring st x (l ++ n :: m) -> dring st x' (l' ++ n' :: m') ->
  disj (x :: l ++ n :: m) (x' :: l' ++ n' :: m') ->
  exists st1 st2, dlist_remove st n = Some (st1, false)
    /\ dlist_remove st1 n' = Some (st2, false)
    /\ dring st2 x (l ++ m) /\ dring st2 x' (l' ++ m')
    /\ same_outside ((x :: l ++ n :: m) ++ x' :: l' ++ n' :: m') st st2.
Proof.
  intros H H' Hd.
  destruct (dlist_remove_inner _ _ _ _ _ H) as (st1 & E1 & _ & R1 & F1).
  assert (H1' : dring st1 x' (l' ++ n' :: m')).
  { eapply dring_same_outside; [exact H'|exact F1|]. intros q Hq Hq'. by apply (Hd q q). }
  destruct (dlist_remove_inner _ _ _ _ _ H1') as (st2 & E2 & _ & R2 & F2).
  exists st1, st2. split_and!; [done..| |done|].
  - eapply dring_same_outside; [exact R1|exact F2|].
    intros q Hq Hq'. apply (Hd q q); [|done|done]. clear -Hq. set_solver.
  - eapply (same_outside_trans _ _ st1); (eapply same_outside_mono; [eassumption|]);
      intros q; rewrite elem_of_app; tauto.
Qed.
End rings.

(** ** Traversal *)
Section traversal.
Context {S R : Type} (nodes : S -> dstore) (body : Z -> S -> option (step (Z * S) R)).

(** Bodies that keep the links and go on are run on each node in turn. *)
Lemma for_each_skip (g : Z -> S -> S) fuel head x l y s :
  dseg (nodes s) x l y -> head ∉ x :: l ->
  (forall q s, q ∈ x :: l -> nodes (g q s) = nodes s) ->
  (forall k, (k <= length l)%nat -> forall q, (x :: l) !! k = Some q ->
     let t := foldl (fun s q => g q s) s (take k (x :: l)) in
     body q t = Some (Continue (q, g q t))) ->
  for_each_from nodes (Datatypes.S (length l) + fuel) head x body s
  = for_each_from nodes fuel head y body (foldl (fun s q => g q s) s (x :: l)).
Proof.
  revert x s. induction l as [|z l IH]; intros x s Hs Hh Hg Hb.
  - simpl in *. destruct (Z.eqb_spec x head); [set_solver|].
    pose proof (Hb 0%nat ltac:(lia) x eq_refl) as Hb0. simpl in Hb0. rewrite Hb0. simpl.
    destruct Hs as [H1 _]. unfold nx in H1. rewrite Hg by set_solver. by rewrite H1.
  - simpl length. cbn [for_each_from plus].
    destruct (Z.eqb_spec x head); [set_solver|].
    pose proof (Hb 0%nat ltac:(lia) x eq_refl) as Hb0. simpl in Hb0. rewrite Hb0. simpl.
    destruct Hs as [[H1 _] Hs]. unfold nx in H1. rewrite Hg by set_solver. rewrite H1. simpl.
    rewrite <- (Hg x s) in Hs by set_solver.
    specialize (IH z (g x s) Hs ltac:(set_solver) ltac:(set_solver)). simpl in IH.
    rewrite IH; [done|]. intros k Hk q Hq. simpl in *.
    apply (Hb (Datatypes.S k) ltac:(lia) q Hq).
Qed.

(** The whole ring is traversed, in order, when no body leaves the loop. *)
Lemma list_for_each_fold (g : Z -> S -> S) fuel head l s :
  dring (nodes s) head l -> (length l < fuel)%nat ->
  (forall q s, q ∈ l -> nodes (g q s) = nodes s) ->
  (forall q t, q ∈ l -> body q t = Some (Continue (q, g q t))) ->
  list_for_each_entry nodes fuel head body s
  = Some (Continue (foldl (fun s q => g q s) s l)).
Proof.
  intros Hr Hf Hg Hb. unfold list_for_each_entry.
  pose proof (dring_nx _ _ _ Hr) as Hn. unfold nx in Hn. rewrite Hn. simpl.
  destruct Hr as [ND Hs]. destruct l as [|x l]; simpl.
  - destruct fuel as [|fuel]; [simpl in Hf; lia|]. simpl. by rewrite Z.eqb_refl.
  - apply list.NoDup_cons in ND as [Hh _]. destruct Hs as [_ Hs].
    replace fuel with (Datatypes.S (length l) + Datatypes.S (fuel - length l - 2))%nat
      by (simpl in Hf; lia).
    rewrite (for_each_skip g _ _ _ _ head); [|done|done|done|].
    + simpl. by rewrite Z.eqb_refl.
    + intros k Hk q Hq. simpl. apply Hb. by eapply list_elem_of_lookup_2.
Qed.

(** Nodes whose body goes on without an effect are skipped. *)
Lemma list_for_each_at fuel head l p m s :
  dring (nodes s) head (l ++ p :: m) -> (length l <= fuel)%nat ->
  (forall q, q ∈ l -> body q s = Some (Continue (q, s))) ->
  list_for_each_entry nodes fuel head body s
  = for_each_from nodes (fuel - length l) head p body s.
Proof.
  intros Hr Hf Hb. unfold list_for_each_entry.
  pose proof (dring_nx _ _ _ Hr) as Hn. unfold nx in Hn. rewrite Hn. simpl.
  destruct Hr as [ND Hs]. destruct l as [|x l]; simpl.
  - by rewrite Nat.sub_0_r.
  - apply list.NoDup_cons in ND as [Hh _]. simpl in Hs, Hf. destruct Hs as [_ Hs].
    apply dseg_app in Hs as [Hs _].
    assert (Hid : forall l', foldl (fun (s : S) (_ : Z) => s) s l' = s)
      by (intros l'; induction l'; done).
    replace fuel with (Datatypes.S (length l) + (fuel - Datatypes.S (length l)))%nat at 1
      by lia.
    rewrite (for_each_skip (fun _ s => s) _ _ _ _ p); [by rewrite Hid|done|set_solver|done|].
    intros k Hk q Hq. simpl. rewrite Hid. apply Hb. eapply list_elem_of_lookup_2, Hq.
Qed.

Lemma list_for_each_skip_all fuel head l s :
  dring (nodes s) head l -> (length l < fuel)%nat ->
  (forall q, q ∈ l -> body q s = Some (Continue (q, s))) ->
  list_for_each_entry nodes fuel head body s = Some (Continue s).
Proof.
  intros Hr Hf Hb. destruct l as [|x l].
  - rewrite (list_for_each_fold (fun _ s => s) fuel head [] s); [done|done|done|done|].
    set_solver.
  - destruct (exists_last (l := x :: l)) as (l' & y & E); [done|]. rewrite E in *.
    rewrite length_app in Hf. simpl in Hf.
    rewrite (list_for_each_at fuel head l' y [] s); [|done|lia|set_solver].
    destruct (fuel - length l')%nat as [|[|k]] eqn:Ek; [lia|lia|]. cbn [for_each_from].
    pose proof Hr as [ND _]. apply list.NoDup_cons in ND as [Hh _].
    destruct (Z.eqb_spec y head); [set_solver|]. rewrite Hb by set_solver. simpl.
    apply dring_rotate, dring_nx in Hr. unfold nx in Hr. rewrite Hr. simpl.
    by rewrite Z.eqb_refl.
Qed.
End traversal.
