(* ===== verification/Heapdl.v ===== *)
(** * The kernel heap of src/src/memory/heapdl.{h,c}

    Chunks are headers in a flat 32-bit address space.  A [CHUNK] header holds
    two list nodes, [all] (offset 0) and [free] (offset 16), the flag [isUsed]
    (offset 8) and the [size] (offset 12), and is padded to 32 bytes, a multiple
    of [OS_MEMORY_ALIGN].  The links are kept in the store of [Dlist] under the
    addresses of the nodes, the two other fields in maps under the address of
    the header; reading a header that was never written is a fault. *)
From Stdlib Require Import ZArith Lia.
From stdpp Require Import base option list gmap numbers.
From S2P Require Import Prelude Kutil Dlist.

Set Default Proof Using "Type".

(** ** Layout *)
Definition OS_MEMORY_ALIGN : Z := 16.
Definition OS_HEAP_BLOCK_SIZE : Z := 4096.
Definition sizeof_CHUNK : Z := 32.
Definition off_all : Z := 0.
Definition off_free : Z := 16.

(** [&chunk->all], [&chunk->free] and the [container_of] that undo them. *)
Definition all_of (chunk : Z) : Z := chunk + off_all.
Definition free_of (chunk : Z) : Z := chunk + off_free.
Definition container_of_all (p : Z) : Z := u32 (p - off_all).
Definition container_of_free (p : Z) : Z := u32 (p - off_free).

(** ** State *)
Record heap := mkHeap {
  links : dstore;
  isUsed : gmap Z bool;
  csize : gmap Z Z;
  first : Z;
  last : Z;
  free_chunk_head : Z;
  mem_all : Z;
  mem_free : Z
}.

Definition set_links (h : heap) (l : dstore) : heap :=
  mkHeap l (isUsed h) (csize h) (first h) (last h) (free_chunk_head h) (mem_all h) (mem_free h).
Definition set_isUsed (h : heap) (c : Z) (b : bool) : heap :=
  mkHeap (links h) (<[c := b]> (isUsed h)) (csize h) (first h) (last h) (free_chunk_head h)
    (mem_all h) (mem_free h).
Definition set_size (h : heap) (c s : Z) : heap :=
  mkHeap (links h) (isUsed h) (<[c := s]> (csize h)) (first h) (last h) (free_chunk_head h)
    (mem_all h) (mem_free h).
Definition set_mem_free (h : heap) (m : Z) : heap :=
  mkHeap (links h) (isUsed h) (csize h) (first h) (last h) (free_chunk_head h) (mem_all h) m.
Definition set_bounds (h : heap) (f l : Z) : heap :=
  mkHeap (links h) (isUsed h) (csize h) f l (free_chunk_head h) (mem_all h) (mem_free h).
Definition set_head (h : heap) (f : Z) : heap :=
  mkHeap (links h) (isUsed h) (csize h) (first h) (last h) f (mem_all h) (mem_free h).
Definition set_mem_all (h : heap) (m : Z) : heap :=
  mkHeap (links h) (isUsed h) (csize h) (first h) (last h) (free_chunk_head h) m (mem_free h).

(** A list operation on the links of the heap. *)
Definition on_links (f : dstore -> option (dstore * bool)) (h : heap) : option heap :=
  r ← f (links h); Some (set_links h r.1).

(** ** Operations *)

(** The aligned size of a header. *)
Definition header_size : Z := align_address_to_upper sizeof_CHUNK OS_MEMORY_ALIGN.

Definition chunk_init (h : heap) (chunk : Z) : heap :=
  let h := set_links h (dlist_init (links h) (all_of chunk)) in
  let h := set_isUsed h chunk false in
  let h := set_size h chunk header_size in
  set_links h (dlist_init (links h) (free_of chunk)).

Definition chunk_calc_actual_free (h : heap) (chunk : Z) : option Z :=
  s ← csize h !! chunk; Some (u32 (s - header_size)).

Definition chunk_calc_free_offset (chunk : Z) : Z := u32 (chunk + header_size).

Definition k_heapdl_mm_init (h : heap) (mem_start mem_end : Z) : option heap :=
  let aligned_m_start := align_address_to_upper mem_start OS_HEAP_BLOCK_SIZE in
  let aligned_m_end := align_address_to_lower mem_end OS_HEAP_BLOCK_SIZE in
  let first := aligned_m_start in
  let second := u32 (first + sizeof_CHUNK) in
  let last := u32 (aligned_m_end - sizeof_CHUNK) in
  let h := set_bounds h first last in
  let h := chunk_init h first in
  let h := chunk_init h second in
  let h := chunk_init h last in
  h ← on_links (fun st => dlist_insert_after st (all_of first) (all_of second)) h;
  h ← on_links (fun st => dlist_insert_after st (all_of second) (all_of last)) h;
  let h := set_isUsed h first true in
  let h := set_isUsed h last true in
  let h := set_size h second (u32 (last - second)) in
  let h := set_head h first in
  h ← on_links (fun st => dlist_insert_after st (free_of first) (free_of second)) h;
  s ← csize h !! second;
  let h := set_mem_free h (u32 (s - header_size)) in
  Some (set_mem_all h (mem_free h)).

Definition chunk_slice (h : heap) (chunk s : Z) : option heap :=
  let chunkB := u32 (chunk_calc_free_offset chunk + s) in
  let h := chunk_init h chunkB in
  actual ← chunk_calc_actual_free h chunk;
  let sizeB := u32 (actual - s) in
  let h := set_size h chunkB sizeB in
  sz ← csize h !! chunk;
  let h := set_size h chunk (u32 (sz - sizeB)) in
  h ← on_links (fun st => dlist_insert_after st (all_of chunk) (all_of chunkB)) h;
  on_links (fun st => dlist_insert_after st (free_of chunk) (free_of chunkB)) h.

Definition chunk_engage (h : heap) (chunk : Z) : option heap :=
  let h := set_isUsed h chunk true in
  h ← on_links (fun st => dlist_remove st (free_of chunk)) h;
  s ← csize h !! chunk;
  Some (set_mem_free h (u32 (mem_free h - s))).

Definition chunk_merge (h : heap) (chunkA chunkB : Z) : option heap :=
  h ← on_links (fun st => dlist_remove st (all_of chunkB)) h;
  h ← on_links (fun st => dlist_remove st (free_of chunkB)) h;
  sA ← csize h !! chunkA;
  sB ← csize h !! chunkB;
  let h := set_size h chunkA (u32 (sA + sB)) in
  Some (set_mem_free h (u32 (mem_free h + sizeof_CHUNK))).

Definition chunk_free (h : heap) (chunk : Z) : option heap :=
  let h := set_isUsed h chunk false in
  s ← csize h !! chunk;
  let h := set_mem_free h (u32 (mem_free h + (s - sizeof_CHUNK))) in
  prevChunk ← container_of_all <$> (d_prev <$> links h !! all_of chunk);
  nextChunk ← container_of_all <$> (d_next <$> links h !! all_of chunk);
  prevUsed ← isUsed h !! prevChunk;
  if negb prevUsed then
    h ← on_links (fun st => dlist_insert_after st (free_of prevChunk) (free_of chunk)) h;
    chunk_merge h prevChunk chunk
  else
    nextUsed ← isUsed h !! nextChunk;
    if negb nextUsed then
      h ← on_links (fun st => dlist_insert_before st (free_of nextChunk) (free_of chunk)) h;
      chunk_merge h chunk nextChunk
    else
      on_links (fun st => dlist_insert_after st (free_of (free_chunk_head h)) (free_of chunk)) h.

Definition k_heapdl_mm_get_free (h : heap) : Z := mem_free h.
Definition k_heapdl_mm_get_usage (h : heap) : Z := u32 (mem_all h - mem_free h).

(** Both counting loops run over [free] members; the second one starts at the
    [all] node of the head.  [container_of(node, CHUNK, free)] followed by
    [pos->free] is [node] again, so that loop follows the [all] links. *)
Definition count_nodes (fuel : nat) (h : heap) (head : Z) : option Z :=
  r ← list_for_each_entry (R := unit) (fun _ => links h) fuel head
        (fun pos count => Some (Continue (pos, count + 1))) 0;
  match r with
  | Continue count | Break count | Return count _ => Some count
  end.

Definition debug__k_heapdl_mm_get_chunksfree (fuel : nat) (h : heap) : option Z :=
  count_nodes fuel h (free_of (free_chunk_head h)).

Definition debug__k_heapdl_mm_get_chunks (fuel : nat) (h : heap) : option Z :=
  count ← count_nodes fuel h (all_of (free_chunk_head h));
  Some (count + 1).

(** One iteration of the search of [k_heapdl_mm_malloc] at the node [p]. *)
Definition malloc_body (s : Z) (p : Z) (h : heap) : option (step (Z * heap) Z) :=
  let pos := container_of_free p in
  sz ← csize h !! pos;
  if sz <? s then Some (Continue (p, h))
  else
    chunk_free ← chunk_calc_actual_free h pos;
    if chunk_free <? s then Some (Continue (p, h))
    else if u32 (chunk_free - s) <? OS_HEAP_BLOCK_SIZE then
      h ← chunk_engage h pos;
      Some (Return (p, h) (chunk_calc_free_offset pos))
    else
      h ← chunk_slice h pos s;
      h ← chunk_engage h pos;
      Some (Return (p, h) (chunk_calc_free_offset pos)).

Definition k_heapdl_mm_malloc (fuel : nat) (h : heap) (s : Z) : option (Z * heap) :=
  if (mem_free h <? s) || (mem_free h =? 0) then Some (0, h)
  else
    let head := free_of (free_chunk_head h) in
    n ← d_next <$> links h !! head;
    if n =? head then Some (0, h)
    else
      r ← list_for_each_entry links fuel head (malloc_body s) h;
      match r with
      | Return h p => Some (p, h)
      | Continue h | Break h => Some (0, h)
      end.

Definition chunk_calc_chunk_by_ptr (ptr : Z) : Z := u32 (ptr - header_size).

Definition k_heapdl_mm_free (h : heap) (ptr : Z) : option heap :=
  if ptr =? 0 then Some h
  else
    let chunk := chunk_calc_chunk_by_ptr ptr in
    used ← isUsed h !! chunk;
    if used : bool then chunk_free h chunk else Some h.
