(* ===== verification/HeapdlInv.v ===== *)
(** * The invariant of the kernel heap and its preservation

    [heap_repr h cs fl] relates the heap of [Heapdl] to the list [cs] of its
    chunks in address order (without the two sentinels) and to the list [fl] of
    the free ones in the order of the free list. *)
From Stdlib Require Import ZArith Lia.
From stdpp Require Import base option list gmap numbers sorting.
From S2P Require Import Prelude Kutil Dlist Heapdl.

Set Default Proof Using "Type".

(** ** Chunks and tilings *)
Record chunk := mkChunk { c_addr : Z; c_size : Z; c_used : bool }.

#[global] Instance chunk_eq_dec : EqDecision chunk.
Proof. solve_decision. Defined.

(** The chunks of [cs] cover the addresses from [a] to [e], without a gap. *)
Fixpoint tiles (a : Z) (cs : list chunk) (e : Z) : Prop :=
  match cs with
  | [] => a = e
  | c :: cs => c_addr c = a /\ sizeof_CHUNK <= c_size c /\ (OS_MEMORY_ALIGN | c_size c)
               /\ tiles (a + c_size c) cs e
  end.

Definition unused (cs : list chunk) : list chunk := filter (fun c => c_used c = false) cs.

(** The blocks handed out: where the usable bytes of a chunk in use start, and
    how many they are. *)
Definition live (cs : list chunk) : list (Z * Z) :=
  map (fun c => (c_addr c + sizeof_CHUNK, c_size c - sizeof_CHUNK))
      (filter (fun c => c_used c = true) cs).

Definition starts (h : heap) (cs : list chunk) : list Z :=
  first h :: map c_addr cs ++ [last h].

Record heap_repr (h : heap) (cs : list chunk) (fl : list Z) : Prop := {
  hr_first : 0 < first h /\ (OS_MEMORY_ALIGN | first h);
  hr_tiles : tiles (first h + sizeof_CHUNK) cs (last h);
  hr_last : last h + sizeof_CHUNK <= 2 ^ 32;
  hr_head : free_chunk_head h = first h;
  hr_all : dring (links h) (first h) (map c_addr cs ++ [last h]);
  hr_free : dring (links h) (free_of (first h)) (map free_of fl);
  hr_fl : fl ≡ₚ map c_addr (unused cs);
  hr_used_nodes : forall c, c ∈ cs -> c_used c = true ->
    dring (links h) (free_of (c_addr c)) [];
  hr_headers : forall c, c ∈ cs ->
    isUsed h !! c_addr c = Some (c_used c) /\ csize h !! c_addr c = Some (c_size c);
  hr_sentinels : isUsed h !! first h = Some true /\ isUsed h !! last h = Some true
}.

(** ** Layout lemmas *)
Lemma header_size_eq : header_size = sizeof_CHUNK.
Proof. reflexivity. Qed.

Lemma all_of_eq c : all_of c = c.
Proof. unfold all_of, off_all. lia. Qed.

Lemma container_of_all_eq p : 0 <= p < 2 ^ 32 -> container_of_all p = p.
Proof. intros. unfold container_of_all, off_all. rewrite Z.sub_0_r. by apply u32_small. Qed.

Lemma container_of_free_eq c : 0 <= c < 2 ^ 32 -> container_of_free (free_of c) = c.
Proof.
  intros. unfold container_of_free, free_of. replace (c + off_free - off_free) with c by lia.
  by apply u32_small.
Qed.

Lemma free_of_inj c d : free_of c = free_of d -> c = d.
Proof. unfold free_of. lia. Qed.

#[global] Instance free_of_Inj : Inj (=) (=) free_of.
Proof. intros c d. apply free_of_inj. Qed.

(** ** Tilings *)
Lemma tiles_app a cs1 cs2 e :
  tiles a (cs1 ++ cs2) e <-> exists m, tiles a cs1 m /\ tiles m cs2 e.
Proof.
  revert a. induction cs1 as [|c cs1 IH]; intros a; simpl.
  - naive_solver.
  - rewrite IH. naive_solver.
Qed.

Lemma tiles_le a cs e : tiles a cs e -> a <= e.
Proof.
  revert a. induction cs as [|c cs IH]; intros a; simpl; [lia|].
  intros (? & ? & ? & H%IH). unfold sizeof_CHUNK in *. lia.
Qed.

Lemma tiles_elem a cs e c :
  tiles a cs e -> c ∈ cs ->
  a <= c_addr c /\ c_addr c + c_size c <= e /\ sizeof_CHUNK <= c_size c
  /\ (OS_MEMORY_ALIGN | c_size c).
Proof.
  intros Ht (cs1 & cs2 & ->)%list_elem_of_split.
  apply tiles_app in Ht as (m & H1 & H2). simpl in H2. destruct H2 as (? & ? & ? & H2).
  apply tiles_le in H1. apply tiles_le in H2. split_and!; try done; lia.
Qed.

(** Two chunks of a tiling are the same or one ends before the other starts. *)
Lemma tiles_sep a cs e c d :
  tiles a cs e -> c ∈ cs -> d ∈ cs ->
  c = d \/ c_addr c + c_size c <= c_addr d \/ c_addr d + c_size d <= c_addr c.
Proof.
  revert a. induction cs as [|x cs IH]; intros a Ht Hc Hd; [by apply elem_of_nil in Hc|].
  simpl in Ht. destruct Ht as (? & ? & ? & Ht).
  apply elem_of_cons in Hc as [->|Hc]; apply elem_of_cons in Hd as [->|Hd].
  - by left.
  - apply (tiles_elem _ _ _ _ Ht) in Hd. lia.
  - apply (tiles_elem _ _ _ _ Ht) in Hc. lia.
  - by eapply IH.
Qed.

Lemma tiles_starts_aligned a cs e c :
  tiles a cs e -> (OS_MEMORY_ALIGN | a) -> c ∈ cs -> (OS_MEMORY_ALIGN | c_addr c).
Proof.
  revert a. induction cs as [|x cs IH]; intros a Ht Ha Hc; [by apply elem_of_nil in Hc|].
  simpl in Ht. destruct Ht as (<- & ? & ? & Ht).
  apply elem_of_cons in Hc as [->|Hc]; [done|].
  eapply IH; [done| |done]. by apply Z.divide_add_r.
Qed.

Lemma unused_app cs1 cs2 : unused (cs1 ++ cs2) = unused cs1 ++ unused cs2.
Proof. apply filter_app. Qed.

Lemma unused_cons c cs :
  unused (c :: cs) = if c_used c then unused cs else c :: unused cs.
Proof. unfold unused. rewrite filter_cons. by destruct (c_used c). Qed.

Lemma elem_of_unused c cs : c ∈ unused cs <-> c_used c = false /\ c ∈ cs.
Proof. unfold unused. by rewrite list_elem_of_filter. Qed.

Lemma live_app cs1 cs2 : live (cs1 ++ cs2) = live cs1 ++ live cs2.
Proof. unfold live. by rewrite filter_app, map_app. Qed.

Lemma live_cons c cs :
  live (c :: cs)
  = if c_used c then (c_addr c + sizeof_CHUNK, c_size c - sizeof_CHUNK) :: live cs else live cs.
Proof. unfold live. rewrite filter_cons. by destruct (c_used c). Qed.

#[global] Hint Rewrite unused_app unused_cons live_app live_cons map_app : heapdl.

(** ** Addresses of a represented heap *)
Section addresses.
Context (h : heap) (cs : list chunk) (fl : list Z) (Hr : heap_repr h cs fl).

Lemma chunk_range c : c ∈ cs ->
  first h + sizeof_CHUNK <= c_addr c /\ c_addr c + c_size c <= last h
  /\ sizeof_CHUNK <= c_size c /\ (OS_MEMORY_ALIGN | c_size c).
Proof using Hr. intros. by eapply tiles_elem; [apply Hr|]. Qed.

Lemma first_last : 0 < first h /\ first h + sizeof_CHUNK <= last h
  /\ last h + sizeof_CHUNK <= 2 ^ 32.
Proof using Hr.
  destruct Hr as [? Ht]. apply tiles_le in Ht. unfold sizeof_CHUNK in *. lia.
Qed.

Lemma starts_elem x :
  x ∈ starts h cs <-> x = first h \/ x = last h \/ exists c, c ∈ cs /\ c_addr c = x.
Proof using Type.
  unfold starts. rewrite elem_of_cons, elem_of_app, list_elem_of_singleton, list_elem_of_fmap.
  naive_solver.
Qed.

(** Headers are 32 bytes apart. *)
Lemma starts_sep x y :
  x ∈ starts h cs -> y ∈ starts h cs ->
  x = y \/ x + sizeof_CHUNK <= y \/ y + sizeof_CHUNK <= x.
Proof using Hr.
  pose proof first_last as (? & ? & ?).
  rewrite !starts_elem.
  intros [->|[->|(c & Hc & <-)]] [->|[->|(d & Hd & <-)]]; try lia;
    try pose proof (chunk_range _ Hc); try pose proof (chunk_range _ Hd); try lia.
  pose proof (tiles_sep _ _ _ _ _ (hr_tiles _ _ _ Hr) Hc Hd) as [->|?]; lia.
Qed.

Lemma starts_range x : x ∈ starts h cs -> 0 < x /\ x + sizeof_CHUNK <= 2 ^ 32.
Proof using Hr.
  pose proof first_last as (? & ? & ?). rewrite starts_elem.
  intros [->|[->|(c & Hc & <-)]]; unfold sizeof_CHUNK in *; try lia.
  apply chunk_range in Hc. unfold sizeof_CHUNK in *. lia.
Qed.

(** An [all] node is never a [free] node. *)
Lemma all_not_free x y : x ∈ starts h cs -> y ∈ starts h cs -> x <> free_of y.
Proof using Hr.
  intros Hx Hy. pose proof (starts_sep _ _ Hx Hy). unfold free_of, off_free, sizeof_CHUNK in *. lia.
Qed.

Lemma fl_elem x : x ∈ fl <-> exists c, c ∈ cs /\ c_used c = false /\ c_addr c = x.
Proof using Hr.
  rewrite (hr_fl _ _ _ Hr), list_elem_of_fmap. setoid_rewrite elem_of_unused. naive_solver.
Qed.

Lemma fl_starts x : x ∈ fl -> x ∈ starts h cs.
Proof using Hr. rewrite fl_elem, starts_elem. naive_solver. Qed.

Lemma chunk_starts c : c ∈ cs -> c_addr c ∈ starts h cs.
Proof using Type. rewrite starts_elem. naive_solver. Qed.

Lemma first_starts : first h ∈ starts h cs.
Proof using Type. apply starts_elem. by left. Qed.

Lemma last_starts : last h ∈ starts h cs.
Proof using Type. apply starts_elem. naive_solver. Qed.

(** A chunk is determined by its address. *)
Lemma chunk_inj c d : c ∈ cs -> d ∈ cs -> c_addr c = c_addr d -> c = d.
Proof using Hr.
  intros Hc Hd E. pose proof (chunk_range _ Hc). pose proof (chunk_range _ Hd).
  pose proof (tiles_sep _ _ _ _ _ (hr_tiles _ _ _ Hr) Hc Hd). unfold sizeof_CHUNK in *.
  destruct H1 as [?|?]; [done|lia].
Qed.

Lemma first_not_chunk c : c ∈ cs -> first h <> c_addr c.
Proof using Hr. intros Hc%chunk_range. unfold sizeof_CHUNK in *. lia. Qed.

(** The free ring only holds [free] nodes of chunks that are not in use. *)
Lemma free_ring_not_all q x :
  q ∈ free_of (first h) :: map free_of fl -> x ∈ starts h cs -> q <> x.
Proof using Hr.
  intros [->|(y & -> & Hy)%list_elem_of_fmap]%elem_of_cons Hx; apply not_eq_sym, all_not_free;
    auto using first_starts, fl_starts.
Qed.

Lemma used_not_free_ring c :
  c ∈ cs -> c_used c = true -> free_of (c_addr c) ∉ free_of (first h) :: map free_of fl.
Proof using Hr.
  intros Hc Hu [E|(y & E & Hy)%list_elem_of_fmap]%elem_of_cons; apply free_of_inj in E.
  - by eapply first_not_chunk.
  - apply fl_elem in Hy as (d & Hd & Hdu & <-).
    assert (c = d) by (by apply chunk_inj). congruence.
Qed.
End addresses.

Lemma on_links_Some f h st b :
  f (links h) = Some (st, b) -> on_links f h = Some (set_links h st).
Proof. intros E. unfold on_links. by rewrite E. Qed.

(** Chunks other than the one at a given place keep their headers when only the
    header at that place is written. *)
Lemma headers_insert_ne {A} (m : gmap Z A) (c d : chunk) v :
  c_addr c <> c_addr d -> <[c_addr d := v]> m !! c_addr c = m !! c_addr c.
Proof. intros. by rewrite lookup_insert_ne. Qed.

Section engage.
Context (h : heap) (cs1 cs2 : list chunk) (c : chunk) (fl : list Z).
Context (Hr : heap_repr h (cs1 ++ c :: cs2) fl).

Lemma mid_elem : c ∈ cs1 ++ c :: cs2.
Proof using Type. apply elem_of_app. right. by apply elem_of_cons; left. Qed.

(** The other chunks of the list sit at other addresses. *)
Lemma other_addr d : d ∈ cs1 ++ cs2 -> c_addr d <> c_addr c.
Proof using Hr.
  intros Hd E. pose proof (hr_tiles _ _ _ Hr) as Ht.
  apply tiles_app in Ht as (m & H1 & H2). simpl in H2. destruct H2 as (? & ? & ? & H2).
  apply elem_of_app in Hd as [Hd|Hd].
  - apply (tiles_elem _ _ _ _ H1) in Hd. unfold sizeof_CHUNK in *. lia.
  - apply (tiles_elem _ _ _ _ H2) in Hd. unfold sizeof_CHUNK in *. lia.
Qed.

Lemma fl_split : c_used c = false -> exists fl1 fl2, fl = fl1 ++ c_addr c :: fl2.
Proof using Hr.
  intros Hu. apply list_elem_of_split, (fl_elem _ _ _ Hr). exists c. split; [apply mid_elem|done].
Qed.

Lemma engage_repr :
  c_used c = false ->
  exists h' fl', chunk_engage h (c_addr c) = Some h'
    /\ heap_repr h' (cs1 ++ mkChunk (c_addr c) (c_size c) true :: cs2) fl'
    /\ mem_free h' = u32 (mem_free h - c_size c) /\ mem_all h' = mem_all h
    /\ first h' = first h /\ last h' = last h.
Proof using Hr.
  intros Hu. destruct (fl_split Hu) as (fl1 & fl2 & Hfl).
  pose proof (hr_free _ _ _ Hr) as Hf. rewrite Hfl, map_app in Hf. simpl in Hf.
  destruct (dlist_remove_inner _ _ _ _ _ Hf) as (st' & E & R1 & R2 & F).
  unfold chunk_engage.
  erewrite on_links_Some by exact E. simpl.
  destruct (hr_headers _ _ _ Hr c mid_elem) as [_ ->]. simpl.
  assert (F' : same_outside (free_of (first h) :: map free_of fl) (links h) st').
  { rewrite Hfl, map_app. done. }
  exists (set_mem_free (set_links (set_isUsed h (c_addr c) true) st')
            (u32 (mem_free h - c_size c))), (fl1 ++ fl2).
  split; [done|]. split; [|done].
  constructor; simpl.
  - apply Hr.
  - pose proof (hr_tiles _ _ _ Hr) as Ht. rewrite tiles_app in *. done.
  - apply Hr.
  - apply Hr.
  - rewrite map_app. simpl. pose proof (hr_all _ _ _ Hr) as Ha. rewrite map_app in Ha.
    eapply dring_same_outside; [exact Ha|exact F'|].
    intros q Hq Hq'. eapply (free_ring_not_all _ _ _ Hr q q Hq'); [|done].
    unfold starts. by rewrite map_app.
  - rewrite map_app. done.
  - pose proof (hr_fl _ _ _ Hr) as Hp. rewrite Hfl in Hp.
    autorewrite with heapdl in *. rewrite Hu in Hp. simpl in *.
    rewrite <- !Permutation_middle in Hp. by apply Permutation_cons_inv in Hp.
  - intros d Hd Hdu. apply elem_of_app in Hd. rewrite elem_of_cons in Hd.
    destruct (decide (d = mkChunk (c_addr c) (c_size c) true)) as [->|Hne]; [done|].
    assert (Hd' : d ∈ cs1 ++ cs2) by set_solver.
    eapply dring_same_outside; [apply (hr_used_nodes _ _ _ Hr d); [set_solver|done]|exact F'|].
    intros q [->|?%elem_of_nil]%elem_of_cons; [|done].
    eapply used_not_free_ring; [done|set_solver|done].
  - intros d Hd. apply elem_of_app in Hd. rewrite elem_of_cons in Hd.
    destruct (decide (d = mkChunk (c_addr c) (c_size c) true)) as [->|Hne]; simpl.
    + rewrite lookup_insert_eq. split; [done|]. apply (hr_headers _ _ _ Hr c mid_elem).
    + assert (Hd' : d ∈ cs1 ++ cs2) by set_solver.
      rewrite headers_insert_ne by (by apply other_addr).
      apply (hr_headers _ _ _ Hr). set_solver.
  - pose proof (chunk_range _ _ _ Hr c mid_elem). pose proof (first_last _ _ _ Hr).
    rewrite !lookup_insert_ne by (unfold sizeof_CHUNK in *; lia). apply Hr.
Qed.
End engage.

(** The links of a new header at [b]: two nodes on their own. *)
Lemma init_links st b :
  let st' := dlist_init (dlist_init st (all_of b)) (free_of b) in
  dring st' b [] /\ dring st' (free_of b) [] /\ same_outside [b; free_of b] st st'.
Proof.
  rewrite all_of_eq. simpl. split_and!.
  - eapply dring_same_outside; [apply dlist_init_ring|apply dlist_init_outside|].
    intros q [->|?%elem_of_nil]%elem_of_cons; [|done].
    unfold free_of, off_free. rewrite list_elem_of_singleton. lia.
  - apply dlist_init_ring.
  - intros q Hq. unfold dlist_init. rewrite !lookup_insert_ne; set_solver.
Qed.

Section slice.
Context (h : heap) (cs1 cs2 : list chunk) (c : chunk) (fl : list Z).
Context (Hr : heap_repr h (cs1 ++ c :: cs2) fl).

Lemma starts_out x :
  x ∈ starts h (cs1 ++ c :: cs2) ->
  x = c_addr c \/ x + sizeof_CHUNK <= c_addr c \/ c_addr c + c_size c <= x.
Proof using Hr.
  pose proof (chunk_range _ _ _ Hr c (mid_elem _ _ _)) as (? & ? & ? & _).
  rewrite starts_elem. intros [->|[->|(d & Hd & <-)]]; [lia|lia|].
  pose proof (chunk_range _ _ _ Hr d Hd).
  pose proof (tiles_sep _ _ _ _ _ (hr_tiles _ _ _ Hr) Hd (mid_elem cs1 cs2 c)) as [->|?]; lia.
Qed.

(** Nodes of a header placed inside the usable bytes of [c] are new. *)
Lemma payload_fresh b x :
  c_addr c + sizeof_CHUNK <= b -> b + sizeof_CHUNK <= c_addr c + c_size c ->
  x ∈ starts h (cs1 ++ c :: cs2) ->
  x <> b /\ x <> free_of b /\ free_of x <> b /\ free_of x <> free_of b.
Proof using Hr.
  intros ? ? Hx%starts_out. unfold free_of, off_free, sizeof_CHUNK in *. lia.
Qed.
End slice.

Section slice_ops.
Context (h : heap) (cs1 cs2 : list chunk) (c : chunk) (fl1 fl2 : list Z).
Context (Hr : heap_repr h (cs1 ++ c :: cs2) (fl1 ++ c_addr c :: fl2)).
Context (b : Z) (Hb1 : c_addr c + sizeof_CHUNK <= b)
        (Hb2 : b + sizeof_CHUNK <= c_addr c + c_size c).

Let nodes := starts h (cs1 ++ c :: cs2).
Let ring := free_of (first h) :: map free_of (fl1 ++ c_addr c :: fl2).

Lemma ring_fresh q : q ∈ ring -> q ∉ [b; free_of b].
Proof using Hr Hb1 Hb2.
  intros Hq. assert (exists x, x ∈ nodes /\ q = free_of x) as (x & Hx & ->).
  { apply elem_of_cons in Hq as [->|(y & -> & Hy)%list_elem_of_fmap].
    - eexists. split; [apply first_starts|done].
    - eexists. split; [by eapply fl_starts|done]. }
  pose proof (payload_fresh _ _ _ _ _ Hr b x Hb1 Hb2 Hx).
  rewrite !not_elem_of_cons. split_and!; try tauto. apply not_elem_of_nil.
Qed.

Lemma nodes_fresh q : q ∈ nodes -> q ∉ [b; free_of b].
Proof using Hr Hb1 Hb2.
  intros Hq. pose proof (payload_fresh _ _ _ _ _ Hr b q Hb1 Hb2 Hq).
  rewrite !not_elem_of_cons. split_and!; try tauto. apply not_elem_of_nil.
Qed.

(** The two insertions of [chunk_slice], on the links. *)
Lemma slice_links :
  exists st1 st2,
    dlist_insert_after (dlist_init (dlist_init (links h) (all_of b)) (free_of b))
      (all_of (c_addr c)) (all_of b) = Some (st1, true)
    /\ dlist_insert_after st1 (free_of (c_addr c)) (free_of b) = Some (st2, true)
    /\ dring st2 (first h) (map c_addr cs1 ++ c_addr c :: b :: map c_addr cs2 ++ [last h])
    /\ dring st2 (free_of (first h)) (map free_of (fl1 ++ c_addr c :: b :: fl2))
    /\ same_outside (b :: free_of b :: nodes ++ ring) (links h) st2.
Proof using Hr Hb1 Hb2.
  destruct (init_links (links h) b) as (Rb & Rfb & F0).
  set (st0 := dlist_init _ _) in *. rewrite !all_of_eq.
  assert (Ha : dring st0 (first h) (map c_addr cs1 ++ c_addr c :: map c_addr cs2 ++ [last h])).
  { pose proof (hr_all _ _ _ Hr) as Ha. rewrite map_app, <- app_assoc in Ha. simpl in Ha.
    eapply dring_same_outside; [exact Ha|exact F0|]. intros q Hq. apply nodes_fresh.
    unfold nodes, starts. by rewrite map_app, <- app_assoc. }
  assert (Hnodes : forall q, q ∈ first h :: map c_addr cs1 ++ c_addr c :: map c_addr cs2 ++ [last h]
    <-> q ∈ nodes).
  { intros q. unfold nodes, starts. by rewrite map_app, <- app_assoc. }
  assert (Hf : dring st0 (free_of (first h)) (map free_of fl1 ++ free_of (c_addr c) :: map free_of fl2)).
  { pose proof (hr_free _ _ _ Hr) as Hf. rewrite map_app in Hf. simpl in Hf.
    eapply dring_same_outside; [exact Hf|exact F0|]. intros q Hq. apply ring_fresh.
    unfold ring. by rewrite map_app. }
  assert (Hring : forall q, q ∈ free_of (first h) :: map free_of fl1 ++ free_of (c_addr c) :: map free_of fl2
    <-> q ∈ ring).
  { intros q. unfold ring. by rewrite map_app. }
  destruct (dlist_insert_after_inner _ _ _ _ _ b [] Ha Rb) as (st1 & E1 & R1 & F1).
  { intros p q Hp%Hnodes Hq ->. apply nodes_fresh in Hp. set_solver. }
  assert (F1' : same_outside (b :: nodes) st0 st1).
  { eapply same_outside_mono; [exact F1|]. clear -Hnodes. set_solver. }
  assert (Hf1 : dring st1 (free_of (first h)) (map free_of fl1 ++ free_of (c_addr c) :: map free_of fl2)).
  { eapply dring_same_outside; [exact Hf|exact F1'|]. intros q Hq%Hring.
    pose proof (ring_fresh _ Hq). intros [->|Hn]%elem_of_cons; [set_solver|].
    by eapply (free_ring_not_all _ _ _ Hr q q). }
  assert (Rfb1 : dring st1 (free_of b) []).
  { eapply dring_same_outside; [exact Rfb|exact F1'|].
    intros q [->|?%elem_of_nil]%elem_of_cons; [|done].
    intros [E|Hn]%elem_of_cons; [unfold free_of, off_free in E; lia|].
    apply nodes_fresh in Hn. set_solver. }
  destruct (dlist_insert_after_inner _ _ _ _ _ (free_of b) [] Hf1 Rfb1) as (st2 & E2 & R2 & F2).
  { intros p q Hp%Hring Hq ->. apply ring_fresh in Hp. set_solver. }
  assert (F2' : same_outside (free_of b :: ring) st1 st2).
  { eapply same_outside_mono; [exact F2|]. clear -Hring. set_solver. }
  exists st1, st2. split; [done|]. split; [done|]. split_and!.
  - eapply dring_same_outside; [exact R1|exact F2'|].
    intros q Hq. intros [->|Hn]%elem_of_cons.
    + assert (Hq' : free_of b = b \/ free_of b ∈ nodes) by (clear -Hq Hnodes; set_solver).
      destruct Hq' as [E|Hq']; [unfold free_of, off_free in E; lia|].
      apply nodes_fresh in Hq'. set_solver.
    + assert (Hq' : q = b \/ q ∈ nodes) by (clear -Hq Hnodes; set_solver). destruct Hq' as [->|Hq'].
      * apply ring_fresh in Hn. set_solver.
      * by eapply (free_ring_not_all _ _ _ Hr q q).
  - rewrite map_app. exact R2.
  - eapply (same_outside_trans _ _ st1); [eapply (same_outside_trans _ _ st0)|];
      (eapply same_outside_mono; [eassumption|]); clear; set_solver.
Qed.
End slice_ops.

Section slice_repr.
Context (h : heap) (cs1 cs2 : list chunk) (c : chunk) (fl : list Z) (s : Z).
Context (Hr : heap_repr h (cs1 ++ c :: cs2) fl).
Context (Hu : c_used c = false).
Context (Hs0 : 0 <= s) (Hsa : (OS_MEMORY_ALIGN | s))
        (Hs : s + 2 * sizeof_CHUNK <= c_size c).

Let b := c_addr c + sizeof_CHUNK + s.
Let cA := mkChunk (c_addr c) (sizeof_CHUNK + s) false.
Let cB := mkChunk b (c_size c - sizeof_CHUNK - s) false.

Lemma slice_elem d : d ∈ cs1 ++ cA :: cB :: cs2 -> d = cA \/ d = cB \/ d ∈ cs1 ++ cs2.
Proof using Type. rewrite !elem_of_app, !elem_of_cons. tauto. Qed.

Lemma slice_other d : d ∈ cs1 ++ cs2 -> d ∈ cs1 ++ c :: cs2.
Proof using Type. rewrite !elem_of_app, elem_of_cons. tauto. Qed.

Lemma slice_tiles : tiles (first h + sizeof_CHUNK) (cs1 ++ cA :: cB :: cs2) (last h).
Proof using Hr Hs Hs0 Hsa.
  pose proof (hr_tiles _ _ _ Hr) as Ht. rewrite tiles_app in *.
  destruct Ht as (m & H1 & H2). exists m. split; [done|].
  simpl in *. destruct H2 as (<- & ? & Hd & H2).
  assert (Hh : (OS_MEMORY_ALIGN | sizeof_CHUNK)) by (exists 2; done).
  unfold b. split_and!; try done; try lia.
  - by apply Z.divide_add_r.
  - apply Z.divide_sub_r; [|done]. by apply Z.divide_sub_r.
  - by replace (c_addr c + (sizeof_CHUNK + s) + (c_size c - sizeof_CHUNK - s))
      with (c_addr c + c_size c) by lia.
Qed.

(** The values computed on the way do not wrap. *)
Lemma slice_values :
  u32 (chunk_calc_free_offset (c_addr c) + s) = b
  /\ u32 (c_size c - header_size) = c_size c - sizeof_CHUNK
  /\ u32 (c_size c - sizeof_CHUNK - s) = c_size cB
  /\ u32 (c_size c - c_size cB) = c_size cA /\ b <> c_addr c.
Proof using Hr Hs Hs0.
  pose proof (first_last _ _ _ Hr). pose proof (chunk_range _ _ _ Hr c (mid_elem _ _ _)).
  unfold chunk_calc_free_offset, b. rewrite header_size_eq. simpl.
  unfold sizeof_CHUNK in *. rewrite (u32_small (c_addr c + 32)) by lia.
  split_and!; rewrite ?u32_small; lia.
Qed.

Lemma slice_repr :
  exists h' fl', chunk_slice h (c_addr c) s = Some h'
    /\ heap_repr h' (cs1 ++ cA :: cB :: cs2) fl'
    /\ mem_free h' = mem_free h /\ mem_all h' = mem_all h
    /\ first h' = first h /\ last h' = last h.
Proof using Hr Hu Hs Hs0 Hsa.
  destruct (fl_split _ _ _ _ _ Hr Hu) as (fl1 & fl2 & Hfl). pose proof Hr as Hr'.
  rewrite Hfl in Hr'.
  destruct slice_values as (V1 & V2 & V3 & V4 & Hne).
  assert (Hb : c_addr c + sizeof_CHUNK <= b /\ b + sizeof_CHUNK <= c_addr c + c_size c)
    by (unfold b; lia). destruct Hb as [Hb1 Hb2].
  destruct (slice_links _ _ _ _ _ _ Hr' b Hb1 Hb2) as (st1 & st2 & E1 & E2 & Ra & Rf & F).
  destruct (hr_headers _ _ _ Hr c (mid_elem _ _ _)) as [Hcu Hcs].
  assert (Hfresh : forall x, x ∈ starts h (cs1 ++ c :: cs2) -> x <> b).
  { intros x Hx. apply (payload_fresh _ _ _ _ _ Hr b x Hb1 Hb2) in Hx. tauto. }
  unfold chunk_slice. rewrite V1. unfold chunk_calc_actual_free, chunk_init. simpl.
  rewrite lookup_insert_ne, Hcs by done. simpl. rewrite V2, V3, !lookup_insert_ne, Hcs by done.
  simpl. erewrite on_links_Some by (simpl; exact E1). simpl.
  erewrite on_links_Some by (simpl; exact E2).
  eexists _, (fl1 ++ c_addr c :: b :: fl2). split; [done|].
  split; [|done]. constructor; simpl; try apply Hr.
  - apply slice_tiles.
  - rewrite map_app, <- app_assoc. exact Ra.
  - exact Rf.
  - pose proof (hr_fl _ _ _ Hr') as Hp. autorewrite with heapdl in *. rewrite Hu in Hp.
    simpl in *. rewrite <- !Permutation_middle in Hp |- *.
    apply Permutation_cons_inv in Hp. rewrite Hp. solve_Permutation.
  - intros d Hd Hdu. apply slice_elem in Hd as [->|[->|Hd]]; [done..|].
    apply slice_other in Hd.
    eapply dring_same_outside; [by apply (hr_used_nodes _ _ _ Hr d)|exact F|].
    intros q [->|?%elem_of_nil]%elem_of_cons; [|done].
    pose proof (payload_fresh _ _ _ _ _ Hr b _ Hb1 Hb2 (chunk_starts h _ _ Hd)).
    rewrite !not_elem_of_cons, not_elem_of_app. split_and!; try tauto.
    + intros Hn. by eapply (all_not_free _ _ _ Hr _ (c_addr d) Hn); [by apply chunk_starts|].
    + by apply (used_not_free_ring _ _ _ Hr').
  - intros d Hd. apply slice_elem in Hd as [->|[->|Hd]]; simpl.
    + rewrite lookup_insert_ne, Hcu, lookup_insert_eq by done. split; [by rewrite Hu|].
      f_equal. exact V4.
    + rewrite lookup_insert_eq, lookup_insert_ne, lookup_insert_eq by done. done.
    + pose proof (other_addr _ _ _ _ _ Hr d Hd). apply slice_other in Hd.
      pose proof (Hfresh _ (chunk_starts h _ _ Hd)).
      rewrite !lookup_insert_ne by done. by apply (hr_headers _ _ _ Hr).
  - pose proof (Hfresh _ (first_starts h _)). pose proof (Hfresh _ (last_starts h _)).
    rewrite !lookup_insert_ne by done. apply Hr.
Qed.
End slice_repr.

(** ** Accounting *)

(** The usable bytes of the free chunks. *)
Fixpoint usable (cs : list chunk) : Z :=
  match cs with
  | [] => 0
  | c :: cs => (if c_used c then 0 else c_size c - sizeof_CHUNK) + usable cs
  end.

Lemma usable_app cs1 cs2 : usable (cs1 ++ cs2) = usable cs1 + usable cs2.
Proof. induction cs1; simpl; lia. Qed.

(** How far [mem_free] is below the usable bytes of the free chunks. *)
Definition drift (h : heap) (cs : list chunk) : Z := u32 (usable cs - mem_free h).

(** The addresses of the heap do not move. *)
Definition same_region (h h' : heap) : Prop :=
  first h' = first h /\ last h' = last h /\ mem_all h' = mem_all h.

Lemma drift_u32 cs cs' m h h' k :
  mem_free h' = u32 (mem_free h + m) -> usable cs' = usable cs + m + k ->
  drift h' cs' = u32 (drift h cs + k).
Proof.
  intros H1 H2. unfold drift. rewrite H1, H2, u32_sub_idemp_r, u32_add_idemp_l. f_equal. lia.
Qed.
