(* ===== verification/HeapdlFree.v ===== *)
(** * Releasing a chunk: [chunk_free] and [chunk_merge] keep the invariant *)
From Stdlib Require Import ZArith Lia.
From stdpp Require Import base option list gmap numbers.
From S2P Require Import Prelude Kutil Dlist Heapdl HeapdlInv.

Set Default Proof Using "Type".

(** ** The neighbours found through the [all] list *)
Section neighbours.
Context (h : heap) (cs1 cs2 : list chunk) (c : chunk) (fl : list Z).
Context (Hr : heap_repr h (cs1 ++ c :: cs2) fl).

Definition prev_of : Z := lastof (first h) (map c_addr cs1).
Definition next_of : Z := hd (last h) (map c_addr cs2).

Lemma all_at_c :
  dring (links h) (c_addr c) ((map c_addr cs2 ++ [last h]) ++ first h :: map c_addr cs1).
Proof using Hr.
  pose proof (hr_all _ _ _ Hr) as Ha. rewrite map_app, <- app_assoc in Ha. simpl in Ha.
  by apply dring_rotate.
Qed.

Lemma prev_link : d_prev <$> links h !! c_addr c = Some prev_of.
Proof using Hr.
  pose proof (dring_pv _ _ _ all_at_c) as H. unfold pv in H. rewrite H. f_equal.
  generalize (map c_addr cs2 ++ [last h]) (c_addr c). intros l. unfold prev_of.
  induction l as [|x l IH]; intros y; simpl; [done|apply IH].
Qed.

Lemma next_link : d_next <$> links h !! c_addr c = Some next_of.
Proof using Hr.
  pose proof (dring_nx _ _ _ all_at_c) as H. unfold nx in H. rewrite H. f_equal.
  unfold next_of. by destruct cs2.
Qed.
End neighbours.

Lemma prev_starts h cs1 cs2 c : prev_of h cs1 ∈ starts h (cs1 ++ c :: cs2).
Proof.
  unfold prev_of, starts. pose proof (lastof_elem (first h) (map c_addr cs1)) as H.
  rewrite elem_of_cons in H. rewrite map_app, !elem_of_cons, !elem_of_app. tauto.
Qed.

Lemma next_starts h cs1 cs2 c : next_of h cs2 ∈ starts h (cs1 ++ c :: cs2).
Proof.
  unfold next_of, starts. rewrite map_app, !elem_of_cons, !elem_of_app. simpl.
  destruct cs2; simpl; rewrite !elem_of_cons; tauto.
Qed.

(** ** The two lists as seen by the links *)
Lemma all_free_disj h cs fl :
  heap_repr h cs fl -> disj (starts h cs) (free_of (first h) :: map free_of fl).
Proof. intros Hr p q Hp Hq E. by eapply (free_ring_not_all _ _ _ Hr q p). Qed.

Section used.
Context (h : heap) (cs1 cs2 : list chunk) (c : chunk) (fl : list Z).
Context (Hr : heap_repr h (cs1 ++ c :: cs2) fl) (Hu : c_used c = true).

Let Hc := mid_elem cs1 cs2 c.

Lemma used_ring_disj : disj (free_of (first h) :: map free_of fl) [free_of (c_addr c)].
Proof using Hr Hu Hc.
  intros p q Hp Hq%list_elem_of_singleton ->. subst q.
  by eapply (used_not_free_ring _ _ _ Hr c Hc Hu).
Qed.

Lemma used_node_not_start : free_of (c_addr c) ∉ starts h (cs1 ++ c :: cs2).
Proof using Hr Hc.
  intros Hn. by eapply (all_not_free _ _ _ Hr _ (c_addr c) Hn); [apply chunk_starts|].
Qed.
End used.

(** A change of the links that stays within the lists of the heap and the [free]
    node of [c] keeps the nodes of the other chunks in use. *)
Lemma used_nodes_frame h cs1 cs2 c fl st' ps d :
  heap_repr h (cs1 ++ c :: cs2) fl -> c_used c = true ->
  same_outside ps (links h) st' ->
  (forall q, q ∈ ps -> q ∈ starts h (cs1 ++ c :: cs2) \/ q ∈ free_of (first h) :: map free_of fl
                       \/ q = free_of (c_addr c)) ->
  d ∈ cs1 ++ cs2 -> c_used d = true -> dring st' (free_of (c_addr d)) [].
Proof.
  intros Hr Hu F Hps Hd Hdu.
  assert (Hd' : d ∈ cs1 ++ c :: cs2) by (rewrite !elem_of_app, elem_of_cons in *; tauto).
  eapply dring_same_outside; [by apply (hr_used_nodes _ _ _ Hr d)|exact F|].
  intros q [->|?%elem_of_nil]%elem_of_cons Hq; [|done].
  apply Hps in Hq as [Hq|[Hq|Hq]].
  - by eapply (all_not_free _ _ _ Hr _ (c_addr d) Hq); [apply chunk_starts|].
  - by eapply (used_not_free_ring _ _ _ Hr d Hd' Hdu).
  - apply free_of_inj in Hq. by eapply (other_addr _ _ _ _ _ Hr d Hd).
Qed.

(** ** The chunk enters the free list

    Wherever the [free] node of [c] is inserted, the heap is represented again,
    with [c] no longer in use. *)
Section release.
Context (h : heap) (cs1 cs2 : list chunk) (c : chunk) (fl : list Z).
Context (Hr : heap_repr h (cs1 ++ c :: cs2) fl) (Hu : c_used c = true).

Let Hc := mid_elem cs1 cs2 c.
Let c' := mkChunk (c_addr c) (c_size c) false.

Lemma release_repr st' fl' m :
  dring st' (free_of (first h)) (map free_of fl') -> fl' ≡ₚ c_addr c :: fl ->
  same_outside (free_of (first h) :: map free_of fl ++ [free_of (c_addr c)]) (links h) st' ->
  heap_repr (set_links (set_mem_free (set_isUsed h (c_addr c) false) m) st')
    (cs1 ++ c' :: cs2) fl'.
Proof using Hr Hu Hc.
  intros R Hp F. constructor; simpl; try apply Hr.
  - pose proof (hr_tiles _ _ _ Hr) as Ht. rewrite tiles_app in *. done.
  - pose proof (hr_all _ _ _ Hr) as Ha. rewrite map_app in *.
    eapply dring_same_outside; [exact Ha|exact F|].
    intros q Hq Hq'. rewrite app_comm_cons, elem_of_app, list_elem_of_singleton in Hq'.
    assert (Hs : q ∈ starts h (cs1 ++ c :: cs2)) by (unfold starts; by rewrite map_app).
    destruct Hq' as [Hq'| ->]; [by eapply (free_ring_not_all _ _ _ Hr q q)|].
    by eapply (used_node_not_start _ _ _ _ _ Hr).
  - exact R.
  - rewrite Hp, (hr_fl _ _ _ Hr). autorewrite with heapdl. simpl. rewrite Hu. solve_Permutation.
  - intros d Hd Hdu. apply elem_of_app in Hd. rewrite elem_of_cons in Hd.
    destruct Hd as [Hd|[->|Hd]]; [|done|];
      (eapply used_nodes_frame; [exact Hr|exact Hu|exact F| | |done]);
      try (rewrite elem_of_app; tauto);
      intros q; rewrite app_comm_cons, elem_of_app, list_elem_of_singleton; tauto.
  - intros d Hd. apply elem_of_app in Hd. rewrite elem_of_cons in Hd.
    destruct (decide (d = c')) as [->|Hne]; simpl.
    + rewrite lookup_insert_eq. split; [done|]. by apply (hr_headers _ _ _ Hr c).
    + assert (Hd' : d ∈ cs1 ++ cs2) by (rewrite elem_of_app; tauto).
      rewrite headers_insert_ne by (by apply (other_addr _ _ _ _ _ Hr)).
      apply (hr_headers _ _ _ Hr). rewrite elem_of_app, elem_of_cons. tauto.
  - pose proof (chunk_range _ _ _ Hr c Hc). pose proof (first_last _ _ _ Hr).
    rewrite !lookup_insert_ne by (unfold sizeof_CHUNK in *; lia). apply Hr.
Qed.

Let Hnode : dring (links h) (free_of (c_addr c)) [].
Proof. by apply (hr_used_nodes _ _ _ Hr c). Qed.

Let Hdisj := used_ring_disj _ _ _ _ _ Hr Hu.

Lemma release_head m :
  exists st', dlist_insert_after (links h) (free_of (first h)) (free_of (c_addr c))
              = Some (st', true)
    /\ heap_repr (set_links (set_mem_free (set_isUsed h (c_addr c) false) m) st')
         (cs1 ++ c' :: cs2) (c_addr c :: fl).
Proof using Hr Hu Hc Hnode Hdisj.
  destruct (dlist_insert_after_ring (links h) _ _ _ [] (hr_free _ _ _ Hr) Hnode Hdisj)
    as (st' & E & R & F).
  exists st'. split; [done|]. by apply release_repr.
Qed.

(** Next to a free chunk [d], after or before it in the free list. *)
Lemma release_beside d m :
  d ∈ cs1 ++ c :: cs2 -> c_used d = false ->
  (exists st' fl', dlist_insert_after (links h) (free_of (c_addr d)) (free_of (c_addr c))
              = Some (st', true)
    /\ heap_repr (set_links (set_mem_free (set_isUsed h (c_addr c) false) m) st')
         (cs1 ++ c' :: cs2) fl')
  /\ (exists st' fl', dlist_insert_before (links h) (free_of (c_addr d)) (free_of (c_addr c))
              = Some (st', true)
    /\ heap_repr (set_links (set_mem_free (set_isUsed h (c_addr c) false) m) st')
         (cs1 ++ c' :: cs2) fl').
Proof using Hr Hu Hc Hnode Hdisj.
  intros Hd Hdu.
  assert (exists fl1 fl2, fl = fl1 ++ c_addr d :: fl2) as (fl1 & fl2 & Hfl).
  { apply list_elem_of_split, (fl_elem _ _ _ Hr). by exists d. }
  pose proof (hr_free _ _ _ Hr) as Hf. pose proof Hdisj as HD.
  rewrite Hfl, map_app in Hf, HD. simpl in Hf, HD. split.
  - destruct (dlist_insert_after_inner _ _ _ _ _ _ [] Hf Hnode HD) as (st' & E & R & F).
    exists st', (fl1 ++ c_addr d :: c_addr c :: fl2). split; [done|].
    apply release_repr; [by rewrite map_app| |by rewrite Hfl, map_app].
    rewrite Hfl. solve_Permutation.
  - destruct (dlist_insert_before_inner _ _ _ _ _ _ [] Hf Hnode HD) as (st' & E & R & F).
    exists st', (fl1 ++ c_addr c :: c_addr d :: fl2). split; [done|].
    apply release_repr; [by rewrite map_app| |by rewrite Hfl, map_app].
    rewrite Hfl. solve_Permutation.
Qed.
End release.

(** ** Two adjacent free chunks become one *)
Section merge.
Context (h : heap) (cs1 cs2 : list chunk) (a b : chunk) (fl : list Z).
Context (Hr : heap_repr h (cs1 ++ a :: b :: cs2) fl).
Context (Hua : c_used a = false) (Hub : c_used b = false).

Let ab := mkChunk (c_addr a) (c_size a + c_size b) false.

Let Hr' : heap_repr h ((cs1 ++ [a]) ++ b :: cs2) fl.
Proof. by rewrite <- app_assoc. Qed.

Lemma merge_other d : d ∈ cs1 ++ ab :: cs2 -> d = ab \/ d ∈ cs1 ++ cs2.
Proof using Type. rewrite !elem_of_app, elem_of_cons. tauto. Qed.

Lemma merge_other_old d : d ∈ cs1 ++ cs2 -> d ∈ cs1 ++ a :: b :: cs2.
Proof using Type. rewrite !elem_of_app, !elem_of_cons. tauto. Qed.

Lemma merge_tiles : tiles (first h + sizeof_CHUNK) (cs1 ++ ab :: cs2) (last h).
Proof using Hr.
  pose proof (hr_tiles _ _ _ Hr) as Ht. rewrite tiles_app in *.
  destruct Ht as (m & H1 & H2). exists m. split; [done|].
  simpl in *. destruct H2 as (<- & ? & ? & ? & ? & ? & H2).
  unfold sizeof_CHUNK in *. split_and!; [done|lia|by apply Z.divide_add_r|].
  by rewrite Z.add_assoc.
Qed.

Lemma merge_size : u32 (c_size a + c_size b) = c_size ab.
Proof using Hr.
  assert (Hab : ab ∈ cs1 ++ ab :: cs2) by (apply mid_elem).
  pose proof (tiles_elem _ _ _ _ merge_tiles Hab). pose proof (first_last _ _ _ Hr).
  simpl in *. apply u32_small. unfold sizeof_CHUNK in *. lia.
Qed.

Lemma merge_links :
  exists st1 st2 fl', dlist_remove (links h) (all_of (c_addr b)) = Some (st1, false)
    /\ dlist_remove st1 (free_of (c_addr b)) = Some (st2, false)
    /\ dring st2 (first h) (map c_addr (cs1 ++ ab :: cs2) ++ [last h])
    /\ dring st2 (free_of (first h)) (map free_of fl') /\ fl ≡ₚ c_addr b :: fl'
    /\ same_outside (starts h (cs1 ++ a :: b :: cs2) ++ free_of (first h) :: map free_of fl)
         (links h) st2.
Proof using Hr' Hub.
  destruct (fl_split _ _ _ _ _ Hr' Hub) as (fl1 & fl2 & Hfl). rewrite all_of_eq.
  pose proof (hr_all _ _ _ Hr') as Ha. pose proof (hr_free _ _ _ Hr') as Hf.
  pose proof (all_free_disj _ _ _ Hr') as HD. unfold starts in HD.
  rewrite !map_app, <- !app_assoc in Ha, HD. rewrite Hfl, map_app in Hf, HD. simpl in Ha, Hf, HD.
  change (c_addr a :: ?l) with ([c_addr a] ++ l) in Ha, HD. rewrite app_assoc in Ha, HD.
  destruct (dlist_remove_two _ _ _ _ _ _ _ _ _ Ha Hf HD) as (st1 & st2 & E1 & E2 & Ra & Rf & F).
  exists st1, st2, (fl1 ++ fl2). split_and!; [done|done| | | |].
  - rewrite !map_app, <- !app_assoc in *. exact Ra.
  - by rewrite map_app.
  - rewrite Hfl. solve_Permutation.
  - rewrite Hfl. unfold starts. rewrite !map_app, <- !app_assoc in *. exact F.
Qed.

Lemma merge_repr :
  exists h' fl', chunk_merge h (c_addr a) (c_addr b) = Some h'
    /\ heap_repr h' (cs1 ++ ab :: cs2) fl'
    /\ mem_free h' = u32 (mem_free h + sizeof_CHUNK) /\ mem_all h' = mem_all h
    /\ first h' = first h /\ last h' = last h.
Proof using Hr Hr' Hua Hub.
  destruct merge_links as (st1 & st2 & fl' & E1 & E2 & Ra & Rf & Hp & F).
  assert (Ha : a ∈ cs1 ++ a :: b :: cs2) by apply mid_elem.
  assert (Hb : b ∈ cs1 ++ a :: b :: cs2) by (rewrite elem_of_app, !elem_of_cons; tauto).
  destruct (hr_headers _ _ _ Hr a Ha) as [Hau Has]. destruct (hr_headers _ _ _ Hr b Hb) as [Hbu Hbs].
  unfold chunk_merge. erewrite on_links_Some by exact E1. simpl.
  erewrite on_links_Some by (simpl; exact E2). simpl. rewrite Has. simpl. rewrite Hbs. simpl.
  rewrite merge_size. eexists _, fl'. split; [done|]. split; [|done].
  constructor; simpl; try apply Hr; try done.
  - apply merge_tiles.
  - pose proof (hr_fl _ _ _ Hr) as Hq. rewrite Hp in Hq.
    autorewrite with heapdl in *. rewrite Hua, Hub in Hq. simpl in *.
    rewrite <- !Permutation_middle in Hq |- *.
    apply (Permutation_cons_inv (a := c_addr b)). rewrite Hq. solve_Permutation.
  - intros d [->|Hd]%merge_other Hdu; [done|]. apply merge_other_old in Hd.
    eapply dring_same_outside; [by apply (hr_used_nodes _ _ _ Hr d)|exact F|].
    intros q [->|?%elem_of_nil]%elem_of_cons; [|done]. rewrite elem_of_app. intros [Hn|Hn].
    + by eapply (all_not_free _ _ _ Hr _ (c_addr d) Hn); [by apply chunk_starts|].
    + by eapply (used_not_free_ring _ _ _ Hr d).
  - intros d [->|Hd]%merge_other; simpl.
    + rewrite lookup_insert_eq. by rewrite Hau, Hua.
    + assert (c_addr d <> c_addr a).
      { apply (other_addr _ _ _ _ _ Hr d). rewrite !elem_of_app, elem_of_cons in *. tauto. }
      rewrite headers_insert_ne by done. by apply (hr_headers _ _ _ Hr), merge_other_old.
Qed.
End merge.

(** ** [chunk_free] *)
Lemma prev_of_snoc h cs d : prev_of h (cs ++ [d]) = c_addr d.
Proof. unfold prev_of. rewrite map_app. apply lastof_snoc. Qed.

(** The flag of the neighbour before: the one of a chunk, or of a sentinel. *)
Lemma prev_flag h cs1 cs2 c fl :
  heap_repr h (cs1 ++ c :: cs2) fl ->
  isUsed h !! prev_of h cs1 = Some true
  \/ exists cs1' d, cs1 = cs1' ++ [d] /\ c_used d = false /\ prev_of h cs1 = c_addr d
                    /\ isUsed h !! c_addr d = Some false.
Proof.
  intros Hr. destruct cs1 as [|x l] using rev_ind; [left; apply Hr|].
  rewrite prev_of_snoc.
  assert (Hx : x ∈ (l ++ [x]) ++ c :: cs2) by (rewrite !elem_of_app, list_elem_of_singleton; tauto).
  apply (hr_headers _ _ _ Hr) in Hx as [Hx _]. destruct (c_used x) eqn:E; [by left|].
  right. by exists l, x.
Qed.

Lemma next_flag h cs1 cs2 c fl :
  heap_repr h (cs1 ++ c :: cs2) fl ->
  isUsed h !! next_of h cs2 = Some true
  \/ exists cs2' d, cs2 = d :: cs2' /\ c_used d = false /\ next_of h cs2 = c_addr d
                    /\ isUsed h !! c_addr d = Some false.
Proof.
  intros Hr. destruct cs2 as [|x l]; [left; apply Hr|].
  assert (Hx : x ∈ cs1 ++ c :: x :: l) by (rewrite !elem_of_app, !elem_of_cons; tauto).
  apply (hr_headers _ _ _ Hr) in Hx as [Hx _]. unfold next_of. simpl.
  destruct (c_used x) eqn:E; [by left|]. right. by exists l, x.
Qed.

Section neighbours_ne.
Context (h : heap) (cs1 cs2 : list chunk) (c : chunk) (fl : list Z).
Context (Hr : heap_repr h (cs1 ++ c :: cs2) fl).

Lemma prev_ne : prev_of h cs1 <> c_addr c.
Proof using Hr.
  pose proof (lastof_elem (first h) (map c_addr cs1)) as H. fold (prev_of h cs1) in H.
  apply elem_of_cons in H as [->|(d & -> & Hd)%list_elem_of_fmap].
  - apply (first_not_chunk _ _ _ Hr), mid_elem.
  - apply (other_addr _ _ _ _ _ Hr). rewrite elem_of_app. tauto.
Qed.

Lemma next_ne : next_of h cs2 <> c_addr c.
Proof using Hr.
  pose proof (hd_elem (last h) (map c_addr cs2)) as H. fold (next_of h cs2) in H.
  apply elem_of_cons in H as [->|(d & -> & Hd)%list_elem_of_fmap].
  - pose proof (chunk_range _ _ _ Hr c (mid_elem _ _ _)). unfold sizeof_CHUNK in *. lia.
  - apply (other_addr _ _ _ _ _ Hr). rewrite elem_of_app. tauto.
Qed.
End neighbours_ne.

Lemma starts_u32 h cs fl x : heap_repr h cs fl -> x ∈ starts h cs -> container_of_all x = x.
Proof.
  intros Hr Hx%(starts_range _ _ _ Hr). apply container_of_all_eq. unfold sizeof_CHUNK in *. lia.
Qed.

Section chunk_free.
Context (h : heap) (cs1 cs2 : list chunk) (c : chunk) (fl : list Z).
Context (Hr : heap_repr h (cs1 ++ c :: cs2) fl) (Hu : c_used c = true).

Let Hc := mid_elem cs1 cs2 c.
Let c' := mkChunk (c_addr c) (c_size c) false.

(** What releasing [c] gives: the block is no longer live, nothing else
    changes for the client, and the bytes are accounted for. *)
Definition freed (h' : heap) : Prop :=
  exists cs' fl', heap_repr h' cs' fl' /\ live cs' = live cs1 ++ live cs2
    /\ same_region h h' /\ drift h' cs' = drift h (cs1 ++ c :: cs2)
    /\ usable cs' >= usable (cs1 ++ c :: cs2) + (c_size c - sizeof_CHUNK).

Let h1 := set_mem_free (set_isUsed h (c_addr c) false)
            (u32 (mem_free h + (c_size c - sizeof_CHUNK))).

Lemma freed_no_merge st' fl' :
  heap_repr (set_links h1 st') (cs1 ++ c' :: cs2) fl' -> freed (set_links h1 st').
Proof using Hu.
  intros H. exists (cs1 ++ c' :: cs2), fl'. split; [done|]. split_and!; [|done|..].
  - by autorewrite with heapdl.
  - rewrite (drift_u32 (cs1 ++ c :: cs2) _ (c_size c - sizeof_CHUNK) h _ 0).
    + rewrite Z.add_0_r. unfold drift, u32. by rewrite Zmod_mod.
    + done.
    + rewrite !usable_app. simpl. rewrite Hu. lia.
  - rewrite !usable_app. simpl. rewrite Hu. lia.
Qed.

(** After the merge of two free neighbours, one of which is [c]. *)
Lemma freed_merge st' fl' l1 l2 a b :
  cs1 ++ c' :: cs2 = l1 ++ a :: b :: l2 -> c_used a = false -> c_used b = false ->
  heap_repr (set_links h1 st') (cs1 ++ c' :: cs2) fl' ->
  exists h', chunk_merge (set_links h1 st') (c_addr a) (c_addr b) = Some h' /\ freed h'.
Proof using Hu.
  intros E Ha Hb H. pose proof H as H'. rewrite E in H'.
  destruct (merge_repr _ _ _ _ _ _ H' Ha Hb) as (h' & fl2 & Em & R & Mf & Ma & Hf & Hl).
  exists h'. split; [done|]. eexists _, fl2. split; [exact R|].
  assert (EL : live (cs1 ++ c' :: cs2) = live (l1 ++ a :: b :: l2)) by by rewrite E.
  assert (EU : usable (cs1 ++ c' :: cs2) = usable (l1 ++ a :: b :: l2)) by by rewrite E.
  rewrite !usable_app in EU. simpl in EU. rewrite Ha, Hb in EU.
  autorewrite with heapdl in EL. rewrite Ha, Hb in EL. simpl in EL.
  split_and!.
  - autorewrite with heapdl. simpl. done.
  - done.
  - rewrite (drift_u32 (cs1 ++ c :: cs2) _ (c_size c) h _ 0).
    + rewrite Z.add_0_r. unfold drift, u32. by rewrite Zmod_mod.
    + rewrite Mf. simpl. rewrite u32_add_idemp_l. f_equal. lia.
    + rewrite !usable_app. simpl. rewrite Hu. lia.
  - rewrite !usable_app. simpl. rewrite Hu. unfold sizeof_CHUNK in *. lia.
Qed.

Lemma chunk_free_spec : exists h', chunk_free h (c_addr c) = Some h' /\ freed h'.
Proof using Hr Hu Hc.
  destruct (hr_headers _ _ _ Hr c Hc) as [_ Hs].
  unfold chunk_free. simpl. rewrite Hs. simpl. rewrite all_of_eq.
  rewrite (prev_link _ _ _ _ _ Hr), (next_link _ _ _ _ _ Hr). simpl.
  rewrite !(starts_u32 _ _ _ _ Hr) by (apply prev_starts || apply next_starts).
  rewrite !lookup_insert_ne by
    (apply not_eq_sym; apply (prev_ne _ _ _ _ _ Hr) || apply (next_ne _ _ _ _ _ Hr)).
  fold h1.
  destruct (prev_flag _ _ _ _ _ Hr) as [->|(cs1' & d & E & Hd & -> & ->)]; simpl.
  - destruct (next_flag _ _ _ _ _ Hr) as [->|(cs2' & d & E & Hd & -> & ->)]; simpl.
    + rewrite (hr_head _ _ _ Hr).
      destruct (release_head _ _ _ _ _ Hr Hu (mem_free h1)) as (st' & E & R).
      erewrite on_links_Some by exact E. eexists. split; [done|]. exact (freed_no_merge st' _ R).
    + destruct (release_beside _ _ _ _ _ Hr Hu d (mem_free h1)) as [_ (st' & fl' & E1 & R)];
        [rewrite E, elem_of_app, !elem_of_cons; tauto|done|].
      erewrite on_links_Some by exact E1. simpl.
      apply (freed_merge st' fl' cs1 cs2' c' d); [by rewrite E|done|done|exact R].
  - destruct (release_beside _ _ _ _ _ Hr Hu d (mem_free h1)) as [(st' & fl' & E1 & R) _];
      [rewrite E, !elem_of_app, list_elem_of_singleton; tauto|done|].
    erewrite on_links_Some by exact E1. simpl.
    apply (freed_merge st' fl' cs1' cs2 d c'); [|done|done|exact R].
    by rewrite E, <- app_assoc.
Qed.
End chunk_free.
