(* ===== verification/HeapdlSpec.v ===== *)
(** * What the kernel heap promises

    [k_heapdl_mm_init], [k_heapdl_mm_malloc] and [k_heapdl_mm_free] against the
    invariant of [HeapdlInv]. *)
From Stdlib Require Import ZArith Lia.
From stdpp Require Import base option list gmap numbers sorting.
From S2P Require Import Prelude Kutil Dlist Heapdl HeapdlInv HeapdlFree.

Set Default Proof Using "Type".

(** ** Allocation *)

(** What becomes of a free chunk [c] when [s] bytes are taken from it: it is
    used whole when less than a block would remain, and is cut otherwise. *)
Definition whole (s : Z) (c : chunk) : bool :=
  c_size c - sizeof_CHUNK - s <? OS_HEAP_BLOCK_SIZE.

Definition carve (s : Z) (c : chunk) : list chunk :=
  if whole s c then [mkChunk (c_addr c) (c_size c) true]
  else [mkChunk (c_addr c) (sizeof_CHUNK + s) true;
        mkChunk (c_addr c + sizeof_CHUNK + s) (c_size c - sizeof_CHUNK - s) false].

Section malloc.
Context (h : heap) (cs : list chunk) (fl : list Z) (s : Z).
Context (Hr : heap_repr h cs fl).
Context (Hs0 : 0 <= s) (Hsa : (OS_MEMORY_ALIGN | s)).

Lemma chunk_u32 c : c ∈ cs -> 0 <= c_addr c < 2 ^ 32 /\ 0 <= c_size c - sizeof_CHUNK < 2 ^ 32.
Proof using Hr.
  intros Hc%(chunk_range _ _ _ Hr). pose proof (first_last _ _ _ Hr).
  unfold sizeof_CHUNK in *. lia.
Qed.

Lemma actual_free c : c ∈ cs ->
  chunk_calc_actual_free h (c_addr c) = Some (c_size c - sizeof_CHUNK).
Proof using Hr.
  intros Hc. unfold chunk_calc_actual_free. destruct (hr_headers _ _ _ Hr c Hc) as [_ ->].
  simpl. rewrite header_size_eq, u32_small; [done|by apply chunk_u32].
Qed.

Lemma free_offset c : c ∈ cs -> chunk_calc_free_offset (c_addr c) = c_addr c + sizeof_CHUNK.
Proof using Hr.
  intros Hc. pose proof (chunk_range _ _ _ Hr c Hc). pose proof (first_last _ _ _ Hr).
  unfold chunk_calc_free_offset. rewrite header_size_eq. apply u32_small.
  unfold sizeof_CHUNK in *. lia.
Qed.

(** A chunk that is too small is skipped. *)
Lemma malloc_body_small c :
  c ∈ cs -> c_size c - sizeof_CHUNK < s ->
  malloc_body s (free_of (c_addr c)) h = Some (Continue (free_of (c_addr c), h)).
Proof using Hr.
  intros Hc Hlt. unfold malloc_body. rewrite container_of_free_eq by (by apply chunk_u32).
  destruct (hr_headers _ _ _ Hr c Hc) as [_ ->]. simpl.
  destruct (Z.ltb_spec (c_size c) s); [done|]. rewrite actual_free by done. simpl.
  by rewrite (proj2 (Z.ltb_lt _ _) Hlt).
Qed.

(** A chunk that is large enough is taken. *)
Definition taken (cs1 cs2 : list chunk) (c : chunk) (h' : heap) : Prop :=
  exists fl', heap_repr h' (cs1 ++ carve s c ++ cs2) fl' /\ same_region h h'
    /\ drift h' (cs1 ++ carve s c ++ cs2)
       = u32 (drift h cs + (if whole s c then sizeof_CHUNK else 0)).

Lemma malloc_body_fits cs1 cs2 c :
  cs = cs1 ++ c :: cs2 -> c_used c = false -> s <= c_size c - sizeof_CHUNK ->
  exists h', malloc_body s (free_of (c_addr c)) h
             = Some (Return (free_of (c_addr c), h') (c_addr c + sizeof_CHUNK))
    /\ taken cs1 cs2 c h'.
Proof using Hr Hs0 Hsa.
  intros E Hu Hle.
  assert (Hc : c ∈ cs) by (rewrite E; apply mid_elem).
  unfold malloc_body. rewrite container_of_free_eq by (by apply chunk_u32).
  destruct (hr_headers _ _ _ Hr c Hc) as [_ ->]. simpl.
  destruct (Z.ltb_spec (c_size c) s); [unfold sizeof_CHUNK in *; lia|].
  rewrite actual_free by done. simpl.
  destruct (Z.ltb_spec (c_size c - sizeof_CHUNK) s); [lia|].
  rewrite (u32_small (_ - s)) by (pose proof (chunk_u32 c Hc); lia).
  unfold taken, carve, whole. pose proof Hr as Hr'. rewrite E in Hr'.
  rewrite free_offset by done.
  destruct (Z.ltb_spec (c_size c - sizeof_CHUNK - s) OS_HEAP_BLOCK_SIZE) as [Hw|Hw].
  - destruct (engage_repr _ _ _ _ _ Hr' Hu) as (h' & fl' & -> & R & Mf & Ma & Hf & Hl). simpl.
    eexists. split; [done|]. exists fl'. split; [exact R|]. split; [done|].
    apply (drift_u32 _ _ (- c_size c)); [rewrite Mf; f_equal; lia|].
    rewrite E, !usable_app. simpl. rewrite Hu. lia.
  - assert (Hs2 : s + 2 * sizeof_CHUNK <= c_size c)
      by (unfold OS_HEAP_BLOCK_SIZE, sizeof_CHUNK in *; lia).
    destruct (slice_repr _ _ _ _ _ _ Hr' Hu Hs0 Hsa Hs2)
      as (h1 & fl1 & -> & R1 & Mf1 & Ma1 & Hf1 & Hl1). simpl.
    destruct (engage_repr _ _ _ _ _ R1 eq_refl) as (h' & fl' & E2 & R & Mf & Ma & Hf & Hl).
    simpl in E2. rewrite E2. simpl.
    eexists. split; [done|]. exists fl'. split; [exact R|].
    split; [unfold same_region; by rewrite Hf, Hl, Ma, Hf1, Hl1, Ma1|].
    apply (drift_u32 _ _ (- (sizeof_CHUNK + s))); [rewrite Mf, Mf1; simpl; f_equal; lia|].
    rewrite E, !usable_app. simpl. rewrite Hu. lia.
Qed.

(** The search is first fit in the order of the free list. *)
Definition too_small (x : Z) : Prop :=
  forall c, c ∈ cs -> c_addr c = x -> c_size c - sizeof_CHUNK < s.

Lemma first_fit :
  Forall too_small fl
  \/ exists fl1 fl2 c, fl = fl1 ++ c_addr c :: fl2 /\ Forall too_small fl1
       /\ c ∈ cs /\ c_used c = false /\ s <= c_size c - sizeof_CHUNK.
Proof using Hr.
  assert (Hall : forall x, x ∈ fl -> exists c, c ∈ cs /\ c_used c = false /\ c_addr c = x)
    by (intros x; apply (fl_elem _ _ _ Hr)).
  revert Hall. generalize fl as l.
  induction l as [|x l IH]; intros Hall; [by left|].
  destruct (Hall x) as (c & Hc & Hu & <-); [by apply elem_of_cons; left|].
  destruct (Z.lt_ge_cases (c_size c - sizeof_CHUNK) s) as [Hlt|Hge].
  - assert (Hx : too_small (c_addr c)).
    { intros d Hd Ed. by rewrite (chunk_inj _ _ _ Hr d c Hd Hc Ed). }
    destruct IH as [H|(fl1 & fl2 & d & -> & ? & ?)].
    { intros y Hy. apply Hall. by apply elem_of_cons; right. }
    + left. by constructor.
    + right. exists (c_addr c :: fl1), fl2, d. split_and!; [done|by constructor|tauto..].
  - right. by exists [], l, c.
Qed.

Lemma too_small_all : Forall too_small fl ->
  forall c, c ∈ cs -> c_used c = false -> c_size c - sizeof_CHUNK < s.
Proof using Hr.
  intros H c Hc Hu. rewrite list.Forall_forall in H. apply (H (c_addr c)); [|done|done].
  apply (fl_elem _ _ _ Hr). by exists c.
Qed.

Context (fuel : nat) (Hfuel : (length fl < fuel)%nat).

Lemma skip_small l q :
  (forall x, x ∈ l -> x ∈ fl) -> Forall too_small l -> q ∈ map free_of l ->
  malloc_body s q h = Some (Continue (q, h)).
Proof using Hr.
  intros Hin HF (x & -> & Hx)%list_elem_of_fmap.
  destruct (proj1 (fl_elem _ _ _ Hr x) (Hin x Hx)) as (c & Hc & _ & <-).
  apply malloc_body_small; [done|]. rewrite list.Forall_forall in HF. by apply (HF (c_addr c)).
Qed.

(** Every outcome of [k_heapdl_mm_malloc]. *)
Lemma malloc_cases :
  (k_heapdl_mm_malloc fuel h s = Some (0, h)
   /\ (mem_free h < s \/ mem_free h = 0
       \/ forall c, c ∈ cs -> c_used c = false -> c_size c - sizeof_CHUNK < s))
  \/ (s <= mem_free h /\ mem_free h <> 0 /\ exists fl1 fl2 cs1 cs2 c h',
        fl = fl1 ++ c_addr c :: fl2 /\ Forall too_small fl1
        /\ cs = cs1 ++ c :: cs2 /\ c_used c = false /\ s <= c_size c - sizeof_CHUNK
        /\ k_heapdl_mm_malloc fuel h s = Some (c_addr c + sizeof_CHUNK, h')
        /\ taken cs1 cs2 c h').
Proof using Hr Hs0 Hsa Hfuel.
  unfold k_heapdl_mm_malloc.
  destruct (Z.ltb_spec (mem_free h) s); [left; auto|].
  destruct (Z.eqb_spec (mem_free h) 0); [left; auto|]. simpl.
  pose proof (hr_free _ _ _ Hr) as Hf.
  pose proof (dring_nx _ _ _ Hf) as Hn. unfold nx in Hn.
  rewrite (hr_head _ _ _ Hr), Hn. simpl.
  destruct first_fit as [HF|(fl1 & fl2 & c & Efl & HF & Hc & Hu & Hle)].
  - left. split; [|right; right; by apply too_small_all].
    destruct (_ =? _); [done|].
    rewrite (list_for_each_skip_all _ _ _ _ (map free_of fl)); [done|done|by rewrite length_map|].
    intros q. by apply skip_small.
  - right. split_and!; [done|done|]. apply list_elem_of_split in Hc as (cs1 & cs2 & Ecs).
    destruct (malloc_body_fits _ _ _ Ecs Hu Hle) as (h' & Eb & T).
    exists fl1, fl2, cs1, cs2, c, h'. split_and!; try done.
    rewrite Efl, map_app in Hf. simpl in Hf.
    destruct (Z.eqb_spec (hd (free_of (first h)) (map free_of fl)) (free_of (first h))) as [E|_].
    { exfalso. destruct Hf as [ND _]. apply list.NoDup_cons in ND as [Hn' _]. apply Hn'.
      rewrite <- E. rewrite Efl, map_app. rewrite elem_of_app.
      destruct fl1; simpl; rewrite ?elem_of_cons; tauto. }
    rewrite (list_for_each_at _ _ _ _ _ _ _ _ Hf).
    + rewrite Efl, length_app in Hfuel. simpl in Hfuel. rewrite length_map.
      destruct (fuel - length fl1)%nat as [|k] eqn:Ek; [lia|]. cbn [for_each_from].
      destruct (Z.eqb_spec (free_of (c_addr c)) (free_of (first h))) as [E|_].
      { apply free_of_inj in E. exfalso. eapply (first_not_chunk _ _ _ Hr c); [|done].
        rewrite Ecs. apply mid_elem. }
      by rewrite Eb.
    + rewrite Efl, length_app in Hfuel. rewrite length_map. simpl in Hfuel. lia.
    + intros q. apply skip_small; [|done]. rewrite Efl. intros x. rewrite elem_of_app. tauto.
Qed.
End malloc.

(** ** Initialisation *)
Lemma init_keeps st p q : dring st q [] -> dring (dlist_init st p) q [].
Proof.
  intros H. destruct (decide (q = p)) as [->|Hne]; [apply dlist_init_ring|].
  eapply dring_same_outside; [exact H|apply dlist_init_outside|].
  intros x [->|?%elem_of_nil]%elem_of_cons; [|done]. by rewrite list_elem_of_singleton.
Qed.

(** Disjointness of explicit lists of addresses, by arithmetic. *)
Ltac addr_lists :=
  intros; repeat match goal with
  | H : _ ∈ [] |- _ => apply elem_of_nil in H; contradiction
  | H : _ ∈ _ :: _ |- _ => apply elem_of_cons in H; destruct H as [H|H]
  | H : _ ∈ _ ++ _ |- _ => apply elem_of_app in H; destruct H as [H|H]
  | |- disj _ _ => intros ? ? ? ?
  | |- _ ∉ _ => intro
  end; lia.

Section init.
Context (h : heap) (f l : Z).
Let s := f + sizeof_CHUNK.
Context (Hsep : s + sizeof_CHUNK <= l).

(** The three headers linked into the two lists. *)
Lemma mm_init_links st :
  (forall q, q ∈ [f; free_of f; s; free_of s; l; free_of l] -> dring st q []) ->
  exists st1 st2 st3, dlist_insert_after st f s = Some (st1, true)
    /\ dlist_insert_after st1 s l = Some (st2, true)
    /\ dlist_insert_after st2 (free_of f) (free_of s) = Some (st3, true)
    /\ dring st3 f [s; l] /\ dring st3 (free_of f) [free_of s].
Proof using Hsep.
  unfold s, free_of, sizeof_CHUNK, off_free in *. intros Hall.
  destruct (dlist_insert_after_ring st f [] (f + 32) []) as (st1 & E1 & R1 & F1);
    [apply Hall; set_solver..|addr_lists|].
  assert (Rl : dring st1 l []).
  { eapply dring_same_outside; [apply Hall; set_solver|exact F1|addr_lists]. }
  destruct (dlist_insert_after_inner st1 f [] (f + 32) [] l [] R1 Rl) as (st2 & E2 & R2 & F2);
    [addr_lists|].
  assert (Rf : forall q, q = f + 16 \/ q = f + 32 + 16 -> dring st2 q []).
  { intros q [->| ->]; (eapply dring_same_outside; [|exact F2|addr_lists]);
      (eapply dring_same_outside; [|exact F1|addr_lists]);
      apply Hall; rewrite !elem_of_cons; tauto. }
  destruct (dlist_insert_after_ring st2 (f + 16) [] (f + 32 + 16) []) as (st3 & E3 & R3 & F3);
    [apply Rf; auto..|addr_lists|].
  exists st1, st2, st3. split_and!; try done.
  eapply dring_same_outside; [exact R2|exact F3|addr_lists].
Qed.
End init.

(** Heap updates on a heap given by its fields. *)
Section fields.
Context (st st' : dstore) (us : gmap Z bool) (sz : gmap Z Z) (f l fh ma mf : Z).
Let mk st us sz := mkHeap st us sz f l fh ma mf.

Lemma chunk_init_mk c :
  chunk_init (mk st us sz) c
  = mk (dlist_init (dlist_init st (all_of c)) (free_of c)) (<[c := false]> us)
      (<[c := header_size]> sz).
Proof using Type. reflexivity. Qed.

Lemma on_links_mk g b : g st = Some (st', b) -> on_links g (mk st us sz) = Some (mk st' us sz).
Proof using Type. intros E. unfold on_links. simpl. by rewrite E. Qed.

Lemma set_isUsed_mk c b : set_isUsed (mk st us sz) c b = mk st (<[c := b]> us) sz.
Proof using Type. reflexivity. Qed.

Lemma set_size_mk c v : set_size (mk st us sz) c v = mk st us (<[c := v]> sz).
Proof using Type. reflexivity. Qed.
End fields.

Ltac heap_fields :=
  cbn [links isUsed csize Heapdl.first Heapdl.last free_chunk_head mem_all mem_free].

(** The heap that initialisation leaves for the aligned bounds [f] and [e]. *)
Definition init_heap (h : heap) (st : dstore) (f e : Z) : heap :=
  let s := f + sizeof_CHUNK in
  let l := e - sizeof_CHUNK in
  let free := l - s - sizeof_CHUNK in
  mkHeap st (<[l := true]> (<[f := true]> (<[l := false]> (<[s := false]>
              (<[f := false]> (isUsed h))))))
    (<[s := l - s]> (<[l := header_size]> (<[s := header_size]> (<[f := header_size]> (csize h)))))
    f l f free free.

Lemma mm_init_eq h mem_start mem_end :
  let f := align_address_to_upper mem_start OS_HEAP_BLOCK_SIZE in
  let e := align_address_to_lower mem_end OS_HEAP_BLOCK_SIZE in
  let s := f + sizeof_CHUNK in
  let l := e - sizeof_CHUNK in
  0 < f -> f + OS_HEAP_BLOCK_SIZE <= e -> e < 2 ^ 32 ->
  exists st, k_heapdl_mm_init h mem_start mem_end = Some (init_heap h st f e)
    /\ dring st f [s; l] /\ dring st (free_of f) [free_of s].
Proof.
  intros f e s l H0 H1 H2. unfold k_heapdl_mm_init. fold f e. clearbody f e.
  unfold OS_HEAP_BLOCK_SIZE in H1.
  rewrite (u32_small (f + sizeof_CHUNK)), (u32_small (e - sizeof_CHUNK))
    by (unfold sizeof_CHUNK; lia). fold s l.
  destruct h as [st us sz ? ? ? ma mf]. unfold set_bounds at 1.
  heap_fields.
  rewrite !chunk_init_mk, !all_of_eq.
  set (st0 := dlist_init (dlist_init _ l) _).
  destruct (mm_init_links f l ltac:(unfold l, sizeof_CHUNK; lia) st0)
    as (st1 & st2 & st3 & E1 & E2 & E3 & Ra & Rf').
  { intros q. unfold st0. fold s. rewrite !elem_of_cons.
    intros Hq. repeat destruct Hq as [->|Hq]; try (by apply elem_of_nil in Hq);
      repeat first [apply dlist_init_ring | apply init_keeps]. }
  fold s in E1, E2, E3, Ra, Rf'. clearbody st0.
  rewrite (on_links_mk _ st1 _ _ _ _ _ _ _ _ true) by exact E1. rewrite bind_Some_eq.
  rewrite (on_links_mk _ st2 _ _ _ _ _ _ _ _ true) by exact E2. rewrite bind_Some_eq.
  cbv zeta. rewrite !set_isUsed_mk, set_size_mk. unfold set_head.
  heap_fields.
  rewrite (on_links_mk _ st3 _ _ _ _ _ _ _ _ true) by exact E3. rewrite bind_Some_eq.
  heap_fields.
  rewrite lookup_insert_eq, bind_Some_eq. exists st3. split; [|done].
  unfold set_mem_free, set_mem_all, init_heap.
  heap_fields.
  rewrite header_size_eq, (u32_small (l - s)), (u32_small (l - s - sizeof_CHUNK))
    by (unfold s, l, sizeof_CHUNK; lia).
  reflexivity.
Qed.

(** The chunk that the whole heap starts as. *)
Definition initial_chunk (f e : Z) : chunk :=
  mkChunk (f + sizeof_CHUNK) (e - sizeof_CHUNK - (f + sizeof_CHUNK)) false.

Lemma init_heap_repr h st f e :
  0 < f -> (OS_MEMORY_ALIGN | f) -> (OS_MEMORY_ALIGN | e) ->
  f + OS_HEAP_BLOCK_SIZE <= e -> e < 2 ^ 32 ->
  dring st f [f + sizeof_CHUNK; e - sizeof_CHUNK] ->
  dring st (free_of f) [free_of (f + sizeof_CHUNK)] ->
  heap_repr (init_heap h st f e) [initial_chunk f e] [f + sizeof_CHUNK].
Proof.
  intros H0 Df De Hsz He Ra Rf. unfold initial_chunk, OS_HEAP_BLOCK_SIZE in *.
  constructor; simpl; unfold sizeof_CHUNK in *; try done.
  - split_and!; [done|lia| |lia].
    repeat apply Z.divide_sub_r; try apply Z.divide_add_r; try done; by exists 2.
  - lia.
  - intros c [->|?%elem_of_nil]%elem_of_cons; [done|done].
  - intros c [->|?%elem_of_nil]%elem_of_cons; [simpl|done].
    rewrite lookup_insert_eq. split; [|done].
    rewrite !lookup_insert_ne by lia. by rewrite lookup_insert_eq.
  - split; [rewrite lookup_insert_ne by lia|]; by rewrite lookup_insert_eq.
Qed.

Lemma mm_init_repr h mem_start mem_end :
  let f := align_address_to_upper mem_start OS_HEAP_BLOCK_SIZE in
  let e := align_address_to_lower mem_end OS_HEAP_BLOCK_SIZE in
  0 < mem_start -> mem_start + OS_HEAP_BLOCK_SIZE <= 2 ^ 32 -> 0 <= mem_end < 2 ^ 32 ->
  f < e ->
  exists h', k_heapdl_mm_init h mem_start mem_end = Some h'
    /\ heap_repr h' [initial_chunk f e] [f + sizeof_CHUNK]
    /\ first h' = f /\ last h' = e - sizeof_CHUNK
    /\ mem_free h' = usable [initial_chunk f e] /\ mem_all h' = mem_free h'.
Proof.
  intros f e H0 H1 H2 Hlt.
  destruct (align_upper_spec mem_start OS_HEAP_BLOCK_SIZE) as [Rf Df];
    [done|lia|done|]. fold f in Rf, Df.
  destruct (align_lower_spec mem_end OS_HEAP_BLOCK_SIZE) as (Re & Re0 & De); [done|done|].
  fold e in Re, Re0, De.
  assert (Hsz : f + OS_HEAP_BLOCK_SIZE <= e).
  { destruct Df as [x Ex]. destruct De as [y Ey]. unfold OS_HEAP_BLOCK_SIZE in *. nia. }
  assert (Da : forall z, (OS_HEAP_BLOCK_SIZE | z) -> (OS_MEMORY_ALIGN | z)).
  { intros z [x ->]. exists (x * 256). unfold OS_HEAP_BLOCK_SIZE, OS_MEMORY_ALIGN. lia. }
  destruct (mm_init_eq h mem_start mem_end) as (st & E & Ra & Rf'); fold f e; try lia.
  eexists. split; [exact E|]. fold f e in E, Ra, Rf'. fold f e. clearbody f e.
  split_and!; try done.
  - apply init_heap_repr; auto; lia.
  - simpl. lia.
Qed.

(** ** Release *)
Lemma live_elem cs b :
  b ∈ live cs <-> exists c, c ∈ cs /\ c_used c = true
    /\ b = (c_addr c + sizeof_CHUNK, c_size c - sizeof_CHUNK).
Proof.
  unfold live. rewrite list_elem_of_fmap. setoid_rewrite list_elem_of_filter. naive_solver.
Qed.

Lemma by_ptr h cs fl c :
  heap_repr h cs fl -> c ∈ cs ->
  chunk_calc_chunk_by_ptr (c_addr c + sizeof_CHUNK) = c_addr c /\ c_addr c + sizeof_CHUNK <> 0.
Proof.
  intros Hr Hc. pose proof (chunk_u32 _ _ _ Hr c Hc).
  unfold chunk_calc_chunk_by_ptr. rewrite header_size_eq, u32_small; unfold sizeof_CHUNK in *; lia.
Qed.

Lemma mm_free_used h cs fl cs1 cs2 c :
  heap_repr h cs fl -> cs = cs1 ++ c :: cs2 -> c_used c = true ->
  exists h', k_heapdl_mm_free h (c_addr c + sizeof_CHUNK) = Some h' /\ freed h cs1 cs2 c h'.
Proof.
  intros Hr -> Hu. pose proof (mid_elem cs1 cs2 c) as Hc.
  destruct (by_ptr _ _ _ _ Hr Hc) as [E Hnz]. unfold k_heapdl_mm_free.
  destruct (Z.eqb_spec (c_addr c + sizeof_CHUNK) 0); [done|]. rewrite E.
  destruct (hr_headers _ _ _ Hr c Hc) as [-> _]. simpl. rewrite Hu.
  by eapply chunk_free_spec.
Qed.

(** A pointer to a chunk that is free already is ignored. *)
Lemma mm_free_unused h cs fl c :
  heap_repr h cs fl -> c ∈ cs -> c_used c = false ->
  k_heapdl_mm_free h (c_addr c + sizeof_CHUNK) = Some h.
Proof.
  intros Hr Hc Hu. destruct (by_ptr _ _ _ _ Hr Hc) as [E Hnz]. unfold k_heapdl_mm_free.
  destruct (Z.eqb_spec (c_addr c + sizeof_CHUNK) 0); [done|]. rewrite E.
  destruct (hr_headers _ _ _ Hr c Hc) as [-> _]. simpl. by rewrite Hu.
Qed.

(** ** The live blocks *)

(** In address order, with room for a header between two of them. *)
Definition blocks_sorted : list (Z * Z) -> Prop :=
  StronglySorted (fun b1 b2 => b1.1 + b1.2 + sizeof_CHUNK <= b2.1).

Lemma tiles_sorted a cs e : tiles a cs e -> blocks_sorted (live cs).
Proof.
  revert a. induction cs as [|c cs IH]; intros a; simpl; [constructor|].
  intros (Ea & Hs & _ & Ht). rewrite live_cons. destruct (c_used c); [|by eapply IH].
  constructor; [by eapply IH|]. apply list.Forall_forall. intros b Hb.
  apply live_elem in Hb as (d & Hd & _ & ->). apply (tiles_elem _ _ _ _ Ht) in Hd.
  simpl. unfold sizeof_CHUNK in *. lia.
Qed.

Lemma live_range h cs fl p n :
  heap_repr h cs fl -> (p, n) ∈ live cs ->
  first h + 2 * sizeof_CHUNK <= p /\ p + n <= last h /\ 0 <= n /\ (OS_MEMORY_ALIGN | p).
Proof.
  intros Hr (c & Hc & _ & [= -> ->])%live_elem.
  pose proof (chunk_range _ _ _ Hr c Hc). split_and!; try (unfold sizeof_CHUNK in *; lia).
  apply Z.divide_add_r; [|by exists 2].
  eapply tiles_starts_aligned; [apply Hr| |done].
  apply Z.divide_add_r; [apply Hr|by exists 2].
Qed.

Lemma live_carve cs1 cs2 c s :
  c_used c = false ->
  live (cs1 ++ carve s c ++ cs2)
  = live cs1 ++ (c_addr c + sizeof_CHUNK,
                 if whole s c then c_size c - sizeof_CHUNK else s) :: live cs2.
Proof.
  intros Hu. unfold carve. destruct (whole s c); autorewrite with heapdl; [done|].
  simpl. by rewrite Z.add_simpl_l.
Qed.

(** ** Fuel

    The free list is never longer than the number of headers that fit. *)
Definition heap_fuel (h : heap) : nat := Z.to_nat ((last h - first h) / sizeof_CHUNK + 1).

Lemma tiles_length a cs e : tiles a cs e -> sizeof_CHUNK * Z.of_nat (length cs) <= e - a.
Proof.
  revert a. induction cs as [|c cs IH]; intros a; simpl; [lia|].
  intros (Ea & Hs & _ & Ht%IH). unfold sizeof_CHUNK in *. lia.
Qed.

Lemma unused_length cs : (length (unused cs) <= length cs)%nat.
Proof. apply length_filter. Qed.

Lemma heap_fuel_enough h cs fl : heap_repr h cs fl -> (length fl < heap_fuel h)%nat.
Proof.
  intros Hr. rewrite (hr_fl _ _ _ Hr), length_map. pose proof (unused_length cs).
  pose proof (tiles_length _ _ _ (hr_tiles _ _ _ Hr)). pose proof (first_last _ _ _ Hr).
  unfold heap_fuel, sizeof_CHUNK in *.
  assert (Z.of_nat (length cs) <= (last h - first h) / 32) by (apply Z.div_le_lower_bound; lia).
  lia.
Qed.

(** ** The flag of a released chunk *)
Lemma on_links_isUsed g h h' : on_links g h = Some h' -> isUsed h' = isUsed h.
Proof. unfold on_links. destruct (g (links h)) as [[st b]|]; simpl; intros; by simplify_eq. Qed.

Lemma chunk_merge_isUsed h a b h' : chunk_merge h a b = Some h' -> isUsed h' = isUsed h.
Proof.
  unfold chunk_merge. intros H. invert_binds H. simplify_eq/=.
  repeat match goal with E : on_links _ _ = Some _ |- _ => apply on_links_isUsed in E end.
  congruence.
Qed.

Lemma chunk_free_isUsed h c h' :
  chunk_free h c = Some h' -> isUsed h' = <[c := false]> (isUsed h).
Proof.
  unfold chunk_free. intros H. do 4 (apply option.bind_Some in H; destruct H as (? & _ & H)).
  destruct (negb _).
  - apply option.bind_Some in H as (h1 & E & H). apply chunk_merge_isUsed in H.
    apply on_links_isUsed in E. by rewrite H, E.
  - apply option.bind_Some in H as (? & _ & H). destruct (negb _).
    + apply option.bind_Some in H as (h1 & E & H). apply chunk_merge_isUsed in H.
      apply on_links_isUsed in E. by rewrite H, E.
    + by apply on_links_isUsed in H.
Qed.

(** ** Counting *)
Lemma count_nodes_ring fuel h head l :
  dring (links h) head l -> (length l < fuel)%nat ->
  count_nodes fuel h head = Some (Z.of_nat (length l)).
Proof.
  intros Hr Hf. unfold count_nodes.
  rewrite (list_for_each_fold _ _ (fun _ count => count + 1) _ _ l); [simpl|done..].
  f_equal. assert (Hc : forall n, foldl (fun count (_ : Z) => count + 1) n l = n + Z.of_nat (length l)).
  { clear. induction l as [|x l IH]; intros n; simpl; [lia|]. rewrite IH. lia. }
  apply Hc.
Qed.

(** ** Theorems *)

(** The two counters of chunks: [debug__k_heapdl_mm_get_chunksfree] counts the
    free chunks, [debug__k_heapdl_mm_get_chunks] all of them with the two
    sentinels, although its loop names the [free] member and starts at an [all]
    node. *)
Theorem chunk_counts h cs fl fuel :
  heap_repr h cs fl -> (length cs + 1 < fuel)%nat ->
  debug__k_heapdl_mm_get_chunksfree fuel h = Some (Z.of_nat (length (unused cs)))
  /\ debug__k_heapdl_mm_get_chunks fuel h = Some (Z.of_nat (length cs) + 2).
Proof.
  intros Hr Hf. unfold debug__k_heapdl_mm_get_chunksfree, debug__k_heapdl_mm_get_chunks.
  assert (Hl : length fl = length (unused cs)) by (by rewrite (hr_fl _ _ _ Hr), length_map).
  pose proof (unused_length cs). rewrite (hr_head _ _ _ Hr), all_of_eq. split.
  - rewrite (count_nodes_ring _ _ _ _ (hr_free _ _ _ Hr)); rewrite length_map; [by rewrite Hl|lia].
  - rewrite (count_nodes_ring _ _ _ _ (hr_all _ _ _ Hr)); rewrite length_app, length_map; simpl; [|lia].
    f_equal. lia.
Qed.

(** Initialisation: for any range that contains a whole block,
    [k_heapdl_mm_init] succeeds and leaves a well-formed heap with one free chunk
    that spans the range between the two sentinel headers; [mem_free] and
    [mem_all] are its usable bytes. *)
Theorem mm_init_correct h mem_start mem_end :
  let f := align_address_to_upper mem_start OS_HEAP_BLOCK_SIZE in
  let e := align_address_to_lower mem_end OS_HEAP_BLOCK_SIZE in
  0 < mem_start -> mem_start + OS_HEAP_BLOCK_SIZE <= 2 ^ 32 -> 0 <= mem_end < 2 ^ 32 ->
  f < e ->
  exists h', k_heapdl_mm_init h mem_start mem_end = Some h'
    /\ heap_repr h' [initial_chunk f e] [f + sizeof_CHUNK]
    /\ first h' = f /\ last h' = e - sizeof_CHUNK
    /\ k_heapdl_mm_get_free h' = e - f - 3 * sizeof_CHUNK
    /\ k_heapdl_mm_get_usage h' = 0.
Proof.
  intros f e H0 H1 H2 Hlt.
  destruct (mm_init_repr h mem_start mem_end H0 H1 H2 Hlt) as (h' & E & R & Hf & Hl & Mf & Ma).
  exists h'. split_and!; try done.
  - unfold k_heapdl_mm_get_free. rewrite Mf. fold f e. simpl. lia.
  - unfold k_heapdl_mm_get_usage. by rewrite Ma, Z.sub_diag.
Qed.

(** C4. [k_heapdl_mm_malloc] on every branch: with enough fuel for the free list
    it returns NULL and changes nothing exactly when the counter forbids the
    request or no free chunk has room; otherwise it takes the first chunk of the
    free list that has room, marks it used (whole, or cut when a block or more
    would be left), keeps the heap well formed, adds exactly that block to the
    live ones, and moves [mem_free] by the size of the chunk, which is 32 more
    than the bytes taken away when the chunk is used whole. *)
Theorem malloc_correct h cs fl s fuel :
  heap_repr h cs fl -> 0 <= s -> (OS_MEMORY_ALIGN | s) -> (length fl < fuel)%nat ->
  (k_heapdl_mm_malloc fuel h s = Some (0, h)
   /\ (mem_free h < s \/ mem_free h = 0
       \/ forall c, c ∈ cs -> c_used c = false -> c_size c - sizeof_CHUNK < s))
  \/ (s <= mem_free h /\ mem_free h <> 0 /\ exists fl1 fl2 cs1 cs2 c h' fl',
        fl = fl1 ++ c_addr c :: fl2 /\ Forall (too_small cs s) fl1
        /\ cs = cs1 ++ c :: cs2 /\ c_used c = false /\ s <= c_size c - sizeof_CHUNK
        /\ k_heapdl_mm_malloc fuel h s = Some (c_addr c + sizeof_CHUNK, h')
        /\ heap_repr h' (cs1 ++ carve s c ++ cs2) fl'
        /\ live (cs1 ++ carve s c ++ cs2)
           = live cs1 ++ (c_addr c + sizeof_CHUNK,
                          if whole s c then c_size c - sizeof_CHUNK else s) :: live cs2
        /\ drift h' (cs1 ++ carve s c ++ cs2)
           = u32 (drift h cs + (if whole s c then sizeof_CHUNK else 0))).
Proof.
  intros Hr Hs Ha Hf. destruct (malloc_cases h cs fl s Hr Hs Ha fuel Hf)
    as [H|(H1 & H2 & fl1 & fl2 & cs1 & cs2 & c & h' & Efl & HF & Ecs & Hu & Hle & E & T)];
    [by left|right].
  destruct T as (fl' & R & _ & D). split_and!; [done|done|].
  exists fl1, fl2, cs1, cs2, c, h', fl'. split_and!; try done. by apply live_carve.
Qed.

(** No request is refused that can be served: when the counter allows it and
    some free chunk has the room, [k_heapdl_mm_malloc] returns a block. *)
Theorem malloc_complete h cs fl s fuel c :
  heap_repr h cs fl -> 0 <= s -> (OS_MEMORY_ALIGN | s) -> (length fl < fuel)%nat ->
  s <= mem_free h -> mem_free h <> 0 ->
  c ∈ cs -> c_used c = false -> s <= c_size c - sizeof_CHUNK ->
  exists p h', k_heapdl_mm_malloc fuel h s = Some (p, h') /\ p <> 0.
Proof.
  intros Hr Hs Ha Hf Hm Hm0 Hc Hu Hle. destruct (malloc_cases h cs fl s Hr Hs Ha fuel Hf)
    as [[_ [H|[H|H]]]|(_ & _ & fl1 & fl2 & cs1 & cs2 & d & h' & _ & _ & Ecs & _ & _ & E & _)].
  - lia.
  - lia.
  - specialize (H c Hc Hu). lia.
  - eexists _, _. split; [exact E|]. eapply by_ptr; [exact Hr|]. rewrite Ecs. apply mid_elem.
Qed.


(** Freeing is idempotent, as its comment says: NULL is ignored, and a second
    call with the same pointer, right after the first, changes nothing. *)
Theorem free_idempotent h cs fl c :
  heap_repr h cs fl -> c ∈ cs ->
  k_heapdl_mm_free h 0 = Some h
  /\ exists h', k_heapdl_mm_free h (c_addr c + sizeof_CHUNK) = Some h'
       /\ k_heapdl_mm_free h' (c_addr c + sizeof_CHUNK) = Some h'.
Proof.
  intros Hr Hc. split; [done|]. destruct (c_used c) eqn:Hu.
  - destruct (by_ptr _ _ _ _ Hr Hc) as [E Hnz].
    apply list_elem_of_split in Hc as (cs1 & cs2 & Ecs).
    destruct (mm_free_used _ _ _ _ _ _ Hr Ecs Hu) as (h' & Ef & _).
    exists h'. split; [done|]. unfold k_heapdl_mm_free in *.
    destruct (Z.eqb_spec (c_addr c + sizeof_CHUNK) 0); [done|]. rewrite E in *.
    apply option.bind_Some in Ef as (u & Eu & Ef).
    destruct u; [|simplify_eq; by rewrite Eu].
    apply chunk_free_isUsed in Ef. rewrite Ef, lookup_insert_eq. done.
  - exists h. by rewrite (mm_free_unused _ _ _ _ Hr Hc Hu).
Qed.

(** ** A concrete heap of 64 KiB *)
Definition empty_heap : heap := mkHeap ∅ ∅ ∅ 0 0 0 0 0.
Definition demo_start : Z := 16777216.
Definition demo_end : Z := demo_start + 65536.
Definition demo_chunk : chunk := initial_chunk demo_start demo_end.
Definition demo : heap := default empty_heap (k_heapdl_mm_init empty_heap demo_start demo_end).

(** The heap after one request, for [s] bytes. *)
Definition demo_after (s : Z) : heap :=
  match k_heapdl_mm_malloc 3 demo s with Some (_, h) => h | None => demo end.

Lemma demo_repr : heap_repr demo [demo_chunk] [c_addr demo_chunk].
Proof.
  destruct (mm_init_repr empty_heap demo_start demo_end) as (h & E & R & _);
    [concrete..|].
  unfold demo. rewrite E. exact R.
Qed.

#[local] Opaque demo k_heapdl_mm_malloc k_heapdl_mm_free.

Lemma demo_after_repr :
  exists fl, heap_repr (demo_after 4096) (carve 4096 demo_chunk) fl.
Proof.
  destruct (malloc_cases demo _ _ 4096 demo_repr ltac:(lia) ltac:(by exists 256) 3 ltac:(simpl; lia))
    as [[E _]|(_ & _ & fl1 & fl2 & cs1 & cs2 & c & h' & _ & _ & Ecs & _ & _ & E & T)].
  - vm_compute in E. discriminate E.
  - destruct cs1 as [|? [|]]; [|discriminate Ecs..]. injection Ecs as <- <-.
    destruct T as (fl & R & _). rewrite app_nil_r in R. exists fl.
    unfold demo_after. by rewrite E.
Qed.

#[local] Opaque demo_after.

Lemma mm_init_correct_witness :
  exists h, k_heapdl_mm_init empty_heap demo_start demo_end = Some h
    /\ k_heapdl_mm_get_free h = 65536 - 96.
Proof.
  destruct (mm_init_correct empty_heap demo_start demo_end) as (h & E & _ & _ & _ & F & _);
    [concrete..|].
  exists h. split; [exact E|]. rewrite F. reflexivity.
Defined.

Lemma malloc_correct_witness :
  exists h, k_heapdl_mm_malloc 3 demo 4096 = Some (demo_start + 64, h).
Proof.
  destruct (malloc_correct demo _ _ 4096 3 demo_repr ltac:(lia) ltac:(by exists 256) ltac:(simpl; lia))
    as [[E _]|(_ & _ & fl1 & fl2 & cs1 & cs2 & c & h' & fl' & _ & _ & Ecs & _ & _ & E & _)].
  - vm_compute in E. discriminate E.
  - destruct cs1 as [|? [|]]; [|discriminate Ecs..]. injection Ecs as <- <-. exists h'. exact E.
Defined.

Lemma malloc_complete_witness :
  exists p h, k_heapdl_mm_malloc 3 demo 8192 = Some (p, h) /\ p <> 0.
Proof.
  apply (malloc_complete demo _ _ 8192 3 demo_chunk demo_repr);
    [lia|by exists 512|simpl; lia|concrete|concrete|by apply elem_of_cons; left|concrete|concrete].
Defined.


Lemma free_idempotent_witness :
  exists h, k_heapdl_mm_free (demo_after 4096) (demo_start + 64) = Some h
    /\ k_heapdl_mm_free h (demo_start + 64) = Some h.
Proof.
  destruct demo_after_repr as (fl & R).
  destruct (free_idempotent _ _ _ (mkChunk (demo_start + 32) (32 + 4096) true) R)
    as (_ & h & E1 & E2); [by apply elem_of_cons; left|].
  exists h. split; [exact E1|exact E2].
Defined.

(** The counter against the free bytes: after requests that use up the heap, the
    last one taking a chunk whole, no byte is free and [mem_free] has wrapped. *)
Fixpoint malloc_all (h : heap) (ss : list Z) : option heap :=
  match ss with
  | [] => Some h
  | s :: ss => r ← k_heapdl_mm_malloc 8 h s; if r.1 =? 0 then None else malloc_all r.2 ss
  end.

(** The free counter can wrap: [chunk_engage] subtracts the header of a chunk
    that is used whole, which was never counted as free.  Four requests on a
    64 KiB heap leave [k_heapdl_mm_get_free] at 2^32 - 32, and a further request
    passes the test on [mem_free] only to find the free list empty. *)
Theorem mem_free_wraps :
  exists h, malloc_all demo [4096; 8192; 45056; 4096] = Some h
    /\ k_heapdl_mm_get_free h = 2 ^ 32 - 32 /\ debug__k_heapdl_mm_get_chunksfree 8 h = Some 0.
Proof.
  eexists. split; [vm_compute; reflexivity|]. split; vm_compute; reflexivity.
Qed.

Lemma chunk_counts_witness :
  debug__k_heapdl_mm_get_chunksfree 3 demo = Some 1 /\ debug__k_heapdl_mm_get_chunks 3 demo = Some 3.
Proof. apply (chunk_counts demo _ _ 3 demo_repr). simpl. lia. Defined.
