(* ===== verification/Allocator.v ===== *)
(** * What an allocator promises to the rest of the kernel

    The interface between the heap of src/src/memory and its clients: the class
    [Allocator] states the contract of a [malloc]/[free] pair in terms of the
    blocks that are live, and the client's side is proved against it: whatever
    sequence of calls a client makes, the blocks it holds are aligned, lie in the
    heap and do not overlap, and no call faults. *)
From Stdlib Require Import ZArith Lia.
From stdpp Require Import base option list numbers sorting.
From S2P Require Import Prelude.

Set Default Proof Using "Type".

(** One block [(p, n)] is the [n] bytes from [p]. *)
Definition before (b1 b2 : Z * Z) : Prop := b1.1 + b1.2 < b2.1.

Definition block_ok (align lo hi : Z) (b : Z * Z) : Prop :=
  lo < b.1 /\ b.1 + b.2 <= hi /\ 0 <= b.2 /\ (align | b.1).

Class Allocator (H : Type) (align : Z) (malloc : H -> Z -> option (Z * H))
    (free : H -> Z -> option H) := {
  (** [al_live h bs]: [h] is well formed and [bs] are its live blocks, in
      address order. *)
  al_live : H -> list (Z * Z) -> Prop;
  al_region : H -> Z * Z;
  al_region_pos h bs : al_live h bs -> 0 <= (al_region h).1;
  al_sorted h bs : al_live h bs -> StronglySorted before bs;
  al_blocks h bs :
    al_live h bs -> Forall (block_ok align (al_region h).1 (al_region h).2) bs;
  al_malloc h bs s :
    al_live h bs -> 0 <= s < 2 ^ 32 -> (align | s) ->
    exists p h', malloc h s = Some (p, h') /\ al_region h' = al_region h
      /\ ((p = 0 /\ h' = h)
          \/ exists bs1 bs2 n, bs = bs1 ++ bs2 /\ s <= n /\ al_live h' (bs1 ++ (p, n) :: bs2));
  al_free h bs1 bs2 p n :
    al_live h (bs1 ++ (p, n) :: bs2) ->
    exists h', free h p = Some h' /\ al_region h' = al_region h /\ al_live h' (bs1 ++ bs2);
  al_free_null h : free h 0 = Some h
}.

Section client.
Context {H : Type} {align : Z} {malloc : H -> Z -> option (Z * H)} {free : H -> Z -> option H}.
Context `{!Allocator H align malloc free}.

(** The states a client can bring the allocator to, with the pointers it holds
    and the sizes it asked for. *)
Inductive client (h0 : H) : H -> list (Z * Z) -> Prop :=
| client_start : client h0 h0 []
| client_malloc h rs s p h' :
    client h0 h rs -> 0 <= s < 2 ^ 32 -> (align | s) -> malloc h s = Some (p, h') -> p <> 0 ->
    client h0 h' ((p, s) :: rs)
| client_malloc_null h rs s h' :
    client h0 h rs -> 0 <= s < 2 ^ 32 -> (align | s) -> malloc h s = Some (0, h') ->
    client h0 h' rs
| client_free h rs1 rs2 p s h' :
    client h0 h (rs1 ++ (p, s) :: rs2) -> free h p = Some h' -> client h0 h' (rs1 ++ rs2)
| client_free_null h rs h' : client h0 h rs -> free h 0 = Some h' -> client h0 h' rs.

(** The blocks of a client do not overlap. *)
Definition disjoint_blocks (rs : list (Z * Z)) : Prop :=
  forall i j b1 b2, i <> j -> rs !! i = Some b1 -> rs !! j = Some b2 ->
    before b1 b2 \/ before b2 b1.

(** The invariant: the client holds exactly the live blocks, each at least as
    long as it asked for. *)
Definition holds (bs rs : list (Z * Z)) : Prop :=
  rs.*1 ≡ₚ bs.*1 /\ Forall (fun r => exists n, (r.1, n) ∈ bs /\ 0 <= r.2 <= n) rs.

Lemma sorted_before_keys bs p n m :
  StronglySorted before bs -> Forall (fun b => 0 <= b.2) bs ->
  (p, n) ∈ bs -> (p, m) ∈ bs -> n = m.
Proof using Type.
  induction 1 as [|b bs HS IH Hb]; intros HF; [by intros ?%elem_of_nil|].
  apply list.Forall_cons in HF as [H0 HF]. rewrite list.Forall_forall in Hb. unfold before in Hb.
  rewrite !elem_of_cons. intros [<-|H1] [E|H2]; simplify_eq; auto.
  - apply Hb in H2. simpl in *. lia.
  - apply Hb in H1. simpl in *. lia.
Qed.

Lemma sorted_before_sep bs b1 b2 :
  StronglySorted before bs -> b1 ∈ bs -> b2 ∈ bs -> b1.1 <> b2.1 ->
  before b1 b2 \/ before b2 b1.
Proof using Type.
  induction 1 as [|b bs HS IH Hb]; [by intros ?%elem_of_nil|].
  rewrite list.Forall_forall in Hb. rewrite !elem_of_cons.
  intros [->|H1] [->|H2] Hne; [done|left; by apply Hb|right; by apply Hb|by apply IH].
Qed.

Lemma sorted_before_nodup bs :
  StronglySorted before bs -> Forall (fun b => 0 <= b.2) bs -> NoDup bs.*1.
Proof using Type.
  induction 1 as [|b bs HS IH Hb]; intros HF; [constructor|].
  apply list.Forall_cons in HF as [H0 HF]. simpl. apply list.NoDup_cons. split; [|by apply IH].
  intros (b2 & E & H2)%list_elem_of_fmap. rewrite list.Forall_forall in Hb.
  apply Hb in H2. unfold before in H2. lia.
Qed.

Lemma live_nonneg h bs : al_live h bs -> Forall (fun b => 0 <= b.2) bs.
Proof using Type.
  intros Hl. eapply Forall_impl; [by apply al_blocks|]. unfold block_ok. simpl. tauto.
Qed.

Lemma holds_disjoint h bs rs : al_live h bs -> holds bs rs -> disjoint_blocks rs.
Proof using Type.
  intros Hl [Hp HF] i j b1 b2 Hne H1 H2. pose proof (al_sorted _ _ Hl) as HS.
  pose proof (sorted_before_nodup _ HS (live_nonneg _ _ Hl)) as ND. rewrite <- Hp in ND.
  assert (b1.1 <> b2.1).
  { intros E. apply Hne. eapply NoDup_lookup; [exact ND| |].
    - rewrite list_lookup_fmap, H1. done.
    - rewrite list_lookup_fmap, H2. simpl. by rewrite E. }
  rewrite Forall_lookup in HF. destruct (HF _ _ H1) as (n1 & I1 & R1).
  destruct (HF _ _ H2) as (n2 & I2 & R2).
  destruct (sorted_before_sep bs (b1.1, n1) (b2.1, n2) HS I1 I2); [done| |];
    unfold before in *; simpl in *; [left|right]; lia.
Qed.

Lemma holds_blocks h bs rs :
  al_live h bs -> holds bs rs -> Forall (block_ok align (al_region h).1 (al_region h).2) rs.
Proof using Type.
  intros Hl [_ HF]. pose proof (al_blocks _ _ Hl) as HB. rewrite list.Forall_forall in HF, HB |- *.
  intros r (n & Hn & Hr)%HF. apply HB in Hn. unfold block_ok in *. simpl in *.
  split_and!; try tauto; lia.
Qed.

Lemma holds_malloc bs1 bs2 rs p n s :
  holds (bs1 ++ bs2) rs -> 0 <= s <= n -> holds (bs1 ++ (p, n) :: bs2) ((p, s) :: rs).
Proof using Type.
  intros [Hp HF] Hs. split.
  - rewrite fmap_app in Hp. rewrite fmap_app. simpl. rewrite Hp. solve_Permutation.
  - constructor; [exists n; split; [rewrite elem_of_app, elem_of_cons; tauto|done]|].
    eapply Forall_impl; [exact HF|]. intros r (m & Hm & ?). exists m. split; [|done].
    rewrite elem_of_app, elem_of_cons in *. tauto.
Qed.

Lemma holds_free h bs rs1 rs2 p s :
  al_live h bs -> holds bs (rs1 ++ (p, s) :: rs2) ->
  exists bs1 bs2 n, bs = bs1 ++ (p, n) :: bs2 /\ holds (bs1 ++ bs2) (rs1 ++ rs2).
Proof using Type.
  intros Hl [Hp HF]. pose proof (al_sorted _ _ Hl) as HS.
  pose proof (sorted_before_nodup _ HS (live_nonneg _ _ Hl)) as ND.
  assert (exists n, (p, n) ∈ bs) as (n & Hn).
  { rewrite list.Forall_forall in HF.
    destruct (HF (p, s)) as (n & Hn & _); [rewrite elem_of_app, elem_of_cons; tauto|by exists n]. }
  apply list_elem_of_split in Hn as (bs1 & bs2 & ->). exists bs1, bs2, n. split; [done|].
  rewrite !fmap_app in Hp, ND. simpl in Hp, ND.
  assert (Hp' : (rs1 ++ rs2).*1 ≡ₚ (bs1 ++ bs2).*1).
  { rewrite <- !Permutation_middle in Hp. rewrite !fmap_app.
    rewrite fmap_cons, fmap_app in Hp. by apply Permutation_cons_inv in Hp. }
  split; [exact Hp'|].
  rewrite list.Forall_forall in HF |- *. intros r Hr.
  destruct (HF r) as (m & Hm & ?); [rewrite elem_of_app, elem_of_cons in *; tauto|].
  exists m. split; [|done]. rewrite elem_of_app, elem_of_cons in Hm.
  destruct Hm as [Hm|[E|Hm]]; try (rewrite elem_of_app; tauto). exfalso.
  rewrite <- Permutation_middle in ND. apply list.NoDup_cons in ND as [Hn _]. apply Hn.
  assert (Hr1 : r.1 ∈ (rs1 ++ rs2).*1) by (apply list_elem_of_fmap; by exists r).
  rewrite Hp', fmap_app in Hr1. by simplify_eq.
Qed.

Lemma client_holds h0 h rs :
  al_live h0 [] -> client h0 h rs ->
  al_region h = al_region h0 /\ exists bs, al_live h bs /\ holds bs rs.
Proof using Type.
  intros H0. induction 1 as [|h rs s p h' _ [R (bs & Hl & Hh)] Hs Ha E Hp
    |h rs s h' _ [R (bs & Hl & Hh)] Hs Ha E|h rs1 rs2 p s h' _ [R (bs & Hl & Hh)] E
    |h rs h' _ [R (bs & Hl & Hh)] E].
  - split; [done|]. exists []. split; [done|]. split; [done|constructor].
  - destruct (al_malloc h bs s Hl Hs Ha) as (p' & h'' & E' & R' & Hc). simplify_eq.
    split; [congruence|]. destruct Hc as [[-> _]|(bs1 & bs2 & n & -> & Hn & Hl')]; [done|].
    eexists. split; [exact Hl'|]. apply holds_malloc; [done|lia].
  - destruct (al_malloc h bs s Hl Hs Ha) as (p' & h'' & E' & R' & Hc). simplify_eq.
    split; [congruence|]. destruct Hc as [[_ ->]|(bs1 & bs2 & n & -> & Hn & Hl')].
    + by exists bs.
    + pose proof (al_blocks _ _ Hl') as HB. pose proof (al_region_pos _ _ Hl').
      rewrite list.Forall_forall in HB. specialize (HB (0, n)).
      destruct HB as [HB _]; [rewrite elem_of_app, elem_of_cons; tauto|]. simpl in HB. lia.
  - destruct (holds_free _ _ _ _ _ _ Hl Hh) as (bs1 & bs2 & n & -> & Hh').
    destruct (al_free _ _ _ _ _ Hl) as (h'' & E' & R' & Hl'). simplify_eq.
    split; [congruence|]. by eexists.
  - rewrite al_free_null in E. simplify_eq. split; [done|]. by exists bs.
Qed.

(** Safety of every client, and progress of its next call. *)
Lemma client_safe h0 h rs :
  al_live h0 [] -> client h0 h rs ->
  Forall (block_ok align (al_region h0).1 (al_region h0).2) rs /\ disjoint_blocks rs
  /\ (forall s, 0 <= s < 2 ^ 32 -> (align | s) -> is_Some (malloc h s))
  /\ (forall p s, (p, s) ∈ rs -> is_Some (free h p)).
Proof using Type.
  intros H0 Hc. destruct (client_holds _ _ _ H0 Hc) as (R & bs & Hl & Hh). split_and!.
  - rewrite <- R. by eapply holds_blocks.
  - by eapply holds_disjoint.
  - intros s Hs Ha. destruct (al_malloc h bs s Hl Hs Ha) as (p & h' & -> & _). done.
  - intros p s (rs1 & rs2 & ->)%list_elem_of_split.
    destruct (holds_free _ _ _ _ _ _ Hl Hh) as (bs1 & bs2 & n & -> & _).
    destruct (al_free _ _ _ _ _ Hl) as (h' & -> & _). done.
Qed.
End client.
