(* ===== verification/Memory.v ===== *)
(** * The kernel's memory interface, src/src/memory/memory.c

    [kmalloc], [kzalloc] and [kfree] over the heap of [Heapdl], the instance of
    the allocator interface for that heap, and the memory test.
    [OS_HEAP_MM_ALT] is 0 in src/src/config.h, so the [switch] statements select
    the heap of heapdl.c. *)
From Stdlib Require Import ZArith Lia.
From stdpp Require Import base option list gmap numbers sorting.
From S2P Require Import Prelude Kutil Dlist Heapdl HeapdlInv HeapdlFree HeapdlSpec Allocator.

Set Default Proof Using "Type".

Definition OS_HEAP_ADDRESS : Z := 16777216.
Definition OS_HEAP_SIZE_BYTES : Z := 1024 * 1024 * 112.

(** ** Operations *)
Definition k_mm_init (h : heap) : option heap :=
  k_heapdl_mm_init h OS_HEAP_ADDRESS (OS_HEAP_ADDRESS + OS_HEAP_SIZE_BYTES).

Definition __kmalloc (h : heap) (size : Z) : option (Z * heap) :=
  k_heapdl_mm_malloc (heap_fuel h) h size.

Definition kmalloc (h : heap) (size : Z) : option (Z * heap) :=
  let size := align_address_to_upper size OS_HEAP_BLOCK_SIZE in
  __kmalloc h size.

(** The bytes of the memory outside of the headers. *)
Abbreviation memory := (gmap Z Z).

Definition kmemset_at (m : memory) (ptr c size : Z) : option memory :=
  for_range 0 size (fun i m => Some (<[u32 (ptr + i) := u8 c]> m)) m.

Definition kzalloc (h : heap) (m : memory) (size : Z) : option (Z * heap * memory) :=
  r ← kmalloc h size;
  let '(ptr, h) := r in
  if ptr =? 0 then Some (0, h, m)
  else m ← kmemset_at m ptr 0 size; Some (ptr, h, m).

Definition kfree (h : heap) (ptr : Z) : option heap := k_heapdl_mm_free h ptr.

(** ** The heap is an allocator *)
Definition heapdl_live (h : heap) (bs : list (Z * Z)) : Prop :=
  exists cs fl, heap_repr h cs fl /\ bs = live cs.

Lemma live_split cs bs1 bs2 p n :
  live cs = bs1 ++ (p, n) :: bs2 ->
  exists cs1 cs2 c, cs = cs1 ++ c :: cs2 /\ c_used c = true /\ live cs1 = bs1 /\ live cs2 = bs2
    /\ p = c_addr c + sizeof_CHUNK /\ n = c_size c - sizeof_CHUNK.
Proof.
  revert bs1. induction cs as [|c cs IH]; intros bs1 E; [by destruct bs1|].
  rewrite live_cons in E. destruct (c_used c) eqn:Hu.
  - destruct bs1 as [|b bs1]; simpl in E; injection E; clear E.
    + intros <- <- <-. by exists [], cs, c.
    + intros E <-. destruct (IH bs1 E) as (cs1 & cs2 & d & -> & ? & <- & ? & ? & ?).
      exists (c :: cs1), cs2, d. split_and!; try done. by rewrite live_cons, Hu.
  - destruct (IH bs1 E) as (cs1 & cs2 & d & -> & ? & <- & ? & ? & ?).
    exists (c :: cs1), cs2, d. split_and!; try done. by rewrite live_cons, Hu.
Qed.

Lemma heapdl_malloc_live h bs s :
  heapdl_live h bs -> 0 <= s < 2 ^ 32 -> (OS_MEMORY_ALIGN | s) ->
  exists p h', __kmalloc h s = Some (p, h') /\ (first h', last h') = (first h, last h)
    /\ ((p = 0 /\ h' = h)
        \/ exists bs1 bs2 n, bs = bs1 ++ bs2 /\ s <= n
             /\ heapdl_live h' (bs1 ++ (p, n) :: bs2)).
Proof.
  intros (cs & fl & Hr & ->) Hs Ha. unfold __kmalloc.
  destruct (malloc_cases h cs fl s Hr ltac:(lia) Ha (heap_fuel h) (heap_fuel_enough _ _ _ Hr))
    as [[E _]|(_ & _ & fl1 & fl2 & cs1 & cs2 & c & h' & _ & _ & -> & Hu & Hle & E & T)].
  - exists 0, h. auto.
  - destruct T as (fl' & R & (Hf & Hl & _) & _).
    exists (c_addr c + sizeof_CHUNK), h'. rewrite Hf, Hl. split_and!; [done|done|]. right.
    exists (live cs1), (live cs2), (if whole s c then c_size c - sizeof_CHUNK else s).
    split_and!.
    + autorewrite with heapdl. by rewrite Hu.
    + destruct (whole s c); lia.
    + rewrite <- live_carve by done. by eexists _, _.
Qed.

Lemma heapdl_free_live h bs1 bs2 p n :
  heapdl_live h (bs1 ++ (p, n) :: bs2) ->
  exists h', kfree h p = Some h' /\ (first h', last h') = (first h, last h)
    /\ heapdl_live h' (bs1 ++ bs2).
Proof.
  intros (cs & fl & Hr & E). symmetry in E.
  apply live_split in E as (cs1 & cs2 & c & -> & Hu & <- & <- & -> & ->).
  destruct (mm_free_used _ _ _ _ _ _ Hr eq_refl Hu)
    as (h' & E & cs' & fl' & R & Hl & (Hf & Hla & _) & _).
  exists h'. rewrite Hf, Hla. split_and!; [done|done|]. rewrite <- Hl. by eexists _, _.
Qed.

#[global] Program Instance heapdl_allocator : Allocator heap OS_MEMORY_ALIGN __kmalloc kfree := {
  al_live := heapdl_live;
  al_region h := (first h, last h);
  al_malloc := heapdl_malloc_live;
  al_free := heapdl_free_live
}.
Next Obligation. intros h bs (cs & fl & Hr & _). pose proof (first_last _ _ _ Hr). simpl. lia. Qed.
Next Obligation.
  intros h bs (cs & fl & Hr & ->). pose proof (tiles_sorted _ _ _ (hr_tiles _ _ _ Hr)) as HS.
  eapply StronglySorted_impl; [|exact HS]. intros b1 b2. unfold before, sizeof_CHUNK. lia.
Qed.
Next Obligation.
  intros h bs (cs & fl & Hr & ->). apply list.Forall_forall. intros [p n] Hb.
  apply (live_range _ _ _ _ _ Hr) in Hb. unfold block_ok, sizeof_CHUNK in *. simpl.
  split_and!; try tauto; lia.
Qed.
Next Obligation. reflexivity. Qed.

(** ** [kmalloc] and [kzalloc] *)
Lemma align_block size :
  0 <= size -> size + OS_HEAP_BLOCK_SIZE <= 2 ^ 32 ->
  let s := align_address_to_upper size OS_HEAP_BLOCK_SIZE in
  size <= s < 2 ^ 32 /\ (OS_MEMORY_ALIGN | s).
Proof.
  intros H0 H1 s. destruct (align_upper_spec size OS_HEAP_BLOCK_SIZE) as [Hr [k Hk]];
    [done|done|done|]. fold s in Hr, Hk. split; [lia|].
  exists (k * 256). rewrite Hk. unfold OS_HEAP_BLOCK_SIZE, OS_MEMORY_ALIGN. lia.
Qed.

Lemma kmalloc_live h bs size :
  heapdl_live h bs -> 0 <= size -> size + OS_HEAP_BLOCK_SIZE <= 2 ^ 32 ->
  exists p h', kmalloc h size = Some (p, h')
    /\ ((p = 0 /\ h' = h)
        \/ exists bs1 bs2 n, bs = bs1 ++ bs2 /\ size <= n
             /\ heapdl_live h' (bs1 ++ (p, n) :: bs2)).
Proof.
  intros Hl H0 H1. destruct (align_block size H0 H1) as [Hs Ha].
  destruct (heapdl_malloc_live h bs (align_address_to_upper size OS_HEAP_BLOCK_SIZE) Hl ltac:(lia) Ha) as (p & h' & E & _ & Hc).
  exists p, h'. split; [exact E|]. destruct Hc as [Hc|(bs1 & bs2 & n & ? & ? & ?)]; [by left|].
  right. exists bs1, bs2, n. split_and!; [done| |done]. etransitivity; [apply Hs|done].
Qed.

Lemma kmemset_at_spec m ptr c size :
  0 <= ptr -> 0 <= size -> ptr + size <= 2 ^ 32 ->
  exists m', kmemset_at m ptr c size = Some m'
    /\ forall a, m' !! a = if decide (ptr <= a < ptr + size) then Some (u8 c) else m !! a.
Proof.
  intros H0 H1 H2. unfold kmemset_at.
  set (I := fun (i : Z) (m' : memory) => forall a,
    m' !! a = if decide (ptr <= a < ptr + i) then Some (u8 c) else m !! a).
  apply (for_range_inv I); [done| |]; unfold I.
  - intros a. rewrite decide_False by lia. done.
  - intros i m' Hi Hm. eexists. split; [done|]. intros a.
    rewrite u32_small, lookup_insert by lia. case_decide; subst.
    + rewrite decide_True by lia. done.
    + rewrite Hm. repeat case_decide; try done; lia.
Qed.

(** The block handed out lies in the 32-bit address space. *)
Lemma live_block_range h bs p n : heapdl_live h bs -> (p, n) ∈ bs -> 0 < p /\ p + n <= 2 ^ 32.
Proof.
  intros (cs & fl & Hr & ->) Hb. apply (live_range _ _ _ _ _ Hr) in Hb.
  pose proof (first_last _ _ _ Hr). unfold sizeof_CHUNK in *. lia.
Qed.

(** ** Theorems *)


(** [kmalloc] and [kzalloc]: for a size that can be rounded up to whole
    blocks, either the heap has no room, NULL is returned and neither the heap
    nor the memory changes, or the block is at least as long as asked for, is
    new among the live blocks, and all of the bytes asked for and no others are
    set to zero. *)
Theorem kzalloc_correct h m bs size :
  heapdl_live h bs -> 0 <= size -> size + OS_HEAP_BLOCK_SIZE <= 2 ^ 32 ->
  exists p h' m', kzalloc h m size = Some (p, h', m') /\ kmalloc h size = Some (p, h')
    /\ ((p = 0 /\ h' = h /\ m' = m)
        \/ exists bs1 bs2 n, bs = bs1 ++ bs2 /\ size <= n /\ heapdl_live h' (bs1 ++ (p, n) :: bs2)
             /\ forall a, m' !! a = if decide (p <= a < p + size) then Some 0 else m !! a).
Proof.
  intros Hl H0 H1. destruct (kmalloc_live h bs size Hl H0 H1) as (p & h' & E & Hc).
  unfold kzalloc. rewrite E. simpl.
  destruct Hc as [[-> ->]|(bs1 & bs2 & n & -> & Hn & Hl')]; [exists 0, h, m; split_and!; auto|].
  destruct (live_block_range _ _ p n Hl') as [Hp Hpn]; [rewrite elem_of_app, elem_of_cons; tauto|].
  destruct (Z.eqb_spec p 0); [lia|].
  destruct (kmemset_at_spec m p 0 size) as (m' & -> & Hm'); [lia..|]. simpl.
  exists p, h', m'. split_and!; [done|done|]. right. by exists bs1, bs2, n.
Qed.

(** A request within a block of 2^32 bytes is rounded up to zero: [kmalloc]
    treats it as a request for no bytes, which it serves. *)
Theorem kmalloc_wraps h size :
  2 ^ 32 - OS_HEAP_BLOCK_SIZE < size < 2 ^ 32 -> kmalloc h size = kmalloc h 0.
Proof.
  intros Hs. unfold kmalloc.
  enough (E : align_address_to_upper size OS_HEAP_BLOCK_SIZE
              = align_address_to_upper 0 OS_HEAP_BLOCK_SIZE) by (rewrite E; reflexivity).
  unfold align_address_to_upper, OS_HEAP_BLOCK_SIZE in *.
  assert (Hm : size mod 4096 = size - (2 ^ 32 - 4096)).
  { symmetry. apply (Z.mod_unique_pos _ _ (2 ^ 20 - 1)); lia. }
  rewrite Hm. destruct (Z.eqb_spec (size - (2 ^ 32 - 4096)) 0); [lia|]. simpl.
  replace (size + (4096 - (size - (2 ^ 32 - 4096)))) with (2 ^ 32) by lia. reflexivity.
Qed.

(** ** Witnesses *)
Definition boot_heap : heap := default empty_heap (k_mm_init empty_heap).

Definition boot_malloc (s : Z) : heap :=
  match __kmalloc boot_heap s with Some (_, h) => h | None => boot_heap end.


Lemma kzalloc_correct_witness :
  exists p h m, kzalloc demo ∅ 100 = Some (p, h, m) /\ kmalloc demo 100 = Some (p, h).
Proof.
  destruct (kzalloc_correct demo ∅ [] 100) as (p & h & m & E1 & E2 & _); [|lia|concrete|].
  - exists [demo_chunk], [c_addr demo_chunk]. split; [exact demo_repr|reflexivity].
  - exists p, h, m. split; [exact E1|exact E2].
Defined.

Lemma kmalloc_wraps_witness : kmalloc demo (2 ^ 32 - 1) = kmalloc demo 0.
Proof. apply (kmalloc_wraps demo (2 ^ 32 - 1)). concrete. Defined.
