(* ===== verification/Process.v ===== *)
(** * The task scheduler of src/src/kernel/process.{h,c}

    [TASKCTL] and its operations.  A [TASK *] is an index into [tasks0], [None]
    being the null pointer.  An operation returns [None] when it follows a null
    pointer or leaves an array.  [_farjmp] hands the processor to another task;
    an operation that may jump returns the segment selector it jumps to. *)
From Stdlib Require Import ZArith Lia.
From stdpp Require Import base option list numbers.
From S2P Require Import Prelude.

Set Default Proof Using "Type".

(** ** Constants of src/src/config.h and process.h *)
Definition OS_MPROCESS_TASK_MAX : Z := 1000.
Definition OS_MPROCESS_TSS_GDT_INDEX_START : Z := 3.
Definition OS_MPROCESS_TASKLEVELS_MAX : Z := 10.
Definition OS_MPROCESS_TASKLEVEL_TASKS_MAX : Z := 100.
Definition MPROCESS_FLAGS_FREE : Z := 0.
Definition MPROCESS_FLAGS_ALLOCATED : Z := 1.
Definition MPROCESS_FLAGS_RUNNING : Z := 2.

(** ** Data *)
Record TSS32 := mkTSS32 {
  tss_link : Z; tss_esp0 : Z; tss_ss0 : Z; tss_esp1 : Z; tss_ss1 : Z; tss_esp2 : Z; tss_ss2 : Z;
  tss_cr3 : Z; tss_eip : Z; tss_eflags : Z; tss_eax : Z; tss_ecx : Z; tss_edx : Z; tss_ebx : Z;
  tss_esp : Z; tss_ebp : Z; tss_esi : Z; tss_edi : Z;
  tss_es : Z; tss_cs : Z; tss_ss : Z; tss_ds : Z; tss_fs : Z; tss_gs : Z;
  tss_ldtr : Z; tss_iopb : Z; tss_ssp : Z
}.

Record TASK := mkTASK {
  t_gdtSegmentSelector : Z;
  t_flags : Z;
  t_priority : Z;
  t_level : Z;
  t_tss : TSS32
}.

Record TASKLEVEL := mkTASKLEVEL {
  tl_running : Z;
  tl_now : Z;
  tl_tasks : list (option Z)
}.

Record TASKCTL := mkTASKCTL {
  now_lv : Z;
  lv_change : bool;
  tc_level : list TASKLEVEL;
  tasks0 : list TASK
}.

Definition set_flags (t : TASK) (f : Z) : TASK :=
  mkTASK (t_gdtSegmentSelector t) f (t_priority t) (t_level t) (t_tss t).
Definition set_priority (t : TASK) (p : Z) : TASK :=
  mkTASK (t_gdtSegmentSelector t) (t_flags t) p (t_level t) (t_tss t).
Definition set_level (t : TASK) (l : Z) : TASK :=
  mkTASK (t_gdtSegmentSelector t) (t_flags t) (t_priority t) l (t_tss t).
Definition set_tss (t : TASK) (s : TSS32) : TASK :=
  mkTASK (t_gdtSegmentSelector t) (t_flags t) (t_priority t) (t_level t) s.

(** Assignments through a task pointer, a level pointer, and to [lv_change]. *)
Definition upd_task (tc : TASKCTL) (t : Z) (f : TASK -> TASK) : option TASKCTL :=
  task ← (tasks0 tc)$[t];
  ts ← (tasks0 tc)$[t := f task];
  Some (mkTASKCTL (now_lv tc) (lv_change tc) (tc_level tc) ts).

Definition put_level (tc : TASKCTL) (l : Z) (tl : TASKLEVEL) : option TASKCTL :=
  ls ← (tc_level tc)$[l := tl];
  Some (mkTASKCTL (now_lv tc) (lv_change tc) ls (tasks0 tc)).

Definition set_lv_change (tc : TASKCTL) (b : bool) : TASKCTL :=
  mkTASKCTL (now_lv tc) b (tc_level tc) (tasks0 tc).

(** ** Operations *)
Definition alloc_tss (s : TSS32) : TSS32 :=
  {| tss_link := tss_link s; tss_esp0 := tss_esp0 s; tss_ss0 := tss_ss0 s; tss_esp1 := tss_esp1 s;
     tss_ss1 := tss_ss1 s; tss_esp2 := tss_esp2 s; tss_ss2 := tss_ss2 s; tss_cr3 := tss_cr3 s;
     tss_eip := tss_eip s; tss_eflags := 0x00000202; tss_eax := 0; tss_ecx := 0; tss_edx := 0;
     tss_ebx := 0; tss_esp := tss_esp s; tss_ebp := 0; tss_esi := 0; tss_edi := 0; tss_es := 0;
     tss_cs := tss_cs s; tss_ss := tss_ss s; tss_ds := 0; tss_fs := 0; tss_gs := 0;
     tss_ldtr := 0; tss_iopb := 0x40000000; tss_ssp := tss_ssp s |}.

Definition alloc_task (t : TASK) : TASK :=
  set_tss (set_priority (set_flags t MPROCESS_FLAGS_ALLOCATED) 2) (alloc_tss (t_tss t)).

Definition mprocess_task_alloc (tc : TASKCTL) : option (option Z * TASKCTL) :=
  r ← loop_until (Z.to_nat OS_MPROCESS_TASK_MAX) 0 (fun i tc =>
        task ← (tasks0 tc)$[i];
        if t_flags task =? MPROCESS_FLAGS_FREE then
          tc ← upd_task tc i alloc_task; Some (Return tc i)
        else Some (Continue tc)) tc;
  match r with
  | Return tc i => Some (Some i, tc)
  | Continue tc | Break tc => Some (None, tc)
  end.

Definition is_task (p : option Z) (task : Z) : bool := bool_decide (p = Some task).

Definition __mprocess_task_add (tc : TASKCTL) (task : Z) : option TASKCTL :=
  t ← (tasks0 tc)$[task];
  tl ← (tc_level tc)$[t_level t];
  r ← loop_until (Z.to_nat (tl_running tl)) 0 (fun i s =>
        p ← (tl_tasks tl)$[i];
        if is_task p task then Some (Return s tt) else Some (Continue s)) tt;
  match r with
  | Return _ _ => Some tc
  | Continue _ | Break _ =>
      ts ← (tl_tasks tl)$[tl_running tl := Some task];
      tc ← put_level tc (t_level t) (mkTASKLEVEL (tl_running tl + 1) (tl_now tl) ts);
      upd_task tc task (fun t => set_flags t MPROCESS_FLAGS_RUNNING)
  end.

(** The index of [task] among the first [n] entries, [n] if it is not there. *)
Definition find_task (ts : list (option Z)) (n : Z) (task : Z) : option Z :=
  r ← loop_until (R := unit) (Z.to_nat n) 0 (fun i s =>
        p ← ts$[i];
        if is_task p task then Some (Break i) else Some (Continue (i + 1))) 0;
  match r with
  | Continue i | Break i | Return i _ => Some i
  end.

Definition mprocess_task_remove (tc : TASKCTL) (task : option Z) : option TASKCTL :=
  match task with
  | None => Some tc
  | Some task =>
      t ← (tasks0 tc)$[task];
      tl ← (tc_level tc)$[t_level t];
      i ← find_task (tl_tasks tl) (tl_running tl) task;
      let running := tl_running tl - 1 in
      let now := if i <? tl_now tl then tl_now tl - 1 else tl_now tl in
      let now := if now >=? running then 0 else now in
      tc ← upd_task tc task (fun t => set_flags t MPROCESS_FLAGS_ALLOCATED);
      ts ← for_range i running (fun i ts => p ← ts$[i + 1]; ts$[i := p]) (tl_tasks tl);
      tc ← put_level tc (t_level t) (mkTASKLEVEL running now ts);
      Some (if running =? 0 then set_lv_change tc true else tc)
  end.

Definition mprocess_task_run (tc : TASKCTL) (task : option Z) (level priority : Z)
  : option TASKCTL :=
  match task with
  | None => Some tc
  | Some i =>
      t ← (tasks0 tc)$[i];
      let level := if level <? 0 then t_level t else level in
      tc ← (if priority >? 0 then upd_task tc i (fun t => set_priority t priority) else Some tc);
      tc ← (if (t_flags t =? MPROCESS_FLAGS_RUNNING) && negb (t_level t =? level)
            then mprocess_task_remove tc task else Some tc);
      t ← (tasks0 tc)$[i];
      tc ← (if t_flags t =? MPROCESS_FLAGS_ALLOCATED
            then tc ← upd_task tc i (fun t => set_level t level); __mprocess_task_add tc i
            else Some tc);
      Some (set_lv_change tc true)
  end.

Definition __mprocess_task_update_currentlv (tc : TASKCTL) : option TASKCTL :=
  r ← loop_until (R := unit) (Z.to_nat OS_MPROCESS_TASKLEVELS_MAX) 0 (fun i s =>
        tl ← (tc_level tc)$[i];
        if tl_running tl >? 0 then Some (Break i) else Some (Continue (i + 1))) 0;
  let i := match r with Continue i | Break i | Return i _ => i end in
  let i := if i >=? OS_MPROCESS_TASKLEVELS_MAX then OS_MPROCESS_TASKLEVELS_MAX - 1 else i in
  Some (mkTASKCTL i false (tc_level tc) (tasks0 tc)).

Definition mprocess_task_get_current (tc : TASKCTL) : option (option Z) :=
  tl ← (tc_level tc)$[now_lv tc];
  (tl_tasks tl)$[tl_now tl].

(** [taskNext->gdtSegmentSelector] *)
Definition selector (tc : TASKCTL) (task : option Z) : option Z :=
  i ← task; t_gdtSegmentSelector <$> (tasks0 tc)$[i].

Definition mprocess_task_sleep (tc : TASKCTL) (task : option Z) : option (TASKCTL * option Z) :=
  match task with
  | None => Some (tc, None)
  | Some i =>
      t ← (tasks0 tc)$[i];
      if negb (t_flags t =? MPROCESS_FLAGS_RUNNING) then Some (tc, None)
      else
        taskCurrent ← mprocess_task_get_current tc;
        tc ← mprocess_task_remove tc task;
        if bool_decide (task = taskCurrent) then
          tc ← __mprocess_task_update_currentlv tc;
          taskCurrent ← mprocess_task_get_current tc;
          sel ← selector tc taskCurrent;
          Some (tc, Some sel)
        else Some (tc, None)
  end.

(** The part of [mprocess_task_autoswitch] that chooses the next task: the task
    control block after it, the task it leaves and the task it goes to.  The
    caller then arms the timer with the priority of the next task. *)
Definition autoswitch_next (tc : TASKCTL) : option (TASKCTL * option Z * option Z) :=
  tl ← (tc_level tc)$[now_lv tc];
  taskCurrent ← (tl_tasks tl)$[tl_now tl];
  let now := tl_now tl + 1 in
  let now := if now =? tl_running tl then 0 else now in
  tc ← put_level tc (now_lv tc) (mkTASKLEVEL (tl_running tl) now (tl_tasks tl));
  tc ← (if lv_change tc then __mprocess_task_update_currentlv tc else Some tc);
  taskNext ← mprocess_task_get_current tc;
  Some (tc, taskCurrent, taskNext).

Arguments upd_task : simpl never.
Arguments put_level : simpl never.
Arguments find_task : simpl never.
Arguments __mprocess_task_add : simpl never.
Arguments mprocess_task_remove : simpl never.
Arguments mprocess_task_run : simpl never.
Arguments mprocess_task_sleep : simpl never.
Arguments mprocess_task_get_current : simpl never.
Arguments __mprocess_task_update_currentlv : simpl never.
Arguments autoswitch_next : simpl never.

(** ** The control block that [mprocess_init] starts from: zeroed memory, with the
    flags and the segment selectors of the first loop. *)
Definition tss_zero : TSS32 :=
  mkTSS32 0 0 0 0 0 0 0 0 0 0 0 0 0 0 0 0 0 0 0 0 0 0 0 0 0 0 0.

Definition task_init (i : Z) : TASK :=
  mkTASK ((OS_MPROCESS_TSS_GDT_INDEX_START + i) * 8) MPROCESS_FLAGS_FREE 0 0 tss_zero.

Definition taskctl_init : TASKCTL :=
  mkTASKCTL 0 false
    (replicate (Z.to_nat OS_MPROCESS_TASKLEVELS_MAX)
       (mkTASKLEVEL 0 0 (replicate (Z.to_nat OS_MPROCESS_TASKLEVEL_TASKS_MAX) None)))
    (task_init <$> seqZ 0 OS_MPROCESS_TASK_MAX).
