(* ===== verification/ProcessInv.v ===== *)
(** * The invariant of the scheduler

    [sched_repr tc qs] relates the task control block of [Process] to the list
    of its run queues, one per level: the tasks that are running, in the order of
    the level's array.  Every operation is shown to act on the queues as the
    scheduler means it to: a task is appended, taken out, or the turn passes on. *)
From Stdlib Require Import ZArith Lia.
From stdpp Require Import base option list numbers.
From S2P Require Import Prelude Process.

Set Default Proof Using "Type".

(** ** One level *)
Record tl_repr (tl : TASKLEVEL) (q : list Z) : Prop := {
  tr_running : tl_running tl = Z.of_nat (length q);
  tr_cap : length (tl_tasks tl) = Z.to_nat OS_MPROCESS_TASKLEVEL_TASKS_MAX;
  tr_tasks : forall k t, q !! k = Some t -> tl_tasks tl !! k = Some (Some t);
  tr_now : 0 <= tl_now tl < Z.max 1 (Z.of_nat (length q))
}.

Lemma tl_repr_length tl q :
  tl_repr tl q -> (length q <= Z.to_nat OS_MPROCESS_TASKLEVEL_TASKS_MAX)%nat.
Proof.
  intros H. destruct q as [|x q] using rev_ind; [simpl; lia|].
  rewrite length_app, <- (tr_cap _ _ H). simpl.
  assert (Hl : (q ++ [x]) !! length q = Some x) by (apply list_lookup_middle; done).
  apply (tr_tasks _ _ H), lookup_lt_Some in Hl. lia.
Qed.

Lemma is_task_spec (t u : Z) : is_task (Some u) t = bool_decide (u = t).
Proof. unfold is_task. repeat case_bool_decide; congruence. Qed.

(** The searches through the first [running] entries. *)
Lemma scan_step {A} (c d : A) tl q k t u :
  tl_repr tl q -> q !! k = Some u ->
  (p ← (tl_tasks tl)$[Z.of_nat k]; if is_task p t then Some c else Some d)
  = Some (if bool_decide (u = t) then c else d).
Proof.
  intros H Hk. rewrite lookupZ_nat, (tr_tasks _ _ H _ _ Hk). simpl. rewrite is_task_spec.
  by case_bool_decide.
Qed.

Lemma find_task_absent tl q t :
  tl_repr tl q -> t ∉ q -> find_task (tl_tasks tl) (tl_running tl) t = Some (Z.of_nat (length q)).
Proof.
  intros H Ht. unfold find_task. rewrite (tr_running _ _ H), Nat2Z.id.
  rewrite (loop_until_all _ (fun i => i) _ 0); [simpl; f_equal; lia|].
  intros i Hi. destruct (lookup_lt_is_Some_2 q (Z.to_nat i)) as [u Hu]; [lia|].
  replace i with (Z.of_nat (Z.to_nat i)) at 1 by lia. rewrite (scan_step _ _ _ _ _ _ _ H Hu).
  rewrite bool_decide_eq_false_2; [done|]. intros ->. by eapply Ht, list_elem_of_lookup_2.
Qed.

Lemma find_task_at tl q1 q2 t :
  tl_repr tl (q1 ++ t :: q2) -> t ∉ q1 ->
  find_task (tl_tasks tl) (tl_running tl) t = Some (Z.of_nat (length q1)).
Proof.
  intros H Ht. unfold find_task. rewrite (tr_running _ _ H), Nat2Z.id.
  rewrite (loop_until_stop _ (fun i => i) _ (length q1) 0 (Break (Z.of_nat (length q1))));
    [done|rewrite length_app; simpl; lia| | |done].
  - intros i Hi. destruct (lookup_lt_is_Some_2 q1 (Z.to_nat i)) as [u Hu]; [lia|].
    replace i with (Z.of_nat (Z.to_nat i)) at 1 by lia.
    rewrite (scan_step _ _ _ (q1 ++ t :: q2) _ _ u H) by (by apply lookup_app_l_Some).
    rewrite bool_decide_eq_false_2; [done|]. intros ->. by eapply Ht, list_elem_of_lookup_2.
  - rewrite Z.add_0_l. rewrite (scan_step _ _ _ _ _ _ t H) by (by apply list_lookup_middle).
    by rewrite bool_decide_eq_true_2.
Qed.

(** The loop that closes the gap left by a removed entry. *)
Lemma shift_loop (a : list (option Z)) (i n : nat) :
  (i <= n)%nat -> (n < length a)%nat ->
  exists a', for_range (Z.of_nat i) (Z.of_nat n) (fun i ts => p ← ts$[i + 1]; ts$[i := p]) a = Some a'
    /\ length a' = length a
    /\ forall k, a' !! k = if decide (i <= k < n)%nat then a !! S k else a !! k.
Proof.
  intros Hin Hn.
  set (I := fun (j : Z) (a' : list (option Z)) => length a' = length a
    /\ forall k, a' !! k = if decide ((i <= k)%nat /\ Z.of_nat k < j) then a !! S k else a !! k).
  destruct (for_range_inv I (Z.of_nat i) (Z.of_nat n)
    (fun i ts => p ← ts$[i + 1]; ts$[i := p]) a) as (a' & E & Hl & Ha).
  - lia.
  - split; [done|]. intros k. by rewrite decide_False by lia.
  - intros j a1 Hj [Hl Ha].
    assert (Hx : a1 !! S (Z.to_nat j) = a !! S (Z.to_nat j)) by (by rewrite Ha, decide_False by lia).
    destruct (lookup_lt_is_Some_2 a (S (Z.to_nat j))) as [x Hxa]; [lia|].
    replace (j + 1) with (Z.of_nat (S (Z.to_nat j))) by lia.
    rewrite lookupZ_nat, Hx, Hxa. simpl. rewrite updateZ_in by lia.
    eexists. split; [done|]. split; [by rewrite length_insert|]. intros k.
    destruct (decide (k = Z.to_nat j)) as [->|Hne].
    + rewrite list_lookup_insert_eq by lia. rewrite decide_True by lia. done.
    + rewrite list_lookup_insert_ne by done. rewrite Ha. repeat case_decide; try done; lia.
  - exists a'. split; [done|]. split; [done|]. intros k. rewrite Ha.
    repeat case_decide; try done; lia.
Qed.

(** Adding to and removing from one level. *)
Lemma tl_repr_add tl q t :
  tl_repr tl q -> (length q < Z.to_nat OS_MPROCESS_TASKLEVEL_TASKS_MAX)%nat ->
  tl_repr (mkTASKLEVEL (tl_running tl + 1) (tl_now tl) (<[length q := Some t]> (tl_tasks tl)))
    (q ++ [t]).
Proof.
  intros H Hl. constructor; simpl.
  - rewrite (tr_running _ _ H), length_app. simpl. lia.
  - rewrite length_insert. apply H.
  - intros k u [Hu|[Hk Hu]]%lookup_app_Some.
    + rewrite list_lookup_insert_ne by (apply lookup_lt_Some in Hu; lia). by apply H.
    + apply list_lookup_singleton_Some in Hu as [Hz ->].
      replace k with (length q) by lia. apply list_lookup_insert_eq. by rewrite (tr_cap _ _ H).
  - rewrite length_app. simpl. pose proof (tr_now _ _ H). lia.
Qed.

(** The turn after the entry [i] of [n] is taken out. *)
Definition now_after (now i n : Z) : Z :=
  let now := if i <? now then now - 1 else now in
  if now >=? n then 0 else now.

Lemma tl_repr_remove tl q1 t q2 a' :
  let q := q1 ++ t :: q2 in
  tl_repr tl q -> length a' = length (tl_tasks tl) ->
  (forall k, a' !! k = if decide (length q1 <= k < length (q1 ++ q2))%nat
                       then tl_tasks tl !! S k else tl_tasks tl !! k) ->
  tl_repr (mkTASKLEVEL (tl_running tl - 1)
             (now_after (tl_now tl) (Z.of_nat (length q1)) (tl_running tl - 1)) a') (q1 ++ q2).
Proof.
  intros q H Hl Ha. pose proof (tr_running _ _ H) as Hr. pose proof (tr_now _ _ H) as Hn.
  unfold q in *. rewrite length_app in Hr, Hn. simpl in Hr, Hn. constructor; simpl.
  - rewrite Hr, length_app. lia.
  - rewrite Hl. apply H.
  - intros k u Hk. pose proof (lookup_lt_Some _ _ _ Hk). rewrite Ha. case_decide as Hd.
    + apply (tr_tasks _ _ H). rewrite lookup_app_r in Hk |- * by lia.
      replace (S k - length q1)%nat with (S (k - length q1)) by lia. done.
    + apply (tr_tasks _ _ H). rewrite lookup_app_l in Hk |- * by lia. done.
  - unfold now_after. rewrite Hr, length_app.
    destruct (Z.ltb_spec (Z.of_nat (length q1)) (tl_now tl));
      match goal with |- context [?x >=? ?y] => rewrite (Z.geb_leb x y); destruct (Z.leb_spec y x) end;
      lia.
Qed.

(** Whose turn it is does not change when another task is taken out. *)
Lemma now_after_current (q1 q2 : list Z) t now c :
  t ∉ q1 ++ q2 -> (q1 ++ t :: q2) !! Z.to_nat now = Some c -> c <> t -> 0 <= now ->
  (q1 ++ q2) !! Z.to_nat (now_after now (Z.of_nat (length q1)) (Z.of_nat (length (q1 ++ q2))))
  = Some c.
Proof.
  intros Ht Hc Hne H0. unfold now_after.
  assert (Hlt : (Z.to_nat now < length (q1 ++ t :: q2))%nat) by (by eapply lookup_lt_Some).
  rewrite length_app in Hlt |- *. simpl in Hlt.
  destruct (Z.ltb_spec (Z.of_nat (length q1)) now) as [Hl|Hl].
  - rewrite Z.geb_leb. destruct (Z.leb_spec (Z.of_nat (length q1 + length q2)) (now - 1)); [lia|].
    rewrite lookup_app_r in Hc by lia. rewrite lookup_app_r by lia.
    replace (Z.to_nat now - length q1)%nat with (S (Z.to_nat (now - 1) - length q1)) in Hc by lia.
    done.
  - assert (Z.to_nat now <> length q1).
    { intros E. rewrite E, list_lookup_middle in Hc by done. congruence. }
    rewrite Z.geb_leb. destruct (Z.leb_spec (Z.of_nat (length q1 + length q2)) now); [lia|].
    rewrite lookup_app_l in Hc by lia. by rewrite lookup_app_l by lia.
Qed.

(** ** The task control block *)
Record sched_core (tc : TASKCTL) (qs : list (list Z)) : Prop := {
  sc_levels : Forall2 tl_repr (tc_level tc) qs;
  sc_nlevels : length qs = Z.to_nat OS_MPROCESS_TASKLEVELS_MAX;
  sc_ntasks : length (tasks0 tc) = Z.to_nat OS_MPROCESS_TASK_MAX;
  sc_queued : forall l q t, qs !! l = Some q -> t ∈ q ->
    exists task, (tasks0 tc)$[t] = Some task /\ t_flags task = MPROCESS_FLAGS_RUNNING
      /\ t_level task = Z.of_nat l;
  sc_running : forall t task, (tasks0 tc)$[t] = Some task ->
    t_flags task = MPROCESS_FLAGS_RUNNING ->
    exists q, qs !! Z.to_nat (t_level task) = Some q /\ t ∈ q;
  sc_nodup : forall l q, qs !! l = Some q -> NoDup q;
  sc_level : forall t task, (tasks0 tc)$[t] = Some task ->
    0 <= t_level task < OS_MPROCESS_TASKLEVELS_MAX;
  sc_now_lv : 0 <= now_lv tc < OS_MPROCESS_TASKLEVELS_MAX
}.

(** [l] is the highest level (0 is the highest) with a task to run, or the last
    level when there is none. *)
Definition top_level (qs : list (list Z)) (l : Z) : Prop :=
  (forall k, (k < Z.to_nat l)%nat -> qs !! k = Some [])
  /\ exists q, qs !! Z.to_nat l = Some q /\ (q <> [] \/ l = OS_MPROCESS_TASKLEVELS_MAX - 1).

(** The current level is the right one unless a change is pending. *)
Definition sched_repr (tc : TASKCTL) (qs : list (list Z)) : Prop :=
  sched_core tc qs /\ (lv_change tc = false -> top_level qs (now_lv tc)).

Lemma upd_task_eq tc t task f :
  (tasks0 tc)$[t] = Some task ->
  upd_task tc t f = Some (mkTASKCTL (now_lv tc) (lv_change tc) (tc_level tc)
                            (<[Z.to_nat t := f task]> (tasks0 tc))).
Proof.
  intros H. unfold upd_task. rewrite H. simpl. by rewrite updateZ_in by (by eapply lookupZ_lt).
Qed.

Lemma lookup_upd_task (l : list TASK) t task task' u :
  l$[t] = Some task ->
  (<[Z.to_nat t := task']> l)$[u] = if decide (t = u) then Some task' else l$[u].
Proof. intros H. apply lookupZ_insert. by eapply lookupZ_lt. Qed.

Section levels.
Context (tc : TASKCTL) (qs : list (list Z)) (Hc : sched_core tc qs).

Lemma queue_of l : 0 <= l < OS_MPROCESS_TASKLEVELS_MAX -> exists q, qs !! Z.to_nat l = Some q.
Proof using Hc.
  intros Hl. apply lookup_lt_is_Some_2. rewrite (sc_nlevels _ _ Hc). lia.
Qed.

Lemma level_of l q :
  qs !! Z.to_nat l = Some q -> 0 <= l -> exists tl, (tc_level tc)$[l] = Some tl /\ tl_repr tl q.
Proof using Hc.
  intros Hq H0. destruct (Forall2_lookup_r _ _ _ _ _ (sc_levels _ _ Hc) Hq) as (tl & Htl & R).
  exists tl. split; [|done]. by apply lookupZ_Some.
Qed.

Lemma put_level_eq l q tl :
  qs !! Z.to_nat l = Some q -> 0 <= l ->
  put_level tc l tl = Some (mkTASKCTL (now_lv tc) (lv_change tc)
                              (<[Z.to_nat l := tl]> (tc_level tc)) (tasks0 tc)).
Proof using Hc.
  intros Hq H0. unfold put_level. rewrite updateZ_in; [done|]. split; [done|].
  rewrite (Forall2_length (sc_levels _ _ Hc)). apply lookup_lt_Some in Hq. lia.
Qed.

(** Tasks of different levels are different. *)
Lemma queued_level l q t task :
  qs !! l = Some q -> t ∈ q -> (tasks0 tc)$[t] = Some task ->
  t_flags task = MPROCESS_FLAGS_RUNNING /\ t_level task = Z.of_nat l.
Proof using Hc.
  intros Hq Ht E. destruct (sc_queued _ _ Hc _ _ _ Hq Ht) as (task' & E' & ? & ?).
  rewrite E in E'. by injection E' as <-.
Qed.

(** Changing what is neither the flags nor the level of a task. *)
Lemma core_set_task t task task' :
  (tasks0 tc)$[t] = Some task -> t_flags task' = t_flags task ->
  t_level task' = t_level task ->
  sched_core (mkTASKCTL (now_lv tc) (lv_change tc) (tc_level tc)
                (<[Z.to_nat t := task']> (tasks0 tc))) qs.
Proof using Hc.
  intros E Hf Hl. constructor; simpl; try apply Hc.
  - rewrite length_insert. apply Hc.
  - intros l q u Hq Hu. rewrite (lookup_upd_task _ _ task) by done.
    destruct (sc_queued _ _ Hc _ _ _ Hq Hu) as (task1 & E1 & F1 & L1).
    case_decide as Hd; [|by exists task1]. subst u. rewrite E in E1. injection E1 as ->.
    exists task'. by rewrite Hf, Hl.
  - intros u tu. rewrite (lookup_upd_task _ _ task) by done. case_decide as Hd; [|by apply Hc].
    intros [= <-] Hr. subst u. rewrite Hl. apply (sc_running _ _ Hc _ _ E). by rewrite <- Hf.
  - intros u tu. rewrite (lookup_upd_task _ _ task) by done. case_decide; [|by apply Hc].
    intros [= <-]. rewrite Hl. by eapply (sc_level _ _ Hc).
Qed.

(** Changing the level of a task that is not running, or allocating it. *)
Lemma core_idle_task t task task' :
  (tasks0 tc)$[t] = Some task -> t_flags task <> MPROCESS_FLAGS_RUNNING ->
  t_flags task' <> MPROCESS_FLAGS_RUNNING -> 0 <= t_level task' < OS_MPROCESS_TASKLEVELS_MAX ->
  sched_core (mkTASKCTL (now_lv tc) (lv_change tc) (tc_level tc)
                (<[Z.to_nat t := task']> (tasks0 tc))) qs.
Proof using Hc.
  intros E Hf Hf' Hl. constructor; simpl; try apply Hc.
  - rewrite length_insert. apply Hc.
  - intros l q u Hq Hu. rewrite (lookup_upd_task _ _ task) by done.
    case_decide as Hd; [|by eapply (sc_queued _ _ Hc)]. subst u.
    destruct (queued_level _ _ _ _ Hq Hu E). done.
  - intros u tu. rewrite (lookup_upd_task _ _ task) by done. case_decide; [|by apply Hc].
    by intros [= <-].
  - intros u tu. rewrite (lookup_upd_task _ _ task) by done. case_decide; [|by apply Hc].
    by intros [= <-].
Qed.
End levels.

(** ** Operations on the queues *)
Lemma Forall2_insert_r (ls : list TASKLEVEL) (qs : list (list Z)) l tl q :
  Forall2 tl_repr ls qs -> tl_repr tl q -> Forall2 tl_repr (<[l := tl]> ls) (<[l := q]> qs).
Proof. intros. by apply Forall2_insert. Qed.

Lemma lookup_insert_queue (qs : list (list Z)) l k q q' :
  <[l := q]> qs !! k = Some q' ->
  (k = l /\ q' = q) \/ (k <> l /\ qs !! k = Some q').
Proof. intros [[-> [-> _]]|[? ?]]%list_lookup_insert_Some; auto. Qed.

Section add.
Context (tc : TASKCTL) (qs : list (list Z)) (Hc : sched_core tc qs).
Context (t : Z) (task : TASK) (q : list Z).
Context (Et : (tasks0 tc)$[t] = Some task) (Hf : t_flags task <> MPROCESS_FLAGS_RUNNING).
Context (Eq : qs !! Z.to_nat (t_level task) = Some q).

Lemma idle_not_queued l q' : qs !! l = Some q' -> t ∉ q'.
Proof using Hc Et Hf. intros Hq Ht. by destruct (queued_level _ _ Hc _ _ _ _ Hq Ht Et). Qed.

Context (Hcap : (length q < Z.to_nat OS_MPROCESS_TASKLEVEL_TASKS_MAX)%nat).

Lemma add_core :
  exists tc', __mprocess_task_add tc t = Some tc'
    /\ sched_core tc' (<[Z.to_nat (t_level task) := q ++ [t]]> qs)
    /\ now_lv tc' = now_lv tc /\ lv_change tc' = lv_change tc
    /\ tasks0 tc' = <[Z.to_nat t := set_flags task MPROCESS_FLAGS_RUNNING]> (tasks0 tc).
Proof using Hc Et Hf Eq Hcap.
  pose proof (sc_level _ _ Hc _ _ Et) as Hl. pose proof (idle_not_queued _ _ Eq) as Ht.
  destruct (level_of _ _ Hc _ _ Eq) as (tl & Etl & R); [lia|].
  unfold __mprocess_task_add. rewrite Et. simpl. rewrite Etl. simpl.
  rewrite (tr_running _ _ R), Nat2Z.id.
  rewrite (loop_until_all _ (fun _ => tt) _ 0).
  2:{ intros i Hi. destruct (lookup_lt_is_Some_2 q (Z.to_nat i)) as [u Hu]; [lia|].
      replace i with (Z.of_nat (Z.to_nat i)) at 1 by lia.
      rewrite (scan_step _ _ _ _ _ _ _ R Hu).
      rewrite bool_decide_eq_false_2; [done|]. intros ->. by eapply Ht, list_elem_of_lookup_2. }
  simpl. rewrite updateZ_nat by (by rewrite (tr_cap _ _ R)). simpl.
  rewrite (put_level_eq _ _ Hc _ _ _ Eq) by lia. simpl.
  rewrite (upd_task_eq _ _ task) by done. eexists. split; [done|]. split; [|done].
  pose proof (tl_repr_add _ _ t R Hcap) as R'. rewrite (tr_running _ _ R) in R'.
  constructor; simpl; try apply Hc.
  - by apply Forall2_insert_r; [apply Hc|].
  - rewrite length_insert. apply Hc.
  - rewrite length_insert. apply Hc.
  - intros l q' u [[-> ->]|[Hne Hq]]%lookup_insert_queue Hu;
      rewrite (lookup_upd_task _ _ task) by done.
    + apply elem_of_app in Hu as [Hu| ->%list_elem_of_singleton].
      * rewrite decide_False by (intros ->; done). by eapply (sc_queued _ _ Hc).
      * rewrite decide_True by done. eexists. split; [done|]. split; [done|]. simpl. lia.
    + rewrite decide_False; [by eapply (sc_queued _ _ Hc)|]. intros <-. by eapply idle_not_queued.
  - intros u tu. rewrite (lookup_upd_task _ _ task) by done. case_decide as Hd.
    + intros [= <-] _. subst u. simpl. exists (q ++ [t]). split.
      * apply list_lookup_insert_eq. by eapply lookup_lt_Some.
      * rewrite elem_of_app, list_elem_of_singleton. tauto.
    + intros Eu Hr. destruct (sc_running _ _ Hc _ _ Eu Hr) as (q' & Hq' & Hu).
      destruct (decide (Z.to_nat (t_level tu) = Z.to_nat (t_level task))) as [El|El].
      * rewrite El in *. exists (q ++ [t]). split.
        -- apply list_lookup_insert_eq. by eapply lookup_lt_Some.
        -- assert (q' = q) as -> by congruence. rewrite elem_of_app. tauto.
      * exists q'. by rewrite list_lookup_insert_ne.
  - intros l q' [[-> ->]|[_ Hq]]%lookup_insert_queue; [|by eapply Hc].
    apply list.NoDup_app. split_and!; [by eapply (sc_nodup _ _ Hc)| |apply NoDup_singleton].
    intros u Hu ->%list_elem_of_singleton. done.
  - intros u tu. rewrite (lookup_upd_task _ _ task) by done. case_decide; [|by apply Hc].
    by intros [= <-].
Qed.
End add.

Section remove.
Context (tc : TASKCTL) (qs : list (list Z)) (Hc : sched_core tc qs).
Context (t : Z) (task : TASK) (q1 q2 : list Z).
Context (Et : (tasks0 tc)$[t] = Some task) (Hf : t_flags task = MPROCESS_FLAGS_RUNNING).
Context (Eq : qs !! Z.to_nat (t_level task) = Some (q1 ++ t :: q2)).

Let l := Z.to_nat (t_level task).

Lemma removed_nodup : NoDup (q1 ++ q2) /\ t ∉ q1 ++ q2.
Proof using Hc Eq.
  pose proof (sc_nodup _ _ Hc _ _ Eq) as ND. rewrite <- Permutation_middle in ND.
  apply list.NoDup_cons in ND. tauto.
Qed.

Lemma not_elsewhere k q' : qs !! k = Some q' -> t ∈ q' -> k = l.
Proof using Hc Et.
  intros Hq Ht. destruct (queued_level _ _ Hc _ _ _ _ Hq Ht Et) as [_ E].
  unfold l. rewrite E. lia.
Qed.

(** The queues after the removal, whatever the level's turn is. *)
Lemma remove_queues tl' b :
  tl_repr tl' (q1 ++ q2) ->
  sched_core (mkTASKCTL (now_lv tc) b (<[l := tl']> (tc_level tc))
                (<[Z.to_nat t := set_flags task MPROCESS_FLAGS_ALLOCATED]> (tasks0 tc)))
    (<[l := q1 ++ q2]> qs).
Proof using Hc Et Hf Eq.
  intros R. destruct removed_nodup as [ND Ht]. constructor; simpl; try apply Hc.
  - by apply Forall2_insert_r; [apply Hc|].
  - rewrite length_insert. apply Hc.
  - rewrite length_insert. apply Hc.
  - intros k q' u [[-> ->]|[Hne Hq]]%lookup_insert_queue Hu;
      rewrite (lookup_upd_task _ _ task) by done.
    + rewrite decide_False by (intros ->; done). eapply (sc_queued _ _ Hc); [exact Eq|].
      rewrite elem_of_app, elem_of_cons. rewrite elem_of_app in Hu. tauto.
    + rewrite decide_False; [by eapply (sc_queued _ _ Hc)|]. intros <-.
      by apply Hne, (not_elsewhere _ q').
  - intros u tu. rewrite (lookup_upd_task _ _ task) by done. case_decide as Hd.
    + by intros [= <-].
    + intros Eu Hr. destruct (sc_running _ _ Hc _ _ Eu Hr) as (q' & Hq' & Hu).
      destruct (decide (Z.to_nat (t_level tu) = l)) as [El|El].
      * rewrite El in *. exists (q1 ++ q2). split.
        -- apply list_lookup_insert_eq. by eapply lookup_lt_Some.
        -- assert (q' = q1 ++ t :: q2) as -> by (unfold l in *; congruence).
           rewrite elem_of_app, elem_of_cons in Hu. rewrite elem_of_app. naive_solver.
      * exists q'. by rewrite list_lookup_insert_ne.
  - intros k q' [[-> ->]|[_ Hq]]%lookup_insert_queue; [done|by eapply Hc].
  - intros u tu. rewrite (lookup_upd_task _ _ task) by done. case_decide; [|by apply Hc].
    intros [= <-]. by apply (sc_level _ _ Hc t task).
Qed.

Lemma remove_core :
  exists tc' tl a', mprocess_task_remove tc (Some t) = Some tc'
    /\ sched_core tc' (<[l := q1 ++ q2]> qs)
    /\ now_lv tc' = now_lv tc
    /\ lv_change tc' = lv_change tc || bool_decide (q1 ++ q2 = [])
    /\ tasks0 tc' = <[Z.to_nat t := set_flags task MPROCESS_FLAGS_ALLOCATED]> (tasks0 tc)
    /\ (tc_level tc) !! l = Some tl /\ tl_repr tl (q1 ++ t :: q2)
    /\ tc_level tc' = <[l := mkTASKLEVEL (tl_running tl - 1)
         (now_after (tl_now tl) (Z.of_nat (length q1)) (tl_running tl - 1)) a']> (tc_level tc).
Proof using Hc Et Hf Eq.
  pose proof (sc_level _ _ Hc _ _ Et) as Hl. destruct removed_nodup as [ND Ht].
  destruct (level_of _ _ Hc _ _ Eq) as (tl & Etl & R); [lia|].
  unfold mprocess_task_remove. rewrite Et. simpl. rewrite Etl. simpl.
  rewrite (find_task_at _ _ _ _ R) by (rewrite elem_of_app in Ht; tauto). simpl.
  rewrite (upd_task_eq _ _ task) by done. simpl.
  pose proof (tr_running _ _ R) as Hrun. rewrite length_app in Hrun. simpl in Hrun.
  replace (tl_running tl - 1) with (Z.of_nat (length (q1 ++ q2)))
    by (rewrite Hrun, length_app; lia).
  destruct (shift_loop (tl_tasks tl) (length q1) (length (q1 ++ q2))) as (a' & Es & La & Ha).
  { rewrite length_app. lia. }
  { rewrite length_app. pose proof (tl_repr_length _ _ R) as Hcap. rewrite (tr_cap _ _ R).
    rewrite length_app in Hcap. simpl in Hcap. lia. }
  rewrite Es. simpl. unfold put_level. simpl.
  rewrite updateZ_in. 2:{ split; [lia|]. rewrite (Forall2_length (sc_levels _ _ Hc)).
    apply lookup_lt_Some in Eq. lia. }
  simpl. pose proof (tl_repr_remove _ _ _ _ _ R La Ha) as R'.
  replace (tl_running tl - 1) with (Z.of_nat (length (q1 ++ q2))) in R'
    by (rewrite Hrun, length_app; lia).
  fold l. fold (now_after (tl_now tl) (Z.of_nat (length q1)) (Z.of_nat (length (q1 ++ q2)))).
  eexists _, tl, a'. split; [done|].
  assert (Hz : (Z.of_nat (length (q1 ++ q2)) =? 0) = bool_decide (q1 ++ q2 = [])).
  { by destruct (q1 ++ q2). }
  rewrite Hz. unfold set_lv_change. split_and!.
  - destruct (bool_decide _); apply (remove_queues _ _ R').
  - by destruct (bool_decide _).
  - destruct (bool_decide _); simpl; by rewrite ?orb_true_r, ?orb_false_r.
  - by destruct (bool_decide _).
  - apply lookupZ_Some in Etl. apply Etl.
  - done.
  - replace (tl_running tl - 1) with (Z.of_nat (length (q1 ++ q2)))
      by (rewrite Hrun, length_app; lia). by destruct (bool_decide _).
Qed.
End remove.

(** ** Deciding the invariant *)
Definition tl_check (tl : TASKLEVEL) (q : list Z) : bool :=
  bool_decide (tl_running tl = Z.of_nat (length q))
  && bool_decide (length (tl_tasks tl) = Z.to_nat OS_MPROCESS_TASKLEVEL_TASKS_MAX)
  && bool_decide (take (length q) (tl_tasks tl) = Some <$> q)
  && bool_decide (0 <= tl_now tl < Z.max 1 (Z.of_nat (length q))).

Definition queue_check (ts : list TASK) (l : nat) (q : list Z) : bool :=
  bool_decide (NoDup q)
  && forallb (fun t => match ts$[t] with
                       | Some task => (t_flags task =? MPROCESS_FLAGS_RUNNING)
                                      && (t_level task =? Z.of_nat l)
                       | None => false
                       end) q.

Definition task_check (qs : list (list Z)) (t : nat) (task : TASK) : bool :=
  bool_decide (0 <= t_level task < OS_MPROCESS_TASKLEVELS_MAX)
  && (negb (t_flags task =? MPROCESS_FLAGS_RUNNING)
      || match qs !! Z.to_nat (t_level task) with
         | Some q => bool_decide (Z.of_nat t ∈ q)
         | None => false
         end).

Definition sched_check (tc : TASKCTL) (qs : list (list Z)) : bool :=
  bool_decide (length (tc_level tc) = length qs)
  && forallb (fun p => tl_check p.1 p.2) (zip (tc_level tc) qs)
  && bool_decide (length qs = Z.to_nat OS_MPROCESS_TASKLEVELS_MAX)
  && bool_decide (length (tasks0 tc) = Z.to_nat OS_MPROCESS_TASK_MAX)
  && forallb id (imap (queue_check (tasks0 tc)) qs)
  && forallb id (imap (task_check qs) (tasks0 tc))
  && bool_decide (0 <= now_lv tc < OS_MPROCESS_TASKLEVELS_MAX).

Lemma forallb_imap {A} (f : nat -> A -> bool) l :
  forallb id (imap f l) = true -> forall k x, l !! k = Some x -> f k x = true.
Proof.
  intros H k x Hk. rewrite forallb_forall in H. apply (H (f k x)).
  apply list_elem_of_In, list_elem_of_lookup. exists k. by rewrite list_lookup_imap, Hk.
Qed.

Lemma tl_check_sound tl q : tl_check tl q = true -> tl_repr tl q.
Proof.
  unfold tl_check. rewrite !andb_true_iff, !bool_decide_eq_true. intros [[[H1 H2] H3] H4].
  constructor; try done. intros k t Hk.
  assert (E : take (length q) (tl_tasks tl) !! k = Some (Some t)).
  { rewrite H3, list_lookup_fmap, Hk. done. }
  by apply lookup_take_Some in E as [E _].
Qed.

Lemma sched_check_sound tc qs : sched_check tc qs = true -> sched_core tc qs.
Proof.
  unfold sched_check. rewrite !andb_true_iff, !bool_decide_eq_true.
  intros [[[[[[H1 H2] H3] H4] H5] H6] H7].
  pose proof (forallb_imap _ _ H5) as Hq. pose proof (forallb_imap _ _ H6) as Ht.
  assert (Ht' : forall t task, (tasks0 tc)$[t] = Some task ->
    task_check qs (Z.to_nat t) task = true /\ 0 <= t)
    by (intros t task [H0 Et]%lookupZ_Some; auto).
  constructor; try done.
  - apply Forall2_same_length_lookup. split; [done|]. intros k tl q Etl Eq. apply tl_check_sound.
    rewrite forallb_forall in H2. apply (H2 (tl, q)), list_elem_of_In.
    apply list_elem_of_lookup. exists k. rewrite lookup_zip_with, Etl. simpl. by rewrite Eq.
  - intros l q t Eq Hin. specialize (Hq _ _ Eq). unfold queue_check in Hq.
    apply andb_true_iff in Hq as [_ Hq]. rewrite forallb_forall in Hq.
    apply list_elem_of_In, Hq in Hin. destruct ((tasks0 tc)$[t]) as [task|]; [|done].
    apply andb_true_iff in Hin as [?%Z.eqb_eq ?%Z.eqb_eq]. by exists task.
  - intros t task Et Hf. destruct (Ht' _ _ Et) as [Hc H0]. unfold task_check in Hc.
    apply andb_true_iff in Hc as [_ Hc]. rewrite Hf in Hc. simpl in Hc.
    destruct (qs !! _) as [q|]; [|done]. apply bool_decide_eq_true in Hc. exists q.
    by rewrite Z2Nat.id in Hc.
  - intros l q Eq. specialize (Hq _ _ Eq). unfold queue_check in Hq.
    apply andb_true_iff in Hq as [Hq _]. by apply bool_decide_eq_true in Hq.
  - intros t task Et. destruct (Ht' _ _ Et) as [Hc _]. unfold task_check in Hc.
    apply andb_true_iff in Hc as [Hc _]. by apply bool_decide_eq_true in Hc.
Qed.
