(* ===== verification/ProcessSpec.v ===== *)
(** * What the scheduler promises

    Running, sleeping, waking and switching, on the run queues of [ProcessInv]. *)
From Stdlib Require Import ZArith Lia.
From stdpp Require Import base option list numbers.
From S2P Require Import Prelude Process ProcessInv.

Set Default Proof Using "Type".

(** ** The abstract scheduler: operations on the queues *)
Definition push (qs : list (list Z)) (l : nat) (t : Z) : list (list Z) :=
  alter (fun q => q ++ [t]) l qs.

Definition take_out (qs : list (list Z)) (l : nat) (t : Z) : list (list Z) :=
  alter (filter (fun u => u <> t)) l qs.

(** [mprocess_task_run(t, lv, _)] *)
Definition run_queues (qs : list (list Z)) (t : Z) (task : TASK) (lv : Z) : list (list Z) :=
  if t_flags task =? MPROCESS_FLAGS_RUNNING then
    if t_level task =? lv then qs
    else push (take_out qs (Z.to_nat (t_level task)) t) (Z.to_nat lv) t
  else if t_flags task =? MPROCESS_FLAGS_ALLOCATED then push qs (Z.to_nat lv) t
  else qs.

(** The task after it. *)
Definition run_task (task : TASK) (lv priority : Z) : TASK :=
  let task := if priority >? 0 then set_priority task priority else task in
  if (t_flags task =? MPROCESS_FLAGS_RUNNING) && (t_level task =? lv) then task
  else if (t_flags task =? MPROCESS_FLAGS_RUNNING) || (t_flags task =? MPROCESS_FLAGS_ALLOCATED)
  then set_flags (set_level task lv) MPROCESS_FLAGS_RUNNING
  else task.

Lemma alter_insert_list (qs : list (list Z)) l q f :
  qs !! l = Some q -> alter f l qs = <[l := f q]> qs.
Proof.
  revert l. induction qs as [|x qs IH]; intros [|l] Hq; simplify_eq/=; [done|].
  f_equal. by apply IH.
Qed.

Lemma filter_out (q1 q2 : list Z) t :
  t ∉ q1 ++ q2 -> filter (fun u => u <> t) (q1 ++ t :: q2) = q1 ++ q2.
Proof.
  rewrite elem_of_app. intros Ht. rewrite list.filter_app, filter_cons_False by (intros H; by apply H).
  rewrite !filter_all; [done|intros x Hx ->; tauto..].
Qed.

(** ** The current level *)
Lemma first_nonempty (qs : list (list Z)) :
  (forall k q, qs !! k = Some q -> q = [])
  \/ exists k q, qs !! k = Some q /\ q <> [] /\ forall j, (j < k)%nat -> qs !! j = Some [].
Proof.
  induction qs as [|q qs [IH|(k & q' & Hk & Hne & Hj)]]; [by left; intros k q|..].
  - destruct q as [|t q]; [left|right].
    + intros [|k] q' Hk; simplify_eq/=; [done|by eapply IH].
    + exists 0%nat, (t :: q). split_and!; [done|done|lia].
  - right. destruct q as [|t q].
    + exists (S k), q'. split_and!; [done|done|]. intros [|j] ?; [done|]. apply Hj. lia.
    + exists 0%nat, (t :: q). split_and!; [done|done|lia].
Qed.

Section update.
Context (tc : TASKCTL) (qs : list (list Z)) (Hc : sched_core tc qs).

Lemma level_body i :
  0 <= i < OS_MPROCESS_TASKLEVELS_MAX ->
  exists q, qs !! Z.to_nat i = Some q /\
    forall {A} (c d : A), (tl ← (tc_level tc)$[i]; if tl_running tl >? 0 then Some c else Some d)
                      = Some (match q with [] => d | _ => c end).
Proof using Hc.
  intros Hi. destruct (queue_of _ _ Hc i Hi) as (q & Hq). exists q. split; [done|].
  destruct (level_of _ _ Hc i q Hq) as (tl & Etl & R); [lia|]. intros A c d.
  rewrite Etl. simpl. rewrite (tr_running _ _ R). by destruct q.
Qed.

Lemma core_set_now b l :
  0 <= l < OS_MPROCESS_TASKLEVELS_MAX ->
  sched_core (mkTASKCTL l b (tc_level tc) (tasks0 tc)) qs.
Proof using Hc. intros Hl. constructor; simpl; try apply Hc; done. Qed.

Lemma update_currentlv_spec :
  exists l, __mprocess_task_update_currentlv tc
            = Some (mkTASKCTL l false (tc_level tc) (tasks0 tc))
    /\ 0 <= l < OS_MPROCESS_TASKLEVELS_MAX /\ top_level qs l.
Proof using Hc.
  unfold __mprocess_task_update_currentlv.
  pose proof (sc_nlevels _ _ Hc) as Hn.
  destruct (first_nonempty qs) as [Hall|(k & q & Hk & Hne & Hj)].
  - rewrite (loop_until_all _ (fun i => i) _ 0).
    2:{ intros i Hi. unfold OS_MPROCESS_TASKLEVELS_MAX in Hi.
        destruct (level_body i) as (q & Hq & ->); [unfold OS_MPROCESS_TASKLEVELS_MAX; lia|].
        by rewrite (Hall _ _ Hq). }
    exists (OS_MPROCESS_TASKLEVELS_MAX - 1). split; [done|]. split; [done|]. split.
    + intros j Hjl. destruct (lookup_lt_is_Some_2 qs j) as [q Hq]; [rewrite Hn; lia|].
      by rewrite Hq, (Hall _ _ Hq).
    + destruct (queue_of _ _ Hc (OS_MPROCESS_TASKLEVELS_MAX - 1)) as (q & Hq); [done|].
      exists q. auto.
  - pose proof (lookup_lt_Some _ _ _ Hk) as Hlt. rewrite Hn in Hlt.
    assert (Hk10 : 0 <= Z.of_nat k < OS_MPROCESS_TASKLEVELS_MAX) by lia.
    rewrite (loop_until_stop _ (fun i => i) _ k 0 (Break (Z.of_nat k))); [|done| | |done].
    + exists (Z.of_nat k). simpl.
      rewrite Z.geb_leb. destruct (Z.leb_spec OS_MPROCESS_TASKLEVELS_MAX (Z.of_nat k)); [lia|].
      split; [done|]. split; [done|]. unfold top_level. rewrite Nat2Z.id. split; [done|].
      exists q. auto.
    + intros i Hi. destruct (level_body i) as (q' & Hq' & ->); [lia|].
      rewrite Hj in Hq' by lia. by injection Hq' as <-.
    + rewrite Z.add_0_l. destruct (level_body (Z.of_nat k) Hk10) as (q' & Hq' & ->).
      rewrite Nat2Z.id, Hk in Hq'. injection Hq' as <-. by destruct q.
Qed.
End update.

(** ** [mprocess_task_run] *)
Section run.
Context (tc : TASKCTL) (qs : list (list Z)) (Hc : sched_core tc qs).
Context (t : Z) (task : TASK) (lv : Z).
Context (Et : (tasks0 tc)$[t] = Some task).
Context (Hlv : 0 <= lv < OS_MPROCESS_TASKLEVELS_MAX).
Context (Hcap : forall q, qs !! Z.to_nat lv = Some q ->
           (length q < Z.to_nat OS_MPROCESS_TASKLEVEL_TASKS_MAX)%nat).

Lemma insert_same (l : list TASK) (x y : TASK) : <[Z.to_nat t := x]> (<[Z.to_nat t := y]> l) = <[Z.to_nat t := x]> l.
Proof using Type. apply list_insert_insert_eq. Qed.

(** Placing a task that is not running on a level. *)
Lemma place_idle :
  t_flags task <> MPROCESS_FLAGS_RUNNING ->
  exists tc', (tc ← upd_task tc t (fun t => set_level t lv); __mprocess_task_add tc t) = Some tc'
    /\ sched_core tc' (push qs (Z.to_nat lv) t)
    /\ now_lv tc' = now_lv tc
    /\ tasks0 tc' = <[Z.to_nat t := set_flags (set_level task lv) MPROCESS_FLAGS_RUNNING]> (tasks0 tc).
Proof using Hc Et Hlv Hcap.
  intros Hf. rewrite (upd_task_eq _ _ task) by done. rewrite bind_Some_eq.
  destruct (queue_of _ _ Hc lv Hlv) as (q & Hq).
  pose proof (core_idle_task _ _ Hc t task (set_level task lv) Et Hf Hf Hlv) as Hc1.
  set (tc1 := mkTASKCTL _ _ _ _) in *.
  assert (Et1 : (tasks0 tc1)$[t] = Some (set_level task lv)).
  { unfold tc1. simpl. by apply lookupZ_insert_eq, (lookupZ_lt _ _ task). }
  destruct (add_core tc1 qs Hc1 t _ q Et1 Hf Hq (Hcap _ Hq)) as (tc' & E & Hc' & Hn & _ & Ht).
  exists tc'. split_and!; [done| |done|].
  - unfold push. by rewrite (alter_insert_list _ _ q).
  - rewrite Ht. unfold tc1. simpl. by rewrite insert_same.
Qed.
End run.

Section run_op.
Context (tc : TASKCTL) (qs : list (list Z)) (Hc : sched_core tc qs).
Context (t : Z) (task : TASK) (level priority : Z).
Context (Et : (tasks0 tc)$[t] = Some task).

Let lv := if level <? 0 then t_level task else level.

Context (Hlv : lv < OS_MPROCESS_TASKLEVELS_MAX).
Context (Hcap : forall q, qs !! Z.to_nat lv = Some q ->
           (length q < Z.to_nat OS_MPROCESS_TASKLEVEL_TASKS_MAX)%nat).

Let task1 := if priority >? 0 then set_priority task priority else task.

Lemma lv_range : 0 <= lv < OS_MPROCESS_TASKLEVELS_MAX.
Proof using Hc Et Hlv.
  clear Hcap. split; [|exact Hlv]. unfold lv. destruct (Z.ltb_spec level 0) as [?|H0]; [|exact H0].
  exact (proj1 (sc_level _ _ Hc t task Et)).
Qed.

(** The new priority is stored first. *)
Lemma run_priority :
  exists tc1, (if priority >? 0 then upd_task tc t (fun t => set_priority t priority) else Some tc)
              = Some tc1
    /\ sched_core tc1 qs /\ (tasks0 tc1)$[t] = Some task1 /\ now_lv tc1 = now_lv tc
    /\ t_flags task1 = t_flags task /\ t_level task1 = t_level task
    /\ (forall x, <[Z.to_nat t := x]> (tasks0 tc1) = <[Z.to_nat t := x]> (tasks0 tc))
    /\ tasks0 tc1 = <[Z.to_nat t := task1]> (tasks0 tc).
Proof using Hc Et.
  clear Hcap Hlv. unfold task1. destruct (priority >? 0).
  - rewrite (upd_task_eq _ _ task) by done. eexists. split; [done|]. simpl.
    split_and!; try done.
    + by apply (core_set_task _ _ Hc t task).
    + by apply lookupZ_insert_eq, (lookupZ_lt _ _ task).
    + intros x. apply list_insert_insert_eq.
  - exists tc. split_and!; try done. symmetry. apply list_insert_id.
    by apply lookupZ_Some in Et as [_ ?].
Qed.

Lemma run_spec :
  exists tc', mprocess_task_run tc (Some t) level priority = Some tc'
    /\ sched_core tc' (run_queues qs t task lv) /\ lv_change tc' = true
    /\ now_lv tc' = now_lv tc
    /\ tasks0 tc' = <[Z.to_nat t := run_task task lv priority]> (tasks0 tc).
Proof using Hc Et Hlv Hcap.
  pose proof lv_range as Hr. unfold mprocess_task_run. rewrite Et, bind_Some_eq. fold lv.
  destruct run_priority as (tc1 & -> & Hc1 & Et1 & Hn1 & F1 & L1 & I1 & T1). rewrite bind_Some_eq.
  unfold run_queues, run_task. fold task1. rewrite F1, L1.
  destruct (Z.eqb_spec (t_flags task) MPROCESS_FLAGS_RUNNING) as [Hf|Hf]; simpl.
  - destruct (Z.eqb_spec (t_level task) lv) as [El|El]; simpl.
    + rewrite Et1. simpl. rewrite F1, Hf. simpl. eexists. split; [done|]. split_and!; try done.
      by apply core_set_now; [|apply Hc1].
    + rewrite <- F1 in Hf. destruct (sc_running _ _ Hc1 _ _ Et1 Hf) as (q & Hq & Ht).
      apply list_elem_of_split in Ht as (q1 & q2 & ->).
      destruct (remove_core tc1 qs Hc1 t task1 q1 q2 Et1 Hf Hq)
        as (tc2 & tl & a' & -> & Hc2 & Hn2 & _ & T2 & _ & _ & _). rewrite bind_Some_eq.
      set (task2 := set_flags task1 MPROCESS_FLAGS_ALLOCATED) in *.
      assert (Et2 : (tasks0 tc2)$[t] = Some task2).
      { rewrite T2. by apply lookupZ_insert_eq, (lookupZ_lt _ _ task1). }
      rewrite Et2, bind_Some_eq. simpl.
      rewrite L1 in *.
      destruct (place_idle tc2 _ Hc2 t task2 lv Et2 Hr) as (tc3 & -> & Hc3 & Hn3 & T3); [|done|].
      { intros q. rewrite list_lookup_insert_ne; [apply Hcap|].
        pose proof (sc_level _ _ Hc _ _ Et). lia. }
      simpl. eexists. split; [done|]. split_and!; [|done|by simpl; rewrite Hn3, Hn2|].
      * apply core_set_now; [|apply Hc3]. unfold take_out.
        rewrite (alter_insert_list _ _ _ _ Hq), filter_out; [done|].
        by apply (removed_nodup tc1 qs Hc1 t task1 q1 q2); rewrite ?L1.
      * simpl. rewrite T3, T2, list_insert_insert_eq, I1. done.
  - rewrite Et1. simpl. rewrite F1.
    destruct (Z.eqb_spec (t_flags task) MPROCESS_FLAGS_ALLOCATED) as [Ha|Ha]; simpl.
    + rewrite <- F1 in Hf.
      destruct (place_idle tc1 _ Hc1 t task1 lv Et1 Hr Hcap Hf) as (tc3 & -> & Hc3 & Hn3 & T3).
      simpl. eexists. split; [done|]. split_and!; [|done|by simpl; rewrite Hn3|].
      * by apply core_set_now; [|apply Hc3].
      * simpl. by rewrite T3, I1.
    + eexists. split; [done|]. split_and!; try done. by apply core_set_now; [|apply Hc1].
Qed.
End run_op.

(** ** The current task *)

(** It is task [c]'s turn: it stands at the index [now] of the current level. *)
Definition current (tc : TASKCTL) (qs : list (list Z)) (c : Z) : Prop :=
  exists tl q, tc_level tc !! Z.to_nat (now_lv tc) = Some tl
    /\ qs !! Z.to_nat (now_lv tc) = Some q /\ q !! Z.to_nat (tl_now tl) = Some c.

Lemma get_current_spec tc qs c :
  sched_core tc qs -> current tc qs c -> mprocess_task_get_current tc = Some (Some c).
Proof.
  intros Hc (tl & q & Etl & Eq & Ec). unfold mprocess_task_get_current.
  pose proof (sc_now_lv _ _ Hc) as Hn. destruct (level_of _ _ Hc _ _ Eq) as (tl' & Etl' & R); [lia|].
  rewrite Etl'. apply lookupZ_Some in Etl' as [_ Etl']. rewrite Etl in Etl'. injection Etl' as <-.
  simpl. apply lookupZ_Some. split; [apply (tr_now _ _ R)|]. by apply (tr_tasks _ _ R).
Qed.

(** A level with tasks has one whose turn it is. *)
Lemma current_exists tc qs q :
  sched_core tc qs -> qs !! Z.to_nat (now_lv tc) = Some q -> q <> [] -> exists c, current tc qs c.
Proof.
  intros Hc Eq Hne. pose proof (sc_now_lv _ _ Hc) as Hn.
  destruct (level_of _ _ Hc _ _ Eq) as (tl & Etl & R); [lia|].
  pose proof (tr_now _ _ R) as Hnow.
  destruct (lookup_lt_is_Some_2 q (Z.to_nat (tl_now tl))) as [c Ec].
  { destruct q; [done|]. simpl length in *. lia. }
  exists c, tl, q. apply lookupZ_Some in Etl as [_ Etl]. done.
Qed.

Lemma current_queued tc qs c :
  current tc qs c -> exists q, qs !! Z.to_nat (now_lv tc) = Some q /\ c ∈ q.
Proof. intros (tl & q & _ & Eq & Ec). exists q. split; [done|]. by eapply list_elem_of_lookup_2. Qed.

(** ** [mprocess_task_autoswitch] *)

(** The turn after [now] in a queue of [n]. *)
Definition next_turn (now n : Z) : Z := if now + 1 =? n then 0 else now + 1.

Lemma next_turn_mod now n : 0 <= now < n -> next_turn now n = (now + 1) mod n.
Proof.
  intros. unfold next_turn. destruct (Z.eqb_spec (now + 1) n) as [->|?].
  - by rewrite Z.mod_same by lia.
  - by rewrite Z.mod_small by lia.
Qed.

Section autoswitch.
Context (tc : TASKCTL) (qs : list (list Z)) (Hc : sched_core tc qs).
Context (tl : TASKLEVEL) (q : list Z).
Context (Etl : tc_level tc !! Z.to_nat (now_lv tc) = Some tl).
Context (Eq : qs !! Z.to_nat (now_lv tc) = Some q) (Hne : q <> []).

Let tl' := mkTASKLEVEL (tl_running tl) (next_turn (tl_now tl) (tl_running tl)) (tl_tasks tl).
Let tc1 := mkTASKCTL (now_lv tc) (lv_change tc) (<[Z.to_nat (now_lv tc) := tl']> (tc_level tc))
             (tasks0 tc).

Lemma switch_level : tl_repr tl q /\ tl_repr tl' q.
Proof using Hc Etl Eq Hne.
  pose proof (sc_now_lv _ _ Hc) as Hn. destruct (level_of _ _ Hc _ _ Eq) as (tl0 & E0 & R); [lia|].
  apply lookupZ_Some in E0 as [_ E0]. rewrite Etl in E0. injection E0 as <-.
  split; [done|]. pose proof (tr_now _ _ R). pose proof (tr_running _ _ R).
  assert (Hl : 0 < Z.of_nat (length q)) by (destruct q; [done|simpl; lia]).
  constructor; simpl; try apply R. unfold next_turn.
  destruct (Z.eqb_spec (tl_now tl + 1) (tl_running tl)); lia.
Qed.

Lemma switch_core : sched_core tc1 qs.
Proof using Hc Etl Eq Hne.
  constructor; simpl; try apply Hc.
  rewrite <- (list_insert_id qs (Z.to_nat (now_lv tc)) q) by done.
  apply Forall2_insert_r; [apply Hc|apply switch_level].
Qed.

(** The turn passes on and the level is chosen anew if that is pending. *)
Lemma autoswitch_next_spec :
  exists l c, 0 <= l < OS_MPROCESS_TASKLEVELS_MAX /\ current tc qs c
    /\ (if lv_change tc then top_level qs l else l = now_lv tc)
    /\ let tc' := mkTASKCTL l false (tc_level tc1) (tasks0 tc) in
       sched_core tc' qs
       /\ (forall d, current tc' qs d -> autoswitch_next tc = Some (tc', Some c, Some d)).
Proof using Hc Etl Eq Hne.
  pose proof (sc_now_lv _ _ Hc) as Hn. destruct switch_level as [R R'].
  destruct (current_exists _ _ _ Hc Eq Hne) as (c & Hcur).
  pose proof (get_current_spec _ _ _ Hc Hcur) as Eg. unfold mprocess_task_get_current in Eg.
  assert (Ep : put_level tc (now_lv tc) tl' = Some tc1)
    by (apply (put_level_eq _ _ Hc _ q); [done|lia]).
  assert (Ea : autoswitch_next tc =
    (tc2 ← (if lv_change tc1 then __mprocess_task_update_currentlv tc1 else Some tc1);
     taskNext ← mprocess_task_get_current tc2; Some (tc2, Some c, taskNext))).
  { unfold autoswitch_next. assert (El : (tc_level tc)$[now_lv tc] = Some tl)
      by (apply lookupZ_Some; split; [lia|done]).
    rewrite El in Eg |- *. simpl in Eg |- *. rewrite Eg. simpl. fold (next_turn (tl_now tl) (tl_running tl)).
    fold tl'. rewrite Ep. done. }
  assert (Eb : lv_change tc1 = true \/ lv_change tc1 = false) by (destruct (lv_change tc1); auto).
  destruct Eb as [Elc|Elc]; pose proof Elc as Elc'; simpl in Elc'; rewrite Elc'.
  - destruct (update_currentlv_spec tc1 qs switch_core) as (l & Eu & Hl & Ht).
    pose proof (core_set_now tc1 qs switch_core false l Hl) as Hc'.
    exists l, c. split; [exact Hl|]. split; [exact Hcur|]. split; [exact Ht|].
    split; [exact Hc'|].
    intros d Hd. rewrite Ea, Elc, Eu, bind_Some_eq.
    by rewrite (get_current_spec _ qs d Hc' Hd).
  - exists (now_lv tc), c. split; [exact Hn|]. split; [exact Hcur|]. split; [done|].
    assert (E1 : mkTASKCTL (now_lv tc) false (tc_level tc1) (tasks0 tc) = tc1)
      by (unfold tc1; by rewrite Elc').
    cbv zeta. rewrite E1. split; [exact switch_core|]. intros d Hd. rewrite Ea.
    rewrite Elc. simpl. by rewrite (get_current_spec _ qs d switch_core).
Qed.
End autoswitch.

(** One switch within a level. *)
Lemma autoswitch_step tc qs tl q :
  sched_core tc qs -> lv_change tc = false ->
  tc_level tc !! Z.to_nat (now_lv tc) = Some tl -> qs !! Z.to_nat (now_lv tc) = Some q -> q <> [] ->
  exists tc' tl' c d, autoswitch_next tc = Some (tc', Some c, Some d)
    /\ current tc qs c /\ current tc' qs d /\ sched_core tc' qs /\ lv_change tc' = false
    /\ now_lv tc' = now_lv tc /\ tasks0 tc' = tasks0 tc
    /\ tc_level tc' !! Z.to_nat (now_lv tc) = Some tl'
    /\ tl_now tl' = (tl_now tl + 1) mod Z.of_nat (length q).
Proof.
  intros Hc Elc Etl Eq Hne.
  destruct (autoswitch_next_spec tc qs Hc tl q Etl Eq Hne) as (l & c & Hl & Hcur & Hlv & Hc' & Ha).
  rewrite Elc in Hlv. subst l.
  match type of Hc' with sched_core ?x _ => set (tc' := x) in * end.
  destruct (current_exists tc' qs q Hc' Eq Hne) as (d & Hd).
  destruct (switch_level tc qs Hc tl q Etl Eq Hne) as [R _].
  eexists tc', _, c, d. split; [by apply Ha|]. split_and!; try done.
  - apply list_lookup_insert_eq. by eapply lookup_lt_Some.
  - simpl. rewrite (tr_running _ _ R). apply next_turn_mod. pose proof (tr_now _ _ R).
    assert (0 < Z.of_nat (length q)) by (destruct q; [done|simpl; lia]). lia.
Qed.

(** [n] timer interrupts in a row, without any other event. *)
Fixpoint switches (n : nat) (tc : TASKCTL) : option TASKCTL :=
  match n with
  | O => Some tc
  | S n => r ← autoswitch_next tc; switches n r.1.1
  end.

Lemma switches_spec n tc qs tl q :
  sched_core tc qs -> lv_change tc = false ->
  tc_level tc !! Z.to_nat (now_lv tc) = Some tl -> qs !! Z.to_nat (now_lv tc) = Some q -> q <> [] ->
  exists tc' c, switches n tc = Some tc' /\ sched_core tc' qs /\ lv_change tc' = false
    /\ now_lv tc' = now_lv tc /\ tasks0 tc' = tasks0 tc /\ current tc' qs c
    /\ q !! Z.to_nat ((tl_now tl + Z.of_nat n) mod Z.of_nat (length q)) = Some c.
Proof.
  assert (Hpos : q <> [] -> 0 < Z.of_nat (length q)) by (destruct q; [done|simpl; lia]).
  revert tc tl. induction n as [|n IH]; intros tc tl Hc Elc Etl Eq Hne; cbn [switches].
  - destruct (current_exists tc qs q Hc Eq Hne) as (c & tl' & q' & Etl' & Eq' & Ec).
    rewrite Etl in Etl'. injection Etl' as <-. rewrite Eq in Eq'. injection Eq' as <-.
    exists tc, c. split_and!; try done; [by exists tl, q|].
    rewrite Z.add_0_r, Z.mod_small; [done|].
    apply lookup_lt_Some in Ec as Hlt. destruct (switch_level tc qs Hc tl q Etl Eq Hne) as [R _].
    pose proof (tr_now _ _ R). specialize (Hpos Hne). lia.
  - destruct (autoswitch_step tc qs tl q Hc Elc Etl Eq Hne)
      as (tc1 & tl1 & c & d & Ea & _ & _ & Hc1 & Elc1 & Hn1 & T1 & Etl1 & Hnow). rewrite Ea. simpl.
    rewrite <- Hn1 in Etl1, Eq.
    destruct (IH tc1 tl1 Hc1 Elc1 Etl1 Eq Hne) as (tc' & e & Es & Hc' & Elc' & Hn' & T' & He & Hq).
    exists tc', e. split_and!; try done; [congruence|congruence|].
    rewrite Hnow in Hq. specialize (Hpos Hne).
    rewrite Zplus_mod_idemp_l in Hq. rewrite <- Hq. do 3 f_equal. lia.
Qed.

(** Each task of the level is reached within one round. *)
Lemma round_reaches (q : list Z) now t :
  t ∈ q -> 0 <= now < Z.of_nat (length q) ->
  exists n, (n < length q)%nat
    /\ q !! Z.to_nat ((now + Z.of_nat n) mod Z.of_nat (length q)) = Some t.
Proof.
  intros (k & Hk)%list_elem_of_lookup Hn. pose proof (lookup_lt_Some _ _ _ Hk) as Hlt.
  exists (Z.to_nat ((Z.of_nat k - now) mod Z.of_nat (length q))).
  pose proof (Z.mod_pos_bound (Z.of_nat k - now) (Z.of_nat (length q)) ltac:(lia)).
  split; [lia|]. rewrite Z2Nat.id, Zplus_mod_idemp_r by lia.
  replace (now + (Z.of_nat k - now)) with (Z.of_nat k) by lia.
  rewrite Z.mod_small by lia. by rewrite Nat2Z.id.
Qed.

(** ** [mprocess_task_sleep] *)
Lemma top_level_nonempty qs l l' q' :
  top_level qs l -> qs !! l' = Some q' -> q' <> [] -> (l' < length qs)%nat ->
  length qs = Z.to_nat OS_MPROCESS_TASKLEVELS_MAX -> 0 <= l ->
  exists q, qs !! Z.to_nat l = Some q /\ q <> [].
Proof.
  intros [Hlow (q & Hq & Hor)] Hl' Hne Hlt Hlen H0. exists q. split; [done|].
  destruct Hor as [?|El]; [done|]. destruct (decide (l' = Z.to_nat l)) as [->|Hd]; [congruence|].
  assert (Hl : (l' < Z.to_nat l)%nat) by lia. rewrite (Hlow _ Hl) in Hl'. congruence.
Qed.

Lemma top_level_same_empty qs l k q q' :
  top_level qs l -> qs !! k = Some q -> (q' = [] <-> q = []) -> top_level (<[k := q']> qs) l.
Proof.
  intros [Hlow (ql & Hql & Hor)] Hk He. split.
  - intros j Hj. destruct (decide (j = k)) as [->|Hne]; [|rewrite list_lookup_insert_ne by done; auto].
    rewrite list_lookup_insert_eq by (by eapply lookup_lt_Some). f_equal. apply He.
    rewrite (Hlow _ Hj) in Hk. congruence.
  - destruct (decide (k = Z.to_nat l)) as [->|Hne].
    + exists q'. rewrite list_lookup_insert_eq by (by eapply lookup_lt_Some). split; [done|].
      rewrite Hk in Hql. injection Hql as <-. destruct Hor; [left|by right]. tauto.
    + exists ql. by rewrite list_lookup_insert_ne.
Qed.

Section sleep.
Context (tc : TASKCTL) (qs : list (list Z)) (Hs : sched_repr tc qs).
Context (t c : Z) (task : TASK).
Context (Et : (tasks0 tc)$[t] = Some task) (Hf : t_flags task = MPROCESS_FLAGS_RUNNING).
Context (Hcur : current tc qs c).

Let qs' := take_out qs (Z.to_nat (t_level task)) t.

(** The removal, with the queues in the form of the abstract scheduler. *)
Lemma sleep_remove :
  exists tc' q1 q2, mprocess_task_remove tc (Some t) = Some tc' /\ sched_repr tc' qs'
    /\ now_lv tc' = now_lv tc
    /\ tasks0 tc' = <[Z.to_nat t := set_flags task MPROCESS_FLAGS_ALLOCATED]> (tasks0 tc)
    /\ qs !! Z.to_nat (t_level task) = Some (q1 ++ t :: q2)
    /\ qs' = <[Z.to_nat (t_level task) := q1 ++ q2]> qs
    /\ (c <> t -> current tc' qs' c).
Proof using Hs Et Hf Hcur.
  destruct Hs as [Hc Htop]. destruct (sc_running _ _ Hc _ _ Et Hf) as (q & Hq & Ht).
  apply list_elem_of_split in Ht as (q1 & q2 & ->).
  destruct (removed_nodup tc qs Hc t task q1 q2 Hq) as [ND Hn].
  destruct (remove_core tc qs Hc t task q1 q2 Et Hf Hq)
    as (tc' & tl & a' & Er & Hc' & Hnl & Hlc & T & Etl & R & Hls).
  assert (Eqs : qs' = <[Z.to_nat (t_level task) := q1 ++ q2]> qs).
  { unfold qs', take_out. by rewrite (alter_insert_list _ _ _ _ Hq), filter_out. }
  rewrite <- Eqs in Hc'. exists tc', q1, q2. split_and!; try done.
  - split; [done|]. intros E. rewrite Hlc in E. apply orb_false_iff in E as [E1 E2].
    apply bool_decide_eq_false in E2. rewrite Hnl, Eqs.
    apply (top_level_same_empty _ _ _ _ _ (Htop E1) Hq). split; [done|]. by destruct q1.
  - intros Hne. destruct Hcur as (tlc & qc & Etlc & Eqc & Ec). unfold current.
    rewrite Hnl, Hls, Eqs.
    destruct (decide (Z.to_nat (t_level task) = Z.to_nat (now_lv tc))) as [El|El].
    + rewrite El in *. rewrite Etl in Etlc. injection Etlc as <-. rewrite Hq in Eqc.
      injection Eqc as <-. rewrite !list_lookup_insert_eq by (by eapply lookup_lt_Some).
      eexists _, _. split; [done|]. split; [done|]. simpl.
      pose proof (tr_running _ _ R) as Hr. rewrite length_app in Hr. simpl in Hr.
      replace (tl_running tl - 1) with (Z.of_nat (length (q1 ++ q2)))
        by (rewrite Hr, length_app; lia).
      apply (now_after_current q1 q2 t); try done. apply (tr_now _ _ R).
    + rewrite !list_lookup_insert_ne by done. by exists tlc, qc.
Qed.

Lemma sleep_other :
  c <> t ->
  exists tc', mprocess_task_sleep tc (Some t) = Some (tc', None) /\ sched_repr tc' qs'
    /\ current tc' qs' c
    /\ tasks0 tc' = <[Z.to_nat t := set_flags task MPROCESS_FLAGS_ALLOCATED]> (tasks0 tc).
Proof using Hs Et Hf Hcur.
  intros Hne. destruct sleep_remove as (tc' & q1 & q2 & Er & Hs' & _ & T & _ & _ & Hc').
  exists tc'. split_and!; try done; [|by apply Hc'].
  unfold mprocess_task_sleep. rewrite Et. simpl. rewrite Hf. simpl.
  destruct Hs as [Hc _]. rewrite (get_current_spec _ _ _ Hc Hcur). simpl. rewrite Er. simpl.
  by rewrite bool_decide_eq_false_2 by congruence.
Qed.

Lemma sleep_current :
  c = t -> (exists l q, qs' !! l = Some q /\ q <> []) ->
  exists tc' d taskd, mprocess_task_sleep tc (Some t) = Some (tc', Some (t_gdtSegmentSelector taskd))
    /\ sched_repr tc' qs' /\ lv_change tc' = false /\ current tc' qs' d
    /\ (tasks0 tc')$[d] = Some taskd
    /\ tasks0 tc' = <[Z.to_nat t := set_flags task MPROCESS_FLAGS_ALLOCATED]> (tasks0 tc).
Proof using Hs Et Hf Hcur.
  intros Ect (l & q & Hl & Hne).
  destruct sleep_remove as (tc1 & q1 & q2 & Er & [Hc1 _] & _ & T & _ & _ & _).
  destruct (update_currentlv_spec tc1 qs' Hc1) as (lv & Eu & Hlv & Htop).
  pose proof (core_set_now tc1 qs' Hc1 false lv Hlv) as Hc2.
  set (tc2 := mkTASKCTL _ _ _ _) in Hc2.
  destruct (top_level_nonempty _ _ _ _ Htop Hl Hne) as (qd & Hqd & Hned).
  { by eapply lookup_lt_Some. } { apply Hc1. } { lia. }
  destruct (current_exists tc2 qs' qd Hc2 Hqd Hned) as (d & Hd).
  destruct (current_queued _ _ _ Hd) as (qd' & Hqd' & Hin).
  destruct (sc_queued _ _ Hc2 _ _ _ Hqd' Hin) as (taskd & Etd & _).
  exists tc2, d, taskd. split_and!; try done.
  unfold mprocess_task_sleep. rewrite Et. simpl. rewrite Hf. simpl.
  destruct Hs as [Hc _]. rewrite (get_current_spec _ _ _ Hc Hcur). simpl. rewrite Er. simpl.
  rewrite bool_decide_eq_true_2 by congruence. rewrite Eu, bind_Some_eq. fold tc2.
  rewrite (get_current_spec _ _ _ Hc2 Hd), bind_Some_eq. unfold selector.
  rewrite bind_Some_eq, Etd. done.
Qed.
End sleep.

(** ** [mprocess_task_alloc] *)
Lemma task_alloc_spec tc qs :
  sched_core tc qs ->
  (exists t task, (tasks0 tc)$[t] = Some task /\ t_flags task = MPROCESS_FLAGS_FREE
     /\ (forall u tu, u < t -> (tasks0 tc)$[u] = Some tu -> t_flags tu <> MPROCESS_FLAGS_FREE)
     /\ mprocess_task_alloc tc
        = Some (Some t, mkTASKCTL (now_lv tc) (lv_change tc) (tc_level tc)
                          (<[Z.to_nat t := alloc_task task]> (tasks0 tc))))
  \/ ((forall t task, (tasks0 tc)$[t] = Some task -> t_flags task <> MPROCESS_FLAGS_FREE)
      /\ mprocess_task_alloc tc = Some (None, tc)).
Proof.
  intros Hc. unfold mprocess_task_alloc.
  assert (Hn : length (tasks0 tc) = Z.to_nat OS_MPROCESS_TASK_MAX) by apply Hc.
  assert (Hdec : forall (l : list TASK),
    (exists k task, l !! k = Some task /\ t_flags task = MPROCESS_FLAGS_FREE
       /\ forall j tj, (j < k)%nat -> l !! j = Some tj -> t_flags tj <> MPROCESS_FLAGS_FREE)
    \/ forall k task, l !! k = Some task -> t_flags task <> MPROCESS_FLAGS_FREE).
  { induction l as [|x l IH]; [by right|].
    destruct (decide (t_flags x = MPROCESS_FLAGS_FREE)) as [Hx|Hx].
    - left. exists 0%nat, x. split_and!; [done|done|lia].
    - destruct IH as [(k & task & Hk & Hf & Hj)|Hall]; [left|right].
      + exists (S k), task. split_and!; [done|done|].
        intros [|j] tj ? Htj; simplify_eq/=; [done|]. eapply (Hj j); [lia|done].
      + intros [|k] task Hk; simplify_eq/=; [done|by eapply Hall]. }
  assert (Hbody : forall i task, (tasks0 tc)$[i] = Some task ->
    t_flags task <> MPROCESS_FLAGS_FREE ->
    (task ← (tasks0 tc)$[i]; if t_flags task =? MPROCESS_FLAGS_FREE
       then tc ← upd_task tc i alloc_task; Some (Return tc i) else Some (Continue tc))
    = Some (Continue tc)).
  { intros i task E Hf. rewrite E. simpl.
    by destruct (Z.eqb_spec (t_flags task) MPROCESS_FLAGS_FREE). }
  destruct (Hdec (tasks0 tc)) as [(k & task & Hk & Hf & Hj)|Hall]; [left|right].
  - assert (Ek : (tasks0 tc)$[Z.of_nat k] = Some task) by (by rewrite lookupZ_nat).
    exists (Z.of_nat k), task. split_and!; try done.
    { intros u tu Hu [H0 Eu]%lookupZ_Some. eapply (Hj (Z.to_nat u)); [lia|done]. }
    pose proof (lookup_lt_Some _ _ _ Hk) as Hlt.
    rewrite (loop_until_stop _ (fun _ => tc) _ k 0 (Return (mkTASKCTL (now_lv tc) (lv_change tc)
      (tc_level tc) (<[Z.to_nat (Z.of_nat k) := alloc_task task]> (tasks0 tc))) (Z.of_nat k)));
      [done|lia| | |done].
    + intros i Hi. destruct (lookupZ_is_Some (tasks0 tc) i) as [ti Eti]; [lia|].
      apply (Hbody i ti); [done|]. apply lookupZ_Some in Eti as [_ Eti].
      by apply (Hj (Z.to_nat i)); [lia|].
    + rewrite Z.add_0_l, Ek. simpl. rewrite Hf. simpl. by rewrite (upd_task_eq _ _ task).
  - split.
    + intros t task [_ Et]%lookupZ_Some. by eapply Hall.
    + rewrite (loop_until_all _ (fun _ => tc) _ 0); [done|].
      intros i Hi. destruct (lookupZ_is_Some (tasks0 tc) i) as [ti Eti]; [lia|].
      apply (Hbody i ti); [done|]. apply lookupZ_Some in Eti as [_ Eti]. by eapply Hall.
Qed.

(** ** Theorems *)

(** C13. [mprocess_task_run]: on a consistent control block, for any task, level
    and priority such that the level has a free slot, the call does not fault
    and acts on the run queues as the abstract scheduler: a sleeping task is
    appended to the queue of its level, a running one is moved when the level
    differs and stays otherwise, a free one is not touched; priority and flags
    are updated, no other task changes, and a change of level is pending. *)
Theorem task_run_correct tc qs t task level priority :
  let lv := if level <? 0 then t_level task else level in
  sched_repr tc qs -> (tasks0 tc)$[t] = Some task -> lv < OS_MPROCESS_TASKLEVELS_MAX ->
  (forall q, qs !! Z.to_nat lv = Some q ->
     (length q < Z.to_nat OS_MPROCESS_TASKLEVEL_TASKS_MAX)%nat) ->
  exists tc', mprocess_task_run tc (Some t) level priority = Some tc'
    /\ sched_repr tc' (run_queues qs t task lv) /\ lv_change tc' = true
    /\ tasks0 tc' = <[Z.to_nat t := run_task task lv priority]> (tasks0 tc).
Proof.
  intros lv [Hc _] Et Hlv Hcap.
  destruct (run_spec tc qs Hc t task level priority Et Hlv Hcap) as (tc' & E & Hc' & Hl & _ & T).
  exists tc'. split_and!; try done. split; [done|]. by rewrite Hl.
Qed.

(** [mprocess_task_sleep] of a running task that is not the current one: it
    leaves its queue, every other task keeps its place, no jump is made and the
    turn stays with the current task. *)
Theorem task_sleep_other tc qs t c task :
  sched_repr tc qs -> (tasks0 tc)$[t] = Some task -> t_flags task = MPROCESS_FLAGS_RUNNING ->
  current tc qs c -> c <> t ->
  exists tc', mprocess_task_sleep tc (Some t) = Some (tc', None)
    /\ sched_repr tc' (take_out qs (Z.to_nat (t_level task)) t)
    /\ current tc' (take_out qs (Z.to_nat (t_level task)) t) c
    /\ tasks0 tc' = <[Z.to_nat t := set_flags task MPROCESS_FLAGS_ALLOCATED]> (tasks0 tc).
Proof. intros Hs Et Hf Hcur Hne. by apply sleep_other. Qed.

(** C14. [mprocess_task_sleep] of the current task: it leaves its queue, the
    highest level that still has a task is selected, and the jump goes to a task
    of that level. *)
Theorem task_sleep_current tc qs t task :
  let qs' := take_out qs (Z.to_nat (t_level task)) t in
  sched_repr tc qs -> (tasks0 tc)$[t] = Some task -> t_flags task = MPROCESS_FLAGS_RUNNING ->
  current tc qs t -> (exists l q, qs' !! l = Some q /\ q <> []) ->
  exists tc' d taskd, mprocess_task_sleep tc (Some t) = Some (tc', Some (t_gdtSegmentSelector taskd))
    /\ sched_repr tc' qs' /\ top_level qs' (now_lv tc') /\ current tc' qs' d
    /\ (tasks0 tc')$[d] = Some taskd /\ d <> t.
Proof.
  intros qs' Hs Et Hf Hcur Hne.
  destruct (sleep_current tc qs Hs t t task Et Hf Hcur eq_refl Hne)
    as (tc' & d & taskd & E & Hs' & Hl & Hd & Etd & T).
  exists tc', d, taskd. split_and!; try done; [by apply Hs'|]. intros ->.
  destruct (current_queued _ _ _ Hd) as (q & Hq & Hin).
  destruct (queued_level _ _ (proj1 Hs') _ _ _ _ Hq Hin Etd) as [Hr _].
  rewrite T, (lookup_upd_task _ _ task), decide_True in Etd by done. by injection Etd as <-.
Qed.

(** C35. [mprocess_task_autoswitch] within a level is round robin: while no change
    of level is pending, [n] switches in a row do not fault, leave the queues as
    they are and give the turn to the entry [now + n] modulo the number of
    running tasks. *)
Theorem autoswitch_round_robin n tc qs tl q :
  sched_repr tc qs -> lv_change tc = false ->
  tc_level tc !! Z.to_nat (now_lv tc) = Some tl -> qs !! Z.to_nat (now_lv tc) = Some q -> q <> [] ->
  exists tc' c, switches n tc = Some tc' /\ sched_repr tc' qs
    /\ mprocess_task_get_current tc' = Some (Some c)
    /\ q !! Z.to_nat ((tl_now tl + Z.of_nat n) mod Z.of_nat (length q)) = Some c.
Proof.
  intros [Hc Ht] Elc Etl Eq Hne.
  destruct (switches_spec n tc qs tl q Hc Elc Etl Eq Hne)
    as (tc' & c & Es & Hc' & Elc' & Hn & _ & Hcur & Hq).
  exists tc', c. split_and!; try done; [|by apply (get_current_spec _ qs)].
  split; [done|]. intros _. rewrite Hn. auto.
Qed.

(** No task of the current level starves: each of its running tasks becomes
    the current one within as many switches as the level has running tasks. *)
Theorem autoswitch_fair tc qs q t :
  sched_repr tc qs -> lv_change tc = false -> qs !! Z.to_nat (now_lv tc) = Some q -> t ∈ q ->
  exists n tc', (n < length q)%nat /\ switches n tc = Some tc'
    /\ mprocess_task_get_current tc' = Some (Some t).
Proof.
  intros [Hc _] Elc Eq Hin. assert (Hne : q <> []) by (intros ->; by apply elem_of_nil in Hin).
  pose proof (sc_now_lv _ _ Hc) as Hn. destruct (level_of _ _ Hc _ _ Eq) as (tl & Etl & R); [lia|].
  apply lookupZ_Some in Etl as [_ Etl]. pose proof (tr_now _ _ R).
  destruct (round_reaches q (tl_now tl) t Hin) as (n & Hlt & Hq).
  { destruct q; [done|]. simpl length in *. lia. }
  destruct (switches_spec n tc qs tl q Hc Elc Etl Eq Hne)
    as (tc' & c & Es & Hc' & _ & _ & _ & Hcur & Hqc).
  exists n, tc'. split_and!; try done. rewrite Hq in Hqc. injection Hqc as <-.
  by apply (get_current_spec _ qs).
Qed.

(** A pending change of level is carried out by the next switch: when some
    task is running, [mprocess_task_autoswitch] goes to a running task of the
    highest level that has one. *)
Theorem autoswitch_priority tc qs tl q :
  sched_repr tc qs -> lv_change tc = true ->
  tc_level tc !! Z.to_nat (now_lv tc) = Some tl -> qs !! Z.to_nat (now_lv tc) = Some q -> q <> [] ->
  exists tc' c d taskd qd, autoswitch_next tc = Some (tc', Some c, Some d)
    /\ sched_repr tc' qs /\ top_level qs (now_lv tc') /\ lv_change tc' = false
    /\ qs !! Z.to_nat (now_lv tc') = Some qd /\ d ∈ qd
    /\ (tasks0 tc')$[d] = Some taskd /\ t_flags taskd = MPROCESS_FLAGS_RUNNING.
Proof.
  intros [Hc _] Elc Etl Eq Hne.
  destruct (autoswitch_next_spec tc qs Hc tl q Etl Eq Hne) as (l & c & Hl & Hcur & Htop & Hc' & Ha).
  rewrite Elc in Htop. match type of Hc' with sched_core ?x _ => set (tc' := x) in * end.
  destruct (top_level_nonempty _ _ _ _ Htop Eq Hne) as (qd & Hqd & Hned).
  { by eapply lookup_lt_Some. } { apply Hc. } { lia. }
  destruct (current_exists tc' qs qd Hc' Hqd Hned) as (d & Hd).
  destruct (current_queued _ _ _ Hd) as (qd' & Hqd' & Hin).
  destruct (sc_queued _ _ Hc' _ _ _ Hqd' Hin) as (taskd & Etd & Hf & _).
  exists tc', c, d, taskd, qd'. split_and!; try done. by apply Ha.
Qed.

(** [mprocess_task_alloc] hands out the first free task, marked as allocated,
    with priority 2 and cleared registers, and keeps the control block
    consistent; with no free task it returns NULL and changes nothing. *)
Theorem task_alloc_correct tc qs :
  sched_repr tc qs ->
  (exists t task tc', (tasks0 tc)$[t] = Some task /\ t_flags task = MPROCESS_FLAGS_FREE
     /\ (forall u tu, u < t -> (tasks0 tc)$[u] = Some tu -> t_flags tu <> MPROCESS_FLAGS_FREE)
     /\ mprocess_task_alloc tc = Some (Some t, tc') /\ sched_repr tc' qs
     /\ tasks0 tc' = <[Z.to_nat t := alloc_task task]> (tasks0 tc))
  \/ ((forall t task, (tasks0 tc)$[t] = Some task -> t_flags task <> MPROCESS_FLAGS_FREE)
      /\ mprocess_task_alloc tc = Some (None, tc)).
Proof.
  intros [Hc Ht]. destruct (task_alloc_spec tc qs Hc) as [(t & task & Et & Hf & Hlow & E)|H]; [left|by right].
  eexists t, task, _. split_and!; try done. split; [|exact Ht].
  apply (core_idle_task _ _ Hc t task); try done.
  - by rewrite Hf.
  - simpl. by apply (sc_level _ _ Hc t).
Qed.

(** ** A concrete scheduler: tasks 0 and 1 on level 0, task 2 on level 9 *)
Definition spawn (tc : TASKCTL) (level priority : Z) : option TASKCTL :=
  '(t, tc) ← mprocess_task_alloc tc; mprocess_task_run tc t level priority.

Definition demo_tc : TASKCTL :=
  default taskctl_init
    (tc ← spawn taskctl_init 0 2; tc ← spawn tc 0 3; tc ← spawn tc 9 1;
     __mprocess_task_update_currentlv tc).

Definition demo_qs : list (list Z) := [0; 1] :: replicate 8 [] ++ [[2]].
Definition demo_task (t : Z) : TASK := default (task_init 0) ((tasks0 demo_tc)$[t]).
Definition demo_level : TASKLEVEL := default (mkTASKLEVEL 0 0 []) (tc_level demo_tc !! 0%nat).

Lemma demo_sched : sched_repr demo_tc demo_qs.
Proof.
  split; [apply sched_check_sound; vm_compute; reflexivity|].
  intros _. split; [intros k Hk; vm_compute in Hk; lia|].
  exists [0; 1]. split; [vm_compute; reflexivity|left; discriminate].
Qed.

Lemma demo_current : current demo_tc demo_qs 0.
Proof. exists demo_level, [0; 1]. split_and!; vm_compute; reflexivity. Qed.

Lemma task_run_correct_witness :
  exists tc, mprocess_task_run demo_tc (Some 1) 5 0 = Some tc /\ lv_change tc = true.
Proof.
  destruct (task_run_correct demo_tc demo_qs 1 (demo_task 1) 5 0 demo_sched)
    as (tc & E & _ & L & _); [vm_compute; reflexivity|concrete| |exists tc; split; [exact E|exact L]].
  intros q Hq. vm_compute in Hq. injection Hq as <-. vm_compute. lia.
Defined.

Lemma task_sleep_other_witness :
  exists tc, mprocess_task_sleep demo_tc (Some 1) = Some (tc, None).
Proof.
  destruct (task_sleep_other demo_tc demo_qs 1 0 (demo_task 1) demo_sched) as (tc & E & _);
    [vm_compute; reflexivity|vm_compute; reflexivity|exact demo_current|discriminate|].
  exists tc. exact E.
Defined.

Lemma task_sleep_current_witness :
  exists tc d taskd, mprocess_task_sleep demo_tc (Some 0) = Some (tc, Some (t_gdtSegmentSelector taskd))
    /\ (tasks0 tc)$[d] = Some taskd /\ d <> 0.
Proof.
  destruct (task_sleep_current demo_tc demo_qs 0 (demo_task 0) demo_sched)
    as (tc & d & taskd & E & _ & _ & _ & Ed & Hd);
    [vm_compute; reflexivity|vm_compute; reflexivity|exact demo_current| |].
  - exists 0%nat, [1]. split; [vm_compute; reflexivity|discriminate].
  - exists tc, d, taskd. split; [exact E|]. split; [exact Ed|exact Hd].
Defined.

Lemma autoswitch_round_robin_witness :
  exists tc c, switches 5 demo_tc = Some tc /\ mprocess_task_get_current tc = Some (Some c)
    /\ [0; 1] !! 1%nat = Some c.
Proof.
  destruct (autoswitch_round_robin 5 demo_tc demo_qs demo_level [0; 1] demo_sched)
    as (tc & c & E & _ & G & Q); [vm_compute; reflexivity..|discriminate|].
  exists tc, c. split; [exact E|]. split; [exact G|exact Q].
Defined.

Lemma autoswitch_fair_witness :
  exists n tc, (n < 2)%nat /\ switches n demo_tc = Some tc
    /\ mprocess_task_get_current tc = Some (Some 1).
Proof.
  apply (autoswitch_fair demo_tc demo_qs [0; 1] 1 demo_sched); [vm_compute; reflexivity..|].
  by apply list_elem_of_lookup_2 with 1%nat.
Defined.

(** The same with task 2 woken on level 0 while task 0 is the current one. *)
Definition demo_pending : TASKCTL := default taskctl_init (mprocess_task_run demo_tc (Some 2) 3 0).
Definition demo_pending_qs : list (list Z) := [0; 1] :: [] :: [] :: [2] :: replicate 6 [].

Lemma autoswitch_priority_witness :
  exists tc c d, autoswitch_next demo_pending = Some (tc, Some c, Some d).
Proof.
  destruct (autoswitch_priority demo_pending demo_pending_qs demo_level [0; 1])
    as (tc & c & d & _ & _ & E & _); [|vm_compute; reflexivity..|discriminate|].
  - split; [apply sched_check_sound; vm_compute; reflexivity|]. intros E. vm_compute in E. discriminate E.
  - exists tc, c, d. exact E.
Defined.

Lemma task_alloc_correct_witness :
  exists t tc, mprocess_task_alloc demo_tc = Some (Some t, tc).
Proof.
  destruct (task_alloc_correct demo_tc demo_qs demo_sched)
    as [(t & task & tc & _ & _ & _ & E & _)|[H _]].
  - exists t, tc. exact E.
  - destruct (H 3 (demo_task 3)); vm_compute; reflexivity.
Defined.

(** The turn of a level can be left past its end: when the only task of the
    current level is moved to another level, the next switch increments [now] of
    the empty level to 1; once a task is put on that level again, the current
    task is read from an entry beyond the running ones, which is NULL. *)
Theorem stale_turn :
  exists tc1 tc2 tc3,
    (tc ← spawn taskctl_init 0 2; tc ← spawn tc 9 1; __mprocess_task_update_currentlv tc) = Some tc1
    /\ (tc ← mprocess_task_run tc1 (Some 0) 5 0; autoswitch_next tc) = Some (tc2, Some 0, Some 0)
    /\ mprocess_task_run tc2 (Some 0) 0 0 = Some tc3
    /\ (tl_running <$> (tc_level tc3)$[0]) = Some 1
    /\ exists tc4 c, autoswitch_next tc3 = Some (tc4, c, None).
Proof.
  eexists _, _, _. split; [vm_compute; reflexivity|]. split; [vm_compute; reflexivity|].
  split; [vm_compute; reflexivity|]. split; [vm_compute; reflexivity|].
  eexists _, _. vm_compute. reflexivity.
Qed.
