(* ===== verification/Timer.v ===== *)
(** * The timers of src/src/pic/timer.{h,c}

    A [TIMER *] is an index into [timerctl.timer], [None] being the null pointer;
    the [timerDL] node of a timer is stored in the links under the same index, so
    [container_of] is the identity.  A FIFO is known by its address.  What the
    timers call in other parts of the kernel (enqueuing into a FIFO, releasing
    one, switching tasks) acts on a further state [W] and is a parameter here;
    [Sched] supplies the kernel's own functions. *)
From Stdlib Require Import ZArith Lia.
From stdpp Require Import base option list gmap numbers.
From S2P Require Import Prelude Dlist.

Set Default Proof Using "Type".

Definition OS_MAX_TIMER : Z := 500.
Definition TIMER_FLAGS_FREE : Z := 0.
Definition TIMER_FLAGS_ALLOCATED : Z := 1.
Definition TIMER_FLAGS_ONCOUNTDOWN : Z := 2.
Definition TIMER_FLAGS_GUARDNODE : Z := 0xffff.

(** ** Data *)
Record TIMER := mkTIMER {
  target_tick : Z;
  tm_flags : Z;
  tm_fifo : option Z;
  tm_data : Z
}.

Record TIMERCTL := mkTIMERCTL {
  tick : Z;
  listtail : Z;
  next_alarm_on_tick : Z;
  timer : list TIMER;
  timerDL : dstore;
  tssTimer : option Z
}.

Definition set_tick (c : TIMERCTL) (t : Z) : TIMERCTL :=
  mkTIMERCTL t (listtail c) (next_alarm_on_tick c) (timer c) (timerDL c) (tssTimer c).
Definition set_alarm (c : TIMERCTL) (a : Z) : TIMERCTL :=
  mkTIMERCTL (tick c) (listtail c) a (timer c) (timerDL c) (tssTimer c).
Definition set_timers (c : TIMERCTL) (ts : list TIMER) : TIMERCTL :=
  mkTIMERCTL (tick c) (listtail c) (next_alarm_on_tick c) ts (timerDL c) (tssTimer c).
Definition set_timerDL (c : TIMERCTL) (st : dstore) : TIMERCTL :=
  mkTIMERCTL (tick c) (listtail c) (next_alarm_on_tick c) (timer c) st (tssTimer c).
Definition set_tssTimer (c : TIMERCTL) (t : option Z) : TIMERCTL :=
  mkTIMERCTL (tick c) (listtail c) (next_alarm_on_tick c) (timer c) (timerDL c) t.

(** An assignment to fields of the timer [t], and a list operation. *)
Definition upd_timer (c : TIMERCTL) (t : Z) (f : TIMER -> TIMER) : option TIMERCTL :=
  tm ← (timer c)$[t];
  ts ← (timer c)$[t := f tm];
  Some (set_timers c ts).

Definition on_timerDL (f : dstore -> option (dstore * bool)) (c : TIMERCTL) : option TIMERCTL :=
  r ← f (timerDL c); Some (set_timerDL c r.1).

(** ** Operations *)
Definition timer_default (_ : TIMER) : TIMER := mkTIMER UINT32_MAX TIMER_FLAGS_FREE None 0.

Definition __timer_set_default_params (c : TIMERCTL) (t : option Z) : option TIMERCTL :=
  match t with
  | None => Some c
  | Some t =>
      c ← upd_timer c t timer_default;
      Some (set_timerDL c (dlist_init (timerDL c) t))
  end.

Definition timerctl_init (c : TIMERCTL) : option TIMERCTL :=
  let c := set_alarm (set_tick c 0) UINT32_MAX in
  let timerTail := OS_MAX_TIMER - 1 in
  let c := mkTIMERCTL (tick c) timerTail (next_alarm_on_tick c) (timer c) (timerDL c) (tssTimer c) in
  c ← __timer_set_default_params c (Some timerTail);
  c ← upd_timer c timerTail (fun t => mkTIMER (target_tick t) TIMER_FLAGS_GUARDNODE (tm_fifo t) (tm_data t));
  r ← for_range 0 (OS_MAX_TIMER - 1) (fun i '(c, prev) =>
        c ← __timer_set_default_params c (Some i);
        c ← on_timerDL (fun st => dlist_insert_after st prev i) c;
        Some (c, i)) (c, timerTail);
  Some r.1.

Definition __get_timer_prev (c : TIMERCTL) (t : Z) : option Z := d_prev <$> timerDL c !! t.
Definition __get_timer_next (c : TIMERCTL) (t : Z) : option Z := d_next <$> timerDL c !! t.

Definition timer_alloc_customfifo (c : TIMERCTL) (fifo32 : option Z) : option (option Z * TIMERCTL) :=
  r ← loop_until (Z.to_nat OS_MAX_TIMER) 0 (fun i c =>
        t ← (timer c)$[i];
        if tm_flags t =? TIMER_FLAGS_FREE then
          c ← upd_timer c i (fun t => mkTIMER (target_tick t) TIMER_FLAGS_ALLOCATED fifo32 (tm_data t));
          c ← on_timerDL (fun st => dlist_remove st i) c;
          Some (Return c i)
        else Some (Continue c)) c;
  match r with
  | Return c i => Some (Some i, c)
  | Continue c | Break c => Some (None, c)
  end.

(** [PIT_init], without the output to the ports of the interval timer. *)
Definition PIT_init (c : TIMERCTL) : option TIMERCTL :=
  c ← timerctl_init c;
  '(t, c) ← timer_alloc_customfifo c None;
  Some (set_tssTimer c t).

Definition timer_get_tssTimer (c : TIMERCTL) : option Z := tssTimer c.
Definition timer_gettick (c : TIMERCTL) : Z := s32 (tick c).

(** The search for the place of [timer]: insert before the first timer after
    [head] that fires no earlier. *)
Definition insert_by_tick (c : TIMERCTL) (head t target : Z) : option TIMERCTL :=
  r ← list_for_each_entry (R := unit) timerDL (Z.to_nat OS_MAX_TIMER) head (fun pos c =>
        p ← (timer c)$[pos];
        if target_tick p >=? target then
          c ← on_timerDL (fun st => dlist_insert_before st pos t) c;
          Some (Break (pos, c))
        else Some (Continue (pos, c))) c;
  match r with
  | Continue c | Break c | Return c _ => Some c
  end.

(** Setting the parameters of a timer that is armed, and the next alarm. *)
Definition arm (c : TIMERCTL) (t timeout data : Z) : option (TIMERCTL * Z) :=
  let target := u32 (tick c + timeout) in
  c ← upd_timer c t (fun tm => mkTIMER target TIMER_FLAGS_ONCOUNTDOWN (tm_fifo tm) data);
  Some (if next_alarm_on_tick c >? target then set_alarm c target else c, target).

(** A timer that leaves its place takes the next alarm with it. *)
Definition drop_alarm (c : TIMERCTL) (t : Z) : option TIMERCTL :=
  tm ← (timer c)$[t];
  if next_alarm_on_tick c =? target_tick tm then
    nextTimer ← __get_timer_next c t;
    n ← (timer c)$[nextTimer];
    Some (set_alarm c (target_tick n))
  else Some c.

Definition timer_settimer (c : TIMERCTL) (t : option Z) (timeout data : Z) : option TIMERCTL :=
  match t with
  | None => Some c
  | Some t =>
      tm ← (timer c)$[t];
      let data := if data =? 0 then tm_data tm else data in
      c ← (if tm_flags tm =? TIMER_FLAGS_ONCOUNTDOWN then
             c ← drop_alarm c t;
             prevTimer ← __get_timer_prev c t;
             c ← on_timerDL (fun st => dlist_remove st t) c;
             '(c, target) ← arm c t timeout data;
             p ← (timer c)$[prevTimer];
             let head := if target_tick p <? target then prevTimer else listtail c in
             insert_by_tick c head t target
           else Some c);
      tm ← (timer c)$[t];
      if tm_flags tm =? TIMER_FLAGS_ALLOCATED then
        '(c, target) ← arm c t timeout data;
        insert_by_tick c (listtail c) t target
      else Some c
  end.

Section effects.
Context {W : Type}.

(** [kfree(fifo->fifo32.buf); kfree(fifo)] *)
Context (kfree_fifo : Z -> W -> option W).

Definition timer_free (c : TIMERCTL) (w : W) (t : option Z) : option (TIMERCTL * W) :=
  match t with
  | None => Some (c, w)
  | Some t =>
      tm ← (timer c)$[t];
      if tm_flags tm =? TIMER_FLAGS_GUARDNODE then Some (c, w)
      else
        c ← (if tm_flags tm =? TIMER_FLAGS_ONCOUNTDOWN then drop_alarm c t else Some c);
        c ← on_timerDL (fun st => dlist_remove st t) c;
        w ← match tm_fifo tm with Some f => kfree_fifo f w | None => Some w end;
        c ← __timer_set_default_params c (Some t);
        c ← on_timerDL (fun st => dlist_insert_before st (listtail c) t) c;
        Some (c, w)
  end.

(** [mpfifo32_enqueue] and [mprocess_task_autoswitch] *)
Context (enqueue : option Z -> Z -> W -> option W).
Context (autoswitch : TIMERCTL -> W -> option (TIMERCTL * W)).

(** One iteration of the handler's loop at the timer [pos]. *)
Definition fire_body (pos : Z) (s : TIMERCTL * W * bool)
  : option (step (Z * (TIMERCTL * W * bool)) unit) :=
  let '(c, w, isTss) := s in
  tm ← (timer c)$[pos];
  if target_tick tm >? tick c then Some (Break (pos, s))
  else
    let isTss := isTss || bool_decide (tssTimer c = Some pos) in
    w ← enqueue (tm_fifo tm) (tm_data tm) w;
    prevTimer ← __get_timer_prev c pos;
    c ← upd_timer c pos (fun t => mkTIMER (target_tick t) TIMER_FLAGS_ALLOCATED (tm_fifo t) (tm_data t));
    c ← on_timerDL (fun st => dlist_remove st pos) c;
    Some (Continue (prevTimer, (c, w, isTss))).

(** [cli] says whether interrupts are disabled, on entry and on return. *)
Definition timer_int_handler (c : TIMERCTL) (w : W) (cli : bool)
  : option (TIMERCTL * W * bool) :=
  let c := set_tick c (u32 (tick c + 1)) in
  if next_alarm_on_tick c >? tick c then Some (c, w, true)
  else
    r ← list_for_each_entry (fun s => timerDL s.1.1) (Z.to_nat OS_MAX_TIMER) (listtail c)
          fire_body (c, w, false);
    let '(c, w, isTss) := match r with Continue s | Break s | Return s _ => s end in
    firstTimer ← __get_timer_next c (listtail c);
    f ← (timer c)$[firstTimer];
    let c := set_alarm c (target_tick f) in
    if isTss : bool then r ← autoswitch c w; Some (r.1, r.2, cli)
    else Some (c, w, cli).
End effects.
