(* ===== verification/TimerInv.v ===== *)
(** * The invariant of the timers

    [timer_repr c l fr]: the list of timers reads, from the guard node on, first
    the armed timers [l] in the order of their targets, then the free ones [fr];
    an allocated timer that is not armed is on its own; the next alarm is the
    target of the first armed timer. *)
From Stdlib Require Import ZArith Lia.
From stdpp Require Import base option list gmap numbers sorting.
From S2P Require Import Prelude Dlist Timer.

Set Default Proof Using "Type".

Definition guard : Z := OS_MAX_TIMER - 1.

Definition tgt (c : TIMERCTL) (i : Z) : Z := default UINT32_MAX (target_tick <$> (timer c)$[i]).
Definition flag (c : TIMERCTL) (i : Z) : option Z := tm_flags <$> (timer c)$[i].

(** The next alarm for the armed timers [l]. *)
Definition alarm_of (c : TIMERCTL) (l : list Z) : Z := hd UINT32_MAX (map (tgt c) l).

Definition by_tick (c : TIMERCTL) : list Z -> Prop := StronglySorted (fun i j => tgt c i <= tgt c j).

Record timer_repr (c : TIMERCTL) (l fr : list Z) : Prop := {
  tr_len : length (timer c) = Z.to_nat OS_MAX_TIMER;
  tr_tail : listtail c = guard;
  tr_guard : flag c guard = Some TIMER_FLAGS_GUARDNODE /\ tgt c guard = UINT32_MAX;
  tr_ring : dring (timerDL c) guard (l ++ fr);
  tr_armed : forall i, i ∈ l <-> flag c i = Some TIMER_FLAGS_ONCOUNTDOWN;
  tr_free : forall i, i ∈ fr <-> flag c i = Some TIMER_FLAGS_FREE;
  tr_free_tgt : forall i, i ∈ fr -> tgt c i = UINT32_MAX;
  tr_alone : forall i, flag c i = Some TIMER_FLAGS_ALLOCATED -> dring (timerDL c) i [];
  tr_sorted : by_tick c l;
  tr_range : forall i, 0 <= tgt c i <= UINT32_MAX;
  tr_alarm : next_alarm_on_tick c = alarm_of c l
}.

(** ** Updates of one timer *)
Lemma upd_timer_eq c t tm f :
  (timer c)$[t] = Some tm -> upd_timer c t f = Some (set_timers c (<[Z.to_nat t := f tm]> (timer c))).
Proof.
  intros H. unfold upd_timer. rewrite H. simpl. by rewrite updateZ_in by (by eapply lookupZ_lt).
Qed.

Section update.
Context (c c' : TIMERCTL) (t : Z) (tm tm' : TIMER).
Context (Et : (timer c)$[t] = Some tm) (Hc' : timer c' = <[Z.to_nat t := tm']> (timer c)).

Lemma timer_upd i : (timer c')$[i] = if decide (t = i) then Some tm' else (timer c)$[i].
Proof using Et Hc'. rewrite Hc'. apply lookupZ_insert. by eapply lookupZ_lt. Qed.

Lemma flag_upd i : flag c' i = if decide (t = i) then Some (tm_flags tm') else flag c i.
Proof using Et Hc'. unfold flag. rewrite timer_upd. by case_decide. Qed.

Lemma tgt_upd i : tgt c' i = if decide (t = i) then target_tick tm' else tgt c i.
Proof using Et Hc'. unfold tgt. rewrite timer_upd. by case_decide. Qed.

Lemma length_upd : length (timer c') = length (timer c).
Proof using Hc'. rewrite Hc'. apply length_insert. Qed.
End update.

Lemma flag_timer c i f : flag c i = Some f -> exists tm, (timer c)$[i] = Some tm /\ tm_flags tm = f.
Proof. unfold flag. intros (tm & E & ->)%fmap_Some. by exists tm. Qed.

Lemma tgt_timer c i tm : (timer c)$[i] = Some tm -> tgt c i = target_tick tm.
Proof. intros E. unfold tgt. by rewrite E. Qed.

Section facts.
Context (c : TIMERCTL) (l fr : list Z) (Hr : timer_repr c l fr).

Lemma ring_flag i : i ∈ guard :: l ++ fr -> flag c i <> Some TIMER_FLAGS_ALLOCATED.
Proof using Hr.
  intros [->|[Hi|Hi]%elem_of_app]%elem_of_cons.
  - rewrite (proj1 (tr_guard _ _ _ Hr)). done.
  - apply (tr_armed _ _ _ Hr) in Hi. by rewrite Hi.
  - apply (tr_free _ _ _ Hr) in Hi. by rewrite Hi.
Qed.

Lemma alone_disj t :
  flag c t = Some TIMER_FLAGS_ALLOCATED -> disj (guard :: l ++ fr) [t].
Proof using Hr.
  intros Ht p q Hp ->%list_elem_of_singleton ->. by eapply ring_flag.
Qed.

Lemma ring_length : (length (l ++ fr) < Z.to_nat OS_MAX_TIMER)%nat.
Proof using Hr.
  destruct (tr_ring _ _ _ Hr) as [ND _].
  assert (Hsub : guard :: l ++ fr ⊆ seqZ 0 OS_MAX_TIMER).
  { intros i Hi. apply elem_of_seqZ.
    assert (is_Some (flag c i)) as [f [tm [E _]]%flag_timer].
    { apply elem_of_cons in Hi as [->|[Hi|Hi]%elem_of_app].
      - rewrite (proj1 (tr_guard _ _ _ Hr)). done.
      - apply (tr_armed _ _ _ Hr) in Hi. by rewrite Hi.
      - apply (tr_free _ _ _ Hr) in Hi. by rewrite Hi. }
    apply lookupZ_lt in E. rewrite (tr_len _ _ _ Hr) in E. lia. }

  pose proof (NoDup_submseteq _ _ ND Hsub) as Hm. apply submseteq_length in Hm.
  rewrite length_seqZ in Hm. simpl in Hm. lia.
Qed.

(** No armed timer has an earlier target than the next alarm. *)
Lemma alarm_le i : i ∈ l -> next_alarm_on_tick c <= tgt c i.
Proof using Hr.
  intros Hi. rewrite (tr_alarm _ _ _ Hr). pose proof (tr_sorted _ _ _ Hr) as HS.
  unfold alarm_of. clear -Hi HS. destruct l as [|j l']; [by apply elem_of_nil in Hi|]. simpl.
  apply elem_of_cons in Hi as [->|Hi]; [done|].
  apply StronglySorted_inv in HS as [_ HF]. rewrite list.Forall_forall in HF. by apply HF.
Qed.
End facts.

(** Sortedness only depends on the targets of the timers of the list. *)
Lemma by_tick_ext c c' l :
  (forall i, i ∈ l -> tgt c' i = tgt c i) -> by_tick c l -> by_tick c' l.
Proof.
  intros H HS. induction HS as [|i l HS IH HF]; constructor.
  - apply IH. intros j Hj. apply H. by apply elem_of_cons; right.
  - rewrite list.Forall_forall in HF |- *. intros j Hj.
    rewrite !H by (rewrite elem_of_cons; auto). by apply HF.
Qed.

Lemma alarm_of_ext c c' l :
  (forall i, i ∈ l -> tgt c' i = tgt c i) -> alarm_of c' l = alarm_of c l.
Proof. intros H. destruct l; [done|]. apply H. by apply elem_of_cons; left. Qed.

(** ** Placing a timer

    [detached t c l fr]: the invariant holds but for the timer [t], which is on
    its own whatever its flag. *)
Record detached (t : Z) (c : TIMERCTL) (l fr : list Z) : Prop := {
  dt_len : length (timer c) = Z.to_nat OS_MAX_TIMER;
  dt_tail : listtail c = guard;
  dt_guard : flag c guard = Some TIMER_FLAGS_GUARDNODE /\ tgt c guard = UINT32_MAX;
  dt_ring : dring (timerDL c) guard (l ++ fr);
  dt_this : t ∉ guard :: l ++ fr;
  dt_exists : is_Some ((timer c)$[t]);
  dt_node : dring (timerDL c) t [];
  dt_armed : forall i, i <> t -> (i ∈ l <-> flag c i = Some TIMER_FLAGS_ONCOUNTDOWN);
  dt_free : forall i, i <> t -> (i ∈ fr <-> flag c i = Some TIMER_FLAGS_FREE);
  dt_free_tgt : forall i, i ∈ fr -> tgt c i = UINT32_MAX;
  dt_alone : forall i, i <> t -> flag c i = Some TIMER_FLAGS_ALLOCATED -> dring (timerDL c) i [];
  dt_sorted : by_tick c l;
  dt_range : forall i, 0 <= tgt c i <= UINT32_MAX;
  dt_alarm : next_alarm_on_tick c = alarm_of c l
}.

Lemma allocated_detached c l fr t :
  timer_repr c l fr -> flag c t = Some TIMER_FLAGS_ALLOCATED -> detached t c l fr.
Proof.
  intros Hr Ht. constructor; try apply Hr; try (intros; by apply Hr).
  - intros Hi. by eapply (ring_flag _ _ _ Hr).
  - destruct (flag_timer _ _ _ Ht) as (tm & -> & _). done.
  - exact Ht.
Qed.

(** The timers of the ring exist. *)
Lemma detached_exists t c l fr i :
  detached t c l fr -> i ∈ guard :: l ++ fr -> exists tm, (timer c)$[i] = Some tm.
Proof.
  intros Hd Hi. assert (Hne : i <> t) by (intros ->; by eapply dt_this).
  assert (is_Some (flag c i)) as [f [tm [E _]]%flag_timer]; [|by exists tm].
  apply elem_of_cons in Hi as [->|[Hi|Hi]%elem_of_app].
  - by rewrite (proj1 (dt_guard _ _ _ _ Hd)).
  - apply (dt_armed _ _ _ _ Hd i Hne) in Hi. by rewrite Hi.
  - apply (dt_free _ _ _ _ Hd i Hne) in Hi. by rewrite Hi.
Qed.

Lemma detached_length t c l fr :
  detached t c l fr -> (length (l ++ fr) < Z.to_nat OS_MAX_TIMER - 1)%nat.
Proof.
  intros Hd. destruct (dt_ring _ _ _ _ Hd) as [ND _].
  assert (ND' : NoDup (t :: guard :: l ++ fr)) by (apply list.NoDup_cons; split; [apply Hd|done]).
  assert (Hsub : t :: guard :: l ++ fr ⊆ seqZ 0 OS_MAX_TIMER).
  { intros i Hi. apply elem_of_seqZ.
    assert (exists tm, (timer c)$[i] = Some tm) as [tm E].
    { apply elem_of_cons in Hi as [->|Hi]; [apply Hd|by eapply detached_exists]. }
    apply lookupZ_lt in E. rewrite (dt_len _ _ _ _ Hd) in E. lia. }
  pose proof (NoDup_submseteq _ _ ND' Hsub) as Hm. apply submseteq_length in Hm.
  rewrite length_seqZ in Hm. simpl in Hm. lia.
Qed.

(** A change of the links of the list and of [t] keeps the others on their own. *)
Lemma detached_alone t c l fr st' i :
  detached t c l fr -> same_outside (guard :: (l ++ fr) ++ [t]) (timerDL c) st' ->
  t <> i -> flag c i = Some TIMER_FLAGS_ALLOCATED -> dring st' i [].
Proof.
  intros Hd F Hi Hfi. eapply dring_same_outside; [by apply (dt_alone _ _ _ _ Hd i)|exact F|].
  intros q ->%list_elem_of_singleton Hq. rewrite app_comm_cons, elem_of_app, list_elem_of_singleton in Hq.
  destruct Hq as [Hq|Hq]; [|congruence]. revert Hfi.
  apply elem_of_cons in Hq as [->|[Hq|Hq]%elem_of_app].
  - by rewrite (proj1 (dt_guard _ _ _ _ Hd)).
  - apply (dt_armed _ _ _ _ Hd) in Hq; [|done]. by rewrite Hq.
  - apply (dt_free _ _ _ _ Hd) in Hq; [|done]. by rewrite Hq.
Qed.

(** The search and the insertion, on any ring. *)
Lemma insert_by_tick_at c head m p m' t target :
  dring (timerDL c) head (m ++ p :: m') -> (length m < Z.to_nat OS_MAX_TIMER)%nat ->
  (forall q, q ∈ m ++ [p] -> is_Some ((timer c)$[q])) ->
  (forall q, q ∈ m -> tgt c q < target) -> target <= tgt c p ->
  dring (timerDL c) t [] -> t ∉ head :: m ++ p :: m' ->
  exists st', insert_by_tick c head t target = Some (set_timerDL c st')
    /\ dring st' head (m ++ t :: p :: m')
    /\ same_outside (head :: (m ++ p :: m') ++ [t]) (timerDL c) st'.
Proof.
  intros Hr Hlen Hex Hlt Hge Ht Hni.
  destruct (dlist_insert_before_inner _ _ _ _ _ t [] Hr Ht) as (st' & E & R & F).
  { intros x y Hx ->%list_elem_of_singleton ->. done. }
  exists st'. split; [|done]. unfold insert_by_tick.
  rewrite (list_for_each_at _ _ _ _ m p m'); [|done|lia|].
  - destruct (Z.to_nat OS_MAX_TIMER - length m)%nat as [|k] eqn:Ek; [lia|]. cbn [for_each_from].
    destruct (Z.eqb_spec p head) as [->|_].
    { destruct Hr as [ND _]. apply list.NoDup_cons in ND as [Hn _]. exfalso. apply Hn.
      rewrite elem_of_app, elem_of_cons. tauto. }
    destruct (Hex p) as [tm Etm]; [rewrite elem_of_app, list_elem_of_singleton; tauto|].
    rewrite Etm. simpl. rewrite (tgt_timer _ _ _ Etm) in Hge.
    rewrite Z.geb_leb, (proj2 (Z.leb_le _ _) Hge). unfold on_timerDL. rewrite E. done.
  - intros q Hq. destruct (Hex q) as [tm Etm]; [rewrite elem_of_app; tauto|].
    rewrite Etm. simpl. specialize (Hlt q Hq). rewrite (tgt_timer _ _ _ Etm) in Hlt.
    rewrite Z.geb_leb. by rewrite (proj2 (Z.leb_gt _ _) Hlt).
Qed.

(** The place of a target in the order. *)
Lemma by_tick_split c l target :
  by_tick c l ->
  exists l1 l2, l = l1 ++ l2 /\ (forall i, i ∈ l1 -> tgt c i < target)
    /\ (forall i, i ∈ l2 -> target <= tgt c i).
Proof.
  induction 1 as [|i l HS (l1 & l2 & -> & H1 & H2) HF].
  - exists [], []. split_and!; [done|by intros ? ?%elem_of_nil..].
  - destruct (Z.lt_ge_cases (tgt c i) target) as [Hlt|Hge].
    + exists (i :: l1), l2. split_and!; [done| |done].
      intros j [->|Hj]%elem_of_cons; auto.
    + exists [], (i :: l1 ++ l2). split_and!; [done|by intros ? ?%elem_of_nil|].
      intros j [->|Hj]%elem_of_cons; [done|]. rewrite list.Forall_forall in HF.
      specialize (HF j Hj). lia.
Qed.

Lemma by_tick_insert c l1 l2 t target :
  by_tick c (l1 ++ l2) -> tgt c t = target -> (forall i, i ∈ l1 -> tgt c i < target) ->
  (forall i, i ∈ l2 -> target <= tgt c i) -> by_tick c (l1 ++ t :: l2).
Proof.
  intros HS Ht H1 H2. unfold by_tick in *. apply StronglySorted_app in HS as (Hx & HS1 & HS2).
  apply StronglySorted_app. split_and!; [|done|].
  - intros i j Hi Hj. apply elem_of_cons in Hj as [->|Hj]; [specialize (H1 i Hi); lia|by apply Hx].
  - constructor; [done|]. apply list.Forall_forall. intros j Hj. rewrite Ht. by apply H2.
Qed.

Section armed.
Context (t : Z) (c : TIMERCTL) (l1 l2 fr : list Z).
Context (Hd : detached t c (l1 ++ l2) fr).
Context (target : Z) (Htgt : 0 <= target <= UINT32_MAX).
Context (H1 : forall i, i ∈ l1 -> tgt c i < target) (H2 : forall i, i ∈ l2 -> target <= tgt c i).

(** The alarm after a target was added. *)
Lemma alarm_insert c' :
  (forall i, i ∈ l1 ++ l2 -> tgt c' i = tgt c i) -> tgt c' t = target ->
  alarm_of c' (l1 ++ t :: l2) = Z.min (alarm_of c (l1 ++ l2)) target.
Proof using H1 H2 Htgt.
  clear Hd. intros He Ht. unfold alarm_of. destruct l1 as [|i l1']; simpl.
  - rewrite Ht. destruct l2 as [|j l2']; simpl; [lia|].
    assert (target <= tgt c j) by (apply H2; by apply elem_of_cons; left). lia.
  - assert (tgt c i < target) by (apply H1; by apply elem_of_cons; left).
    rewrite He by (by apply elem_of_cons; left). lia.
Qed.

Lemma armed_repr c2 tm tm' :
  (timer c)$[t] = Some tm -> timer c2 = <[Z.to_nat t := tm']> (timer c) ->
  tm_flags tm' = TIMER_FLAGS_ONCOUNTDOWN -> target_tick tm' = target ->
  listtail c2 = listtail c ->
  dring (timerDL c2) guard (l1 ++ t :: l2 ++ fr) ->
  same_outside (guard :: ((l1 ++ l2) ++ fr) ++ [t]) (timerDL c) (timerDL c2) ->
  next_alarm_on_tick c2 = Z.min (next_alarm_on_tick c) target ->
  timer_repr c2 (l1 ++ t :: l2) fr.
Proof using Hd Htgt H1 H2.
  intros Et Ets Hf Htt Hlt R F Ha.
  pose proof (flag_upd _ _ _ _ _ Et Ets) as FU. pose proof (tgt_upd _ _ _ _ _ Et Ets) as TU.
  pose proof (dt_this _ _ _ _ Hd) as Hni.
  assert (Hne : forall i, i ∈ guard :: (l1 ++ l2) ++ fr -> i <> t) by (by intros i Hi ->).
  assert (Hold : forall i, i ∈ (l1 ++ l2) ++ fr -> tgt c2 i = tgt c i).
  { intros i Hi. rewrite TU, decide_False; [done|]. intros <-.
    eapply Hne; [|done]. by apply elem_of_cons; right. }
  assert (Ht : tgt c2 t = target) by (by rewrite TU, decide_True).
  assert (Hl : forall i, i ∈ l1 ++ l2 -> tgt c2 i = tgt c i)
    by (intros; apply Hold; rewrite elem_of_app; tauto).
  constructor.
  - rewrite (length_upd _ _ _ _ Ets). apply Hd.
  - rewrite Hlt. apply Hd.
  - assert (t <> guard) by (intros E; eapply (Hne guard); [by apply elem_of_cons; left|done]).
    rewrite FU, TU, !decide_False by done. apply Hd.
  - rewrite <- app_assoc. exact R.
  - intros i. rewrite FU. case_decide as Hi.
    + subst i. rewrite Hf, elem_of_app, elem_of_cons. tauto.
    + rewrite elem_of_app, elem_of_cons, <- (dt_armed _ _ _ _ Hd i), elem_of_app by done.
      naive_solver.
  - intros i. rewrite FU. case_decide as Hi; [|by apply (dt_free _ _ _ _ Hd)].
    subst i. rewrite Hf. split; [|done]. intros Hin. exfalso. apply Hni.
    rewrite elem_of_cons, !elem_of_app. tauto.
  - intros i Hi. rewrite Hold by (rewrite elem_of_app; tauto). by apply Hd.
  - intros i. rewrite FU. case_decide as Hi; [by rewrite Hf|]. intros Hfi.
    by eapply (detached_alone _ _ _ _ _ _ Hd).
  - apply (by_tick_insert _ _ _ _ target); [|done|..].
    + eapply by_tick_ext; [exact Hl|apply Hd].
    + intros i Hi. rewrite Hl by (rewrite elem_of_app; tauto). auto.
    + intros i Hi. rewrite Hl by (rewrite elem_of_app; tauto). auto.
  - intros i. rewrite TU. case_decide; [by rewrite Htt|apply Hd].
  - rewrite Ha, (dt_alarm _ _ _ _ Hd). symmetry. by apply alarm_insert.
Qed.
End armed.

(** What [arm] leaves. *)
Lemma arm_spec c t tm timeout data :
  (timer c)$[t] = Some tm ->
  let target := u32 (tick c + timeout) in
  exists c1, arm c t timeout data = Some (c1, target)
    /\ timer c1 = <[Z.to_nat t := mkTIMER target TIMER_FLAGS_ONCOUNTDOWN (tm_fifo tm) data]> (timer c)
    /\ listtail c1 = listtail c /\ timerDL c1 = timerDL c /\ tick c1 = tick c
    /\ tssTimer c1 = tssTimer c
    /\ next_alarm_on_tick c1 = Z.min (next_alarm_on_tick c) target.
Proof.
  intros Et target. unfold arm. rewrite (upd_timer_eq _ _ _ _ Et), bind_Some_eq. fold target.
  eexists. split; [done|]. simpl.
  destruct (next_alarm_on_tick c >? target) eqn:E; rewrite Z.gtb_ltb in E; simpl; split_and!; try done.
  - apply Z.ltb_lt in E. lia.
  - apply Z.ltb_ge in E. lia.
Qed.

Lemma u32_uint32 z : 0 <= u32 z <= UINT32_MAX.
Proof. pose proof (u32_range z). unfold UINT32_MAX. lia. Qed.

(** ** Taking a timer out of the list *)
Section detach.
Context (c : TIMERCTL) (l fr : list Z) (Hr : timer_repr c l fr).
Context (t : Z) (ra rb l0 fr0 : list Z).
Context (Hring : l ++ fr = ra ++ t :: rb) (Hrest : ra ++ rb = l0 ++ fr0).
Context (Hl0 : forall i, i <> t -> (i ∈ l0 <-> i ∈ l)) (Hfr0 : forall i, i <> t -> (i ∈ fr0 <-> i ∈ fr)).
Context (Hs0 : by_tick c l0).

Lemma detach_fresh : t ∉ guard :: l0 ++ fr0.
Proof using Hr Hring Hrest.
  destruct (tr_ring _ _ _ Hr) as [ND _]. rewrite Hring in ND. rewrite <- Hrest. clear -ND.
  rewrite list.NoDup_cons in ND. destruct ND as [Hg ND]. rewrite <- Permutation_middle in ND.
  apply list.NoDup_cons in ND as [Ht _]. intros [->|Hi]%elem_of_cons; [|done].
  apply Hg. rewrite elem_of_app, elem_of_cons. tauto.
Qed.

Lemma detach_repr :
  exists st', dlist_remove (timerDL c) t = Some (st', false)
    /\ detached t (set_alarm (set_timerDL c st') (alarm_of c l0)) l0 fr0.
Proof using Hr Hring Hrest Hl0 Hfr0 Hs0.
  pose proof detach_fresh as Hni. pose proof (tr_ring _ _ _ Hr) as R. rewrite Hring in R.
  destruct (dlist_remove_inner _ _ _ _ _ R) as (st' & E & Rt & R' & F).
  exists st'. split; [done|].
  assert (Hne : forall i, i ∈ l0 ++ fr0 -> i <> t).
  { intros i Hi ->. apply Hni. by apply elem_of_cons; right. }
  assert (Htin : t ∈ l ++ fr) by (rewrite Hring, elem_of_app, elem_of_cons; tauto).
  constructor; simpl; try apply Hr; try done.
  - by rewrite <- Hrest.
  - assert (is_Some (flag c t)) as [f [tm [Et _]]%flag_timer]; [|by exists tm].
    apply elem_of_app in Htin as [Hi|Hi].
    + apply (tr_armed _ _ _ Hr) in Hi. by rewrite Hi.
    + apply (tr_free _ _ _ Hr) in Hi. by rewrite Hi.
  - intros i Hi. rewrite Hl0 by done. apply (tr_armed _ _ _ Hr).
  - intros i Hi. rewrite Hfr0 by done. apply (tr_free _ _ _ Hr).
  - intros i Hi. apply (tr_free_tgt _ _ _ Hr). apply Hfr0; [|done]. apply Hne.
    rewrite elem_of_app. tauto.
  - intros i Hi Hf. eapply dring_same_outside; [by apply (tr_alone _ _ _ Hr i)|exact F|].
    intros q ->%list_elem_of_singleton. rewrite <- Hring. intros Hq.
    by eapply (ring_flag _ _ _ Hr).
Qed.
End detach.

(** An armed timer leaves the list, and so does a free one. *)
Lemma detach_armed c la t lb fr :
  timer_repr c (la ++ t :: lb) fr ->
  exists st', dlist_remove (timerDL c) t = Some (st', false)
    /\ detached t (set_alarm (set_timerDL c st') (alarm_of c (la ++ lb))) (la ++ lb) fr.
Proof.
  intros Hr. apply (detach_repr c (la ++ t :: lb) fr Hr t la (lb ++ fr)).
  - by rewrite <- app_assoc.
  - by rewrite app_assoc.
  - intros i Hi. rewrite !elem_of_app, elem_of_cons. tauto.
  - done.
  - pose proof (tr_sorted _ _ _ Hr) as HS. unfold by_tick in *.
    apply StronglySorted_app in HS as (Hx & HS1 & HS2). apply StronglySorted_inv in HS2 as [HS2 _].
    apply StronglySorted_app. split_and!; try done.
    intros i j Hi Hj. apply Hx; [done|]. by apply elem_of_cons; right.
Qed.

Lemma detach_free c l fa t fb :
  timer_repr c l (fa ++ t :: fb) ->
  exists st', dlist_remove (timerDL c) t = Some (st', false)
    /\ detached t (set_alarm (set_timerDL c st') (alarm_of c l)) l (fa ++ fb).
Proof.
  intros Hr. apply (detach_repr c l (fa ++ t :: fb) Hr t (l ++ fa) fb).
  - by rewrite <- app_assoc.
  - by rewrite app_assoc.
  - done.
  - intros i Hi. rewrite !elem_of_app, elem_of_cons. tauto.
  - apply Hr.
Qed.

(** A detached timer that is marked as allocated is where it belongs. *)
Lemma detached_allocated t c l fr c' tm tm' :
  detached t c l fr -> (timer c)$[t] = Some tm ->
  timer c' = <[Z.to_nat t := tm']> (timer c) -> tm_flags tm' = TIMER_FLAGS_ALLOCATED ->
  target_tick tm' = target_tick tm -> listtail c' = listtail c -> timerDL c' = timerDL c ->
  next_alarm_on_tick c' = next_alarm_on_tick c -> timer_repr c' l fr.
Proof.
  intros Hd Et Ets Hf Htt Hlt Hdl Ha.
  pose proof (flag_upd _ _ _ _ _ Et Ets) as FU.
  assert (TU : forall i, tgt c' i = tgt c i).
  { intros i. rewrite (tgt_upd _ _ _ _ _ Et Ets). case_decide; [|done]. subst i.
    by rewrite (tgt_timer _ _ _ Et), Htt. }
  pose proof (dt_this _ _ _ _ Hd) as Hni.
  assert (Hne : forall i, i ∈ guard :: l ++ fr -> t <> i) by (by intros i Hi <-).
  constructor; rewrite ?Hdl; try apply Hd.
  - rewrite (length_upd _ _ _ _ Ets). apply Hd.
  - rewrite Hlt. apply Hd.
  - rewrite FU, TU, decide_False; [apply Hd|]. apply Hne. by apply elem_of_cons; left.
  - intros i. rewrite FU. case_decide as Hi; [|by apply (dt_armed _ _ _ _ Hd)]. subst i. rewrite Hf.
    split; [|done]. intros Hin. exfalso. apply Hni. rewrite elem_of_cons, elem_of_app. tauto.
  - intros i. rewrite FU. case_decide as Hi; [|by apply (dt_free _ _ _ _ Hd)]. subst i. rewrite Hf.
    split; [|done]. intros Hin. exfalso. apply Hni. rewrite elem_of_cons, elem_of_app. tauto.
  - intros i Hi. rewrite TU. by apply Hd.
  - intros i. rewrite FU. case_decide as Hi; [|by apply (dt_alone _ _ _ _ Hd)]. subst i. intros _. apply Hd.
  - eapply by_tick_ext; [|apply Hd]. done.
  - intros i. rewrite TU. apply Hd.
  - rewrite Ha, (dt_alarm _ _ _ _ Hd). symmetry. by apply alarm_of_ext.
Qed.
