(* ===== verification/TimerSpec.v ===== *)
(** * What the timers promise

    Arming, re-arming, releasing and firing, on the sorted list of [TimerInv]. *)
From Stdlib Require Import ZArith Lia.
From stdpp Require Import base option list gmap numbers sorting.
From S2P Require Import Prelude Dlist Timer TimerInv.

Set Default Proof Using "Type".

(** ** Arming *)

(** A timer is armed for [target]: the parameters it gets. *)
Definition armed_timer (c : TIMERCTL) (tm : TIMER) (timeout data : Z) : TIMER :=
  mkTIMER (u32 (tick c + timeout)) TIMER_FLAGS_ONCOUNTDOWN (tm_fifo tm)
    (if data =? 0 then tm_data tm else data).

(** [c'] is [c] with the timer [t] armed, in the list at its place. *)
Definition armed_as (c c' : TIMERCTL) (t : Z) (tm : TIMER) (timeout data : Z)
    (l fr : list Z) : Prop :=
  timer_repr c' l fr /\ tick c' = tick c /\ tssTimer c' = tssTimer c
  /\ timer c' = <[Z.to_nat t := armed_timer c tm timeout data]> (timer c).

Section place.
Context (t : Z) (c : TIMERCTL) (l1 l2 fr : list Z) (tm : TIMER) (timeout data : Z).
Let target := u32 (tick c + timeout).
Context (Hd : detached t c (l1 ++ l2) fr) (Et : (timer c)$[t] = Some tm).
Context (H1 : forall i, i ∈ l1 -> tgt c i < target) (H2 : forall i, i ∈ l2 -> target <= tgt c i).

Lemma place_tgt c1 i :
  timer c1 = <[Z.to_nat t := mkTIMER target TIMER_FLAGS_ONCOUNTDOWN (tm_fifo tm) data]> (timer c) ->
  i ∈ guard :: (l1 ++ l2) ++ fr -> tgt c1 i = tgt c i /\ is_Some ((timer c1)$[i]).
Proof using Hd Et.
  intros T1 Hi. assert (t <> i) by (intros <-; by eapply dt_this).
  split.
  - rewrite (tgt_upd _ _ _ _ _ Et T1), decide_False by done. done.
  - rewrite (timer_upd _ _ _ _ _ Et T1), decide_False by done.
    destruct (detached_exists _ _ _ _ _ Hd Hi) as [tmi ->]. done.
Qed.

(** Free timers and the guard fire no earlier than anything. *)
Lemma rest_late i : i ∈ l2 ++ fr \/ i = guard -> target <= tgt c i.
Proof using Hd H2.
  intros [[Hi|Hi]%elem_of_app|Hi]; [by apply H2| |subst i; rewrite (proj2 (dt_guard _ _ _ _ Hd))];
    [rewrite (dt_free_tgt _ _ _ _ Hd i Hi)|]; apply u32_uint32.
Qed.

(** The search from a node [head] of the list: [m] fires earlier, and the
    timers from [p] on do not. *)
Lemma place_at head m p m' :
  dring (timerDL c) head (m ++ p :: m') ->
  (forall i, i ∈ head :: m ++ p :: m' <-> i ∈ guard :: (l1 ++ l2) ++ fr) ->
  (forall i, i ∈ m -> i ∈ l1) -> p ∈ l2 ++ fr \/ p = guard ->
  (forall st, dring st head (m ++ t :: p :: m') -> dring st guard (l1 ++ t :: l2 ++ fr)) ->
  exists c1 c', arm c t timeout data = Some (c1, target) /\ listtail c1 = guard
    /\ (forall i, i ∈ guard :: (l1 ++ l2) ++ fr -> tgt c1 i = tgt c i /\ is_Some ((timer c1)$[i]))
    /\ insert_by_tick c1 head t target = Some c'
    /\ timer_repr c' (l1 ++ t :: l2) fr /\ tick c' = tick c /\ tssTimer c' = tssTimer c
    /\ timer c' = <[Z.to_nat t := mkTIMER target TIMER_FLAGS_ONCOUNTDOWN (tm_fifo tm) data]> (timer c).
Proof using Hd Et H1 H2.
  intros R Hsame Hm Hp Hback.
  destruct (arm_spec c t tm timeout data Et) as (c1 & Ea & T1 & L1 & D1 & K1 & S1 & A1).
  fold target in Ea, T1, A1. rewrite (dt_tail _ _ _ _ Hd) in L1.
  pose proof (fun i => place_tgt c1 i T1) as Hold.
  assert (Hlen : (length m < Z.to_nat OS_MAX_TIMER)%nat).
  { pose proof (detached_length _ _ _ _ Hd) as Hl. destruct R as [ND _].
    assert (Hsub : m ⊆ (l1 ++ l2) ++ fr).
    { intros i Hi. apply Hm in Hi. rewrite !elem_of_app. tauto. }
    apply list.NoDup_cons in ND as [_ ND]. apply list.NoDup_app in ND as [ND _].
    pose proof (NoDup_submseteq _ _ ND Hsub) as Hsm. apply submseteq_length in Hsm. lia. }
  assert (Hin : forall i, i ∈ m ++ [p] -> i ∈ guard :: (l1 ++ l2) ++ fr).
  { intros i Hi. apply Hsame. rewrite !elem_of_cons, !elem_of_app, elem_of_cons.
    rewrite elem_of_app, list_elem_of_singleton in Hi. tauto. }
  destruct (insert_by_tick_at c1 head m p m' t target) as (st' & Ei & R' & F').
  - by rewrite D1.
  - done.
  - intros q Hq. by apply Hold, Hin.
  - intros q Hq. rewrite (proj1 (Hold q (Hin q ltac:(rewrite elem_of_app; tauto)))). by apply H1, Hm.
  - rewrite (proj1 (Hold p (Hin p ltac:(rewrite elem_of_app, list_elem_of_singleton; tauto)))).
    by apply rest_late.
  - rewrite D1. apply Hd.
  - intros Hi%Hsame. by apply (dt_this _ _ _ _ Hd).
  - exists c1, (set_timerDL c1 st'). split_and!; try done.
    eapply (armed_repr t c l1 l2 fr Hd target); try done; try apply u32_uint32; try by apply Hback.
    + simpl. by rewrite L1, (dt_tail _ _ _ _ Hd).
    + simpl. rewrite D1 in F'. eapply same_outside_mono; [exact F'|].
      intros i. rewrite !app_comm_cons, !(elem_of_app _ [t]), Hsame. tauto.
Qed.
End place.

(** [timer_settimer] on an allocated timer. *)
Lemma settimer_allocated c l1 l2 fr t tm timeout data :
  let target := u32 (tick c + timeout) in
  timer_repr c (l1 ++ l2) fr -> (timer c)$[t] = Some tm -> tm_flags tm = TIMER_FLAGS_ALLOCATED ->
  (forall i, i ∈ l1 -> tgt c i < target) -> (forall i, i ∈ l2 -> target <= tgt c i) ->
  l2 ++ fr <> [] ->
  exists c', timer_settimer c (Some t) timeout data = Some c'
    /\ armed_as c c' t tm timeout data (l1 ++ t :: l2) fr.
Proof.
  intros target Hr Et Hf H1 H2 Hne.
  assert (Hd : detached t c (l1 ++ l2) fr).
  { apply allocated_detached; [done|]. unfold flag. by rewrite Et, <- Hf. }
  destruct (l2 ++ fr) as [|p m'] eqn:Ex; [done|].
  assert (Hp : p ∈ l2 ++ fr) by (rewrite Ex; by apply elem_of_cons; left).
  assert (Er : l1 ++ p :: m' = (l1 ++ l2) ++ fr) by (by rewrite <- app_assoc, Ex).
  destruct (place_at t c l1 l2 fr tm timeout (if data =? 0 then tm_data tm else data) Hd Et H1 H2
              guard l1 p m') as (c1 & c' & Ea & Lt & _ & Ei & R' & Ht).
  - rewrite Er. apply Hd.
  - intros i. by rewrite Er.
  - done.
  - by left.
  - intros st. by rewrite <- Ex.
  - exists c'. split; [|by split].
    unfold timer_settimer. rewrite Et, bind_Some_eq, Hf. cbn [Z.eqb TIMER_FLAGS_ALLOCATED]. simpl.
    rewrite Et. simpl. rewrite Hf. simpl. rewrite Ea, bind_Some_eq, Lt. exact Ei.
Qed.

(** ** Re-arming *)

(** The alarm once the timer [t] is taken out of [la ++ t :: lb]. *)
Lemma drop_alarm_spec c la t lb fr :
  timer_repr c (la ++ t :: lb) fr -> (la = [] \/ next_alarm_on_tick c <> tgt c t) ->
  drop_alarm c t = Some (set_alarm c (alarm_of c (la ++ lb))).
Proof.
  intros Hr Htie. unfold drop_alarm.
  assert (flag c t = Some TIMER_FLAGS_ONCOUNTDOWN) as (tm & Et & _)%flag_timer.
  { apply (tr_armed _ _ _ Hr). rewrite elem_of_app, elem_of_cons. tauto. }
  rewrite Et. simpl. rewrite <- (tgt_timer _ _ _ Et).
  pose proof (tr_ring _ _ _ Hr) as R. rewrite <- app_assoc in R. simpl in R.
  apply dring_rotate, dring_nx in R. unfold nx in R.
  destruct Htie as [->|Hne].
  - simpl in *. rewrite (tr_alarm _ _ _ Hr). unfold alarm_of at 1. simpl.
    rewrite Z.eqb_refl. unfold __get_timer_next. rewrite R. simpl.
    assert (Hn : hd t ((lb ++ fr) ++ [guard]) ∈ guard :: (t :: lb) ++ fr
                 /\ tgt c (hd t ((lb ++ fr) ++ [guard])) = alarm_of c lb).
    { destruct lb as [|j lb]; simpl.
      - destruct fr as [|j fr]; simpl.
        + split; [by apply elem_of_cons; left|]. apply Hr.
        + split; [rewrite !elem_of_cons; tauto|]. apply (tr_free_tgt _ _ _ Hr).
          by apply elem_of_cons; left.
      - split; [rewrite !elem_of_cons; tauto|done]. }
    destruct Hn as [Hin Ht]. rewrite <- Ht.
    assert (exists tmn, (timer c)$[hd t ((lb ++ fr) ++ [guard])] = Some tmn) as [tmn En].
    { assert (is_Some (flag c (hd t ((lb ++ fr) ++ [guard])))) as [f [tmn [En _]]%flag_timer];
        [|by exists tmn].
      apply elem_of_cons in Hin as [->|[Hin|Hin]%elem_of_app].
      - by rewrite (proj1 (tr_guard _ _ _ Hr)).
      - apply (tr_armed _ _ _ Hr) in Hin. by rewrite Hin.
      - apply (tr_free _ _ _ Hr) in Hin. by rewrite Hin. }
    rewrite En. simpl. by rewrite (tgt_timer _ _ _ En).
  - destruct (Z.eqb_spec (next_alarm_on_tick c) (tgt c t)); [done|].
    rewrite (tr_alarm _ _ _ Hr) in *. destruct la as [|i la]; [done|]. simpl.
    f_equal. destruct c as [? ? a]. unfold set_alarm. simpl.
    pose proof (tr_alarm _ _ _ Hr) as Ha. simpl in Ha. by rewrite Ha.
Qed.

Lemma app_prefix (la lb l1 l2 : list Z) (P : Z -> Prop) :
  l1 ++ l2 = la ++ lb -> (forall i, i ∈ la -> P i) -> (forall i, i ∈ l2 -> ~ P i) ->
  exists k, l1 = la ++ k /\ lb = k ++ l2.
Proof.
  intros E Ha H2. apply app_eq_inv in E as [(k & -> & ->)|(k & -> & ->)]; [by exists k|].
  destruct k as [|x k]; [exists []; by rewrite !app_nil_r|]. exfalso. apply (H2 x).
  - by apply elem_of_cons; left.
  - apply Ha. rewrite elem_of_app, elem_of_cons. tauto.
Qed.

Section rearm.
Context (c : TIMERCTL) (la lb l1 l2 fr : list Z) (t : Z) (tm : TIMER) (timeout data : Z).
Let target := u32 (tick c + timeout).
Context (Hr : timer_repr c (la ++ t :: lb) fr) (Et : (timer c)$[t] = Some tm).
Context (Htie : la = [] \/ next_alarm_on_tick c <> tgt c t).
Context (Hsplit : l1 ++ l2 = la ++ lb).
Context (H1 : forall i, i ∈ l1 -> tgt c i < target) (H2 : forall i, i ∈ l2 -> target <= tgt c i).
Context (Hroom : la <> [] \/ l2 ++ fr <> []).

Let data' := if data =? 0 then tm_data tm else data.
Let prev := lastof guard la.

Lemma rearm_flag : tm_flags tm = TIMER_FLAGS_ONCOUNTDOWN.
Proof using Hr Et.
  clear Htie Hroom Hsplit H1 H2. assert (Hf : flag c t = Some TIMER_FLAGS_ONCOUNTDOWN)
    by (apply (tr_armed _ _ _ Hr); rewrite elem_of_app, elem_of_cons; tauto).
  unfold flag in Hf. rewrite Et in Hf. by injection Hf.
Qed.

Lemma rearm_prev : d_prev <$> timerDL c !! t = Some prev.
Proof using Hr.
  clear Htie Hroom Hsplit H1 H2.
  pose proof (tr_ring _ _ _ Hr) as R. rewrite <- app_assoc in R. simpl in R.
  apply dring_rotate, dring_pv in R. unfold pv in R. rewrite R. f_equal. unfold prev.
  generalize (lb ++ fr) t. intros m. induction m as [|x m IH]; intros y; simpl; [done|apply IH].
Qed.

(** The place found by the search, which starts after the previous timer when
    the new target is later than that one. *)
Lemma rearm_place c0 :
  detached t c0 (l1 ++ l2) fr -> timer c0 = timer c -> tick c0 = tick c ->
  exists c1 c', arm c0 t timeout data' = Some (c1, target) /\ listtail c1 = guard
    /\ tgt c1 prev = tgt c prev /\ is_Some ((timer c1)$[prev])
    /\ insert_by_tick c1 (if tgt c prev <? target then prev else guard) t target = Some c'
    /\ timer_repr c' (l1 ++ t :: l2) fr /\ tick c' = tick c0 /\ tssTimer c' = tssTimer c0
    /\ timer c' = <[Z.to_nat t := mkTIMER target TIMER_FLAGS_ONCOUNTDOWN (tm_fifo tm) data']> (timer c0).
Proof using Hr Et Hsplit H1 H2 Hroom.
  clear Htie. intros Hd T0 K0. assert (Et0 : (timer c0)$[t] = Some tm) by (by rewrite T0).
  assert (Htgt : forall i, tgt c0 i = tgt c i) by (intros; unfold tgt; by rewrite T0).
  assert (Ek : u32 (tick c0 + timeout) = target) by (by rewrite K0).
  assert (H1' : forall i, i ∈ l1 -> tgt c0 i < u32 (tick c0 + timeout))
    by (intros; rewrite Htgt, Ek; auto).
  assert (H2' : forall i, i ∈ l2 -> u32 (tick c0 + timeout) <= tgt c0 i)
    by (intros; rewrite Htgt, Ek; auto).
  assert (Hprev : prev ∈ guard :: (l1 ++ l2) ++ fr).
  { rewrite Hsplit. unfold prev. pose proof (lastof_elem guard la) as H.
    rewrite !elem_of_cons, !elem_of_app in *. tauto. }
  enough (exists m p m', dring (timerDL c0) (if tgt c prev <? target then prev else guard) (m ++ p :: m')
    /\ (forall i, i ∈ (if tgt c prev <? target then prev else guard) :: m ++ p :: m'
                  <-> i ∈ guard :: (l1 ++ l2) ++ fr)
    /\ (forall i, i ∈ m -> i ∈ l1) /\ (p ∈ l2 ++ fr \/ p = guard)
    /\ (forall st, dring st (if tgt c prev <? target then prev else guard) (m ++ t :: p :: m') ->
          dring st guard (l1 ++ t :: l2 ++ fr))) as (m & p & m' & R & Hs & Hm & Hp & Hb).
  { destruct (place_at t c0 l1 l2 fr tm timeout data' Hd Et0 H1' H2' _ m p m' R Hs Hm Hp Hb)
      as (c1 & c' & Ea & L1 & Hold & Ei & Hrest). rewrite Ek in *.
    exists c1, c'. destruct (Hold prev Hprev) as [-> ?]. rewrite Htgt. split_and!; try done; tauto. }
  pose proof (dt_ring _ _ _ _ Hd) as R.
  destruct (Z.ltb_spec (tgt c prev) target) as [Hlt|Hge].
  - assert (exists la', la = la' ++ [prev]) as [la' Ela].
    { unfold prev in *. destruct la as [|x la' _] using rev_ind.
      - simpl in Hlt. rewrite (proj2 (tr_guard _ _ _ Hr)) in Hlt.
        pose proof (u32_uint32 (tick c + timeout)) as Hu. fold target in Hu. lia.
      - exists la'. by rewrite lastof_snoc. }
    assert (Hla : forall i, i ∈ la -> tgt c i < target).
    { intros i Hi. pose proof (tr_sorted _ _ _ Hr) as HS. rewrite Ela, <- app_assoc in HS.
      apply StronglySorted_app in HS as (Hx & _ & _). rewrite Ela in Hi.
      apply elem_of_app in Hi as [Hi| ->%list_elem_of_singleton]; [|done].
      specialize (Hx i prev Hi ltac:(by apply elem_of_cons; left)). simpl in Hx. lia. }
    destruct (app_prefix la lb l1 l2 (fun i => tgt c i < target) Hsplit Hla) as (k & E1 & E2).
    { intros i Hi Hlt'. specialize (H2 i Hi). lia. }
    destruct (l2 ++ fr ++ guard :: la') as [|p m'] eqn:Ex; [by destruct l2, fr|].
    exists k, p, m'. rewrite <- Ex.
    assert (Er : (l1 ++ l2) ++ fr = la' ++ prev :: k ++ l2 ++ fr)
      by (rewrite E1, Ela; by rewrite <- !app_assoc).
    split_and!.
    + rewrite Er in R. apply dring_rotate in R. by rewrite <- !app_assoc in R.
    + intros i. rewrite Er, !elem_of_cons, !elem_of_app, !elem_of_cons, !elem_of_app. tauto.
    + intros i Hi. rewrite E1, elem_of_app. tauto.
    + destruct (l2 ++ fr) as [|x y] eqn:Ey.
      * right. rewrite app_assoc, Ey in Ex. by injection Ex.
      * left. rewrite app_assoc, Ey in Ex. injection Ex as -> _. by apply elem_of_cons; left.
    + intros st Hst.
      replace (k ++ t :: l2 ++ fr ++ guard :: la') with ((k ++ t :: l2 ++ fr) ++ guard :: la') in Hst
        by (by rewrite <- !app_assoc; simpl; rewrite <- !app_assoc).
      apply dring_rotate in Hst. rewrite E1, Ela, <- !app_assoc. exact Hst.
  - assert (Hne : l2 ++ fr <> []).
    { destruct Hroom as [Hla|]; [|done]. intros [E2 ->]%app_nil. subst l2.
      rewrite app_nil_r in Hsplit. destruct la as [|x la' _] using rev_ind; [done|].
      unfold prev in Hge. rewrite lastof_snoc in Hge.
      assert (tgt c x < target); [|lia]. apply H1. rewrite Hsplit, !elem_of_app, list_elem_of_singleton.
      tauto. }
    destruct (l2 ++ fr) as [|p m'] eqn:Ex; [done|].
    exists l1, p, m'. rewrite <- app_assoc in R |- *. rewrite Ex in R |- *. split_and!; try done.
    left. by apply elem_of_cons; left.
Qed.

Lemma settimer_rearm :
  exists c', timer_settimer c (Some t) timeout data = Some c'
    /\ armed_as c c' t tm timeout data (l1 ++ t :: l2) fr.
Proof using Hr Et Htie Hsplit H1 H2 Hroom.
  pose proof rearm_flag as Hf. destruct (detach_armed _ _ _ _ _ Hr) as (st & Er & Hd).
  rewrite <- Hsplit in Hd.
  destruct (rearm_place _ Hd eq_refl eq_refl)
    as (c1 & c' & Ea & L1 & Htp & [p Ep] & Ei & R' & K' & S' & T').
  exists c'. split; [|by split].
  unfold timer_settimer. rewrite Et, bind_Some_eq, Hf. rewrite Z.eqb_refl.
  rewrite (drop_alarm_spec _ _ _ _ _ Hr Htie), bind_Some_eq.
  unfold __get_timer_prev. cbn [timerDL set_alarm]. rewrite rearm_prev, bind_Some_eq.
  unfold on_timerDL at 1. cbn [timerDL set_alarm]. rewrite Er, bind_Some_eq. cbn [fst].
  rewrite bind_Some_eq. fold data'.
  change (set_timerDL (set_alarm c (alarm_of c (la ++ lb))) st)
    with (set_alarm (set_timerDL c st) (alarm_of c (la ++ lb))).
  rewrite <- Hsplit, Ea, bind_Some_eq, Ep, bind_Some_eq.
  rewrite (tgt_timer _ _ _ Ep) in Htp. rewrite Htp, L1, Ei, bind_Some_eq.
  assert (Et' : (timer c')$[t] = Some (mkTIMER target TIMER_FLAGS_ONCOUNTDOWN (tm_fifo tm) data')).
  { rewrite (timer_upd _ _ _ _ _ Et T'). by rewrite decide_True. }
  by rewrite Et'.
Qed.
End rearm.

(** ** Releasing *)

(** A detached timer with default parameters goes to the end of the list. *)
Lemma freed_repr t c l fr tm c' st' :
  detached t c l fr -> (timer c)$[t] = Some tm ->
  timer c' = <[Z.to_nat t := timer_default tm]> (timer c) -> listtail c' = listtail c ->
  timerDL c' = st' -> dring st' guard ((l ++ fr) ++ [t]) ->
  same_outside (guard :: (l ++ fr) ++ [t]) (timerDL c) st' ->
  next_alarm_on_tick c' = next_alarm_on_tick c -> timer_repr c' l (fr ++ [t]).
Proof.
  intros Hd Et Ets Hlt Hdl R F Ha.
  pose proof (flag_upd _ _ _ _ _ Et Ets) as FU. pose proof (tgt_upd _ _ _ _ _ Et Ets) as TU.
  pose proof (dt_this _ _ _ _ Hd) as Hni.
  assert (Hne : forall i, i ∈ guard :: l ++ fr -> t <> i) by (by intros i Hi <-).
  assert (Hl : forall i, i ∈ l -> tgt c' i = tgt c i).
  { intros i Hi. rewrite TU, decide_False; [done|]. apply Hne. rewrite elem_of_cons, elem_of_app. tauto. }
  constructor.
  - rewrite (length_upd _ _ _ _ Ets). apply Hd.
  - rewrite Hlt. apply Hd.
  - rewrite FU, TU, !decide_False by (apply Hne; by apply elem_of_cons; left). apply Hd.
  - by rewrite Hdl, app_assoc.
  - intros i. rewrite FU. case_decide as Hi; [|by apply (dt_armed _ _ _ _ Hd)]. subst i. simpl.
    split; [|done]. intros Hin. exfalso. apply Hni. rewrite elem_of_cons, elem_of_app. tauto.
  - intros i. rewrite FU, elem_of_app, list_elem_of_singleton. case_decide as Hi.
    + subst i. simpl. tauto.
    + rewrite <- (dt_free _ _ _ _ Hd) by done. naive_solver.
  - intros i Hi. rewrite TU. case_decide as Hi'; [done|]. apply (dt_free_tgt _ _ _ _ Hd).
    rewrite elem_of_app, list_elem_of_singleton in Hi. naive_solver.
  - intros i. rewrite FU. case_decide as Hi; [done|]. intros Hfi. rewrite Hdl.
    by eapply (detached_alone _ _ _ _ _ _ Hd).
  - eapply by_tick_ext; [exact Hl|apply Hd].
  - intros i. rewrite TU. case_decide; [simpl; unfold UINT32_MAX; lia|apply Hd].
  - rewrite Ha, (dt_alarm _ _ _ _ Hd). symmetry. by apply alarm_of_ext.
Qed.

Lemma detached_remove_self t c l fr :
  detached t c l fr ->
  exists st', dlist_remove (timerDL c) t = Some (st', false) /\ detached t (set_timerDL c st') l fr.
Proof.
  intros Hd. destruct (dlist_remove_ring _ _ _ (dt_node _ _ _ _ Hd)) as (st' & E & R & _ & F).
  exists st'. split; [done|]. pose proof (dt_this _ _ _ _ Hd) as Hni.
  constructor; simpl; try apply Hd; try done.
  - eapply dring_same_outside; [apply Hd|exact F|].
    intros q Hq ->%list_elem_of_singleton. done.
  - intros i Hi Hf. eapply dring_same_outside; [by apply (dt_alone _ _ _ _ Hd i)|exact F|].
    intros q ->%list_elem_of_singleton. by rewrite list_elem_of_singleton.
Qed.

(** The last steps of [timer_free]. *)
Lemma free_tail t c l fr tm :
  detached t c l fr -> (timer c)$[t] = Some tm ->
  exists c', (c ← __timer_set_default_params c (Some t);
              on_timerDL (fun st => dlist_insert_before st (listtail c) t) c) = Some c'
    /\ timer_repr c' l (fr ++ [t]) /\ tick c' = tick c /\ tssTimer c' = tssTimer c
    /\ timer c' = <[Z.to_nat t := timer_default tm]> (timer c).
Proof.
  intros Hd Et. unfold __timer_set_default_params. rewrite (upd_timer_eq _ _ _ _ Et).
  rewrite !bind_Some_eq. unfold on_timerDL. cbn [timerDL set_timerDL set_timers listtail].
  pose proof (dt_this _ _ _ _ Hd) as Hni. rewrite (dt_tail _ _ _ _ Hd).
  assert (F0 : same_outside [t] (timerDL c) (dlist_init (timerDL c) t)) by apply dlist_init_outside.
  destruct (dlist_insert_before_ring (dlist_init (timerDL c) t) guard (l ++ fr) t [])
    as (st' & E & R & F).
  - eapply dring_same_outside; [apply Hd|exact F0|]. intros q Hq ->%list_elem_of_singleton. done.
  - apply dlist_init_ring.
  - intros p q Hp ->%list_elem_of_singleton ->. done.
  - rewrite E, bind_Some_eq. eexists. split; [done|]. split; [|done].
    eapply (freed_repr t c l fr tm); try done.
    eapply same_outside_trans; [|exact F]. eapply same_outside_mono; [exact F0|].
    intros q ->%list_elem_of_singleton. rewrite elem_of_cons, elem_of_app, list_elem_of_singleton. tauto.
Qed.

(** The lists without the timer [t], which may be in either of them or in
    neither. *)
Definition without (t : Z) (l : list Z) : list Z := filter (fun i => i <> t) l.

Lemma without_absent t l : t ∉ l -> without t l = l.
Proof.
  intros Hn. apply filter_all. by intros x Hx ->.
Qed.

Lemma without_middle t la lb : t ∉ la ++ lb -> without t (la ++ t :: lb) = la ++ lb.
Proof.
  intros Hn. rewrite not_elem_of_app in Hn. unfold without.
  rewrite list.filter_app, filter_cons_False by (intros H; by apply H).
  fold (without t la) (without t lb). by rewrite !without_absent by tauto.
Qed.

(** Up to the removal from the list. *)
Lemma free_detach c l fr t tm :
  timer_repr c l fr -> (timer c)$[t] = Some tm -> tm_flags tm <> TIMER_FLAGS_GUARDNODE ->
  (flag c t = Some TIMER_FLAGS_FREE \/ flag c t = Some TIMER_FLAGS_ALLOCATED
   \/ flag c t = Some TIMER_FLAGS_ONCOUNTDOWN) ->
  (forall la lb, l = la ++ t :: lb -> la = [] \/ next_alarm_on_tick c <> tgt c t) ->
  exists c1, (c ← (if tm_flags tm =? TIMER_FLAGS_ONCOUNTDOWN then drop_alarm c t else Some c);
              on_timerDL (fun st => dlist_remove st t) c) = Some c1
    /\ detached t c1 (without t l) (without t fr) /\ timer c1 = timer c /\ tick c1 = tick c
    /\ tssTimer c1 = tssTimer c.
Proof.
  intros Hr Et Hg Hf Htie. unfold flag in Hf. rewrite Et in Hf. simpl in Hf.
  destruct (tr_ring _ _ _ Hr) as [ND _]. apply list.NoDup_cons in ND as [_ ND].
  destruct Hf as [[= Hf]|[[= Hf]|[= Hf]]]; rewrite Hf; simpl.
  - assert (Hin : t ∈ fr) by (apply (tr_free _ _ _ Hr); unfold flag; by rewrite Et, <- Hf).
    apply list_elem_of_split in Hin as (fa & fb & ->).
    rewrite app_assoc, <- Permutation_middle in ND. apply list.NoDup_cons in ND as [Hn _].
    rewrite !not_elem_of_app in Hn.
    destruct (detach_free _ _ _ _ _ Hr) as (st' & E & Hd). unfold on_timerDL. rewrite E. simpl.
    eexists. split; [done|]. split; [|done].
    rewrite without_absent, without_middle by (rewrite ?not_elem_of_app; tauto).
    rewrite <- (tr_alarm _ _ _ Hr) in Hd. by destruct c.
  - destruct (detached_remove_self t c l fr) as (st' & E & Hd).
    { apply allocated_detached; [done|]. unfold flag. by rewrite Et, <- Hf. }
    unfold on_timerDL. rewrite E. simpl. eexists. split; [done|]. split; [|done].
    pose proof (dt_this _ _ _ _ Hd) as Hn. rewrite not_elem_of_cons, not_elem_of_app in Hn.
    by rewrite !without_absent by tauto.
  - assert (Hin : t ∈ l) by (apply (tr_armed _ _ _ Hr); unfold flag; by rewrite Et, <- Hf).
    apply list_elem_of_split in Hin as (la & lb & ->).
    rewrite <- app_assoc in ND. simpl in ND. rewrite <- Permutation_middle in ND.
    apply list.NoDup_cons in ND as [Hn _]. rewrite !not_elem_of_app in Hn.
    rewrite (drop_alarm_spec _ _ _ _ _ Hr (Htie la lb eq_refl)). simpl.
    destruct (detach_armed _ _ _ _ _ Hr) as (st' & E & Hd). unfold on_timerDL.
    cbn [timerDL set_alarm]. rewrite E. simpl. eexists. split; [done|]. split; [|done].
    by rewrite without_middle, without_absent by (rewrite ?not_elem_of_app; tauto).
Qed.

Section free.
Context {W : Type} (kfree_fifo : Z -> W -> option W).

(** Releasing the FIFO of the timer. *)
Definition release (tm : TIMER) (w : W) : option W :=
  match tm_fifo tm with Some f => kfree_fifo f w | None => Some w end.

Lemma timer_free_spec c l fr t tm w :
  timer_repr c l fr -> (timer c)$[t] = Some tm -> tm_flags tm <> TIMER_FLAGS_GUARDNODE ->
  (flag c t = Some TIMER_FLAGS_FREE \/ flag c t = Some TIMER_FLAGS_ALLOCATED
   \/ flag c t = Some TIMER_FLAGS_ONCOUNTDOWN) ->
  (forall la lb, l = la ++ t :: lb -> la = [] \/ next_alarm_on_tick c <> tgt c t) ->
  exists c', timer_free kfree_fifo c w (Some t) = (w' ← release tm w; Some (c', w'))
    /\ timer_repr c' (without t l) (without t fr ++ [t])
    /\ timer c' = <[Z.to_nat t := timer_default tm]> (timer c)
    /\ tick c' = tick c /\ tssTimer c' = tssTimer c.
Proof using Type.
  intros Hr Et Hg Hf Htie.
  destruct (free_detach c l fr t tm Hr Et Hg Hf Htie) as (c1 & E1 & Hd & T1 & K1 & S1).
  destruct (free_tail t c1 _ _ tm Hd) as (c' & E2 & R & K2 & S2 & T2); [by rewrite T1|].
  exists c'. split_and!; [|done|by rewrite T2, T1|congruence|congruence].
  unfold timer_free. rewrite Et, bind_Some_eq.
  destruct (Z.eqb_spec (tm_flags tm) TIMER_FLAGS_GUARDNODE); [done|].
  apply option.bind_Some in E1 as (c0 & -> & E1). rewrite bind_Some_eq, E1, bind_Some_eq.
  fold (release tm w). destruct (release tm w) as [w'|]; [|done]. rewrite !bind_Some_eq.
  apply option.bind_Some in E2 as (c2 & -> & E2). by rewrite bind_Some_eq, E2.
Qed.
End free.

(** ** Firing *)

(** The invariant without the next alarm. *)
Definition timer_core (c : TIMERCTL) (l fr : list Z) : Prop :=
  timer_repr (set_alarm c (alarm_of c l)) l fr.

Lemma timer_repr_core c l fr : timer_repr c l fr -> timer_core c l fr.
Proof. intros Hr. unfold timer_core. rewrite <- (tr_alarm _ _ _ Hr). by destruct c. Qed.

Definition fired_timer (tm : TIMER) : TIMER :=
  mkTIMER (target_tick tm) TIMER_FLAGS_ALLOCATED (tm_fifo tm) (tm_data tm).

Fixpoint timers_of (c : TIMERCTL) (l : list Z) : list TIMER :=
  match l with
  | [] => []
  | i :: l => match (timer c)$[i] with Some tm => tm :: timers_of c l | None => timers_of c l end
  end.

Lemma timers_of_ext c c' l :
  (forall i, i ∈ l -> (timer c)$[i] = (timer c')$[i]) -> timers_of c l = timers_of c' l.
Proof.
  induction l as [|x l IH]; intros H; [done|]. simpl.
  rewrite (H x) by (by apply elem_of_cons; left).
  by rewrite IH by (intros i Hi; apply H; by apply elem_of_cons; right).
Qed.

Section fire.
Context {W : Type} (enqueue : option Z -> Z -> W -> option W).

(** The data of the timers go to their FIFOs, in order. *)
Fixpoint deliver (tms : list TIMER) (w : W) : option W :=
  match tms with
  | [] => Some w
  | tm :: tms => w ← enqueue (tm_fifo tm) (tm_data tm) w; deliver tms w
  end.

Lemma fire_step c x l fr tm :
  timer_core c (x :: l) fr -> (timer c)$[x] = Some tm -> target_tick tm <= tick c ->
  exists c1, (forall w b, fire_body enqueue x (c, w, b)
             = (w ← enqueue (tm_fifo tm) (tm_data tm) w;
                Some (Continue (guard, (c1, w, b || bool_decide (tssTimer c = Some x))))))
    /\ timer_core c1 l fr /\ timer c1 = <[Z.to_nat x := fired_timer tm]> (timer c)
    /\ tick c1 = tick c /\ tssTimer c1 = tssTimer c /\ listtail c1 = listtail c
    /\ nx (timerDL c1) guard = Some (hd guard (l ++ fr)).
Proof using Type.
  intros Hr Et Hle. destruct (detach_armed _ [] _ _ _ Hr) as (st' & E & Hd).
  set (c1 := set_timerDL (set_timers c (<[Z.to_nat x := fired_timer tm]> (timer c))) st').
  assert (T1 : timer c1 = <[Z.to_nat x := fired_timer tm]> (timer c)) by done.
  assert (Ha : alarm_of c1 l = alarm_of c l).
  { apply alarm_of_ext. intros i _. rewrite (tgt_upd _ _ _ _ _ Et T1). case_decide; [|done].
    subst i. by rewrite (tgt_timer _ _ _ Et). }
  exists c1. split_and!; try done.
  - intros w b. unfold fire_body. rewrite Et, bind_Some_eq. rewrite Z.gtb_ltb.
    destruct (Z.ltb_spec (tick c) (target_tick tm)); [lia|].
    destruct (enqueue _ _ w) as [w'|]; [|done]. rewrite !bind_Some_eq.
    pose proof (tr_ring _ _ _ Hr) as R. simpl in R.
    apply (dring_rotate _ _ [] x), dring_pv in R. unfold pv in R. rewrite lastof_snoc in R.
    unfold __get_timer_prev. rewrite R, bind_Some_eq, (upd_timer_eq _ _ _ _ Et), bind_Some_eq.
    unfold on_timerDL. cbn [timerDL set_timers]. simpl in E. rewrite E. done.
  - unfold timer_core. rewrite Ha.
    eapply (detached_allocated x _ l fr _ tm (fired_timer tm) Hd); try done.
  - apply (dring_nx _ _ _ (dt_ring _ _ _ _ Hd)).
Qed.

Definition tss_fired (c : TIMERCTL) (l : list Z) : bool :=
  match tssTimer c with Some i => bool_decide (i ∈ l) | None => false end.

(** What a run of the loop leaves, whichever way it ends. *)
Definition out {S R} (r : step S R) : S :=
  match r with Continue s | Break s | Return s _ => s end.

Lemma fire_loop l1 l2 fr :
  forall c b fuel, timer_core c (l1 ++ l2) fr -> tick c < UINT32_MAX ->
  (forall i, i ∈ l1 -> tgt c i <= tick c) -> (forall i, i ∈ l2 -> tick c < tgt c i) ->
  (length l1 < fuel)%nat ->
  exists c', timer_core c' l2 fr
    /\ (forall i, (timer c')$[i] = if decide (i ∈ l1) then fired_timer <$> (timer c)$[i]
                                   else (timer c)$[i])
    /\ tick c' = tick c /\ tssTimer c' = tssTimer c /\ listtail c' = listtail c
    /\ forall w, out <$> for_each_from (fun s => timerDL s.1.1) fuel guard
                          (hd guard ((l1 ++ l2) ++ fr)) (fire_body enqueue) (c, w, b)
       = (w' ← deliver (timers_of c l1) w;
          Some (c', w', b || tss_fired c l1)).
Proof using Type.
  induction l1 as [|x l1 IH]; intros c b fuel Hr Htk H1 H2 Hfu.
  - exists c. split_and!; try done.
    intros w. simpl.
    assert (Ht : tss_fired c [] = false) by (unfold tss_fired; by destruct (tssTimer c)).
    rewrite Ht, orb_false_r.
    destruct fuel as [|fuel]; [lia|]. cbn [for_each_from].
    destruct (l2 ++ fr) as [|p m] eqn:Ex; simpl; [done|].
    assert (Hp : p ∈ l2 ++ fr) by (rewrite Ex; by apply elem_of_cons; left).
    destruct (tr_ring _ _ _ Hr) as [ND _]. simpl in ND. rewrite Ex in ND.
    destruct (Z.eqb_spec p guard) as [->|_].
    { apply list.NoDup_cons in ND as [Hn _]. exfalso. apply Hn. by apply elem_of_cons; left. }
    assert (Hlt : tick c < tgt c p).
    { apply elem_of_app in Hp as [Hp|Hp]; [by apply H2|].
      pose proof (tr_free_tgt _ _ _ Hr p Hp) as Hm. unfold tgt in *. simpl in Hm. lia. }
    assert (is_Some (flag c p)) as [f [tm [Et _]]%flag_timer].
    { apply elem_of_app in Hp as [Hp|Hp].
      - apply (tr_armed _ _ _ Hr) in Hp. unfold flag in *. simpl in Hp. by rewrite Hp.
      - apply (tr_free _ _ _ Hr) in Hp. unfold flag in *. simpl in Hp. by rewrite Hp. }
    rewrite Et. simpl. rewrite (tgt_timer _ _ _ Et) in Hlt. rewrite Z.gtb_ltb.
    by rewrite (proj2 (Z.ltb_lt _ _) Hlt).
  - assert (flag c x = Some TIMER_FLAGS_ONCOUNTDOWN) as (tm & Et & _)%flag_timer.
    { pose proof (proj1 (tr_armed _ _ _ Hr x)) as Hx. apply Hx. by apply elem_of_cons; left. }
    assert (Hle : target_tick tm <= tick c).
    { rewrite <- (tgt_timer _ _ _ Et). apply H1. by apply elem_of_cons; left. }
    destruct (tr_ring _ _ _ Hr) as [ND _]. simpl in ND. rewrite !list.NoDup_cons in ND.
    destruct ND as (Hg & Hx & ND).
    assert (Hxl : forall i, i ∈ l1 ++ l2 -> x <> i).
    { intros i Hi ->. apply Hx. rewrite elem_of_app. tauto. }
    destruct (fire_step c x (l1 ++ l2) fr tm Hr Et Hle)
      as (c1 & Hb & Hc1 & T1 & K1 & S1 & L1 & N1).
    assert (Htm : forall i, x <> i -> (timer c1)$[i] = (timer c)$[i]).
    { intros i Hi. rewrite (timer_upd _ _ _ _ _ Et T1). by rewrite decide_False. }
    assert (Htg : forall i, i ∈ l1 ++ l2 -> tgt c1 i = tgt c i).
    { intros i Hi. unfold tgt. by rewrite Htm by (by apply Hxl). }
    destruct fuel as [|fuel]; [simpl in Hfu; lia|].
    destruct (IH c1 (b || bool_decide (tssTimer c = Some x)) fuel Hc1)
      as (c' & Hc' & T' & K' & S' & L' & Hw).
    { by rewrite K1. }
    { intros i Hi. rewrite K1, Htg by (rewrite elem_of_app; tauto). apply H1. by apply elem_of_cons; right. }
    { intros i Hi. rewrite K1, Htg by (rewrite elem_of_app; tauto). by apply H2. }
    { simpl in Hfu. lia. }
    exists c'. split_and!; [done| |congruence..|].
    + intros i. rewrite T'. destruct (decide (x = i)) as [->|Hne].
      * rewrite decide_False, decide_True.
        -- rewrite (timer_upd _ _ _ _ _ Et T1), decide_True by done. by rewrite Et.
        -- by apply elem_of_cons; left.
        -- intros Hi. apply (Hxl i); [rewrite elem_of_app; tauto|done].
      * rewrite Htm by done. repeat case_decide; try done; exfalso;
          rewrite ?elem_of_cons in *; naive_solver.
    + intros w. cbn [for_each_from app hd]. simpl hd.
      destruct (Z.eqb_spec x guard) as [->|_].
      { exfalso. apply Hg. by apply elem_of_cons; left. }
      assert (Eof : timers_of c (x :: l1) = tm :: timers_of c1 l1).
      { simpl. rewrite Et. f_equal. apply timers_of_ext.
        intros i Hi. symmetry. apply Htm, Hxl. rewrite elem_of_app. tauto. }
      rewrite Eof, Hb. cbn [deliver]. destruct (enqueue _ _ w) as [w1|]; [|done].
      rewrite !bind_Some_eq. unfold nx in N1. simpl in N1 |- *. rewrite N1, bind_Some_eq, Hw.
      destruct (deliver _ w1) as [w2|]; [|done]. rewrite !bind_Some_eq. do 2 f_equal.
      rewrite <- orb_assoc. f_equal. unfold tss_fired. rewrite S1.
      destruct (tssTimer c) as [i|]; [|by rewrite bool_decide_eq_false_2].
      repeat case_bool_decide; try done; exfalso; rewrite elem_of_cons in *; naive_solver.
Qed.
End fire.

(** ** The interrupt handler *)
Lemma set_alarm_repr c l fr : timer_core c l fr -> timer_repr (set_alarm c (alarm_of c l)) l fr.
Proof. done. Qed.

(** The first timer of the list tells the next alarm. *)
Lemma first_alarm c l fr :
  timer_core c l fr ->
  exists p tm, nx (timerDL c) guard = Some p /\ (timer c)$[p] = Some tm
    /\ target_tick tm = alarm_of c l.
Proof.
  intros Hr. pose proof (dring_nx _ _ _ (tr_ring _ _ _ Hr)) as N. simpl in N.
  set (p := hd guard (l ++ fr)) in *.
  assert (is_Some (flag c p) /\ tgt c p = alarm_of c l) as [[f [tm [Et _]]%flag_timer] Ht].
  { unfold p. destruct l as [|i l]; simpl.
    - destruct fr as [|i fr]; simpl.
      + pose proof (tr_guard _ _ _ Hr) as [Hg Hm]. split; [|exact Hm].
        change (is_Some (flag (set_alarm c (alarm_of c [])) guard)). by rewrite Hg.
      + pose proof (proj1 (tr_free _ _ _ Hr i) ltac:(by apply elem_of_cons; left)) as Hf.
        split; [by eexists|]. apply (tr_free_tgt _ _ _ Hr i). by apply elem_of_cons; left.
    - pose proof (proj1 (tr_armed _ _ _ Hr i) ltac:(by apply elem_of_cons; left)) as Hf.
      split; [by eexists|done]. }
  exists p, tm. split_and!; [done|done|]. by rewrite <- Ht, (tgt_timer _ _ _ Et).
Qed.

Section handler.
Context {W : Type} (enqueue : option Z -> Z -> W -> option W).
Context (autoswitch : TIMERCTL -> W -> option (TIMERCTL * W)).

Lemma int_handler_spec c l1 l2 fr :
  timer_repr c (l1 ++ l2) fr -> 0 <= tick c -> tick c + 1 < UINT32_MAX ->
  (forall i, i ∈ l1 -> tgt c i <= tick c + 1) -> (forall i, i ∈ l2 -> tick c + 1 < tgt c i) ->
  exists c', timer_repr c' l2 fr /\ tick c' = tick c + 1 /\ tssTimer c' = tssTimer c
    /\ (forall i, (timer c')$[i] = if decide (i ∈ l1) then fired_timer <$> (timer c)$[i]
                                   else (timer c)$[i])
    /\ forall w cli, timer_int_handler enqueue autoswitch c w cli
       = if decide (l1 = []) then Some (c', w, true)
         else w' ← deliver enqueue (timers_of c l1) w;
              if tss_fired c l1 then r ← autoswitch c' w'; Some (r.1, r.2, cli)
              else Some (c', w', cli).
Proof using Type.
  intros Hr H0 Htk H1 H2. unfold timer_int_handler.
  assert (Eu : u32 (tick c + 1) = tick c + 1)
    by (apply u32_small; unfold UINT32_MAX in *; lia).
  rewrite Eu. set (ct := set_tick c (tick c + 1)).
  assert (Hrt : timer_repr ct (l1 ++ l2) fr) by (destruct Hr; by constructor).
  pose proof (tr_alarm _ _ _ Hr) as Ha.
  assert (Hgt : (next_alarm_on_tick ct >? tick ct) = bool_decide (l1 = [])).
  { rewrite Z.gtb_ltb. simpl. rewrite Ha. unfold alarm_of. destruct l1 as [|x l1']; simpl.
    - apply Z.ltb_lt. destruct l2 as [|y l2']; simpl; [done|]. apply H2. by apply elem_of_cons; left.
    - apply Z.ltb_ge. apply H1. by apply elem_of_cons; left. }
  rewrite Hgt. destruct l1 as [|x l1'].
  - exists ct. split_and!; try done.
  - destruct (fire_loop enqueue (x :: l1') l2 fr ct false (Z.to_nat OS_MAX_TIMER))
      as (c1 & Hc1 & T1 & K1 & S1 & L1 & Hw); try done.
    { by apply timer_repr_core. }
    { pose proof (ring_length _ _ _ Hr) as Hl. rewrite !length_app in Hl. lia. }
    destruct (first_alarm _ _ _ Hc1) as (p & tm & Np & Ep & Tp).
    exists (set_alarm c1 (alarm_of c1 l2)). split_and!; try done.
    intros w cli. rewrite bool_decide_eq_false_2, decide_False by done.
    unfold list_for_each_entry. cbn [fst].
    pose proof (dring_nx _ _ _ (tr_ring _ _ _ Hrt)) as N. unfold nx in N.
    rewrite (tr_tail _ _ _ Hrt), N, bind_Some_eq.
    assert (Hw' : out <$> for_each_from (fun s => timerDL s.1.1) (Z.to_nat OS_MAX_TIMER) guard
                    (hd guard (((x :: l1') ++ l2) ++ fr)) (fire_body enqueue) (ct, w, false)
                  = (w' ← deliver enqueue (timers_of c (x :: l1')) w;
                     Some (c1, w', tss_fired c (x :: l1'))))
      by (rewrite <- (timers_of_ext ct c (x :: l1')) by done; exact (Hw w)).
    clear Hw. destruct (for_each_from _ _ _ _ _ _) as [r|].
    + rewrite bind_Some_eq. fold (out r).
      destruct (deliver _ _ w) as [w'|]; [|discriminate Hw'].
      rewrite bind_Some_eq in Hw'. injection Hw' as Hw'. rewrite Hw', bind_Some_eq.
      unfold __get_timer_next. unfold nx in Np. rewrite L1, (tr_tail _ _ _ Hrt).
      rewrite Np, bind_Some_eq, Ep, bind_Some_eq, Tp. done.
    + destruct (deliver _ _ w) as [w'|]; [discriminate Hw'|done].
Qed.
End handler.

(** ** Allocation *)
Definition allocated_timer (fifo : option Z) (tm : TIMER) : TIMER :=
  mkTIMER (target_tick tm) TIMER_FLAGS_ALLOCATED fifo (tm_data tm).

Section alloc.
Context (c : TIMERCTL) (l fr : list Z) (Hr : timer_repr c l fr) (fifo : option Z).

Let body := fun (i : Z) (c : TIMERCTL) =>
  t ← (timer c)$[i];
  if tm_flags t =? TIMER_FLAGS_FREE then
    c ← upd_timer c i (fun t => mkTIMER (target_tick t) TIMER_FLAGS_ALLOCATED fifo (tm_data t));
    c ← on_timerDL (fun st => dlist_remove st i) c;
    Some (Return c i)
  else Some (Continue c).

(** Taking the free timer [t]. *)
Lemma alloc_take t :
  t ∈ fr ->
  exists tm c', (timer c)$[t] = Some tm /\ body t c = Some (Return c' t)
    /\ timer_repr c' l (without t fr) /\ tick c' = tick c /\ tssTimer c' = tssTimer c
    /\ timer c' = <[Z.to_nat t := allocated_timer fifo tm]> (timer c).
Proof using Hr.
  intros Hin. pose proof Hin as Hf. apply (tr_free _ _ _ Hr), flag_timer in Hf as (tm & Et & Hf).
  destruct (tr_ring _ _ _ Hr) as [ND _]. apply list.NoDup_cons in ND as [_ ND].
  apply list_elem_of_split in Hin as (fa & fb & Efr). rewrite Efr in ND.
  rewrite app_assoc, <- Permutation_middle in ND. apply list.NoDup_cons in ND as [Hn _].
  rewrite !not_elem_of_app in Hn. pose proof Hr as Hr'. rewrite Efr in Hr'.
  destruct (detach_free _ _ _ _ _ Hr') as (st' & E & Hd).
  rewrite <- (tr_alarm _ _ _ Hr) in Hd.
  exists tm, (set_timerDL (set_timers c (<[Z.to_nat t := allocated_timer fifo tm]> (timer c))) st').
  split_and!; try done.
  - unfold body. rewrite Et. simpl. rewrite Hf. simpl. rewrite (upd_timer_eq _ _ _ _ Et). simpl.
    unfold on_timerDL. simpl. rewrite E. done.
  - rewrite Efr, without_middle by (rewrite not_elem_of_app; tauto).
    eapply (detached_allocated t _ l (fa ++ fb) _ tm (allocated_timer fifo tm) Hd); done.
Qed.

Lemma alloc_skip i : 0 <= i < OS_MAX_TIMER -> i ∉ fr -> body i c = Some (Continue c).
Proof using Hr.
  intros Hi Hn. unfold body. destruct (lookupZ_is_Some (timer c) i) as [tm Et].
  { rewrite (tr_len _ _ _ Hr). lia. }
  rewrite Et. simpl. destruct (Z.eqb_spec (tm_flags tm) TIMER_FLAGS_FREE) as [Hf|]; [|done].
  exfalso. apply Hn, (tr_free _ _ _ Hr). unfold flag. by rewrite Et, <- Hf.
Qed.

Lemma free_range i : i ∈ fr -> 0 <= i < OS_MAX_TIMER.
Proof using Hr.
  intros (tm & Et & _)%(tr_free _ _ _ Hr)%flag_timer. apply lookupZ_lt in Et.
  rewrite (tr_len _ _ _ Hr) in Et. lia.
Qed.

(** The lowest element of a list. *)
Lemma lowest (m : list Z) : m = [] \/ exists t, t ∈ m /\ forall i, i ∈ m -> t <= i.
Proof using Type.
  clear. induction m as [|x m [->|(t & Ht & Hlow)]]; [by left| |].
  - right. exists x. split; [by apply elem_of_cons; left|].
    intros i ->%list_elem_of_singleton. done.
  - right. destruct (Z.le_ge_cases x t).
    + exists x. split; [by apply elem_of_cons; left|].
      intros i [->|Hi]%elem_of_cons; [done|]. specialize (Hlow i Hi). lia.
    + exists t. split; [by apply elem_of_cons; right|].
      intros i [->|Hi]%elem_of_cons; [lia|]. by apply Hlow.
Qed.

Lemma alloc_spec :
  (fr = [] /\ timer_alloc_customfifo c fifo = Some (None, c))
  \/ exists t tm c', t ∈ fr /\ (forall i, i ∈ fr -> t <= i) /\ (timer c)$[t] = Some tm
       /\ timer_alloc_customfifo c fifo = Some (Some t, c')
       /\ timer_repr c' l (without t fr) /\ tick c' = tick c /\ tssTimer c' = tssTimer c
       /\ timer c' = <[Z.to_nat t := allocated_timer fifo tm]> (timer c).
Proof using Hr.
  unfold timer_alloc_customfifo. fold body. destruct (lowest fr) as [Hfr|(t & Hin & Hlow)].
  - left. split; [done|]. rewrite (loop_until_all _ (fun _ => c) _ 0); [done|].
    intros i Hi. apply alloc_skip; [lia|]. rewrite Hfr. apply not_elem_of_nil.
  - right. destruct (alloc_take t Hin) as (tm & c' & Et & Eb & R & K & S & T).
    pose proof (free_range t Hin) as Ht.
    exists t, tm, c'. split_and!; try done.
    rewrite (loop_until_stop _ (fun _ => c) _ (Z.to_nat t) 0 (Return c' t)); [done|lia| | |done].
    + intros i Hi. apply alloc_skip; [lia|]. intros Hfi%Hlow. lia.
    + replace (0 + Z.of_nat (Z.to_nat t)) with t by lia. exact Eb.
Qed.
End alloc.

(** ** Initialisation *)
Definition default_timer : TIMER := mkTIMER UINT32_MAX TIMER_FLAGS_FREE None 0.

(** After [i] rounds of the loop. *)
Definition init_inv (i : Z) (s : TIMERCTL * Z) : Prop :=
  let '(c, prev) := s in
  length (timer c) = Z.to_nat OS_MAX_TIMER /\ listtail c = guard /\ tick c = 0
  /\ next_alarm_on_tick c = UINT32_MAX
  /\ prev = lastof guard (seqZ 0 i) /\ dring (timerDL c) guard (seqZ 0 i)
  /\ (timer c)$[guard] = Some (mkTIMER UINT32_MAX TIMER_FLAGS_GUARDNODE None 0)
  /\ forall j, 0 <= j < i -> (timer c)$[j] = Some default_timer.

Lemma seqZ_snoc i : 0 <= i -> seqZ 0 (i + 1) = seqZ 0 i ++ [i].
Proof.
  intros Hi. rewrite seqZ_app by lia. do 2 f_equal.
Qed.

Lemma init_step i s :
  0 <= i < guard -> init_inv i s ->
  exists s', (let '(c, prev) := s in
              c ← __timer_set_default_params c (Some i);
              c ← on_timerDL (fun st => dlist_insert_after st prev i) c;
              Some (c, i)) = Some s' /\ init_inv (i + 1) s'.
Proof.
  destruct s as [c prev]. intros Hi (Hl & Ht & Hk & Ha & Hp & R & Hg & Hj).
  destruct (lookupZ_is_Some (timer c) i) as [tm Et].
  { rewrite Hl. unfold guard in Hi. lia. }
  unfold __timer_set_default_params. rewrite (upd_timer_eq _ _ _ _ Et), !bind_Some_eq.
  unfold on_timerDL. cbn [timerDL set_timerDL set_timers].
  assert (Hni : i ∉ guard :: seqZ 0 i).
  { intros [->|Hin%elem_of_seqZ]%elem_of_cons; lia. }
  assert (R0 : dring (dlist_init (timerDL c) i) guard (seqZ 0 i)).
  { eapply dring_same_outside; [exact R|apply dlist_init_outside|].
    intros q Hq ->%list_elem_of_singleton. done. }
  assert (exists st', dlist_insert_after (dlist_init (timerDL c) i) prev i = Some (st', true)
            /\ dring st' guard (seqZ 0 (i + 1))) as (st' & E & R').
  { rewrite seqZ_snoc by lia. destruct (seqZ 0 i) as [|x m _] eqn:Es using rev_ind.
    - simpl in Hp. subst prev.
      destruct (dlist_insert_after_ring _ guard [] i [] R0 (dlist_init_ring _ _))
        as (st' & E & R' & _); [|by exists st'].
      intros p q Hx ->%list_elem_of_singleton ->. done.
    - rewrite lastof_snoc in Hp. subst prev.
      destruct (dlist_insert_after_inner _ guard m x [] i [] R0 (dlist_init_ring _ _))
        as (st' & E & R' & _); [|exists st'; split; [done|by rewrite <- app_assoc]].
      intros p q Hx ->%list_elem_of_singleton ->. done. }
  rewrite E, bind_Some_eq. eexists. split; [done|]. unfold init_inv. simpl. split_and!; try done.
  - by rewrite length_insert.
  - rewrite seqZ_snoc by lia. by rewrite lastof_snoc.
  - rewrite lookupZ_insert_ne by lia. done.
  - intros j Hj'. rewrite lookupZ_insert by (eapply lookupZ_lt; exact Et).
    case_decide; [done|]. apply Hj. lia.
Qed.

Lemma set_default_eq c t tm :
  (timer c)$[t] = Some tm ->
  __timer_set_default_params c (Some t)
  = Some (set_timerDL (set_timers c (<[Z.to_nat t := default_timer]> (timer c)))
            (dlist_init (timerDL c) t)).
Proof. intros Et. unfold __timer_set_default_params. by rewrite (upd_timer_eq _ _ _ _ Et). Qed.

Lemma timerctl_init_spec c :
  length (timer c) = Z.to_nat OS_MAX_TIMER ->
  exists c', timerctl_init c = Some c' /\ timer_repr c' [] (seqZ 0 guard) /\ tick c' = 0.
Proof.
  intros Hlen. unfold timerctl_init. cbv zeta. fold guard.
  set (c0 := mkTIMERCTL _ _ _ _ _ _).
  destruct (lookupZ_is_Some (timer c0) guard) as [tm Et]; [simpl; rewrite Hlen; done|].
  rewrite (set_default_eq _ _ _ Et), bind_Some_eq.
  set (c1 := set_timerDL _ _).
  assert (Et1 : (timer c1)$[guard] = Some default_timer).
  { simpl. apply lookupZ_insert_eq. rewrite Hlen. done. }
  rewrite (upd_timer_eq _ _ _ _ Et1), bind_Some_eq.
  match goal with |- context [for_range 0 guard ?f ?s] =>
    destruct (for_range_inv init_inv 0 guard f s) as ([c' prev] & E & Hl & Ht & Hk & Ha & Hp & R & Hg & Hj) end.
  - done.
  - unfold init_inv. cbn [timer set_timers set_timerDL listtail tick next_alarm_on_tick timerDL].
    split_and!; try done.
    + simpl. by rewrite !length_insert.
    + apply dlist_init_ring.
    + apply lookupZ_insert_eq. simpl. rewrite length_insert, Hlen. done.
    + intros j Hj. lia.
  - intros i s Hi Hs. destruct (init_step i s Hi Hs) as (s' & Es & Hs').
    exists s'. split; [|done]. by destruct s.
  - rewrite E, bind_Some_eq. exists c'. split; [done|]. split; [|done].
    assert (Hall : forall i, is_Some ((timer c')$[i]) -> i = guard \/ (0 <= i < guard)).
    { intros i [x Ex]. apply lookupZ_lt in Ex. rewrite Hl in Ex. unfold guard. lia. }
    constructor; try done.
    + unfold flag, tgt. rewrite Hg. done.
    + intros i. split; [by intros ?%elem_of_nil|]. unfold flag. intros Hf.
      destruct (Hall i) as [->|Hi]; [by destruct ((timer c')$[i])|by rewrite Hg in Hf|].
      by rewrite Hj in Hf.
    + intros i. rewrite elem_of_seqZ. unfold flag. split.
      * intros Hi. by rewrite Hj by lia.
      * intros Hf. destruct (Hall i) as [->|Hi]; [by destruct ((timer c')$[i])|by rewrite Hg in Hf|lia].
    + intros i Hi%elem_of_seqZ. unfold tgt. by rewrite Hj by lia.
    + unfold flag. intros i Hf.
      destruct (Hall i) as [->|Hi]; [by destruct ((timer c')$[i])|by rewrite Hg in Hf|].
      by rewrite Hj in Hf.
    + constructor.
    + intros i. unfold tgt. destruct ((timer c')$[i]) as [x|] eqn:Ex; [|done].
      destruct (Hall i) as [->|Hi]; [by rewrite Ex| |]; [rewrite Hg in Ex|rewrite Hj in Ex by done];
        by injection Ex as <-.
Qed.

Lemma without_first : without 0 (seqZ 0 guard) = seqZ 1 (guard - 1).
Proof.
  rewrite seqZ_cons by done. unfold without. rewrite filter_cons_False by (intros H; by apply H).
  apply filter_all. intros x Hx%elem_of_seqZ. lia.
Qed.

Lemma PIT_init_spec c :
  length (timer c) = Z.to_nat OS_MAX_TIMER ->
  exists c', PIT_init c = Some c' /\ timer_repr c' [] (seqZ 1 (guard - 1))
    /\ timer_get_tssTimer c' = Some 0 /\ flag c' 0 = Some TIMER_FLAGS_ALLOCATED /\ tick c' = 0.
Proof.
  intros Hlen. destruct (timerctl_init_spec c Hlen) as (c1 & E1 & R1 & K1).
  unfold PIT_init. rewrite E1, bind_Some_eq.
  destruct (alloc_spec c1 [] (seqZ 0 guard) R1 None)
    as [[Hf _]|(t & tm & c2 & Hin & Hlow & Et & Ea & R2 & K2 & _ & T2)].
  { assert (H0 : 0 ∈ seqZ 0 guard) by (by apply elem_of_seqZ). rewrite Hf in H0.
    by apply elem_of_nil in H0. }
  assert (t = 0) as ->.
  { apply elem_of_seqZ in Hin. specialize (Hlow 0). rewrite elem_of_seqZ in Hlow.
    unfold guard, OS_MAX_TIMER in *. lia. }
  rewrite Ea, bind_Some_eq. eexists. split; [reflexivity|]. rewrite without_first in R2.
  split; [destruct R2; by constructor|]. split; [reflexivity|]. split; [|simpl; congruence].
  unfold flag. cbn [timer set_tssTimer]. rewrite T2, lookupZ_insert_eq; [reflexivity|].
  eapply lookupZ_lt, Et.
Qed.

(** ** Theorems *)

(** The place of [t] in the order: after the timers that fire earlier than
    [target], before the others. *)
Definition place (c : TIMERCTL) (target t : Z) (l : list Z) : list Z :=
  filter (fun i => tgt c i < target) l ++ t :: filter (fun i => target <= tgt c i) l.

Lemma place_split c target t l1 l2 :
  (forall i, i ∈ l1 -> tgt c i < target) -> (forall i, i ∈ l2 -> target <= tgt c i) ->
  place c target t (l1 ++ l2) = l1 ++ t :: l2.
Proof.
  intros H1 H2. unfold place. rewrite filter_split, filter_split_r; try done; intros i Hi.
  - specialize (H1 i Hi). lia.
  - specialize (H2 i Hi). lia.
Qed.


(** [timer_settimer] on a timer that is still counting down: it is taken out
    of the list and put back at its new place, whether the search starts at the
    head or, when the timer is postponed, at the timer before it; the next alarm
    is right again provided the timer was the first of the list or was not due
    at the next alarm. *)
Theorem settimer_rearms c l fr t tm timeout data :
  timer_repr c l fr -> (timer c)$[t] = Some tm -> tm_flags tm = TIMER_FLAGS_ONCOUNTDOWN ->
  hd guard l = t \/ next_alarm_on_tick c < tgt c t -> fr <> [] ->
  exists c', timer_settimer c (Some t) timeout data = Some c'
    /\ armed_as c c' t tm timeout data (place c (u32 (tick c + timeout)) t (without t l)) fr.
Proof.
  intros Hr Et Hf Htie Hne.
  assert (Hin : t ∈ l) by (apply (tr_armed _ _ _ Hr); unfold flag; by rewrite Et, <- Hf).
  destruct (tr_ring _ _ _ Hr) as [ND _]. apply list.NoDup_cons in ND as [Hg ND].
  apply list_elem_of_split in Hin as (la & lb & ->).
  rewrite <- app_assoc in ND. simpl in ND. rewrite <- Permutation_middle in ND.
  apply list.NoDup_cons in ND as [Hn _]. rewrite !not_elem_of_app in Hn.
  rewrite without_middle by (rewrite not_elem_of_app; tauto).
  destruct (detach_armed _ _ _ _ _ Hr) as (st & _ & Hd).
  destruct (by_tick_split c (la ++ lb) (u32 (tick c + timeout)) (dt_sorted _ _ _ _ Hd))
    as (l1 & l2 & E & H1 & H2).
  rewrite E, place_split by done. eapply settimer_rearm; try done.
  - destruct Htie as [Ht|Ht]; [left|right; lia]. destruct la as [|x la]; [done|]. simpl in Ht.
    subst x. exfalso. apply (proj1 Hn). by apply elem_of_cons; left.
  - right. intros [_ E']%app_nil. done.
Qed.

(** [timer_free]: any timer but the guard, whatever its state, becomes free
    with default parameters and goes to the end of the list; its FIFO is
    released; the other timers keep their order and the next alarm is right,
    with the same provision as for re-arming. *)
Theorem timer_free_correct {W} (kfree_fifo : Z -> W -> option W) c l fr t tm w w' :
  timer_repr c l fr -> (timer c)$[t] = Some tm ->
  tm_flags tm = TIMER_FLAGS_FREE \/ tm_flags tm = TIMER_FLAGS_ALLOCATED
  \/ tm_flags tm = TIMER_FLAGS_ONCOUNTDOWN /\ (hd guard l = t \/ next_alarm_on_tick c < tgt c t) ->
  release kfree_fifo tm w = Some w' ->
  exists c', timer_free kfree_fifo c w (Some t) = Some (c', w')
    /\ timer_repr c' (without t l) (without t fr ++ [t])
    /\ timer c' = <[Z.to_nat t := timer_default tm]> (timer c) /\ tick c' = tick c.
Proof.
  intros Hr Et Hf Hw. assert (Ef : flag c t = Some (tm_flags tm)) by (unfold flag; by rewrite Et).
  destruct (timer_free_spec kfree_fifo c l fr t tm w Hr Et) as (c' & E & R & T & K & _).
  - destruct Hf as [->|[->|[-> _]]]; done.
  - rewrite Ef. destruct Hf as [->|[->|[-> _]]]; auto.
  - intros la lb ->. assert (Hin : t ∈ la ++ t :: lb) by (rewrite elem_of_app, elem_of_cons; tauto).
    apply (tr_armed _ _ _ Hr) in Hin. rewrite Ef in Hin. injection Hin as Hin.
    destruct Hf as [Hf|[Hf|[_ [Ht|Ht]]]]; [by rewrite Hf in Hin..| |right; lia]. left.
    destruct la as [|x la]; [done|]. simpl in Ht. subst x. exfalso.
    destruct (tr_ring _ _ _ Hr) as [ND _]. simpl in ND. rewrite !list.NoDup_cons in ND.
    apply (proj1 (proj2 ND)). rewrite !elem_of_app, elem_of_cons. tauto.
  - exists c'. rewrite E, Hw. done.
Qed.

(** C7. The timer interrupt: the tick advances, and exactly the armed timers that
    are due fire, in the order of the list: the data of each goes to its FIFO,
    and the timer is allocated and off the list again.  The others stay, the
    next alarm is right, the task switch is made exactly when the task timer is
    among those fired, and nothing is done when none is due. *)
Theorem int_handler_correct {W} (enqueue : option Z -> Z -> W -> option W)
    (autoswitch : TIMERCTL -> W -> option (TIMERCTL * W)) c l fr :
  timer_repr c l fr -> 0 <= tick c -> tick c + 1 < UINT32_MAX ->
  let due := filter (fun i => tgt c i <= tick c + 1) l in
  let rest := filter (fun i => tick c + 1 < tgt c i) l in
  exists c', timer_repr c' rest fr /\ tick c' = tick c + 1
    /\ (forall i, (timer c')$[i] = if decide (i ∈ due) then fired_timer <$> (timer c)$[i]
                                   else (timer c)$[i])
    /\ forall w cli, timer_int_handler enqueue autoswitch c w cli
       = if decide (due = []) then Some (c', w, true)
         else w' ← deliver enqueue (timers_of c due) w;
              if tss_fired c due then r ← autoswitch c' w'; Some (r.1, r.2, cli)
              else Some (c', w', cli).
Proof.
  intros Hr H0 Htk due rest.
  destruct (by_tick_split c l (tick c + 2) (tr_sorted _ _ _ Hr)) as (l1 & l2 & -> & H1 & H2).
  assert (H1' : forall i, i ∈ l1 -> tgt c i <= tick c + 1) by (intros i Hi; specialize (H1 i Hi); lia).
  assert (H2' : forall i, i ∈ l2 -> tick c + 1 < tgt c i) by (intros i Hi; specialize (H2 i Hi); lia).
  assert (due = l1 /\ rest = l2) as [-> ->].
  { unfold due, rest. split; [apply filter_split|apply filter_split_r]; try done; intros i Hi.
    - specialize (H2' i Hi). lia.
    - specialize (H1' i Hi). lia. }
  destruct (int_handler_spec enqueue autoswitch c l1 l2 fr Hr H0 Htk H1' H2') as (c' & R & K & _ & T & Hh).
  by exists c'.
Qed.

(** [PIT_init] leaves every timer but two free, in the order of the array:
    the last one is the guard node, the first one is handed out as the timer of
    the task switch; no alarm is set. *)
Theorem PIT_init_correct c :
  length (timer c) = Z.to_nat OS_MAX_TIMER ->
  exists c', PIT_init c = Some c' /\ timer_repr c' [] (seqZ 1 (guard - 1))
    /\ timer_get_tssTimer c' = Some 0 /\ flag c' 0 = Some TIMER_FLAGS_ALLOCATED /\ tick c' = 0.
Proof. apply PIT_init_spec. Qed.

(** [timer_alloc_customfifo] hands out the free timer with the lowest index,
    with the FIFO attached and off the list; when no timer is free it returns
    NULL and changes nothing. *)
Theorem timer_alloc_correct c l fr fifo :
  timer_repr c l fr ->
  (fr = [] /\ timer_alloc_customfifo c fifo = Some (None, c))
  \/ exists t tm c', t ∈ fr /\ (forall i, i ∈ fr -> t <= i) /\ (timer c)$[t] = Some tm
       /\ timer_alloc_customfifo c fifo = Some (Some t, c')
       /\ timer_repr c' l (without t fr) /\ tick c' = tick c
       /\ timer c' = <[Z.to_nat t := allocated_timer fifo tm]> (timer c).
Proof.
  intros Hr. destruct (alloc_spec c l fr Hr fifo)
    as [H|(t & tm & c' & ? & ? & ? & ? & ? & ? & ? & ?)]; [by left|right].
  exists t, tm, c'. by split_and!.
Qed.

(** A timer can be lost: when no timer is free and every armed one is due
    earlier, [timer_settimer] marks the timer as counting down but leaves it out
    of the list, because the search never looks at the guard node. *)
Theorem settimer_lost c l t tm timeout data :
  timer_repr c l [] -> (timer c)$[t] = Some tm -> tm_flags tm = TIMER_FLAGS_ALLOCATED ->
  (forall i, i ∈ l -> tgt c i < u32 (tick c + timeout)) ->
  exists c', timer_settimer c (Some t) timeout data = Some c' /\ timerDL c' = timerDL c
    /\ flag c' t = Some TIMER_FLAGS_ONCOUNTDOWN /\ t ∉ l.
Proof.
  intros Hr Et Hf Hlt.
  assert (Hd : detached t c l []).
  { apply allocated_detached; [done|]. unfold flag. by rewrite Et, <- Hf. }
  set (data' := if data =? 0 then tm_data tm else data).
  destruct (arm_spec c t tm timeout data' Et) as (c1 & Ea & T1 & L1 & D1 & _).
  pose proof (dt_this _ _ _ _ Hd) as Hn. rewrite app_nil_r, not_elem_of_cons in Hn.
  exists c1. split_and!; try done; [| |tauto].
  - unfold timer_settimer. rewrite Et, bind_Some_eq, Hf. simpl. rewrite Et. simpl.
    rewrite Hf. simpl. fold data'. rewrite Ea, bind_Some_eq, L1, (dt_tail _ _ _ _ Hd).
    unfold insert_by_tick. rewrite (list_for_each_skip_all _ _ _ _ l); [done| | |].
    + rewrite D1. pose proof (dt_ring _ _ _ _ Hd) as R. by rewrite app_nil_r in R.
    + pose proof (detached_length _ _ _ _ Hd) as Hl. rewrite app_nil_r in Hl. lia.
    + intros q Hq. assert (t <> q) by (intros <-; tauto).
      destruct (detached_exists _ _ _ _ q Hd) as [tmq Eq];
        [rewrite elem_of_cons, elem_of_app; tauto|].
      rewrite (timer_upd _ _ _ _ _ Et T1), decide_False, Eq by done. simpl.
      specialize (Hlt q Hq). rewrite (tgt_timer _ _ _ Eq) in Hlt. rewrite Z.geb_leb.
      by rewrite (proj2 (Z.leb_gt _ _) Hlt).
  - rewrite (flag_upd _ _ _ _ _ Et T1), decide_True by done. done.
Qed.

(** ** A concrete run *)
Definition timerctl_zero : TIMERCTL :=
  mkTIMERCTL 0 0 0 (replicate (Z.to_nat OS_MAX_TIMER) (mkTIMER 0 0 None 0)) ∅ None.

Definition demo_ctl : TIMERCTL := default timerctl_zero (PIT_init timerctl_zero).
Definition demo_armed : TIMERCTL := default timerctl_zero (timer_settimer demo_ctl (Some 0) 5 1).

(** Nothing is an element of the empty list. *)
Ltac no_elem := intros ? Hnil; apply elem_of_nil in Hnil; contradiction.

Lemma demo_ctl_facts :
  timer_repr demo_ctl [] (seqZ 1 (guard - 1)) /\ flag demo_ctl 0 = Some TIMER_FLAGS_ALLOCATED
  /\ tick demo_ctl = 0.
Proof.
  destruct (PIT_init_spec timerctl_zero) as (c & E & R & _ & F & K); [vm_compute; reflexivity|].
  unfold demo_ctl. rewrite E. split; [exact R|]. split; [exact F|exact K].
Qed.

#[local] Opaque demo_ctl timer_settimer timer_free timer_int_handler.

Definition demo_timer : TIMER := mkTIMER UINT32_MAX TIMER_FLAGS_ALLOCATED None 0.

Lemma demo_timer_eq : (timer demo_ctl)$[0] = Some demo_timer.
Proof. vm_compute. reflexivity. Qed.

Lemma demo_free : seqZ 1 (guard - 1) <> [].
Proof. vm_compute. discriminate. Qed.

Lemma demo_armed_repr :
  timer_repr demo_armed [0] (seqZ 1 (guard - 1)) /\ tick demo_armed = 0.
Proof.
  destruct demo_ctl_facts as (R & _ & K).
  destruct (settimer_allocated demo_ctl [] [] (seqZ 1 (guard - 1)) 0 demo_timer 5 1 R demo_timer_eq)
    as (c & E & R' & K' & _); [reflexivity|no_elem..|exact demo_free|].
  unfold demo_armed. rewrite E. split; [exact R'|]. simpl. congruence.
Qed.

#[local] Opaque demo_armed.

Definition demo_armed_timer : TIMER := mkTIMER 5 TIMER_FLAGS_ONCOUNTDOWN None 1.

Lemma demo_armed_eq : (timer demo_armed)$[0] = Some demo_armed_timer.
Proof. vm_compute. reflexivity. Qed.


Lemma settimer_rearms_witness :
  exists c, timer_settimer demo_armed (Some 0) 9 0 = Some c
    /\ timer_repr c (place demo_armed 9 0 (without 0 [0])) (seqZ 1 (guard - 1)).
Proof.
  destruct (settimer_rearms demo_armed [0] (seqZ 1 (guard - 1)) 0 demo_armed_timer 9 0)
    as (c & E & R & _);
    [apply demo_armed_repr|exact demo_armed_eq|reflexivity|left; reflexivity|exact demo_free|].
  exists c. split; [exact E|]. rewrite (proj2 demo_armed_repr) in R. exact R.
Defined.

Lemma timer_free_correct_witness :
  exists c, timer_free (fun _ (w : unit) => Some w) demo_armed tt (Some 0) = Some (c, tt)
    /\ flag c 0 = Some TIMER_FLAGS_FREE.
Proof.
  destruct (timer_free_correct (fun _ (w : unit) => Some w) demo_armed [0] (seqZ 1 (guard - 1)) 0
              demo_armed_timer tt tt) as (c & E & R & T & _);
    [apply demo_armed_repr|exact demo_armed_eq| |reflexivity|].
  - right. right. split; [reflexivity|left; reflexivity].
  - exists c. split; [exact E|]. apply (tr_free _ _ _ R). rewrite elem_of_app, list_elem_of_singleton.
    right. reflexivity.
Defined.

Lemma int_handler_correct_witness :
  exists c, timer_repr c (filter (fun i => 0 + 1 < tgt demo_armed i) [0]) (seqZ 1 (guard - 1))
    /\ tick c = 0 + 1.
Proof.
  destruct demo_armed_repr as [R K].
  destruct (int_handler_correct (fun _ _ (w : unit) => Some w) (fun c w => Some (c, w)) demo_armed [0]
              (seqZ 1 (guard - 1)) R) as (c & R' & K' & _); [rewrite K; lia|rewrite K; concrete|].
  rewrite K in R', K'. exists c. split; [exact R'|exact K'].
Defined.

Lemma PIT_init_correct_witness : exists c, PIT_init timerctl_zero = Some c /\ timer_get_tssTimer c = Some 0.
Proof.
  destruct (PIT_init_correct timerctl_zero) as (c & E & _ & T & _); [vm_compute; reflexivity|].
  exists c. split; [exact E|exact T].
Defined.

Lemma timer_alloc_correct_witness : exists t c, timer_alloc_customfifo demo_ctl (Some 4096) = Some (Some t, c).
Proof.
  destruct (timer_alloc_correct demo_ctl [] (seqZ 1 (guard - 1)) (Some 4096))
    as [[H _]|(t & tm & c & _ & _ & _ & E & _)]; [apply demo_ctl_facts| |].
  - destruct (demo_free H).
  - exists t, c. exact E.
Defined.

(** All timers in use: every one but the guard allocated and on its own. *)
Definition full_ctl : TIMERCTL :=
  mkTIMERCTL 0 guard UINT32_MAX
    (replicate (Z.to_nat guard) demo_timer ++ [mkTIMER UINT32_MAX TIMER_FLAGS_GUARDNODE None 0])
    (foldr (fun i st => dlist_init st i) ∅ (seqZ 0 OS_MAX_TIMER)) None.

Lemma init_all_alone l i : i ∈ l -> dring (foldr (fun i st => dlist_init st i) ∅ l) i [].
Proof.
  induction l as [|x l IH]; [by intros ?%elem_of_nil|]. simpl. intros Hi.
  destruct (decide (i = x)) as [->|Hne]; [apply dlist_init_ring|].
  eapply dring_same_outside; [apply IH|apply dlist_init_outside|].
  - apply elem_of_cons in Hi as [?|?]; done.
  - intros q ->%list_elem_of_singleton. by rewrite list_elem_of_singleton.
Qed.

Lemma full_ctl_timer i :
  (timer full_ctl)$[i]
  = if decide (0 <= i < guard) then Some demo_timer
    else if decide (i = guard) then Some (mkTIMER UINT32_MAX TIMER_FLAGS_GUARDNODE None 0) else None.
Proof.
  unfold lookupZ, full_ctl. cbn [timer]. destruct (Z.leb_spec 0 i); [|by rewrite !decide_False by (unfold guard, OS_MAX_TIMER; lia)].
  case_decide.
  - rewrite lookup_app_l by (rewrite length_replicate; lia). apply lookup_replicate_2. lia.
  - assert (guard <= i) by lia. rewrite lookup_app_r by (rewrite length_replicate; lia).
    rewrite length_replicate. case_decide.
    + subst i. by rewrite Nat.sub_diag.
    + apply lookup_ge_None_2. simpl. unfold guard, OS_MAX_TIMER in *. lia.
Qed.

Lemma full_ctl_repr : timer_repr full_ctl [] [].
Proof.
  assert (Hf : forall i, flag full_ctl i = Some TIMER_FLAGS_ALLOCATED \/ i = guard
                         \/ flag full_ctl i = None).
  { intros i. unfold flag. rewrite full_ctl_timer. repeat case_decide; auto. }
  assert (Hg : flag full_ctl guard = Some TIMER_FLAGS_GUARDNODE)
    by (unfold flag; rewrite full_ctl_timer; by rewrite decide_False, decide_True by lia).
  constructor; try reflexivity.
  - split; [exact Hg|reflexivity].
  - apply init_all_alone. apply elem_of_seqZ. unfold guard, OS_MAX_TIMER. lia.
  - intros i. split; [intros Hi; apply elem_of_nil in Hi; contradiction|]. intros E.
    destruct (Hf i) as [Hi|[->|Hi]]; rewrite ?Hi, ?Hg in E; discriminate E.
  - intros i. split; [intros Hi; apply elem_of_nil in Hi; contradiction|]. intros E.
    destruct (Hf i) as [Hi|[->|Hi]]; rewrite ?Hi, ?Hg in E; discriminate E.
  - no_elem.
  - intros i Hi. apply init_all_alone, elem_of_seqZ.
    apply flag_timer in Hi as (tm & Et & _). apply lookupZ_lt in Et. exact Et.
  - constructor.
  - intros i. unfold tgt. rewrite full_ctl_timer. repeat case_decide; concrete.
Qed.

Lemma settimer_lost_witness :
  exists c, timer_settimer full_ctl (Some 3) 7 0 = Some c /\ flag c 3 = Some TIMER_FLAGS_ONCOUNTDOWN.
Proof.
  destruct (settimer_lost full_ctl [] 3 demo_timer 7 0) as (c & E & _ & F & _);
    [exact full_ctl_repr|reflexivity|reflexivity|no_elem|].
  exists c. split; [exact E|exact F].
Defined.

(** Three timers from [PIT_init] on, two of them due at the same tick. *)
Definition tied (c : TIMERCTL) : option TIMERCTL :=
  c ← PIT_init c;
  '(_, c) ← timer_alloc_customfifo c None;
  '(_, c) ← timer_alloc_customfifo c None;
  '(_, c) ← timer_alloc_customfifo c None;
  c ← timer_settimer c (Some 1) 10 0;
  c ← timer_settimer c (Some 2) 10 0;
  timer_settimer c (Some 3) 20 0.

Fixpoint ticks (n : nat) (c : TIMERCTL) : option TIMERCTL :=
  match n with
  | O => Some c
  | S n => r ← timer_int_handler (fun _ _ (w : unit) => Some w) (fun c w => Some (c, w)) c tt false;
           ticks n r.1.1
  end.

(** An alarm can be late: with two timers due at tick 10 and one at tick 20,
    re-arming the one that was set first moves the next alarm to tick 20; the
    other one is still waiting at tick 19, and fires only then. *)
Theorem alarm_late :
  (c1 ← tied timerctl_zero;
   c2 ← timer_settimer c1 (Some 1) 30 0;
   c3 ← ticks 19 c2;
   c4 ← ticks 1 c3;
   Some (tgt c2 2, next_alarm_on_tick c2, flag c3 2, flag c4 2))
  = Some (10, 20, Some TIMER_FLAGS_ONCOUNTDOWN, Some TIMER_FLAGS_ALLOCATED).
Proof. vm_compute. reflexivity. Qed.
