(* ===== verification/Descriptors.v ===== *)
(** * Segment and gate descriptors: src/src/gdt/gdt.{h,c} and src/src/idt/idt.{h,c}

    The packed descriptors as records of bit fields, their images as 64-bit words
    in the layout of the structs, and the global descriptor table with its
    register.  Assigning to a field of [w] bits keeps the value modulo 2^w. *)
From Stdlib Require Import ZArith Lia.
From stdpp Require Import base option list numbers.
From S2P Require Import Prelude.

Set Default Proof Using "Type".

(** ** Segment descriptors *)
Record GDT32SD := mkGDT32SD {
  sd_limit_low : Z;
  sd_base_low : Z;
  sd_base_mid : Z;
  sd_access_byte : Z;
  sd_limit_high : Z;
  sd_flags : Z;
  sd_base_high : Z
}.

Record GDTR32 := mkGDTR32 { gdtr_limit : Z; gdtr_base : Z }.

Definition sizeof_GDT32SD : Z := 8.

Definition gdt_set_segmdesc (sd : GDT32SD) (limit base ar : Z) : GDT32SD :=
  {| sd_flags := 0xc;
     sd_limit_low := Z.land limit 0xffff;
     sd_base_low := Z.land base 0xffff;
     sd_base_mid := Z.land (Z.shiftr base 16) 0xff;
     sd_access_byte := Z.land ar 0xff;
     sd_limit_high := Z.land (Z.shiftr limit 16) 0x0f;
     sd_base_high := Z.land (Z.shiftr base 24) 0xff |}.

Definition sd_zero : GDT32SD := mkGDT32SD 0 0 0 0 0 0 0.

(** The descriptor as the processor reads it: the fields from the lowest address
    on, 16 + 16 + 8 + 8 + 4 + 4 + 8 bits. *)
Definition sd_word (sd : GDT32SD) : Z :=
  sd_limit_low sd + Z.shiftl (sd_base_low sd) 16 + Z.shiftl (sd_base_mid sd) 32
  + Z.shiftl (sd_access_byte sd) 40 + Z.shiftl (sd_limit_high sd) 48 + Z.shiftl (sd_flags sd) 52
  + Z.shiftl (sd_base_high sd) 56.

(** ** The table *)
Record gdt := mkGdt { gdtr : GDTR32; gdts : list GDT32SD }.

(** [__gdt_import]: the entries that the register of the boot loader covers are
    copied; [src] is the table it points to, [self] the address of [gdts]. *)
Definition __gdt_import (g : gdt) (self : Z) (gdtrSrc : GDTR32) (src : list GDT32SD) : option gdt :=
  let n := Z.to_nat ((gdtr_limit gdtrSrc + 1) / sizeof_GDT32SD) in
  if (n <=? length src)%nat && (n <=? length (gdts g))%nat then
    Some (mkGdt (mkGDTR32 (gdtr_limit gdtrSrc) self) (take n src ++ drop n (gdts g)))
  else None.

Definition gdt_append (g : gdt) (d1 : GDT32SD) : option (Z * gdt) :=
  let r := gdtr g in
  let d_len := (gdtr_limit r + 1) / sizeof_GDT32SD in
  d ← (gdts g)$[d_len := d1];
  Some (u16 (Z.shiftl d_len 3), mkGdt (mkGDTR32 (u16 (gdtr_limit r + 8)) (gdtr_base r)) d).

(** ** Gate descriptors *)
Record IDT_GATE_DESCRIPTOR_32 := mkGate {
  gd_offset_1 : Z;
  gd_selector : Z;
  gd_zero : Z;
  gd_type_attr : Z;
  gd_offset_2 : Z
}.

Definition OS_GDT_KERNEL_CODE_SEGMENT_SELECTOR : Z := 2 * 8.
Definition OS_GDT_KERNEL_DATA_SEGMENT_SELECTOR : Z := 1 * 8.
Definition OS_IDT_TOTAL_INTERRUPTS : Z := 256.
Definition OS_IDT_AR_INTGATE32 : Z := 0x8e.

Definition set_gatedesc (gd : IDT_GATE_DESCRIPTOR_32) (offset selector access_right : Z)
  : IDT_GATE_DESCRIPTOR_32 :=
  {| gd_offset_1 := u16 (Z.land offset 0xffff);
     gd_selector := u16 selector;
     gd_zero := 0;
     gd_type_attr := u8 access_right;
     gd_offset_2 := u16 (Z.land (Z.shiftr offset 16) 0xffff) |}.

(** The loop of [idt_init]: every entry gets its default handler. *)
Definition idt_fill (handlers : list Z) (idts : list IDT_GATE_DESCRIPTOR_32)
  : option (list IDT_GATE_DESCRIPTOR_32) :=
  for_range 0 OS_IDT_TOTAL_INTERRUPTS (fun i idts =>
    h ← handlers$[i];
    gd ← idts$[i];
    idts$[i := set_gatedesc gd h OS_GDT_KERNEL_CODE_SEGMENT_SELECTOR OS_IDT_AR_INTGATE32]) idts.

(** ** What the processor reads back *)
Definition sd_base (sd : GDT32SD) : Z :=
  sd_base_low sd + Z.shiftl (sd_base_mid sd) 16 + Z.shiftl (sd_base_high sd) 24.
Definition sd_limit (sd : GDT32SD) : Z := sd_limit_low sd + Z.shiftl (sd_limit_high sd) 16.
Definition gd_offset (gd : IDT_GATE_DESCRIPTOR_32) : Z := gd_offset_1 gd + Z.shiftl (gd_offset_2 gd) 16.

(** ** Lemmas on bit fields *)
Lemma land_ones_mod a n : 0 <= n -> Z.land a (2 ^ n - 1) = a mod 2 ^ n.
Proof. intros. rewrite <- Z.land_ones by done. by rewrite Z.ones_equiv, Z.sub_1_r. Qed.

Lemma split_field a n : 0 <= n -> a mod 2 ^ n + Z.shiftl (Z.shiftr a n) n = a.
Proof.
  intros. rewrite Z.shiftl_mul_pow2, Z.shiftr_div_pow2 by done.
  pose proof (Z.div_mod a (2 ^ n) ltac:(lia)). lia.
Qed.

Lemma base_split base :
  0 <= base < 2 ^ 32 ->
  base mod 2 ^ 16 + Z.shiftl (Z.shiftr base 16 mod 2 ^ 8) 16
  + Z.shiftl (Z.shiftr base 24 mod 2 ^ 8) 24 = base.
Proof.
  intros Hb. rewrite !Z.shiftl_mul_pow2, !Z.shiftr_div_pow2 by lia.
  rewrite (Z.mod_small (base / 2 ^ 24)) by (split; [apply Z.div_pos|apply Z.div_lt_upper_bound]; lia).
  replace (2 ^ 24) with (2 ^ 16 * 2 ^ 8) by lia. rewrite <- Z.div_div by lia.
  pose proof (Z.div_mod base (2 ^ 16) ltac:(lia)).
  pose proof (Z.div_mod (base / 2 ^ 16) (2 ^ 8) ltac:(lia)). lia.
Qed.

Lemma two_halves a : 0 <= a < 2 ^ 32 ->
  a mod 2 ^ 16 + Z.shiftl (Z.shiftr a 16 mod 2 ^ 16) 16 = a.
Proof.
  intros Ha. rewrite (Z.mod_small (Z.shiftr a 16)).
  - by apply split_field.
  - rewrite Z.shiftr_div_pow2 by lia. split; [apply Z.div_pos|apply Z.div_lt_upper_bound]; lia.
Qed.

(** ** Tables *)

(** The register covers exactly the first [n] entries. *)
Definition gdt_repr (g : gdt) (n : nat) : Prop :=
  gdtr_limit (gdtr g) = 8 * Z.of_nat n - 1 /\ Z.of_nat (length (gdts g)) = 8192
  /\ 1 <= Z.of_nat n <= 8192.

Lemma gdt_append_spec g n d1 :
  gdt_repr g n -> Z.of_nat n < 8192 ->
  exists g', gdt_append g d1 = Some (8 * Z.of_nat n, g') /\ gdt_repr g' (S n)
    /\ gdts g' = <[n := d1]> (gdts g) /\ gdtr_base (gdtr g') = gdtr_base (gdtr g).
Proof.
  intros (Hl & Hlen & Hn) Hlt. unfold gdt_append, sizeof_GDT32SD. rewrite Hl.
  replace (8 * Z.of_nat n - 1 + 1) with (Z.of_nat n * 8) by lia. rewrite Z.div_mul by lia.
  rewrite updateZ_nat by lia. simpl. eexists. split.
  - do 2 f_equal. rewrite Z.shiftl_mul_pow2 by lia. change (2 ^ 3) with 8.
    rewrite u16_small by (change (2 ^ 16) with 65536; lia). lia.
  - split; [|done]. unfold gdt_repr. simpl. rewrite length_insert.
    rewrite u16_small by (change (2 ^ 16) with 65536; lia). split_and!; lia.
Qed.

(** Appending a list of descriptors, and the selectors returned. *)
Fixpoint gdt_append_all (g : gdt) (ds : list GDT32SD) : option (list Z * gdt) :=
  match ds with
  | [] => Some ([], g)
  | d :: ds => '(s, g) ← gdt_append g d; '(ss, g) ← gdt_append_all g ds; Some (s :: ss, g)
  end.

Lemma gdt_append_all_spec ds g n :
  gdt_repr g n -> Z.of_nat (n + length ds) <= 8192 ->
  exists g', gdt_append_all g ds = Some ((fun i => 8 * Z.of_nat i) <$> seq n (length ds), g')
    /\ gdt_repr g' (n + length ds) /\ gdts g' = take n (gdts g) ++ ds ++ drop (n + length ds) (gdts g).
Proof.
  revert g n. induction ds as [|d ds IH]; intros g n Hr Hn; simpl in *.
  - exists g. rewrite Nat.add_0_r. split_and!; [done|done|]. by rewrite take_drop.
  - destruct (gdt_append_spec g n d Hr) as (g1 & E & Hr1 & Hg & _); [lia|]. rewrite E. simpl.
    destruct (IH g1 (S n) Hr1) as (g' & E' & Hr' & Hg'); [lia|]. rewrite E'. simpl.
    exists g'. replace (n + S (length ds))%nat with (S n + length ds)%nat by lia.
    split_and!; [done|done|]. rewrite Hg', Hg. destruct Hr as (_ & Hlen & _).
    rewrite (take_S_r _ n d) by (apply list_lookup_insert_eq; lia).
    rewrite take_insert_ge, drop_insert_lt by lia. by rewrite <- app_assoc.
Qed.

Lemma idt_fill_spec handlers idts :
  length handlers = Z.to_nat OS_IDT_TOTAL_INTERRUPTS -> length idts = Z.to_nat OS_IDT_TOTAL_INTERRUPTS ->
  exists idts', idt_fill handlers idts = Some idts' /\ length idts' = length idts
    /\ forall k h, handlers !! k = Some h ->
         idts' !! k = Some (set_gatedesc (mkGate 0 0 0 0 0) h OS_GDT_KERNEL_CODE_SEGMENT_SELECTOR
                              OS_IDT_AR_INTGATE32).
Proof.
  intros Hh Hi. unfold idt_fill.
  set (I := fun (i : Z) (l : list IDT_GATE_DESCRIPTOR_32) => length l = length idts
    /\ forall k h, Z.of_nat k < i -> handlers !! k = Some h ->
         l !! k = Some (set_gatedesc (mkGate 0 0 0 0 0) h OS_GDT_KERNEL_CODE_SEGMENT_SELECTOR
                          OS_IDT_AR_INTGATE32)).
  destruct (for_range_inv I 0 OS_IDT_TOTAL_INTERRUPTS (fun i idts =>
    h ← handlers$[i]; gd ← idts$[i];
    idts$[i := set_gatedesc gd h OS_GDT_KERNEL_CODE_SEGMENT_SELECTOR OS_IDT_AR_INTGATE32]) idts)
    as (l & E & Hl & Hk).
  - done.
  - split; [done|]. intros k h Hk. lia.
  - intros i l Hi' [Hl Hk]. destruct (lookupZ_is_Some handlers i) as [h Eh]; [lia|].
    destruct (lookupZ_is_Some l i) as [gd Egd]; [lia|]. rewrite Eh. simpl. rewrite Egd. simpl.
    rewrite updateZ_in by lia. eexists. split; [done|]. split; [by rewrite length_insert|].
    intros k h' Hki Hkh. destruct (decide (k = Z.to_nat i)) as [->|Hne].
    + rewrite list_lookup_insert_eq by lia. apply lookupZ_Some in Eh as [_ Eh].
      rewrite Eh in Hkh. by injection Hkh as <-.
    + rewrite list_lookup_insert_ne by done. apply Hk; [lia|done].
  - exists l. split_and!; [done|done|]. intros k h Hkh. apply Hk; [|done].
    apply lookup_lt_Some in Hkh. lia.
Qed.

(** ** Theorems *)

(** Descriptors are read back as they were set: for every 32-bit base, 20-bit
    limit and access byte, [gdt_set_segmdesc] leaves fields within their widths
    from which the processor reads the same base, limit and access byte; so does
    [set_gatedesc] for every handler address and selector. *)
Theorem descriptors_roundtrip sd gd base limit ar offset selector attr :
  0 <= base < 2 ^ 32 -> 0 <= limit < 2 ^ 20 -> 0 <= ar < 2 ^ 8 ->
  0 <= offset < 2 ^ 32 -> 0 <= selector < 2 ^ 16 -> 0 <= attr < 2 ^ 8 ->
  let d := gdt_set_segmdesc sd limit base ar in
  let g := set_gatedesc gd offset selector attr in
  sd_base d = base /\ sd_limit d = limit /\ sd_access_byte d = ar /\ sd_flags d = 12
  /\ 0 <= sd_word d < 2 ^ 64
  /\ gd_offset g = offset /\ gd_selector g = selector /\ gd_type_attr g = attr /\ gd_zero g = 0.
Proof.
  intros Hb Hl Ha Ho Hs Ht d g.
  assert (Hh : 0 <= Z.shiftr limit 16 < 2 ^ 4).
  { rewrite Z.shiftr_div_pow2 by lia. split; [apply Z.div_pos|apply Z.div_lt_upper_bound]; lia. }
  unfold d, g, gdt_set_segmdesc, set_gatedesc, sd_base, sd_limit, sd_word, gd_offset. simpl.
  change 65535 with (2 ^ 16 - 1). change 255 with (2 ^ 8 - 1). change 15 with (2 ^ 4 - 1).
  rewrite !land_ones_mod by lia. unfold u16, u8. rewrite !Zmod_mod.
  rewrite base_split, two_halves by done.
  rewrite (Z.mod_small ar), (Z.mod_small selector), (Z.mod_small attr) by done.
  rewrite (Z.mod_small (Z.shiftr limit 16)) by done. rewrite split_field by lia.
  split_and!; try done; rewrite !Z.shiftl_mul_pow2 by lia;
    pose proof (Z.mod_pos_bound base (2 ^ 16) ltac:(lia));
    pose proof (Z.mod_pos_bound limit (2 ^ 16) ltac:(lia));
    pose proof (Z.mod_pos_bound (Z.shiftr base 16) (2 ^ 8) ltac:(lia));
    pose proof (Z.mod_pos_bound (Z.shiftr base 24) (2 ^ 8) ltac:(lia)); lia.
Qed.

Lemma descriptors_roundtrip_witness :
  sd_base (gdt_set_segmdesc sd_zero 104 0x01002000 0x89) = 0x01002000.
Proof.
  destruct (descriptors_roundtrip sd_zero (mkGate 0 0 0 0 0) 0x01002000 104 0x89 0x100abc 16 0x8e)
    as [E _]; [lia..|exact E].
Defined.

(** Appending to the descriptor table: as long as there is room, descriptors
    appended one after the other land in consecutive entries, the entries before
    them stay, the register covers them, and the selectors returned are eight
    times their indices. *)
Theorem gdt_append_correct ds g n :
  gdt_repr g n -> Z.of_nat (n + length ds) <= 8192 ->
  exists g', gdt_append_all g ds = Some ((fun i => 8 * Z.of_nat i) <$> seq n (length ds), g')
    /\ gdt_repr g' (n + length ds) /\ gdts g' = take n (gdts g) ++ ds ++ drop (n + length ds) (gdts g).
Proof. apply gdt_append_all_spec. Qed.

Lemma gdt_append_correct_witness :
  exists g, gdt_append_all (mkGdt (mkGDTR32 23 0) (replicate (Z.to_nat 8192) sd_zero)) [sd_zero; sd_zero]
            = Some ([24; 32], g).
Proof.
  destruct (gdt_append_correct [sd_zero; sd_zero] (mkGdt (mkGDTR32 23 0) (replicate (Z.to_nat 8192) sd_zero)) 3)
    as (g & E & _).
  - split; [reflexivity|]. split; [cbn [gdts]; rewrite length_replicate; reflexivity|lia].
  - simpl. lia.
  - exists g. exact E.
Defined.
