(* ===== verification/Sched.v ===== *)
(** * The parts together: tasks, timers, FIFOs and interrupts

    src/src/kernel/mprocessfifo.c, the callers of src/src/pic/timer.c and
    src/src/kernel/process.c, the interrupt handlers of src/src/idt/idt.c and
    [PIC_sendEOI] of src/src/pic/pic.c, over one state of the kernel.  A FIFO
    lives at an address, and the address of its buffer is kept beside the
    contents.  Port writes and far jumps are recorded in the order they are made. *)
From Stdlib Require Import ZArith Lia.
From stdpp Require Import base option list gmap numbers.
From S2P Require Import Prelude Dlist Fifo Heapdl HeapdlInv HeapdlSpec Allocator Memory Process Timer Descriptors.

Set Default Proof Using "Type".

(** ** State *)
Record MPFIFO32 := mkMPFIFO32 {
  mp_fifo32 : FIFO32;
  mp_buf : Z;  (** the address of the buffer of [mp_fifo32] *)
  mp_task : option Z
}.

Record world := mkWorld {
  w_taskctl : TASKCTL;
  w_fifos : gmap Z MPFIFO32;
  w_heap : heap;
  w_mem : memory;
  w_gdt : gdt;
  w_ports : list (Z * Z);  (** [_io_out8] calls: port and value *)
  w_jumps : list Z         (** [_farjmp] calls: segment selectors *)
}.

Definition set_taskctl (w : world) (tc : TASKCTL) : world :=
  mkWorld tc (w_fifos w) (w_heap w) (w_mem w) (w_gdt w) (w_ports w) (w_jumps w).
Definition set_fifos (w : world) (fs : gmap Z MPFIFO32) : world :=
  mkWorld (w_taskctl w) fs (w_heap w) (w_mem w) (w_gdt w) (w_ports w) (w_jumps w).
Definition set_heap (w : world) (h : heap) (m : memory) : world :=
  mkWorld (w_taskctl w) (w_fifos w) h m (w_gdt w) (w_ports w) (w_jumps w).
Definition set_gdt (w : world) (g : gdt) : world :=
  mkWorld (w_taskctl w) (w_fifos w) (w_heap w) (w_mem w) g (w_ports w) (w_jumps w).
Definition _io_out8 (w : world) (port val : Z) : world :=
  mkWorld (w_taskctl w) (w_fifos w) (w_heap w) (w_mem w) (w_gdt w) (w_ports w ++ [(port, u8 val)]) (w_jumps w).
Definition _farjmp (w : world) (cs : Z) : world :=
  mkWorld (w_taskctl w) (w_fifos w) (w_heap w) (w_mem w) (w_gdt w) (w_ports w) (w_jumps w ++ [cs]).

(** ** src/src/kernel/mprocessfifo.c *)
Definition mpfifo32_init (f : option MPFIFO32) (buf : option (Z * list Z)) (size : Z)
    (task : option Z) : option MPFIFO32 :=
  match f, buf with
  | Some f, Some (addr, cells) =>
      g ← fifo32_init (Some (mp_fifo32 f)) (Some cells) size;
      Some (mkMPFIFO32 g addr task)
  | _, _ => f
  end.

Definition mpfifo32_enqueue (f : option Z) (data : Z) (w : world) : option (Z * world) :=
  match f with
  | None => Some (- EIO, w)
  | Some a =>
      mp ← w_fifos w !! a;
      '(res, g) ← fifo32_enqueue (Some (mp_fifo32 mp)) data;
      g ← g;
      let w := set_fifos w (<[a := mkMPFIFO32 g (mp_buf mp) (mp_task mp)]> (w_fifos w)) in
      match mp_task mp with
      | None => Some (res, w)
      | Some t =>
          task ← (tasks0 (w_taskctl w))$[t];
          if t_flags task =? MPROCESS_FLAGS_ALLOCATED then
            tc ← mprocess_task_run (w_taskctl w) (Some t) (-1) 0;
            Some (res, set_taskctl w tc)
          else Some (res, w)
      end
  end.

Definition mpfifo32_dequeue (a : Z) (w : world) : option (Z * world) :=
  mp ← w_fifos w !! a;
  '(res, g) ← fifo32_dequeue (Some (mp_fifo32 mp));
  g ← g;
  Some (res, set_fifos w (<[a := mkMPFIFO32 g (mp_buf mp) (mp_task mp)]> (w_fifos w))).

Definition mpfifo32_peek (a : Z) (w : world) : option Z :=
  mp ← w_fifos w !! a; fifo32_peek (Some (mp_fifo32 mp)).

Definition mpfifo32_status_getUsageB (a : Z) (w : world) : option Z :=
  mp ← w_fifos w !! a; Some (fifo32_status_getUsageB (Some (mp_fifo32 mp))).

(** ** Task switches *)
Definition mprocess_task_autoswitch (c : TIMERCTL) (w : world) : option (TIMERCTL * world) :=
  let tssTimer := timer_get_tssTimer c in
  '(tc, taskCurrent, taskNext) ← autoswitch_next (w_taskctl w);
  n ← taskNext;
  next ← (tasks0 tc)$[n];
  c ← timer_settimer c tssTimer (t_priority next) 0;
  let w := set_taskctl w tc in
  Some (c, if bool_decide (taskNext = taskCurrent) then w else _farjmp w (t_gdtSegmentSelector next)).

Definition task_sleep (w : world) (task : option Z) : option world :=
  '(tc, jump) ← mprocess_task_sleep (w_taskctl w) task;
  let w := set_taskctl w tc in
  Some (match jump with Some cs => _farjmp w cs | None => w end).

(** ** Timers with their FIFOs *)
Definition sizeof_FIFO32 : Z := 24.

Definition timer_alloc (c : TIMERCTL) (w : world) : option (option Z * TIMERCTL * world) :=
  '(fifo32buf, h, m) ← kzalloc (w_heap w) (w_mem w) 512;
  let w := set_heap w h m in
  '(timer_fifo, h, m) ← kzalloc (w_heap w) (w_mem w) sizeof_FIFO32;
  let w := set_heap w h m in
  let old := if timer_fifo =? 0 then None else Some (mkMPFIFO32 FIFO32_zero 0 None) in
  let buf := if fifo32buf =? 0 then None else Some (fifo32buf, replicate 128 0) in
  let fifo := mpfifo32_init old buf (512 / 4) None in
  let w := match fifo with
           | Some f => set_fifos w (<[timer_fifo := f]> (w_fifos w))
           | None => w
           end in
  '(t, c) ← timer_alloc_customfifo c (if timer_fifo =? 0 then None else Some timer_fifo);
  Some (t, c, w).

(** [kfree(timer->fifo->fifo32.buf); kfree(timer->fifo)] *)
Definition kfree_fifo (a : Z) (w : world) : option world :=
  mp ← w_fifos w !! a;
  h ← kfree (w_heap w) (mp_buf mp);
  h ← kfree h a;
  Some (set_fifos (set_heap w h (w_mem w)) (delete a (w_fifos w))).

Definition k_timer_free (c : TIMERCTL) (w : world) (t : option Z) : option (TIMERCTL * world) :=
  timer_free kfree_fifo c w t.

(** ** Interrupts *)
Definition PIC0_COMMAND : Z := 0x20.
Definition PIC1_COMMAND : Z := 0xA0.
Definition PIC_SIG_EOI_SP : Z := 0x60.

Definition PIC_sendEOI (irq : Z) (w : world) : world :=
  if irq <? 8 then _io_out8 w PIC0_COMMAND (Z.lor PIC_SIG_EOI_SP irq)
  else if (irq <? 16) && (irq >=? 8) then
    let w := _io_out8 w PIC1_COMMAND (Z.lor PIC_SIG_EOI_SP (irq - 8)) in
    _io_out8 w PIC0_COMMAND (Z.lor PIC_SIG_EOI_SP 2)
  else w.

(** The remapping of the interrupt controllers; [DEBUG_NO_TIMER] is a build
    constant, 0. *)
Definition DEBUG_NO_TIMER : bool := false.
Definition PIC0_DATA : Z := PIC0_COMMAND + 1.
Definition PIC1_DATA : Z := PIC1_COMMAND + 1.
Definition ICW1_INIT : Z := 0x10.
Definition ICW1_ICW4P : Z := 0x01.
Definition ICW1_LEVEL : Z := 0x08.
Definition ICW4_8086 : Z := 0x01.

Definition PIC_init (w : world) (offset0 offset1 : Z) : world :=
  let w := _io_out8 w PIC0_DATA 0xff in
  let w := _io_out8 w PIC1_DATA 0xff in
  let w := _io_out8 w PIC0_COMMAND (Z.lor ICW1_INIT ICW1_ICW4P) in
  let w := _io_out8 w PIC0_DATA offset0 in
  let w := _io_out8 w PIC0_DATA (Z.shiftl 1 2) in
  let w := _io_out8 w PIC0_DATA ICW4_8086 in
  let w := _io_out8 w PIC1_COMMAND (Z.lor (Z.lor ICW1_INIT ICW1_ICW4P) ICW1_LEVEL) in
  let w := _io_out8 w PIC1_DATA offset1 in
  let w := _io_out8 w PIC1_DATA 2 in
  let w := _io_out8 w PIC1_DATA ICW4_8086 in
  let w := if DEBUG_NO_TIMER
           then _io_out8 w PIC0_DATA (Z.lxor 0xff (Z.lor (Z.shiftl 1 1) (Z.shiftl 1 2)))
           else _io_out8 w PIC0_DATA (Z.lxor 0xff (Z.lor (Z.lor 1 (Z.shiftl 1 1)) (Z.shiftl 1 2))) in
  _io_out8 w PIC1_DATA (Z.lxor 0xff (Z.shiftl 1 4)).

(** [idt_init]: the FIFO of the keyboard and the mouse, at the address
    [keymousefifo] with its buffer of 512 cells at [buf], the register, and the
    table [idts], at the address [self].  The table of assembly stubs
    [_int_default_handlers] is a parameter. *)
Record IDT_IDTR_32 := mkIDTR { idtr_size : Z; idtr_offset : Z }.
Definition sizeof_IDT_GATE_DESCRIPTOR_32 : Z := 8.

Definition idt_init (_int_default_handlers : list Z) (keymousefifo buf self : Z)
    (idts : list IDT_GATE_DESCRIPTOR_32) (w : world)
  : option (world * IDT_IDTR_32 * list IDT_GATE_DESCRIPTOR_32) :=
  f ← mpfifo32_init (Some (mkMPFIFO32 FIFO32_zero 0 None)) (Some (buf, replicate 512 0)) 512 None;
  let w := set_fifos w (<[keymousefifo := f]> (w_fifos w)) in
  let idtr := mkIDTR (u16 (OS_IDT_TOTAL_INTERRUPTS * sizeof_IDT_GATE_DESCRIPTOR_32 - 1)) (u32 self) in
  idts ← idt_fill _int_default_handlers idts;
  Some (w, idtr, idts).

(** [gdt_migration]: the table of the boot loader becomes the table of the
    kernel ([_gdt_reload] loads the register into the processor). *)
Definition gdt_migration (self : Z) (gdtr0 : GDTR32) (src : list GDT32SD) (w : world) : option world :=
  g ← __gdt_import (w_gdt w) self gdtr0 src;
  Some (set_gdt w g).

Definition DEV_FIFO_KBD_START : Z := 256.
Definition DEV_FIFO_MOUSE_START : Z := 512.

Section interrupts.
(** The address of [keymousefifo] and the byte that the controller's data port
    holds. *)
Context (keymousefifo : Z) (port_data : Z).

Definition enqueue_data (f : option Z) (data : Z) (w : world) : option world :=
  snd <$> mpfifo32_enqueue f data w.

Definition int20h (c : TIMERCTL) (w : world) (cli : bool) : option (TIMERCTL * world * bool) :=
  let w := PIC_sendEOI 0 w in
  timer_int_handler enqueue_data mprocess_task_autoswitch c w cli.

Definition int2ch (w : world) : option world :=
  let w := PIC_sendEOI 12 w in
  enqueue_data (Some keymousefifo) (port_data + DEV_FIFO_MOUSE_START) w.

Definition int21h (w : world) : option world :=
  let w := PIC_sendEOI 1 w in
  enqueue_data (Some keymousefifo) (port_data + DEV_FIFO_KBD_START) w.

(** The dispatcher; interrupt 99 only prints a message. *)
Definition idt_int_default_handler (interrupt_number : Z) (c : TIMERCTL) (w : world) (cli : bool)
  : option (TIMERCTL * world * bool) :=
  if interrupt_number =? 0x3 then Some (c, w, cli)
  else if interrupt_number =? 0x20 then int20h c w cli
  else if interrupt_number =? 0x2c then w ← int2ch w; Some (c, w, cli)
  else if interrupt_number =? 0x21 then w ← int21h w; Some (c, w, cli)
  else if (interrupt_number >=? 0x20) && (interrupt_number <? 0x30) then
    if (interrupt_number =? 0x20 + 7) || (interrupt_number =? 0x28 + 7) then Some (c, w, cli)
    else Some (c, PIC_sendEOI (u8 (Z.land interrupt_number 0xff - 0x20)) w, cli)
  else Some (c, w, cli).
End interrupts.

(** ** [mprocess_init] *)
Definition sizeof_TASKCTL : Z := 128088.
Definition sizeof_TSS32 : Z := 108.

(** [&taskctl->tasks0[i].tss] *)
Definition tss_addr (taskctl i : Z) : Z := u32 (taskctl + 4088 + 124 * i + 16).

Definition mprocess_init (c : TIMERCTL) (w : world) (idle_entry : Z)
  : option (Z * TIMERCTL * world) :=
  '(taskctl, h, m) ← kzalloc (w_heap w) (w_mem w) sizeof_TASKCTL;
  if taskctl =? 0 then None
  else
    let w := set_heap w h m in
    g ← for_range 0 OS_MPROCESS_TASK_MAX (fun i g =>
          let sd := gdt_set_segmdesc sd_zero sizeof_TSS32 (tss_addr taskctl i) 0x89 in
          '(_, g) ← gdt_append g sd;
          Some g) (w_gdt w);
    let w := set_gdt w g in
    '(task, tc) ← mprocess_task_alloc taskctl_init;
    task ← task;
    tc ← upd_task tc task (fun t => set_level (set_priority (set_flags t MPROCESS_FLAGS_RUNNING) 2) 0);
    tc ← __mprocess_task_add tc task;
    tc ← __mprocess_task_update_currentlv tc;
    t ← (tasks0 tc)$[task];
    c ← timer_settimer c (timer_get_tssTimer c) (t_priority t) 0;
    '(taskIdle, tc) ← mprocess_task_alloc tc;
    taskIdle ← taskIdle;
    '(stack, h) ← kmalloc (w_heap w) 4096;
    tc ← upd_task tc taskIdle (fun t =>
           let s := t_tss t in
           mkTASK (t_gdtSegmentSelector t) (t_flags t) 1 (OS_MPROCESS_TASKLEVELS_MAX - 1)
             (mkTSS32 (tss_link s) (tss_esp0 s) (tss_ss0 s) (tss_esp1 s) (tss_ss1 s) (tss_esp2 s)
                (tss_ss2 s) (tss_cr3 s) idle_entry (tss_eflags s) (tss_eax s) (tss_ecx s) (tss_edx s)
                (tss_ebx s) (u32 (stack + 4096 - 4)) (tss_ebp s) (tss_esi s) (tss_edi s)
                OS_GDT_KERNEL_DATA_SEGMENT_SELECTOR OS_GDT_KERNEL_CODE_SEGMENT_SELECTOR
                OS_GDT_KERNEL_DATA_SEGMENT_SELECTOR OS_GDT_KERNEL_DATA_SEGMENT_SELECTOR
                OS_GDT_KERNEL_DATA_SEGMENT_SELECTOR OS_GDT_KERNEL_DATA_SEGMENT_SELECTOR
                (tss_ldtr s) (tss_iopb s) (tss_ssp s)));
    tc ← mprocess_task_run tc (Some taskIdle) (-1) 0;
    Some (task, c, set_taskctl (set_heap w h (w_mem w)) tc).
