(* ===== verification/SchedSpec.v ===== *)
(** * The timer interrupt keeps the kernel going

    The invariant of the whole kernel state of [Sched], and the proof that the
    interrupt handlers keep it and never fault. *)
From Stdlib Require Import ZArith Lia.
From stdpp Require Import base option list gmap numbers.
From S2P Require Import Prelude Dlist Fifo Heapdl Memory Process ProcessInv ProcessSpec Timer TimerInv TimerSpec Descriptors Sched.

Set Default Proof Using "Type".

(** ** The invariant *)

(** The tasks that are allocated or running. *)
Definition busy (tc : TASKCTL) (t : Z) : bool :=
  match (tasks0 tc)$[t] with
  | Some task => negb (t_flags task =? MPROCESS_FLAGS_FREE)
  | None => false
  end.

Definition busy_tasks (tc : TASKCTL) : list Z := filter (fun t => busy tc t = true) (seqZ 0 OS_MPROCESS_TASK_MAX).

Record world_ok (w : world) (qs : list (list Z)) : Prop := {
  wo_sched : sched_repr (w_taskctl w) qs;
  wo_now : exists q, qs !! Z.to_nat (now_lv (w_taskctl w)) = Some q /\ q <> [];
  wo_few : (length (busy_tasks (w_taskctl w)) <= Z.to_nat OS_MPROCESS_TASKLEVEL_TASKS_MAX)%nat;
  wo_fifos : forall a mp, w_fifos w !! a = Some mp ->
    (exists cap q, fifo_models (Some (mp_fifo32 mp)) cap q)
    /\ (forall t, mp_task mp = Some t -> busy (w_taskctl w) t = true)
}.

(** Every FIFO that a timer points to exists. *)
Definition timers_ok (c : TIMERCTL) (w : world) : Prop :=
  forall i tm a, (timer c)$[i] = Some tm -> tm_fifo tm = Some a -> is_Some (w_fifos w !! a).

(** The timers together with an invariant [W] of the rest. *)
Record kernel_inv (W : world -> Prop) (c : TIMERCTL) (w : world) : Prop := {
  ko_timers : exists l fr, timer_repr c l fr /\ fr <> [];
  ko_world : W w;
  ko_fifos : timers_ok c w;
  ko_tss : exists t, tssTimer c = Some t;
  ko_tick : 0 <= tick c
}.

Definition sched_ok (w : world) : Prop := exists qs, world_ok w qs.

Definition kernel_ok : TIMERCTL -> world -> Prop := kernel_inv sched_ok.

(** The handlers keep the set of FIFOs. *)
Definition same_fifos (w w' : world) : Prop :=
  forall a, is_Some (w_fifos w' !! a) <-> is_Some (w_fifos w !! a).

(** What the interrupt handlers need of an invariant of the tasks and FIFOs: an
    acknowledgement keeps it; a datum can be stored; and when the time slice is
    over, there is a task to switch to. *)
Class SwitchInv (W : world -> Prop) : Prop := {
  si_ports irq w : W w -> W (PIC_sendEOI irq w);
  si_enqueue f data w :
    W w -> (forall a, f = Some a -> is_Some (w_fifos w !! a)) ->
    exists w', enqueue_data f data w = Some w' /\ W w' /\ same_fifos w w';
  si_switch w :
    W w -> exists tc' cur d next, autoswitch_next (w_taskctl w) = Some (tc', cur, Some d)
      /\ (tasks0 tc')$[d] = Some next
      /\ W (set_taskctl w tc') /\ forall cs, W (_farjmp (set_taskctl w tc') cs)
}.

(** ** Waking *)
Section wake.
Context (w : world) (qs : list (list Z)) (Hw : world_ok w qs).
Let tc := w_taskctl w.

(** There is room for a task that is not running. *)
Lemma wake_room t task q :
  (tasks0 tc)$[t] = Some task -> t_flags task = MPROCESS_FLAGS_ALLOCATED ->
  qs !! Z.to_nat (t_level task) = Some q ->
  (length q < Z.to_nat OS_MPROCESS_TASKLEVEL_TASKS_MAX)%nat.
Proof using Hw.
  intros Et Hf Hq. destruct (wo_sched _ _ Hw) as [Hc _].
  assert (Hn : t ∉ q) by (eapply idle_not_queued; [exact Hc|exact Et|by rewrite Hf|exact Hq]).
  assert (ND : NoDup (t :: q)) by (apply list.NoDup_cons; split; [done|by eapply Hc]).
  assert (Hsub : t :: q ⊆ busy_tasks tc).
  { intros u Hu. apply list_elem_of_filter.
    assert (exists tu, (tasks0 tc)$[u] = Some tu /\ t_flags tu <> MPROCESS_FLAGS_FREE) as (tu & Eu & Fu).
    { apply elem_of_cons in Hu as [->|Hu]; [exists task; by rewrite Hf|].
      destruct (sc_queued _ _ Hc _ _ _ Hq Hu) as (tu & Eu & Fu & _). exists tu. by rewrite Fu. }
    split.
    - unfold busy. rewrite Eu. by destruct (Z.eqb_spec (t_flags tu) MPROCESS_FLAGS_FREE).
    - apply elem_of_seqZ. apply lookupZ_lt in Eu. pose proof (sc_ntasks _ _ Hc) as Hl.
      unfold tc in Eu. rewrite Hl in Eu. lia. }
  pose proof (NoDup_submseteq _ _ ND Hsub) as Hm. apply submseteq_length in Hm.
  pose proof (wo_few _ _ Hw). simpl in Hm. unfold tc in Hm. lia.
Qed.

(** A task that is put to run stays busy, and so do the others. *)
Lemma busy_same tc' t task task' :
  (tasks0 tc)$[t] = Some task -> tasks0 tc' = <[Z.to_nat t := task']> (tasks0 tc) ->
  t_flags task <> MPROCESS_FLAGS_FREE -> t_flags task' <> MPROCESS_FLAGS_FREE ->
  forall u, busy tc' u = busy tc u.
Proof using Type.
  intros Et T Hf Hf' u. unfold busy. rewrite T, (lookup_upd_task _ _ task) by done.
  case_decide as Hd; [|done]. subst u. rewrite Et.
  destruct (Z.eqb_spec (t_flags task) MPROCESS_FLAGS_FREE); [done|].
  by destruct (Z.eqb_spec (t_flags task') MPROCESS_FLAGS_FREE).
Qed.

Lemma wake_ok t task :
  (tasks0 tc)$[t] = Some task -> t_flags task = MPROCESS_FLAGS_ALLOCATED ->
  exists tc', mprocess_task_run tc (Some t) (-1) 0 = Some tc'
    /\ world_ok (set_taskctl w tc') (push qs (Z.to_nat (t_level task)) t).
Proof using Hw.
  intros Et Hf. destruct (wo_sched _ _ Hw) as [Hc _].
  pose proof (sc_level _ _ Hc _ _ Et) as Hl.
  destruct (run_spec tc qs Hc t task (-1) 0 Et) as (tc' & E & Hc' & Hlc & Hn & T).
  { simpl. lia. }
  { intros q Hq. by eapply wake_room. }
  exists tc'. split; [done|]. simpl in Hc', T.
  unfold run_queues in Hc'. rewrite Hf in Hc'. simpl in Hc'.
  assert (Hb : forall u, busy tc' u = busy tc u).
  { eapply (busy_same tc' t task); [done|exact T|by rewrite Hf|].
    unfold run_task. simpl. by rewrite Hf. }
  constructor; simpl.
  - split; [done|]. by rewrite Hlc.
  - rewrite Hn. destruct (wo_now _ _ Hw) as (q & Hq & Hne). unfold push.
    destruct (decide (Z.to_nat (t_level task) = Z.to_nat (now_lv tc))) as [El|El].
    + exists (q ++ [t]). rewrite El. split; [|by destruct q].
      unfold tc. rewrite list_lookup_alter_eq, Hq. done.
    + exists q. rewrite list_lookup_alter_ne by done. done.
  - unfold busy_tasks. erewrite list_filter_iff; [apply (wo_few _ _ Hw)|].
    intros u. simpl. by rewrite Hb.
  - intros a mp Ha. destruct (wo_fifos _ _ Hw a mp Ha) as [Hm Ht]. split; [done|].
    intros u Hu. rewrite Hb. by apply Ht.
Qed.
End wake.

(** ** [mpfifo32_enqueue] *)

(** Storing back a FIFO that still models a queue. *)
Lemma set_fifo_ok w qs a mp g cap q :
  world_ok w qs -> w_fifos w !! a = Some mp -> fifo_models (Some g) cap q ->
  world_ok (set_fifos w (<[a := mkMPFIFO32 g (mp_buf mp) (mp_task mp)]> (w_fifos w))) qs.
Proof.
  intros Hw Ha Hm. constructor; simpl; try apply Hw.
  intros b mp' Hb. destruct (decide (a = b)) as [<-|Hne].
  - rewrite lookup_insert_eq in Hb. injection Hb as <-. simpl. split; [by exists cap, q|].
    by apply (wo_fifos _ _ Hw a).
  - rewrite lookup_insert_ne in Hb by done. by apply (wo_fifos _ _ Hw b).
Qed.

Section enqueue.
Context (w : world) (qs : list (list Z)) (Hw : world_ok w qs).
Context (a data cap : Z) (mp : MPFIFO32) (q : list Z).
Context (Ha : w_fifos w !! a = Some mp) (Hm : fifo_models (Some (mp_fifo32 mp)) cap q).

(** The queues of the scheduler after the call. *)
Definition woken : list (list Z) :=
  match mp_task mp with
  | Some t =>
      match (tasks0 (w_taskctl w))$[t] with
      | Some task => if t_flags task =? MPROCESS_FLAGS_ALLOCATED
                     then push qs (Z.to_nat (t_level task)) t else qs
      | None => qs
      end
  | None => qs
  end.

Lemma enqueue_spec :
  exists w' mp', mpfifo32_enqueue (Some a) data w = Some (fst (queue_step cap q (Enqueue data)), w')
    /\ world_ok w' woken /\ w_fifos w' = <[a := mp']> (w_fifos w)
    /\ mp_task mp' = mp_task mp /\ mp_buf mp' = mp_buf mp
    /\ fifo_models (Some (mp_fifo32 mp')) cap (snd (queue_step cap q (Enqueue data)))
    /\ w_ports w' = w_ports w /\ w_jumps w' = w_jumps w /\ w_heap w' = w_heap w.
Proof using Hw Ha Hm.
  destruct (fifo_step_refines _ _ _ (Enqueue data) Hm) as (g & E & Hg). cbn [fifo_step] in E.
  assert (exists g0, g = Some g0) as [g0 ->] by (destruct Hg as (g0 & ? & -> & _); by exists g0).
  pose proof (set_fifo_ok w qs a mp g0 cap _ Hw Ha Hg) as Hw1.
  unfold mpfifo32_enqueue, woken. rewrite Ha, bind_Some_eq, E. cbn [mbind option_bind fst snd].
  destruct (mp_task mp) as [t|] eqn:Et.
  - destruct (wo_fifos _ _ Hw a mp Ha) as [_ Hb]. specialize (Hb t Et). unfold busy in Hb.
    simpl. destruct ((tasks0 (w_taskctl w))$[t]) as [task|] eqn:Etask; [|done]. simpl.
    destruct (Z.eqb_spec (t_flags task) MPROCESS_FLAGS_ALLOCATED) as [Hf|Hf].
    + destruct (wake_ok _ _ Hw1 t task Etask Hf) as (tc' & Er & Hw'). simpl in Er. rewrite Er. simpl.
      eexists _, _. split; [done|]. split; [exact Hw'|]. simpl. split_and!; try done.
    + eexists _, _. split; [done|]. split; [exact Hw1|]. simpl. split_and!; try done.
  - eexists _, _. split; [done|]. split; [exact Hw1|]. simpl. split_and!; try done.
Qed.
End enqueue.

Lemma enqueue_ok w f data :
  sched_ok w -> (forall a, f = Some a -> is_Some (w_fifos w !! a)) ->
  exists w', enqueue_data f data w = Some w' /\ sched_ok w' /\ same_fifos w w'.
Proof.
  intros [qs Hw] Hf. unfold enqueue_data. destruct f as [a|].
  - destruct (Hf a eq_refl) as [mp Ha]. destruct (wo_fifos _ _ Hw a mp Ha) as [(cap & q & Hm) _].
    destruct (enqueue_spec w qs Hw a data cap mp q Ha Hm) as (w' & mp' & E & Hw' & Hfs & _).
    rewrite E. simpl. eexists _. split; [done|]. split; [eexists; exact Hw'|].
    intros b. rewrite Hfs. destruct (decide (a = b)) as [->|Hne].
    + rewrite lookup_insert_eq, Ha. split; by eexists.
    + by rewrite lookup_insert_ne.
  - simpl. exists w. split_and!; [done|by exists qs|done].
Qed.

(** ** The timer of the task switch *)

(** A loop over a ring keeps what its body keeps. *)
Lemma for_each_keeps {S R} (P : S -> Prop) (nodes : S -> dstore) fuel head body :
  (forall pos s r, P s -> body pos s = Some r -> P (out r).2) ->
  forall pos (s : S) (r : step S R), P s -> for_each_from nodes fuel head pos body s = Some r -> P (out r).
Proof.
  intros Hb. induction fuel as [|fuel IH]; intros pos s r Hs; cbn [for_each_from]; [done|].
  destruct (pos =? head); [by intros [= <-]|].
  intros H. apply option.bind_Some in H as (b & Eb & H). pose proof (Hb _ _ _ Hs Eb) as Hk.
  destruct b as [[p s1]|[p s1]|[p s1] v]; simpl in Hk.
  - apply option.bind_Some in H as (p' & _ & H). by eapply IH.
  - by injection H as <-.
  - by injection H as <-.
Qed.

Section tss.
Implicit Types (c : TIMERCTL) (t : Z).

Lemma upd_timer_tss c t f c' : upd_timer c t f = Some c' -> tssTimer c' = tssTimer c.
Proof. unfold upd_timer. intros H. invert_binds H. by injection H as <-. Qed.

Lemma on_timerDL_tss f c c' : on_timerDL f c = Some c' -> tssTimer c' = tssTimer c.
Proof. unfold on_timerDL. intros H. invert_binds H. by injection H as <-. Qed.

Lemma insert_by_tick_tss c head t target c' :
  insert_by_tick c head t target = Some c' -> tssTimer c' = tssTimer c.
Proof.
  unfold insert_by_tick, list_for_each_entry. intros H. apply option.bind_Some in H as (r & H & E).
  invert_binds H. apply (for_each_keeps (fun s => tssTimer s = tssTimer c)) in H; [|clear|done].
  - destruct r; by injection E as <-.
  - intros pos s r Hs H. apply option.bind_Some in H as (p & _ & H). destruct (_ >=? _).
    + apply option.bind_Some in H as (s1 & H1%on_timerDL_tss & H). injection H as <-. simpl. congruence.
    + by injection H as <-.
Qed.

Lemma arm_tss c t timeout data c' target :
  arm c t timeout data = Some (c', target) -> tssTimer c' = tssTimer c.
Proof.
  unfold arm. intros H. apply option.bind_Some in H as (c1 & H1%upd_timer_tss & H).
  injection H as <- _. by destruct (_ >? _).
Qed.

Lemma settimer_tss c t tm timeout data c' :
  (timer c)$[t] = Some tm -> tm_flags tm = TIMER_FLAGS_ALLOCATED ->
  timer_settimer c (Some t) timeout data = Some c' -> tssTimer c' = tssTimer c.
Proof.
  intros Et Hf. unfold timer_settimer. rewrite Et, bind_Some_eq, Hf. simpl. rewrite Et. simpl.
  rewrite Hf. simpl. intros H. apply option.bind_Some in H as ([c1 target] & H1%arm_tss & H).
  apply insert_by_tick_tss in H. congruence.
Qed.
End tss.

(** ** The task switch *)

(** The level that is chosen has a task whose turn it is. *)
Lemma chosen_ok w qs tc' :
  world_ok w qs -> sched_core tc' qs -> tasks0 tc' = tasks0 (w_taskctl w) -> top_level qs (now_lv tc') ->
  world_ok (set_taskctl w tc') qs
  /\ exists d next, current tc' qs d /\ (tasks0 tc')$[d] = Some next.
Proof.
  intros Hw Hc' Ets Htop. destruct (wo_now _ _ Hw) as (q & Hq & Hqne). pose proof (sc_now_lv _ _ Hc') as Hn.
  destruct (top_level_nonempty qs (now_lv tc') _ q Htop Hq Hqne) as (qd & Hqd & Hqdne);
    [by eapply lookup_lt_Some|apply Hc'|lia|].
  split.
  - constructor; cbn [w_taskctl w_fifos set_taskctl].
    + by split.
    + by exists qd.
    + unfold busy_tasks, busy. rewrite Ets. apply (wo_few _ _ Hw).
    + unfold busy. rewrite Ets. apply (wo_fifos _ _ Hw).
  - destruct (current_exists tc' qs qd Hc' Hqd Hqdne) as (d & Hd).
    destruct (current_queued _ _ _ Hd) as (qd' & Hqd' & Hin).
    destruct (sc_queued _ _ Hc' _ _ _ Hqd' Hin) as (next & Enext & _). by exists d, next.
Qed.

Lemma next_task_ok w qs :
  world_ok w qs ->
  exists tc' cur d next, autoswitch_next (w_taskctl w) = Some (tc', cur, Some d)
    /\ (tasks0 tc')$[d] = Some next /\ world_ok (set_taskctl w tc') qs.
Proof.
  intros Hw. destruct (wo_sched _ _ Hw) as [Hc Htop].
  destruct (wo_now _ _ Hw) as (q & Hq & Hqne). pose proof (sc_now_lv _ _ Hc) as Hn.
  destruct (level_of _ _ Hc _ _ Hq) as (tl & Etl & R); [lia|].
  apply lookupZ_Some in Etl as [_ Etl].
  destruct (autoswitch_next_spec _ qs Hc tl q Etl Hq Hqne) as (lv & cur & Hlv & Hcur & Hsel & Hc' & Ha).
  edestruct (chosen_ok w qs _ Hw Hc') as (Hw' & d & next & Hd & Enext); [done| |].
  { cbn [now_lv]. destruct (lv_change (w_taskctl w)) eqn:Elc; [exact Hsel|]. rewrite Hsel. by apply Htop. }
  eexists _, (Some cur), d, next. split; [by apply Ha|]. by split.
Qed.

(** What only records an effect keeps the invariant. *)
Lemma world_ok_same w w' qs :
  w_taskctl w' = w_taskctl w -> w_fifos w' = w_fifos w -> world_ok w qs -> world_ok w' qs.
Proof. intros Et Ef [S N F Q]. constructor; by rewrite ?Et, ?Ef. Qed.

Lemma ports_taskctl irq w : w_taskctl (PIC_sendEOI irq w) = w_taskctl w.
Proof. unfold PIC_sendEOI. destruct (_ <? _); [done|]. by destruct (_ && _). Qed.

Lemma ports_fifos irq w : w_fifos (PIC_sendEOI irq w) = w_fifos w.
Proof. unfold PIC_sendEOI. destruct (_ <? _); [done|]. by destruct (_ && _). Qed.

#[global] Instance sched_ok_switch : SwitchInv sched_ok.
Proof.
  split.
  - intros irq w (qs & Hw). exists qs.
    by apply (world_ok_same w); [apply ports_taskctl|apply ports_fifos|].
  - intros f data w. apply enqueue_ok.
  - intros w (qs & Hw). destruct (next_task_ok w qs Hw) as (tc' & cur & d & next & E & En & Hw').
    exists tc', cur, d, next. split_and!; [done|done|by exists qs|]. intros cs. exists qs.
    by apply (world_ok_same (set_taskctl w tc')).
Qed.

Section switch_inv.
Context (W : world -> Prop) `{HW : !SwitchInv W}.

Lemma deliver_ok tms :
  forall w, W w ->
  (forall tm a, tm ∈ tms -> tm_fifo tm = Some a -> is_Some (w_fifos w !! a)) ->
  exists w', deliver enqueue_data tms w = Some w' /\ W w' /\ same_fifos w w'.
Proof using HW.
  induction tms as [|tm tms IH]; intros w Hw Hf; cbn [deliver].
  - exists w. split_and!; done.
  - destruct (si_enqueue (tm_fifo tm) (tm_data tm) w Hw) as (w1 & E & Hw1 & Hs1).
    { intros a Ha. eapply Hf; [|done]. by apply elem_of_cons; left. }
    rewrite E, bind_Some_eq. destruct (IH w1 Hw1) as (w2 & E2 & Hw2 & Hs2).
    { intros tm' a Hin Ha. apply Hs1. eapply Hf; [|done]. by apply elem_of_cons; right. }
    exists w2. split_and!; [done|done|]. intros a. rewrite (Hs2 a). apply Hs1.
Qed.

Lemma autoswitch_ok c l fr w t :
  timer_repr c l fr -> fr <> [] -> W w ->
  tssTimer c = Some t -> flag c t = Some TIMER_FLAGS_ALLOCATED ->
  exists c' w' l', mprocess_task_autoswitch c w = Some (c', w') /\ timer_repr c' l' fr
    /\ W w' /\ w_fifos w' = w_fifos w /\ tick c' = tick c /\ tssTimer c' = tssTimer c
    /\ forall i tm, (timer c')$[i] = Some tm -> exists tm0, (timer c)$[i] = Some tm0 /\ tm_fifo tm = tm_fifo tm0.
Proof using HW.
  intros Hr Hne Hw Ht Hf. destruct (si_switch w Hw) as (tc' & cur & d & next & Ea & Enext & Hw1 & Hw2).
  destruct (flag_timer _ _ _ Hf) as (tm & Etm & Hfl).
  destruct (by_tick_split c l (u32 (tick c + t_priority next)) (tr_sorted _ _ _ Hr))
    as (l1 & l2 & -> & H1 & H2).
  destruct (settimer_allocated c l1 l2 fr t tm (t_priority next) 0 Hr Etm Hfl H1 H2)
    as (c1 & Es & R1 & K1 & S1 & T1).
  { intros [_ E]%app_nil. done. }
  unfold mprocess_task_autoswitch, timer_get_tssTimer.
  rewrite Ea, bind_Some_eq. cbn [mbind option_bind]. rewrite Enext. cbn [mbind option_bind].
  rewrite Ht, Es. cbn [mbind option_bind].
  eexists c1, _, _. split; [done|]. split_and!; try done.
  - by destruct (bool_decide _).
  - by destruct (bool_decide _).
  - rewrite <- Ht. by eapply settimer_tss.
  - intros i tmi Ei. rewrite (timer_upd _ _ _ _ _ Etm T1) in Ei. case_decide; [|by exists tmi].
    injection Ei as <-. subst i. by exists tm.
Qed.

(** ** Interrupt handlers *)
Lemma timers_of_elem c l tm : tm ∈ timers_of c l -> exists i, (timer c)$[i] = Some tm.
Proof.
  induction l as [|i l IH]; simpl; [by intros ?%elem_of_nil|].
  destruct ((timer c)$[i]) as [tm'|] eqn:E; [|done].
  intros [->|?]%elem_of_cons; [by exists i|by apply IH].
Qed.

Lemma int20h_ok c w cli :
  kernel_inv W c w -> tick c + 1 < UINT32_MAX ->
  exists c' w' cli', int20h c w cli = Some (c', w', cli') /\ kernel_inv W c' w'
    /\ tick c' = tick c + 1 /\ same_fifos w w'.
Proof using HW.
  intros [(l & fr & Hr & Hfr) Hw Hf (t & Ht) H0] Htk.
  destruct (by_tick_split c l (tick c + 2) (tr_sorted _ _ _ Hr)) as (l1 & l2 & -> & H1 & H2).
  destruct (int_handler_spec enqueue_data mprocess_task_autoswitch c l1 l2 fr Hr H0 Htk)
    as (c1 & R1 & K1 & S1 & T1 & Hh).
  { intros i Hi. specialize (H1 i Hi). lia. }
  { intros i Hi. specialize (H2 i Hi). lia. }
  set (w0 := PIC_sendEOI 0 w).
  assert (Hf1 : forall i tm, (timer c1)$[i] = Some tm ->
                exists tm0, (timer c)$[i] = Some tm0 /\ tm_fifo tm = tm_fifo tm0).
  { intros i tm E. rewrite T1 in E. case_decide; [|by exists tm].
    apply fmap_Some in E as (tm0 & E & ->). by exists tm0. }
  assert (Hk : forall w', W w' -> same_fifos w0 w' -> kernel_inv W c1 w').
  { intros w' Hw' Hs. constructor; [by exists l2, fr|done| |by exists t; rewrite S1|lia].
    intros i tm a E Ha. apply Hs. unfold w0. rewrite ports_fifos.
    destruct (Hf1 i tm E) as (tm0 & E0 & Ef). eapply Hf; [exact E0|congruence]. }
  unfold int20h. fold w0. rewrite Hh.
  case_decide as Hd.
  - exists c1, w0, true. split; [done|]. split_and!; [|done|].
    + apply Hk; [by apply si_ports|done].
    + intros a. unfold w0. by rewrite ports_fifos.
  - destruct (deliver_ok (timers_of c l1) w0) as (w1 & E1 & Hw1 & Hs1).
    { by apply si_ports. }
    { intros tm a (i & Ei)%timers_of_elem Ha. unfold w0. rewrite ports_fifos. by eapply Hf. }
    assert (Hs : same_fifos w w1).
    { intros a. rewrite (Hs1 a). unfold w0. by rewrite ports_fifos. }
    rewrite E1, bind_Some_eq. destruct (tss_fired c l1) eqn:Etf.
    + unfold tss_fired in Etf. rewrite Ht in Etf. apply bool_decide_eq_true in Etf.
      assert (Hfl : flag c1 t = Some TIMER_FLAGS_ALLOCATED).
      { assert (flag c t = Some TIMER_FLAGS_ONCOUNTDOWN) as (tm & E & _)%flag_timer.
        { apply (tr_armed _ _ _ Hr). apply elem_of_app. by left. }
        unfold flag. rewrite T1, decide_True by done. by rewrite E. }
      destruct (autoswitch_ok c1 l2 fr w1 t R1 Hfr Hw1) as (c2 & w2 & l' & E2 & R2 & Hw2 & F2 & K2 & S2 & T2).
      { by rewrite S1. }
      { done. }
      rewrite E2, bind_Some_eq. cbn [fst snd]. exists c2, w2, cli. split; [done|]. split_and!.
      * constructor; [by exists l', fr|done| |exists t; congruence|lia].
        intros i tm a E Ha. rewrite F2. destruct (T2 i tm E) as (tm1 & E3 & Ef).
        destruct (Hf1 i tm1 E3) as (tm0 & E0 & Ef0). apply Hs. eapply Hf; [exact E0|congruence].
      * lia.
      * intros a. rewrite F2. apply Hs.
    + exists c1, w1, cli. split; [done|]. split_and!; [|done|done]. by apply Hk.
Qed.

(** Storing an event. *)
Lemma event_ok c w f irq data :
  kernel_inv W c w -> is_Some (w_fifos w !! f) ->
  exists w', enqueue_data (Some f) data (PIC_sendEOI irq w) = Some w' /\ kernel_inv W c w' /\ same_fifos w w'.
Proof using HW.
  intros [Hr Hw Hf Ht H0] Ha.
  destruct (si_enqueue (Some f) data (PIC_sendEOI irq w)) as (w' & E & Hw' & Hs).
  { by apply si_ports. }
  { intros a [= <-]. by rewrite ports_fifos. }
  assert (Hs' : same_fifos w w') by (intros a; rewrite (Hs a); by rewrite ports_fifos).
  exists w'. split_and!; [done| |done]. constructor; try done.
  intros i tm a Ei Ef. apply Hs'. by eapply Hf.
Qed.

Lemma eoi_ok c w irq : kernel_inv W c w -> kernel_inv W c (PIC_sendEOI irq w).
Proof using HW.
  intros [Hr Hw Hf Ht H0]. constructor; try done; [by apply si_ports|].
  intros i tm a. rewrite ports_fifos. apply Hf.
Qed.

(** An interrupt: its number, and the byte that the keyboard controller holds. *)
Definition irq_ticks (n : Z) : Z := if n =? 0x20 then 1 else 0.

Lemma interrupt_ok f n byte c w cli :
  kernel_inv W c w -> is_Some (w_fifos w !! f) -> tick c + irq_ticks n < UINT32_MAX ->
  exists c' w' cli', idt_int_default_handler f byte n c w cli = Some (c', w', cli') /\ kernel_inv W c' w'
    /\ tick c' = tick c + irq_ticks n /\ same_fifos w w'.
Proof using HW.
  intros Hk Hf Htk. unfold idt_int_default_handler, irq_ticks in *.
  assert (Hz : forall w', kernel_inv W c w' -> same_fifos w w' ->
     exists c2 w2 cli2, Some (c, w', cli) = Some (c2, w2, cli2) /\ kernel_inv W c2 w2
       /\ tick c2 = tick c + 0 /\ same_fifos w w2).
  { intros w' Hw' Hs. exists c, w', cli. split_and!; try done. lia. }
  destruct (Z.eqb_spec n 3) as [->|_]; [apply Hz; done|].
  destruct (Z.eqb_spec n 32) as [->|_]; [by apply int20h_ok|].
  destruct (Z.eqb_spec n 44).
  { destruct (event_ok c w f 12 (byte + DEV_FIFO_MOUSE_START) Hk Hf) as (w' & E & Hk' & Hs).
    unfold int2ch. rewrite E. simpl. by apply Hz. }
  destruct (Z.eqb_spec n 33).
  { destruct (event_ok c w f 1 (byte + DEV_FIFO_KBD_START) Hk Hf) as (w' & E & Hk' & Hs).
    unfold int21h. rewrite E. simpl. by apply Hz. }
  destruct (_ && _); [|by apply Hz]. destruct (_ || _); [by apply Hz|].
  apply Hz; [by apply eoi_ok|]. intros a. by rewrite ports_fifos.
Qed.

(** A run of the kernel: the interrupts it gets, in order. *)
Fixpoint interrupts (f : Z) (irqs : list (Z * Z)) (c : TIMERCTL) (w : world) (cli : bool)
  : option (TIMERCTL * world * bool) :=
  match irqs with
  | [] => Some (c, w, cli)
  | (n, byte) :: irqs =>
      '(c, w, cli) ← idt_int_default_handler f byte n c w cli;
      interrupts f irqs c w cli
  end.

Fixpoint ticks_of (irqs : list (Z * Z)) : Z :=
  match irqs with [] => 0 | (n, _) :: irqs => irq_ticks n + ticks_of irqs end.

Lemma ticks_nonneg irqs : 0 <= ticks_of irqs.
Proof.
  induction irqs as [|[n b] irqs IH]; simpl; [lia|]. unfold irq_ticks. destruct (_ =? _); lia.
Qed.

Lemma interrupts_ok f irqs c w cli :
  kernel_inv W c w -> is_Some (w_fifos w !! f) -> tick c + ticks_of irqs < UINT32_MAX ->
  exists c' w' cli', interrupts f irqs c w cli = Some (c', w', cli') /\ kernel_inv W c' w'
    /\ tick c' = tick c + ticks_of irqs /\ same_fifos w w'.
Proof using HW.
  revert c w cli. induction irqs as [|[n byte] irqs IH]; intros c w cli Hk Hf Htk; simpl in *.
  - exists c, w, cli. split_and!; try done. lia.
  - pose proof (ticks_nonneg irqs).
    destruct (interrupt_ok f n byte c w cli Hk Hf) as (c1 & w1 & cli1 & E & Hk1 & K1 & Hs1); [lia|].
    rewrite E, bind_Some_eq. destruct (IH c1 w1 cli1 Hk1) as (c2 & w2 & cli2 & E2 & Hk2 & K2 & Hs2).
    { by apply Hs1. } { lia. }
    exists c2, w2, cli2. split_and!; [done|done|lia|]. intros a. rewrite (Hs2 a). apply Hs1.
Qed.
End switch_inv.

(** C1. Whatever interrupts arrive, in whatever order (timer ticks, keys, mouse
    packets, breakpoints, spurious ones), the dispatcher and its handlers never
    fault and keep the invariant of the kernel: the timer list is sorted with its
    alarm at the head, the level queues agree with the flags of the tasks, the
    current task exists and every FIFO is a queue.  The clock counts the timer
    interrupts, as long as it stays below 2^32 - 1. *)
Theorem interrupts_safe f irqs c w cli :
  kernel_ok c w -> is_Some (w_fifos w !! f) -> tick c + ticks_of irqs < UINT32_MAX ->
  exists c' w' cli', interrupts f irqs c w cli = Some (c', w', cli') /\ kernel_ok c' w'
    /\ tick c' = tick c + ticks_of irqs /\ same_fifos w w'.
Proof. apply interrupts_ok. apply _. Qed.

(** C12. [mpfifo32_enqueue] stores the datum exactly as a bounded queue would
    (or reports that it is full), wakes the task that owns the FIFO when it
    sleeps by putting it at the end of its level's queue, leaves the other FIFOs
    alone, and keeps the invariant. *)
Theorem mpfifo_enqueue_wakes w qs a data cap mp q :
  world_ok w qs -> w_fifos w !! a = Some mp -> fifo_models (Some (mp_fifo32 mp)) cap q ->
  exists w' mp', mpfifo32_enqueue (Some a) data w = Some (fst (queue_step cap q (Enqueue data)), w')
    /\ fifo_models (Some (mp_fifo32 mp')) cap (snd (queue_step cap q (Enqueue data)))
    /\ world_ok w' (woken w qs mp) /\ w_fifos w' = <[a := mp']> (w_fifos w)
    /\ w_ports w' = w_ports w /\ w_jumps w' = w_jumps w /\ w_heap w' = w_heap w.
Proof.
  intros Hw Ha Hm.
  destruct (enqueue_spec w qs Hw a data cap mp q Ha Hm) as (w' & mp' & E & Hw' & Hfs & _ & _ & Hq & P & J & H).
  by exists w', mp'.
Qed.

(** ** A concrete kernel: task 1 sleeps on the FIFO at address 4096 *)
Definition demo_asleep : TASKCTL :=
  match mprocess_task_sleep demo_tc (Some 1) with Some (tc, _) => tc | None => demo_tc end.
Definition asleep_qs : list (list Z) := [0] :: replicate 8 [] ++ [[2]].
Definition demo_fifo : FIFO32 := default FIFO32_zero (fifo32_init (Some FIFO32_zero) (Some (replicate 4 0)) 4).
Definition demo_mp : MPFIFO32 := mkMPFIFO32 demo_fifo 8192 (Some 1).
Definition demo_world : world :=
  mkWorld demo_asleep {[4096 := demo_mp]} (mkHeap ∅ ∅ ∅ 0 0 0 0 0) ∅ (mkGdt (mkGDTR32 0 0) []) [] [].

Lemma demo_fifo_models : fifo_models (Some demo_fifo) 4 [].
Proof. apply (init_repr FIFO32_zero (replicate 4 0) 4); concrete. Qed.

Lemma demo_world_ok : world_ok demo_world asleep_qs.
Proof.
  constructor.
  - split; [apply sched_check_sound; vm_compute; reflexivity|].
    intros _. split; [intros k Hk; vm_compute in Hk; lia|].
    exists [0]. split; [vm_compute; reflexivity|left; discriminate].
  - exists [0]. split; [vm_compute; reflexivity|discriminate].
  - apply Nat.leb_le. vm_compute. reflexivity.
  - intros a mp Ha. change (w_fifos demo_world) with ({[4096 := demo_mp]} : gmap Z MPFIFO32) in Ha.
    apply lookup_singleton_Some in Ha as [_ <-]. split; [exists 4, []; exact demo_fifo_models|].
    intros t Ht. injection Ht as <-. vm_compute. reflexivity.
Qed.

Lemma mpfifo_enqueue_wakes_witness :
  exists w, mpfifo32_enqueue (Some 4096) 7 demo_world = Some (0, w)
    /\ world_ok w ([0; 1] :: replicate 8 [] ++ [[2]]).
Proof.
  destruct (mpfifo_enqueue_wakes demo_world asleep_qs 4096 7 4 demo_mp [] demo_world_ok)
    as (w & mp & E & _ & Hw & _); [vm_compute; reflexivity|exact demo_fifo_models|].
  exists w. split; [exact E|].
  assert (Hq : woken demo_world asleep_qs demo_mp = [0; 1] :: replicate 8 [] ++ [[2]])
    by (vm_compute; reflexivity).
  rewrite Hq in Hw. exact Hw.
Defined.

Lemma demo_no_fifo i tm a : (timer demo_armed)$[i] = Some tm -> tm_fifo tm = Some a -> False.
Proof.
  assert (Hn : forallb (fun tm => bool_decide (tm_fifo tm = None)) (timer demo_armed) = true)
    by (vm_compute; reflexivity).
  intros Hi%lookupZ_Some Ha. destruct Hi as [_ Hi]. rewrite forallb_forall in Hn.
  apply list_elem_of_lookup_2, list_elem_of_In, Hn, bool_decide_eq_true in Hi. congruence.
Qed.

Lemma demo_kernel_ok : kernel_ok demo_armed demo_world.
Proof.
  destruct demo_armed_repr as [R K]. constructor.
  - exists [0], (seqZ 1 (guard - 1)). split; [exact R|exact demo_free].
  - exists asleep_qs. exact demo_world_ok.
  - intros i tm a Hi Ha. destruct (demo_no_fifo i tm a Hi Ha).
  - exists 0. vm_compute. reflexivity.
  - rewrite K. reflexivity.
Qed.

Lemma interrupts_safe_witness :
  exists c w cli,
    interrupts 4096 [(0x20, 0); (0x21, 30); (0x20, 0); (0x2c, 8); (3, 0); (0x27, 0)] demo_armed demo_world false
      = Some (c, w, cli)
    /\ kernel_ok c w.
Proof.
  destruct (interrupts_safe 4096 [(0x20, 0); (0x21, 30); (0x20, 0); (0x2c, 8); (3, 0); (0x27, 0)]
              demo_armed demo_world false demo_kernel_ok) as (c & w & cli & E & Hk & _).
  - exists demo_mp. vm_compute. reflexivity.
  - rewrite (proj2 demo_armed_repr). reflexivity.
  - exists c, w, cli. split; [exact E|exact Hk].
Defined.
