(* ===== verification/Arith64.v ===== *)
(** * 64-bit arithmetic on a 32-bit machine, src/src/util/arith64.c

    The routines that the compiler calls for 64-bit shifts, divisions and bit
    counts.  An [arith64_u64] is a [Z] in 0..2^64-1, an [arith64_s64] a [Z] in
    -2^63..2^63-1. *)
From Stdlib Require Import ZArith Lia.
From stdpp Require Import base option numbers.
From S2P Require Import Prelude.

Set Default Proof Using "Type".

(** ** Words *)

(** The union: the two halves of a word, as unsigned integers. *)
Record arith64_word := mkWord64 { lo : Z; hi : Z }.
Definition word_of (n : Z) : arith64_word := mkWord64 (u32 n) (u32 (Z.shiftr n 32)).
Definition word_u64 (w : arith64_word) : Z := lo w + Z.shiftl (hi w) 32.
Definition word_s64 (w : arith64_word) : Z := s64 (word_u64 w).
Definition arith64_hi (n : Z) : Z := hi (word_of n).
Definition arith64_lo (n : Z) : Z := lo (word_of n).

(** [arith64_neg] on a signed and on an unsigned first argument; in both the
    second one is converted to a signed number. *)
Definition neg_mask (b : Z) : Z := (if s64 b >=? 0 then 1 else 0) - 1.
Definition neg_carry (b : Z) : Z := if s64 b <? 0 then 1 else 0.
Definition arith64_neg_s (a b : Z) : Z := Z.lxor a (neg_mask b) + neg_carry b.
Definition arith64_neg_u (a b : Z) : Z := u64 (Z.lxor a (u64 (neg_mask b)) + neg_carry b).
Definition arith64_abs (a : Z) : Z := arith64_neg_s a a.

Definition __absvdi2 (a : Z) : Z := arith64_abs a.

(** ** Shifts *)
Definition __ashldi3 (a b : Z) : Z :=
  let w := word_of a in
  let b := Z.land b 63 in
  let w := if b >=? 32 then mkWord64 0 (u32 (Z.shiftl (lo w) (b - 32)))
           else if negb (b =? 0) then
             mkWord64 (u32 (Z.shiftl (lo w) b))
               (Z.lor (Z.shiftr (lo w) (32 - b)) (u32 (Z.shiftl (hi w) b)))
           else w in
  word_s64 w.

Definition __ashrdi3 (a b : Z) : Z :=
  let w := word_of a in
  let b := Z.land b 63 in
  let w := if b >=? 32 then mkWord64 (u32 (Z.shiftr (s32 (hi w)) (b - 32))) (u32 (Z.shiftr (s32 (hi w)) 31))
           else if negb (b =? 0) then
             mkWord64 (Z.lor (u32 (Z.shiftl (hi w) (32 - b))) (Z.shiftr (lo w) b))
               (u32 (Z.shiftr (s32 (hi w)) b))
           else w in
  word_s64 w.

Definition __lshrdi3 (a b : Z) : Z :=
  let w := word_of a in
  let b := Z.land b 63 in
  let w := if b >=? 32 then mkWord64 (Z.shiftr (hi w) (b - 32)) 0
           else if negb (b =? 0) then
             mkWord64 (Z.lor (u32 (Z.shiftl (hi w) (32 - b))) (Z.shiftr (lo w) b)) (Z.shiftr (hi w) b)
           else w in
  word_u64 w.

(** ** Leading and trailing zeros *)

(** [b = !(a & mask) << k; n += b; a <<= b] on words of [width] bits, and the
    same with a shift to the right. *)
Definition clz_step (width mask k : Z) (s : Z * Z) : Z * Z :=
  let '(n, a) := s in
  let b := Z.shiftl (if Z.land a mask =? 0 then 1 else 0) k in
  (n + b, Z.shiftl a b mod 2 ^ width).
Definition ctz_step (mask k : Z) (s : Z * Z) : Z * Z :=
  let '(n, a) := s in
  let b := Z.shiftl (if Z.land a mask =? 0 then 1 else 0) k in
  (n + b, Z.shiftr a b).

Definition last_bit (mask : Z) (s : Z * Z) : Z := s.1 + (if Z.land s.2 mask =? 0 then 1 else 0).

Definition __clzsi2 (a : Z) : Z :=
  last_bit 0x80000000 (clz_step 32 0xc0000000 1 (clz_step 32 0xf0000000 2
    (clz_step 32 0xff000000 3 (clz_step 32 0xffff0000 4 (0, a))))).

Definition __clzdi2 (a : Z) : Z :=
  last_bit 0x8000000000000000 (clz_step 64 0xc000000000000000 1 (clz_step 64 0xf000000000000000 2
    (clz_step 64 0xff00000000000000 3 (clz_step 64 0xffff000000000000 4
      (clz_step 64 0xffffffff00000000 5 (0, a)))))).

Definition __ctzsi2 (a : Z) : Z :=
  last_bit 0x00000001 (ctz_step 0x00000003 1 (ctz_step 0x0000000f 2
    (ctz_step 0x000000ff 3 (ctz_step 0x0000ffff 4 (0, a))))).

Definition __ctzdi2 (a : Z) : Z :=
  last_bit 0x0000000000000001 (ctz_step 0x0000000000000003 1 (ctz_step 0x000000000000000f 2
    (ctz_step 0x00000000000000ff 3 (ctz_step 0x000000000000ffff 4
      (ctz_step 0x00000000ffffffff 5 (0, a)))))).

Definition __ffsdi2 (a : Z) : Z := if negb (a =? 0) then __ctzdi2 a + 1 else 0.

(** ** Division *)

(** One iteration of the loop over the bits of the quotient. *)
Definition div_step (b : Z) (s : Z * Z * Z) : Z * Z * Z :=
  let '(rem, a, wrap) := s in
  let rem := Z.lor (u64 (Z.shiftl rem 1)) (Z.shiftr a 63) in
  let a := Z.lor (u64 (Z.shiftl a 1)) (Z.land wrap 1) in
  let wrap := u64 (Z.shiftr (s64 (u64 (b - rem - 1))) 63) in
  let rem := u64 (rem - Z.land b wrap) in
  (rem, a, wrap).

(** The quotient, and the remainder that goes to [*c].  A division by zero is a
    fault. *)
Definition __divmoddi4 (a b : Z) : option (Z * Z) :=
  if b >? a then Some (0, a)
  else if (arith64_hi b =? 0) && (b =? 0) then None
  else if (arith64_hi b =? 0) && (b =? 1) then Some (a, 0)
  else if (arith64_hi b =? 0) && (arith64_hi a =? 0) then
    Some (arith64_lo a / arith64_lo b, arith64_lo a mod arith64_lo b)
  else
    let bits := __clzdi2 b - __clzdi2 a + 1 in
    let rem := Z.shiftr a bits in
    let a := u64 (Z.shiftl a (64 - bits)) in
    let '(rem, a, wrap) := Nat.iter (Z.to_nat bits) (div_step b) (rem, a, 0) in
    Some (Z.lor (u64 (Z.shiftl a 1)) (Z.land wrap 1), rem).

Definition __udivdi3 (a b : Z) : option Z := fst <$> __divmoddi4 a b.
Definition __umoddi3 (a b : Z) : option Z := snd <$> __divmoddi4 a b.

Definition __divdi3 (a b : Z) : option Z :=
  '(q, _) ← __divmoddi4 (u64 (arith64_abs a)) (u64 (arith64_abs b));
  Some (s64 (arith64_neg_u q (Z.lxor a b))).

Definition __moddi3 (a b : Z) : option Z :=
  '(_, r) ← __divmoddi4 (u64 (arith64_abs a)) (u64 (arith64_abs b));
  Some (s64 (arith64_neg_u r a)).

(** ** Bit counts *)
Definition __popcountsi2 (a : Z) : Z :=
  let a := u32 (a - Z.land (Z.shiftr a 1) 0x55555555) in
  let a := u32 (Z.land (Z.shiftr a 2) 0x33333333 + Z.land a 0x33333333) in
  let a := Z.land (u32 (a + Z.shiftr a 4)) 0x0F0F0F0F in
  let a := u32 (a + Z.shiftr a 16) in
  Z.land (u32 (a + Z.shiftr a 8)) 63.

Definition __popcountdi2 (a : Z) : Z :=
  let a := u64 (a - Z.land (Z.shiftr a 1) 0x5555555555555555) in
  let a := u64 (Z.land (Z.shiftr a 2) 0x3333333333333333 + Z.land a 0x3333333333333333) in
  let a := Z.land (u64 (a + Z.shiftr a 4)) 0x0F0F0F0F0F0F0F0F in
  let a := u64 (a + Z.shiftr a 32) in
  let a := u64 (a + Z.shiftr a 16) in
  Z.land (u64 (a + Z.shiftr a 8)) 127.

Example arith64_examples :
  (__divdi3 (-7) 2, __moddi3 (-7) 2, __udivdi3 (2 ^ 63 + 5) 12345678901, __clzdi2 1, __ctzdi2 48,
   __ashrdi3 (-8) 34, __popcountdi2 (2 ^ 64 - 1), __popcountsi2 0xF0F1)
  = (Some (-3), Some (-1), Some ((2 ^ 63 + 5) / 12345678901), 63, 4, -1, 64, 9).
Proof. vm_compute. reflexivity. Qed.

(** ** Lemmas on words *)
Lemma u64_range z : 0 <= u64 z < 2 ^ 64.
Proof. unfold u64. apply Z.mod_pos_bound. lia. Qed.

Lemma u64_small z : 0 <= z < 2 ^ 64 -> u64 z = z.
Proof. apply Z.mod_small. Qed.

Lemma s64_small z : - 2 ^ 63 <= z < 2 ^ 63 -> s64 z = z.
Proof. intros. unfold s64. rewrite Z.mod_small; lia. Qed.

Lemma s64_u64 z : s64 (u64 z) = s64 z.
Proof. unfold s64, u64. by rewrite Z.add_mod_idemp_l by lia. Qed.

(** A disjunction whose arguments share no bit is a sum. *)
Lemma land_disjoint a b n : 0 <= n -> 0 <= b < 2 ^ n -> Z.land (Z.shiftl a n) b = 0.
Proof.
  intros Hn Hb. apply Z.bits_inj. intros i. rewrite Z.land_spec, Z.bits_0.
  destruct (decide (i < n)) as [Hi|Hi].
  - destruct (decide (0 <= i)); [by rewrite Z.shiftl_spec_low|by rewrite !Z.testbit_neg_r by lia].
  - apply andb_false_iff. right. rewrite <- (Z.mod_small b (2 ^ n)) by done.
    by apply Z.mod_pow2_bits_high; lia.
Qed.

Lemma lor_add_low a b n : 0 <= n -> 0 <= b < 2 ^ n -> Z.lor (Z.shiftl a n) b = a * 2 ^ n + b.
Proof.
  intros Hn Hb. pose proof (Z.add_lor_land (Z.shiftl a n) b) as H.
  rewrite land_disjoint, Z.shiftl_mul_pow2 in * by done. lia.
Qed.

(** The top [k] bits of a word of [width] bits are clear exactly when it is small. *)
Lemma land_top a width k :
  0 <= k <= width -> 0 <= a < 2 ^ width ->
  Z.land a (Z.shiftl (Z.ones k) (width - k)) = 0 <-> a < 2 ^ (width - k).
Proof.
  intros Hk Ha. split.
  - intros H. assert (E : Z.shiftr (Z.land a (Z.shiftl (Z.ones k) (width - k))) (width - k) = 0) by (by rewrite H, Z.shiftr_0_l).
    rewrite Z.shiftr_land, Z.shiftr_shiftl_l, Z.sub_diag, Z.shiftl_0_r in E by lia.
    rewrite Z.land_ones, Z.shiftr_div_pow2, Z.mod_small in E; try lia.
    + apply Z.div_small_iff in E; lia.
    + split; [apply Z.div_pos; lia|]. apply Z.div_lt_upper_bound; [lia|]. rewrite <- Z.pow_add_r by lia.
      replace (width - k + k) with width by lia. lia.
  - intros H. rewrite Z.land_comm. apply land_disjoint; lia.
Qed.

(** The low [k] bits are clear exactly when [2 ^ k] divides the word. *)
Lemma land_low a k : 0 <= k -> Z.land a (Z.ones k) = 0 <-> (2 ^ k | a).
Proof. intros. rewrite Z.land_ones by done. apply Z.mod_divide. lia. Qed.

(** ** Leading zeros *)

(** [s] is [a], not zero, shifted by [n] bits, with fewer than [k] leading zeros. *)
Definition clz_inv (width a k : Z) (s : Z * Z) : Prop :=
  0 <= s.1 /\ s.2 = a * 2 ^ s.1 /\ 2 ^ (width - k) <= s.2 < 2 ^ width.

Lemma clz_step_inv width a k s :
  0 <= k -> 2 * 2 ^ k <= width -> clz_inv width a (2 * 2 ^ k) s ->
  clz_inv width a (2 ^ k) (clz_step width (Z.shiftl (Z.ones (2 ^ k)) (width - 2 ^ k)) k s).
Proof.
  intros Hk Hw (H0 & H1 & H2). destruct s as [n x]. simpl in *. unfold clz_inv, clz_step. simpl.
  assert (0 < 2 ^ k) by lia. assert (0 < 2 ^ (width - 2 * 2 ^ k)) by lia.
  destruct (Z.eqb_spec (Z.land x (Z.shiftl (Z.ones (2 ^ k)) (width - 2 ^ k))) 0) as [E|E].
  - apply land_top in E; [|lia..]. rewrite Z.shiftl_1_l. rewrite Z.shiftl_mul_pow2 by lia.
    assert (Hlt : x * 2 ^ 2 ^ k < 2 ^ width).
    { replace width with ((width - 2 ^ k) + 2 ^ k) by lia. rewrite Z.pow_add_r by lia.
      apply Zmult_lt_compat_r; lia. }
    assert (Hge : 2 ^ (width - 2 ^ k) <= x * 2 ^ 2 ^ k).
    { replace (width - 2 ^ k) with ((width - 2 * 2 ^ k) + 2 ^ k) by lia. rewrite Z.pow_add_r by lia.
      apply Zmult_le_compat_r; lia. }
    rewrite Z.mod_small by lia. split_and!; [lia| |lia|lia].
    rewrite Z.pow_add_r by lia. rewrite H1. lia.
  - assert (~ x < 2 ^ (width - 2 ^ k)) by (rewrite <- land_top; [done|lia..]).
    rewrite Z.shiftl_0_l, Z.add_0_r, Z.shiftl_0_r, Z.mod_small by lia. split_and!; lia.
Qed.

Lemma last_bit_clz width a s :
  2 <= width -> clz_inv width a 2 s ->
  let n := last_bit (2 ^ (width - 1)) s in
  0 <= n /\ 2 ^ (width - 1) <= a * 2 ^ n < 2 ^ width.
Proof.
  intros Hw (H0 & H1 & H2). destruct s as [n x]. simpl in *. unfold last_bit. simpl.
  assert (Hb : Z.land x (2 ^ (width - 1)) = 0 <-> x < 2 ^ (width - 1)).
  { rewrite <- (land_top x width 1) by lia. by rewrite Z.shiftl_1_l. }
  assert (Ew : 2 ^ width = 2 * 2 ^ (width - 1)) by (rewrite <- Z.pow_succ_r by lia; f_equal; lia).
  assert (Ew' : 2 ^ (width - 1) <= 2 * 2 ^ (width - 2)).
  { rewrite <- Z.pow_succ_r by lia. apply Z.pow_le_mono_r; lia. }
  destruct (Z.eqb_spec (Z.land x (2 ^ (width - 1))) 0) as [E|E]; rewrite Hb in E.
  - rewrite Z.pow_add_r by lia. rewrite Z.mul_assoc, <- H1. change (2 ^ 1) with 2. lia.
  - rewrite Z.add_0_r. lia.
Qed.

Lemma clzdi2_spec a :
  0 < a < 2 ^ 64 -> 0 <= __clzdi2 a /\ 2 ^ 63 <= a * 2 ^ __clzdi2 a < 2 ^ 64.
Proof.
  intros Ha. apply (last_bit_clz 64); [lia|].
  apply (clz_step_inv 64 a 1); [lia..|]. apply (clz_step_inv 64 a 2); [lia..|].
  apply (clz_step_inv 64 a 3); [lia..|]. apply (clz_step_inv 64 a 4); [lia..|].
  apply (clz_step_inv 64 a 5); [lia..|]. unfold clz_inv. simpl. lia.
Qed.

Lemma clzsi2_spec a :
  0 < a < 2 ^ 32 -> 0 <= __clzsi2 a /\ 2 ^ 31 <= a * 2 ^ __clzsi2 a < 2 ^ 32.
Proof.
  intros Ha. apply (last_bit_clz 32); [lia|].
  apply (clz_step_inv 32 a 1); [lia..|]. apply (clz_step_inv 32 a 2); [lia..|].
  apply (clz_step_inv 32 a 3); [lia..|]. apply (clz_step_inv 32 a 4); [lia..|].
  unfold clz_inv. simpl. lia.
Qed.

(** ** Trailing zeros *)
Definition ctz_inv (a k : Z) (s : Z * Z) : Prop :=
  0 <= s.1 /\ a = s.2 * 2 ^ s.1 /\ ~ (2 ^ k | s.2).

Lemma ctz_step_inv a k s :
  0 <= k -> ctz_inv a (2 * 2 ^ k) s -> ctz_inv a (2 ^ k) (ctz_step (Z.ones (2 ^ k)) k s).
Proof.
  intros Hk (H0 & H1 & H2). destruct s as [n x]. simpl in *. unfold ctz_inv, ctz_step. simpl.
  assert (0 < 2 ^ k) by lia.
  destruct (Z.eqb_spec (Z.land x (Z.ones (2 ^ k))) 0) as [E|E].
  - apply land_low in E as [y ->]; [|lia]. rewrite Z.shiftl_1_l.
    assert (Ey : Z.shiftr (y * 2 ^ 2 ^ k) (2 ^ k) = y).
    { rewrite Z.shiftr_div_pow2 by lia. apply Z.div_mul. lia. }
    rewrite Ey. split_and!; [lia| |].
    + rewrite Z.pow_add_r by lia. rewrite H1. lia.
    + intros [z ->]. apply H2. exists z. replace (2 * 2 ^ k) with (2 ^ k + 2 ^ k) by lia.
      rewrite Z.pow_add_r by lia. lia.
  - rewrite Z.shiftl_0_l, Z.add_0_r, Z.shiftr_0_r. split_and!; [lia|done|].
    by rewrite <- land_low by lia.
Qed.

Lemma last_bit_ctz a s :
  ctz_inv a 2 s -> let n := last_bit 1 s in 0 <= n /\ exists y, a = y * 2 ^ n /\ Z.odd y = true.
Proof.
  intros (H0 & H1 & H2). destruct s as [n x]. simpl in *. unfold last_bit. simpl.
  change 1 with (Z.ones 1) at 1 3. destruct (Z.eqb_spec (Z.land x (Z.ones 1)) 0) as [E|E].
  - apply land_low in E as [y ->]; [|lia]. split; [lia|]. exists y. split.
    + rewrite Z.pow_add_r by lia. rewrite H1. lia.
    + rewrite <- Z.negb_even. apply negb_true_iff. destruct (Z.even y) eqn:Ey; [|done].
      apply Z.even_spec in Ey as [z ->]. exfalso. apply H2. exists z. simpl. lia.
  - rewrite Z.add_0_r. split; [lia|]. exists x. split; [done|].
    rewrite land_low in E by lia. rewrite <- Z.negb_even. apply negb_true_iff.
    destruct (Z.even x) eqn:Ex; [|done]. apply Z.even_spec in Ex as [z ->]. exfalso. apply E. exists z. lia.
Qed.

Lemma ctzdi2_spec a :
  0 < a < 2 ^ 64 -> 0 <= __ctzdi2 a /\ exists y, a = y * 2 ^ __ctzdi2 a /\ Z.odd y = true.
Proof.
  intros Ha. apply last_bit_ctz.
  apply (ctz_step_inv a 1); [lia|]. apply (ctz_step_inv a 2); [lia|]. apply (ctz_step_inv a 3); [lia|].
  apply (ctz_step_inv a 4); [lia|]. apply (ctz_step_inv a 5); [lia|].
  split_and!; simpl; [lia|lia|]. intros H%Z.divide_pos_le; lia.
Qed.

(** ** The loop of the division *)

(** What one iteration computes, on numbers. *)
Lemma div_step_eq b rem a wrap :
  0 <= rem < b -> 0 <= a < 2 ^ 64 -> wrap = 0 \/ wrap = 2 ^ 64 - 1 ->
  let rem' := 2 * rem + a / 2 ^ 63 in
  b < 2 ^ 64 -> rem < 2 ^ 63 -> b < 2 ^ 63 \/ b <= rem' ->
  div_step b (rem, a, wrap)
  = (if rem' <? b then rem' else rem' - b, (2 * a + Z.land wrap 1) mod 2 ^ 64,
     if rem' <? b then 0 else 2 ^ 64 - 1).
Proof.
  intros Hrem Ha Hw rem' Hb Hr Hbr. unfold div_step.
  assert (Hm : 0 <= a / 2 ^ 63 <= 1).
  { split; [apply Z.div_pos; lia|]. apply Z.lt_succ_r. apply Z.div_lt_upper_bound; lia. }
  assert (E1 : Z.lor (u64 (Z.shiftl rem 1)) (Z.shiftr a 63) = rem').
  { rewrite u64_small by (rewrite Z.shiftl_mul_pow2 by lia; lia).
    rewrite Z.shiftr_div_pow2 by lia. rewrite lor_add_low by lia. unfold rem'. lia. }
  assert (E2 : Z.lor (u64 (Z.shiftl a 1)) (Z.land wrap 1) = (2 * a + Z.land wrap 1) mod 2 ^ 64).
  { assert (Hl : 0 <= Z.land wrap 1 <= 1) by (destruct Hw as [->| ->]; vm_compute; split; discriminate).
    assert (Eu : u64 (Z.shiftl a 1) = Z.shiftl (a mod 2 ^ 63) 1).
    { unfold u64. rewrite !Z.shiftl_mul_pow2 by lia. change (2 ^ 64) with (2 ^ 63 * 2 ^ 1).
      apply Z.mul_mod_distr_r; lia. }
    rewrite Eu, lor_add_low by lia. pose proof (Z.mod_pos_bound a (2 ^ 63) ltac:(lia)).
    pose proof (Z.div_mod a (2 ^ 63) ltac:(lia)).
    apply (Z.mod_unique _ _ (a / 2 ^ 63)); [left; lia|lia]. }
  assert (Hr2 : 0 <= rem' <= 2 * rem + 1) by (unfold rem'; lia). clearbody rem'. rewrite E1, E2.
  assert (E3 : u64 (Z.shiftr (s64 (u64 (b - rem' - 1))) 63) = if rem' <? b then 0 else 2 ^ 64 - 1).
  { rewrite s64_u64, s64_small by lia. rewrite Z.shiftr_div_pow2 by lia.
    destruct (Z.ltb_spec rem' b).
    - rewrite Z.div_small by lia. done.
    - replace ((b - rem' - 1) / 2 ^ 63) with (-1); [done|].
      apply (Z.div_unique _ _ _ (b - rem' - 1 + 2 ^ 63)); lia. }
  rewrite E3. destruct (Z.ltb_spec rem' b).
  - rewrite Z.land_0_r, Z.sub_0_r, u64_small by lia. done.
  - change (2 ^ 64 - 1) with (Z.ones 64). rewrite Z.land_ones, (Z.mod_small b) by lia.
    rewrite u64_small by lia. done.
Qed.

(** One more bit. *)
Lemma bit_split A j :
  0 <= j -> A / 2 ^ j = 2 * (A / 2 ^ (j + 1)) + (A mod 2 ^ (j + 1)) / 2 ^ j
  /\ A mod 2 ^ (j + 1) = (A mod 2 ^ (j + 1)) / 2 ^ j * 2 ^ j + A mod 2 ^ j
  /\ 0 <= (A mod 2 ^ (j + 1)) / 2 ^ j <= 1.
Proof.
  intros Hj. rewrite Z.pow_add_r by lia. change (2 ^ 1) with 2.
  pose proof (Z.div_mod A (2 ^ j * 2) ltac:(lia)) as E.
  pose proof (Z.mod_pos_bound A (2 ^ j * 2) ltac:(lia)).
  set (m := A mod (2 ^ j * 2)) in *. pose proof (Z.div_mod m (2 ^ j) ltac:(lia)) as Em.
  pose proof (Z.mod_pos_bound m (2 ^ j) ltac:(lia)). clearbody m.
  split_and!.
  - symmetry. apply (Z.div_unique _ _ _ (m mod 2 ^ j)); [left; lia|nia].
  - replace (A mod 2 ^ j) with (m mod 2 ^ j); [lia|].
    apply (Z.mod_unique _ _ (2 * (A / (2 ^ j * 2)) + m / 2 ^ j)); [left; lia|nia].
  - apply Z.div_pos; lia.
  - apply Z.lt_succ_r, Z.div_lt_upper_bound; lia.
Qed.

Lemma top_bit x y j :
  0 <= j <= 62 -> 0 <= x < 2 ^ (j + 1) -> 0 <= y < 2 ^ (64 - j) ->
  forall a w, 0 <= w <= 1 -> 2 * a + w = x * 2 ^ (64 - j) + y ->
  a / 2 ^ 63 = x / 2 ^ j /\ (2 * a + w) mod 2 ^ 64 = (x mod 2 ^ j) * 2 ^ (64 - j) + y.
Proof.
  intros Hj Hx Hy a w Hw E.
  assert (Ej : 2 ^ 64 = 2 ^ j * 2 ^ (64 - j)) by (rewrite <- Z.pow_add_r by lia; f_equal; lia).
  pose proof (Z.div_mod x (2 ^ j) ltac:(lia)) as Ex. pose proof (Z.mod_pos_bound x (2 ^ j) ltac:(lia)).
  set (q := x / 2 ^ j) in *. set (r := x mod 2 ^ j) in *.
  assert (Hr : 0 <= r * 2 ^ (64 - j) + y < 2 ^ 64) by nia.
  assert (E2 : 2 * a + w = 2 ^ 64 * q + (r * 2 ^ (64 - j) + y)) by nia.
  split.
  - symmetry. apply (Z.div_unique _ _ _ (a - 2 ^ 63 * q)); lia.
  - symmetry. apply (Z.mod_unique _ _ q); lia.
Qed.
Section division.
Context (A b bits : Z) (Hb : 0 < b < 2 ^ 64) (HA : 0 <= A < 2 ^ 64) (Hbits : 1 <= bits <= 63).
Context (Htop : A < b * 2 ^ bits) (Hbig : b < 2 ^ 63 \/ (bits = 1 /\ b <= A)).

(** After the bits above position [j] are consumed. *)
Definition div_inv (j : Z) (s : Z * Z * Z) : Prop :=
  let '(rem, a, wrap) := s in
  rem = (A / 2 ^ j) mod b /\ 0 <= a < 2 ^ 64 /\ (wrap = 0 \/ wrap = 2 ^ 64 - 1)
  /\ 2 * a + Z.land wrap 1 = (A mod 2 ^ j) * 2 ^ (65 - j) + (A / 2 ^ j) / b.

Lemma div_inv_init : div_inv bits (Z.shiftr A bits, u64 (Z.shiftl A (64 - bits)), 0).
Proof using Hb HA Hbits Htop.
  assert (0 <= A / 2 ^ bits < b).
  { split; [apply Z.div_pos; lia|]. apply Z.div_lt_upper_bound; lia. }
  assert (E : u64 (Z.shiftl A (64 - bits)) = A mod 2 ^ bits * 2 ^ (64 - bits)).
  { unfold u64. rewrite Z.shiftl_mul_pow2 by lia.
    replace (2 ^ 64) with (2 ^ bits * 2 ^ (64 - bits)) by (rewrite <- Z.pow_add_r by lia; f_equal; lia).
    apply Z.mul_mod_distr_r; lia. }
  unfold div_inv. rewrite Z.shiftr_div_pow2, (Z.mod_small (A / 2 ^ bits) b), (Z.div_small (A / 2 ^ bits) b) by lia. split_and!; try done.
  - apply u64_range.
  - apply u64_range.
  - by left.
  - rewrite E, Z.land_0_l. replace (65 - bits) with (Z.succ (64 - bits)) by lia.
    rewrite Z.pow_succ_r by lia. lia.
Qed.

Lemma div_inv_step j s :
  0 <= j < bits -> div_inv (j + 1) s -> div_inv j (div_step b s).
Proof using Hb HA Hbits Htop Hbig.
  intros Hj. destruct s as [[rem a] wrap]. intros (Er & Ha & Hw & Ea).
  destruct (bit_split A j) as (Ed & Em & Hbeta); [lia|].
  set (P := A / 2 ^ (j + 1)) in *. set (x := A mod 2 ^ (j + 1)) in *.
  assert (Hl : 0 <= Z.land wrap 1 <= 1) by (destruct Hw as [->| ->]; vm_compute; split; discriminate).
  assert (Hx : 0 <= x < 2 ^ (j + 1)) by (apply Z.mod_pos_bound; lia).
  assert (HP0 : 0 <= P) by (apply Z.div_pos; lia).
  pose proof (Z.mod_pos_bound P b ltac:(lia)) as Hrem. rewrite <- Er in Hrem.
  pose proof (Z.div_mod P b ltac:(lia)) as EP. rewrite <- Er in EP.
  assert (HPA : P * 2 ^ (j + 1) <= A).
  { pose proof (Z.div_mod A (2 ^ (j + 1)) ltac:(lia)). fold P x in H. lia. }
  assert (Hq : 0 <= P / b < 2 ^ (64 - j)).
  { split; [apply Z.div_pos; lia|]. apply Z.div_lt_upper_bound; [lia|].
    assert (2 ^ (bits - (j + 1)) < 2 ^ (64 - j)) by (apply Z.pow_lt_mono_r; lia).
    assert (P < b * 2 ^ (bits - (j + 1))); [|nia].
    apply (Z.mul_lt_mono_pos_r (2 ^ (j + 1))); [lia|]. rewrite <- Z.mul_assoc, <- Z.pow_add_r by lia.
    replace (bits - (j + 1) + (j + 1)) with bits by lia. lia. }
  replace (65 - (j + 1)) with (64 - j) in Ea by lia.
  destruct (top_bit x (P / b) j ltac:(lia) Hx Hq a (Z.land wrap 1) Hl Ea) as [Et Es].
  assert (Hp2 : rem < 2 ^ 63).
  { destruct Hbig as [?|[-> ?]]; [lia|]. assert (j = 0) as -> by lia. change (2 ^ (0 + 1)) with 2 in *. lia. }
  rewrite div_step_eq; [|lia..| |].
  - rewrite Es, Et. set (rem' := 2 * rem + x / 2 ^ j).
    assert (Hn : 0 <= x mod 2 ^ j * 2 ^ (64 - j) + P / b < 2 ^ 64)
      by (rewrite <- Es; apply Z.mod_pos_bound; lia).
    replace (x mod 2 ^ j) with (A mod 2 ^ j) in *.
    2: { apply (Z.mod_unique _ _ (x / 2 ^ j)); [left; apply Z.mod_pos_bound; lia|lia]. }
    assert (E2 : A / 2 ^ j = b * (2 * (P / b)) + rem') by (unfold rem'; lia).
    pose proof (Z.mod_pos_bound A (2 ^ j) ltac:(lia)).
    assert (E65 : 2 ^ (65 - j) = 2 * 2 ^ (64 - j)) by (rewrite <- Z.pow_succ_r by lia; f_equal; lia).
    destruct (Z.ltb_spec rem' b); unfold div_inv; split_and!; try (by auto); try lia.
    + apply (Z.mod_unique _ _ (2 * (P / b))); lia.
    + rewrite E65, Z.land_0_l, <- (Z.div_unique (A / 2 ^ j) b (2 * (P / b)) rem'); lia.
    + apply (Z.mod_unique _ _ (2 * (P / b) + 1)); lia.
    + change (Z.land (2 ^ 64 - 1) 1) with 1.
      rewrite E65, <- (Z.div_unique (A / 2 ^ j) b (2 * (P / b) + 1) (rem' - b)); lia.
  - done.
  - destruct Hbig as [?|[-> ?]]; [by left|right]. assert (j = 0) as -> by lia.
    rewrite Et. change (2 ^ (0 + 1)) with 2 in *. change (2 ^ 0) with 1 in *. rewrite Z.div_1_r in *.
    assert (P / b = 0) as Hz by (apply Z.div_small; lia). rewrite Hz, Z.mul_0_r in EP.
    rewrite (Z.div_1_r x) in Ed. lia.
Qed.

Lemma div_inv_iter n s : Z.of_nat n <= bits -> div_inv (Z.of_nat n) s -> div_inv 0 (Nat.iter n (div_step b) s).
Proof using Hb HA Hbits Htop Hbig.
  revert s. induction n as [|n IH]; intros s Hn Hs; [done|].
  rewrite Nat.iter_succ_r. apply IH; [lia|]. apply div_inv_step; [lia|].
  by replace (Z.of_nat n + 1) with (Z.of_nat (S n)) by lia.
Qed.

Lemma long_division :
  let '(rem, a, wrap) := Nat.iter (Z.to_nat bits) (div_step b) (Z.shiftr A bits, u64 (Z.shiftl A (64 - bits)), 0) in
  Z.lor (u64 (Z.shiftl a 1)) (Z.land wrap 1) = A / b /\ rem = A mod b.
Proof using Hb HA Hbits Htop Hbig.
  pose proof (div_inv_iter (Z.to_nat bits) _ ltac:(lia) ltac:(rewrite Z2Nat.id by lia; apply div_inv_init)) as H.
  destruct (Nat.iter _ _ _) as [[rem a] wrap]. destruct H as (Er & Ha & Hw & Ea).
  rewrite Z.pow_0_r, Z.mod_1_r, Z.div_1_r in *. split; [|done].
  assert (Hl : 0 <= Z.land wrap 1 <= 1) by (destruct Hw as [->| ->]; vm_compute; split; discriminate).
  assert (A / b <= A) by (apply Z.div_le_upper_bound; nia).
  rewrite u64_small by (rewrite Z.shiftl_mul_pow2 by lia; lia). rewrite lor_add_low by lia. lia.
Qed.
End division.

Lemma hi_zero n : 0 <= n < 2 ^ 64 -> arith64_hi n = 0 <-> n < 2 ^ 32.
Proof.
  intros Hn. unfold arith64_hi, word_of. simpl. rewrite Z.shiftr_div_pow2 by lia.
  rewrite u32_small by (split; [apply Z.div_pos; lia|apply Z.div_lt_upper_bound; lia]).
  rewrite Z.div_small_iff by lia. lia.
Qed.

(** The number of iterations. *)
Lemma bits_ok a b :
  0 <= a < 2 ^ 64 -> 2 <= b <= a ->
  let bits := __clzdi2 b - __clzdi2 a + 1 in
  1 <= bits <= 63 /\ a < b * 2 ^ bits /\ (b < 2 ^ 63 \/ (bits = 1 /\ b <= a)).
Proof.
  intros Ha Hb bits. destruct (clzdi2_spec a) as (A0 & A1 & A2); [lia|].
  destruct (clzdi2_spec b) as (B0 & B1 & B2); [lia|].
  set (ca := __clzdi2 a) in *. set (cb := __clzdi2 b) in *. clearbody ca cb.
  assert (Hle : ca <= cb).
  { destruct (Z.le_gt_cases ca cb); [done|].
    assert (2 ^ (cb + 1) <= 2 ^ ca) by (apply Z.pow_le_mono_r; lia).
    rewrite Z.pow_add_r in * by lia. nia. }
  assert (cb <= 62).
  { destruct (Z.le_gt_cases cb 62); [done|]. assert (2 ^ 63 <= 2 ^ cb) by (apply Z.pow_le_mono_r; lia). nia. }
  assert (Eb : 2 ^ bits * 2 ^ ca = 2 * 2 ^ cb).
  { unfold bits. rewrite <- Z.pow_add_r by lia. replace (cb - ca + 1 + ca) with (Z.succ cb) by lia.
    by rewrite Z.pow_succ_r by lia. }
  split_and!; [unfold bits; lia..| |].
  - apply (Z.mul_lt_mono_pos_r (2 ^ ca)); [lia|]. rewrite <- Z.mul_assoc, Eb. lia.
  - destruct (Z.lt_ge_cases b (2 ^ 63)); [by left|right].
    assert (cb = 0); [|unfold bits; lia].
    destruct (Z.eq_dec cb 0); [done|]. assert (2 ^ 1 <= 2 ^ cb) by (apply Z.pow_le_mono_r; lia). nia.
Qed.

Lemma divmoddi4_spec a b :
  0 <= a < 2 ^ 64 -> 0 < b < 2 ^ 64 -> __divmoddi4 a b = Some (a / b, a mod b).
Proof.
  intros Ha Hb. unfold __divmoddi4. pose proof (hi_zero b ltac:(lia)) as Hhb.
  pose proof (hi_zero a ltac:(lia)) as Hha.
  rewrite Z.gtb_ltb. destruct (Z.ltb_spec a b).
  { by rewrite Z.div_small, Z.mod_small by lia. }
  destruct (Z.eqb_spec b 0); [lia|]. rewrite andb_false_r.
  destruct (Z.eqb_spec (arith64_hi b) 0) as [Hb32|Hb32]; cbn [andb].
  - destruct (Z.eqb_spec b 1) as [->|].
    { by rewrite Z.div_1_r, Z.mod_1_r. }
    destruct (Z.eqb_spec (arith64_hi a) 0) as [Ha32|Ha32].
    { unfold arith64_lo, word_of. simpl. rewrite !u32_small by lia. done. }
    destruct (bits_ok a b) as (H1 & H2 & H3); [lia..|].
    pose proof (long_division a b _ Hb Ha H1 H2 H3) as HL.
    destruct (Nat.iter _ _ _) as [[rem q] w]. destruct HL as [-> ->]. done.
  - destruct (bits_ok a b) as (H1 & H2 & H3); [lia..|].
    pose proof (long_division a b _ Hb Ha H1 H2 H3) as HL.
    destruct (Nat.iter _ _ _) as [[rem q] w]. destruct HL as [-> ->]. done.
Qed.

Lemma lxor_ones q : 0 <= q < 2 ^ 64 -> Z.lxor q (Z.ones 64) = 2 ^ 64 - 1 - q.
Proof.
  intros Hq. rewrite <- Z.sub_lor_land, Z.land_ones, Z.mod_small by lia.
  rewrite Z.lor_ones_low; [by rewrite Z.ones_equiv|lia|].
  destruct (decide (q = 0)) as [->|]; [done|]. apply Z.log2_lt_pow2; lia.
Qed.

Lemma neg_s_spec a b : - 2 ^ 63 <= b < 2 ^ 63 -> arith64_neg_s a b = if b <? 0 then - a else a.
Proof.
  intros Hb. unfold arith64_neg_s, neg_mask, neg_carry. rewrite s64_small, Z.geb_leb by lia.
  destruct (Z.ltb_spec b 0), (Z.leb_spec 0 b); try lia.
  - change (0 - 1) with (-1). rewrite Z.lxor_m1_r. unfold Z.lnot. lia.
  - change (1 - 1) with 0. rewrite Z.lxor_0_r. lia.
Qed.

Lemma abs_spec a : - 2 ^ 63 < a < 2 ^ 63 -> u64 (arith64_abs a) = Z.abs a.
Proof.
  intros Ha. unfold arith64_abs. rewrite neg_s_spec by lia.
  destruct (Z.ltb_spec a 0); rewrite u64_small by lia; lia.
Qed.

Lemma neg_u_spec q b :
  0 <= q < 2 ^ 63 -> - 2 ^ 63 <= b < 2 ^ 63 ->
  s64 (arith64_neg_u q b) = if b <? 0 then - q else q.
Proof.
  intros Hq Hb. unfold arith64_neg_u. rewrite s64_u64. unfold neg_mask, neg_carry.
  rewrite (s64_small b), Z.geb_leb by lia.
  destruct (Z.ltb_spec b 0), (Z.leb_spec 0 b); try lia.
  - change (u64 (0 - 1)) with (Z.ones 64). rewrite lxor_ones by lia.
    rewrite <- s64_u64. replace (2 ^ 64 - 1 - q + 1) with (- q + 1 * 2 ^ 64) by lia.
    unfold u64. rewrite Z.mod_add by lia. fold (u64 (- q)). rewrite s64_u64. apply s64_small. lia.
  - change (u64 (1 - 1)) with 0. rewrite Z.lxor_0_r, Z.add_0_r. apply s64_small. lia.
Qed.

Lemma lxor_signs a b :
  - 2 ^ 63 <= a < 2 ^ 63 -> - 2 ^ 63 <= b < 2 ^ 63 ->
  - 2 ^ 63 <= Z.lxor a b < 2 ^ 63 /\ (Z.lxor a b <? 0) = xorb (a <? 0) (b <? 0).
Proof.
  intros Ha Hb. split.
  - apply Z.bounded_iff_bits; [lia|]. intros l Hl. rewrite Z.lxor_spec.
    rewrite !(proj1 (Z.bounded_iff_bits 63 _ ltac:(lia))) by lia.
    pose proof (Z.lxor_nonneg a b). repeat case_bool_decide; simpl; try done; lia.
  - pose proof (Z.lxor_nonneg a b) as H.
    destruct (Z.ltb_spec (Z.lxor a b) 0), (Z.ltb_spec a 0), (Z.ltb_spec b 0); simpl; try done; lia.
Qed.

Lemma divdi3_spec a b :
  - 2 ^ 63 < a < 2 ^ 63 -> - 2 ^ 63 < b < 2 ^ 63 -> b <> 0 ->
  __divdi3 a b = Some (Z.quot a b) /\ __moddi3 a b = Some (Z.rem a b).
Proof.
  intros Ha Hb Hb0. unfold __divdi3, __moddi3. rewrite !abs_spec by lia.
  rewrite divmoddi4_spec by lia. rewrite !bind_Some_eq.
  destruct (lxor_signs a b ltac:(lia) ltac:(lia)) as [Hr Hs].
  assert (0 <= Z.abs a / Z.abs b <= Z.abs a)
    by (split; [apply Z.div_pos; lia|apply Z.div_le_upper_bound; nia]).
  pose proof (Z.mod_pos_bound (Z.abs a) (Z.abs b) ltac:(lia)).
  rewrite !neg_u_spec by lia. rewrite Hs.
  rewrite Z.quot_div by done. rewrite Z.rem_mod by done.
  assert (Hsgn : forall z, z <> 0 -> Z.sgn z = if z <? 0 then -1 else 1).
  { intros z Hz. destruct (Z.ltb_spec z 0); [by apply Z.sgn_neg|apply Z.sgn_pos; lia]. }
  rewrite (Hsgn b) by done. destruct (decide (a = 0)) as [->|Ha0].
  - change (Z.abs 0) with 0. rewrite Z.div_0_l, Z.mod_0_l by lia. simpl. by destruct (b <? 0).
  - rewrite (Hsgn a) by done.
    destruct (a <? 0), (b <? 0); cbn [xorb]; split; f_equal; lia.
Qed.

(** ** Shifts of the two halves *)
Lemma s64_add x c : s64 (x + c * 2 ^ 64) = s64 x.
Proof.
  unfold s64. replace (x + c * 2 ^ 64 + 2 ^ 63) with (x + 2 ^ 63 + c * 2 ^ 64) by lia.
  by rewrite Z.mod_add by lia.
Qed.

(** The bits that move from the high half into the low one. *)
Lemma lor_halves h l k :
  0 <= k <= 32 -> 0 <= l < 2 ^ 32 ->
  Z.lor (u32 (Z.shiftl h (32 - k))) (Z.shiftr l k) = (h mod 2 ^ k) * 2 ^ (32 - k) + l / 2 ^ k.
Proof.
  intros Hk Hl. rewrite Z.shiftr_div_pow2 by lia.
  assert (E : u32 (Z.shiftl h (32 - k)) = Z.shiftl (h mod 2 ^ k) (32 - k)).
  { unfold u32. rewrite !Z.shiftl_mul_pow2 by lia.
    replace (2 ^ 32) with (2 ^ k * 2 ^ (32 - k)) by (rewrite <- Z.pow_add_r by lia; f_equal; lia).
    apply Z.mul_mod_distr_r; lia. }
  rewrite E. apply lor_add_low; [lia|]. split; [apply Z.div_pos; lia|].
  apply Z.div_lt_upper_bound; [lia|]. rewrite <- Z.pow_add_r by lia. replace (k + (32 - k)) with 32 by lia. lia.
Qed.

(** Shifting a number given by its halves to the right. *)
Lemma div_halves h l k :
  0 <= k <= 32 -> (h * 2 ^ 32 + l) / 2 ^ k = h * 2 ^ (32 - k) + l / 2 ^ k.
Proof.
  intros Hk. replace (2 ^ 32) with (2 ^ (32 - k) * 2 ^ k) by (rewrite <- Z.pow_add_r by lia; f_equal; lia).
  rewrite Z.mul_assoc, Z.add_comm, Z.div_add by lia. lia.
Qed.

Lemma halves_eq a : a = a / 2 ^ 32 * 2 ^ 32 + a mod 2 ^ 32.
Proof. pose proof (Z.div_mod a (2 ^ 32) ltac:(lia)). lia. Qed.

Lemma land_63 b : Z.land b 63 = b mod 64.
Proof. change 63 with (Z.ones 6). by rewrite Z.land_ones by lia. Qed.

Lemma word_lo a : lo (word_of a) = a mod 2 ^ 32.
Proof. done. Qed.

Lemma word_hi a : hi (word_of a) = (a / 2 ^ 32) mod 2 ^ 32.
Proof. simpl. unfold u32. by rewrite Z.shiftr_div_pow2 by lia. Qed.

(** The high half of the shifted number, with the bits that leave it. *)
Lemma mod_halves h k :
  0 <= k <= 32 -> (h mod 2 ^ k) * 2 ^ (32 - k) + h / 2 ^ k * 2 ^ 32 = h * 2 ^ (32 - k).
Proof.
  intros Hk. pose proof (Z.div_mod h (2 ^ k) ltac:(lia)) as D.
  replace (2 ^ 32) with (2 ^ k * 2 ^ (32 - k)) by (rewrite <- Z.pow_add_r by lia; f_equal; lia).
  rewrite D at 3. lia.
Qed.

Lemma lshr_spec a b : 0 <= a < 2 ^ 64 -> __lshrdi3 a b = Z.shiftr a (b mod 64).
Proof.
  intros Ha. unfold __lshrdi3. rewrite land_63. pose proof (Z.mod_pos_bound b 64 ltac:(lia)).
  set (k := b mod 64) in *. clearbody k. rewrite !word_lo, !word_hi.
  assert (Hh : 0 <= a / 2 ^ 32 < 2 ^ 32)
    by (split; [apply Z.div_pos; lia|apply Z.div_lt_upper_bound; lia]).
  rewrite (Z.mod_small (a / 2 ^ 32)) by done. pose proof (Z.mod_pos_bound a (2 ^ 32) ltac:(lia)) as Hl.
  pose proof (halves_eq a) as E.
  rewrite Z.geb_leb, (Z.shiftr_div_pow2 a) by lia. unfold word_u64.
  destruct (Z.leb_spec 32 k); [|destruct (Z.eqb_spec k 0) as [->|]]; cbn [negb lo hi].
  - rewrite Z.shiftl_0_l, Z.add_0_r, Z.shiftr_div_pow2, Z.div_div by lia.
    rewrite <- Z.pow_add_r by lia. do 2 f_equal. lia.
  - rewrite word_lo, word_hi, Z.shiftl_mul_pow2, (Z.mod_small (a / 2 ^ 32)), Z.div_1_r by lia. lia.
  - rewrite lor_halves, Z.shiftl_mul_pow2, Z.shiftr_div_pow2 by lia.
    set (h := a / 2 ^ 32) in *. set (l := a mod 2 ^ 32) in *. clearbody h l. subst a.
    rewrite div_halves, <- (mod_halves h k) by lia. lia.
Qed.

Lemma ashr_spec a b : - 2 ^ 63 <= a < 2 ^ 63 -> __ashrdi3 a b = Z.shiftr a (b mod 64).
Proof.
  intros Ha. unfold __ashrdi3. rewrite land_63. pose proof (Z.mod_pos_bound b 64 ltac:(lia)).
  set (k := b mod 64) in *. clearbody k. rewrite !word_lo, !word_hi.
  assert (Hh : - 2 ^ 31 <= a / 2 ^ 32 < 2 ^ 31)
    by (split; [apply Z.div_le_lower_bound; lia|apply Z.div_lt_upper_bound; lia]).
  pose proof (Z.mod_pos_bound a (2 ^ 32) ltac:(lia)) as Hl. pose proof (halves_eq a) as E.
  assert (Es : s32 ((a / 2 ^ 32) mod 2 ^ 32) = a / 2 ^ 32).
  { rewrite <- s32_small by lia. unfold s32. by rewrite Z.add_mod_idemp_l by lia. }
  rewrite Es, Z.geb_leb, (Z.shiftr_div_pow2 a) by lia. unfold word_s64, word_u64.
  set (h := a / 2 ^ 32) in *. set (l := a mod 2 ^ 32) in *.
  assert (Hw : forall x y, s64 (x + Z.shiftl (u32 y) 32) = s64 (x + y * 2 ^ 32)).
  { intros x y. rewrite Z.shiftl_mul_pow2 by lia. unfold u32.
    pose proof (Z.div_mod y (2 ^ 32) ltac:(lia)).
    rewrite <- (s64_add _ (y / 2 ^ 32)). f_equal. lia. }
  destruct (Z.leb_spec 32 k); [|destruct (Z.eqb_spec k 0) as [->|]]; cbn [negb lo hi].
  - rewrite Hw, !Z.shiftr_div_pow2 by lia.
    assert (Er : a / 2 ^ k = h / 2 ^ (k - 32)).
    { unfold h. rewrite Z.div_div, <- Z.pow_add_r by lia. do 2 f_equal. lia. }
    rewrite Er. clearbody h l. assert (Hb : 1 <= 2 ^ (k - 32)) by lia.
    assert (- 2 ^ 31 <= h / 2 ^ (k - 32) < 2 ^ 31 /\ (h < 0 <-> h / 2 ^ (k - 32) < 0)) as [Hq Hs].
    { split_and!.
      - apply Z.div_le_lower_bound; nia.
      - apply Z.div_lt_upper_bound; nia.
      - split; [intros; apply Z.div_lt_upper_bound; lia|].
        intros Hn. destruct (Z.lt_ge_cases h 0); [done|]. pose proof (Z.div_pos h (2 ^ (k - 32))). lia. }
    unfold u32. destruct (Z.lt_ge_cases h 0).
    + replace (h / 2 ^ 31) with (-1) by (apply (Z.div_unique _ _ _ (h + 2 ^ 31)); lia).
      replace ((h / 2 ^ (k - 32)) mod 2 ^ 32) with (h / 2 ^ (k - 32) + 2 ^ 32)
        by (apply (Z.mod_unique _ _ (-1)); lia).
      rewrite s64_small; lia.
    + rewrite (Z.div_small h (2 ^ 31)) by lia. rewrite Z.mod_small by lia. rewrite s64_small; lia.
  - unfold word_of. cbn [lo hi]. rewrite Hw, Z.shiftr_div_pow2 by lia. fold h. unfold u32. fold l.
    rewrite Z.div_1_r, s64_small; lia.
  - rewrite lor_halves, Hw, Z.shiftr_div_pow2 by lia. clearbody h l. subst a.
    rewrite div_halves, <- (mod_halves h k) by lia.
    replace ((h mod 2 ^ 32) mod 2 ^ k) with (h mod 2 ^ k).
    2: { symmetry. rewrite <- Znumtheory.Zmod_div_mod; [done|lia|lia|].
         exists (2 ^ (32 - k)). rewrite <- Z.pow_add_r by lia. f_equal. lia. }
    pose proof (mod_halves h k ltac:(lia)) as M. pose proof (div_halves h l k ltac:(lia)) as D.
    assert (- 2 ^ 63 <= (h * 2 ^ 32 + l) / 2 ^ k < 2 ^ 63)
      by (split; [apply Z.div_le_lower_bound; nia|apply Z.div_lt_upper_bound; nia]).
    rewrite s64_small; lia.
Qed.

Lemma ashl_spec a b : __ashldi3 a b = s64 (Z.shiftl a (b mod 64)).
Proof.
  unfold __ashldi3. rewrite land_63. pose proof (Z.mod_pos_bound b 64 ltac:(lia)).
  set (k := b mod 64) in *. clearbody k. rewrite !word_lo, !word_hi.
  pose proof (Z.mod_pos_bound a (2 ^ 32) ltac:(lia)) as Hl. pose proof (halves_eq a) as E.
  rewrite Z.geb_leb, (Z.shiftl_mul_pow2 a) by lia. unfold word_s64, word_u64.
  set (h := a / 2 ^ 32) in *. set (l := a mod 2 ^ 32) in *.
  destruct (Z.leb_spec 32 k); [|destruct (Z.eqb_spec k 0) as [->|]]; cbn [negb lo hi].
  - rewrite !Z.shiftl_mul_pow2 by lia. clearbody h l. subst a. unfold u32.
    pose proof (Z.div_mod (l * 2 ^ (k - 32)) (2 ^ 32) ltac:(lia)) as D.
    rewrite <- (s64_add _ (l * 2 ^ (k - 32) / 2 ^ 32 + h * 2 ^ (k - 32))). f_equal.
    replace (2 ^ k) with (2 ^ (k - 32) * 2 ^ 32) by (rewrite <- Z.pow_add_r by lia; f_equal; lia).
    lia.
  - unfold word_of. cbn [lo hi]. rewrite Z.shiftl_mul_pow2, Z.shiftr_div_pow2 by lia. fold h.
    unfold u32. fold l. pose proof (Z.div_mod h (2 ^ 32) ltac:(lia)) as D.
    rewrite <- (s64_add _ (h / 2 ^ 32)). f_equal. lia.
  - rewrite Z.lor_comm.
    pose proof (lor_halves (h mod 2 ^ 32) l (32 - k) ltac:(lia) Hl) as L.
    replace (32 - (32 - k)) with k in L by lia. rewrite L.
    rewrite !Z.shiftl_mul_pow2 by lia. clearbody h l. subst a. unfold u32.
    pose proof (Z.div_mod h (2 ^ 32) ltac:(lia)) as D.
    pose proof (Z.div_mod (h mod 2 ^ 32) (2 ^ (32 - k)) ltac:(lia)) as D2.
    set (m := h mod 2 ^ 32) in *. set (q := m / 2 ^ (32 - k)) in *. set (r := m mod 2 ^ (32 - k)) in *.
    assert (El : (l * 2 ^ k) mod 2 ^ 32 = l * 2 ^ k - 2 ^ 32 * (l / 2 ^ (32 - k))).
    { pose proof (Z.div_mod l (2 ^ (32 - k)) ltac:(lia)). pose proof (Z.mod_pos_bound l (2 ^ (32 - k)) ltac:(lia)).
      replace (2 ^ 32) with (2 ^ (32 - k) * 2 ^ k) in * by (rewrite <- Z.pow_add_r by lia; f_equal; lia).
      rewrite Z.mul_mod_distr_r by lia. nia. }
    rewrite El. rewrite <- (s64_add _ (q + h / 2 ^ 32 * 2 ^ k)). f_equal.
    assert (E64 : q * 2 ^ 64 = q * 2 ^ (32 - k) * 2 ^ k * 2 ^ 32).
    { rewrite <- !Z.mul_assoc, <- !Z.pow_add_r by lia. do 2 f_equal. lia. }
    clearbody q r m. subst m. set (d := h / 2 ^ 32) in *. clearbody d. subst h. lia.
Qed.

(** ** The routines *)

(** The unsigned division: for every divisor but 0 the branch-free long
    division returns the quotient and stores the remainder, over the whole 64-bit
    range; a division of anything by 0 is a fault. *)
Theorem unsigned_division a b :
  0 <= a < 2 ^ 64 -> 0 <= b < 2 ^ 64 ->
  if b =? 0 then __udivdi3 a b = None /\ __umoddi3 a b = None
  else __divmoddi4 a b = Some (a / b, a mod b)
       /\ __udivdi3 a b = Some (a / b) /\ __umoddi3 a b = Some (a mod b).
Proof.
  intros Ha Hb. unfold __udivdi3, __umoddi3. destruct (Z.eqb_spec b 0) as [->|].
  - assert (E : __divmoddi4 a 0 = None).
    { unfold __divmoddi4. rewrite Z.gtb_ltb. destruct (Z.ltb_spec a 0); [lia|done]. }
    by rewrite E.
  - rewrite divmoddi4_spec by lia. done.
Qed.

Lemma unsigned_division_witness : __divmoddi4 (2 ^ 64 - 1) (2 ^ 63 + 1) = Some (1, 2 ^ 63 - 2).
Proof.
  pose proof (unsigned_division (2 ^ 64 - 1) (2 ^ 63 + 1) ltac:(lia) ltac:(lia)) as H.
  apply proj1 in H. exact H.
Defined.

(** The signed division rounds towards zero and the remainder has the sign of
    the numerator, for all arguments but the most negative one. *)
Theorem signed_division a b :
  - 2 ^ 63 < a < 2 ^ 63 -> - 2 ^ 63 < b < 2 ^ 63 -> b <> 0 ->
  __divdi3 a b = Some (Z.quot a b) /\ __moddi3 a b = Some (Z.rem a b).
Proof. apply divdi3_spec. Qed.

Lemma signed_division_witness : __divdi3 (- 7) 2 = Some (- 3) /\ __moddi3 (- 7) 2 = Some (- 1).
Proof. apply (signed_division (- 7) 2); lia. Defined.

(** The shifts of the two halves are the shifts of the word by the low six
    bits of the count, for every count. *)
Theorem shifts_correct a b :
  - 2 ^ 63 <= a < 2 ^ 63 ->
  __ashldi3 a b = s64 (Z.shiftl a (b mod 64)) /\ __ashrdi3 a b = Z.shiftr a (b mod 64)
  /\ __lshrdi3 (u64 a) b = Z.shiftr (u64 a) (b mod 64).
Proof.
  intros Ha. split_and!; [apply ashl_spec|by apply ashr_spec|]. apply lshr_spec, u64_range.
Qed.

Lemma shifts_correct_witness : __ashrdi3 (- 8) 34 = - 1.
Proof. apply (shifts_correct (- 8) 34). lia. Defined.

(** The bit scans of a word that is not 0: as many leading zeros as bring its
    highest bit to the top, as many trailing zeros as leave an odd number, and
    [__ffsdi2] counts from one. *)
Theorem bit_scans_correct a :
  0 < a < 2 ^ 64 ->
  2 ^ 63 <= a * 2 ^ __clzdi2 a < 2 ^ 64
  /\ (exists y, a = y * 2 ^ __ctzdi2 a /\ Z.odd y = true)
  /\ __ffsdi2 a = __ctzdi2 a + 1
  /\ (a < 2 ^ 32 -> 2 ^ 31 <= a * 2 ^ __clzsi2 a < 2 ^ 32).
Proof.
  intros Ha. split_and!; try apply clzdi2_spec; try apply ctzdi2_spec; try done.
  - unfold __ffsdi2. by destruct (Z.eqb_spec a 0); [lia|].
  - intros. apply clzsi2_spec. lia.
Qed.

Lemma bit_scans_correct_witness : 2 ^ 63 <= 48 * 2 ^ 58 < 2 ^ 64.
Proof. destruct (bit_scans_correct 48 ltac:(lia)) as [H _]. exact H. Defined.
