(* ===== verification/Sheet.v ===== *)
(** * The window layers, src/src/drivers/graphic/sheet.c

    A sheet owns the pixels of its buffer; the control block holds the sheets,
    their order from bottom to top, the frame buffer, and the map that says for
    each pixel of the screen which sheet shows there.  A pointer to a sheet is
    its index in [sheet0]. *)
From Stdlib Require Import ZArith Lia.
From stdpp Require Import base option list gmap numbers.
From S2P Require Import Prelude Heapdl Memory.

Set Default Proof Using "Type".

(** ** State *)
Definition SHEET_IN_USE : Z := 1.
Definition OS_VGA_MAX_SHEETS : Z := 256.
Definition OS_TEXTBOX_LINE_BUFFER_SIZE : Z := 4096 * 10.
Definition COL8_000000 : Z := 0.
Definition COL8_FFFFFF : Z := 7.

Record TEXTBOX := mkTEXTBOX {
  t_bufXS : Z; t_bufYS : Z; t_bufXE : Z; t_bufYE : Z;
  t_lineBuf : Z;
  t_boxX : Z; t_boxY : Z;
  t_lineEolPos : Z; t_lineCharPos : Z;
  t_sheet : Z;
  t_bgColor : Z; t_charBgColor : Z; t_charColor : Z;
  t_incrementX : Z; t_incrementY : Z
}.

Record SHEET := mkSHEET {
  s_buf : list Z;
  s_bufXsize : Z;
  s_bufYsize : Z;
  s_xStart : Z;
  s_yStart : Z;
  s_color_invisible : Z;
  s_z : Z;
  s_flags : Z;
  s_textbox : option (Z * TEXTBOX)  (** the address and what is there *)
}.

Record SHTCTL := mkSHTCTL {
  c_vram : list Z;
  c_zMap : list Z;
  c_xsize : Z;
  c_ysize : Z;
  c_zTop : Z;
  c_sheets : list (option Z);
  c_sheet0 : list SHEET
}.

Definition s_set_z (s : SHEET) (z : Z) : SHEET :=
  mkSHEET (s_buf s) (s_bufXsize s) (s_bufYsize s) (s_xStart s) (s_yStart s) (s_color_invisible s) z
    (s_flags s) (s_textbox s).
Definition s_set_pos (s : SHEET) (x y : Z) : SHEET :=
  mkSHEET (s_buf s) (s_bufXsize s) (s_bufYsize s) x y (s_color_invisible s) (s_z s) (s_flags s) (s_textbox s).
Definition s_set_flags (s : SHEET) (f : Z) : SHEET :=
  mkSHEET (s_buf s) (s_bufXsize s) (s_bufYsize s) (s_xStart s) (s_yStart s) (s_color_invisible s) (s_z s)
    f (s_textbox s).
Definition s_set_textbox (s : SHEET) (t : option (Z * TEXTBOX)) : SHEET :=
  mkSHEET (s_buf s) (s_bufXsize s) (s_bufYsize s) (s_xStart s) (s_yStart s) (s_color_invisible s) (s_z s)
    (s_flags s) t.

Definition c_set_vram (c : SHTCTL) (v : list Z) : SHTCTL :=
  mkSHTCTL v (c_zMap c) (c_xsize c) (c_ysize c) (c_zTop c) (c_sheets c) (c_sheet0 c).
Definition c_set_zMap (c : SHTCTL) (m : list Z) : SHTCTL :=
  mkSHTCTL (c_vram c) m (c_xsize c) (c_ysize c) (c_zTop c) (c_sheets c) (c_sheet0 c).
Definition c_set_zTop (c : SHTCTL) (z : Z) : SHTCTL :=
  mkSHTCTL (c_vram c) (c_zMap c) (c_xsize c) (c_ysize c) z (c_sheets c) (c_sheet0 c).
Definition c_set_sheets (c : SHTCTL) (l : list (option Z)) : SHTCTL :=
  mkSHTCTL (c_vram c) (c_zMap c) (c_xsize c) (c_ysize c) (c_zTop c) l (c_sheet0 c).
Definition c_set_sheet0 (c : SHTCTL) (l : list SHEET) : SHTCTL :=
  mkSHTCTL (c_vram c) (c_zMap c) (c_xsize c) (c_ysize c) (c_zTop c) (c_sheets c) l.

Definition upd_sheet (c : SHTCTL) (i : Z) (f : SHEET -> SHEET) : option SHTCTL :=
  s ← (c_sheet0 c)$[i];
  l ← (c_sheet0 c)$[i := f s];
  Some (c_set_sheet0 c l).

(** ** Allocation *)

(** The layout of the control block with 32-bit pointers: five words, the array
    of pointers, the array of sheets. *)
Definition sizeof_SHEET : Z := 40.
Definition sizeof_SHTCTL : Z := 20 + 4 * OS_VGA_MAX_SHEETS + sizeof_SHEET * OS_VGA_MAX_SHEETS.
Definition sizeof_TEXTBOX : Z := 60.

Definition sheet_zero : SHEET := mkSHEET [] 0 0 0 0 0 0 0 None.

(** The two blocks come from the kernel's heap; [screen] is what the frame
    buffer holds. *)
Definition shtctl_init (h : heap) (m : memory) (screen : list Z) (xsize ysize : Z)
  : option (option SHTCTL * heap * memory) :=
  '(ctl, h, m) ← kzalloc h m sizeof_SHTCTL;
  if ctl =? 0 then Some (None, h, m)
  else
    '(zMap, h, m) ← kzalloc h m (u32 (xsize * ysize));
    if zMap =? 0 then h ← kfree h ctl; Some (None, h, m)
    else Some (Some (mkSHTCTL screen (replicate (Z.to_nat (xsize * ysize)) 0) xsize ysize (-1)
                       (replicate (Z.to_nat OS_VGA_MAX_SHEETS) None)
                       (replicate (Z.to_nat OS_VGA_MAX_SHEETS) sheet_zero)), h, m).

Definition sheet_alloc (ctl : SHTCTL) : option (option Z * SHTCTL) :=
  r ← loop_until (Z.to_nat OS_VGA_MAX_SHEETS) 0 (fun i c =>
        s ← (c_sheet0 c)$[i];
        if s_flags s =? 0 then
          c ← upd_sheet c i (fun s => s_set_textbox (s_set_z (s_set_flags s SHEET_IN_USE) (-1)) None);
          Some (Return c i)
        else Some (Continue c)) ctl;
  match r with
  | Return c i => Some (Some i, c)
  | Continue c | Break c => Some (None, c)
  end.

Definition sheet_textbox_free (h : heap) (ctl : SHTCTL) (sheet : Z) : option (SHTCTL * heap) :=
  s ← (c_sheet0 ctl)$[sheet];
  match s_textbox s with
  | Some (a, t) =>
      h ← kfree h (t_lineBuf t);
      h ← kfree h a;
      c ← upd_sheet ctl sheet (fun s => s_set_textbox s None);
      Some (c, h)
  | None => Some (ctl, h)
  end.

(** Both blocks are used before they are checked: without memory for the text
    box the code writes through NULL. *)
Definition sheet_textbox_alloc (h : heap) (m : memory) (ctl : SHTCTL) (s xS yS xE yE : Z)
    (bgColor charBgColor charColor : Z) : option (SHTCTL * heap * memory) :=
  '(a, h, m) ← kzalloc h m sizeof_TEXTBOX;
  if a =? 0 then None
  else
    '(lineBuf, h, m) ← kzalloc h m OS_TEXTBOX_LINE_BUFFER_SIZE;
    if negb (lineBuf =? 0) then
      let t := mkTEXTBOX xS yS xE yE lineBuf 0 0 0 0 s
                 (if bgColor >? -1 then bgColor else COL8_000000)
                 (if charBgColor >? -1 then charBgColor else COL8_000000)
                 (if charColor >? -1 then charColor else COL8_FFFFFF) 8 28 in
      c ← upd_sheet ctl s (fun sh => s_set_textbox sh (Some (a, t)));
      Some (c, h, m)
    else
      c ← upd_sheet ctl s (fun sh => s_set_textbox sh (Some (a, mkTEXTBOX 0 0 0 0 0 0 0 0 0 0 0 0 0 0 0)));
      '(c, h) ← sheet_textbox_free h c s;
      Some (c, h, m).

Definition sheet_setbuf (s : SHEET) (buf : list Z) (xsize ysize color_invisible : Z) : SHEET :=
  mkSHEET buf xsize ysize (s_xStart s) (s_yStart s) color_invisible (s_z s) (s_flags s) (s_textbox s).

(** ** Drawing *)

(** The corners of an area, brought onto the screen after growing by one pixel. *)
Definition clip (lim v : Z) : Z :=
  let v := if v <? 0 then 0 else v in
  if v >=? lim then lim - 1 else v.

(** The part of a sheet's buffer that meets the screen columns (or rows)
    [lo..hi]: the sheet starts at [start] and has [size] columns. *)
Definition buf_from (lo start : Z) : Z := if lo - start <? 0 then 0 else lo - start.
Definition buf_to (hi start size : Z) : Z := if hi - start >=? size then size - 1 else hi - start.

Definition sheet_update_zmap (ctl : SHTCTL) (xStart yStart xEnd yEnd zStart : Z) : option SHTCTL :=
  let xStart := clip (c_xsize ctl) (xStart - 1) in
  let xEnd := clip (c_xsize ctl) (xEnd + 1) in
  let yStart := clip (c_ysize ctl) (yStart - 1) in
  let yEnd := clip (c_ysize ctl) (yEnd + 1) in
  zMap ← for_range zStart (c_zTop ctl + 1) (fun z zMap =>
    sheetId ← (c_sheets ctl)$[z];
    sheetId ← sheetId;
    sheet ← (c_sheet0 ctl)$[sheetId];
    let xStartInBuf := buf_from xStart (s_xStart sheet) in
    let yStartInBuf := buf_from yStart (s_yStart sheet) in
    let xEndInBuf := buf_to xEnd (s_xStart sheet) (s_bufXsize sheet) in
    let yEndInBuf := buf_to yEnd (s_yStart sheet) (s_bufYsize sheet) in
    for_range yStartInBuf (yEndInBuf + 1) (fun bufY =>
      let y := s_yStart sheet + bufY in
      for_range xStartInBuf (xEndInBuf + 1) (fun bufX zMap =>
        let x := s_xStart sheet + bufX in
        color ← (s_buf sheet)$[bufY * s_bufXsize sheet + bufX];
        if negb (color =? s_color_invisible sheet) then zMap$[c_xsize ctl * y + x := u8 sheetId]
        else Some zMap)) zMap) (c_zMap ctl);
  Some (c_set_zMap ctl zMap).

Definition sheet_update_with_screenxy (ctl : SHTCTL) (xStart yStart xEnd yEnd zStart zEnd : Z)
  : option SHTCTL :=
  let xStart := clip (c_xsize ctl) (xStart - 1) in
  let xEnd := clip (c_xsize ctl) (xEnd + 1) in
  let yStart := clip (c_ysize ctl) (yStart - 1) in
  let yEnd := clip (c_ysize ctl) (yEnd + 1) in
  let zEnd := if zEnd =? -1 then c_zTop ctl else zEnd in
  vram ← for_range zStart (zEnd + 1) (fun z vram =>
    sheetId ← (c_sheets ctl)$[z];
    sheetId ← sheetId;
    sheet ← (c_sheet0 ctl)$[sheetId];
    let xStartInBuf := buf_from xStart (s_xStart sheet) in
    let yStartInBuf := buf_from yStart (s_yStart sheet) in
    let xEndInBuf := buf_to xEnd (s_xStart sheet) (s_bufXsize sheet) in
    let yEndInBuf := buf_to yEnd (s_yStart sheet) (s_bufYsize sheet) in
    for_range yStartInBuf (yEndInBuf + 1) (fun bufY =>
      let y := s_yStart sheet + bufY in
      for_range xStartInBuf (xEndInBuf + 1) (fun bufX vram =>
        let x := s_xStart sheet + bufX in
        color ← (s_buf sheet)$[s_bufXsize sheet * bufY + bufX];
        top ← (c_zMap ctl)$[c_xsize ctl * y + x];
        if top =? sheetId then vram$[c_xsize ctl * y + x := color]
        else Some vram)) vram) (c_vram ctl);
  Some (c_set_vram ctl vram).

Definition sheet_update_sheet (ctl : SHTCTL) (s xStartInBuf yStartInBuf xEndInBuf yEndInBuf : Z)
  : option SHTCTL :=
  sh ← (c_sheet0 ctl)$[s];
  if s_z sh <? 0 then Some ctl
  else sheet_update_with_screenxy ctl (s_xStart sh + xStartInBuf) (s_yStart sh + yStartInBuf)
         (s_xStart sh + xEndInBuf) (s_yStart sh + yEndInBuf) (s_z sh) (s_z sh).

Definition v_textbox_update_sheet (ctl : SHTCTL) (s : option Z)
    (xStartInTextbox yStartInTextbox xEndInTextbox yEndInTextbox : Z) : option SHTCTL :=
  match s with
  | None => Some ctl
  | Some s =>
      sh ← (c_sheet0 ctl)$[s];
      match s_textbox sh with
      | None => Some ctl
      | Some (_, t) =>
          let cut v e := if v >? e then e else v in
          sheet_update_sheet ctl s
            (s32 (cut (xStartInTextbox + t_bufXS t) (t_bufXE t))) (s32 (cut (yStartInTextbox + t_bufYS t) (t_bufYE t)))
            (s32 (cut (xEndInTextbox + t_bufXS t) (t_bufXE t))) (s32 (cut (yEndInTextbox + t_bufYS t) (t_bufYE t)))
      end
  end.

Definition sheet_update_all (ctl : SHTCTL) : option SHTCTL :=
  vram ← for_range 0 (c_zTop ctl + 1) (fun z vram =>
    sheetId ← (c_sheets ctl)$[z];
    sheetId ← sheetId;
    sheet ← (c_sheet0 ctl)$[sheetId];
    for_range 0 (s_bufYsize sheet) (fun bufY =>
      let y := s_yStart sheet + bufY in
      for_range 0 (s_bufXsize sheet) (fun bufX vram =>
        let x := s_xStart sheet + bufX in
        color ← (s_buf sheet)$[s_bufXsize sheet * bufY + bufX];
        top ← (c_zMap ctl)$[c_xsize ctl * y + x];
        if top =? sheetId then vram$[y * c_xsize ctl + x := color]
        else Some vram)) vram) (c_vram ctl);
  Some (c_set_vram ctl vram).

(** ** The order of the sheets *)

(** [ctl->sheets[z] = ctl->sheets[from]; ctl->sheets[z]->z = z;] *)
Definition pull (ctl : SHTCTL) (z from : Z) : option SHTCTL :=
  p ← (c_sheets ctl)$[from];
  l ← (c_sheets ctl)$[z := p];
  p ← p;
  upd_sheet (c_set_sheets ctl l) p (fun s => s_set_z s z).

Definition put_sheet (ctl : SHTCTL) (z s : Z) : option SHTCTL :=
  l ← (c_sheets ctl)$[z := Some s];
  Some (c_set_sheets ctl l).

(** [sheet_update_zmap] and [sheet_update_with_screenxy] on the area of [sheet]. *)
Definition zmap_area (ctl : SHTCTL) (sheet : SHEET) (zStart : Z) : option SHTCTL :=
  sheet_update_zmap ctl (s_xStart sheet) (s_yStart sheet) (s_xStart sheet + s_bufXsize sheet)
    (s_yStart sheet + s_bufYsize sheet) zStart.
Definition redraw_area (ctl : SHTCTL) (sheet : SHEET) (zStart zEnd : Z) : option SHTCTL :=
  sheet_update_with_screenxy ctl (s_xStart sheet) (s_yStart sheet) (s_xStart sheet + s_bufXsize sheet)
    (s_yStart sheet + s_bufYsize sheet) zStart zEnd.

Definition sheet_updown (ctl : SHTCTL) (sheet zNew : Z) : option SHTCTL :=
  s ← (c_sheet0 ctl)$[sheet];
  let zOriginal := s_z s in
  let zNew := if zNew >? c_zTop ctl + 1 then c_zTop ctl + 1 else zNew in
  let zNew := if zNew <? -1 then -1 else zNew in
  ctl ← upd_sheet ctl sheet (fun s => s_set_z s zNew);
  if zOriginal =? zNew then Some ctl
  else if zNew <? 0 then
    ctl ← for_range zOriginal (c_zTop ctl) (fun z ctl => pull ctl z (z + 1)) ctl;
    let ctl := c_set_zTop ctl (c_zTop ctl - 1) in
    ctl ← zmap_area ctl s 0;
    redraw_area ctl s 0 (zOriginal - 1)
  else if zOriginal <? 0 then
    ctl ← (let top := c_zTop ctl in
           for_range 0 (top - zNew) (fun k ctl => pull ctl (top - k) (top - k - 1)) ctl);
    ctl ← put_sheet ctl zNew sheet;
    let ctl := c_set_zTop ctl (c_zTop ctl + 1) in
    ctl ← zmap_area ctl s zNew;
    redraw_area ctl s zNew zNew
  else if zOriginal >? zNew then
    ctl ← for_range 0 (zOriginal - zNew) (fun k ctl => pull ctl (zOriginal - k) (zOriginal - k - 1)) ctl;
    ctl ← put_sheet ctl zNew sheet;
    ctl ← zmap_area ctl s zNew;
    redraw_area ctl s zNew (zOriginal - 1)
  else
    ctl ← for_range zOriginal zNew (fun z ctl => pull ctl z (z + 1)) ctl;
    ctl ← put_sheet ctl zNew sheet;
    ctl ← zmap_area ctl s zNew;
    redraw_area ctl s zNew zNew.

Definition sheet_slide (ctl : SHTCTL) (sheet xDst yDst : Z) : option SHTCTL :=
  s ← (c_sheet0 ctl)$[sheet];
  let xStart := s_xStart s in
  let yStart := s_yStart s in
  ctl ← upd_sheet ctl sheet (fun s => s_set_pos s xDst yDst);
  if s_z s <? 0 then Some ctl
  else
    ctl ← sheet_update_zmap ctl xStart yStart (xStart + s_bufXsize s) (yStart + s_bufYsize s) 0;
    ctl ← sheet_update_zmap ctl xDst yDst (xDst + s_bufXsize s) (yDst + s_bufYsize s) (s_z s);
    ctl ← sheet_update_with_screenxy ctl xStart yStart (xStart + s_bufXsize s) (yStart + s_bufYsize s)
            0 (s_z s - 1);
    sheet_update_with_screenxy ctl xDst yDst (xDst + s_bufXsize s) (yDst + s_bufYsize s) (s_z s) (s_z s).

Definition sheet_free (h : heap) (ctl : SHTCTL) (sheet : Z) : option (SHTCTL * heap) :=
  '(ctl, h) ← sheet_textbox_free h ctl sheet;
  s ← (c_sheet0 ctl)$[sheet];
  ctl ← (if s_z s >=? 0 then sheet_updown ctl sheet (-1) else Some ctl);
  ctl ← upd_sheet ctl sheet (fun s => s_set_flags s 0);
  Some (ctl, h).
