(* ===== verification/SheetSpec.v ===== *)
(** * What the screen shows

    The order of the sheets is a list of indices, bottom first.  The map of the
    screen is right when it names, for each pixel that some sheet covers, the
    topmost sheet that is opaque there, and the frame buffer is right when it
    shows that sheet's colour.  The drawing loops are characterised pixel by
    pixel, and moving, raising, hiding and showing sheets keep the screen right. *)
From Stdlib Require Import ZArith Lia.
From stdpp Require Import base option list gmap numbers.
From S2P Require Import Prelude Heapdl Memory Sheet.

Set Default Proof Using "Type".

(** ** Pictures: arrays of [w * h] cells as functions of the coordinates *)
Record shows (w h : Z) (arr : list Z) (g : Z -> Z -> Z) : Prop := {
  sw_len : Z.of_nat (length arr) = w * h;
  sw_at : forall x y, 0 <= x < w -> 0 <= y < h -> arr$[w * y + x] = Some (g x y)
}.

Lemma cell_range w h x y : 0 <= x < w -> 0 <= y < h -> 0 <= w * y + x < w * h.
Proof. nia. Qed.

Lemma cell_inj w x y x' y' :
  0 <= x < w -> 0 <= x' < w -> w * y + x = w * y' + x' -> x = x' /\ y = y'.
Proof.
  intros Hx Hx' E. assert (y = y'); [|lia].
  assert (E1 : (w * y + x) / w = y) by (symmetry; apply (Z.div_unique _ _ _ x); lia).
  assert (E2 : (w * y' + x') / w = y') by (symmetry; apply (Z.div_unique _ _ _ x'); lia).
  congruence.
Qed.

Lemma shows_write w h arr g x0 y0 v :
  shows w h arr g -> 0 <= x0 < w -> 0 <= y0 < h ->
  exists arr', arr$[w * y0 + x0 := v] = Some arr'
    /\ shows w h arr' (fun x y => if decide (x = x0 /\ y = y0) then v else g x y).
Proof.
  intros [Hl Hg] Hx Hy. pose proof (cell_range w h x0 y0 Hx Hy) as Hr.
  rewrite updateZ_in by lia. eexists. split; [done|]. split; [by rewrite length_insert|].
  intros x y Hx' Hy'. rewrite lookupZ_insert by lia. case_decide as E1; case_decide as E2.
  - done.
  - exfalso. apply E2. destruct (cell_inj w x0 y0 x y); [lia..|]. auto.
  - destruct E2 as [-> ->]. done.
  - by apply Hg.
Qed.

Lemma shows_ext w h arr g g' :
  (forall x y, 0 <= x < w -> 0 <= y < h -> g x y = g' x y) -> shows w h arr g -> shows w h arr g'.
Proof. intros E [Hl Hg]. split; [done|]. intros x y Hx Hy. rewrite <- E by done. by apply Hg. Qed.

(** An invariant of a loop that may be empty. *)
Lemma for_range_inv' {S} (I : Z -> S -> Prop) lo hi (f : Z -> S -> option S) s :
  I lo s ->
  (forall i s, lo <= i < hi -> I i s -> exists s', f i s = Some s' /\ I (i + 1) s') ->
  exists s', for_range lo hi f s = Some s' /\ I (Z.max lo hi) s'.
Proof.
  intros H0 Hs. destruct (Z.le_gt_cases lo hi).
  - rewrite Z.max_r by lia. by apply for_range_inv.
  - rewrite Z.max_l by lia. rewrite for_range_nil by lia. by exists s.
Qed.

(** ** Painting a rectangle

    [f x y] is what the body writes at a pixel, if it writes. *)
Section paint.
Context (w h : Z) (f : Z -> Z -> option Z) (sx sy xlo xhi : Z).
Context (body : Z -> Z -> list Z -> option (list Z)).

Definition writes (by_ : Z) : Prop := forall bx, xlo <= bx <= xhi ->
  0 <= sx + bx < w /\ 0 <= sy + by_ < h
  /\ forall arr, body by_ bx arr = match f (sx + bx) (sy + by_) with
                                   | Some v => arr$[w * (sy + by_) + (sx + bx) := v]
                                   | None => Some arr
                                   end.

Lemma paint_row by_ arr g :
  shows w h arr g -> writes by_ ->
  exists arr', for_range xlo (xhi + 1) (body by_) arr = Some arr'
    /\ shows w h arr' (fun x y => if decide (xlo <= x - sx <= xhi /\ y - sy = by_)
                                  then default (g x y) (f x y) else g x y).
Proof.
  intros Hs Hw.
  destruct (for_range_inv' (fun bx arr' => shows w h arr' (fun x y =>
      if decide (xlo <= x - sx < bx /\ y - sy = by_) then default (g x y) (f x y) else g x y))
    xlo (xhi + 1) (body by_) arr) as (arr' & E & Hr).
  - eapply shows_ext; [|exact Hs]. intros x y _ _. rewrite decide_False by lia. done.
  - intros bx a Hbx Ha. destruct (Hw bx ltac:(lia)) as (Hx & Hy & Hb). rewrite Hb.
    destruct (f (sx + bx) (sy + by_)) as [v|] eqn:Ef.
    + destruct (shows_write _ _ _ _ _ _ v Ha Hx Hy) as (a' & -> & Ha'). exists a'. split; [done|].
      eapply shows_ext; [|exact Ha']. intros x y _ _. simpl. case_decide as C1.
      * destruct C1 as [-> ->]. rewrite decide_True by lia. by rewrite Ef.
      * case_decide as C2; case_decide as C3; try done; lia.
    + exists a. split; [done|]. eapply shows_ext; [|exact Ha]. intros x y _ _. simpl.
      case_decide as C2; case_decide as C3; try done; try lia.
      assert (x = sx + bx) as -> by lia. assert (y = sy + by_) as -> by lia. by rewrite Ef.
  - exists arr'. split; [done|]. eapply shows_ext; [|exact Hr]. intros x y _ _. simpl.
    case_decide as C2; case_decide as C3; try done; lia.
Qed.

Lemma paint_rect ylo yhi arr g :
  shows w h arr g -> (forall by_, ylo <= by_ <= yhi -> writes by_) ->
  exists arr', for_range ylo (yhi + 1) (fun by_ => for_range xlo (xhi + 1) (body by_)) arr = Some arr'
    /\ shows w h arr' (fun x y => if decide (xlo <= x - sx <= xhi /\ ylo <= y - sy <= yhi)
                                  then default (g x y) (f x y) else g x y).
Proof.
  intros Hs Hw.
  destruct (for_range_inv' (fun b arr' => shows w h arr' (fun x y =>
      if decide (xlo <= x - sx <= xhi /\ ylo <= y - sy < b) then default (g x y) (f x y) else g x y))
    ylo (yhi + 1) (fun by_ => for_range xlo (xhi + 1) (body by_)) arr) as (arr' & E & Hr).
  - eapply shows_ext; [|exact Hs]. intros x y _ _. rewrite decide_False by lia. done.
  - intros b a Hb Ha. destruct (paint_row b a _ Ha (Hw b ltac:(lia))) as (a' & E & Ha').
    exists a'. split; [done|]. eapply shows_ext; [|exact Ha']. intros x y _ _. simpl.
    repeat case_decide; try done; lia.
  - exists arr'. split; [done|]. eapply shows_ext; [|exact Hr]. intros x y _ _. simpl.
    case_decide as C2; case_decide as C3; try done; lia.
Qed.
End paint.

(** ** Sheets and their order *)
Definition covers (s : SHEET) (x y : Z) : bool :=
  (0 <=? x - s_xStart s) && (x - s_xStart s <? s_bufXsize s)
  && (0 <=? y - s_yStart s) && (y - s_yStart s <? s_bufYsize s).

(** The pixel that a sheet has at a point of the screen. *)
Definition pixel (s : SHEET) (x y : Z) : option Z :=
  if covers s x y then (s_buf s)$[s_bufXsize s * (y - s_yStart s) + (x - s_xStart s)] else None.

Definition opaque (s : SHEET) (x y : Z) : bool :=
  match pixel s x y with Some c => negb (c =? s_color_invisible s) | None => false end.

Definition buf_ok (s : SHEET) : Prop :=
  0 <= s_bufXsize s /\ 0 <= s_bufYsize s /\ s_bufXsize s * s_bufYsize s <= Z.of_nat (length (s_buf s)).

Definition op (c : SHTCTL) (x y : Z) (i : Z) : bool :=
  match (c_sheet0 c)$[i] with Some s => opaque s x y | None => false end.

(** The last element of the stack that satisfies a test. *)
Fixpoint topmost (t : Z -> bool) (stk : list Z) : option Z :=
  match stk with
  | [] => None
  | i :: l => match topmost t l with Some j => Some j | None => if t i then Some i else None end
  end.

Record stack_ok (c : SHTCTL) (stk : list Z) : Prop := {
  sk_size : 0 < c_xsize c /\ 0 < c_ysize c;
  sk_top : c_zTop c = Z.of_nat (length stk) - 1;
  sk_len : length (c_sheets c) = Z.to_nat OS_VGA_MAX_SHEETS /\ length (c_sheet0 c) = Z.to_nat OS_VGA_MAX_SHEETS;
  sk_at : forall k i, stk !! k = Some i ->
    c_sheets c !! k = Some (Some i)
    /\ exists s, (c_sheet0 c)$[i] = Some s /\ s_z s = Z.of_nat k /\ buf_ok s
}.

Lemma covers_spec s x y :
  covers s x y = true <->
  0 <= x - s_xStart s < s_bufXsize s /\ 0 <= y - s_yStart s < s_bufYsize s.
Proof. unfold covers. rewrite !andb_true_iff, !Z.leb_le, !Z.ltb_lt. lia. Qed.

Lemma pixel_Some s x y : buf_ok s -> covers s x y = true -> is_Some (pixel s x y).
Proof.
  intros (H1 & H2 & H3) Hc. unfold pixel. rewrite Hc. apply covers_spec in Hc.
  apply lookupZ_is_Some. nia.
Qed.

Lemma topmost_app t l1 l2 :
  topmost t (l1 ++ l2) = match topmost t l2 with Some j => Some j | None => topmost t l1 end.
Proof.
  induction l1 as [|i l1 IH]; simpl; [by destruct (topmost t l2)|].
  rewrite IH. by destruct (topmost t l2).
Qed.

Lemma topmost_elem t l i : topmost t l = Some i -> i ∈ l /\ t i = true.
Proof.
  induction l as [|j l IH]; simpl; [done|]. destruct (topmost t l) as [k|].
  - intros [= <-]. destruct IH as [? ?]; [done|]. split; [by apply elem_of_cons; right|done].
  - destruct (t j) eqn:E; [|done]. intros [= <-]. split; [by apply elem_of_cons; left|done].
Qed.

Lemma topmost_ext t t' l : (forall i, i ∈ l -> t i = t' i) -> topmost t l = topmost t' l.
Proof.
  intros H. induction l as [|i l IH]; simpl; [done|].
  rewrite IH by (intros; apply H; by apply elem_of_cons; right).
  by rewrite H by (by apply elem_of_cons; left).
Qed.

Section stack.
Context (c : SHTCTL) (stk : list Z) (Hk : stack_ok c stk).

Lemma stack_sheet i : i ∈ stk -> exists s, (c_sheet0 c)$[i] = Some s /\ buf_ok s.
Proof using Hk.
  intros [k Hi]%list_elem_of_lookup. destruct (sk_at _ _ Hk k i Hi) as (_ & s & E & _ & B). by exists s.
Qed.

Lemma stack_id i : i ∈ stk -> 0 <= i < 2 ^ 8.
Proof using Hk.
  intros (s & E & _)%stack_sheet. apply lookupZ_lt in E. destruct (sk_len _ _ Hk) as [_ L].
  rewrite L in E. unfold OS_VGA_MAX_SHEETS in E. lia.
Qed.

Lemma stack_nodup : NoDup stk.
Proof using Hk.
  apply NoDup_alt. intros j k i Hj Hi.
  destruct (sk_at _ _ Hk j i Hj) as (_ & s & E & Ez & _).
  destruct (sk_at _ _ Hk k i Hi) as (_ & s' & E' & Ez' & _). rewrite E in E'. injection E' as <-. lia.
Qed.

Lemma stack_level k i :
  stk !! k = Some i ->
  exists s, (c_sheets c)$[Z.of_nat k] = Some (Some i) /\ (c_sheet0 c)$[i] = Some s /\ buf_ok s
    /\ s_z s = Z.of_nat k.
Proof using Hk.
  intros Hi. destruct (sk_at _ _ Hk k i Hi) as (E & s & Es & Ez & B). exists s.
  by rewrite lookupZ_nat.
Qed.
End stack.

(** ** The two loops *)
Definition in_area (c : SHTCTL) (xs ys xe ye x y : Z) : Prop :=
  clip (c_xsize c) (xs - 1) <= x <= clip (c_xsize c) (xe + 1)
  /\ clip (c_ysize c) (ys - 1) <= y <= clip (c_ysize c) (ye + 1).

#[export] Instance in_area_dec c xs ys xe ye x y : Decision (in_area c xs ys xe ye x y).
Proof. unfold in_area. apply _. Defined.

Lemma clip_range lim v : 0 < lim -> 0 <= clip lim v < lim.
Proof.
  intros. unfold clip. cbv zeta. rewrite Z.geb_leb.
  destruct (Z.ltb_spec v 0); [destruct (Z.leb_spec lim 0)|destruct (Z.leb_spec lim v)]; lia.
Qed.

(** The area of a sheet contains every pixel that the sheet covers. *)
Lemma covers_in_area c s x y :
  0 <= x < c_xsize c -> 0 <= y < c_ysize c -> covers s x y = true ->
  in_area c (s_xStart s) (s_yStart s) (s_xStart s + s_bufXsize s) (s_yStart s + s_bufYsize s) x y.
Proof.
  intros Hx Hy [? ?]%covers_spec. unfold in_area, clip. rewrite !Z.geb_leb.
  repeat match goal with |- context [?a <? ?b] => destruct (Z.ltb_spec a b) end;
  repeat match goal with |- context [?a <=? ?b] => destruct (Z.leb_spec a b) end; lia.
Qed.

(** The part of the buffer that a loop visits, on the screen. *)
Lemma buf_range lo hi start size x :
  buf_from lo start <= x - start <= buf_to hi start size <->
  lo <= x <= hi /\ 0 <= x - start < size.
Proof.
  unfold buf_from, buf_to. rewrite Z.geb_leb.
  destruct (Z.ltb_spec (lo - start) 0), (Z.leb_spec size (hi - start)); lia.
Qed.

Section loops.
Context (c : SHTCTL) (stk : list Z) (Hk : stack_ok c stk) (xs ys xe ye : Z).
Let area x y := in_area c xs ys xe ye x y.

(** One sheet of the loop over the levels. *)
Lemma sheet_rect s x y :
  let xl := buf_from (clip (c_xsize c) (xs - 1)) (s_xStart s) in
  let xh := buf_to (clip (c_xsize c) (xe + 1)) (s_xStart s) (s_bufXsize s) in
  let yl := buf_from (clip (c_ysize c) (ys - 1)) (s_yStart s) in
  let yh := buf_to (clip (c_ysize c) (ye + 1)) (s_yStart s) (s_bufYsize s) in
  (xl <= x - s_xStart s <= xh /\ yl <= y - s_yStart s <= yh)
  <-> area x y /\ covers s x y = true.
Proof using Type.
  simpl. rewrite !buf_range, covers_spec. unfold area, in_area. tauto.
Qed.

Lemma zmap_sheet i s g arr :
  (c_sheet0 c)$[i] = Some s -> buf_ok s -> 0 <= i < 2 ^ 8 -> shows (c_xsize c) (c_ysize c) arr g ->
  exists arr',
    for_range (buf_from (clip (c_ysize c) (ys - 1)) (s_yStart s))
      (buf_to (clip (c_ysize c) (ye + 1)) (s_yStart s) (s_bufYsize s) + 1) (fun bufY =>
      for_range (buf_from (clip (c_xsize c) (xs - 1)) (s_xStart s))
        (buf_to (clip (c_xsize c) (xe + 1)) (s_xStart s) (s_bufXsize s) + 1) (fun bufX zMap =>
        color ← (s_buf s)$[bufY * s_bufXsize s + bufX];
        if negb (color =? s_color_invisible s)
        then zMap$[c_xsize c * (s_yStart s + bufY) + (s_xStart s + bufX) := u8 i]
        else Some zMap)) arr = Some arr'
    /\ shows (c_xsize c) (c_ysize c) arr'
         (fun x y => if decide (area x y /\ opaque s x y = true) then i else g x y).
Proof using Hk.
  intros Es Hb Hi Hs. destruct (sk_size _ _ Hk) as [Hw Hh].
  edestruct (paint_rect (c_xsize c) (c_ysize c) (fun x y => if opaque s x y then Some i else None)
    (s_xStart s) (s_yStart s)) as (arr' & E & Hr); [exact Hs| |exists arr'; split; [exact E|]].
  - intros bufY HY bufX HX.
    assert (Hin : area (s_xStart s + bufX) (s_yStart s + bufY) /\ covers s (s_xStart s + bufX) (s_yStart s + bufY) = true).
    { apply sheet_rect. split; [lia|]. replace (s_yStart s + bufY - s_yStart s) with bufY by lia. exact HY. }
    destruct Hin as [Ha Hc]. unfold area, in_area in Ha.
    pose proof (clip_range (c_xsize c) (xs - 1) Hw). pose proof (clip_range (c_xsize c) (xe + 1) Hw).
    pose proof (clip_range (c_ysize c) (ys - 1) Hh). pose proof (clip_range (c_ysize c) (ye + 1) Hh).
    split; [lia|]. split; [lia|]. intros a. unfold opaque.
    destruct (pixel_Some s _ _ Hb Hc) as [col Ec]. rewrite Ec. unfold pixel in Ec. rewrite Hc in Ec.
    replace (bufY * s_bufXsize s + bufX)
      with (s_bufXsize s * (s_yStart s + bufY - s_yStart s) + (s_xStart s + bufX - s_xStart s)) by lia.
    rewrite Ec. simpl. destruct (negb _); [|done]. by rewrite u8_small by done.
  - eapply shows_ext; [|exact Hr]. intros x y Hx Hy. simpl.
    rewrite (decide_ext _ (area x y /\ covers s x y = true)) by apply sheet_rect.
    assert (Hoc : opaque s x y = true -> covers s x y = true).
    { unfold opaque, pixel. by destruct (covers s x y). }
    destruct (opaque s x y) eqn:Eo; repeat case_decide; simpl; try done; naive_solver.
Qed.
Lemma op_sheet i s x y : (c_sheet0 c)$[i] = Some s -> op c x y i = opaque s x y.
Proof using Type. intros E. unfold op. by rewrite E. Qed.

(** The levels [zs], [zs + 1], ... of the stack. *)
Lemma level_step zs z :
  0 <= zs -> zs <= z < Z.of_nat (length stk) ->
  exists i s, (c_sheets c)$[z] = Some (Some i) /\ (c_sheet0 c)$[i] = Some s /\ buf_ok s /\ i ∈ stk
    /\ take (Z.to_nat (z + 1 - zs)) (drop (Z.to_nat zs) stk)
       = take (Z.to_nat (z - zs)) (drop (Z.to_nat zs) stk) ++ [i].
Proof using Hk.
  intros H0 Hz. destruct (lookup_lt_is_Some_2 stk (Z.to_nat z)) as [i Ei]; [lia|].
  destruct (stack_level c stk Hk _ _ Ei) as (s & E1 & E2 & B & _). rewrite Z2Nat.id in E1 by lia.
  exists i, s. split_and!; try done; [by eapply list_elem_of_lookup_2|].
  replace (Z.to_nat (z + 1 - zs)) with (S (Z.to_nat (z - zs))) by lia.
  apply take_S_r. rewrite lookup_drop. rewrite <- Ei. f_equal. lia.
Qed.

Lemma zmap_spec g zs :
  0 <= zs -> shows (c_xsize c) (c_ysize c) (c_zMap c) g ->
  exists m, sheet_update_zmap c xs ys xe ye zs = Some (c_set_zMap c m)
    /\ shows (c_xsize c) (c_ysize c) m
         (fun x y => if decide (area x y)
                     then default (g x y) (topmost (op c x y) (drop (Z.to_nat zs) stk)) else g x y).
Proof using Hk.
  intros H0 Hs. unfold sheet_update_zmap. cbv zeta. pose proof (sk_top _ _ Hk) as Ht.
  edestruct (for_range_inv' (fun z arr => shows (c_xsize c) (c_ysize c) arr (fun x y =>
      if decide (area x y)
      then default (g x y) (topmost (op c x y) (take (Z.to_nat (z - zs)) (drop (Z.to_nat zs) stk)))
      else g x y)) zs (c_zTop c + 1)) as (m & E & Hr); cycle 2.
  - rewrite E. simpl. exists m. split; [done|]. eapply shows_ext; [|exact Hr]. intros x y _ _. simpl.
    rewrite take_ge by (rewrite length_drop; lia). done.
  - eapply shows_ext; [|exact Hs]. intros x y _ _. rewrite Z.sub_diag. simpl. by case_decide.
  - intros z arr Hz Ha. destruct (level_step zs z H0 ltac:(lia)) as (i & s & E1 & E2 & B & Hi & Et).
    rewrite E1. simpl. rewrite E2. simpl.
    destruct (zmap_sheet i s _ arr E2 B (stack_id c stk Hk i Hi) Ha) as (arr' & Ep & Hp).
    exists arr'. split; [exact Ep|]. eapply shows_ext; [|exact Hp]. intros x y _ _. simpl.
    rewrite Et, topmost_app. simpl. rewrite (op_sheet i s) by done.
    destruct (opaque s x y); repeat case_decide; simpl; try done; naive_solver.
Qed.

Lemma redraw_sheet i s g v arr :
  (c_sheet0 c)$[i] = Some s -> buf_ok s -> shows (c_xsize c) (c_ysize c) (c_zMap c) g ->
  shows (c_xsize c) (c_ysize c) arr v ->
  exists arr',
    for_range (buf_from (clip (c_ysize c) (ys - 1)) (s_yStart s))
      (buf_to (clip (c_ysize c) (ye + 1)) (s_yStart s) (s_bufYsize s) + 1) (fun bufY =>
      for_range (buf_from (clip (c_xsize c) (xs - 1)) (s_xStart s))
        (buf_to (clip (c_xsize c) (xe + 1)) (s_xStart s) (s_bufXsize s) + 1) (fun bufX vram =>
        color ← (s_buf s)$[s_bufXsize s * bufY + bufX];
        top ← (c_zMap c)$[c_xsize c * (s_yStart s + bufY) + (s_xStart s + bufX)];
        if top =? i then vram$[c_xsize c * (s_yStart s + bufY) + (s_xStart s + bufX) := color]
        else Some vram)) arr = Some arr'
    /\ shows (c_xsize c) (c_ysize c) arr'
         (fun x y => if decide (area x y /\ g x y = i) then default (v x y) (pixel s x y) else v x y).
Proof using Hk.
  intros Es Hb Hg Hs. destruct (sk_size _ _ Hk) as [Hw Hh].
  edestruct (paint_rect (c_xsize c) (c_ysize c) (fun x y => if g x y =? i then pixel s x y else None)
    (s_xStart s) (s_yStart s)) as (arr' & E & Hr); [exact Hs| |exists arr'; split; [exact E|]].
  - intros bufY HY bufX HX.
    assert (Hin : area (s_xStart s + bufX) (s_yStart s + bufY) /\ covers s (s_xStart s + bufX) (s_yStart s + bufY) = true).
    { apply sheet_rect. split; [lia|]. replace (s_yStart s + bufY - s_yStart s) with bufY by lia. exact HY. }
    destruct Hin as [Ha Hc]. unfold area, in_area in Ha.
    pose proof (clip_range (c_xsize c) (xs - 1) Hw). pose proof (clip_range (c_xsize c) (xe + 1) Hw).
    pose proof (clip_range (c_ysize c) (ys - 1) Hh). pose proof (clip_range (c_ysize c) (ye + 1) Hh).
    split; [lia|]. split; [lia|]. intros a.
    destruct (pixel_Some s _ _ Hb Hc) as [col Ec]. rewrite Ec. unfold pixel in Ec. rewrite Hc in Ec.
    replace (s_bufXsize s * bufY + bufX)
      with (s_bufXsize s * (s_yStart s + bufY - s_yStart s) + (s_xStart s + bufX - s_xStart s)) by lia.
    rewrite Ec. simpl. rewrite (sw_at _ _ _ _ Hg) by lia. simpl. by destruct (_ =? i).
  - eapply shows_ext; [|exact Hr]. intros x y Hx Hy. simpl.
    rewrite (decide_ext _ (area x y /\ covers s x y = true)) by apply sheet_rect.
    assert (Hoc : covers s x y = false -> pixel s x y = None).
    { unfold pixel. by intros ->. }
    destruct (covers s x y) eqn:Ec; [|rewrite Hoc by done];
      destruct (Z.eqb_spec (g x y) i); repeat case_decide; simpl; try done; naive_solver.
Qed.

(** What the redraw of the sheets [sub] writes at a pixel that belongs to [id]. *)
Definition drawn (sub : list Z) (id x y : Z) : option Z :=
  if decide (id ∈ sub) then s ← (c_sheet0 c)$[id]; pixel s x y else None.

Lemma redraw_spec g v zs ze :
  0 <= zs -> (if ze =? -1 then c_zTop c else ze) <= c_zTop c ->
  shows (c_xsize c) (c_ysize c) (c_zMap c) g -> shows (c_xsize c) (c_ysize c) (c_vram c) v ->
  let sub := take (Z.to_nat ((if ze =? -1 then c_zTop c else ze) + 1 - zs)) (drop (Z.to_nat zs) stk) in
  exists vram, sheet_update_with_screenxy c xs ys xe ye zs ze = Some (c_set_vram c vram)
    /\ shows (c_xsize c) (c_ysize c) vram
         (fun x y => if decide (area x y) then default (v x y) (drawn sub (g x y) x y) else v x y).
Proof using Hk.
  intros H0 Hze Hg Hs sub. unfold sheet_update_with_screenxy. cbv zeta. subst sub.
  set (ze' := if ze =? -1 then c_zTop c else ze) in *. clearbody ze'. pose proof (sk_top _ _ Hk) as Ht.
  edestruct (for_range_inv' (fun z arr => shows (c_xsize c) (c_ysize c) arr (fun x y =>
      if decide (area x y)
      then default (v x y) (drawn (take (Z.to_nat (z - zs)) (drop (Z.to_nat zs) stk)) (g x y) x y)
      else v x y)) zs (ze' + 1)) as (m & E & Hr); cycle 2.
  - rewrite E. simpl. exists m. split; [done|]. eapply shows_ext; [|exact Hr]. intros x y _ _. simpl.
    replace (Z.to_nat (Z.max zs (ze' + 1) - zs)) with (Z.to_nat (ze' + 1 - zs)) by lia. done.
  - eapply shows_ext; [|exact Hs]. intros x y _ _. rewrite Z.sub_diag. simpl. by case_decide.
  - intros z arr Hz Ha. destruct (level_step zs z H0 ltac:(lia)) as (i & s & E1 & E2 & B & Hi & Et).
    rewrite E1. simpl. rewrite E2. simpl.
    destruct (redraw_sheet i s g _ arr E2 B Hg Ha) as (arr' & Ep & Hp).
    exists arr'. split; [exact Ep|]. eapply shows_ext; [|exact Hp]. intros x y _ _. simpl.
    rewrite Et. unfold drawn. destruct (decide (g x y = i)) as [Eg|Eg].
    + rewrite Eg, E2. simpl. rewrite (decide_True (P := i ∈ _ ++ [i])) by set_solver.
      destruct (decide (area x y)).
      * rewrite (decide_True (P := area x y /\ i = i)) by done.
        destruct (pixel s x y); simpl; [done|]. by case_decide.
      * by rewrite (decide_False (P := area x y /\ i = i)) by tauto.
    + rewrite (decide_False (P := area x y /\ g x y = i)) by tauto.
      rewrite (decide_ext (g x y ∈ _ ++ [i]) (g x y ∈ take (Z.to_nat (z - zs)) (drop (Z.to_nat zs) stk))); [done|].
      rewrite elem_of_app, list_elem_of_singleton. tauto.
Qed.
End loops.

(** ** The screen *)
Definition colour (c : SHTCTL) (i x y : Z) : option Z := s ← (c_sheet0 c)$[i]; pixel s x y.

(** [g] names the topmost sheets and [v] shows them, at the pixel (x, y). *)
Definition right_at (c : SHTCTL) (stk : list Z) (x y gv vv : Z) : Prop :=
  forall i, topmost (op c x y) stk = Some i -> gv = i /\ colour c i x y = Some vv.

Record screen_ok (c : SHTCTL) (stk : list Z) : Prop := {
  so_stack : stack_ok c stk;
  so_right : exists g v, shows (c_xsize c) (c_ysize c) (c_zMap c) g
    /\ shows (c_xsize c) (c_ysize c) (c_vram c) v
    /\ forall x y, 0 <= x < c_xsize c -> 0 <= y < c_ysize c -> right_at c stk x y (g x y) (v x y)
}.

Lemma stack_set_zMap c stk m : stack_ok c stk -> stack_ok (c_set_zMap c m) stk.
Proof. intros [S T L A]. by constructor. Qed.

Lemma stack_set_vram c stk m : stack_ok c stk -> stack_ok (c_set_vram c m) stk.
Proof. intros [S T L A]. by constructor. Qed.

Lemma topmost_cons_mid t l1 i l2 :
  topmost t (l1 ++ i :: l2)
  = match topmost t l2 with Some j => Some j | None => if t i then Some i else topmost t l1 end.
Proof. rewrite topmost_app. simpl. by destruct (topmost t l2), (t i). Qed.

Section area_update.
Context (c : SHTCTL).

Lemma drawn_colour sub id x y : id ∈ sub -> drawn c sub id x y = colour c id x y.
Proof using Type. intros H. unfold drawn. by rewrite decide_True. Qed.

Lemma drawn_other sub id x y : id ∉ sub -> drawn c sub id x y = None.
Proof using Type. intros H. unfold drawn. by rewrite decide_False. Qed.
End area_update.

(** A sheet that changes, with everything else in place. *)
Section change.
Context (c c1 : SHTCTL) (i : Z) (s s1 : SHEET).
Context (Es : (c_sheet0 c)$[i] = Some s).
Context (E1 : c_sheet0 c1 = <[Z.to_nat i := s1]> (c_sheet0 c)).

Lemma sheet_change j : (c_sheet0 c1)$[j] = if decide (i = j) then Some s1 else (c_sheet0 c)$[j].
Proof using Es E1. rewrite E1. apply lookupZ_insert. by eapply lookupZ_lt. Qed.

Lemma op_other x y j : j <> i -> op c1 x y j = op c x y j.
Proof using Es E1. intros. unfold op. by rewrite sheet_change, decide_False by done. Qed.

Lemma op_changed x y : op c1 x y i = opaque s1 x y.
Proof using Es E1. unfold op. by rewrite sheet_change, decide_True by done. Qed.

Lemma colour_other x y j : j <> i -> colour c1 j x y = colour c j x y.
Proof using Es E1. intros. unfold colour. by rewrite sheet_change, decide_False by done. Qed.

Lemma topmost_other x y l : i ∉ l -> topmost (op c1 x y) l = topmost (op c x y) l.
Proof using Es E1. intros H. apply topmost_ext. intros j Hj. apply op_other. by intros ->. Qed.
End change.

Lemma opaque_covers s x y : opaque s x y = true -> covers s x y = true.
Proof. unfold opaque, pixel. by destruct (covers s x y). Qed.

Lemma opaque_pixel s x y : opaque s x y = true -> is_Some (pixel s x y).
Proof. unfold opaque. destruct (pixel s x y); [by eexists|done]. Qed.

Lemma colour_top c stk x y i : topmost (op c x y) stk = Some i -> is_Some (colour c i x y).
Proof.
  intros [_ H]%topmost_elem. unfold op in H. unfold colour.
  destruct ((c_sheet0 c)$[i]) as [s|]; [|done]. by apply opaque_pixel.
Qed.

(** ** Moving a sheet *)
Section slide.
Context (c c1 : SHTCTL) (i : Z) (s s1 : SHEET) (l1 l2 : list Z).
Context (Es : (c_sheet0 c)$[i] = Some s).
Context (E1 : c_sheet0 c1 = <[Z.to_nat i := s1]> (c_sheet0 c)).
Context (N1 : i ∉ l1) (N2 : i ∉ l2).

(** At one pixel: [old] and [new] say whether it lies in the area that the sheet
    leaves and in the one it reaches. *)
Lemma slide_pixel x y g v (old new : bool) sub g1 g2 v1 v2 :
  (opaque s x y = true -> old = true) -> (opaque s1 x y = true -> new = true) ->
  (sub = l1 \/ (l1 = [] /\ sub = l1 ++ i :: l2)) ->
  g1 = (if old then default g (topmost (op c1 x y) (l1 ++ i :: l2)) else g) ->
  g2 = (if new then default g1 (topmost (op c1 x y) (i :: l2)) else g1) ->
  v1 = (if old then default v (drawn c1 sub g2 x y) else v) ->
  v2 = (if new then default v1 (drawn c1 [i] g2 x y) else v1) ->
  right_at c (l1 ++ i :: l2) x y g v -> right_at c1 (l1 ++ i :: l2) x y g2 v2.
Proof using Es E1 N1 N2.
  intros Hold Hnew Hsub Eg1 Eg2 Ev1 Ev2 Hr j Hj.
  pose proof (topmost_other c c1 i s s1 Es E1 x y l1 N1) as O1.
  pose proof (topmost_other c c1 i s s1 Es E1 x y l2 N2) as O2.
  pose proof (op_changed c c1 i s s1 Es E1 x y) as Oi.
  assert (Oi0 : op c x y i = opaque s x y) by (unfold op; by rewrite Es).
  destruct (colour_top _ _ _ _ _ Hj) as [col Ec].
  assert (G2 : g2 = j).
  { rewrite Eg2, Eg1. unfold right_at in Hr. cbn [topmost]. rewrite topmost_cons_mid in *.
    rewrite Oi, O1, O2, Oi0 in *.
    destruct (topmost (op c x y) l2) as [k|] eqn:T2.
    - injection Hj as <-. destruct (Hr k eq_refl) as [-> _]. by destruct new, old.
    - destruct (opaque s1 x y) eqn:P1.
      + injection Hj as <-. by rewrite Hnew by done.
      + rewrite Hj in *. destruct new; destruct old; simpl; try done;
          (destruct (opaque s x y) eqn:P; [by specialize (Hold eq_refl)|]; by destruct (Hr j eq_refl) as [-> _]). }
  split; [done|]. rewrite Ec. f_equal.
  destruct (decide (j = i)) as [->|Hji].
  - assert (new = true) as ->.
    { apply Hnew. rewrite <- Oi. by apply topmost_elem in Hj as [_ ?]. }
    rewrite Ev2, G2, drawn_colour by set_solver. by rewrite Ec.
  - assert (V2 : v2 = v1).
    { rewrite Ev2, G2, drawn_other by set_solver. by destruct new. }
    rewrite V2, Ev1, G2.
    destruct (decide (j ∈ sub)) as [Hin|Hin].
    + rewrite drawn_colour, Ec by done. destruct old; [done|].
      apply (inj Some). rewrite <- Ec, (colour_other c c1 i s s1) by done. apply Hr.
      rewrite topmost_cons_mid in *. rewrite Oi0, <- O1, <- O2. rewrite Oi in Hj.
      destruct (topmost (op c1 x y) l2) as [k|]; [done|].
      destruct (opaque s1 x y); [congruence|].
      destruct (opaque s x y); [by specialize (Hold eq_refl)|done].
    + rewrite drawn_other by done. assert (Hv : colour c j x y = Some v).
      { apply Hr. rewrite topmost_cons_mid in *. rewrite Oi0, <- O1, <- O2. rewrite Oi in Hj.
        destruct (topmost (op c1 x y) l2) as [k|]; [done|].
        exfalso. destruct (opaque s1 x y); [congruence|].
        destruct (opaque s x y) eqn:P.
        - apply topmost_elem in Hj as [Hj _]. destruct Hsub as [->|[-> ->]]; set_solver.
        - apply topmost_elem in Hj as [Hj _]. destruct Hsub as [->|[-> ->]]; set_solver. }
      rewrite (colour_other c c1 i s s1) in Ec by done. destruct old; simpl; congruence.
Qed.
End slide.

Lemma upd_sheet_eq c i s f :
  (c_sheet0 c)$[i] = Some s -> upd_sheet c i f = Some (c_set_sheet0 c (<[Z.to_nat i := f s]> (c_sheet0 c))).
Proof.
  intros E. unfold upd_sheet. rewrite E. simpl. by rewrite updateZ_in by (by eapply lookupZ_lt).
Qed.

(** Changing a sheet, but not its level or the size of its buffer. *)
Lemma stack_change c stk i s s1 :
  stack_ok c stk -> (c_sheet0 c)$[i] = Some s -> s_z s1 = s_z s -> (buf_ok s -> buf_ok s1) ->
  stack_ok (c_set_sheet0 c (<[Z.to_nat i := s1]> (c_sheet0 c))) stk.
Proof.
  intros [S T [L1 L2] A] Es Ez Hb. constructor; simpl; try done; [by rewrite length_insert|].
  intros k j Hj. destruct (A k j Hj) as (Ec & t & Et & Etz & B). split; [done|].
  rewrite lookupZ_insert by (by eapply lookupZ_lt). case_decide as Hd; [|by exists t].
  subst j. rewrite Es in Et. injection Et as <-. exists s1. rewrite Ez. auto.
Qed.

Lemma stack_split c stk i s :
  stack_ok c stk -> i ∈ stk -> (c_sheet0 c)$[i] = Some s ->
  exists l1 l2, stk = l1 ++ i :: l2 /\ i ∉ l1 /\ i ∉ l2 /\ s_z s = Z.of_nat (length l1).
Proof.
  intros Hk Hi Es. apply list_elem_of_split in Hi as (l1 & l2 & ->). exists l1, l2.
  pose proof (stack_nodup _ _ Hk) as ND. apply list.NoDup_app in ND as (_ & Hd & ND).
  apply list.NoDup_cons in ND as [N2 _]. split_and!; try done.
  - intros H. by apply (Hd i H); apply elem_of_cons; left.
  - destruct (stack_level _ _ Hk (length l1) i) as (t & _ & Et & _ & Ez); [by apply list_lookup_middle|].
    rewrite Es in Et. by injection Et as <-.
Qed.

Lemma if_decide {A} (P : Prop) `{Decision P} (a b : A) :
  (if decide P then a else b) = if bool_decide P then a else b.
Proof. by rewrite bool_decide_decide; destruct (decide P). Qed.

(** The sheets of the levels below [i], and of its own level. *)
Lemma sub_below (l1 l2 : list Z) i (top : Z) :
  top = Z.of_nat (length (l1 ++ i :: l2)) - 1 ->
  let ze := Z.of_nat (length l1) - 1 in
  let sub := take (Z.to_nat ((if ze =? -1 then top else ze) + 1 - 0)) (drop (Z.to_nat 0) (l1 ++ i :: l2)) in
  sub = l1 \/ (l1 = [] /\ sub = l1 ++ i :: l2).
Proof.
  intros Ht. simpl. destruct (Z.eqb_spec (Z.of_nat (length l1) - 1) (-1)).
  - right. assert (l1 = []) as -> by (destruct l1; [done|simpl in *; lia]). split; [done|].
    rewrite drop_0. apply take_ge. lia.
  - left. rewrite drop_0. replace (Z.to_nat _) with (length l1) by lia. apply take_app_length.
Qed.

Lemma sub_own (l1 l2 : list Z) i (top : Z) :
  let ze := Z.of_nat (length l1) in
  take (Z.to_nat ((if ze =? -1 then top else ze) + 1 - ze)) (drop (Z.to_nat ze) (l1 ++ i :: l2)) = [i].
Proof.
  simpl. destruct (Z.eqb_spec (Z.of_nat (length l1)) (-1)); [lia|].
  rewrite Nat2Z.id, drop_app_length. by replace (Z.to_nat _) with 1%nat by lia.
Qed.

Lemma slide_ok c stk i s xDst yDst :
  screen_ok c stk -> i ∈ stk -> (c_sheet0 c)$[i] = Some s ->
  exists c', sheet_slide c i xDst yDst = Some c' /\ screen_ok c' stk
    /\ c_sheet0 c' = <[Z.to_nat i := s_set_pos s xDst yDst]> (c_sheet0 c) /\ c_sheets c' = c_sheets c
    /\ c_zTop c' = c_zTop c.
Proof.
  intros [Hk (g & v & Hg & Hv & Hr)] Hi Es.
  destruct (stack_split _ _ _ _ Hk Hi Es) as (l1 & l2 & -> & N1 & N2 & Ez).
  unfold sheet_slide. rewrite Es, bind_Some_eq, (upd_sheet_eq _ _ _ _ Es), bind_Some_eq.
  set (s1 := s_set_pos s xDst yDst). set (c1 := c_set_sheet0 c (<[Z.to_nat i := s1]> (c_sheet0 c))).
  assert (K1 : stack_ok c1 (l1 ++ i :: l2)) by (by apply (stack_change _ _ _ s)).
  pose proof (sk_top _ _ K1) as Ht. rewrite length_app in Ht. simpl in Ht.
  rewrite Ez. destruct (Z.ltb_spec (Z.of_nat (length l1)) 0); [lia|].
  destruct (zmap_spec c1 _ K1 (s_xStart s) (s_yStart s) (s_xStart s + s_bufXsize s) (s_yStart s + s_bufYsize s)
    g 0 ltac:(lia) Hg) as (m1 & -> & G1). rewrite bind_Some_eq.
  pose proof (stack_set_zMap _ _ m1 K1) as K2.
  destruct (zmap_spec _ _ K2 xDst yDst (xDst + s_bufXsize s) (yDst + s_bufYsize s) _
    (Z.of_nat (length l1)) ltac:(lia) G1) as (m2 & -> & G2). rewrite bind_Some_eq.
  pose proof (stack_set_zMap _ _ m2 K2) as K3.
  destruct (redraw_spec _ _ K3 (s_xStart s) (s_yStart s) (s_xStart s + s_bufXsize s) (s_yStart s + s_bufYsize s)
    _ _ 0 (Z.of_nat (length l1) - 1) ltac:(lia)
    ltac:(simpl; destruct (Z.eqb_spec (Z.of_nat (length l1) - 1) (-1)); lia) G2 Hv) as (v1 & -> & V1).
  rewrite bind_Some_eq. pose proof (stack_set_vram _ _ v1 K3) as K4.
  destruct (redraw_spec _ _ K4 xDst yDst (xDst + s_bufXsize s) (yDst + s_bufYsize s) _ _
    (Z.of_nat (length l1)) (Z.of_nat (length l1)) ltac:(lia)
    ltac:(simpl; destruct (Z.eqb_spec (Z.of_nat (length l1)) (-1)); lia) G2 V1) as (v2 & -> & V2).
  eexists. split; [done|]. split; [|by split_and!].
  split; [by apply stack_set_vram|]. eexists _, _. split; [exact G2|]. split; [exact V2|].
  intros x y Hx Hy. simpl in Hx, Hy. specialize (Hr x y Hx Hy).
  set (old := bool_decide (in_area c1 (s_xStart s) (s_yStart s) (s_xStart s + s_bufXsize s)
                             (s_yStart s + s_bufYsize s) x y)).
  set (new := bool_decide (in_area c1 xDst yDst (xDst + s_bufXsize s) (yDst + s_bufYsize s) x y)).
  eapply (slide_pixel c c1 i s s1 l1 l2 Es eq_refl N1 N2 x y (g x y) (v x y) old new); [..|exact Hr].
  - intros Ho%opaque_covers. apply bool_decide_eq_true. by apply (covers_in_area c).
  - intros Ho%opaque_covers. apply bool_decide_eq_true. by apply (covers_in_area c s1).
  - apply (sub_below l1 l2 i (c_zTop c)). simpl in Ht. rewrite length_app. simpl. lia.
  - reflexivity.
  - rewrite !if_decide, Nat2Z.id, drop_app_length. reflexivity.
  - reflexivity.
  - rewrite sub_own, !if_decide. reflexivity.
Qed.

(** ** Changing the order *)

(** The levels are the only difference between two states of the sheets. *)
Definition same_look (c c1 : SHTCTL) : Prop :=
  forall j, match (c_sheet0 c)$[j] with
            | Some s => exists z, (c_sheet0 c1)$[j] = Some (s_set_z s z)
            | None => (c_sheet0 c1)$[j] = None
            end.

Lemma look_op c c1 x y j : same_look c c1 -> op c1 x y j = op c x y j.
Proof.
  intros H. specialize (H j). unfold op. destruct ((c_sheet0 c)$[j]) as [s|]; [|by rewrite H].
  by destruct H as [z ->].
Qed.

Lemma look_colour c c1 x y j : same_look c c1 -> colour c1 j x y = colour c j x y.
Proof.
  intros H. specialize (H j). unfold colour. destruct ((c_sheet0 c)$[j]) as [s|]; [|by rewrite H].
  by destruct H as [z ->].
Qed.

Lemma look_topmost c c1 x y l : same_look c c1 -> topmost (op c1 x y) l = topmost (op c x y) l.
Proof. intros H. apply topmost_ext. intros. by apply look_op. Qed.

Section order.
Context (c c1 : SHTCTL) (i : Z) (x y : Z) (Hl : same_look c c1).

(** A sheet disappears: everything below it is redrawn. *)
Lemma hide_pixel l1 l2 g v (old : bool) sub g1 v1 :
  (op c x y i = true -> old = true) -> (sub = l1 \/ (l1 = [] /\ sub = l1 ++ l2)) ->
  g1 = (if old then default g (topmost (op c1 x y) (l1 ++ l2)) else g) ->
  v1 = (if old then default v (drawn c1 sub g1 x y) else v) ->
  right_at c (l1 ++ i :: l2) x y g v -> right_at c1 (l1 ++ l2) x y g1 v1.
Proof using Hl.
  intros Hold Hsub Eg1 Ev1 Hr j Hj. destruct (colour_top _ _ _ _ _ Hj) as [col Ec].
  rewrite (look_topmost c c1) in Hj by done. rewrite (look_topmost c c1) in Eg1 by done. unfold right_at in Hr. rewrite topmost_cons_mid in Hr.
  assert (Hc : old = false \/ topmost (op c x y) l2 = Some j -> g = j /\ colour c j x y = Some v).
  { rewrite topmost_app in Hj. intros [Ho|Ho].
    - apply Hr. destruct (topmost (op c x y) l2); [done|].
      destruct (op c x y i); [|done]. by specialize (Hold eq_refl); subst.
    - apply Hr. by rewrite Ho. }
  assert (G1 : g1 = j) by (rewrite Eg1, Hj; destruct old; [done|by apply Hc; left]).
  split; [done|]. rewrite Ec. f_equal. rewrite Ev1, G1. destruct old.
  - destruct (decide (j ∈ sub)) as [Hin|Hin]; [by rewrite drawn_colour, Ec|].
    rewrite drawn_other by done. rewrite (look_colour c c1) in Ec by done. simpl.
    destruct Hc as [_ Hv]; [|congruence]. right. rewrite topmost_app in Hj.
    destruct (topmost (op c x y) l2) as [k|] eqn:E2; [done|].
    apply topmost_elem in Hj as [Hj _]. exfalso. destruct Hsub as [->|[-> ->]]; set_solver.
  - rewrite (look_colour c c1) in Ec by done. destruct Hc as [_ Hv]; [by left|congruence].
Qed.

(** A sheet appears, or rises, between [l] and [l3]; [o] is the order before. *)
Lemma place_pixel o l l3 g v (area : bool) g1 v1 :
  (op c x y i = true -> area = true) -> i ∉ l3 ->
  (forall k, topmost (op c x y) l3 = Some k -> topmost (op c x y) o = Some k) ->
  (op c x y i = false -> topmost (op c x y) l3 = None -> topmost (op c x y) o = topmost (op c x y) l) ->
  g1 = (if area then default g (topmost (op c1 x y) (i :: l3)) else g) ->
  v1 = (if area then default v (drawn c1 [i] g1 x y) else v) ->
  right_at c o x y g v -> right_at c1 (l ++ i :: l3) x y g1 v1.
Proof using Hl.
  intros Ha N3 Ho3 Hol Eg1 Ev1 Hr j Hj. destruct (colour_top _ _ _ _ _ Hj) as [col Ec].
  rewrite (look_topmost c c1) in Hj by done. rewrite (look_topmost c c1) in Eg1 by done. rewrite topmost_cons_mid in Hj. cbn [topmost] in Eg1.
  destruct (topmost (op c x y) l3) as [k|] eqn:E3.
  - injection Hj as ->. destruct (Hr j (Ho3 j eq_refl)) as [-> Hv].
    assert (g1 = j) as -> by (rewrite Eg1; by destruct area). split; [done|].
    assert (j <> i) by (intros ->; by apply topmost_elem in E3 as [? _]).
    rewrite Ev1, (look_colour c c1), Hv, drawn_other by (try done; set_solver). by destruct area.
  - destruct (op c x y i) eqn:Ei.
    + injection Hj as <-. rewrite Ha in * by done. simpl in *. subst g1. split; [done|].
      rewrite Ev1, drawn_colour by set_solver. by rewrite Ec.
    + assert (j <> i) by (intros ->; apply topmost_elem in Hj as [_ ?]; congruence).
      destruct (Hr j) as [-> Hv]; [by rewrite Hol by done|].
      assert (g1 = j) as -> by (rewrite Eg1; by destruct area). split; [done|].
      rewrite Ev1, (look_colour c c1), Hv, drawn_other by (try done; set_solver). by destruct area.
Qed.
End order.

(** ** The loop that moves the levels down by one *)
Definition with_order (c : SHTCTL) (l : list (option Z)) (s0 : list SHEET) : SHTCTL :=
  c_set_sheets (c_set_sheet0 c s0) l.

Section pull_down.
Context (c : SHTCTL) (stk : list Z) (ND : NoDup stk).
Context (Hs : forall k i, stk !! k = Some i -> c_sheets c !! k = Some (Some i) /\ is_Some ((c_sheet0 c)$[i])).
Context (a b : nat) (Hab : (a <= b < length stk)%nat).

(** The levels [a..z-1] hold what was one level above. *)
Record pulled (z : nat) (l : list (option Z)) (s0 : list SHEET) : Prop := {
  pl_len : length l = length (c_sheets c) /\ length s0 = length (c_sheet0 c);
  pl_sheets : forall k, l !! k = if decide (a <= k < z)%nat then c_sheets c !! S k else c_sheets c !! k;
  pl_moved : forall p j s, stk !! p = Some j -> (a < p <= z)%nat -> (c_sheet0 c)$[j] = Some s ->
    s0$[j] = Some (s_set_z s (Z.of_nat p - 1));
  pl_rest : forall j, (forall p, (a < p <= z)%nat -> stk !! p <> Some j) -> s0$[j] = (c_sheet0 c)$[j]
}.

Lemma pull_step z l s0 :
  (a <= z < b)%nat -> pulled z l s0 ->
  exists l' s0', pull (with_order c l s0) (Z.of_nat z) (Z.of_nat z + 1) = Some (with_order c l' s0')
    /\ pulled (S z) l' s0'.
Proof using ND Hs Hab.
  intros Hz [[L1 L2] Pl Pm Pr]. destruct (lookup_lt_is_Some_2 stk (S z)) as [j Ej]; [lia|].
  destruct (Hs _ _ Ej) as [Ec [s Es]].
  assert (Es0 : s0$[j] = Some s).
  { rewrite <- Es. apply Pr. intros p Hp Ep. pose proof (NoDup_lookup _ _ _ _ ND Ej Ep). lia. }
  unfold pull. simpl. replace (Z.of_nat z + 1) with (Z.of_nat (S z)) by lia.
  rewrite lookupZ_nat, Pl, decide_False, Ec by lia. simpl.
  assert (Hlen : (z < length l)%nat) by (apply lookup_lt_Some in Ec; lia).
  rewrite updateZ_nat by done. simpl. rewrite (upd_sheet_eq _ j s) by done.
  exists (<[z := Some j]> l), (<[Z.to_nat j := s_set_z s (Z.of_nat z)]> s0). split; [reflexivity|]. constructor.
  - split; rewrite length_insert; done.
  - intros k. destruct (decide (k = z)) as [->|Hk].
    + rewrite list_lookup_insert_eq by done. by rewrite decide_True by lia.
    + rewrite list_lookup_insert_ne by done. rewrite Pl. repeat case_decide; try done; lia.
  - intros p j' s' Ep Hp Es'. rewrite lookupZ_insert by (by eapply lookupZ_lt).
    case_decide as Hd.
    + subst j'. pose proof (NoDup_lookup _ _ _ _ ND Ej Ep) as <-. rewrite Es in Es'. injection Es' as <-.
      do 2 f_equal. lia.
    + apply Pm; try done. assert (p <> S z) by (intros ->; congruence). lia.
  - intros j' Hj. rewrite lookupZ_insert by (by eapply lookupZ_lt). case_decide as Hd.
    + subst j'. by destruct (Hj (S z) ltac:(lia)).
    + apply Pr. intros p Hp. apply Hj. lia.
Qed.

Lemma pull_down :
  exists l s0, for_range (Z.of_nat a) (Z.of_nat b) (fun z ct => pull ct z (z + 1)) c = Some (with_order c l s0)
    /\ pulled b l s0.
Proof using ND Hs Hab.
  destruct (for_range_inv (fun z ct => exists l s0, ct = with_order c l s0 /\ pulled (Z.to_nat z) l s0)
    (Z.of_nat a) (Z.of_nat b) (fun z ct => pull ct z (z + 1)) c) as (c' & E & l & s0 & -> & Hp).
  - lia.
  - exists (c_sheets c), (c_sheet0 c). split; [by destruct c|]. rewrite Nat2Z.id. constructor; try done.
    + intros k. by rewrite decide_False by lia.
    + intros p j s Ep Hp. lia.
  - intros z ct Hz (l & s0 & -> & Hp). destruct (pull_step (Z.to_nat z) l s0) as (l' & s0' & E & Hp'); [lia|done|].
    rewrite Z2Nat.id in E by lia. exists (with_order c l' s0'). split; [done|]. exists l', s0'. split; [done|].
    by replace (Z.to_nat (z + 1)) with (S (Z.to_nat z)) by lia.
  - exists l, s0. split; [done|]. by rewrite Nat2Z.id in Hp.
Qed.
End pull_down.

(** The sheets of [l2] move one level down, onto the level of [i]. *)
Section reorder.
Context (c0 : SHTCTL) (l1 l2 l3 : list Z) (i : Z) (s : SHEET) (zn : Z).
Context (Hk : stack_ok c0 (l1 ++ i :: l2 ++ l3)) (Es : (c_sheet0 c0)$[i] = Some s).
Let c := c_set_sheet0 c0 (<[Z.to_nat i := s_set_z s zn]> (c_sheet0 c0)).

Definition at_level (l : list (option Z)) (s0 : list SHEET) (k : nat) (j : Z) : Prop :=
  l !! k = Some (Some j) /\ exists t, s0$[j] = Some t /\ s_z t = Z.of_nat k /\ buf_ok t.

Lemma reorder :
  exists l s0,
    for_range (Z.of_nat (length l1)) (Z.of_nat (length l1 + length l2)) (fun z ct => pull ct z (z + 1)) c
      = Some (with_order c l s0)
    /\ same_look c0 (with_order c l s0)
    /\ (length l = Z.to_nat OS_VGA_MAX_SHEETS /\ length s0 = Z.to_nat OS_VGA_MAX_SHEETS)
    /\ (forall k j, (l1 ++ l2) !! k = Some j -> at_level l s0 k j)
    /\ (forall k j, l3 !! k = Some j -> at_level l s0 (S (length l1 + length l2) + k) j)
    /\ s0$[i] = Some (s_set_z s zn).
Proof using Hk Es.
  set (stk := l1 ++ i :: l2 ++ l3) in *. pose proof (stack_nodup _ _ Hk) as ND.
  assert (Hc : forall j, (c_sheet0 c)$[j] = if decide (i = j) then Some (s_set_z s zn) else (c_sheet0 c0)$[j]).
  { intros j. apply lookupZ_insert. by eapply lookupZ_lt. }
  assert (Hi : stk !! length l1 = Some i) by (by apply list_lookup_middle).
  assert (Hne : forall p j, stk !! p = Some j -> p <> length l1 -> i <> j).
  { intros p j Hp Hn ->. apply Hn. by eapply NoDup_lookup. }
  assert (Hlen : length stk = (length l1 + S (length l2 + length l3))%nat)
    by (unfold stk; rewrite length_app; simpl; by rewrite length_app).
  destruct (pull_down c stk ND) with (a := length l1) (b := (length l1 + length l2)%nat)
    as (l & s0 & E & [[L1 L2] Pl Pm Pr]).
  { intros k j Hj. destruct (sk_at _ _ Hk k j Hj) as (Ec & t & Et & _). split; [done|].
    rewrite Hc. case_decide; [by eexists|]. by exists t. }
  { lia. }
  assert (H12 : forall q j, l2 !! q = Some j -> stk !! (S (length l1) + q)%nat = Some j).
  { intros q j Hq. unfold stk. rewrite lookup_app_r by lia.
    replace (S (length l1) + q - length l1)%nat with (S q) by lia. simpl. by apply lookup_app_l_Some. }
  assert (Hrest : forall p j, stk !! p = Some j -> (p < length l1 \/ length l1 + length l2 < p)%nat ->
                  s0$[j] = (c_sheet0 c0)$[j]).
  { intros p j Hj Hp. rewrite Pr.
    - rewrite Hc, decide_False; [done|]. apply (Hne p); [done|lia].
    - intros p' Hp' Hj'. pose proof (NoDup_lookup _ _ _ _ ND Hj Hj'). lia. }
  assert (Hsi : s0$[i] = Some (s_set_z s zn)).
  { rewrite Pr, Hc, decide_True; [done..|]. intros p Hp Hj.
    pose proof (NoDup_lookup _ _ _ _ ND Hi Hj). lia. }
  exists l, s0. split; [done|]. split_and!; try done.
  - intros j. simpl. destruct (decide (i = j)) as [<-|Hij].
    { rewrite Es. by exists zn. }
    destruct (decide (j ∈ l2)) as [[q Hq]%list_elem_of_lookup|Hj].
    + pose proof (H12 _ _ Hq) as Hp. destruct (sk_at _ _ Hk _ _ Hp) as (_ & t & Et & _). rewrite Et.
      eexists. apply (Pm (S (length l1) + q)%nat); [done| |].
      * apply lookup_lt_Some in Hq. lia.
      * by rewrite Hc, decide_False.
    + assert (Eq : s0$[j] = (c_sheet0 c0)$[j]).
      { rewrite Pr; [by rewrite Hc, decide_False|]. intros p Hp Hpj. apply Hj. unfold stk in Hpj.
        rewrite lookup_app_r in Hpj by lia. destruct (p - length l1)%nat as [|q] eqn:Eq; [lia|]. simpl in Hpj.
        rewrite lookup_app_l in Hpj by lia. by eapply list_elem_of_lookup_2. }
      rewrite Eq. destruct ((c_sheet0 c0)$[j]) as [t|]; [|done]. exists (s_z t). by destruct t.
  - rewrite L1. apply (sk_len _ _ Hk).
  - rewrite L2. unfold c. simpl. rewrite length_insert. apply (sk_len _ _ Hk).
  - intros k j Hj. apply lookup_app_Some in Hj as [Hj|[Hle Hj]].
    + assert (Hp : stk !! k = Some j) by (by apply lookup_app_l_Some). apply lookup_lt_Some in Hj.
      destruct (sk_at _ _ Hk _ _ Hp) as (Ec & t & Et & Ez & B). split.
      * rewrite Pl, decide_False by lia. done.
      * exists t. rewrite (Hrest k) by (done || lia). done.
    + pose proof (H12 _ _ Hj) as Hp. apply lookup_lt_Some in Hj.
      replace (S (length l1) + (k - length l1))%nat with (S k) in Hp by lia.
      destruct (sk_at _ _ Hk _ _ Hp) as (Ec & t & Et & Ez & B). split.
      * rewrite Pl, decide_True by lia. done.
      * exists (s_set_z t (Z.of_nat (S k) - 1)). rewrite (Pm (S k) j t); [|done|lia|].
        -- split; [done|]. split; [simpl; lia|done].
        -- rewrite Hc, decide_False; [done|]. apply (Hne (S k)); [done|lia].
  - intros k j Hj. assert (Hp : stk !! (S (length l1 + length l2) + k)%nat = Some j).
    { unfold stk. rewrite lookup_app_r by lia.
      replace (S (length l1 + length l2) + k - length l1)%nat with (S (length l2 + k)) by lia. simpl.
      rewrite lookup_app_r by lia. rewrite <- Hj. f_equal. lia. }
    destruct (sk_at _ _ Hk _ _ Hp) as (Ec & t & Et & Ez & B). split.
    + rewrite Pl, decide_False by lia. done.
    + exists t. rewrite (Hrest _ j Hp) by lia. done.
Qed.
End reorder.

(** ** Hiding, raising and showing a sheet *)

(** Only the sheets, their order and their number differ. *)
Definition same_screen (c c1 : SHTCTL) : Prop :=
  c_vram c1 = c_vram c /\ c_zMap c1 = c_zMap c /\ c_xsize c1 = c_xsize c /\ c_ysize c1 = c_ysize c.

Lemma op_in_area c i s x y :
  (c_sheet0 c)$[i] = Some s -> 0 <= x < c_xsize c -> 0 <= y < c_ysize c -> op c x y i = true ->
  in_area c (s_xStart s) (s_yStart s) (s_xStart s + s_bufXsize s) (s_yStart s + s_bufYsize s) x y.
Proof.
  intros Es Hx Hy Ho. apply covers_in_area; [done..|]. apply opaque_covers. unfold op in Ho. by rewrite Es in Ho.
Qed.

Lemma in_area_same c c1 xs ys xe ye x y :
  same_screen c c1 -> in_area c xs ys xe ye x y -> in_area c1 xs ys xe ye x y.
Proof. intros (_ & _ & E1 & E2). unfold in_area. by rewrite E1, E2. Qed.

(** The drawing that follows when [i] is put between [l] and [l3]. *)
Lemma place_ok c c3 o l l3 i s :
  screen_ok c o -> stack_ok c3 (l ++ i :: l3) -> same_look c c3 -> same_screen c c3 ->
  (c_sheet0 c)$[i] = Some s ->
  (forall t k, topmost t l3 = Some k -> topmost t o = Some k) ->
  (forall t, t i = false -> topmost t l3 = None -> topmost t o = topmost t l) ->
  exists c', (ct ← zmap_area c3 s (Z.of_nat (length l));
              redraw_area ct s (Z.of_nat (length l)) (Z.of_nat (length l))) = Some c'
    /\ screen_ok c' (l ++ i :: l3) /\ c_sheet0 c' = c_sheet0 c3.
Proof.
  intros [Hk (g & v & Hg & Hv & Hr)] K3 Hl Hsc Es Ho3 Hol. pose proof Hsc as (Ev & Em & Ex & Ey).
  rewrite <- Ex, <- Ey, <- Em in Hg. rewrite <- Ex, <- Ey, <- Ev in Hv.
  unfold zmap_area, redraw_area.
  set (xe := s_xStart s + s_bufXsize s). set (ye := s_yStart s + s_bufYsize s).
  destruct (zmap_spec c3 _ K3 (s_xStart s) (s_yStart s) xe ye g (Z.of_nat (length l)) ltac:(lia) Hg)
    as (m & -> & G). rewrite bind_Some_eq.
  pose proof (stack_set_zMap _ _ m K3) as K4. pose proof (sk_top _ _ K3) as Ht. rewrite length_app in Ht. simpl in Ht.
  destruct (redraw_spec _ _ K4 (s_xStart s) (s_yStart s) xe ye _ _ (Z.of_nat (length l)) (Z.of_nat (length l))
    ltac:(lia) ltac:(simpl; destruct (Z.eqb_spec (Z.of_nat (length l)) (-1)); lia) G Hv) as (vr & -> & V).
  eexists. split; [done|]. split; [|done]. split; [by apply stack_set_vram|].
  eexists _, _. split; [exact G|]. split; [exact V|].
  intros x y Hx Hy. simpl in Hx, Hy. rewrite Ex in Hx. rewrite Ey in Hy. specialize (Hr x y Hx Hy).
  pose proof (stack_nodup _ _ K3) as ND. apply list.NoDup_app in ND as (_ & _ & ND).
  apply list.NoDup_cons in ND as [N3 _].
  eapply (place_pixel c c3 i x y Hl o l l3 (g x y) (v x y)
            (bool_decide (in_area c3 (s_xStart s) (s_yStart s) xe ye x y))); [..|exact Hr].
  - intros Ho. apply bool_decide_eq_true. apply (in_area_same c); [done|]. by apply (op_in_area c i s).
  - done.
  - apply Ho3.
  - apply Hol.
  - rewrite if_decide, Nat2Z.id, drop_app_length. reflexivity.
  - rewrite sub_own, !if_decide, Nat2Z.id, drop_app_length. reflexivity.
Qed.

Lemma order_look c c1 : c_sheet0 c1 = c_sheet0 c -> same_look c c1.
Proof.
  intros E j. rewrite E. destruct ((c_sheet0 c)$[j]) as [t|]; [|done]. exists (s_z t). by destruct t.
Qed.

(** A stack is given level by level. *)
Lemma stack_levels c stk l s0 :
  0 < c_xsize c /\ 0 < c_ysize c -> c_zTop c = Z.of_nat (length stk) - 1 ->
  length l = Z.to_nat OS_VGA_MAX_SHEETS /\ length s0 = Z.to_nat OS_VGA_MAX_SHEETS ->
  (forall k j, stk !! k = Some j -> at_level l s0 k j) ->
  c_sheets c = l -> c_sheet0 c = s0 -> stack_ok c stk.
Proof. intros S T L A <- <-. constructor; try done. Qed.

Lemma at_level_put l s0 k n j i :
  at_level l s0 k j -> k <> n -> at_level (<[n := Some i]> l) s0 k j.
Proof. intros [E H] Hn. split; [by rewrite list_lookup_insert_ne|done]. Qed.

Lemma raise_ok c l1 l2 l3 i s :
  screen_ok c (l1 ++ i :: l2 ++ l3) -> l2 <> [] -> (c_sheet0 c)$[i] = Some s ->
  exists c', sheet_updown c i (Z.of_nat (length l1 + length l2)) = Some c'
    /\ screen_ok c' ((l1 ++ l2) ++ i :: l3) /\ same_look c c'.
Proof.
  intros Hso Hne Es. pose proof (so_stack _ _ Hso) as Hk.
  set (zn := Z.of_nat (length l1 + length l2)).
  assert (Hzn : zn = Z.of_nat (length (l1 ++ l2))) by (unfold zn; by rewrite length_app).
  destruct (reorder c l1 l2 l3 i s zn Hk Es) as (l & s0 & E & Hlook & [L1 L2] & A12 & A3 & Ei).
  destruct (stack_level _ _ Hk (length l1) i) as (t & _ & Et & Hb & Ez); [by apply list_lookup_middle|].
  rewrite Es in Et. injection Et as <-. pose proof (sk_top _ _ Hk) as Ht. rewrite length_app in Ht. simpl in Ht.
  rewrite length_app in Ht.
  assert (H2 : (0 < length l2)%nat) by (destruct l2; [done|simpl; lia]).
  unfold sheet_updown. rewrite Es, bind_Some_eq. rewrite Z.gtb_ltb.
  destruct (Z.ltb_spec (c_zTop c + 1) zn) as [?|_]; [unfold zn in *; lia|].
  destruct (Z.ltb_spec zn (-1)); [unfold zn in *; lia|].
  rewrite (upd_sheet_eq _ _ _ _ Es), bind_Some_eq. rewrite Ez.
  destruct (Z.eqb_spec (Z.of_nat (length l1)) zn); [unfold zn in *; lia|].
  destruct (Z.ltb_spec zn 0); [unfold zn in *; lia|].
  destruct (Z.ltb_spec (Z.of_nat (length l1)) 0); [lia|]. rewrite Z.gtb_ltb.
  destruct (Z.ltb_spec zn (Z.of_nat (length l1))); [unfold zn in *; lia|].
  change (Z.of_nat (length l1 + length l2)) with zn in E. rewrite E, bind_Some_eq. unfold put_sheet. simpl c_sheets.
  assert (Hll : (length l1 + length l2 < length l)%nat).
  { destruct (sk_len _ _ Hk) as [L _]. rewrite L1, <- L.
    destruct (lookup_lt_is_Some_2 (l1 ++ i :: l2 ++ l3) (length l1 + length l2)) as [j Hj].
    { rewrite length_app. simpl. rewrite length_app. lia. }
    apply (sk_at _ _ Hk) in Hj as [Hj _]. by apply lookup_lt_Some in Hj. }
  assert (Hput : l$[zn := Some i] = Some (<[(length l1 + length l2)%nat := Some i]> l)) by (by apply updateZ_nat).
  rewrite Hput, !bind_Some_eq.
  set (c3 := c_set_sheets _ _).
  assert (K3 : stack_ok c3 ((l1 ++ l2) ++ i :: l3)).
  { eapply (stack_levels c3 _ (<[(length l1 + length l2)%nat := Some i]> l) s0).
    - apply (sk_size _ _ Hk).
    - unfold c3. simpl. rewrite Ht, !length_app. simpl. lia.
    - by rewrite length_insert.
    - intros k j Hj. apply lookup_app_Some in Hj as [Hj|[Hle Hj]].
      + apply at_level_put; [by apply A12|]. apply lookup_lt_Some in Hj. rewrite length_app in Hj. lia.
      + rewrite length_app in Hle, Hj. destruct (k - (length l1 + length l2))%nat as [|q] eqn:Eq; simpl in Hj.
        * injection Hj as <-. assert (k = length l1 + length l2)%nat as -> by lia. split.
          -- by rewrite list_lookup_insert_eq.
          -- exists (s_set_z s zn). split_and!; done.
        * apply at_level_put; [|lia].
          replace k with (S (length l1 + length l2) + q)%nat by lia. by apply A3.
    - done.
    - done. }
  rewrite Hzn. destruct (place_ok c c3 _ (l1 ++ l2) l3 i s Hso K3) as (c' & Ec & Hso' & Es0); try done.
  - intros tt k Hk3. change (l1 ++ i :: l2 ++ l3) with (l1 ++ (i :: l2) ++ l3).
    by rewrite !topmost_app, Hk3.
  - intros tt Hti Hn. change (l1 ++ i :: l2 ++ l3) with (l1 ++ (i :: l2) ++ l3).
    rewrite !topmost_app, Hn. simpl. rewrite Hti. by destruct (topmost tt l2).
  - exists c'. split; [exact Ec|]. split; [done|]. intros j. rewrite Es0. apply Hlook.
Qed.

Lemma show_ok c stk i s zNew :
  screen_ok c stk -> i ∉ stk -> (c_sheet0 c)$[i] = Some s -> s_z s = -1 -> buf_ok s ->
  (length stk < Z.to_nat OS_VGA_MAX_SHEETS)%nat -> Z.of_nat (length stk) <= zNew ->
  exists c', sheet_updown c i zNew = Some c' /\ screen_ok c' (stk ++ [i]) /\ same_look c c'.
Proof.
  intros Hso Hi Es Ez Hb Hfull Hz. pose proof (so_stack _ _ Hso) as Hk.
  pose proof (sk_top _ _ Hk) as Ht. destruct (sk_len _ _ Hk) as [L1 L2].
  unfold sheet_updown. rewrite Es, bind_Some_eq. rewrite Z.gtb_ltb.
  assert (En : (if c_zTop c + 1 <? zNew then c_zTop c + 1 else zNew) = Z.of_nat (length stk))
    by (destruct (Z.ltb_spec (c_zTop c + 1) zNew); lia).
  rewrite En. destruct (Z.ltb_spec (Z.of_nat (length stk)) (-1)); [lia|].
  rewrite (upd_sheet_eq _ _ _ _ Es), bind_Some_eq, Ez.
  destruct (Z.eqb_spec (-1) (Z.of_nat (length stk))); [lia|].
  destruct (Z.ltb_spec (Z.of_nat (length stk)) 0); [lia|]. cbn [Z.ltb Z.compare].
  simpl c_zTop. rewrite for_range_nil by lia. rewrite bind_Some_eq. unfold put_sheet. simpl c_sheets.
  rewrite updateZ_nat by (by rewrite L1). rewrite !bind_Some_eq.
  set (c3 := c_set_zTop _ _).
  set (s0 := <[Z.to_nat i := s_set_z s (Z.of_nat (length stk))]> (c_sheet0 c)).
  assert (Hs0 : forall j, s0$[j] = if decide (i = j) then Some (s_set_z s (Z.of_nat (length stk))) else (c_sheet0 c)$[j])
    by (intros j; apply lookupZ_insert; by eapply lookupZ_lt).
  assert (K3 : stack_ok c3 (stk ++ i :: [])).
  { eapply (stack_levels c3 _ (<[length stk := Some i]> (c_sheets c)) s0).
    - apply (sk_size _ _ Hk).
    - unfold c3. simpl. rewrite Ht, length_app. simpl. lia.
    - unfold s0. by rewrite !length_insert.
    - intros k j Hj. apply lookup_app_Some in Hj as [Hj|[Hle Hj]].
      + apply at_level_put; [|apply lookup_lt_Some in Hj; lia].
        destruct (sk_at _ _ Hk k j Hj) as (Ec & t & Et & B). split; [done|]. exists t.
        rewrite Hs0, decide_False; [done|]. intros ->. apply Hi. by eapply list_elem_of_lookup_2.
      + destruct (k - length stk)%nat as [|q] eqn:Eq; simpl in Hj; [|done]. injection Hj as <-.
        assert (k = length stk) as -> by lia. split; [rewrite list_lookup_insert_eq by lia; done|].
        eexists. rewrite Hs0, decide_True by done. done.
    - done.
    - done. }
  assert (Hlook : same_look c c3).
  { intros j. simpl. fold s0. rewrite Hs0. case_decide as Hd.
    - subst j. rewrite Es. by eexists.
    - destruct ((c_sheet0 c)$[j]) as [t|]; [|done]. exists (s_z t). by destruct t. }
  destruct (place_ok c c3 stk stk [] i s Hso K3) as (c' & Ec & Hso' & Es0); try done.
  exists c'. split; [exact Ec|]. split; [done|]. intros j. rewrite Es0. apply Hlook.
Qed.

Lemma sub_hidden (l1 l2 : list Z) (top : Z) :
  top = Z.of_nat (length (l1 ++ l2)) - 1 ->
  let ze := Z.of_nat (length l1) - 1 in
  let sub := take (Z.to_nat ((if ze =? -1 then top else ze) + 1 - 0)) (drop (Z.to_nat 0) (l1 ++ l2)) in
  sub = l1 \/ (l1 = [] /\ sub = l1 ++ l2).
Proof.
  intros Ht. simpl. destruct (Z.eqb_spec (Z.of_nat (length l1) - 1) (-1)).
  - right. assert (l1 = []) as -> by (destruct l1; [done|simpl in *; lia]). split; [done|].
    rewrite drop_0. apply take_ge. lia.
  - left. rewrite drop_0. replace (Z.to_nat _) with (length l1) by lia. apply take_app_length.
Qed.

Lemma hide_ok c l1 l2 i s zNew :
  screen_ok c (l1 ++ i :: l2) -> (c_sheet0 c)$[i] = Some s -> zNew < 0 ->
  exists c', sheet_updown c i zNew = Some c' /\ screen_ok c' (l1 ++ l2) /\ same_look c c'
    /\ (c_sheet0 c')$[i] = Some (s_set_z s (-1)).
Proof.
  intros [Hk (g & v & Hg & Hv & Hr)] Es Hz.
  destruct (stack_level _ _ Hk (length l1) i) as (t & _ & Et & Hb & Ez); [by apply list_lookup_middle|].
  rewrite Es in Et. injection Et as <-. pose proof (sk_top _ _ Hk) as Ht. rewrite length_app in Ht. simpl in Ht.
  destruct (reorder c l1 l2 [] i s (-1)) as (l & s0 & E & Hlook & HL & A12 & _ & Ei); [by rewrite app_nil_r|done|].
  unfold sheet_updown. rewrite Es, bind_Some_eq. rewrite Z.gtb_ltb.
  destruct (Z.ltb_spec (c_zTop c + 1) zNew); [lia|].
  assert (En : (if zNew <? -1 then -1 else zNew) = -1) by (destruct (Z.ltb_spec zNew (-1)); lia).
  rewrite En, (upd_sheet_eq _ _ _ _ Es), bind_Some_eq, Ez.
  destruct (Z.eqb_spec (Z.of_nat (length l1)) (-1)); [lia|]. cbn [Z.ltb Z.compare].
  simpl c_zTop. replace (c_zTop c) with (Z.of_nat (length l1 + length l2)) by lia. rewrite E, bind_Some_eq.
  set (c3 := c_set_zTop _ _).
  assert (K3 : stack_ok c3 (l1 ++ l2)).
  { eapply (stack_levels c3 _ l s0); try done; [apply (sk_size _ _ Hk)|].
    unfold c3. simpl. rewrite Ht, length_app. lia. }
  pose proof (sk_top _ _ K3) as Ht3. unfold zmap_area, redraw_area.
  set (xe := s_xStart s + s_bufXsize s). set (ye := s_yStart s + s_bufYsize s).
  destruct (zmap_spec c3 _ K3 (s_xStart s) (s_yStart s) xe ye g 0 ltac:(lia) Hg) as (m & -> & G).
  rewrite bind_Some_eq. pose proof (stack_set_zMap _ _ m K3) as K4.
  destruct (redraw_spec _ _ K4 (s_xStart s) (s_yStart s) xe ye _ _ 0 (Z.of_nat (length l1) - 1) ltac:(lia)
    ltac:(simpl c_zTop; rewrite length_app in Ht3;
          destruct (Z.eqb_spec (Z.of_nat (length l1) - 1) (-1)); lia) G Hv) as (vr & -> & V).
  eexists. split; [done|]. split_and!; [|exact Hlook|exact Ei]. split; [by apply stack_set_vram|].
  eexists _, _. split; [exact G|]. split; [exact V|].
  intros x y Hx Hy. simpl in Hx, Hy. specialize (Hr x y Hx Hy).
  eapply (hide_pixel c c3 i x y Hlook l1 l2 (g x y) (v x y)
            (bool_decide (in_area c3 (s_xStart s) (s_yStart s) xe ye x y))); [..|exact Hr].
  - intros Ho. apply bool_decide_eq_true. by apply (op_in_area c i s).
  - apply (sub_hidden l1 l2 (c_zTop c3)). exact Ht3.
  - rewrite if_decide. reflexivity.
  - rewrite !if_decide. reflexivity.
Qed.

(** ** The operations *)

(** [sheet_update_zmap]: inside the area (grown by a pixel and cut to the
    screen) every pixel that some sheet of level [zStart] or above covers with an
    opaque pixel gets the topmost such sheet; everything else keeps its entry; no
    access leaves the map or a buffer, whatever the coordinates. *)
Theorem zmap_correct c stk g xs ys xe ye zStart :
  stack_ok c stk -> 0 <= zStart -> shows (c_xsize c) (c_ysize c) (c_zMap c) g ->
  exists m, sheet_update_zmap c xs ys xe ye zStart = Some (c_set_zMap c m)
    /\ shows (c_xsize c) (c_ysize c) m (fun x y =>
         if decide (in_area c xs ys xe ye x y)
         then default (g x y) (topmost (op c x y) (drop (Z.to_nat zStart) stk)) else g x y).
Proof. intros Hk H0 Hs. by apply zmap_spec. Qed.

(** C9. Moving a visible sheet keeps the screen right: afterwards every pixel
    that a sheet covers shows the topmost opaque sheet at the new position, and
    the map names it. *)
Theorem sheet_slide_correct c stk i s xDst yDst :
  screen_ok c stk -> i ∈ stk -> (c_sheet0 c)$[i] = Some s ->
  exists c', sheet_slide c i xDst yDst = Some c' /\ screen_ok c' stk
    /\ (c_sheet0 c')$[i] = Some (s_set_pos s xDst yDst).
Proof.
  intros Hso Hi Es. destruct (slide_ok c stk i s xDst yDst Hso Hi Es) as (c' & E & Hso' & E0 & _).
  exists c'. split_and!; try done. rewrite E0. apply lookupZ_insert_eq. by eapply lookupZ_lt.
Qed.

(** C10. Hiding a sheet, raising it to a level that exists and showing a hidden
    sheet on top change the order as expected, keep the other sheets, and keep
    the screen right. *)
Theorem sheet_updown_correct c stk i s :
  screen_ok c stk -> (c_sheet0 c)$[i] = Some s ->
  (forall l1 l2 zNew, stk = l1 ++ i :: l2 -> zNew < 0 ->
     exists c', sheet_updown c i zNew = Some c' /\ screen_ok c' (l1 ++ l2) /\ same_look c c')
  /\ (forall l1 l2 l3, stk = l1 ++ i :: l2 ++ l3 -> l2 <> [] ->
     exists c', sheet_updown c i (Z.of_nat (length l1 + length l2)) = Some c'
       /\ screen_ok c' ((l1 ++ l2) ++ i :: l3) /\ same_look c c')
  /\ (forall zNew, i ∉ stk -> s_z s = -1 -> buf_ok s ->
     (length stk < Z.to_nat OS_VGA_MAX_SHEETS)%nat -> Z.of_nat (length stk) <= zNew ->
     exists c', sheet_updown c i zNew = Some c' /\ screen_ok c' (stk ++ [i]) /\ same_look c c').
Proof.
  intros Hso Es. split_and!.
  - intros l1 l2 zNew -> Hz. destruct (hide_ok c l1 l2 i s zNew Hso Es Hz) as (c' & E & H1 & H2 & _). by exists c'.
  - intros l1 l2 l3 -> Hne. by apply (raise_ok c l1 l2 l3 i s).
  - intros zNew Hi Hz Hb Hl Hn. by apply (show_ok c stk i s zNew).
Qed.

(** ** A screen of two pixels: a background, and two sheets over its left half *)
Definition blank : SHTCTL :=
  mkSHTCTL [0; 0] [0; 0] 2 1 (-1) (replicate (Z.to_nat OS_VGA_MAX_SHEETS) None)
    (replicate (Z.to_nat OS_VGA_MAX_SHEETS) sheet_zero).

(** A new sheet at the left edge, [w] pixels wide, all of one colour. *)
Definition add_sheet (c : SHTCTL) (w col : Z) : option SHTCTL :=
  '(i, c) ← sheet_alloc c;
  i ← i;
  c ← upd_sheet c i (fun s => sheet_setbuf s (replicate (Z.to_nat w) col) w 1 99);
  Some c.

Definition three_sheets : option SHTCTL :=
  c ← add_sheet blank 2 1; c ← add_sheet c 1 2; c ← add_sheet c 1 3;
  c ← sheet_updown c 0 0; c ← sheet_updown c 1 1; sheet_updown c 2 2.
Definition demo_screen : SHTCTL := default blank three_sheets.

(** Lowering a sheet leaves its old picture on the screen: with the sheets 0,
    1, 2 in this order, sheet 2 is moved below sheet 1.  The map then names sheet
    1 at the left pixel, whose colour is 2, but the frame buffer still shows the
    colour 3 of sheet 2, because the level that sheet 1 moved to is not redrawn. *)
Theorem lowering_leaves_stale_pixels :
  (c ← three_sheets; c ← sheet_updown c 2 1; Some (c_zMap c, c_vram c, take 3 (c_sheets c)))
  = Some ([1; 0], [3; 1], [Some 0; Some 2; Some 1]).
Proof. vm_compute. reflexivity. Qed.

(** Arguments that pass the normalisation of [sheet_updown] break the order of
    the sheets: raising a visible sheet to one above the top reads a level that
    holds no sheet, and showing a hidden sheet below the top loses the sheet that
    was on top (sheet 1 here), whose place keeps the pointer that was there before. *)
Theorem updown_loses_sheets :
  (c ← three_sheets; Some (c_zTop c)) = Some 2
  /\ (c ← three_sheets; sheet_updown c 0 3) = None
  /\ (c ← three_sheets; c ← sheet_updown c 2 (-1); c ← sheet_updown c 2 1; Some (c_zTop c, take 3 (c_sheets c)))
     = Some (2, [Some 0; Some 2; Some 2]).
Proof. vm_compute. split; [reflexivity|]. split; reflexivity. Qed.

(** The screen with the three sheets is right. *)
Definition demo_map (x y : Z) : Z := if x =? 0 then 2 else 0.
Definition demo_picture (x y : Z) : Z := if x =? 0 then 3 else 1.
Definition demo_sheet (i : Z) : SHEET := default sheet_zero ((c_sheet0 demo_screen)$[i]).

#[local] Opaque demo_screen.

Lemma demo_levels k i :
  [0; 1; 2] !! k = Some i ->
  c_sheets demo_screen !! k = Some (Some i) /\ (c_sheet0 demo_screen)$[i] = Some (demo_sheet i)
  /\ s_z (demo_sheet i) = Z.of_nat k /\ buf_ok (demo_sheet i).
Proof.
  destruct k as [|[|[|k]]]; intros Hk; try discriminate Hk; injection Hk as <-;
    (split; [vm_compute; reflexivity|]; split; [vm_compute; reflexivity|]; split; [vm_compute; reflexivity|];
     unfold buf_ok; concrete).
Qed.

Lemma demo_stack : stack_ok demo_screen [0; 1; 2].
Proof.
  constructor; [concrete|vm_compute; reflexivity|split; vm_compute; reflexivity|].
  intros k i Hk. destruct (demo_levels k i Hk) as (E & El & Ez & B).
  split; [exact E|]. exists (demo_sheet i). split; [exact El|]. split; [exact Ez|exact B].
Qed.

Lemma demo_size : c_xsize demo_screen = 2 /\ c_ysize demo_screen = 1.
Proof. split; vm_compute; reflexivity. Qed.

Lemma demo_map_shows : shows (c_xsize demo_screen) (c_ysize demo_screen) (c_zMap demo_screen) demo_map.
Proof.
  destruct demo_size as [-> ->]. split; [vm_compute; reflexivity|]. intros x y Hx Hy.
  assert (y = 0) as -> by lia. assert (x = 0 \/ x = 1) as [->| ->] by lia; vm_compute; reflexivity.
Qed.

Lemma demo_screen_ok : screen_ok demo_screen [0; 1; 2].
Proof.
  split; [exact demo_stack|]. exists demo_map, demo_picture.
  assert (Hp : forall x y, 0 <= x < c_xsize demo_screen -> 0 <= y < c_ysize demo_screen ->
               (x = 0 \/ x = 1) /\ y = 0).
  { assert (c_xsize demo_screen = 2 /\ c_ysize demo_screen = 1) as [-> ->] by (split; vm_compute; reflexivity). lia. }
  split; [exact demo_map_shows|split].
  - split; [vm_compute; reflexivity|]. intros x y Hx Hy. destruct (Hp x y Hx Hy) as [[->| ->] ->]; vm_compute; reflexivity.
  - intros x y Hx Hy i Hi. destruct (Hp x y Hx Hy) as [[->| ->] ->]; vm_compute in Hi; injection Hi as <-;
      (split; vm_compute; reflexivity).
Qed.

Lemma zmap_correct_witness :
  exists m, sheet_update_zmap demo_screen 0 0 5 5 0 = Some (c_set_zMap demo_screen m).
Proof.
  destruct (zmap_correct demo_screen [0; 1; 2] demo_map 0 0 5 5 0 demo_stack ltac:(lia)) as (m & E & _).
  - exact demo_map_shows.
  - exists m. exact E.
Defined.

Lemma sheet_slide_correct_witness :
  exists c, sheet_slide demo_screen 2 1 0 = Some c /\ screen_ok c [0; 1; 2].
Proof.
  destruct (sheet_slide_correct demo_screen [0; 1; 2] 2 (demo_sheet 2) 1 0 demo_screen_ok)
    as (c & E & H & _); [apply (list_elem_of_lookup_2 _ 2%nat); reflexivity|vm_compute; reflexivity|].
  exists c. split; [exact E|exact H].
Defined.

Lemma sheet_updown_correct_witness :
  exists c, sheet_updown demo_screen 1 2 = Some c /\ screen_ok c [0; 2; 1].
Proof.
  destruct (sheet_updown_correct demo_screen [0; 1; 2] 1 (demo_sheet 1) demo_screen_ok) as (_ & H & _);
    [vm_compute; reflexivity|].
  destruct (H [0] [2] [] eq_refl ltac:(discriminate)) as (c & E & Hso & _). exists c. split; [exact E|exact Hso].
Defined.
