(* ===== verification/Stream.v ===== *)
(** * Reading the disk, src/src/disk/disk.c and src/src/disk/dstream.c

    The ATA controller is a parameter: a function of the writes to its ports so
    far that gives the words of its data port.  [ata_obeys] states what the
    command set documents of it: after the six writes of a READ SECTORS command
    the data port delivers the sectors from the given block on, and each sector's
    words are preceded by a status that says so after finitely many polls.  The
    address of the global [disk] is a parameter too. *)
From Stdlib Require Import ZArith Lia.
From stdpp Require Import base option list numbers.
From S2P Require Import Prelude Heapdl Memory.

Set Default Proof Using "Type".

(** ** State *)
Definition ports := list (Z * Z).  (** port and byte, in order *)

Record DISK := mkDISK { d_type : Z; d_sector_size : Z }.
Record DISK_STREAM := mkSTREAM { st_pos : Z; st_disk : Z }.

Definition OS_DISK_TYPE_REAL : Z := 0.
Definition OS_DISK_SECTOR_SIZE : Z := 512.

Definition ATA_DATA_RW : Z := 0x1f0.
Definition ATA_SECTOR_COUNT_RW : Z := 0x1f2.
Definition ATA_LBA_LOW_RW : Z := 0x1f3.
Definition ATA_LBA_MID_RW : Z := 0x1f4.
Definition ATA_LBA_HIGH_RW : Z := 0x1f5.
Definition ATA_DEVICE_OR_HEAD_RW : Z := 0x1f6.
Definition ATA_CMD_W : Z := 0x1f7.

Definition out8 (p : ports) (port val : Z) : ports := p ++ [(port, u8 val)].

Section disk.
(** The address of the global [disk]; the [n]-th word that the data port delivers
    after the writes [p]; the [k]-th status read before sector [i] of the command
    that ends [p]; and how often the status may be polled. *)
Context (disk_addr : Z) (device : ports -> Z -> Z) (status : ports -> Z -> Z -> Z) (patience : nat).

(** ** src/src/disk/disk.c *)

Fixpoint wait_ready (fuel : nat) (p : ports) (i k : Z) : option unit :=
  match fuel with
  | O => None
  | S fuel =>
      let s := u8 (status p i k) in
      if Z.land s 0x08 =? 0 then wait_ready fuel p i (k + 1) else Some tt
  end.

(** The bytes are stored from [buf] on, each word with its low byte first. *)
Definition disk_read_sector (p : ports) (lba total_sectors : Z) : option (ports * list Z) :=
  let lba := Z.land lba 0x0fffffff in
  let p := out8 p ATA_SECTOR_COUNT_RW total_sectors in
  let p := out8 p ATA_LBA_LOW_RW (Z.land lba 0xff) in
  let p := out8 p ATA_LBA_MID_RW (Z.land (Z.shiftr lba 8) 0xff) in
  let p := out8 p ATA_LBA_HIGH_RW (Z.land (Z.shiftr lba 16) 0xff) in
  let p := out8 p ATA_DEVICE_OR_HEAD_RW (Z.lor (Z.shiftr lba 24) 64) in
  let p := out8 p ATA_CMD_W 0x20 in
  inbuf ← for_range 0 total_sectors (fun i inbuf =>
    _ ← wait_ready patience p i 0;
    for_range 0 (OS_DISK_SECTOR_SIZE / 2) (fun j inbuf =>
      let w := u16 (device p (i * (OS_DISK_SECTOR_SIZE / 2) + j)) in
      Some (inbuf ++ [Z.land w 0xff; Z.shiftr w 8])) inbuf) [];
  Some (p, inbuf).

Definition disk_search_and_init : DISK := mkDISK OS_DISK_TYPE_REAL OS_DISK_SECTOR_SIZE.

Definition disk_get (index : Z) : option Z := if negb (index =? 0) then None else Some disk_addr.

Definition disk_read_block (p : ports) (idisk lba total_sectors : Z) : option (Z * ports * list Z) :=
  if negb (idisk =? disk_addr) then Some (- EIO, p, [])
  else '(p, buf) ← disk_read_sector p lba total_sectors; Some (0, p, buf).

(** ** src/src/disk/dstream.c *)
Definition sizeof_DISK_STREAM : Z := 8.

Definition dstream_new (h : heap) (m : memory) (disk_id : Z)
  : option (option (Z * DISK_STREAM) * heap * memory) :=
  match disk_get disk_id with
  | None => Some (None, h, m)
  | Some disk =>
      '(a, h, m) ← kzalloc h m sizeof_DISK_STREAM;
      if a =? 0 then None else Some (Some (a, mkSTREAM 0 disk), h, m)
  end.

Definition dstream_seek (stream : option DISK_STREAM) (pos : Z) : Z * option DISK_STREAM :=
  match stream with
  | None => (- EIO, None)
  | Some s => (0, Some (mkSTREAM pos (st_disk s)))
  end.

(** [out] is what has been stored so far; [fuel] bounds the recursion. *)
Fixpoint dstream_read (fuel : nat) (p : ports) (s : DISK_STREAM) (out : list Z) (total : Z)
  : option (Z * ports * DISK_STREAM * list Z) :=
  match fuel with
  | O => None
  | S fuel =>
      let sector_start := Z.quot (st_pos s) OS_DISK_SECTOR_SIZE in
      let offset_start := Z.rem (st_pos s) OS_DISK_SECTOR_SIZE in
      '(res, p, buf) ← disk_read_block p (st_disk s) sector_start 1;
      if res <? 0 then Some (- EIO, p, s, out)
      else
        let bytes_to_read := if offset_start + total <? OS_DISK_SECTOR_SIZE then total
                             else OS_DISK_SECTOR_SIZE - offset_start in
        out ← for_range 0 bytes_to_read (fun i out =>
                b ← buf$[offset_start + i]; Some (out ++ [b])) out;
        let s := mkSTREAM (st_pos s + bytes_to_read) (st_disk s) in
        if total >? bytes_to_read then
          '(_, p, s, out) ← dstream_read fuel p s out (total - bytes_to_read);
          Some (0, p, s, out)
        else Some (0, p, s, out)
  end.

(** ** The controller *)

(** The disk's contents, a byte for each offset. *)
Context (image : Z -> Z).

Definition ata_obeys : Prop :=
  forall p count low mid high head n,
    1 <= count <= 255 -> 0 <= n < 256 * count ->
    let lba := low + Z.shiftl mid 8 + Z.shiftl high 16 + Z.shiftl (Z.land head 0xf) 24 in
    device (p ++ [(ATA_SECTOR_COUNT_RW, count); (ATA_LBA_LOW_RW, low); (ATA_LBA_MID_RW, mid);
                  (ATA_LBA_HIGH_RW, high); (ATA_DEVICE_OR_HEAD_RW, head); (ATA_CMD_W, 0x20)]) n
    = image (512 * lba + 2 * n) + 256 * image (512 * lba + 2 * n + 1).

Definition ata_ready : Prop :=
  forall p i, exists k, 0 <= k < Z.of_nat patience /\ Z.testbit (status p i k) 3 = true.

Context (Hata : ata_obeys) (Hready : ata_ready) (Hbyte : forall a, 0 <= image a < 256).

(** The bytes of the image from [a] on. *)
Definition bytes_at (a n : Z) : list Z := image <$> seqZ a n.

Lemma bytes_app a n m : 0 <= n -> 0 <= m -> bytes_at a n ++ bytes_at (a + n) m = bytes_at a (n + m).
Proof using Type. intros. unfold bytes_at. by rewrite <- fmap_app, <- seqZ_app. Qed.

Lemma bytes_lookup a n i : 0 <= i < n -> (bytes_at a n)$[i] = Some (image (a + i)).
Proof using Type.
  intros Hi. unfold bytes_at. apply lookupZ_Some. split; [lia|].
  rewrite list_lookup_fmap, lookup_seqZ_lt by lia. simpl. do 2 f_equal. lia.
Qed.

(** The four bytes that the ports get are those of the block number. *)
Lemma lba_split lba :
  0 <= lba < 2 ^ 28 ->
  u8 (Z.land lba 0xff) + Z.shiftl (u8 (Z.land (Z.shiftr lba 8) 0xff)) 8
  + Z.shiftl (u8 (Z.land (Z.shiftr lba 16) 0xff)) 16
  + Z.shiftl (Z.land (u8 (Z.lor (Z.shiftr lba 24) 64)) 0xf) 24 = lba.
Proof using Type.
  intros Hl. change 0xff with (Z.ones 8). change 0xf with (Z.ones 4).
  rewrite !Z.land_ones, !Z.shiftr_div_pow2 by lia. unfold u8. rewrite !Z.mod_mod by lia.
  assert (E : (Z.lor (lba / 2 ^ 24) 64 mod 2 ^ 8) mod 2 ^ 4 = lba / 2 ^ 24).
  { assert (0 <= lba / 2 ^ 24 < 2 ^ 4) by (split; [apply Z.div_pos|apply Z.div_lt_upper_bound]; lia).
    set (h := lba / 2 ^ 24) in *. clearbody h.
    assert (h = 0 \/ h = 1 \/ h = 2 \/ h = 3 \/ h = 4 \/ h = 5 \/ h = 6 \/ h = 7 \/ h = 8 \/ h = 9 \/ h = 10
            \/ h = 11 \/ h = 12 \/ h = 13 \/ h = 14 \/ h = 15) as Hc by lia.
    repeat destruct Hc as [->|Hc]; [reflexivity..|]. by subst. }
  rewrite E, !Z.shiftl_mul_pow2 by lia.
  pose proof (Z.div_mod lba (2 ^ 8) ltac:(lia)). pose proof (Z.div_mod (lba / 2 ^ 8) (2 ^ 8) ltac:(lia)).
  pose proof (Z.div_mod (lba / 2 ^ 16) (2 ^ 8) ltac:(lia)).
  rewrite Z.div_div in * by lia. change (2 ^ 8 * 2 ^ 8) with (2 ^ 16) in *.
  change (2 ^ 16 * 2 ^ 8) with (2 ^ 24) in *. lia.
Qed.

Lemma wait_ready_ok p i : wait_ready patience p i 0 = Some tt.
Proof using Hready.
  destruct (Hready p i) as (k & Hk & Hb).
  enough (forall fuel j, 0 <= j <= k -> k < j + Z.of_nat fuel -> wait_ready fuel p i j = Some tt) as H
    by (apply H; lia).
  induction fuel as [|fuel IH]; intros j Hj Hf; [lia|]. cbn [wait_ready].
  destruct (Z.eqb_spec (Z.land (u8 (status p i j)) 8) 0) as [E|]; [|done].
  destruct (decide (j = k)) as [->|]; [|apply IH; lia]. exfalso.
  assert (Z.testbit (Z.land (u8 (status p i k)) 8) 3 = true) as Ht; [|by rewrite E in Ht].
  rewrite Z.land_spec. unfold u8. by rewrite Z.mod_pow2_bits_low, Hb by lia.
Qed.

(** One sector, the way the stream reads it. *)
Lemma disk_read_block_one p lba :
  0 <= lba < 2 ^ 28 ->
  exists p', disk_read_block p disk_addr lba 1 = Some (0, p', bytes_at (512 * lba) 512).
Proof using Hata Hready Hbyte.
  intros Hl. unfold disk_read_block, disk_read_sector. rewrite Z.eqb_refl. cbn [negb].
  change 0x0fffffff with (Z.ones 28). rewrite Z.land_ones, (Z.mod_small lba) by lia.
  unfold out8. rewrite <- !(assoc_L (++)). cbn [app]. change (u8 1) with 1. change (u8 0x20) with 0x20.
  match goal with |- context [device ?q] => set (ps := q) end.
  assert (Hw : forall n, 0 <= n < 256 -> device ps n = image (512 * lba + 2 * n) + 256 * image (512 * lba + 2 * n + 1)).
  { intros n Hn. unfold ps. rewrite Hata by lia. by rewrite lba_split. }
  exists ps. rewrite for_range_cons by lia. rewrite wait_ready_ok. cbn [mbind option_bind].
  destruct (for_range_inv (fun j b => b = bytes_at (512 * lba) (2 * j)) 0 (OS_DISK_SECTOR_SIZE / 2)
    (fun j inbuf => let w := u16 (device ps (0 * (OS_DISK_SECTOR_SIZE / 2) + j)) in
       Some (inbuf ++ [Z.land w 0xff; Z.shiftr w 8])) []) as (b & E & ->); [done|done| |].
  - intros j b Hj ->. change (OS_DISK_SECTOR_SIZE / 2) with 256 in *. eexists. split; [reflexivity|].
    rewrite Z.add_0_l, Hw by lia.
    pose proof (Hbyte (512 * lba + 2 * j)). pose proof (Hbyte (512 * lba + 2 * j + 1)).
    rewrite u16_small by lia. change 0xff with (Z.ones 8). rewrite Z.land_ones, Z.shiftr_div_pow2 by lia.
    replace (2 * (j + 1)) with (2 * j + 2) by lia. rewrite <- (bytes_app _ (2 * j) 2) by lia. f_equal.
    unfold bytes_at. change (seqZ (512 * lba + 2 * j) 2) with [0 + (512 * lba + 2 * j); 1 + (512 * lba + 2 * j)].
    cbn [fmap list_fmap]. change (2 ^ 8) with 256.
    rewrite (Z.mul_comm 256), Z.mod_add, Z.div_add, (Z.mod_small (image _)), (Z.div_small (image (512 * lba + 2 * j))) by lia.
    rewrite !Z.add_0_l, (Z.add_comm 1). reflexivity.
  - cbv zeta in E |- *. rewrite E. cbn [mbind option_bind]. by rewrite for_range_nil by lia.
Qed.

(** The copy from the sector's buffer to the caller's. *)
Lemma copy_bytes a off n out :
  0 <= off -> 0 <= n -> off + n <= 512 ->
  for_range 0 n (fun i out => b ← (bytes_at a 512)$[off + i]; Some (out ++ [b])) out
  = Some (out ++ bytes_at (a + off) n).
Proof using Type.
  intros Ho Hn Hs.
  destruct (for_range_inv (fun i b => b = out ++ bytes_at (a + off) i) 0 n
    (fun i out => b ← (bytes_at a 512)$[off + i]; Some (out ++ [b])) out) as (b & E & ->); [done| | |done].
  - by rewrite app_nil_r.
  - intros i b Hi ->. rewrite bytes_lookup by lia. eexists. split; [reflexivity|].
    rewrite <- (bytes_app _ i 1), (assoc_L (++)) by lia. f_equal.
    unfold bytes_at. change (seqZ (a + off + i) 1) with [0 + (a + off + i)]. cbn. do 2 f_equal. lia.
Qed.

End disk.

(** A controller with an endless disk whose byte at offset [a] is [a mod 251],
    ready at the third poll. *)
Definition demo_image (a : Z) : Z := a mod 251.
Definition demo_reg (p : ports) (back : nat) : Z :=
  match reverse p !! back with Some (_, v) => v | None => 0 end.
Definition demo_device (p : ports) (n : Z) : Z :=
  let lba := demo_reg p 4 + Z.shiftl (demo_reg p 3) 8 + Z.shiftl (demo_reg p 2) 16
             + Z.shiftl (Z.land (demo_reg p 1) 0xf) 24 in
  demo_image (512 * lba + 2 * n) + 256 * demo_image (512 * lba + 2 * n + 1).
Definition demo_status (p : ports) (i k : Z) : Z := if k <? 2 then 0x80 else 0x58.

