(* ===== verification/Draw.v ===== *)
(** * Drawing, src/src/drivers/graphic/videomode.c

    A buffer of pixels is the list of its bytes; the coordinates are turned into
    an index the way the code does, and an index outside of the list is a fault.
    The text box of a sheet is reached through the sheet; its line buffer lies in
    the kernel's memory.  The globals of the file are the record [VIDEO]; the
    frame buffer is a field of it until the control block of the sheets owns it. *)
From Stdlib Require Import ZArith Lia Ascii String.
From stdpp Require Import base option list gmap numbers.
From S2P Require Import Prelude Kutil Heapdl Memory Font Sheet.

Set Default Proof Using "Type".

(** ** Colours, characters and strings *)
Definition COL8_848484 : Z := 15.
Definition COL8_C6C6C6 : Z := 8.
Definition COL8_000084 : Z := 12.
Definition COL8_008484 : Z := 14.

(** [char] is signed. *)
Definition s8 (z : Z) : Z := (z + 2 ^ 7) mod 2 ^ 8 - 2 ^ 7.

Definition byte_of (a : ascii) : Z := Z.of_N (N_of_ascii a).
(** A string literal with its terminator. *)
Definition cstr (s : string) : list Z := (byte_of <$> list_ascii_of_string s) ++ [0].
Definition newline : Z := 10.

(** A picture in the source, an array of strings. *)
Definition cell (rows : list string) (y x : Z) : option ascii :=
  r ← rows$[y]; (list_ascii_of_string r)$[x].

(** ** Rectangles and blocks *)
Definition boxfill8 (vram : list Z) (xsize color x0 y0 x1 y1 : Z) : option (list Z) :=
  for_range y0 (y1 + 1) (fun y =>
    for_range x0 (x1 + 1) (fun x vram => vram$[y * xsize + x := color])) vram.

Definition putblock8_8 (vram : list Z) (vxsize pxsize pysize px0 py0 : Z) (buf : list Z) (bxsize : Z)
  : option (list Z) :=
  for_range 0 pysize (fun y =>
    for_range 0 pxsize (fun x vram =>
      c ← buf$[y * bxsize + x];
      vram$[(py0 + y) * vxsize + (px0 + x) := c])) vram.

Definition init_block_fill (block_start : list Z) (filling_color block_size_in_bytes : Z) : option (list Z) :=
  for_range 0 block_size_in_bytes (fun i b => b$[i := filling_color]) block_start.

(** ** Characters

    The eight tests of a row's bits, from 0x80 for [pt[0]] to 0x01 for [pt[7]],
    are a loop; [font] is the table and the offset of the glyph in it. *)
Definition putfont8 (vram : list Z) (xsize x y color : Z) (font : list Z) (glyph : Z) : option (list Z) :=
  for_range 0 16 (fun i vram =>
    row ← font$[glyph + i];
    for_range 0 8 (fun k vram =>
      if negb (Z.land row (Z.shiftr 0x80 k) =? 0) then vram$[(y + i) * xsize + x + k := u8 color]
      else Some vram) vram) vram.

Fixpoint putfonts8_asc (vram : list Z) (xsize x y color : Z) (s : list Z) : option (list Z) :=
  match s with
  | [] => None
  | c :: s =>
      if c =? 0 then Some vram
      else
        vram ← putfont8 vram xsize x y color hankaku (s8 c * 16);
        putfonts8_asc vram xsize (x + 8) y color s
  end.

Definition padding_l : Z := 8.

(** The globals [posX] and [posY] are an argument and a result. *)
Fixpoint ascv2 (vram : list Z) (xsize posX posY color : Z) (s : list Z) : option (list Z * Z * Z) :=
  let incrementX := 8 in
  let incrementY := 24 in
  match s with
  | [] => None
  | c :: s =>
      if c =? 0 then Some (vram, posX, posY)
      else if c =? newline then ascv2 vram xsize padding_l (posY + incrementY) color s
      else
        vram ← putfont8 vram xsize posX posY color hankaku (s8 c * 16);
        let posX := posX + incrementX in
        if posX >? xsize - 16 then ascv2 vram xsize padding_l (posY + incrementY) color s
        else ascv2 vram xsize posX posY color s
  end.
Definition putfonts8_ascv2 (vram : list Z) (xsize posXnew posYnew color : Z) (s : list Z)
  : option (list Z * Z * Z) := ascv2 vram xsize posXnew posYnew color s.

(** [p] runs from the position to the end of the row less the padding. *)
Definition __fill_until_eol (buf : list Z) (bufWidth posX posY lineHeight padding_r fillColor : Z)
  : option (list Z) :=
  for_range 0 lineHeight (fun row =>
    let p := (posY + row) * bufWidth + posX in
    let eol := (posY + row + 1) * bufWidth - padding_r in
    for_range p eol (fun p buf => buf$[p := fillColor])) buf.

Definition __wrap_pos_xy (bufWidth bufHeight posX posY fontWidth lineHeight : Z)
    (padding_t padding_r padding_b padding_l : Z) : Z * Z :=
  let '(posX, posY) := if posX + fontWidth >? bufWidth - padding_r then (padding_l, posY + lineHeight)
                       else (posX, posY) in
  if posY + lineHeight >? bufHeight - padding_b then (posX, padding_t) else (posX, posY).

Fixpoint putfonts8_asc_buf (buf : list Z) (bufWidth bufHeight posX posY : Z)
    (padding_t padding_r padding_b padding_l color : Z) (s : list Z) : option (list Z * Z * Z) :=
  let fontWidth := 8 in
  let lineHeight := 24 in
  match s with
  | [] => None
  | c :: s =>
      if c =? 0 then Some (buf, posX, posY)
      else if c =? newline then
        buf ← __fill_until_eol buf bufWidth posX posY lineHeight padding_r COL8_000000;
        let '(posX, posY) := __wrap_pos_xy bufWidth bufHeight padding_l (posY + lineHeight) fontWidth lineHeight
                               padding_t padding_r padding_b padding_l in
        putfonts8_asc_buf buf bufWidth bufHeight posX posY padding_t padding_r padding_b padding_l color s
      else
        buf ← putfont8 buf bufWidth posX posY color hankaku (s8 c * 16);
        let '(posX, posY) := __wrap_pos_xy bufWidth bufHeight (posX + fontWidth) posY fontWidth lineHeight
                               padding_t padding_r padding_b padding_l in
        putfonts8_asc_buf buf bufWidth bufHeight posX posY padding_t padding_r padding_b padding_l color s
  end.

(** ** The mouse pointer, windows and the desktop *)
Definition cursor : list string := [
  "**************.."; "*OOOOOOOOOOO*..."; "*OOOOOOOOOO*...."; "*OOOOOOOOO*.....";
  "*OOOOOOOO*......"; "*OOOOOOO*......."; "*OOOOOOO*......."; "*OOOOOOOO*......";
  "*OOOO**OOO*....."; "*OOO*..*OOO*...."; "*OO*....*OOO*..."; "*O*......*OOO*..";
  "**........*OOO*."; "*..........*OOO*"; "............*OO*"; ".............***"]%string.

Definition init_mouse_cursor8 (m : list Z) (back_color : Z) : option (list Z) :=
  for_range 0 16 (fun y =>
    for_range 0 16 (fun x m =>
      t ← cell cursor x y;
      c ← cell cursor y x;
      if Ascii.eqb t "*" then m$[y * 16 + x := COL8_000000]
      else if Ascii.eqb c "O" then m$[y * 16 + x := COL8_FFFFFF]
      else if Ascii.eqb c "." then m$[y * 16 + x := back_color]
      else Some m)) m.

Definition closebtn : list string := [
  "OOOOOOOOOOOOOOO@"; "OQQQQQQQQQQQQQ$@"; "OQQQQQQQQQQQQQ$@"; "OQQQ@@QQQQ@@QQ$@";
  "OQQQQ@@QQ@@QQQ$@"; "OQQQQQ@@@@QQQQ$@"; "OQQQQQQ@@QQQQQ$@"; "OQQQQQ@@@@QQQQ$@";
  "OQQQQ@@QQ@@QQQ$@"; "OQQQ@@QQQQ@@QQ$@"; "OQQQQQQQQQQQQQ$@"; "OQQQQQQQQQQQQQ$@";
  "O$$$$$$$$$$$$$$@"; "@@@@@@@@@@@@@@@@"]%string.

Definition make_wtitle8 (buf : list Z) (xsize ysize : Z) (title : list Z) (isFocus : bool) : option (list Z) :=
  let titleFontColor := if isFocus then COL8_FFFFFF else COL8_C6C6C6 in
  let titleBarColor := if isFocus then COL8_000084 else COL8_848484 in
  buf ← boxfill8 buf xsize titleBarColor 3 3 (xsize - 4) 20;
  buf ← putfonts8_asc buf xsize 24 4 titleFontColor title;
  for_range 0 14 (fun y =>
    for_range 0 16 (fun x buf =>
      c ← cell closebtn y x;
      let c := if Ascii.eqb c "@" then COL8_000000
               else if Ascii.eqb c "$" then COL8_848484
               else if Ascii.eqb c "Q" then COL8_C6C6C6
               else COL8_FFFFFF in
      buf$[(5 + y) * xsize + (xsize - 21 + x) := c])) buf.

Definition make_window8 (buf : list Z) (xsize ysize : Z) (title : list Z) (isFocus : bool)
  : option (list Z) :=
  buf ← boxfill8 buf xsize COL8_C6C6C6 0 0 (xsize - 1) 0;
  buf ← boxfill8 buf xsize COL8_FFFFFF 1 1 (xsize - 2) 1;
  buf ← boxfill8 buf xsize COL8_C6C6C6 0 0 0 (ysize - 1);
  buf ← boxfill8 buf xsize COL8_FFFFFF 1 1 1 (ysize - 2);
  buf ← boxfill8 buf xsize COL8_848484 (xsize - 2) 1 (xsize - 2) (ysize - 2);
  buf ← boxfill8 buf xsize COL8_000000 (xsize - 1) 0 (xsize - 1) (ysize - 1);
  buf ← boxfill8 buf xsize COL8_C6C6C6 2 2 (xsize - 3) (ysize - 3);
  buf ← boxfill8 buf xsize COL8_848484 1 (ysize - 2) (xsize - 2) (ysize - 2);
  buf ← boxfill8 buf xsize COL8_000000 0 (ysize - 1) (xsize - 1) (ysize - 1);
  make_wtitle8 buf xsize ysize title isFocus.

Definition draw_desktop (vram : list Z) (xsize ysize : Z) : option (list Z) :=
  vram ← boxfill8 vram xsize COL8_008484 0 0 (xsize - 1) (ysize - 29);
  vram ← boxfill8 vram xsize COL8_C6C6C6 0 (ysize - 28) (xsize - 1) (ysize - 28);
  vram ← boxfill8 vram xsize COL8_FFFFFF 0 (ysize - 27) (xsize - 1) (ysize - 27);
  vram ← boxfill8 vram xsize COL8_C6C6C6 0 (ysize - 26) (xsize - 1) (ysize - 1);
  vram ← boxfill8 vram xsize COL8_FFFFFF 3 (ysize - 24) 59 (ysize - 24);
  vram ← boxfill8 vram xsize COL8_FFFFFF 2 (ysize - 24) 2 (ysize - 4);
  vram ← boxfill8 vram xsize COL8_848484 3 (ysize - 4) 59 (ysize - 4);
  vram ← boxfill8 vram xsize COL8_848484 59 (ysize - 23) 59 (ysize - 5);
  vram ← boxfill8 vram xsize COL8_000000 2 (ysize - 3) 59 (ysize - 3);
  vram ← boxfill8 vram xsize COL8_000000 60 (ysize - 24) 60 (ysize - 3);
  vram ← boxfill8 vram xsize COL8_848484 (xsize - 47) (ysize - 24) (xsize - 4) (ysize - 24);
  vram ← boxfill8 vram xsize COL8_848484 (xsize - 47) (ysize - 23) (xsize - 47) (ysize - 4);
  vram ← boxfill8 vram xsize COL8_FFFFFF (xsize - 47) (ysize - 3) (xsize - 4) (ysize - 3);
  boxfill8 vram xsize COL8_FFFFFF (xsize - 3) (ysize - 24) (xsize - 3) (ysize - 3).

(** [_io_out8] calls: port and byte. *)
Definition ports := list (Z * Z).

Definition table_rgb : list Z := [
  0x00; 0x00; 0x00;  0xff; 0x00; 0x00;  0x00; 0xff; 0x00;  0xff; 0xff; 0x00;
  0x00; 0x00; 0xff;  0xff; 0x00; 0xff;  0x00; 0xff; 0xff;  0xff; 0xff; 0xff;
  0xc6; 0xc6; 0xc6;  0x84; 0x00; 0x00;  0x00; 0x84; 0x00;  0x84; 0x84; 0x00;
  0x00; 0x00; 0x84;  0x84; 0x00; 0x84;  0x00; 0x84; 0x84;  0x84; 0x84; 0x84].

(** The interrupt flag is cleared and restored around the writes. *)
Definition set_palette (p : ports) (start end_ : Z) (rgb : list Z) : option ports :=
  for_range start (end_ + 1) (fun i p =>
    r ← rgb$[3 * (i - start)];
    g ← rgb$[3 * (i - start) + 1];
    b ← rgb$[3 * (i - start) + 2];
    Some (p ++ [(0x03c9, r / 4); (0x03c9, g / 4); (0x03c9, b / 4)])) (p ++ [(0x03c8, start)]).

Definition init_palette (p : ports) : option ports := set_palette p 0 15 table_rgb.

(** ** Drawing into a sheet's buffer *)
Definition on_buf (ctl : SHTCTL) (s : Z) (f : SHEET -> option (list Z)) : option SHTCTL :=
  sh ← (c_sheet0 ctl)$[s];
  buf ← f sh;
  upd_sheet ctl s (fun sh => sheet_setbuf sh buf (s_bufXsize sh) (s_bufYsize sh) (s_color_invisible sh)).

Definition make_textbox8 (ctl : SHTCTL) (sheet xStart yStart width height color : Z) : option SHTCTL :=
  let xEnd := xStart + width in
  let yEnd := yStart + height in
  on_buf ctl sheet (fun sh =>
    let xsize := s_bufXsize sh in
    buf ← boxfill8 (s_buf sh) xsize COL8_848484 (xStart - 2) (yStart - 3) (xEnd + 1) (yStart - 3);
    buf ← boxfill8 buf xsize COL8_848484 (xStart - 3) (yStart - 3) (xEnd - 3) (yEnd + 1);
    buf ← boxfill8 buf xsize COL8_FFFFFF (xStart - 3) (yEnd + 2) (xEnd + 1) (yEnd + 2);
    buf ← boxfill8 buf xsize COL8_FFFFFF (xStart + 2) (yStart - 3) (xStart + 1) (yStart + 1);
    buf ← boxfill8 buf xsize COL8_000000 (xStart - 1) (yStart - 2) (xEnd + 0) (yStart - 2);
    buf ← boxfill8 buf xsize COL8_000000 (xStart - 2) (yStart - 2) (xStart - 2) (yEnd + 0);
    buf ← boxfill8 buf xsize COL8_C6C6C6 (xStart - 2) (yEnd + 1) (xEnd + 0) (yEnd + 1);
    buf ← boxfill8 buf xsize COL8_C6C6C6 (xEnd + 1) (yStart - 2) (xEnd + 1) (yEnd + 1);
    boxfill8 buf xsize (u8 color) (xStart - 1) (yStart - 1) (xEnd + 0) (yEnd + 0)).

(** ** Text boxes

    A text box is reached through the sheet [ts] that owns it.  A sheet without
    a buffer has the empty list. *)
Definition textbox (ctl : SHTCTL) (ts : Z) : option (option TEXTBOX) :=
  sh ← (c_sheet0 ctl)$[ts]; Some (snd <$> s_textbox sh).

Definition set_textbox (ctl : SHTCTL) (ts : Z) (t : TEXTBOX) : option SHTCTL :=
  upd_sheet ctl ts (fun sh => s_set_textbox sh ((fun at_ => (at_.1, t)) <$> s_textbox sh)).

Definition t_set_box (t : TEXTBOX) (x y : Z) : TEXTBOX :=
  mkTEXTBOX (t_bufXS t) (t_bufYS t) (t_bufXE t) (t_bufYE t) (t_lineBuf t) x y (t_lineEolPos t)
    (t_lineCharPos t) (t_sheet t) (t_bgColor t) (t_charBgColor t) (t_charColor t) (t_incrementX t) (t_incrementY t).
Definition t_set_line (t : TEXTBOX) (eol pos : Z) : TEXTBOX :=
  mkTEXTBOX (t_bufXS t) (t_bufYS t) (t_bufXE t) (t_bufYE t) (t_lineBuf t) (t_boxX t) (t_boxY t) eol pos
    (t_sheet t) (t_bgColor t) (t_charBgColor t) (t_charColor t) (t_incrementX t) (t_incrementY t).

Definition has_buf (sh : SHEET) : bool := match s_buf sh with [] => false | _ => true end.

Definition __v_textbox_xy_to_sheetxy (sh : SHEET) (t : TEXTBOX) (textboxX textboxY sheetX sheetY : Z)
  : Z * Z * Z :=
  if negb (has_buf sh) then (- EIO, sheetX, sheetY)
  else
    let sX := textboxX + t_bufXS t in
    let sY := textboxY + t_bufYS t in
    (0, if sX >=? t_bufXE t then t_bufXE t else s32 sX, if sY >=? t_bufYE t then t_bufYE t else s32 sY).

Definition v_textbox_boxfill8 (ctl : SHTCTL) (t : TEXTBOX) (color x0 y0 x1 y1 : Z) : option SHTCTL :=
  sh ← (c_sheet0 ctl)$[t_sheet t];
  if negb (has_buf sh) then Some ctl
  else
    let '(r0, sheetX0, sheetY0) := __v_textbox_xy_to_sheetxy sh t x0 y0 0 0 in
    let '(r1, sheetX1, sheetY1) := __v_textbox_xy_to_sheetxy sh t x1 y1 0 0 in
    if (r0 <? 0) || (r1 <? 0) then Some ctl
    else on_buf ctl (t_sheet t) (fun sh => boxfill8 (s_buf sh) (s_bufXsize sh) color sheetX0 sheetY0 sheetX1 sheetY1).

(** The area behind the cursor is cleared and shown. *)
Definition clear_line (ctl : SHTCTL) (t : TEXTBOX) : option SHTCTL :=
  let yEnd := s32 (t_boxY t + t_incrementY t) in
  ctl ← v_textbox_boxfill8 ctl t (u8 (t_bgColor t)) (t_boxX t) (t_boxY t) (t_bufXE t) yEnd;
  v_textbox_update_sheet ctl (Some (t_sheet t)) (t_boxX t) (t_boxY t) (t_bufXE t) yEnd.

Definition textbox_newline (ctl : SHTCTL) (ts : Z) (t : TEXTBOX) : option (SHTCTL * TEXTBOX) :=
  ctl ← clear_line ctl t;
  let boxY := s32 (t_boxY t + t_incrementY t) in
  let boxY := if boxY + t_bufYS t >? t_bufYE t then 0 else boxY in
  let t := t_set_box t 0 boxY in
  ctl ← set_textbox ctl ts t;
  ctl ← clear_line ctl t;
  Some (ctl, t).

Definition textbox_putchar (ctl : SHTCTL) (ts : Z) (t : TEXTBOX) (c : Z) : option (SHTCTL * TEXTBOX) :=
  let bufX := t_boxX t + t_bufXS t in
  let bufY := t_boxY t + t_bufYS t in
  ctl ← on_buf ctl (t_sheet t) (fun sh =>
          putfont8 (s_buf sh) (s_bufXsize sh) bufX bufY (t_charColor t) hankaku (s8 c * 16));
  ctl ← v_textbox_update_sheet ctl (Some (t_sheet t)) (t_boxX t) (t_boxY t) INT32_MAX
          (s32 (t_boxY t + t_incrementY t));
  let boxX := s32 (t_boxX t + t_incrementX t) in
  let '(boxX, boxY) := if boxX + t_bufXS t + s32 (t_incrementX t) >? t_bufXE t
                       then (0, s32 (t_boxY t + t_incrementY t)) else (boxX, t_boxY t) in
  let boxY := if boxY + t_bufYS t >? t_bufYE t then 0 else boxY in
  let t := t_set_box t boxX boxY in
  ctl ← set_textbox ctl ts t;
  Some (ctl, t).

Fixpoint textbox_puts (ctl : SHTCTL) (ts : Z) (t : TEXTBOX) (s : list Z) : option SHTCTL :=
  match s with
  | [] => None
  | c :: s =>
      if c =? 0 then Some ctl
      else
        '(ctl, t) ← (if c =? newline then textbox_newline ctl ts t else textbox_putchar ctl ts t c);
        textbox_puts ctl ts t s
  end.

(** The colour that the caller asks for is computed but not used. *)
Definition v_textbox_putfonts8_asc (ctl : SHTCTL) (ts : Z) (color : Z) (s : list Z) : option SHTCTL :=
  t ← textbox ctl ts;
  match t with
  | None => Some ctl
  | Some t =>
      sh ← (c_sheet0 ctl)$[t_sheet t];
      if negb (has_buf sh) then Some ctl else textbox_puts ctl ts t s
  end.

(** ** The line buffer *)
Definition v_textbox_linebuf_addchar (m : memory) (t : option TEXTBOX) (c : Z)
  : option (Z * memory * option TEXTBOX) :=
  match t with
  | None => Some (- EIO, m, None)
  | Some t =>
      let lineBuf := t_lineBuf t in
      if lineBuf =? 0 then Some (- EIO, m, Some t)
      else if t_lineEolPos t >=? OS_TEXTBOX_LINE_BUFFER_SIZE - 1 then Some (- EIO, m, Some t)
      else
        m ← (if t_lineCharPos t <? t_lineEolPos t then
               for_range 0 (t_lineEolPos t - t_lineCharPos t + 1) (fun k m =>
                 let i := t_lineEolPos t - k in
                 b ← m !! u32 (lineBuf + i);
                 Some (<[u32 (lineBuf + (i + 1)) := b]> m)) m
             else Some m);
        Some (0, <[u32 (lineBuf + t_lineCharPos t) := c]> m,
              Some (t_set_line t (t_lineEolPos t + 1) (t_lineCharPos t + 1)))
  end.

Definition v_textbox_linebuf_clear (m : memory) (t : option TEXTBOX) : option (memory * option TEXTBOX) :=
  match t with
  | None => Some (m, None)
  | Some t =>
      if t_lineBuf t =? 0 then Some (m, Some t)
      else
        m ← for_range 0 (t_lineEolPos t) (fun i m => Some (<[u32 (t_lineBuf t + i) := 0]> m)) m;
        Some (m, Some (t_set_line t 0 0))
  end.

Definition v_textbox_reset (m : memory) (ctl : SHTCTL) (ts : Z) : option (memory * SHTCTL) :=
  t ← textbox ctl ts;
  match t with
  | None => Some (m, ctl)
  | Some t =>
      if t_lineBuf t =? 0 then Some (m, ctl)
      else
        ctl ← v_textbox_boxfill8 ctl t (u8 (t_bgColor t)) 0 0 (t_bufXE t - t_bufXS t) (t_bufYE t - t_bufYS t);
        ctl ← v_textbox_update_sheet ctl (Some (t_sheet t)) 0 0 (t_bufXE t - t_bufXS t) (t_bufYE t - t_bufYS t);
        let t := t_set_box t 0 0 in
        '(m, t) ← v_textbox_linebuf_clear m (Some t);
        t ← t;
        ctl ← set_textbox ctl ts t;
        Some (m, ctl)
  end.
