(* ===== verification/DrawSpec.v ===== *)
(** * What the drawing routines paint

    A picture of [w] by [h] pixels is a function of the coordinates; two pictures
    are equivalent when they agree on the screen.  Each routine is characterised
    by the function that it applies to the picture; text stays inside its buffer;
    windows and the desktop leave no pixel of an uninitialised buffer; the line
    buffer of a text box is a line with a cursor. *)
From Stdlib Require Import ZArith Lia Ascii String.
From stdpp Require Import base option list gmap numbers.
From S2P Require Import Prelude Kutil Heapdl Memory Font Sheet SheetSpec Draw.

Set Default Proof Using "Type".

Abbreviation picture := (Z -> Z -> Z).

(** ** Rectangles *)
Definition in_rect (x0 y0 x1 y1 x y : Z) : bool := (x0 <=? x) && (x <=? x1) && (y0 <=? y) && (y <=? y1).

Lemma in_rect_spec x0 y0 x1 y1 x y :
  in_rect x0 y0 x1 y1 x y = true <-> (x0 <= x <= x1 /\ y0 <= y <= y1).
Proof. unfold in_rect. rewrite !andb_true_iff, !Z.leb_le. lia. Qed.

Definition fill (color x0 y0 x1 y1 : Z) (g : picture) : picture :=
  fun x y => if in_rect x0 y0 x1 y1 x y then color else g x y.

(** The rectangle lies in a picture of [w] by [h], or is empty. *)
Definition rect_ok (w h x0 y0 x1 y1 : Z) : Prop := 0 <= x0 /\ x1 < w /\ 0 <= y0 /\ y1 < h.

Section pictures.
Context (w h : Z).

(** [f] applies [T] to any picture. *)
Definition paints (f : list Z -> option (list Z)) (T : picture -> picture) : Prop :=
  forall buf g, shows w h buf g -> exists buf', f buf = Some buf' /\ shows w h buf' (T g).

Definition agree (g g' : picture) : Prop := forall x y, 0 <= x < w -> 0 <= y < h -> g x y = g' x y.

#[export] Instance agree_equiv : Equivalence agree.
Proof.
  split.
  - by intros g x y.
  - intros g g' H x y Hx Hy. symmetry. by apply H.
  - intros g1 g2 g3 H1 H2 x y Hx Hy. rewrite H1 by done. by apply H2.
Qed.

#[export] Instance fill_proper c x0 y0 x1 y1 : Proper (agree ==> agree) (fill c x0 y0 x1 y1).
Proof. intros g g' H x y Hx Hy. unfold fill. destruct (in_rect _ _ _ _ _ _); [done|]. by apply H. Qed.

#[export] Instance shows_proper buf : Proper (agree ==> iff) (shows w h buf).
Proof. intros g g' H. split; apply shows_ext; [done|]. intros x y Hx Hy. symmetry. by apply H. Qed.

Lemma boxfill8_paints color x0 y0 x1 y1 :
  rect_ok w h x0 y0 x1 y1 ->
  paints (fun buf => boxfill8 buf w color x0 y0 x1 y1) (fill color x0 y0 x1 y1).
Proof.
  intros (H1 & H2 & H3 & H4) buf g Hs. unfold boxfill8.
  destruct (paint_rect w h (fun _ _ => Some color) 0 0 x0 x1
    (fun y x vram => vram$[y * w + x := color]) y0 y1 buf g Hs) as (buf' & E & Hs').
  - intros y Hy x Hx. split_and!; [lia..|]. intros arr. by rewrite !Z.add_0_l, (Z.mul_comm y).
  - exists buf'. split; [exact E|]. eapply shows_ext; [|exact Hs']. intros x y _ _. unfold fill. cbn [default from_option].
    destruct (in_rect x0 y0 x1 y1 x y) eqn:R.
    + apply in_rect_spec in R. by rewrite decide_True by lia.
    + rewrite decide_False; [done|]. intros R'. apply not_true_iff_false in R. apply R, in_rect_spec. lia.
Qed.

Lemma paints_bind f1 f2 T1 T2 :
  paints f1 T1 -> paints f2 T2 -> paints (fun buf => buf ← f1 buf; f2 buf) (fun g => T2 (T1 g)).
Proof.
  intros H1 H2 buf g Hs. destruct (H1 buf g Hs) as (b1 & -> & Hs1). destruct (H2 b1 _ Hs1) as (b2 & E & Hs2).
  exists b2. by split.
Qed.

Lemma paints_ext f T T' : (forall g, agree (T g) (T' g)) -> paints f T -> paints f T'.
Proof. intros HT H buf g Hs. destruct (H buf g Hs) as (b & E & Hb). exists b. split; [done|]. by rewrite <- HT. Qed.

(** ** Characters *)

(** The pixel [x, y] of the glyph that starts at [glyph]. *)
Definition glyph_bit (glyph x y : Z) : bool :=
  match hankaku$[glyph + y] with Some row => Z.testbit row (7 - x) | None => false end.

Definition glyph_at (glyph x0 y0 color : Z) (g : picture) : picture :=
  fun x y => if in_rect x0 y0 (x0 + 7) (y0 + 15) x y && glyph_bit glyph (x - x0) (y - y0) then color else g x y.

Lemma row_bit row k : 0 <= k < 8 -> negb (Z.land row (Z.shiftr 0x80 k) =? 0) = Z.testbit row (7 - k).
Proof.
  intros Hk. assert (Z.shiftr 0x80 k = 2 ^ (7 - k)) as ->.
  { change 0x80 with (2 ^ 7). rewrite Z.shiftr_div_pow2 by lia. by rewrite <- Z.pow_sub_r by lia. }
  destruct (Z.testbit row (7 - k)) eqn:E.
  - apply negb_true_iff, Z.eqb_neq. intros H. apply (f_equal (fun z => Z.testbit z (7 - k))) in H.
    rewrite Z.land_spec, E, Z.pow2_bits_true, Z.bits_0 in H by lia. done.
  - apply negb_false_iff, Z.eqb_eq. apply Z.bits_inj'. intros n Hn.
    rewrite Z.land_spec, Z.pow2_bits_eqb, Z.bits_0 by lia.
    destruct (Z.eqb_spec (7 - k) n) as [<-|]; by rewrite ?E, ?andb_false_r.
Qed.

Lemma putfont8_paints x0 y0 color glyph :
  rect_ok w h x0 y0 (x0 + 7) (y0 + 15) -> 0 <= glyph -> glyph + 16 <= 4096 ->
  paints (fun buf => putfont8 buf w x0 y0 color hankaku glyph) (glyph_at glyph x0 y0 (u8 color)).
Proof.
  intros (H1 & H2 & H3 & H4) Hg0 Hg1 buf g Hs. unfold putfont8.
  destruct (paint_rect w h (fun x y => if glyph_bit glyph (x - x0) (y - y0) then Some (u8 color) else None) x0 y0 0 7
    (fun i k vram => row ← hankaku$[glyph + i];
       if negb (Z.land row (Z.shiftr 0x80 k) =? 0) then vram$[(y0 + i) * w + x0 + k := u8 color] else Some vram)
    0 15 buf g Hs) as (buf' & E & Hs').
  - intros i Hi k Hk. split_and!; [lia..|]. intros arr.
    destruct (lookupZ_is_Some hankaku (glyph + i)) as [row Er].
    { change (length hankaku) with 4096%nat. lia. }
    unfold glyph_bit. replace (y0 + i - y0) with i by lia. replace (x0 + k - x0) with k by lia.
    rewrite Er. cbn [mbind option_bind]. rewrite row_bit by lia. destruct (Z.testbit row (7 - k)); [|done].
    f_equal. lia.
  - exists buf'. split.
    + rewrite <- E. unfold for_range. apply for_loop_ext. intros i a Hi.
      destruct (lookupZ_is_Some hankaku (glyph + i)) as [row Er].
      { change (length hankaku) with 4096%nat. simpl in Hi. lia. }
      rewrite Er. reflexivity.
    + eapply shows_ext; [|exact Hs']. intros x y _ _. unfold glyph_at.
      destruct (in_rect x0 y0 (x0 + 7) (y0 + 15) x y) eqn:R.
      * apply in_rect_spec in R. rewrite decide_True by lia. by destruct (glyph_bit _ _ _).
      * rewrite decide_False; [done|]. intros R'. apply not_true_iff_false in R. apply R, in_rect_spec. lia.
Qed.

(** ** Text in a padded buffer *)
Lemma for_loop_shift {S} n lo d (f : Z -> S -> option S) s :
  for_loop n (lo + d) f s = for_loop n lo (fun i => f (i + d)) s.
Proof.
  revert lo s. induction n as [|n IH]; intros lo s; [done|]. cbn [for_loop].
  destruct (f (lo + d) s) as [s'|]; [|done]. cbn [mbind option_bind].
  replace (lo + d + 1) with (lo + 1 + d) by lia. apply IH.
Qed.

Lemma fill_until_eol_paints x0 y0 lh pr color :
  0 <= x0 -> 0 <= pr -> 0 <= y0 -> y0 + lh <= h -> 0 <= lh ->
  paints (fun buf => __fill_until_eol buf w x0 y0 lh pr color) (fill color x0 y0 (w - pr - 1) (y0 + lh - 1)).
Proof.
  intros Hx Hpr Hy Hh Hl buf g Hs. unfold __fill_until_eol.
  destruct (paint_rect w h (fun _ _ => Some color) 0 y0 x0 (w - pr - 1)
    (fun row x buf => buf$[x + (y0 + row) * w := color]) 0 (lh - 1) buf g Hs) as (buf' & E & Hs').
  - intros row Hr x Hx'. split_and!; [lia..|]. intros arr. f_equal. lia.
  - exists buf'. split.
    + replace (lh - 1 + 1) with lh in E by lia. rewrite <- E. unfold for_range at 1 3. apply for_loop_ext.
      intros row a _. unfold for_range.
      replace ((y0 + row) * w + x0) with (x0 + (y0 + row) * w) by lia. rewrite for_loop_shift. f_equal. lia.
    + eapply shows_ext; [|exact Hs']. intros x y _ _. unfold fill. cbn [default from_option].
      destruct (in_rect x0 y0 (w - pr - 1) (y0 + lh - 1) x y) eqn:R.
      * apply in_rect_spec in R. by rewrite decide_True by lia.
      * rewrite decide_False; [done|]. intros R'. apply not_true_iff_false in R. apply R, in_rect_spec. lia.
Qed.

Context (pt pr pb pl : Z).

(** Room for one character inside the padding. *)
Definition fits (x y : Z) : Prop := pl <= x /\ x + 8 <= w - pr /\ pt <= y /\ y + 24 <= h - pb.
Definition inside (x y : Z) : Prop := pl <= x < w - pr /\ pt <= y < h - pb.

Definition pads_ok : Prop :=
  0 <= pt /\ 0 <= pr /\ 0 <= pb /\ 0 <= pl /\ pl + 8 <= w - pr /\ pt + 24 <= h - pb.

Lemma wrap_fits x y :
  pads_ok -> pl <= x -> pt <= y -> y + 24 <= h - pb \/ x = pl ->
  let '(x', y') := __wrap_pos_xy w h x y 8 24 pt pr pb pl in fits x' y'.
Proof.
  intros (H1 & H2 & H3 & H4 & H5 & H6) Hx Hy Hor. unfold __wrap_pos_xy, fits. rewrite !Z.gtb_ltb.
  destruct (Z.ltb_spec (w - pr) (x + 8)); rewrite ?Z.gtb_ltb.
  - destruct (Z.ltb_spec (h - pb) (y + 24 + 24)); lia.
  - destruct (Z.ltb_spec (h - pb) (y + 24)); lia.
Qed.

Definition is_ascii (c : Z) : Prop := 0 < c < 128.

Lemma s8_ascii c : is_ascii c -> s8 c = c.
Proof. intros H. unfold s8. unfold is_ascii in H. rewrite Z.mod_small; lia. Qed.

Lemma text_inside color str x y buf g :
  pads_ok -> Forall is_ascii str -> fits x y -> shows w h buf g ->
  exists buf' g' x' y',
    putfonts8_asc_buf buf w h x y pt pr pb pl color (str ++ [0]) = Some (buf', x', y')
    /\ shows w h buf' g' /\ fits x' y'
    /\ forall px py, ~ inside px py -> g' px py = g px py.
Proof.
  intros Hp Hstr. revert x y buf g. pose proof Hp as (? & ? & ? & ? & ? & ?).
  induction Hstr as [|c str Hc Hstr IH]; intros x y buf g Hf Hs; cbn [app putfonts8_asc_buf].
  - by exists buf, g, x, y.
  - destruct (Z.eqb_spec c 0); [unfold is_ascii in Hc; lia|]. destruct Hf as (? & ? & ? & ?).
    destruct (c =? newline).
    + destruct (fill_until_eol_paints x y 24 pr COL8_000000 ltac:(lia) ltac:(lia) ltac:(lia) ltac:(lia) ltac:(lia) buf g Hs)
        as (b1 & -> & Hs1). cbn [mbind option_bind].
      pose proof (wrap_fits pl (y + 24) Hp ltac:(lia) ltac:(lia) ltac:(lia)) as Hw.
      destruct (__wrap_pos_xy w h pl (y + 24) 8 24 pt pr pb pl) as [x1 y1].
      destruct (IH x1 y1 b1 _ Hw Hs1) as (b2 & g2 & x2 & y2 & E & Hs2 & Hf2 & Hg2).
      exists b2, g2, x2, y2. split_and!; [done..|]. intros px py Hn. rewrite Hg2 by done. unfold fill.
      destruct (in_rect _ _ _ _ _ _) eqn:R; [|done]. apply in_rect_spec in R. unfold inside in Hn. lia.
    + destruct (putfont8_paints x y color (s8 c * 16)) with (buf := buf) (g := g) as (b1 & -> & Hs1);
        [unfold rect_ok; lia|rewrite s8_ascii by done; unfold is_ascii in Hc; lia
        |rewrite s8_ascii by done; unfold is_ascii in Hc; lia|done|]. cbn [mbind option_bind].
      pose proof (wrap_fits (x + 8) y Hp ltac:(lia) ltac:(lia) ltac:(lia)) as Hw.
      destruct (__wrap_pos_xy w h (x + 8) y 8 24 pt pr pb pl) as [x1 y1].
      destruct (IH x1 y1 b1 _ Hw Hs1) as (b2 & g2 & x2 & y2 & E & Hs2 & Hf2 & Hg2).
      exists b2, g2, x2, y2. split_and!; [done..|]. intros px py Hn. rewrite Hg2 by done. unfold glyph_at.
      destruct (in_rect _ _ _ _ _ _) eqn:R; [|done]. apply in_rect_spec in R. unfold inside in Hn. lia.
Qed.
End pictures.

(** Text printed into a buffer with padding, from a position that has room for
    a character, is drawn without an access outside of the buffer, leaves every
    pixel of the padding as it was, whatever the text's length and its line
    breaks, and ends at a position that again has room for a character. *)
Theorem putfonts8_asc_buf_safe w h pt pr pb pl color str x y buf g :
  pads_ok w h pt pr pb pl -> Forall is_ascii str -> fits w h pt pr pb pl x y -> shows w h buf g ->
  exists buf' g' x' y',
    putfonts8_asc_buf buf w h x y pt pr pb pl color (str ++ [0]) = Some (buf', x', y')
    /\ shows w h buf' g' /\ fits w h pt pr pb pl x' y'
    /\ forall px py, ~ inside w h pt pr pb pl px py -> g' px py = g px py.
Proof. apply text_inside. Qed.

Lemma shows_constant w h c : 0 <= w -> 0 <= h -> shows w h (replicate (Z.to_nat (w * h)) c) (fun _ _ => c).
Proof.
  intros Hw Hh. split; [rewrite length_replicate; nia|]. intros x y Hx Hy. apply lookupZ_Some.
  pose proof (cell_range w h x y Hx Hy). split; [lia|]. apply lookup_replicate_2. lia.
Qed.

Lemma putfonts8_asc_buf_safe_witness :
  exists buf' g' x' y',
    putfonts8_asc_buf (replicate 2400 7) 40 60 2 3 1 1 1 2 9 ([72; 105; 10; 33] ++ [0]) = Some (buf', x', y')
    /\ shows 40 60 buf' g' /\ fits 40 60 1 1 1 2 x' y'
    /\ forall px py, ~ inside 40 60 1 1 1 2 px py -> g' px py = 7.
Proof.
  apply (putfonts8_asc_buf_safe 40 60 1 1 1 2 9 [72; 105; 10; 33] 2 3 (replicate 2400 7) (fun _ _ => 7)).
  - unfold pads_ok. lia.
  - repeat constructor; done.
  - unfold fits. lia.
  - apply (shows_constant 40 60 7); lia.
Defined.

(** ** Pictures that do not depend on what the buffer held *)
Section complete.
Context (w h : Z).

Definition good (f : list Z -> option (list Z)) : Prop :=
  exists T, paints w h f T /\ Proper (agree w h ==> agree w h) T.

Definition complete (f : list Z -> option (list Z)) : Prop :=
  exists g, forall buf, Z.of_nat (length buf) = w * h ->
    exists buf', f buf = Some buf' /\ shows w h buf' g.

Lemma good_boxfill color x0 y0 x1 y1 :
  rect_ok w h x0 y0 x1 y1 -> good (fun buf => boxfill8 buf w color x0 y0 x1 y1).
Proof. intros H. eexists. split; [by apply boxfill8_paints|]. apply fill_proper. Qed.

Lemma good_bind f1 f2 : good f1 -> good f2 -> good (fun buf => buf ← f1 buf; f2 buf).
Proof.
  intros (T1 & H1 & P1) (T2 & H2 & P2). exists (fun g => T2 (T1 g)). split; [by apply paints_bind|].
  intros g g' Hg. by apply P2, P1.
Qed.

(** A buffer of the right size shows some picture. *)
Lemma shows_buffer buf : Z.of_nat (length buf) = w * h -> shows w h buf (fun x y => default 0 (buf$[w * y + x])).
Proof.
  intros Hl. split; [done|]. intros x y Hx Hy. pose proof (cell_range w h x y Hx Hy).
  destruct (lookupZ_is_Some buf (w * y + x)) as [v ->]; [lia|done].
Qed.

Lemma paints_complete f T :
  paints w h f T -> (forall g g', agree w h (T g) (T g')) -> complete f.
Proof.
  intros HT Hc. exists (T (fun _ _ => 0)). intros buf Hl.
  destruct (HT buf _ (shows_buffer buf Hl)) as (buf' & E & Hs). exists buf'. split; [done|].
  by rewrite (Hc _ (fun x y => default 0 (buf$[w * y + x]))).
Qed.

(** Two pictures agree at a point; a rectangle over it makes them agree. *)
Lemma fill_same color x0 y0 x1 y1 (g g' : picture) x y :
  (x0 <= x <= x1 /\ y0 <= y <= y1) \/ g x y = g' x y ->
  fill color x0 y0 x1 y1 g x y = fill color x0 y0 x1 y1 g' x y.
Proof.
  unfold fill. intros [H|H].
  - by rewrite (proj2 (in_rect_spec x0 y0 x1 y1 x y) H).
  - by destruct (in_rect _ _ _ _ _ _).
Qed.

Lemma draw_desktop_complete : 61 <= w -> 28 <= h -> complete (fun buf => draw_desktop buf w h).
Proof.
  intros Hw Hh. eapply paints_complete.
  - unfold draw_desktop.
    repeat (eapply paints_bind; [apply boxfill8_paints; unfold rect_ok; lia|]).
    apply boxfill8_paints. unfold rect_ok. lia.
  - intros g g'. cbv beta. do 10 apply fill_proper. intros x y Hx Hy.
    destruct (decide (y <= h - 29)); [do 3 (apply fill_same; right); apply fill_same; lia|].
    destruct (decide (y = h - 28)); [do 2 (apply fill_same; right); apply fill_same; lia|].
    destruct (decide (y = h - 27)); [apply fill_same; right; apply fill_same; lia|].
    apply fill_same. lia.
Qed.

Lemma good_title x color s :
  Forall is_ascii s -> 0 <= x -> x + 8 * Z.of_nat (length s) <= w -> 20 <= h ->
  good (fun buf => putfonts8_asc buf w x 4 color (s ++ [0])).
Proof.
  intros Hs. revert x. induction Hs as [|c s Hc Hs IH]; intros x Hx Hw Hh; cbn [app putfonts8_asc length] in *.
  - exists (fun g => g). split; [|by intros g g'].
    intros buf g Hb. by exists buf.
  - rewrite (proj2 (Z.eqb_neq c 0)) by (unfold is_ascii in Hc; lia).
    apply (good_bind (fun buf => putfont8 buf w x 4 color hankaku (s8 c * 16))).
    + exists (glyph_at (s8 c * 16) x 4 (u8 color)). rewrite s8_ascii by done. unfold is_ascii in Hc. split.
      * apply putfont8_paints; [unfold rect_ok|..]; lia.
      * intros g g' Hg px py Hpx Hpy. unfold glyph_at. destruct (_ && _); [done|]. by apply Hg.
    + apply IH; lia.
Qed.

(** The 14 by 16 picture of the button, a function of its pixels. *)
Definition button_color (y x : Z) : Z :=
  match cell closebtn y x with
  | Some c => if Ascii.eqb c "@" then COL8_000000
              else if Ascii.eqb c "$" then COL8_848484
              else if Ascii.eqb c "Q" then COL8_C6C6C6
              else COL8_FFFFFF
  | None => 0
  end.

Lemma closebtn_cell y x : 0 <= y < 14 -> 0 <= x < 16 -> is_Some (cell closebtn y x).
Proof.
  intros Hy Hx. unfold cell. destruct (lookupZ_is_Some closebtn y) as [r E]; [change (length closebtn) with 14%nat; lia|].
  rewrite E. cbn [mbind option_bind].
  assert (length (list_ascii_of_string r) = 16%nat) as Hl.
  { apply lookupZ_Some in E as [_ E]. apply list_elem_of_lookup_2 in E. unfold closebtn in E.
    repeat (apply list.elem_of_cons in E as [->|E]; [reflexivity|]). by apply elem_of_nil in E. }
  apply lookupZ_is_Some. lia.
Qed.

Lemma good_button : 21 <= w -> 19 <= h ->
  good (fun buf => for_range 0 14 (fun y => for_range 0 16 (fun x buf =>
    c ← cell closebtn y x;
    let c := if Ascii.eqb c "@" then COL8_000000 else if Ascii.eqb c "$" then COL8_848484
             else if Ascii.eqb c "Q" then COL8_C6C6C6 else COL8_FFFFFF in
    buf$[(5 + y) * w + (w - 21 + x) := c])) buf).
Proof.
  intros Hw Hh.
  exists (fun g x y => if decide (0 <= x - (w - 21) <= 15 /\ 0 <= y - 5 <= 13)
                       then button_color (y - 5) (x - (w - 21)) else g x y). split.
  - intros buf g Hs.
    apply (paint_rect w h (fun x y => Some (button_color (y - 5) (x - (w - 21)))) (w - 21) 5 0 15 _ 0 13 buf g Hs).
    intros y Hy x Hx. split_and!; [lia..|]. intros arr.
    replace (5 + y - 5) with y by lia. replace (w - 21 + x - (w - 21)) with x by lia.
    unfold button_color. destruct (closebtn_cell y x) as [c ->]; [lia..|]. cbn [mbind option_bind]. f_equal. lia.
  - intros g g' Hg x y Hx Hy. case_decide; [done|]. by apply Hg.
Qed.

Lemma good_wtitle title isFocus :
  Forall is_ascii title -> 24 + 8 * Z.of_nat (length title) <= w -> 21 <= h ->
  good (fun buf => make_wtitle8 buf w h (title ++ [0]) isFocus).
Proof.
  intros Ht Hw Hh. unfold make_wtitle8.
  apply (good_bind (fun buf => boxfill8 buf w _ 3 3 (w - 4) 20)); [apply good_boxfill; unfold rect_ok; lia|].
  apply (good_bind (fun buf => putfonts8_asc buf w 24 4 _ (title ++ [0]))); [apply good_title; [done|lia..]|].
  apply good_button; lia.
Qed.

Lemma make_window8_complete title isFocus :
  Forall is_ascii title -> 24 + 8 * Z.of_nat (length title) <= w -> 21 <= h ->
  complete (fun buf => make_window8 buf w h (title ++ [0]) isFocus).
Proof.
  intros Ht Hw Hh. destruct (good_wtitle title isFocus Ht Hw Hh) as (T & HT & PT).
  eapply paints_complete.
  - unfold make_window8. do 9 (eapply paints_bind; [apply boxfill8_paints; unfold rect_ok; lia|]). exact HT.
  - intros g g'. cbv beta. apply PT. intros x y Hx Hy.
    destruct (decide (y = h - 1)); [apply fill_same; lia|]. apply fill_same; right.
    destruct (decide (x = 0)).
    { do 5 (apply fill_same; right). apply fill_same. lia. }
    destruct (decide (x = w - 1)).
    { do 2 (apply fill_same; right). apply fill_same. lia. }
    destruct (decide (y = h - 2)); [apply fill_same; lia|]. apply fill_same; right.
    destruct (decide (2 <= x <= w - 3 /\ 2 <= y <= h - 3)); [apply fill_same; lia|].
    apply fill_same; right. apply fill_same; right.
    destruct (decide (x = w - 2 /\ 1 <= y)); [apply fill_same; lia|]. apply fill_same; right.
    destruct (decide (x = 1 /\ 1 <= y)); [apply fill_same; lia|]. apply fill_same; right. apply fill_same; right.
    destruct (decide (y = 1)); [apply fill_same; lia|]. apply fill_same; right. apply fill_same. lia.
Qed.
End complete.

(** The desktop and a window are drawn completely: into any buffer of their
    size, whatever it held, the routines paint without an access outside of it
    and every pixel of the result is determined, so nothing of the uninitialised
    block that [kmalloc] returned can show on the screen. *)
Theorem windows_drawn_completely w h title isFocus :
  61 <= w -> 28 <= h -> Forall is_ascii title -> 24 + 8 * Z.of_nat (length title) <= w ->
  complete w h (fun buf => draw_desktop buf w h)
  /\ complete w h (fun buf => make_window8 buf w h (title ++ [0]) isFocus).
Proof. intros. split; [by apply draw_desktop_complete|]. apply make_window8_complete; [done|lia..]. Qed.

Lemma windows_drawn_completely_witness :
  complete 160 68 (fun buf => draw_desktop buf 160 68)
  /\ complete 160 68 (fun buf => make_window8 buf 160 68 (cstr "window") false).
Proof.
  apply (windows_drawn_completely 160 68 [119; 105; 110; 100; 111; 119] false);
    [lia|lia|repeat constructor; done|vm_compute; discriminate].
Defined.

(** ** The line buffer *)

(** The buffer holds [before] and [after], with the cursor between them, and
    zeros behind. *)
Record line_is (m : memory) (t : TEXTBOX) (before after : list Z) : Prop := {
  li_buf : 0 < t_lineBuf t /\ t_lineBuf t + OS_TEXTBOX_LINE_BUFFER_SIZE <= 2 ^ 32;
  li_pos : t_lineCharPos t = Z.of_nat (length before);
  li_eol : t_lineEolPos t = Z.of_nat (length (before ++ after));
  li_max : Z.of_nat (length (before ++ after)) <= OS_TEXTBOX_LINE_BUFFER_SIZE - 1;
  li_at : forall i, 0 <= i < OS_TEXTBOX_LINE_BUFFER_SIZE ->
            m !! (t_lineBuf t + i) = Some (default 0 ((before ++ after)$[i]))
}.

Definition same_outside (t : TEXTBOX) (m m' : memory) : Prop :=
  forall a, ~ (t_lineBuf t <= a < t_lineBuf t + OS_TEXTBOX_LINE_BUFFER_SIZE) -> m' !! a = m !! a.

(** The shift by one place. *)
Lemma linebuf_shift (m : memory) lb pos eol :
  0 < lb -> lb + OS_TEXTBOX_LINE_BUFFER_SIZE <= 2 ^ 32 -> 0 <= pos <= eol -> eol < OS_TEXTBOX_LINE_BUFFER_SIZE - 1 ->
  (forall i, 0 <= i < OS_TEXTBOX_LINE_BUFFER_SIZE -> is_Some (m !! (lb + i))) ->
  exists m', for_range 0 (eol - pos + 1) (fun k (m : memory) =>
      let i := eol - k in b ← m !! u32 (lb + i); Some (<[u32 (lb + (i + 1)) := b]> m)) m = Some m'
    /\ forall a, m' !! a = if decide (lb + pos + 1 <= a <= lb + eol + 1) then m !! (a - 1) else m !! a.
Proof.
  intros H0 Hu Hp He Hm. unfold OS_TEXTBOX_LINE_BUFFER_SIZE in *.
  destruct (for_range_inv (fun k (m' : memory) => forall a,
      m' !! a = if decide (lb + eol - k + 2 <= a <= lb + eol + 1) then m !! (a - 1) else m !! a)
    0 (eol - pos + 1) (fun k (m : memory) => let i := eol - k in
       b ← m !! u32 (lb + i); Some (<[u32 (lb + (i + 1)) := b]> m)) m) as (m' & E & Hr).
  - lia.
  - intros a. by rewrite decide_False by lia.
  - intros k m1 Hk H1. cbv zeta. rewrite (u32_small (lb + (eol - k))), (u32_small (lb + (eol - k + 1))) by lia.
    rewrite H1, decide_False by lia. destruct (Hm (eol - k)) as [b Eb]; [lia|]. rewrite Eb. cbn [mbind option_bind].
    eexists. split; [reflexivity|]. intros a.
    destruct (decide (a = lb + (eol - k + 1))) as [->|Hne].
    + rewrite lookup_insert_eq, decide_True by lia. rewrite <- Eb. f_equal. lia.
    + rewrite lookup_insert_ne, H1 by done. repeat case_decide; try done; lia.
  - exists m'. split; [done|]. intros a. rewrite Hr. repeat case_decide; try done; lia.
Qed.

(** The line with a character inserted at the cursor, place by place. *)
Lemma insert_lookup (before after : list Z) c i :
  default 0 ((before ++ [c] ++ after)$[i])
  = if decide (i = Z.of_nat (length before)) then c
    else if decide (i < Z.of_nat (length before)) then default 0 ((before ++ after)$[i])
    else default 0 ((before ++ after)$[i - 1]).
Proof.
  unfold lookupZ. cbn [app]. repeat case_decide; subst.
  - rewrite (proj2 (Z.leb_le 0 _)), Nat2Z.id by lia. by rewrite list_lookup_middle.
  - destruct (Z.leb_spec 0 i); [|done]. by rewrite !lookup_app_l by lia.
  - destruct (Z.leb_spec 0 i), (Z.leb_spec 0 (i - 1)); try lia.
    rewrite lookup_app_r by lia. rewrite lookup_cons_ne_0 by lia. rewrite lookup_app_r by lia. do 2 f_equal. lia.
Qed.

Lemma addchar_inserts m t before after c :
  line_is m t before after -> Z.of_nat (length (before ++ after)) < OS_TEXTBOX_LINE_BUFFER_SIZE - 1 ->
  exists m' t', v_textbox_linebuf_addchar m (Some t) c = Some (0, m', Some t')
    /\ line_is m' t' (before ++ [c]) after /\ same_outside t m m'.
Proof.
  intros [[Hb1 Hb2] Hp He Hmx Hat] Hlt. unfold v_textbox_linebuf_addchar.
  rewrite (proj2 (Z.eqb_neq _ 0)) by lia. rewrite Z.geb_leb, (proj2 (Z.leb_gt _ _)) by lia.
  assert (Hpe : 0 <= t_lineCharPos t <= t_lineEolPos t) by (rewrite Hp, He, length_app; lia).
  destruct (linebuf_shift m (t_lineBuf t) (t_lineCharPos t) (t_lineEolPos t)) as (m1 & E1 & H1);
    [done|done|done|lia|intros i Hi; rewrite Hat by done; done|].
  set (lb := t_lineBuf t) in *.
  (* without a tail there is nothing to move, and the next byte is zero already *)
  assert (exists m2, (if t_lineCharPos t <? t_lineEolPos t then
             for_range 0 (t_lineEolPos t - t_lineCharPos t + 1) (fun k (m : memory) =>
               let i := t_lineEolPos t - k in b ← m !! u32 (lb + i); Some (<[u32 (lb + (i + 1)) := b]> m)) m
           else Some m) = Some m2
         /\ forall a, a <> lb + t_lineCharPos t -> m2 !! a = m1 !! a) as (m2 & E2 & H2).
  { destruct (Z.ltb_spec (t_lineCharPos t) (t_lineEolPos t)) as [Hlt'|Hge]; [by exists m1|].
    exists m. split; [done|]. intros a Ha. rewrite H1. case_decide; [|done].
    assert (a = lb + (t_lineEolPos t + 1)) as -> by lia.
    replace (lb + (t_lineEolPos t + 1) - 1) with (lb + t_lineEolPos t) by lia.
    rewrite !Hat by lia. f_equal. unfold lookupZ. rewrite !(proj2 (Z.leb_le 0 _)) by lia.
    rewrite !lookup_ge_None_2 by lia. done. }
  cbv zeta in E2 |- *. fold lb. rewrite E2. cbn [mbind option_bind]. eexists _, _. split; [reflexivity|].
  rewrite u32_small by (unfold lb; lia). split; [|].
  - split; cbn [t_lineBuf t_lineCharPos t_lineEolPos t_set_line]; fold lb.
    + done.
    + rewrite Hp, length_app. simpl. lia.
    + rewrite He, <- (assoc_L (++)), !length_app. simpl. lia.
    + rewrite <- (assoc_L (++)), !length_app in *. simpl. lia.
    + intros i Hi. rewrite <- (assoc_L (++)), insert_lookup, <- Hp.
      destruct (decide (i = t_lineCharPos t)) as [->|Hne]; [by rewrite lookup_insert_eq|].
      rewrite lookup_insert_ne by lia. rewrite H2, H1 by lia.
      destruct (decide (i < t_lineCharPos t)).
      * rewrite decide_False by lia. by apply Hat.
      * destruct (decide (lb + t_lineCharPos t + 1 <= lb + i <= lb + t_lineEolPos t + 1)).
        -- replace (lb + i - 1) with (lb + (i - 1)) by lia. apply Hat. lia.
        -- rewrite Hat by lia. f_equal. unfold lookupZ. rewrite !(proj2 (Z.leb_le 0 _)) by lia.
           by rewrite !lookup_ge_None_2 by lia.
  - intros a Ha. fold lb in Ha. rewrite lookup_insert_ne by lia. rewrite H2, H1 by lia. by rewrite decide_False by lia.
Qed.

Lemma clear_empties m t before after :
  line_is m t before after ->
  exists m' t', v_textbox_linebuf_clear m (Some t) = Some (m', Some t')
    /\ line_is m' t' [] [] /\ same_outside t m m'.
Proof.
  intros [[Hb1 Hb2] Hp He Hmx Hat]. unfold v_textbox_linebuf_clear.
  rewrite (proj2 (Z.eqb_neq _ 0)) by lia. set (lb := t_lineBuf t) in *. unfold OS_TEXTBOX_LINE_BUFFER_SIZE in *.
  destruct (for_range_inv (fun k (m' : memory) => forall a,
      m' !! a = if decide (lb <= a < lb + k) then Some 0 else m !! a)
    0 (t_lineEolPos t) (fun i (m : memory) => Some (<[u32 (lb + i) := 0]> m)) m) as (m' & E & Hr).
  - lia.
  - intros a. by rewrite decide_False by lia.
  - intros k m1 Hk H1. rewrite u32_small by lia. eexists. split; [reflexivity|]. intros a.
    destruct (decide (a = lb + k)) as [->|Hne].
    + by rewrite lookup_insert_eq, decide_True by lia.
    + rewrite lookup_insert_ne, H1 by done. repeat case_decide; try done; lia.
  - rewrite E. cbn [mbind option_bind]. eexists _, _. split; [reflexivity|]. split.
    + split; cbn [t_lineBuf t_lineCharPos t_lineEolPos t_set_line app length]; fold lb;
        unfold OS_TEXTBOX_LINE_BUFFER_SIZE; [done|done|done|lia|].
      intros i Hi. rewrite Hr. assert (([] : list Z)$[i] = None) as ->.
      { unfold lookupZ. by destruct (0 <=? i). }
      case_decide; [done|]. rewrite Hat by lia. f_equal. unfold lookupZ. rewrite (proj2 (Z.leb_le 0 _)) by lia.
      by rewrite lookup_ge_None_2 by lia.
    + intros a Ha. rewrite Hr, decide_False; [done|]. unfold OS_TEXTBOX_LINE_BUFFER_SIZE in Ha. fold lb in Ha. lia.
Qed.

(** The line buffer of a text box behaves as a line with a cursor: adding a
    character inserts it before the cursor, moving the rest of the line and its
    terminator by one place, until the buffer is full, when the call fails and
    changes nothing; clearing gives the empty line; other memory is untouched. *)
Theorem linebuf_is_a_line m t before after c :
  line_is m t before after ->
  (if decide (Z.of_nat (length (before ++ after)) < OS_TEXTBOX_LINE_BUFFER_SIZE - 1)
   then exists m' t', v_textbox_linebuf_addchar m (Some t) c = Some (0, m', Some t')
          /\ line_is m' t' (before ++ [c]) after /\ same_outside t m m'
   else v_textbox_linebuf_addchar m (Some t) c = Some (- EIO, m, Some t))
  /\ exists m' t', v_textbox_linebuf_clear m (Some t) = Some (m', Some t')
       /\ line_is m' t' [] [] /\ same_outside t m m'.
Proof.
  intros H. split; [|by eapply clear_empties]. case_decide; [by apply addchar_inserts|].
  destruct H as [[Hb1 Hb2] Hp He Hmx Hat]. unfold v_textbox_linebuf_addchar.
  rewrite (proj2 (Z.eqb_neq _ 0)), Z.geb_leb, (proj2 (Z.leb_le _ _)) by lia. done.
Qed.

(** A memory whose bytes from 4096 on are zero, as [kzalloc] leaves them. *)
Definition zero_memory : memory :=
  list_to_map ((fun i => (4096 + i, 0)) <$> seqZ 0 OS_TEXTBOX_LINE_BUFFER_SIZE).
Definition demo_textbox : TEXTBOX := mkTEXTBOX 8 28 240 128 4096 0 0 0 0 2 0 0 7 8 28.

Lemma zero_memory_at i : 0 <= i < OS_TEXTBOX_LINE_BUFFER_SIZE -> zero_memory !! (4096 + i) = Some 0.
Proof.
  intros Hi. apply elem_of_list_to_map.
  - rewrite <- list_fmap_compose. apply NoDup_fmap_2; [|apply NoDup_seqZ]. intros a b. simpl. lia.
  - apply list_elem_of_fmap. exists i. split; [done|]. apply elem_of_seqZ. lia.
Qed.

Lemma demo_line : line_is zero_memory demo_textbox [] [].
Proof.
  split; cbn [t_lineBuf t_lineCharPos t_lineEolPos demo_textbox app length].
  - concrete.
  - done.
  - done.
  - concrete.
  - intros i Hi. rewrite zero_memory_at by done. unfold lookupZ. by destruct (0 <=? i).
Qed.

Lemma linebuf_is_a_line_witness :
  exists m' t', v_textbox_linebuf_addchar zero_memory (Some demo_textbox) 97 = Some (0, m', Some t')
    /\ line_is m' t' [97] [] /\ same_outside demo_textbox zero_memory m'.
Proof.
  destruct (linebuf_is_a_line zero_memory demo_textbox [] [] 97 demo_line) as [H _].
  destruct (decide _) as [_|n]; [exact H|]. exfalso. apply n. reflexivity.
Defined.
