(* ===== verification/Float.v ===== *)
(** * Floating point arithmetic

    The C compiler leaves it to the machine how the intermediate results of an
    expression of [double]s are rounded, and the 32-bit kernel is compiled for the
    x87 unit, which keeps more bits than the type has.  What src/src/util/printf.c
    does is therefore stated over any arithmetic, [FPU].  [binary64] is the
    arithmetic of the type itself, by the Standard Library's specification of IEEE
    754 floating point numbers; [rationals] is exact arithmetic, in which only the
    program's own rounding is left. *)
From Stdlib Require Import ZArith QArith Qround Lia.
From Stdlib.Floats Require Import SpecFloat.
From stdpp Require Import base.
From S2P Require Import Prelude.

#[local] Open Scope Z_scope.

Set Default Proof Using "Type".

(** ** What the formatter asks of the machine *)
Class FPU := {
  double : Type;
  of_bits : Z -> double;          (** the representation in memory, 64 bits *)
  to_bits : double -> Z;
  of_int : Z -> double;           (** conversion from an integer *)
  to_int : double -> Z;           (** conversion to an integer, towards zero *)
  literal : Z -> Z -> double;     (** the constant [m * 10 ^ - k] of the source *)
  fadd : double -> double -> double;
  fsub : double -> double -> double;
  fmul : double -> double -> double;
  fdiv : double -> double -> double;
  fneg : double -> double;
  feqb : double -> double -> bool;
  fltb : double -> double -> bool
}.

Declare Scope float_scope.
Delimit Scope float_scope with F.
Infix "+" := fadd : float_scope.
Infix "-" := fsub : float_scope.
Infix "*" := fmul : float_scope.
Infix "/" := fdiv : float_scope.
Infix "<?" := fltb : float_scope.

(** ** IEEE 754 double precision *)
Definition prec64 : Z := 53.
Definition emax64 : Z := 1024.

Definition bits_to_float (u : Z) : spec_float :=
  let s := negb (Z.land (Z.shiftr u 63) 1 =? 0) in
  let e := Z.land (Z.shiftr u 52) 0x7FF in
  let m := Z.land u (2 ^ 52 - 1) in
  if e =? 0x7FF then (if m =? 0 then S754_infinity s else S754_nan)
  else if e =? 0 then match m with Zpos m => S754_finite s m (- 1074) | _ => S754_zero s end
  else match m + 2 ^ 52 with Zpos m => S754_finite s m (e - 1075) | _ => S754_nan end.

Definition sign_bit (s : bool) : Z := if s then 2 ^ 63 else 0.

Definition float_to_bits (x : spec_float) : Z :=
  match x with
  | S754_zero s => sign_bit s
  | S754_infinity s => sign_bit s + Z.shiftl 0x7FF 52
  | S754_nan => Z.shiftl 0xFFF 51
  | S754_finite s m e =>
      if Zpos m <? 2 ^ 52 then sign_bit s + Zpos m
      else sign_bit s + Z.shiftl (e + 1075) 52 + (Zpos m - 2 ^ 52)
  end.

Definition int_to_float (z : Z) : spec_float := binary_normalize prec64 emax64 z 0 false.

(** Towards zero; what is not a number has no integer. *)
Definition float_to_int (x : spec_float) : Z :=
  match x with
  | S754_finite s m e => (if s then Z.opp else id) (Z.shiftl (Zpos m) e)
  | _ => 0
  end.

#[global] Instance binary64 : FPU := {
  double := spec_float;
  of_bits := bits_to_float;
  to_bits := float_to_bits;
  of_int := int_to_float;
  to_int := float_to_int;
  literal m k := SFdiv prec64 emax64 (int_to_float m) (int_to_float (10 ^ k));
  fadd := SFadd prec64 emax64;
  fsub := SFsub prec64 emax64;
  fmul := SFmul prec64 emax64;
  fdiv := SFdiv prec64 emax64;
  fneg := SFopp;
  feqb := SFeqb;
  fltb := SFltb
}.

Example literals :
  to_bits (literal 1 1) = 0x3FB999999999999A /\ to_bits (literal 301029995663981 15) = 0x3FD34413509F79FB
  /\ to_bits (of_int 3 / literal 5 1)%F = 0x4018000000000000 /\ to_int (of_bits 0xC02399999999999A) = - 9.
Proof. vm_compute. repeat split. Qed.

Example bits_roundtrip :
  forallb (fun u => to_bits (of_bits u) =? u)
    [0; 1; 2 ^ 63; 0x000FFFFFFFFFFFFF; 0x0010000000000000; 0x3FF0000000000000; 0xBFE8000000000000;
     0x7FEFFFFFFFFFFFFF; 0x7FF0000000000000; 0xFFF0000000000000] = true.
Proof. vm_compute. reflexivity. Qed.

(** ** Exact arithmetic

    A finite number is a rational; the representation of a rational is not asked
    for ([to_bits] is there for the exponent's estimate in [_etoa] only). *)
Definition float_to_Q (x : spec_float) : Q :=
  match x with
  | S754_finite s m e =>
      let m := if s then Zneg m else Zpos m in
      match e with
      | Zneg e => (m # (2 ^ e))%Q
      | _ => inject_Z (m * 2 ^ e)
      end
  | _ => 0%Q
  end.

Definition Q_to_int (q : Q) : Z := if Qle_bool 0 q then Qfloor q else - Qfloor (- q).

Definition rationals : FPU := {|
  double := Q;
  of_bits u := float_to_Q (bits_to_float u);
  to_bits _ := 0;
  of_int := inject_Z;
  to_int := Q_to_int;
  literal m k := (m # Z.to_pos (10 ^ k))%Q;
  fadd := Qplus;
  fsub := Qminus;
  fmul := Qmult;
  fdiv := Qdiv;
  fneg := Qopp;
  feqb := Qeq_bool;
  fltb x y := negb (Qle_bool y x)
|}.
