(* ===== verification/Printf.v ===== *)
(** * Formatted output, src/src/util/printf.c

    The formatter is a function of the output routine [out], which gets a
    character, the state it writes to and the index.  The variable arguments are
    a list of words, double words, doubles and strings; taking one of the wrong
    kind is a fault.  [int], [long], [size_t] and pointers have 32 bits.  The
    floating point conversions work over any arithmetic ([FPU] of [Float]). *)
From Stdlib Require Import ZArith Lia Ascii String.
From stdpp Require Import base option list numbers.
From S2P Require Import Prelude Draw Float.

Set Default Proof Using "Type".

(** ** Flags *)
Definition FLAGS_ZEROPAD : Z := Z.shiftl 1 0.
Definition FLAGS_LEFT : Z := Z.shiftl 1 1.
Definition FLAGS_PLUS : Z := Z.shiftl 1 2.
Definition FLAGS_SPACE : Z := Z.shiftl 1 3.
Definition FLAGS_HASH : Z := Z.shiftl 1 4.
Definition FLAGS_UPPERCASE : Z := Z.shiftl 1 5.
Definition FLAGS_CHAR : Z := Z.shiftl 1 6.
Definition FLAGS_SHORT : Z := Z.shiftl 1 7.
Definition FLAGS_LONG : Z := Z.shiftl 1 8.
Definition FLAGS_LONG_LONG : Z := Z.shiftl 1 9.
Definition FLAGS_PRECISION : Z := Z.shiftl 1 10.
Definition FLAGS_ADAPT_EXP : Z := Z.shiftl 1 11.

Definition has (flags f : Z) : bool := negb (Z.land flags f =? 0).
Definition set_flag (flags f : Z) : Z := Z.lor flags f.
Definition clear_flag (flags f : Z) : Z := Z.land flags (u32 (Z.lnot f)).

Definition PRINTF_NTOA_BUFFER_SIZE : Z := 32.
Definition PRINTF_FTOA_BUFFER_SIZE : Z := 32.
Definition PRINTF_DEFAULT_FLOAT_PRECISION : Z := 6.

(** ** Arguments and characters *)
Inductive arg :=
| Word (z : Z)
| DWord (z : Z)
| Dbl (bits : Z)  (** a double, as it lies in memory *)
| Str (s : list Z).

Definition ch (a : ascii) : Z := byte_of a.
Definition s16 (z : Z) : Z := (z + 2 ^ 15) mod 2 ^ 16 - 2 ^ 15.

Definition _is_digit (c : Z) : bool := (c >=? ch "0") && (c <=? ch "9").

Fixpoint _atoi (i : Z) (str : list Z) : option (Z * list Z) :=
  match str with
  | [] => None
  | c :: s => if _is_digit c then _atoi (u32 (i * 10 + (c - ch "0"))) s else Some (i, str)
  end.

(** At most [maxsize] characters are counted; [maxsize] is tested after the
    character was read. *)
Fixpoint _strnlen_s (str : list Z) (maxsize : Z) : option Z :=
  match str with
  | [] => None
  | c :: s => if (c =? 0) || (maxsize =? 0) then Some 0 else n ← _strnlen_s s (maxsize - 1); Some (n + 1)
  end.

Section printf.
Context {S : Type} (out : Z -> S -> Z -> option S).

(** [out(c, buffer, idx++, maxlen)] *)
Definition emit (c : Z) (si : S * Z) : option (S * Z) :=
  let '(s, idx) := si in s ← out c s idx; Some (s, u32 (idx + 1)).

(** Spaces while [l] is below [width]. *)
Definition spaces (l width : Z) (si : S * Z) : option (S * Z) :=
  for_range l width (fun _ => emit (ch " ")) si.

(** [buf] holds the first [len] characters of the buffer. *)
Definition _out_rev (buf : list Z) (width flags : Z) (si : S * Z) : option (S * Z) :=
  let start_idx := snd si in
  si ← (if negb (has flags FLAGS_LEFT) && negb (has flags FLAGS_ZEROPAD)
        then spaces (Z.of_nat (length buf)) width si else Some si);
  si ← foldr (fun c r => si ← r; emit c si) (Some si) buf;
  if has flags FLAGS_LEFT then spaces (u32 (snd si - start_idx)) width si else Some si.

(** ** Integers *)

(** Zeros while [len < lim] and there is room. *)
Fixpoint pad_zeros (fuel : nat) (lim : Z) (buf : list Z) : list Z :=
  match fuel with
  | O => buf
  | Datatypes.S fuel =>
      if (Z.of_nat (length buf) <? lim) && (Z.of_nat (length buf) <? PRINTF_NTOA_BUFFER_SIZE)
      then pad_zeros fuel lim (buf ++ [ch "0"]) else buf
  end.

Definition room (buf : list Z) : bool := Z.of_nat (length buf) <? PRINTF_NTOA_BUFFER_SIZE.
Definition drop_last (buf : list Z) : list Z := take (length buf - 1) buf.

(** The prefix of the alternate form. *)
Definition ntoa_hash (buf : list Z) (base prec width flags : Z) : list Z :=
  let len := Z.of_nat (length buf) in
  let buf := if negb (has flags FLAGS_PRECISION) && negb (len =? 0) && ((len =? prec) || (len =? width)) then
               let buf := drop_last buf in
               if negb (Z.of_nat (length buf) =? 0) && (base =? 16) then drop_last buf else buf
             else buf in
  let buf := if (base =? 16) && negb (has flags FLAGS_UPPERCASE) && room buf then buf ++ [ch "x"]
             else if (base =? 16) && has flags FLAGS_UPPERCASE && room buf then buf ++ [ch "X"]
             else if (base =? 2) && room buf then buf ++ [ch "b"]
             else buf in
  if room buf then buf ++ [ch "0"] else buf.

Definition _ntoa_format (buf : list Z) (negative : bool) (base prec width flags : Z) (si : S * Z)
  : option (S * Z) :=
  let '(buf, width) :=
    if negb (has flags FLAGS_LEFT) then
      let width := if negb (width =? 0) && has flags FLAGS_ZEROPAD
                      && (negative || has flags (Z.lor FLAGS_PLUS FLAGS_SPACE)) then width - 1 else width in
      let buf := pad_zeros 32 prec buf in
      let buf := if has flags FLAGS_ZEROPAD then pad_zeros 32 width buf else buf in
      (buf, width)
    else (buf, width) in
  let buf := if has flags FLAGS_HASH then ntoa_hash buf base prec width flags else buf in
  let buf := if room buf then
               if negative then buf ++ [ch "-"]
               else if has flags FLAGS_PLUS then buf ++ [ch "+"]
               else if has flags FLAGS_SPACE then buf ++ [ch " "]
               else buf
             else buf in
  _out_rev buf width flags si.

Definition digit_char (digit flags : Z) : Z :=
  if digit <? 10 then ch "0" + digit
  else (if has flags FLAGS_UPPERCASE then ch "A" else ch "a") + digit - 10.

(** The [do] loop; it runs at most [PRINTF_NTOA_BUFFER_SIZE] times. *)
Fixpoint ntoa_digits (fuel : nat) (value base flags : Z) (buf : list Z) : list Z :=
  match fuel with
  | O => buf
  | Datatypes.S fuel =>
      let buf := buf ++ [digit_char (value mod base) flags] in
      let value := value / base in
      if negb (value =? 0) && room buf then ntoa_digits fuel value base flags buf else buf
  end.

(** [_ntoa_long] and [_ntoa_long_long] differ in the width of [value] only. *)
Definition ntoa (value : Z) (negative : bool) (base prec width flags : Z) (si : S * Z) : option (S * Z) :=
  let flags := if value =? 0 then clear_flag flags FLAGS_HASH else flags in
  let buf := if negb (has flags FLAGS_PRECISION) || negb (value =? 0)
             then ntoa_digits 32 value base flags [] else [] in
  _ntoa_format buf negative base prec width flags si.

Definition _ntoa_long (value : Z) := ntoa (u32 value).
Definition _ntoa_long_long (value : Z) := ntoa (u64 value).

(** ** Floating point numbers *)
Context {fpu : FPU}.

Definition PRINTF_MAX_FLOAT : double := of_int 1000000000.
Definition DBL_MAX : double := of_bits 0x7FEFFFFFFFFFFFFF.
Definition pow10 : list double := (fun k => of_int (10 ^ k)) <$> seqZ 0 10.

Definition froom (buf : list Z) : bool := Z.of_nat (length buf) <? PRINTF_FTOA_BUFFER_SIZE.

(** A loop that puts characters into the buffer while there is room takes at most
    [PRINTF_FTOA_BUFFER_SIZE] turns: that is the fuel of the next four. *)
Definition FTOA_TURNS : nat := Z.to_nat PRINTF_FTOA_BUFFER_SIZE.

(** Digits behind the ninth are zeros. *)
Fixpoint ftoa_limit (fuel : nat) (buf : list Z) (prec : Z) : list Z * Z :=
  match fuel with
  | O => (buf, prec)
  | Datatypes.S fuel =>
      if froom buf && (prec >? 9) then ftoa_limit fuel (buf ++ [ch "0"]) (prec - 1) else (buf, prec)
  end.

(** The digits of the fraction, and what is left of [count], an unsigned int. *)
Fixpoint ftoa_frac (fuel : nat) (buf : list Z) (frac count : Z) : list Z * Z :=
  match fuel with
  | O => (buf, count)
  | Datatypes.S fuel =>
      if froom buf then
        let count := u32 (count - 1) in
        let buf := buf ++ [48 + frac mod 10] in
        let frac := frac / 10 in
        if frac =? 0 then (buf, count) else ftoa_frac fuel buf frac count
      else (buf, count)
  end.

Fixpoint ftoa_zeros (fuel : nat) (buf : list Z) (count : Z) : list Z :=
  match fuel with
  | O => buf
  | Datatypes.S fuel => if froom buf && (count >? 0) then ftoa_zeros fuel (buf ++ [ch "0"]) (count - 1) else buf
  end.

(** [whole] is an int; the remainder of a negative one would be negative. *)
Fixpoint ftoa_whole (fuel : nat) (buf : list Z) (whole : Z) : list Z :=
  match fuel with
  | O => buf
  | Datatypes.S fuel =>
      if froom buf then
        let buf := buf ++ [s8 (48 + Z.rem whole 10)] in
        let whole := Z.quot whole 10 in
        if whole =? 0 then buf else ftoa_whole fuel buf whole
      else buf
  end.

(** Integer and fraction, rounded to [prec] digits; a [prec] beyond the table of
    powers is a fault. *)
Definition ftoa_split (value : double) (prec : Z) : option (Z * Z) :=
  p ← pow10$[prec];
  let whole := s32 (to_int value) in
  let tmp := ((value - of_int whole) * p)%F in
  let frac := u32 (to_int tmp) in
  let diff := (tmp - of_int frac)%F in
  let half := literal 5 1 in
  let '(whole, frac) :=
    if (half <? diff)%F then
      let frac := u32 (frac + 1) in
      if negb (of_int frac <? p)%F then (whole + 1, 0) else (whole, frac)
    else if (diff <? half)%F then (whole, frac)
    else if (frac =? 0) || negb (Z.land frac 1 =? 0) then (whole, u32 (frac + 1))
    else (whole, frac) in
  if prec =? 0 then
    let diff := (value - of_int whole)%F in
    Some (if (negb (diff <? half)%F || (half <? diff)%F) && negb (Z.land whole 1 =? 0) then whole + 1 else whole, frac)
  else Some (whole, frac).

(** The characters of a number that is not negative, in reverse. *)
Definition ftoa_digits (value : double) (prec : Z) : option (list Z) :=
  let '(buf, prec) := ftoa_limit FTOA_TURNS [] prec in
  '(whole, frac) ← ftoa_split value prec;
  let buf :=
    if prec =? 0 then buf
    else
      let '(buf, count) := ftoa_frac FTOA_TURNS buf frac prec in
      let buf := ftoa_zeros FTOA_TURNS buf count in
      if froom buf then buf ++ [ch "."] else buf in
  Some (ftoa_whole FTOA_TURNS buf whole).

(** Leading zeros and the sign. *)
Definition ftoa_format (buf : list Z) (negative : bool) (width flags : Z) (si : S * Z) : option (S * Z) :=
  let '(buf, width) :=
    if negb (has flags FLAGS_LEFT) && has flags FLAGS_ZEROPAD then
      let width := if negb (width =? 0) && (negative || has flags (Z.lor FLAGS_PLUS FLAGS_SPACE))
                   then width - 1 else width in
      (ftoa_zeros FTOA_TURNS buf (width - Z.of_nat (length buf)), width)
    else (buf, width) in
  let buf := if froom buf then
               if negative then buf ++ [ch "-"]
               else if has flags FLAGS_PLUS then buf ++ [ch "+"]
               else if has flags FLAGS_SPACE then buf ++ [ch " "]
               else buf
             else buf in
  _out_rev buf width flags si.

(** The decimal exponent, by an estimate of the logarithm, and the power of ten. *)
Definition etoa_scale (value : double) : Z * double :=
  let U := to_bits value in
  let exp2 := Z.land (Z.shiftr U 52) 0x07FF - 1023 in
  let U := Z.lor (Z.land U (Z.shiftl 1 52 - 1)) (Z.shiftl 1023 52) in
  let expval := to_int (literal 1760912590558 13 + of_int exp2 * literal 301029995663981 15
                        + (of_bits U - literal 15 1) * literal 289529654602168 15)%F in
  let exp2 := to_int (of_int expval * literal 3321928094887362 15 + literal 5 1)%F in
  let z := (of_int expval * literal 2302585092994046 15 - of_int exp2 * literal 6931471805599453 16)%F in
  let z2 := (z * z)%F in
  let U := u64 (Z.shiftl (exp2 + 1023) 52) in
  let F := (of_bits U * (of_int 1 + of_int 2 * z
              / (of_int 2 - z + (z2 / (of_int 6 + (z2 / (of_int 10 + z2 / of_int 14)))))))%F in
  if (value <? F)%F then (expval - 1, (F / of_int 10)%F) else (expval, F).

(** [_etoa], given [_ftoa]. *)
Definition etoa_with (ftoa : double -> Z -> Z -> Z -> S * Z -> option (S * Z))
    (value : double) (prec width flags : Z) (si : S * Z) : option (S * Z) :=
  if negb (feqb value value) || (DBL_MAX <? value)%F || (value <? fneg DBL_MAX)%F then ftoa value prec width flags si
  else
    let negative := (value <? of_int 0)%F in
    let value := if negative then fneg value else value in
    let prec := if negb (has flags FLAGS_PRECISION) then PRINTF_DEFAULT_FLOAT_PRECISION else prec in
    let '(expval, F) := etoa_scale value in
    let minwidth := if (expval <? 100) && (expval >? -100) then 4 else 5 in
    let '(prec, flags, minwidth, expval) :=
      if has flags FLAGS_ADAPT_EXP then
        if negb (value <? literal 1 4)%F && (value <? of_int 1000000)%F then
          (if s32 prec >? expval then u32 (s32 prec - expval - 1) else 0, set_flag flags FLAGS_PRECISION, 0, 0)
        else (if (prec >? 0) && has flags FLAGS_PRECISION then prec - 1 else prec, flags, minwidth, expval)
      else (prec, flags, minwidth, expval) in
    let fwidth := if width >? minwidth then width - minwidth else 0 in
    let fwidth := if has flags FLAGS_LEFT && negb (minwidth =? 0) then 0 else fwidth in
    let value := if negb (expval =? 0) then (value / F)%F else value in
    let start_idx := snd si in
    si ← ftoa (if negative then fneg value else value) prec fwidth (clear_flag flags FLAGS_ADAPT_EXP) si;
    if negb (minwidth =? 0) then
      si ← emit (if has flags FLAGS_UPPERCASE then ch "E" else ch "e") si;
      si ← _ntoa_long (if expval <? 0 then - expval else expval) (expval <? 0) 10 0 (minwidth - 1)
             (Z.lor FLAGS_ZEROPAD FLAGS_PLUS) si;
      if has flags FLAGS_LEFT then spaces (u32 (snd si - start_idx)) width si else Some si
    else Some si.

(** [_ftoa] hands large numbers to [_etoa], which calls it again with the number
    scaled down; [depth] bounds the nesting. *)
Fixpoint _ftoa (depth : nat) (value : double) (prec width flags : Z) (si : S * Z) : option (S * Z) :=
  if negb (feqb value value) then _out_rev [ch "n"; ch "a"; ch "n"] width flags si
  else if (value <? fneg DBL_MAX)%F then _out_rev [ch "f"; ch "n"; ch "i"; ch "-"] width flags si
  else if (DBL_MAX <? value)%F then
    _out_rev ([ch "f"; ch "n"; ch "i"] ++ (if has flags FLAGS_PLUS then [ch "+"] else [])) width flags si
  else if (PRINTF_MAX_FLOAT <? value)%F || (value <? fneg PRINTF_MAX_FLOAT)%F then
    match depth with
    | O => None
    | Datatypes.S depth => etoa_with (_ftoa depth) value prec width flags si
    end
  else
    let negative := (value <? of_int 0)%F in
    let value := if negative then (of_int 0 - value)%F else value in
    let prec := if negb (has flags FLAGS_PRECISION) then PRINTF_DEFAULT_FLOAT_PRECISION else prec in
    buf ← ftoa_digits value prec;
    ftoa_format buf negative width flags si.

Definition _etoa (depth : nat) : double -> Z -> Z -> Z -> S * Z -> option (S * Z) := etoa_with (_ftoa depth).

Definition FLOAT_DEPTH : nat := 4.

(** The floating point conversions; [c] is one of f, F, e, E, g, G. *)
Definition convert_float (c flags width precision : Z) (va : list arg) (si : S * Z) : option (S * Z * list arg) :=
  match va with
  | Dbl bits :: va =>
      let value := of_bits bits in
      si ← (if (c =? ch "f") || (c =? ch "F") then
              let flags := if c =? ch "F" then set_flag flags FLAGS_UPPERCASE else flags in
              _ftoa FLOAT_DEPTH value precision width flags si
            else
              let flags := if (c =? ch "g") || (c =? ch "G") then set_flag flags FLAGS_ADAPT_EXP else flags in
              let flags := if (c =? ch "E") || (c =? ch "G") then set_flag flags FLAGS_UPPERCASE else flags in
              _etoa FLOAT_DEPTH value precision width flags si);
      Some (si, va)
  | _ => None
  end.

(** ** The format *)
Fixpoint parse_flags (format : list Z) (flags : Z) : option (Z * list Z) :=
  match format with
  | [] => None
  | c :: s =>
      if c =? ch "0" then parse_flags s (set_flag flags FLAGS_ZEROPAD)
      else if c =? ch "-" then parse_flags s (set_flag flags FLAGS_LEFT)
      else if c =? ch "+" then parse_flags s (set_flag flags FLAGS_PLUS)
      else if c =? ch " " then parse_flags s (set_flag flags FLAGS_SPACE)
      else if c =? ch "#" then parse_flags s (set_flag flags FLAGS_HASH)
      else Some (flags, format)
  end.

Definition va_int (va : list arg) : option (Z * list arg) :=
  match va with Word z :: va => Some (s32 z, va) | _ => None end.

Definition parse_width (format : list Z) (flags : Z) (va : list arg)
  : option (Z * Z * list Z * list arg) :=
  match format with
  | [] => None
  | c :: s =>
      if _is_digit c then '(w, format) ← _atoi 0 format; Some (w, flags, format, va)
      else if c =? ch "*" then
        '(w, va) ← va_int va;
        if w <? 0 then Some (u32 (- w), set_flag flags FLAGS_LEFT, s, va) else Some (w, flags, s, va)
      else Some (0, flags, format, va)
  end.

Definition parse_precision (format : list Z) (flags : Z) (va : list arg)
  : option (Z * Z * list Z * list arg) :=
  match format with
  | [] => None
  | c :: s =>
      if c =? ch "." then
        let flags := set_flag flags FLAGS_PRECISION in
        match s with
        | [] => None
        | d :: s' =>
            if _is_digit d then '(p, format) ← _atoi 0 s; Some (p, flags, format, va)
            else if d =? ch "*" then
              '(prec, va) ← va_int va;
              Some (if prec >? 0 then prec else 0, flags, s', va)
            else Some (0, flags, s, va)
        end
      else Some (0, flags, format, va)
  end.

Definition parse_length (format : list Z) (flags : Z) : option (Z * list Z) :=
  match format with
  | [] => None
  | c :: s =>
      if c =? ch "l" then
        let flags := set_flag flags FLAGS_LONG in
        match s with
        | [] => None
        | d :: s' => Some (if d =? ch "l" then (set_flag flags FLAGS_LONG_LONG, s') else (flags, s))
        end
      else if c =? ch "h" then
        let flags := set_flag flags FLAGS_SHORT in
        match s with
        | [] => None
        | d :: s' => Some (if d =? ch "h" then (set_flag flags FLAGS_CHAR, s') else (flags, s))
        end
      else if c =? ch "t" then Some (set_flag flags FLAGS_LONG, s)
      else if c =? ch "j" then Some (set_flag flags FLAGS_LONG_LONG, s)
      else if c =? ch "z" then Some (set_flag flags FLAGS_LONG, s)
      else Some (flags, format)
  end.

(** The integer conversions; [c] is one of d, i, u, x, X, o, b. *)
Definition convert_int (c flags width precision : Z) (va : list arg) (si : S * Z)
  : option (S * Z * list arg) :=
  let is_signed := (c =? ch "i") || (c =? ch "d") in
  let '(base, flags) := if (c =? ch "x") || (c =? ch "X") then (16, flags)
                        else if c =? ch "o" then (8, flags)
                        else if c =? ch "b" then (2, flags)
                        else (10, clear_flag flags FLAGS_HASH) in
  let flags := if c =? ch "X" then set_flag flags FLAGS_UPPERCASE else flags in
  let flags := if negb is_signed then clear_flag flags (Z.lor FLAGS_PLUS FLAGS_SPACE) else flags in
  let flags := if has flags FLAGS_PRECISION then clear_flag flags FLAGS_ZEROPAD else flags in
  let magnitude value := if value >? 0 then value else 0 - value in
  if has flags FLAGS_LONG_LONG then
    match va with
    | DWord z :: va =>
        si ← (if is_signed
              then _ntoa_long_long (magnitude (s64 z)) (s64 z <? 0) base precision width flags si
              else _ntoa_long_long z false base precision width flags si);
        Some (si, va)
    | _ => None
    end
  else
    match va with
    | Word z :: va =>
        si ← (if is_signed then
                let value := if has flags FLAGS_LONG then s32 z
                             else if has flags FLAGS_CHAR then s8 z
                             else if has flags FLAGS_SHORT then s16 z else s32 z in
                _ntoa_long (magnitude value) (value <? 0) base precision width flags si
              else
                let value := if has flags FLAGS_LONG then u32 z
                             else if has flags FLAGS_CHAR then u8 z
                             else if has flags FLAGS_SHORT then u16 z else u32 z in
                _ntoa_long value false base precision width flags si);
        Some (si, va)
    | _ => None
    end.

Definition convert_char (z flags width : Z) (si : S * Z) : option (S * Z) :=
  let l := 1 in
  si ← (if negb (has flags FLAGS_LEFT) then spaces l width si else Some si);
  si ← emit (u8 z) si;
  if has flags FLAGS_LEFT then spaces l width si else Some si.

(** The characters of [p], at most [precision] when one was given. *)
Fixpoint put_string (p : list Z) (limited : bool) (precision : Z) (si : S * Z) : option (S * Z) :=
  match p with
  | [] => None
  | c :: p =>
      if negb (c =? 0) && (negb limited || negb (precision =? 0)) then
        si ← emit c si; put_string p limited (precision - 1) si
      else Some si
  end.

Definition convert_string (p : list Z) (flags width precision : Z) (si : S * Z) : option (S * Z) :=
  let limited := has flags FLAGS_PRECISION in
  l ← _strnlen_s p (if negb (precision =? 0) then precision else UINT32_MAX);
  let l := if limited then (if l <? precision then l else precision) else l in
  si ← (if negb (has flags FLAGS_LEFT) then spaces l width si else Some si);
  si ← put_string p limited precision si;
  if has flags FLAGS_LEFT then spaces l width si else Some si.

Definition is_int_spec (c : Z) : bool :=
  (c =? ch "d") || (c =? ch "i") || (c =? ch "u") || (c =? ch "x") || (c =? ch "X")
  || (c =? ch "o") || (c =? ch "b").
Definition is_float_spec (c : Z) : bool :=
  (c =? ch "f") || (c =? ch "F") || (c =? ch "e") || (c =? ch "E") || (c =? ch "g") || (c =? ch "G").

Definition convert (c flags width precision : Z) (va : list arg) (si : S * Z) : option (S * Z * list arg) :=
  if is_int_spec c then convert_int c flags width precision va si
  else if is_float_spec c then convert_float c flags width precision va si
  else if c =? ch "c" then
    match va with
    | Word z :: va => si ← convert_char z flags width si; Some (si, va)
    | _ => None
    end
  else if c =? ch "s" then
    match va with
    | Str p :: va => si ← convert_string p flags width precision si; Some (si, va)
    | _ => None
    end
  else if c =? ch "p" then
    match va with
    | Word z :: va =>
        si ← _ntoa_long (u32 z) false 16 precision 8
               (set_flag flags (Z.lor FLAGS_ZEROPAD FLAGS_UPPERCASE)) si;
        Some (si, va)
    | _ => None
    end
  else if c =? ch "%" then si ← emit (ch "%") si; Some (si, va)
  else si ← emit c si; Some (si, va).

(** What follows a percent sign: the rest of the format is returned. *)
Definition format_spec (format : list Z) (va : list arg) (si : S * Z)
  : option (S * Z * list arg * list Z) :=
  '(flags, format) ← parse_flags format 0;
  '(width, flags, format, va) ← parse_width format flags va;
  '(precision, flags, format, va) ← parse_precision format flags va;
  '(flags, format) ← parse_length format flags;
  match format with
  | [] => None
  | c :: format => '(si, va) ← convert c flags width precision va si; Some (si, va, format)
  end.

(** The loop over the format; each turn takes at least one character of it. *)
Fixpoint format_loop (fuel : nat) (format : list Z) (va : list arg) (si : S * Z) : option (S * Z) :=
  match fuel, format with
  | Datatypes.S fuel, c :: format =>
      if c =? 0 then Some si
      else if negb (c =? ch "%") then si ← emit c si; format_loop fuel format va si
      else '(si, va, format) ← format_spec format va si; format_loop fuel format va si
  | _, _ => None
  end.

Definition _vsnprintf (s : S) (maxlen : Z) (format : list Z) (va : list arg) : option (Z * S) :=
  '(s, idx) ← format_loop (length format) format va (s, 0);
  s ← out 0 s (if idx <? maxlen then idx else u32 (maxlen - 1));
  Some (s32 idx, s).
End printf.

(** ** Output routines and the entry points *)
Definition _out_buffer (maxlen : Z) (c : Z) (buffer : list Z) (idx : Z) : option (list Z) :=
  if idx <? maxlen then buffer$[idx := c] else Some buffer.
Definition _out_null {S} (c : Z) (s : S) (idx : Z) : option S := Some s.
Definition _out_char {S} (_putchar : Z -> S -> option S) (c : Z) (s : S) (idx : Z) : option S :=
  if negb (c =? 0) then _putchar c s else Some s.
(** The function and its argument are the wrapped ones. *)
Definition _out_fct {S} (fct : Z -> S -> option S) (c : Z) (s : S) (idx : Z) : option S :=
  if negb (c =? 0) then fct c s else Some s.

Definition vsnprintf_ {fpu : FPU} (buffer : option (list Z)) (count : Z) (format : list Z) (va : list arg)
  : option (Z * option (list Z)) :=
  match buffer with
  | None => '(r, _) ← _vsnprintf _out_null tt count format va; Some (r, None)
  | Some b => '(r, b) ← _vsnprintf (_out_buffer count) b count format va; Some (r, Some b)
  end.
Definition snprintf_ {fpu : FPU} := vsnprintf_.
Definition sprintf_ {fpu : FPU} (buffer : option (list Z)) (format : list Z) (va : list arg)
  : option (Z * option (list Z)) := vsnprintf_ buffer UINT32_MAX format va.
Definition vprintf_ {fpu : FPU} {S} (_putchar : Z -> S -> option S) (s : S) (format : list Z) (va : list arg)
  : option (Z * S) := _vsnprintf (_out_char _putchar) s UINT32_MAX format va.
Definition printf_ {fpu : FPU} {S} := @vprintf_ fpu S.
Definition fctprintf {fpu : FPU} {S} (fct : Z -> S -> option S) (s : S) (format : list Z) (va : list arg)
  : option (Z * S) := _vsnprintf (_out_fct fct) s UINT32_MAX format va.

Definition run (f : string) (va : list arg) : option (Z * list Z) :=
  '(r, b) ← sprintf_ (Some (replicate 40 1)) (cstr f) va; b ← b; Some (r, take (Z.to_nat r + 1) b).

Example ex1 : run "%010ld" [Word 1234] = Some (10, cstr "0000001234").
Proof. vm_compute. reflexivity. Qed.
Example ex2 : run "a%-5dz%#x %s|%5.2s" [Word (-12); Word 255; Str (cstr "hey"); Str (cstr "abc")] = Some (21, cstr "a-12  z0xff hey|   ab").
Proof. vm_compute. reflexivity. Qed.
Example ex3 : run "%+d %p %lld%%%c" [Word 5; Word 0xabcd; DWord (-1); Word 65] = Some (16, cstr "+5 0000ABCD -1%A").
Proof. vm_compute. reflexivity. Qed.
