(* ===== verification/PrintfSpec.v ===== *)
(** * What the formatter writes

    For any output routine the integer conversions emit a text that depends on
    the value alone; into a buffer the characters are stored one after the other.
    The decimal text reads back as the value, and a bounded buffer is never
    written past its bound. *)
From Stdlib Require Import ZArith Lia Ascii String.
From stdpp Require Import base option list numbers.
From S2P Require Import Prelude Draw Float Printf.

Set Default Proof Using "Type".

(** ** Emitting a text *)
Section emits.
Context {S : Type} (out : Z -> S -> Z -> option S).

Fixpoint emits (l : list Z) (si : S * Z) : option (S * Z) :=
  match l with
  | [] => Some si
  | c :: l => si ← emit out c si; emits l si
  end.

Lemma emits_app l1 l2 si : emits (l1 ++ l2) si = (si ← emits l1 si; emits l2 si).
Proof.
  revert si. induction l1 as [|c l1 IH]; intros si; [done|]. cbn [app emits].
  destruct (emit out c si) as [si'|]; [|done]. cbn [mbind option_bind]. apply IH.
Qed.

Lemma spaces_emits l width si : spaces out l width si = emits (replicate (Z.to_nat (width - l)) (ch " ")) si.
Proof.
  unfold spaces, for_range. generalize (Z.to_nat (width - l)). intros n. clear width. revert l si.
  induction n as [|n IH]; intros l si; [done|]. cbn [for_loop replicate emits].
  destruct (emit out (ch " ") si) as [si'|]; [|done]. apply IH.
Qed.

Lemma foldr_emits buf si : foldr (fun c r => si ← r; emit out c si) (Some si) buf = emits (rev buf) si.
Proof.
  induction buf as [|c buf IH]; [done|]. cbn [foldr rev]. rewrite IH, emits_app.
  destruct (emits (rev buf) si) as [si'|]; [|done]. cbn [mbind option_bind emits].
  by destruct (emit out c si').
Qed.

(** Without left adjustment. *)
Lemma out_rev_emits buf width flags si :
  has flags FLAGS_LEFT = false ->
  _out_rev out buf width flags si
  = emits (replicate (Z.to_nat (if has flags FLAGS_ZEROPAD then 0 else width - Z.of_nat (length buf))) (ch " ")
           ++ rev buf) si.
Proof.
  intros HL. unfold _out_rev. rewrite HL. cbn [negb andb].
  destruct (has flags FLAGS_ZEROPAD); cbn [negb].
  - cbn [mbind option_bind Z.to_nat replicate app]. rewrite foldr_emits.
    change (Z.to_nat 0) with 0%nat. cbn [replicate app]. by destruct (emits (rev buf) si).
  - rewrite spaces_emits, emits_app.
    destruct (emits (replicate _ _) si) as [si1|]; [|done]. cbn [mbind option_bind].
    rewrite foldr_emits. by destruct (emits (rev buf) si1).
Qed.
End emits.

(** ** Into a buffer *)
Lemma emits_buffer maxlen l b idx :
  0 <= idx -> idx + Z.of_nat (length l) <= Z.of_nat (length b) ->
  idx + Z.of_nat (length l) <= maxlen -> idx + Z.of_nat (length l) < 2 ^ 32 ->
  emits (_out_buffer maxlen) l (b, idx)
  = Some (take (Z.to_nat idx) b ++ l ++ drop (Z.to_nat idx + length l) b, idx + Z.of_nat (length l)).
Proof.
  revert b idx. induction l as [|c l IH]; intros b idx H0 Hb Hm Hu; cbn [length] in *.
  - cbn [emits app]. rewrite Nat.add_0_r, take_drop. do 2 f_equal. lia.
  - cbn [emits emit].
    assert (_out_buffer maxlen c b idx = Some (<[Z.to_nat idx := c]> b)) as ->.
    { unfold _out_buffer. by rewrite (proj2 (Z.ltb_lt idx maxlen)), updateZ_in by lia. }
    cbn [mbind option_bind].
    rewrite u32_small by lia. rewrite IH by (rewrite ?length_insert; lia). do 2 f_equal; [|lia].
    rewrite Z2Nat.inj_add by lia. change (Z.to_nat 1) with 1%nat.
    rewrite drop_insert_lt by lia.
    replace (Z.to_nat idx + Datatypes.S (length l))%nat with (Z.to_nat idx + 1 + length l)%nat by lia.
    rewrite Nat.add_1_r. rewrite (take_S_r _ _ c) by (apply list_lookup_insert_eq; lia).
    rewrite (take_insert_ge) by lia. by rewrite <- (assoc_L (++)).
Qed.

(** ** Digits *)

(** The value of a string of decimal digits, most significant first. *)
Definition dec_value (l : list Z) : Z := foldl (fun n c => n * 10 + (c - ch "0")) 0 l.

Lemma dec_value_snoc l c : dec_value (l ++ [c]) = dec_value l * 10 + (c - ch "0").
Proof. unfold dec_value. by rewrite foldl_app. Qed.

Definition all_digits (l : list Z) : Prop := Forall (fun c => _is_digit c = true) l.

Lemma digit_char_dec v flags : digit_char (v mod 10) flags = ch "0" + v mod 10.
Proof. unfold digit_char. pose proof (Z.mod_pos_bound v 10). by rewrite (proj2 (Z.ltb_lt _ _)) by lia. Qed.

Lemma digit_is_digit v : _is_digit (ch "0" + v mod 10) = true.
Proof.
  pose proof (Z.mod_pos_bound v 10 ltac:(lia)). unfold _is_digit. change (ch "0") with 48. change (ch "9") with 57.
  rewrite Z.geb_leb. apply andb_true_intro. rewrite !Z.leb_le. lia.
Qed.

Lemma all_digits_forallb l : forallb _is_digit l = true -> all_digits l.
Proof. rewrite forallb_forall. intros H. apply list.Forall_forall. intros x Hx. apply H. by apply list_elem_of_In. Qed.

Lemma is_digit_ge c : _is_digit c = true -> ch "0" <= c.
Proof. unfold _is_digit. intros [H _]%andb_prop. by rewrite Z.geb_leb, Z.leb_le in H. Qed.

Lemma dec_fold_ge k l : all_digits l -> 0 <= k -> k <= foldl (fun n c => n * 10 + (c - ch "0")) k l.
Proof.
  intros H. revert k. induction H as [|c l Hc H IH]; intros k Hk; cbn [foldl]; [done|].
  apply is_digit_ge in Hc. etransitivity; [|apply IH; lia]. lia.
Qed.

Lemma dec_value_nonneg l : all_digits l -> 0 <= dec_value l.
Proof. intros H. by apply dec_fold_ge. Qed.

(** The loop stores the digits of the value in reverse, behind what is there,
    when they fit. *)
Lemma ntoa_digits_spec fuel v flags buf :
  (fuel + length buf = 32)%nat -> (0 < fuel)%nat -> 0 <= v < 10 ^ Z.of_nat fuel ->
  exists d, ntoa_digits fuel v 10 flags buf = buf ++ rev d
    /\ dec_value d = v /\ all_digits d /\ (1 <= length d)%nat
    /\ forall k, (1 <= k)%nat -> v < 10 ^ Z.of_nat k -> (length d <= k)%nat.
Proof.
  revert v buf. induction fuel as [|fuel IH]; intros v buf Hf H0 Hv; [lia|].
  cbn [ntoa_digits]. rewrite digit_char_dec.
  pose proof (Z.div_mod v 10 ltac:(lia)) as E. pose proof (Z.mod_pos_bound v 10 ltac:(lia)) as Hm.
  assert (Hs : forall k, v < 10 ^ Z.of_nat (Datatypes.S k) -> v / 10 < 10 ^ Z.of_nat k).
  { intros k Hk. apply Z.div_lt_upper_bound; [lia|]. rewrite Nat2Z.inj_succ, Z.pow_succ_r in Hk by lia. lia. }
  destruct (Z.eqb_spec (v / 10) 0) as [Hz|Hz]; cbn [negb andb].
  - exists [ch "0" + v mod 10]. split_and!; [done| |by repeat constructor; apply digit_is_digit|simpl; lia..].
    unfold dec_value. cbn [foldl]. lia.
  - assert (0 <= v / 10) by (apply Z.div_pos; lia). assert (v / 10 < 10 ^ Z.of_nat fuel) by (apply Hs; lia).
    assert (0 < fuel)%nat. { destruct fuel; [|lia]. simpl in *. lia. }
    unfold room. rewrite length_app. cbn [length]. unfold PRINTF_NTOA_BUFFER_SIZE.
    rewrite (proj2 (Z.ltb_lt _ _)) by lia.
    destruct (IH (v / 10) (buf ++ [ch "0" + v mod 10])) as (d & -> & Hd & Ha & Hl & Hk); [rewrite length_app; simpl; lia|lia|lia|].
    exists (d ++ [ch "0" + v mod 10]). rewrite rev_app_distr, dec_value_snoc, Hd, length_app. cbn [rev app length].
    split_and!; [by rewrite <- (assoc_L (++))|lia| |lia|].
    + apply Forall_app. split; [done|]. repeat constructor. apply digit_is_digit.
    + intros [|k] Hk1 Hv'; [lia|]. apply Hs in Hv'. destruct k as [|k]; [simpl in Hv'; lia|].
      specialize (Hk (Datatypes.S k) ltac:(lia) Hv'). lia.
Qed.

(** ** Decimal texts *)
Definition zeros (n : Z) : list Z := replicate (Z.to_nat n) (ch "0").

Lemma pad_zeros_spec fuel lim buf :
  lim <= 32 -> (Z.to_nat (lim - Z.of_nat (length buf)) <= fuel)%nat ->
  pad_zeros fuel lim buf = buf ++ zeros (lim - Z.of_nat (length buf)).
Proof.
  intros Hl. revert buf. induction fuel as [|fuel IH]; intros buf Hf.
  - unfold zeros. replace (Z.to_nat _) with 0%nat by lia. by rewrite app_nil_r.
  - cbn [pad_zeros]. unfold PRINTF_NTOA_BUFFER_SIZE.
    destruct (Z.ltb_spec (Z.of_nat (length buf)) lim); cbn [andb].
    + rewrite (proj2 (Z.ltb_lt _ 32)) by lia. rewrite IH by (rewrite length_app; simpl; lia).
      rewrite length_app, <- (assoc_L (++)). cbn [length]. f_equal. unfold zeros.
      replace (Z.to_nat (lim - Z.of_nat (length buf)))
        with (Datatypes.S (Z.to_nat (lim - Z.of_nat (length buf + 1)))) by lia. done.
    + unfold zeros. replace (Z.to_nat _) with 0%nat by lia. by rewrite app_nil_r.
Qed.

(** The sign and the digits [d], filled up to [width] with zeros behind the sign
    or with spaces before it. *)
Definition dec_text (zp : bool) (width : Z) (neg : bool) (d : list Z) : list Z :=
  let sign := if neg then [ch "-"] else [] in
  let n := width - Z.of_nat (length sign) - Z.of_nat (length d) in
  if zp then sign ++ zeros n ++ d else replicate (Z.to_nat n) (ch " ") ++ sign ++ d.

Definition dec_flags (zp lg : bool) : Z :=
  Z.lor (if zp then FLAGS_ZEROPAD else 0) (if lg then FLAGS_LONG else 0).

Lemma rev_replicate (n : nat) (c : Z) : rev (replicate n c) = replicate n c.
Proof.
  induction n as [|n IH]; [done|]. cbn [replicate rev]. rewrite IH. by rewrite <- replicate_cons_app.
Qed.

Lemma format_text {S} (out : Z -> S -> Z -> option S) zp lg width neg d si :
  0 <= width <= 32 -> (1 <= length d <= 10)%nat ->
  _ntoa_format out (rev d) neg 10 0 width (dec_flags zp lg) si = emits out (dec_text zp width neg d) si.
Proof.
  intros Hw Hd. unfold _ntoa_format.
  assert (HL : has (dec_flags zp lg) FLAGS_LEFT = false) by by destruct zp, lg.
  assert (HH : has (dec_flags zp lg) FLAGS_HASH = false) by by destruct zp, lg.
  assert (HP : has (dec_flags zp lg) FLAGS_PLUS = false) by by destruct zp, lg.
  assert (HS : has (dec_flags zp lg) FLAGS_SPACE = false) by by destruct zp, lg.
  assert (HB : has (dec_flags zp lg) (Z.lor FLAGS_PLUS FLAGS_SPACE) = false) by by destruct zp, lg.
  assert (HZ : has (dec_flags zp lg) FLAGS_ZEROPAD = zp) by by destruct zp, lg.
  rewrite HL, HH, HP, HS, HB, HZ, orb_false_r. cbn [negb]. rewrite out_rev_emits, HZ by done.
  assert (pad_zeros 32 0 (rev d) = rev d) as ->.
  { rewrite pad_zeros_spec by (rewrite ?length_rev; lia). unfold zeros. rewrite length_rev.
    replace (Z.to_nat (0 - Z.of_nat (length d))) with 0%nat by lia. apply app_nil_r. }
  f_equal. unfold dec_text. destruct zp; cbn [andb].
  - change (Z.to_nat 0) with 0%nat. cbn [replicate app]. rewrite andb_true_r.
    rewrite pad_zeros_spec by (rewrite ?length_rev; destruct (negb (width =? 0) && neg); lia).
    rewrite ?length_rev. unfold zeros, room, PRINTF_NTOA_BUFFER_SIZE.
    destruct neg; cbn [andb].
    + rewrite andb_true_r. rewrite (proj2 (Z.ltb_lt _ 32)).
      2: { rewrite length_app, length_rev, length_replicate. destruct (Z.eqb_spec width 0); cbn [negb]; lia. }
      rewrite !rev_app_distr, rev_involutive, rev_replicate. cbn [rev app length]. do 2 f_equal.
      f_equal. destruct (Z.eqb_spec width 0); cbn [negb]; lia.
    + rewrite andb_false_r. cbn [app length].
      assert (forall b : bool, (if b then rev d ++ replicate (Z.to_nat (width - Z.of_nat (length d))) (ch "0")
                else rev d ++ replicate (Z.to_nat (width - Z.of_nat (length d))) (ch "0"))
              = rev d ++ replicate (Z.to_nat (width - Z.of_nat (length d))) (ch "0")) as -> by by intros [].
      rewrite rev_app_distr, rev_involutive, rev_replicate. do 2 f_equal. lia.
  - rewrite andb_false_r. cbn [andb]. unfold room, PRINTF_NTOA_BUFFER_SIZE. rewrite length_rev.
    rewrite (proj2 (Z.ltb_lt _ 32)) by lia.
    destruct neg; rewrite ?length_app, ?length_rev, ?rev_app_distr, rev_involutive; cbn [rev app length].
    + do 2 f_equal. lia.
    + do 2 f_equal. lia.
Qed.

(** What [%d] emits for a signed value, with or without the zero flag. *)
Lemma ntoa_decimal v zp lg width :
  - 2 ^ 31 <= v < 2 ^ 31 -> 0 <= width <= 32 ->
  exists d, dec_value d = Z.abs v /\ all_digits d /\ (1 <= length d <= 10)%nat
    /\ forall (S : Type) (out : Z -> S -> Z -> option S) si,
         _ntoa_long out (if v >? 0 then v else 0 - v) (v <? 0) 10 0 width (dec_flags zp lg) si
         = emits out (dec_text zp width (v <? 0) d) si.
Proof.
  intros Hv Hw.
  assert (HM : (if v >? 0 then v else 0 - v) = Z.abs v) by (rewrite Z.gtb_ltb; destruct (Z.ltb_spec 0 v); lia).
  set (fl := if u32 (Z.abs v) =? 0 then clear_flag (dec_flags zp lg) FLAGS_HASH else dec_flags zp lg).
  assert (fl = dec_flags zp lg) as Hfl by (unfold fl; destruct (u32 (Z.abs v) =? 0), zp, lg; done).
  destruct (ntoa_digits_spec 32 (Z.abs v) fl []) as (d & Ed & Hd & Ha & H1 & Hk); [done|lia| |].
  { change (10 ^ Z.of_nat 32) with 100000000000000000000000000000000. lia. }
  assert (H10 : (length d <= 10)%nat).
  { apply Hk; [lia|]. change (10 ^ Z.of_nat 10) with 10000000000. lia. }
  exists d. split_and!; [done..|]. intros S out si. unfold _ntoa_long, ntoa. fold fl.
  rewrite HM. fold fl. rewrite u32_small in * by lia.
  assert (has fl FLAGS_PRECISION = false) as -> by (rewrite Hfl; by destruct zp, lg).
  cbn [negb orb]. rewrite Ed. cbn [app]. rewrite Hfl. by apply format_text.
Qed.

(** ** Reading a decimal text back *)
Fixpoint read_dec (l : list Z) : Z :=
  match l with
  | [] => 0
  | c :: s => if c =? ch " " then read_dec s else if c =? ch "-" then - dec_value s else dec_value l
  end.

Lemma dec_value_zeros n d : dec_value (zeros n ++ d) = dec_value d.
Proof.
  unfold dec_value, zeros. induction (Z.to_nat n) as [|k IH]; [done|]. cbn [replicate app foldl]. apply IH.
Qed.

Lemma read_dec_digits l : all_digits l -> read_dec l = dec_value l.
Proof.
  intros H. destruct H as [|c l Hc H]; [done|]. cbn [read_dec].
  unfold _is_digit in Hc. apply andb_prop in Hc as [Hc _]. rewrite Z.geb_leb, Z.leb_le in Hc.
  change (ch "0") with 48 in Hc. rewrite (proj2 (Z.eqb_neq c (ch " "))), (proj2 (Z.eqb_neq c (ch "-"))); [done|..].
  - change (ch "-") with 45. lia.
  - change (ch " ") with 32. lia.
Qed.

Lemma dec_text_reads zp width v d :
  dec_value d = Z.abs v -> all_digits d -> read_dec (dec_text zp width (v <? 0) d) = v.
Proof.
  intros Hd Ha.
  assert (Hz : forall n, all_digits (zeros n ++ d)).
  { intros n. apply Forall_app. split; [|done]. apply Forall_replicate. reflexivity. }
  unfold dec_text. destruct zp.
  - destruct (Z.ltb_spec v 0); cbn [app].
    + change (read_dec (ch "-" :: ?l)) with (- dec_value l). rewrite dec_value_zeros. lia.
    + rewrite read_dec_digits, dec_value_zeros by done. lia.
  - induction (Z.to_nat _) as [|k IH]; [|done]. cbn [replicate app].
    destruct (Z.ltb_spec v 0); cbn [app].
    + change (read_dec (ch "-" :: d)) with (- dec_value d). lia.
    + rewrite read_dec_digits by done. lia.
Qed.

Lemma dec_text_length zp width neg d :
  (length (dec_text zp width neg d) = max (Z.to_nat width) ((if neg then 1 else 0) + length d))%nat.
Proof. unfold dec_text, zeros. destruct zp, neg; rewrite !length_app, length_replicate; cbn [length]; lia. Qed.

(** ** The format of a decimal conversion *)
Lemma atoi_digits l i c r :
  all_digits l -> _is_digit c = false -> 0 <= i ->
  foldl (fun n c => n * 10 + (c - ch "0")) i l < 2 ^ 32 ->
  _atoi i (l ++ c :: r) = Some (foldl (fun n c => n * 10 + (c - ch "0")) i l, c :: r).
Proof.
  intros Ha Hc. revert i. induction Ha as [|x l Hx Ha IH]; intros i Hi Hb; cbn [app _atoi foldl] in *.
  - by rewrite Hc.
  - rewrite Hx. apply is_digit_ge in Hx.
    rewrite u32_small; [apply IH; [lia|done]|]. split; [lia|]. eapply Z.le_lt_trans; [|exact Hb].
    apply dec_fold_ge; [done|lia].
Qed.

(** The width as it is written: empty, or digits that do not start with 0. *)
Definition width_ok (w : list Z) : bool :=
  forallb _is_digit w && match w with c :: _ => negb (c =? ch "0") | [] => true end && (dec_value w <=? 32).

(** "%" 0 width l "d", the parts in the middle each optional. *)
Definition dec_format (zp : bool) (w : list Z) (lg : bool) : list Z :=
  [ch "%"] ++ (if zp then [ch "0"] else []) ++ w ++ (if lg then [ch "l"] else []) ++ [ch "d"; 0].

Lemma leading_digit c : _is_digit c = true -> (c =? ch "0") = false ->
  c = 49 \/ c = 50 \/ c = 51 \/ c = 52 \/ c = 53 \/ c = 54 \/ c = 55 \/ c = 56 \/ c = 57.
Proof.
  unfold _is_digit. intros [H1 H2]%andb_prop H3%Z.eqb_neq. rewrite Z.geb_leb, Z.leb_le in H1. apply Z.leb_le in H2.
  change (ch "0") with 48 in *. change (ch "9") with 57 in *. lia.
Qed.

Lemma parse_dec_width w (lg : bool) va fl :
  width_ok w = true ->
  exists c r, w ++ (if lg then [ch "l"] else []) ++ [ch "d"; 0] = c :: r
    /\ parse_flags (c :: r) fl = Some (fl, c :: r)
    /\ parse_width (c :: r) fl va
       = Some (dec_value w, fl, (if lg then [ch "l"] else []) ++ [ch "d"; 0], va).
Proof.
  unfold width_ok. intros H. apply andb_prop in H as [H Hb%Z.leb_le]. apply andb_prop in H as [Ha Hh].
  destruct w as [|c w].
  - destruct lg; eexists _, _; split; try reflexivity; split; reflexivity.
  - eexists _, _. split; [reflexivity|]. cbn [forallb] in Ha. apply andb_prop in Ha as [Hc Ha].
    apply negb_true_iff in Hh. split.
    + destruct (leading_digit c Hc Hh) as [->|[->|[->|[->|[->|[->|[->|[->| ->]]]]]]]]; reflexivity.
    + cbn [parse_width]. rewrite Hc, app_comm_cons.
      assert (all_digits (c :: w)) as Hall.
      { constructor; [done|]. by apply all_digits_forallb. }
      assert (exists e r, (if lg then [ch "l"] else []) ++ [ch "d"; 0] = e :: r /\ _is_digit e = false)
        as (e & r & -> & He) by (destruct lg; eexists _, _; split; reflexivity).
      rewrite (atoi_digits (c :: w) 0 e r Hall He) by (unfold dec_value in Hb; lia). reflexivity.
Qed.

Lemma format_spec_decimal {fpu : FPU} {S} (out : Z -> S -> Z -> option S) zp w lg z si :
  width_ok w = true ->
  format_spec out (tail (dec_format zp w lg)) [Word z] si
  = (si ← _ntoa_long out (if s32 z >? 0 then s32 z else 0 - s32 z) (s32 z <? 0) 10 0 (dec_value w)
            (dec_flags zp lg) si; Some (si, [], [0])).
Proof.
  intros Hw. unfold dec_format. cbn [app tail]. unfold format_spec.
  assert (exists c r, w ++ (if lg then [ch "l"] else []) ++ [ch "d"; 0] = c :: r
    /\ parse_flags ((if zp then [ch "0"] else []) ++ c :: r) 0 = Some (if zp then FLAGS_ZEROPAD else 0, c :: r)
    /\ parse_width (c :: r) (if zp then FLAGS_ZEROPAD else 0) [Word z]
       = Some (dec_value w, if zp then FLAGS_ZEROPAD else 0, (if lg then [ch "l"] else []) ++ [ch "d"; 0], [Word z]))
    as (c & r & -> & E1 & E2).
  { destruct (parse_dec_width w lg [Word z] (if zp then FLAGS_ZEROPAD else 0) Hw) as (c & r & E & E1 & E2).
    exists c, r. split_and!; [done| |done]. destruct zp; [|done]. cbn [app parse_flags].
    change (ch "0" =? ch "0") with true. cbn [andb]. change (set_flag 0 FLAGS_ZEROPAD) with FLAGS_ZEROPAD.
    exact E1. }
  rewrite E1. cbn [mbind option_bind]. rewrite E2. destruct zp, lg; lazy -[_ntoa_long dec_value s32 Z.gtb Z.ltb Z.sub]; by destruct (_ntoa_long _ _ _ _ _ _ _ _).
Qed.

(** A format that is one conversion, which emits [t]: the text and its terminator
    are stored. *)
Lemma sprintf_emits {fpu : FPU} tl va t b :
  (1 <= length tl)%nat ->
  (forall si, format_spec (_out_buffer UINT32_MAX) tl va si
              = (si ← emits (_out_buffer UINT32_MAX) t si; Some (si, [], [0]))) ->
  (length t < length b)%nat -> Z.of_nat (length t) < 2 ^ 31 ->
  sprintf_ (Some b) (ch "%" :: tl) va
  = Some (Z.of_nat (length t), Some (t ++ [0] ++ drop (length t + 1) b)).
Proof.
  intros Htl E Ht Hu. unfold sprintf_, vsnprintf_, _vsnprintf.
  destruct tl as [|c0 tl]; [simpl in Htl; lia|]. cbn [length].
  cbn [format_loop]. change (ch "%" =? 0) with false. change (ch "%" =? ch "%") with true. cbn [negb].
  rewrite E. rewrite emits_buffer by (unfold UINT32_MAX; lia).
  cbn [mbind option_bind Z.to_nat take app Nat.add]. change (0 =? 0) with true. cbn iota.
  change (Z.to_nat 0) with 0%nat. cbn [mbind option_bind take app Nat.add]. rewrite Z.add_0_l.
  rewrite (proj2 (Z.ltb_lt _ _)) by (unfold UINT32_MAX; lia).
  unfold _out_buffer. rewrite (proj2 (Z.ltb_lt _ _)) by (unfold UINT32_MAX; lia).
  change (take 0 b) with (@nil Z). cbn [app]. rewrite updateZ_in by (rewrite length_app, length_drop; lia). cbn [mbind option_bind].
  rewrite s32_small, Nat2Z.id by lia. do 4 f_equal.
  rewrite insert_app_r_alt, Nat.sub_diag by lia. f_equal.
  destruct (drop (length t) b) as [|x l] eqn:Ex.
  { apply (f_equal length) in Ex. rewrite length_drop in Ex. simpl in Ex. lia. }
  cbn [insert list_insert app]. f_equal. rewrite <- drop_drop, Ex. done.
Qed.

(** C37. Printing a number with a decimal conversion (with or without the zero
    flag, a width up to 32 and the [l] modifier, as the kernel uses them) into a
    buffer of 33 bytes or more stores a text with its terminator and returns the
    text's length; the rest of the buffer is untouched, the text has at least the
    width asked for, and read as a decimal number it is the value. *)
Theorem sprintf_decimal_roundtrip {fpu : FPU} zp w lg z b :
  width_ok w = true -> (33 <= length b)%nat ->
  exists text,
    sprintf_ (Some b) (dec_format zp w lg) [Word z]
    = Some (Z.of_nat (length text), Some (text ++ [0] ++ drop (length text + 1) b))
    /\ read_dec text = s32 z /\ dec_value w <= Z.of_nat (length text) <= 32.
Proof.
  intros Hw Hb.
  assert (Hz : - 2 ^ 31 <= s32 z < 2 ^ 31).
  { unfold s32. pose proof (Z.mod_pos_bound (z + 2 ^ 31) (2 ^ 32)). lia. }
  assert (Hwb : 0 <= dec_value w <= 32).
  { unfold width_ok in Hw. apply andb_prop in Hw as [Hw Hw3%Z.leb_le]. apply andb_prop in Hw as [Hw1 _].
    split; [|done]. by apply dec_value_nonneg, all_digits_forallb. }
  destruct (ntoa_decimal (s32 z) zp lg (dec_value w) Hz Hwb) as (d & Hd & Ha & Hl & E).
  exists (dec_text zp (dec_value w) (s32 z <? 0) d).
  pose proof (dec_text_length zp (dec_value w) (s32 z <? 0) d) as Hlen.
  set (t := dec_text zp (dec_value w) (s32 z <? 0) d) in *.
  assert ((length t <= 32)%nat) by (destruct (s32 z <? 0); lia).
  split_and!; [|by apply dec_text_reads|destruct (s32 z <? 0); lia|lia].
  change (dec_format zp w lg) with (ch "%" :: tail (dec_format zp w lg)).
  apply sprintf_emits; [|intros si; by rewrite format_spec_decimal, E|lia..].
  unfold dec_format. cbn [app tail]. rewrite !length_app. cbn [length]. lia.
Qed.

Lemma sprintf_decimal_roundtrip_witness :
  exists text,
    sprintf_ (Some (replicate 40 1)) (cstr "%010ld") [Word 0xfffffff4]
    = Some (Z.of_nat (length text), Some (text ++ [0] ++ drop (length text + 1) (replicate 40 1)))
    /\ read_dec text = -12 /\ 10 <= Z.of_nat (length text) <= 32.
Proof.
  apply (sprintf_decimal_roundtrip (fpu := binary64) true [49; 48] true 0xfffffff4 (replicate 40 1)); [reflexivity|].
  vm_compute. lia.
Defined.

(** ** What every call of the output routine keeps, the formatter keeps *)
Create HintDb printf.

Section keeps.
Context {fpu : FPU} {S : Type} (out : Z -> S -> Z -> option S) (P : S -> Prop).
Context (Hout : forall c s idx s', out c s idx = Some s' -> 0 <= idx -> P s -> P s').

Definition kept (si : S * Z) : Prop := P (fst si) /\ 0 <= snd si.

Lemma emit_keeps c si si' : emit out c si = Some si' -> kept si -> kept si'.
Proof using Hout.
  destruct si as [s idx]. unfold emit. intros E [HP Hi]. invert_binds E. injection E as <-.
  split; [by eapply Hout|]. cbn [snd]. auto with machine.
Qed.
#[local] Hint Resolve emit_keeps : printf.

Lemma emits_keeps l si si' : emits out l si = Some si' -> kept si -> kept si'.
Proof using Hout.
  revert si. induction l as [|c l IH]; intros si E HP; cbn [emits] in E; [by injection E as <-|].
  apply option.bind_Some in E as (si1 & E1 & E). eauto with printf.
Qed.
#[local] Hint Resolve emits_keeps : printf.

Lemma spaces_keeps l w si si' : spaces out l w si = Some si' -> kept si -> kept si'.
Proof using Hout. rewrite spaces_emits. apply emits_keeps. Qed.

Lemma if_spaces_keeps (b : bool) l w si si' :
  (if b then spaces out l w si else Some si) = Some si' -> kept si -> kept si'.
Proof using Hout. destruct b; [apply spaces_keeps|]. congruence. Qed.
#[local] Hint Resolve if_spaces_keeps : printf.

Lemma out_rev_keeps buf w fl si si' : _out_rev out buf w fl si = Some si' -> kept si -> kept si'.
Proof using Hout.
  unfold _out_rev. intros E HP. apply option.bind_Some in E as (si1 & E1 & E).
  apply option.bind_Some in E as (si2 & E2 & E). rewrite foldr_emits in E2.
  eauto with printf.
Qed.

#[local] Hint Resolve out_rev_keeps : printf.

Lemma ntoa_keeps v neg base prec w fl si si' : ntoa out v neg base prec w fl si = Some si' -> kept si -> kept si'.
Proof using Hout.
  unfold ntoa, _ntoa_format. destruct (negb (has _ FLAGS_LEFT)); apply out_rev_keeps.
Qed.
#[local] Hint Resolve ntoa_keeps : printf.

Lemma put_string_keeps p lim prec si si' : put_string out p lim prec si = Some si' -> kept si -> kept si'.
Proof using Hout.
  revert prec si. induction p as [|c p IH]; intros prec si E HP; cbn [put_string] in E; [done|].
  destruct (_ && _); [|by injection E as <-]. apply option.bind_Some in E as (si1 & E1 & E).
  eauto with printf.
Qed.
#[local] Hint Resolve put_string_keeps : printf.

Lemma convert_int_keeps c fl w prec va si si' va' :
  convert_int out c fl w prec va si = Some (si', va') -> kept si -> kept si'.
Proof using Hout.
  unfold convert_int, _ntoa_long, _ntoa_long_long. intros E HP.
  destruct (if (c =? ch "x") || (c =? ch "X") then _ else _) as [base fl1].
  destruct (has _ FLAGS_LONG_LONG); (destruct va as [|[z|z|z|s] va]; try done);
    apply option.bind_Some in E as (si1 & E1 & E); injection E as <- <-;
    destruct ((c =? ch "i") || (c =? ch "d")); eauto with printf.
Qed.
#[local] Hint Resolve convert_int_keeps : printf.

Lemma etoa_with_keeps ftoa v prec w fl si si' :
  (forall v prec w fl si si', ftoa v prec w fl si = Some si' -> kept si -> kept si') ->
  etoa_with out ftoa v prec w fl si = Some si' -> kept si -> kept si'.
Proof using Hout.
  intros Hf. unfold etoa_with, _ntoa_long. intros E HP.
  destruct (_ || _); [by eapply Hf|]. destruct (etoa_scale _) as [expval F].
  destruct (if has fl FLAGS_ADAPT_EXP then _ else _) as [[[p1 f1] m1] e1].
  apply option.bind_Some in E as (si1 & E1 & E). apply Hf in E1; [|done].
  destruct (negb (m1 =? 0)); [|by injection E as <-].
  apply option.bind_Some in E as (si2 & E2 & E). apply option.bind_Some in E as (si3 & E3 & E).
  eauto with printf.
Qed.

Lemma ftoa_keeps depth v prec w fl si si' : _ftoa out depth v prec w fl si = Some si' -> kept si -> kept si'.
Proof using Hout.
  revert v prec w fl si si'. induction depth as [|depth IH]; intros v prec w fl si si' E HP; cbn [_ftoa] in E.
  all: repeat match type of E with (if ?b then _ else _) = _ => destruct b end; eauto using etoa_with_keeps with printf.
  all: try done; apply option.bind_Some in E as (buf & _ & E); unfold ftoa_format in E.
  all: destruct (_ && has fl FLAGS_ZEROPAD); eauto with printf.
Qed.

Lemma convert_float_keeps c fl w prec va si si' va' :
  convert_float out c fl w prec va si = Some (si', va') -> kept si -> kept si'.
Proof using Hout.
  unfold convert_float, _etoa. intros E HP. destruct va as [|[z|z|z|s] va]; try done.
  apply option.bind_Some in E as (si1 & E1 & E). injection E as <- <-.
  destruct (_ || _); eauto using ftoa_keeps, etoa_with_keeps.
Qed.

Lemma convert_keeps c fl w prec va si si' va' :
  convert out c fl w prec va si = Some (si', va') -> kept si -> kept si'.
Proof using Hout.
  unfold convert, convert_char, convert_string, _ntoa_long. intros E HP.
  destruct (is_int_spec c); [by eapply convert_int_keeps|]. destruct (is_float_spec c); [by eapply convert_float_keeps|].
  destruct (c =? ch "c"); [|destruct (c =? ch "s"); [|destruct (c =? ch "p"); [|destruct (c =? ch "%")]]].
  - destruct va as [|[z|z|z|s] va]; try done. apply option.bind_Some in E as (si1 & E1 & E). injection E as <- <-.
    apply option.bind_Some in E1 as (si2 & E2 & E1). apply option.bind_Some in E1 as (si3 & E3 & E1).
    eauto with printf.
  - destruct va as [|[z|z|z|s] va]; try done. apply option.bind_Some in E as (si1 & E1 & E). injection E as <- <-.
    apply option.bind_Some in E1 as (l & _ & E1).
    apply option.bind_Some in E1 as (si2 & E2 & E1). apply option.bind_Some in E1 as (si3 & E3 & E1).
    eauto with printf.
  - destruct va as [|[z|z|z|s] va]; try done. apply option.bind_Some in E as (si1 & E1 & E). injection E as <- <-.
    eauto with printf.
  - apply option.bind_Some in E as (si1 & E1 & E). injection E as <- <-. eauto with printf.
  - apply option.bind_Some in E as (si1 & E1 & E). injection E as <- <-. eauto with printf.
Qed.
#[local] Hint Resolve convert_keeps : printf.

Lemma format_loop_keeps fuel format va si si' :
  format_loop out fuel format va si = Some si' -> kept si -> kept si'.
Proof using Hout.
  revert format va si. induction fuel as [|fuel IH]; intros [|c format] va si E HP; try done.
  cbn [format_loop] in E. destruct (c =? 0); [by injection E as <-|].
  destruct (negb (c =? ch "%")).
  - apply option.bind_Some in E as (si1 & E1 & E). eauto with printf.
  - apply option.bind_Some in E as ([[si1 va1] format1] & E1 & E). eapply IH; [exact E|].
    unfold format_spec in E1.
    apply option.bind_Some in E1 as ([fl1 f1] & _ & E1).
    apply option.bind_Some in E1 as ([[[w2 fl2] f2] va2] & _ & E1).
    apply option.bind_Some in E1 as ([[[p3 fl3] f3] va3] & _ & E1).
    apply option.bind_Some in E1 as ([fl4 f4] & _ & E1).
    destruct f4 as [|c4 f4]; [done|]. apply option.bind_Some in E1 as ([si5 va5] & E5 & E1).
    injection E1 as -> -> ->. eauto with printf.
Qed.
End keeps.

(** C39. Whatever the format and the arguments, [snprintf] with a bound of [count]
    bytes writes inside the first [count] bytes of the buffer only, and leaves a
    terminator among them. *)
Theorem snprintf_bounded {fpu : FPU} b extra format va r b' :
  (1 <= length b)%nat -> Z.of_nat (length b) < 2 ^ 32 ->
  snprintf_ (Some (b ++ extra)) (Z.of_nat (length b)) format va = Some (r, Some b') ->
  exists b1, b' = b1 ++ extra /\ length b1 = length b /\ 0 ∈ b1.
Proof.
  intros Hc Hu E. unfold snprintf_, vsnprintf_, _vsnprintf in E.
  set (count := Z.of_nat (length b)) in *.
  set (P := fun l : list Z => exists b1, l = b1 ++ extra /\ length b1 = length b).
  assert (Hput : forall c l idx l', 0 <= idx < count -> l$[idx := c] = Some l' -> P l ->
            exists b1, l' = b1 ++ extra /\ length b1 = length b /\ b1$[idx] = Some c).
  { intros c l idx l' Hi El (b1 & -> & Hl). apply updateZ_Some in El as [_ ->].
    rewrite insert_app_l by lia. eexists. split; [reflexivity|]. rewrite length_insert. split; [done|].
    apply lookupZ_insert_eq. lia. }
  assert (Hout : forall c l idx l', _out_buffer count c l idx = Some l' -> 0 <= idx -> P l -> P l').
  { intros c l idx l' El Hi HP. unfold _out_buffer in El.
    destruct (Z.ltb_spec idx count); [|by injection El as <-].
    destruct (Hput c l idx l' ltac:(lia) El HP) as (b1 & ? & ? & _). by exists b1. }
  apply option.bind_Some in E as ([r1 b2] & E & E3). injection E3 as -> ->.
  apply option.bind_Some in E as ([s idx] & E1 & E). apply option.bind_Some in E as (s1 & E2 & E).
  injection E as _ ->.
  apply (format_loop_keeps _ P Hout) in E1 as [HP Hi]; [|split; [|done]; by exists b]. cbn [fst snd] in *.
  unfold _out_buffer in E2. set (i := if idx <? count then idx else u32 (count - 1)) in *.
  assert (0 <= i < count) by (unfold i; destruct (Z.ltb_spec idx count); [lia|]; rewrite u32_small; lia).
  rewrite (proj2 (Z.ltb_lt i count)) in E2 by lia.
  destruct (Hput 0 s i b' ltac:(done) E2 HP) as (b1 & -> & Hl & H0). exists b1. split_and!; [done..|].
  apply lookupZ_Some in H0 as [_ H0]. by eapply list_elem_of_lookup_2.
Qed.

Lemma snprintf_bounded_witness :
  exists b1, [49; 50; 0; 7; 7] = b1 ++ [7; 7] /\ length b1 = 3%nat /\ 0 ∈ b1.
Proof.
  apply (snprintf_bounded (fpu := binary64) [9; 9; 9] [7; 7] (cstr "%d") [Word 12345] 5 [49; 50; 0; 7; 7]);
    [simpl; lia|simpl; lia|vm_compute; reflexivity].
Defined.
