(* ===== verification/PrintfFloat.v ===== *)
(** * What the floating point conversions write

    Whatever the arithmetic, the characters of [%.pf] read back as the integer
    and the fraction the number was split into; in exact arithmetic the split is
    the number rounded to [p] digits.  The last section holds the inputs on which
    the conversions go wrong. *)
From Stdlib Require Import ZArith QArith Qround Qabs Lqa Lia Ascii String.
From stdpp Require Import base option list numbers.
From S2P Require Import Prelude Draw Float Printf PrintfSpec.

#[local] Open Scope Z_scope.

Set Default Proof Using "Type".

(** ** The loops over the buffer *)
Lemma froom_spec buf : froom buf = room buf.
Proof. done. Qed.

Lemma room_spec buf : room buf = true <-> (length buf < 32)%nat.
Proof. unfold room, PRINTF_NTOA_BUFFER_SIZE. rewrite Z.ltb_lt. lia. Qed.

Lemma length_snoc (l : list Z) x : length (l ++ [x]) = S (length l).
Proof. rewrite length_app. cbn [length]. lia. Qed.

(** The digits of the integer part are those of the integer conversions. *)
Lemma ftoa_whole_ntoa fuel w buf :
  0 <= w -> (length buf < 32)%nat -> (32 <= fuel + length buf)%nat ->
  ftoa_whole fuel buf w = ntoa_digits (32 - length buf) w 10 0 buf.
Proof.
  revert w buf. induction fuel as [|fuel IH]; intros w buf Hw Hl Hf; [lia|].
  replace (32 - length buf)%nat with (S (32 - S (length buf))) by lia.
  cbn [ftoa_whole ntoa_digits]. rewrite froom_spec, (proj2 (room_spec buf)) by done.
  rewrite digit_char_dec, Z.rem_mod_nonneg, Z.quot_div_nonneg by lia.
  assert (s8 (48 + w mod 10) = ch "0" + w mod 10) as ->.
  { change (ch "0") with 48. pose proof (Z.mod_pos_bound w 10). unfold s8. rewrite Z.mod_small; lia. }
  destruct (Z.eqb_spec (w / 10) 0); cbn [negb andb]; [done|].
  assert (0 <= w / 10) by (apply Z.div_pos; lia).
  destruct (room (buf ++ _)) eqn:E.
  - apply room_spec in E. rewrite length_snoc in E.
    rewrite IH by (rewrite ?length_snoc; lia). by rewrite length_snoc.
  - destruct fuel; cbn [ftoa_whole]; [done|]. by rewrite froom_spec, E.
Qed.

Lemma ftoa_frac_ntoa fuel f buf count :
  0 <= f -> (length buf < 32)%nat -> (32 <= fuel + length buf)%nat ->
  let b := ntoa_digits (32 - length buf) f 10 0 buf in
  ftoa_frac fuel buf f count = (b, u32 (count - (Z.of_nat (length b) - Z.of_nat (length buf)))).
Proof.
  revert f buf count. induction fuel as [|fuel IH]; intros f buf count Hw Hl Hf; [lia|].
  replace (32 - length buf)%nat with (S (32 - S (length buf))) by lia.
  cbn [ftoa_frac ntoa_digits]. rewrite froom_spec, (proj2 (room_spec buf)) by done.
  rewrite digit_char_dec. change 48 with (ch "0").
  destruct (Z.eqb_spec (f / 10) 0); cbn [negb andb].
  { rewrite length_snoc. do 2 f_equal. lia. }
  assert (0 <= f / 10) by (apply Z.div_pos; lia).
  destruct (room (buf ++ _)) eqn:E.
  - apply room_spec in E. rewrite length_snoc in E.
    rewrite IH by (rewrite ?length_snoc; lia). rewrite length_snoc. f_equal.
    unfold u32. rewrite Zminus_mod_idemp_l. f_equal. lia.
  - assert (forall g n, ftoa_frac fuel (buf ++ [ch "0" + f mod 10]) g n = (buf ++ [ch "0" + f mod 10], n)) as ->.
    { intros g n'. destruct fuel; cbn [ftoa_frac]; [done|]. by rewrite froom_spec, E. }
    rewrite length_snoc. do 2 f_equal. lia.
Qed.

Lemma ftoa_zeros_spec fuel buf count :
  (length buf + Z.to_nat count <= 32)%nat -> (Z.to_nat count <= fuel)%nat ->
  ftoa_zeros fuel buf count = buf ++ zeros count.
Proof.
  revert buf count. induction fuel as [|fuel IH]; intros buf count Hl Hf; cbn [ftoa_zeros].
  { unfold zeros. replace (Z.to_nat count) with 0%nat by lia. by rewrite app_nil_r. }
  rewrite Z.gtb_ltb, froom_spec. destruct (Z.ltb_spec 0 count); rewrite ?andb_true_r, ?andb_false_r.
  - rewrite (proj2 (room_spec buf)) by lia.
    rewrite IH by (rewrite ?length_snoc; lia). rewrite <- (assoc_L (++)). f_equal. unfold zeros.
    replace (Z.to_nat count) with (S (Z.to_nat (count - 1))) by lia. done.
  - unfold zeros. replace (Z.to_nat count) with 0%nat by lia. by rewrite app_nil_r.
Qed.

(** [digits n l]: [l] is a text of decimal digits with the value [n]. *)
Definition digits (n : Z) (l : list Z) : Prop := all_digits l /\ dec_value l = n.

Lemma ftoa_limit_small prec :
  prec <= 9 -> ftoa_limit FTOA_TURNS [] prec = ([], prec).
Proof.
  intros H. change FTOA_TURNS with (S 31). cbn [ftoa_limit]. rewrite Z.gtb_ltb.
  rewrite (proj2 (Z.ltb_ge 9 prec)) by lia. by rewrite andb_false_r.
Qed.

(** The fraction that is printed; there is none without digits. *)
Definition shown (prec frac : Z) : Z := if prec =? 0 then 0 else frac.

(** The text of a number: the integer, and the fraction when digits were asked for. *)
Definition fixed_text (prec : Z) (wd fd : list Z) : list Z := wd ++ (if prec =? 0 then [] else ch "." :: fd).

(** ** Any arithmetic *)
Section any.
Context {fpu : FPU}.

(** The characters of the split number, when the fraction fits its digits. *)
Lemma ftoa_digits_text value prec whole frac :
  0 <= prec <= 9 -> ftoa_split value prec = Some (whole, frac) ->
  0 <= whole < 2 ^ 31 -> 0 <= shown prec frac < 10 ^ prec ->
  exists wd fd, ftoa_digits value prec = Some (rev (fixed_text prec wd fd))
    /\ digits whole wd /\ (1 <= length wd <= 10)%nat
    /\ digits (shown prec frac) fd /\ Z.of_nat (length fd) = prec.
Proof.
  intros Hp E Hw Hf. unfold ftoa_digits, fixed_text, shown in *. rewrite ftoa_limit_small by lia. rewrite E. cbn [mbind option_bind].
  change FTOA_TURNS with 32%nat.
  assert (forall buf, (length buf <= 10)%nat -> exists wd, ftoa_whole 32 buf whole = buf ++ rev wd
            /\ digits whole wd /\ (1 <= length wd <= 10)%nat) as Hwhole.
  { intros buf Hl. rewrite ftoa_whole_ntoa by lia.
    destruct (ntoa_digits_spec (32 - length buf) whole 0 buf) as (wd & -> & Hd & Ha & H1 & Hk); [lia..| |].
    { split; [lia|]. apply Z.lt_le_trans with (10 ^ 22); [lia|]. apply Z.pow_le_mono_r; lia. }
    exists wd. split_and!; [done..|]. apply Hk; [lia|]. change (10 ^ Z.of_nat 10) with 10000000000. lia. }
  destruct (Z.eqb_spec prec 0) as [->|Hp0].
  - destruct (Hwhole [] ltac:(simpl; lia)) as (wd & -> & Hd & Hl). exists wd, [].
    rewrite app_nil_r. repeat split; try (apply Hd || lia || constructor).
  - rewrite ftoa_frac_ntoa by (simpl; lia).
    destruct (ntoa_digits_spec 32 frac 0 []) as (fd & Ed & Hd & Ha & H1 & Hk); [done|lia| |].
    { split; [lia|]. apply Z.lt_le_trans with (10 ^ prec); [lia|]. apply Z.pow_le_mono_r; lia. }
    assert (length fd <= Z.to_nat prec)%nat as Hlf by (apply Hk; [lia|]; rewrite Z2Nat.id; lia).
    cbn [length]. rewrite Nat.sub_0_r, Ed. cbn [app]. rewrite length_rev.
    change (Z.of_nat 0) with 0. rewrite u32_small by lia. rewrite ftoa_zeros_spec by (rewrite ?length_rev; lia).
    set (n := prec - _). assert (length (rev fd ++ zeros n) = Z.to_nat prec) as Hlen.
    { rewrite length_app, length_rev. unfold zeros. rewrite length_replicate. lia. }
    rewrite froom_spec, (proj2 (room_spec _)) by lia.
    destruct (Hwhole ((rev fd ++ zeros n) ++ [ch "."])) as (wd & -> & Hdw & Hlw); [rewrite length_snoc; lia|].
    exists wd, (zeros n ++ fd). split_and!; try done; try lia.
    + f_equal. rewrite rev_app_distr. cbn [rev]. rewrite !rev_app_distr. f_equal. f_equal.
      f_equal. symmetry. apply rev_replicate.
    + split; [|by rewrite dec_value_zeros]. apply Forall_app. split; [|done]. apply Forall_replicate. reflexivity.
    + rewrite length_app, Nat.add_comm, <- (length_rev fd), <- length_app, Hlen. lia.
Qed.

(** What [_ftoa] writes in positional notation. *)
Definition in_range (v : double) : bool :=
  feqb v v && negb (v <? fneg DBL_MAX)%F && negb (DBL_MAX <? v)%F
  && negb (PRINTF_MAX_FLOAT <? v)%F && negb (v <? fneg PRINTF_MAX_FLOAT)%F.

Definition is_negative (v : double) : bool := (v <? of_int 0)%F.
Definition magnitude (v : double) : double := if is_negative v then (of_int 0 - v)%F else v.

(** The nesting of [_etoa] and [_ftoa] does not matter there. *)
Lemma ftoa_in_range {S} (out : Z -> S -> Z -> option S) depth v prec width flags si :
  in_range v = true -> has flags FLAGS_PRECISION = true ->
  _ftoa out depth v prec width flags si
  = (buf ← ftoa_digits (magnitude v) prec; ftoa_format out buf (is_negative v) width flags si).
Proof.
  unfold in_range. intros H HP. repeat (apply andb_prop in H as [H ?H%negb_true_iff]).
  destruct depth as [|depth]; cbn [_ftoa]; by rewrite H, H0, H1, H2, H3, HP.
Qed.

Definition sign_text (negative : bool) : list Z := if negative then [ch "-"] else [].

Lemma ftoa_format_text {S} (out : Z -> S -> Z -> option S) t negative si :
  (length t < 32)%nat ->
  ftoa_format out (rev t) negative 0 FLAGS_PRECISION si = emits out (sign_text negative ++ t) si.
Proof.
  intros Hl. unfold ftoa_format, sign_text.
  change (has FLAGS_PRECISION FLAGS_LEFT) with false. change (has FLAGS_PRECISION FLAGS_ZEROPAD) with false.
  change (has FLAGS_PRECISION FLAGS_PLUS) with false. change (has FLAGS_PRECISION FLAGS_SPACE) with false.
  cbn [negb andb]. rewrite froom_spec, (proj2 (room_spec _)) by (rewrite length_rev; lia).
  rewrite out_rev_emits by done. change (has FLAGS_PRECISION FLAGS_ZEROPAD) with false. cbn iota.
  replace (Z.to_nat _) with 0%nat by lia. cbn [replicate app].
  destruct negative; [rewrite rev_app_distr|]; by rewrite rev_involutive.
Qed.

(** [%.pf] *)
Definition fixed_format (p : Z) : list Z := [ch "%"; ch "."; ch "0" + p; ch "f"; 0].

Lemma format_spec_fixed {S} (out : Z -> S -> Z -> option S) p bits si :
  0 <= p <= 9 ->
  format_spec out (tail (fixed_format p)) [Dbl bits] si
  = (si ← _ftoa out FLOAT_DEPTH (of_bits bits) p 0 FLAGS_PRECISION si; Some (si, [], [0])).
Proof.
  intros Hp.
  assert (p = 0 \/ p = 1 \/ p = 2 \/ p = 3 \/ p = 4 \/ p = 5 \/ p = 6 \/ p = 7 \/ p = 8 \/ p = 9) as H by lia.
  repeat destruct H as [->|H]; [..|subst p];
    lazy -[_ftoa of_bits FLOAT_DEPTH]; by destruct (_ftoa _ _ _ _ _ _ _).
Qed.
End any.

(** ** Reading a text back *)
Fixpoint split_point (l : list Z) : list Z * list Z :=
  match l with
  | [] => ([], [])
  | c :: s => if c =? ch "." then ([], s) else let '(a, b) := split_point s in (c :: a, b)
  end.

(** The sign, the integer, the fraction and the number of its digits. *)
Definition read_fixed (l : list Z) : bool * Z * Z * Z :=
  let '(negative, l) := match l with
                        | c :: s => if c =? ch "-" then (true, s) else (false, l)
                        | [] => (false, l)
                        end in
  let '(a, b) := split_point l in (negative, dec_value a, dec_value b, Z.of_nat (length b)).

Lemma split_point_text prec wd fd :
  all_digits wd -> split_point (fixed_text prec wd fd) = (wd, if prec =? 0 then [] else fd).
Proof.
  unfold fixed_text. induction 1 as [|c wd Hc H IH]; cbn [app split_point].
  - destruct (prec =? 0); [done|]. change (split_point (ch "." :: fd)) with (@nil Z, fd). done.
  - apply is_digit_ge in Hc. change (ch "0") with 48 in Hc.
    rewrite (proj2 (Z.eqb_neq c (ch "."))) by (change (ch ".") with 46; lia). by rewrite IH.
Qed.

Lemma read_fixed_text negative prec wd fd whole frac :
  digits whole wd -> (1 <= length wd)%nat -> digits frac fd -> Z.of_nat (length fd) = prec ->
  read_fixed (sign_text negative ++ fixed_text prec wd fd) = (negative, whole, frac, prec).
Proof.
  intros [Ha Hw] Hl [_ Hf] Hp. unfold read_fixed, sign_text.
  assert (forall l, (if prec =? 0 then [] else fd) = l -> dec_value l = frac /\ Z.of_nat (length l) = prec) as Hfd.
  { intros l <-. destruct (Z.eqb_spec prec 0); [|done]. destruct fd; [done|]. simpl in Hp. lia. }
  destruct (Hfd _ eq_refl) as [Hv Hn].
  destruct negative; cbn [app].
  - change (ch "-" =? ch "-") with true. cbn iota. rewrite split_point_text by done. by rewrite Hv, Hn, Hw.
  - destruct wd as [|c wd]; [simpl in Hl; lia|]. inversion Ha as [|?? Hc Ha']; subst.
    apply is_digit_ge in Hc. change (ch "0") with 48 in Hc.
    pose proof (split_point_text (Z.of_nat (length fd)) (c :: wd) fd Ha) as E.
    unfold fixed_text in *. cbn [app] in *.
    rewrite (proj2 (Z.eqb_neq c (ch "-"))) by (change (ch "-") with 45; lia). by rewrite E, Hv, Hn.
Qed.

(** Whatever the arithmetic of the machine, printing a number whose magnitude is
    at most [PRINTF_MAX_FLOAT] with [%.pf], [p] at most 9, stores a text that reads
    back as the sign, the integer and the fraction the number was split into, the
    fraction with exactly [p] digits, provided that the fraction is below [10 ^ p];
    the rest of the buffer is untouched. *)
Theorem sprintf_fixed_roundtrip {fpu : FPU} bits p whole frac b :
  0 <= p <= 9 -> in_range (of_bits bits) = true ->
  ftoa_split (magnitude (of_bits bits)) p = Some (whole, frac) ->
  0 <= whole < 2 ^ 31 -> 0 <= shown p frac < 10 ^ p -> (33 <= length b)%nat ->
  exists text,
    sprintf_ (Some b) (fixed_format p) [Dbl bits]
    = Some (Z.of_nat (length text), Some (text ++ [0] ++ drop (length text + 1) b))
    /\ read_fixed text = (is_negative (of_bits bits), whole, shown p frac, p).
Proof.
  intros Hp Hr E Hw Hf Hb.
  destruct (ftoa_digits_text _ _ _ _ Hp E Hw Hf) as (wd & fd & Ed & Hdw & Hlw & Hdf & Hlf).
  set (neg := is_negative (of_bits bits)).
  assert (length (fixed_text p wd fd) <= 20)%nat as Hl.
  { unfold fixed_text. rewrite length_app. destruct (p =? 0); cbn [length]; lia. }
  exists (sign_text neg ++ fixed_text p wd fd). split; [|by apply read_fixed_text; try lia].
  assert (length (sign_text neg) <= 1)%nat by (destruct neg; simpl; lia).
  change (fixed_format p) with (ch "%" :: tail (fixed_format p)).
  apply sprintf_emits; [simpl; lia| |rewrite length_app; lia..].
  intros si. rewrite format_spec_fixed, ftoa_in_range, Ed by done. cbn [mbind option_bind].
  by rewrite ftoa_format_text by lia.
Qed.

Lemma sprintf_fixed_roundtrip_witness :
  exists text,
    sprintf_ (Some (replicate 40 1)) (fixed_format 3) [Dbl 0xC005BF0A8B145769]
    = Some (Z.of_nat (length text), Some (text ++ [0] ++ drop (length text + 1) (replicate 40 1)))
    /\ read_fixed text = (true, 2, 718, 3).
Proof.
  apply (sprintf_fixed_roundtrip (fpu := binary64) 0xC005BF0A8B145769 3 2 718 (replicate 40 1));
    [lia|vm_compute; reflexivity..|lia|split; vm_compute; done|simpl; lia].
Defined.

(** ** Exact arithmetic *)
Section exact.
#[local] Existing Instance rationals | 0.
#[local] Open Scope Q_scope.

Definition pow10Q (p : Z) : Q := inject_Z (10 ^ p).

Lemma pow10_lookup p : (0 <= p <= 9)%Z -> pow10$[p] = Some (pow10Q p).
Proof.
  intros Hp.
  assert (p = 0 \/ p = 1 \/ p = 2 \/ p = 3 \/ p = 4 \/ p = 5 \/ p = 6 \/ p = 7 \/ p = 8 \/ p = 9)%Z as H by lia.
  by repeat destruct H as [->|H]; [..|subst p].
Qed.

Lemma Q_to_int_floor q : 0 <= q -> Q_to_int q = Qfloor q.
Proof. intros H%Qle_bool_iff. unfold Q_to_int. by rewrite H. Qed.

Lemma floor_bounds q : inject_Z (Qfloor q) <= q < inject_Z (Qfloor q) + 1.
Proof.
  split; [apply Qfloor_le|]. pose proof (Qlt_floor q) as H. by rewrite inject_Z_plus in H.
Qed.

Lemma fltb_spec (x y : Q) : reflect (x < y) (negb (Qle_bool y x)).
Proof.
  apply iff_reflect. rewrite negb_true_iff, <- not_true_iff_false, Qle_bool_iff.
  split; [apply Qlt_not_le|apply Qnot_le_lt].
Qed.

Ltac split_fltb :=
  repeat (match goal with |- context [negb (Qle_bool ?y ?x)] => destruct (fltb_spec x y) end; cbn [negb orb andb]).

Lemma floor_unique q n : inject_Z n <= q -> q < inject_Z n + 1 -> Qfloor q = n.
Proof.
  change 1 with (inject_Z 1). rewrite <- inject_Z_plus. intros H1%Qfloor_resp_le H2. rewrite Qfloor_Z in H1.
  assert (inject_Z (Qfloor q) < inject_Z (n + 1)) as H3 by (eapply Qle_lt_trans; [apply Qfloor_le|done]).
  rewrite <- Zlt_Qlt in H3. lia.
Qed.

Lemma floor_small q n : 0 <= q -> q < inject_Z n -> (0 <= Qfloor q < n)%Z.
Proof.
  intros H0 H1. split; [by apply (Qfloor_resp_le 0)|].
  rewrite Zlt_Qlt. eapply Qle_lt_trans; [apply Qfloor_le|done].
Qed.

Lemma Zlt_Q1 (m n : Z) : inject_Z m < inject_Z n <-> inject_Z m + 1 <= inject_Z n.
Proof.
  change 1 with (inject_Z 1). rewrite <- inject_Z_plus, <- Zlt_Qlt, <- Zle_Qle. lia.
Qed.

Lemma split_rounds (v : Q) p :
  0 <= v -> v <= inject_Z 1000000000 -> (0 <= p <= 9)%Z ->
  exists whole frac,
    ftoa_split v p = Some (whole, frac) /\ (0 <= whole < 2 ^ 31)%Z /\ (0 <= shown p frac <= 10 ^ p)%Z
    /\ Qabs ((v - inject_Z whole) * pow10Q p - inject_Z (shown p frac)) <= 1 # 2
    /\ (shown p frac = (10 ^ p)%Z -> (v - inject_Z whole) * pow10Q p == pow10Q p - (1 # 2)).
Proof.
  intros H0 Hv Hp. unfold ftoa_split. rewrite pow10_lookup by done. cbn [mbind option_bind].
  cbn [of_int to_int fltb fsub fmul fadd double rationals].
  change (literal 5 1) with (5 # 10).
  rewrite (Q_to_int_floor v) by done. set (F := Qfloor v).
  pose proof (floor_bounds v) as [HF1 HF2]. fold F in HF1, HF2.
  assert (0 <= F < 1000000001)%Z as HF.
  { apply floor_small; [done|]. eapply Qle_lt_trans; [exact Hv|]. by rewrite <- Zlt_Qlt. }
  rewrite s32_small by lia.
  set (P := pow10Q p). set (t := (v - inject_Z F) * P).
  assert (1 <= P) as HP.
  { unfold P, pow10Q. change 1 with (inject_Z 1). rewrite <- Zle_Qle. pose proof (Z.pow_pos_nonneg 10 p). lia. }
  assert (0 <= t) as Ht0 by (unfold t; nra). assert (t < P) as Ht1 by (unfold t; nra).
  rewrite (Q_to_int_floor t) by done. set (f := Qfloor t).
  pose proof (floor_bounds t) as [Hf1 Hf2]. fold f in Hf1, Hf2.
  assert (0 <= f < 10 ^ p)%Z as Hf by by apply floor_small.
  assert (10 ^ p <= 10 ^ 9)%Z as Hp9 by (apply Z.pow_le_mono_r; lia). change (10 ^ 9)%Z with 1000000000%Z in Hp9.
  rewrite (u32_small f), (u32_small (f + 1)) by lia.
  assert (Hfp : inject_Z f + 1 <= P) by (unfold P, pow10Q; apply Zlt_Q1; rewrite <- Zlt_Qlt; lia).
  assert (Hnext : (v - inject_Z (F + 1)) * P == t - P) by (unfold t; rewrite inject_Z_plus; change (inject_Z 1) with 1; ring).
  clearbody F f. unfold shown. destruct (Z.eqb_spec p 0) as [->|Hp0].
  - change P with 1 in *. assert (f = 0%Z) as -> by (change (10 ^ 0)%Z with 1%Z in Hf; lia).
    change (inject_Z 0) with 0 in *. change (10 ^ 0)%Z with 1%Z.
    assert (forall w n : Z, (0 <= w < 1000000003)%Z -> Qabs (v - inject_Z w) <= 1 # 2 ->
      exists whole frac : Z, Some (w, n) = Some (whole, frac) /\ (0 <= whole < 2 ^ 31)%Z /\ (0 <= 0 <= 1)%Z
        /\ Qabs ((v - inject_Z whole) * 1 - 0) <= 1 # 2
        /\ (0%Z = 1%Z -> (v - inject_Z whole) * 1 == 1 - (1 # 2))) as Hres.
    { intros w n Hw Ha. exists w, n. split_and!; [done|lia..| |done].
      apply Qabs_Qle_condition in Ha. apply Qabs_Qle_condition. lra. }
    assert (Et : t == v - inject_Z F) by (unfold t; ring).
    assert (En : v - inject_Z (F + 1) == t - 1) by (rewrite <- Hnext; ring). clearbody t.
    change (inject_Z (0 + 1)) with 1. split_fltb.
    all: try (exfalso; lra); repeat case_match; simplify_eq; (apply Hres; [lia|apply Qabs_Qle_condition; lra]).
  - assert (Hh : f = (10 ^ p - 1)%Z -> inject_Z f + 1 == P).
    { intros ->. unfold P, pow10Q. change 1 with (inject_Z 1). rewrite <- inject_Z_plus. f_equiv. lia. }
    assert (Hs : inject_Z (f + 1) == inject_Z f + 1) by by rewrite inject_Z_plus.
    split_fltb.
    all: try destruct ((f =? 0)%Z || _); (eexists _, _; split; [reflexivity|]); fold t.
    all: split_and!; try (apply Qabs_Qle_condition; change (inject_Z 0) with 0; lra); try lia.
    all: intros Hg; try (exfalso; lia); specialize (Hh ltac:(lia)); lra.
Qed.

(** A number that is not infinite and not a NaN. *)
Definition finite (bits : Z) : bool := negb (Z.land (Z.shiftr bits 52) 0x7FF =? 0x7FF)%Z.
Definition value_of (bits : Z) : Q := of_bits bits.

(** A double is a fraction with a power of two below the bar. *)
Lemma dyadic bits : exists m e, (0 <= e)%Z /\ Qabs (value_of bits) * inject_Z (2 ^ e) == inject_Z m.
Proof.
  unfold value_of. cbn [of_bits rationals]. destruct (bits_to_float bits) as [s|s| |s m e]; cbn [float_to_Q].
  1-3: exists 0%Z, 0%Z; split; [lia|reflexivity].
  destruct e as [|e|e]; cbn match.
  1,2: eexists _, 0%Z; split; [lia|]; change (inject_Z (2 ^ 0)) with 1; rewrite Qmult_1_r; reflexivity.
  exists (Z.abs (if s then Zneg m else Zpos m)), (Zpos e). split; [lia|].
  unfold Qabs, Qmult, Qeq, inject_Z. cbn [Qnum Qden]. rewrite Pos.mul_1_r, Z.mul_1_r. f_equal.
  by rewrite Pos2Z.inj_pow.
Qed.

Lemma pow2_mod5 e : (0 <= e)%Z -> ((2 ^ e) mod 5 <> 0)%Z.
Proof.
  revert e. apply natlike_ind; [done|]. intros e He IH. rewrite Z.pow_succ_r by done.
  generalize dependent (2 ^ e)%Z. intros x IH. Z.div_mod_to_equations. lia.
Qed.

(** So it is never exactly half a unit of the last digit below an integer. *)
Lemma no_halfway bits w p :
  (0 < p)%Z -> ~ (Qabs (value_of bits) - inject_Z w) * pow10Q p == pow10Q p - (1 # 2).
Proof.
  intros Hp E. destruct (dyadic bits) as (m & e & He & Hm). apply (pow2_mod5 e He).
  generalize dependent (Qabs (value_of bits)). intros v E Hm.
  assert (2 * pow10Q p * (inject_Z m - inject_Z w * inject_Z (2 ^ e)) == (2 * pow10Q p - 1) * inject_Z (2 ^ e)) as E2.
  { rewrite <- Hm. transitivity (2 * inject_Z (2 ^ e) * ((v - inject_Z w) * pow10Q p)); [ring|]. rewrite E. ring. }
  unfold pow10Q in E2. change 2 with (inject_Z 2) in E2. change 1 with (inject_Z 1) in E2. unfold Qminus in E2.
  rewrite <- !inject_Z_opp, <- !inject_Z_mult, <- !inject_Z_plus, <- !inject_Z_mult in E2.
  rewrite <- ?inject_Z_opp, <- ?inject_Z_plus, <- ?inject_Z_mult in E2. apply (proj1 (inject_Z_injective _ _)) in E2.
  replace p with (Z.succ (p - 1)) in E2 by lia. rewrite Z.pow_succ_r in E2 by lia.
  generalize dependent (2 ^ e)%Z. generalize dependent (10 ^ (p - 1))%Z. intros a y _ E2.
  apply Z.mod_divide; [lia|]. exists (2 * (2 * a * (y - (m - w * y))))%Z.
  lia.
Qed.

Lemma magnitude_abs (v : Q) : magnitude v == Qabs v.
Proof.
  unfold magnitude, is_negative. cbn [fltb of_int fsub rationals double]. change (inject_Z 0) with 0.
  destruct (fltb_spec v 0).
  - rewrite Qabs_neg by lra. ring.
  - rewrite Qabs_pos by lra. reflexivity.
Qed.

Lemma in_range_exact (v : Q) : Qabs v <= inject_Z 1000000000 -> in_range v = true.
Proof.
  intros H. apply Qabs_Qle_condition in H. unfold in_range.
  assert (inject_Z 1000000000 <= DBL_MAX) as HD by (vm_compute; discriminate).
  assert (@PRINTF_MAX_FLOAT rationals = inject_Z 1000000000) as HM by reflexivity.
  cbn [fltb fneg feqb rationals double] in *. rewrite HM. generalize dependent (@DBL_MAX rationals). intros D HD.
  rewrite (proj2 (Qeq_bool_iff v v)) by reflexivity.
  repeat (match goal with |- context [negb (Qle_bool ?y ?x)] => destruct (fltb_spec x y) end;
          [exfalso; lra|cbn [negb andb]]). done.
Qed.

End exact.



(** ** Where the conversions go wrong *)
Definition run_double (f : string) (bits : Z) : option (Z * list Z) := run f [Dbl bits].

Example pi : run_double "%f" 0x400921FB54442D18 = Some (8, cstr "3.141593").
Proof. vm_compute. reflexivity. Qed.
Example avogadro : run_double "%10.3e|" 0x44DFE185CA57C517 = Some (11, cstr " 6.022e+23|").
Proof. vm_compute. reflexivity. Qed.

(** When the product of the fraction and the power of ten is rounded to half a unit
    below the next power, the fraction is rounded up without a carry into the
    integer: a digit too many is written, the number of digits that are left wraps,
    and zeros fill the buffer.  With the intermediate results of [binary64], [%.1f]
    of 0.95; in exact arithmetic it cannot happen ([no_halfway]). *)
Lemma halfway_carry_lost :
  run_double "%.1f" 0x3FEE666666666666 = Some (32, cstr "00000000000000000000000000000010").
Proof. vm_compute. reflexivity. Qed.

(** The exponent of 0 is taken from the bits of its representation. *)
Lemma zero_exponent : run_double "%e" 0 = Some (13, cstr "0.000000e-308").
Proof. vm_compute. reflexivity. Qed.

(** The loop that limits the precision to 9 stops when the buffer is full: what is
    left of a precision of 42 is 10, and the table of powers ends at 9. *)
Lemma precision_42_faults : run_double "%.42f" 0x3FF0000000000000 = None
  /\ run_double "%.41f" 0x3FF0000000000000 <> None.
Proof. split; [|intros H; vm_compute in H]; [vm_compute; reflexivity|discriminate]. Qed.

(** Halfway, a fraction of 0 is rounded up, although it is even. *)
Lemma halfway_zero_rounds_up :
  run_double "%.1f" 0x3FA999999999999A = Some (3, cstr "0.1") /\ run_double "%.1f" 0x3FD0000000000000 = Some (3, cstr "0.2").
Proof. vm_compute. split; reflexivity. Qed.

(** [_etoa] scales a number down so far that [_ftoa] does not come back to it: checked
    for the smallest and the largest number of every 64th exponent, and of the last. *)
Definition nests_once (bits : Z) : bool :=
  match _ftoa (@_out_null unit) 1 (of_bits bits) 6 0 0 (tt, 0) with Some _ => true | None => false end.

Lemma depth_enough :
  forallb (fun e => nests_once (Z.shiftl e 52) && nests_once (Z.shiftl e 52 + (2 ^ 52 - 1)))
    (2046 :: ((fun k => 64 * k) <$> seqZ 0 32)) = true.
Proof. vm_compute. reflexivity. Qed.
