(* ===== verification/Input.v ===== *)
(** * The mouse and the keyboard, src/src/drivers/ps2mouse.c and keyboard.c

    The mouse decoder is a state machine over the bytes of the mouse; the
    keyboard tables turn scancodes into characters. *)
From Stdlib Require Import ZArith Lia Ascii String.
From stdpp Require Import base option list numbers.
From S2P Require Import Prelude Kutil Sheet Draw.

Set Default Proof Using "Type".

(** ** src/src/drivers/ps2mouse.c *)
Record MOUSE_DATA_BUNDLE := mkMOUSE {
  mb_buf : Z * Z * Z;
  mb_phase : Z;
  mb_x : Z;
  mb_y : Z;
  mb_btn : Z
}.

Definition parse_twos_compliment (signed_bit : bool) (tail : Z) : Z :=
  if signed_bit then Z.lnot tail + 1 else tail.

(** [res] is an [int32_t] and the masks are unsigned: the result is read back as
    a signed integer. *)
Definition glue_twos_compliment_fragment (signed_bit : bool) (tail : Z) : Z :=
  if signed_bit then s32 (Z.lor (Z.land (u32 (Z.lnot 0)) 0xffffff00) tail) else tail.

Definition ps2mouse_parse_three_bytes (m : option MOUSE_DATA_BUNDLE) : Z * option MOUSE_DATA_BUNDLE :=
  match m with
  | None => (- EIO, None)
  | Some m =>
      let '(state, second_byte, third_byte) := mb_buf m in
      let rel_x := glue_twos_compliment_fragment (isMaskBitsAllSet state 0x10) second_byte in
      let rel_y := glue_twos_compliment_fragment (isMaskBitsAllSet state 0x20) third_byte in
      (0, Some (mkMOUSE (mb_buf m) (mb_phase m) rel_x rel_y (Z.land state 7)))
  end.

Definition mb_set_phase (m : MOUSE_DATA_BUNDLE) (phase : Z) : MOUSE_DATA_BUNDLE :=
  mkMOUSE (mb_buf m) phase (mb_x m) (mb_y m) (mb_btn m).
Definition mb_set_buf (m : MOUSE_DATA_BUNDLE) (buf : Z * Z * Z) : MOUSE_DATA_BUNDLE :=
  mkMOUSE buf (mb_phase m) (mb_x m) (mb_y m) (mb_btn m).

Definition ps2mouse_decode (scancode : Z) (m : MOUSE_DATA_BUNDLE) : MOUSE_DATA_BUNDLE :=
  let m := if scancode =? 0xfa then mb_set_phase m 1 else m in
  let '(b0, b1, b2) := mb_buf m in
  if mb_phase m =? 0 then m
  else if (mb_phase m =? 1) && (Z.land scancode 0xc8 =? 0x08) then
    mb_set_phase (mb_set_buf m (scancode, b1, b2)) 2
  else if mb_phase m =? 2 then mb_set_phase (mb_set_buf m (b0, scancode, b2)) 3
  else if mb_phase m =? 3 then
    match snd (ps2mouse_parse_three_bytes (Some (mb_set_buf m (b0, b1, scancode)))) with
    | Some m => mb_set_phase m 1
    | None => m
    end
  else m.

(** ** src/src/drivers/keyboard.c *)
Definition BREAK_MASK : Z := 0x80.

Definition KEY_ESC : Z := 1.
Definition KEY_1 : Z := 2.
Definition KEY_2 : Z := 3.
Definition KEY_3 : Z := 4.
Definition KEY_4 : Z := 5.
Definition KEY_5 : Z := 6.
Definition KEY_6 : Z := 7.
Definition KEY_7 : Z := 8.
Definition KEY_8 : Z := 9.
Definition KEY_9 : Z := 10.
Definition KEY_0 : Z := 11.
Definition KEY_MINUS : Z := 12.
Definition KEY_EQUAL : Z := 13.
Definition KEY_BACKSPACE : Z := 14.
Definition KEY_TAB : Z := 15.
Definition KEY_Q : Z := 16.
Definition KEY_W : Z := 17.
Definition KEY_E : Z := 18.
Definition KEY_R : Z := 19.
Definition KEY_T : Z := 20.
Definition KEY_Y : Z := 21.
Definition KEY_U : Z := 22.
Definition KEY_I : Z := 23.
Definition KEY_O : Z := 24.
Definition KEY_P : Z := 25.
Definition KEY_LEFTBRACE : Z := 26.
Definition KEY_RIGHTBRACE : Z := 27.
Definition KEY_ENTER : Z := 28.
Definition KEY_LEFTCTRL : Z := 29.
Definition KEY_A : Z := 30.
Definition KEY_S : Z := 31.
Definition KEY_D : Z := 32.
Definition KEY_F : Z := 33.
Definition KEY_G : Z := 34.
Definition KEY_H : Z := 35.
Definition KEY_J : Z := 36.
Definition KEY_K : Z := 37.
Definition KEY_L : Z := 38.
Definition KEY_SEMICOLON : Z := 39.
Definition KEY_APOSTROPHE : Z := 40.
Definition KEY_GRAVE : Z := 41.
Definition KEY_LEFTSHIFT : Z := 42.
Definition KEY_BACKSLASH : Z := 43.
Definition KEY_Z : Z := 44.
Definition KEY_X : Z := 45.
Definition KEY_C : Z := 46.
Definition KEY_V : Z := 47.
Definition KEY_B : Z := 48.
Definition KEY_N : Z := 49.
Definition KEY_M : Z := 50.
Definition KEY_COMMA : Z := 51.
Definition KEY_DOT : Z := 52.
Definition KEY_SLASH : Z := 53.
Definition KEY_RIGHTSHIFT : Z := 54.
Definition KEY_KPASTERISK : Z := 55.
Definition KEY_LEFTALT : Z := 56.
Definition KEY_SPACE : Z := 57.
Definition KEY_CAPSLOCK : Z := 58.
Definition KEY_F1 : Z := 59.
Definition KEY_F2 : Z := 60.
Definition KEY_F3 : Z := 61.
Definition KEY_F4 : Z := 62.
Definition KEY_F5 : Z := 63.
Definition KEY_F6 : Z := 64.
Definition KEY_F7 : Z := 65.
Definition KEY_F8 : Z := 66.
Definition KEY_F9 : Z := 67.
Definition KEY_F10 : Z := 68.
Definition KEY_HOME : Z := 102.
Definition KEY_UP : Z := 103.
Definition KEY_KPMINUS : Z := 74.
Definition KEY_LEFT : Z := 105.
Definition KEY_RIGHT : Z := 106.
Definition KEY_KPPLUS : Z := 78.
Definition KEY_DOWN : Z := 108.
Definition KEY_INSERT : Z := 110.
Definition KEY_DELETE : Z := 111.
Definition KEY_102ND : Z := 86.
Definition KEY_UNDO : Z := 131.
Definition KEY_HELP : Z := 138.
Definition KEY_KPLEFTPAREN : Z := 179.
Definition KEY_KPRIGHTPAREN : Z := 180.
Definition KEY_KPSLASH : Z := 98.
Definition KEY_KP7 : Z := 71.
Definition KEY_KP8 : Z := 72.
Definition KEY_KP9 : Z := 73.
Definition KEY_KP4 : Z := 75.
Definition KEY_KP5 : Z := 76.
Definition KEY_KP6 : Z := 77.
Definition KEY_KP1 : Z := 79.
Definition KEY_KP2 : Z := 80.
Definition KEY_KP3 : Z := 81.
Definition KEY_KP0 : Z := 82.
Definition KEY_KPDOT : Z := 83.
Definition KEY_KPENTER : Z := 96.

(** An array initialised by designators; the other elements are 0. *)
Definition designated (size : nat) (entries : list (nat * Z)) : list Z :=
  foldl (fun l e => <[e.1 := e.2]> l) (replicate size 0) entries.

Definition atakbd_keycode : list Z := designated 0x73 [
  (1%nat, KEY_ESC); (2%nat, KEY_1); (3%nat, KEY_2); (4%nat, KEY_3); (5%nat, KEY_4);
  (6%nat, KEY_5); (7%nat, KEY_6); (8%nat, KEY_7); (9%nat, KEY_8); (10%nat, KEY_9);
  (11%nat, KEY_0); (12%nat, KEY_MINUS); (13%nat, KEY_EQUAL); (14%nat, KEY_BACKSPACE); (15%nat, KEY_TAB);
  (16%nat, KEY_Q); (17%nat, KEY_W); (18%nat, KEY_E); (19%nat, KEY_R); (20%nat, KEY_T);
  (21%nat, KEY_Y); (22%nat, KEY_U); (23%nat, KEY_I); (24%nat, KEY_O); (25%nat, KEY_P);
  (26%nat, KEY_LEFTBRACE); (27%nat, KEY_RIGHTBRACE); (28%nat, KEY_ENTER); (29%nat, KEY_LEFTCTRL); (30%nat, KEY_A);
  (31%nat, KEY_S); (32%nat, KEY_D); (33%nat, KEY_F); (34%nat, KEY_G); (35%nat, KEY_H);
  (36%nat, KEY_J); (37%nat, KEY_K); (38%nat, KEY_L); (39%nat, KEY_SEMICOLON); (40%nat, KEY_APOSTROPHE);
  (41%nat, KEY_GRAVE); (42%nat, KEY_LEFTSHIFT); (43%nat, KEY_BACKSLASH); (44%nat, KEY_Z); (45%nat, KEY_X);
  (46%nat, KEY_C); (47%nat, KEY_V); (48%nat, KEY_B); (49%nat, KEY_N); (50%nat, KEY_M);
  (51%nat, KEY_COMMA); (52%nat, KEY_DOT); (53%nat, KEY_SLASH); (54%nat, KEY_RIGHTSHIFT); (55%nat, KEY_KPASTERISK);
  (56%nat, KEY_LEFTALT); (57%nat, KEY_SPACE); (58%nat, KEY_CAPSLOCK); (59%nat, KEY_F1); (60%nat, KEY_F2);
  (61%nat, KEY_F3); (62%nat, KEY_F4); (63%nat, KEY_F5); (64%nat, KEY_F6); (65%nat, KEY_F7);
  (66%nat, KEY_F8); (67%nat, KEY_F9); (68%nat, KEY_F10); (71%nat, KEY_HOME); (72%nat, KEY_UP);
  (74%nat, KEY_KPMINUS); (75%nat, KEY_LEFT); (77%nat, KEY_RIGHT); (78%nat, KEY_KPPLUS); (80%nat, KEY_DOWN);
  (82%nat, KEY_INSERT); (83%nat, KEY_DELETE); (96%nat, KEY_102ND); (97%nat, KEY_UNDO); (98%nat, KEY_HELP);
  (99%nat, KEY_KPLEFTPAREN); (100%nat, KEY_KPRIGHTPAREN); (101%nat, KEY_KPSLASH); (102%nat, KEY_KPASTERISK); (103%nat, KEY_KP7);
  (104%nat, KEY_KP8); (105%nat, KEY_KP9); (106%nat, KEY_KP4); (107%nat, KEY_KP5); (108%nat, KEY_KP6);
  (109%nat, KEY_KP1); (110%nat, KEY_KP2); (111%nat, KEY_KP3); (112%nat, KEY_KP0); (113%nat, KEY_KPDOT);
  (114%nat, KEY_KPENTER)].

Definition keytable0 : list Z := [
  0; 0; 49; 50; 51; 52; 53; 54; 55; 56; 57; 48; 45; 94; 0; 0;
  113; 119; 101; 114; 116; 121; 117; 105; 111; 112; 64; 91; 0; 0; 97; 115;
  100; 102; 103; 104; 106; 107; 108; 59; 58; 0; 0; 93; 122; 120; 99; 118;
  98; 110; 109; 44; 46; 47; 0; 42; 0; 32; 0; 0; 0; 0; 0; 0;
  0; 0; 0; 0; 0; 0; 0; 55; 56; 57; 45; 52; 53; 54; 43; 49;
  50; 51; 48; 46; 0; 0; 0; 0; 0; 0; 0; 0; 0; 0; 0; 0;
  0; 0; 0; 0; 0; 0; 0; 0; 0; 0; 0; 0; 0; 0; 0; 0;
  0; 0; 0; 0x5c; 0; 0; 0; 0; 0; 0; 0; 0; 0; 0x5c; 0; 0].

Definition keytable1 : list Z := [
  0; 0; 33; 0x22; 35; 36; 37; 38; 0x27; 40; 41; 126; 61; 126; 0; 0;
  81; 87; 69; 82; 84; 89; 85; 73; 79; 80; 96; 123; 0; 0; 65; 83;
  68; 70; 71; 72; 74; 75; 76; 43; 42; 0; 0; 125; 90; 88; 67; 86;
  66; 78; 77; 60; 62; 63; 0; 42; 0; 32; 0; 0; 0; 0; 0; 0;
  0; 0; 0; 0; 0; 0; 0; 55; 56; 57; 45; 52; 53; 54; 43; 49;
  50; 51; 48; 46; 0; 0; 0; 0; 0; 0; 0; 0; 0; 0; 0; 0;
  0; 0; 0; 0; 0; 0; 0; 0; 0; 0; 0; 0; 0; 0; 0; 0;
  0; 0; 0; 95; 0; 0; 0; 0; 0; 0; 0; 0; 0; 124; 0; 0].

(** What is printed, text and colour; [printf] uses colour 0 and drops a NUL. *)
Definition input_report_key (scancode : Z) (down : bool) : option (list (list Z * Z)) :=
  if negb down then Some []
  else c ← keytable0$[scancode]; Some (if c =? 0 then [] else [([c], 0)]).

Definition atakbd_interrupt (rawscancode : Z) : option (list (list Z * Z)) :=
  if Z.lor rawscancode BREAK_MASK <? Z.lor 0x73 BREAK_MASK then
    let keydown := negb (rawscancode >? BREAK_MASK) in
    uscancode ← atakbd_keycode$[Z.land rawscancode (u8 (Z.lnot BREAK_MASK))];
    input_report_key uscancode keydown
  else
    msg ← hex_to_ascii (replicate 8 0) [rawscancode] 1;
    n ← kstrlen msg;
    Some [(byte_of <$> list_ascii_of_string "KERN_INFO atakbd_interrupt: unhandled scancode ", 4);
          (take (Z.to_nat n) msg, 4)].

Definition input_get_char (rawscancode : Z) (isShift : bool) : option Z :=
  let keyUp := (Z.lor rawscancode BREAK_MASK <? Z.lor 0x73 BREAK_MASK) && (rawscancode >? BREAK_MASK) in
  if keyUp then Some 0
  else
    uscancode ← atakbd_keycode$[Z.land rawscancode (u8 (Z.lnot BREAK_MASK))];
    if negb isShift then keytable0$[uscancode] else keytable1$[uscancode].

Definition int21h_handler (scancode : Z) : option (list (list Z * Z)) := atakbd_interrupt scancode.

(** ** The mouse protocol

    A movement is a 9-bit two's complement number: the sign is a bit of the first
    byte, the other bits are a byte of their own. *)
Definition nine_bit (sign : bool) (low : Z) : Z := if sign then low - 256 else low.

Definition is_byte (b : Z) : bool := (0 <=? b) && (b <? 256).

(** A packet the decoder accepts: bit 3 is set and no overflow is reported; none
    of its bytes is 0xfa, which the decoder takes for an acknowledgement. *)
Definition packet_ok (p : Z * Z * Z) : bool :=
  let '(b0, b1, b2) := p in
  is_byte b0 && is_byte b1 && is_byte b2 && (Z.land b0 0xc8 =? 0x08)
  && negb (b1 =? 0xfa) && negb (b2 =? 0xfa).

Definition decoded (p : Z * Z * Z) : MOUSE_DATA_BUNDLE :=
  let '(b0, b1, b2) := p in
  mkMOUSE p 1 (nine_bit (Z.testbit b0 4) b1) (nine_bit (Z.testbit b0 5) b2) (b0 mod 8).

Definition packet_bytes (p : Z * Z * Z) : list Z := let '(b0, b1, b2) := p in [b0; b1; b2].

Definition feed (m : MOUSE_DATA_BUNDLE) (bytes : list Z) : MOUSE_DATA_BUNDLE :=
  foldl (fun m b => ps2mouse_decode b m) m bytes.

Lemma byte_cases (P : Z -> Prop) :
  (forall n, (n < 256)%nat -> P (Z.of_nat n)) -> forall b, is_byte b = true -> P b.
Proof.
  intros H b [Hl Hh]%andb_prop. apply Z.leb_le in Hl. apply Z.ltb_lt in Hh.
  rewrite <- (Z2Nat.id b) by lia. apply H. lia.
Qed.

(** A claim about all bytes is decided by running through them. *)
Lemma byte_forall (f : Z -> bool) :
  forallb f (Z.of_nat <$> seq 0 256) = true -> forall b, is_byte b = true -> f b = true.
Proof.
  intros H. apply byte_cases. intros n Hn. rewrite forallb_forall in H. apply H.
  apply list_elem_of_In, list_elem_of_fmap. exists n. split; [done|]. apply elem_of_seq. lia.
Qed.

Lemma mask_bit b k : 0 <= k -> isMaskBitsAllSet b (2 ^ k) = Z.testbit b k.
Proof.
  intros Hk. unfold isMaskBitsAllSet. destruct (Z.testbit b k) eqn:E.
  - apply Z.eqb_eq. apply Z.bits_inj'. intros n Hn. rewrite Z.land_spec, Z.pow2_bits_eqb by lia.
    destruct (Z.eqb_spec k n) as [->|]; by rewrite ?E, ?andb_false_r.
  - apply Z.eqb_neq. intros H. apply (f_equal (fun z => Z.testbit z k)) in H.
    rewrite Z.land_spec, E, Z.pow2_bits_true in H by lia. done.
Qed.

Lemma glue_nine_bit sign low :
  is_byte low = true -> glue_twos_compliment_fragment sign low = nine_bit sign low.
Proof.
  intros Hb. destruct sign; [|done]. apply Z.eqb_eq. revert low Hb.
  apply (byte_forall (fun low => glue_twos_compliment_fragment true low =? nine_bit true low)).
  vm_compute. reflexivity.
Qed.

Lemma feed_packet m p :
  mb_phase m = 1 -> packet_ok p = true -> feed m (packet_bytes p) = decoded p.
Proof.
  destruct m as [[[c0 c1] c2] ph x y btn], p as [[b0 b1] b2]. unfold packet_ok. cbn [mb_phase]. intros -> Hp.
  apply andb_prop in Hp as [Hp H2%negb_true_iff]. apply andb_prop in Hp as [Hp H1%negb_true_iff].
  apply andb_prop in Hp as [Hp Hm]. apply andb_prop in Hp as [Hp Hb2]. apply andb_prop in Hp as [Hb0 Hb1].
  assert (H0 : (b0 =? 0xfa) = false).
  { apply Z.eqb_neq. intros ->. done. }
  unfold feed, packet_bytes, decoded. cbn [foldl]. unfold ps2mouse_decode at 3.
  rewrite H0. cbn [mb_buf mb_phase Z.eqb Pos.eqb andb]. rewrite Hm.
  unfold ps2mouse_decode at 2. rewrite H1. cbn [mb_buf mb_phase mb_set_phase mb_set_buf Z.eqb Pos.eqb andb].
  unfold ps2mouse_decode. rewrite H2.
  cbn [mb_buf mb_phase mb_set_phase mb_set_buf mb_x mb_y mb_btn Z.eqb Pos.eqb andb ps2mouse_parse_three_bytes snd].
  rewrite !glue_nine_bit by done. change 0x10 with (2 ^ 4). change 0x20 with (2 ^ 5). rewrite !mask_bit by lia.
  change 7 with (Z.ones 3). by rewrite Z.land_ones by lia.
Qed.

(** The decoder stays in step with a mouse that sends packets of three bytes:
    from the start of a packet, any sequence of well formed packets leaves it at
    the start of a packet, with the movements of the last one as the 9-bit
    two's complement numbers that the protocol defines and its three buttons. *)
Theorem mouse_decode_correct m ps p :
  mb_phase m = 1 -> forallb packet_ok ps = true -> packet_ok p = true ->
  feed m (mjoin (packet_bytes <$> ps ++ [p])) = decoded p.
Proof.
  revert m. induction ps as [|q ps IH]; intros m Hm Hps Hp; cbn [app fmap list_fmap mjoin list_join].
  - rewrite app_nil_r. by apply feed_packet.
  - cbn [forallb] in Hps. apply andb_prop in Hps as [Hq Hps].
    unfold feed. rewrite foldl_app. change (foldl _ m (packet_bytes q)) with (feed m (packet_bytes q)).
    rewrite feed_packet by done. apply IH; [|done..]. by destruct q as [[? ?] ?].
Qed.

Lemma mouse_decode_correct_witness :
  feed (mkMOUSE (0, 0, 0) 1 0 0 0) (mjoin (packet_bytes <$> [(0x08, 3, 4)] ++ [(0x39, 0xfe, 0xff)]))
  = mkMOUSE (0x39, 0xfe, 0xff) 1 (-2) (-1) 1.
Proof. apply (mouse_decode_correct (mkMOUSE (0, 0, 0) 1 0 0 0) [(0x08, 3, 4)] (0x39, 0xfe, 0xff)); reflexivity. Defined.

(** A packet that moves the pointer 6 to the left carries the byte 0xfa, which
    the decoder takes for the acknowledgement of a command: the movement and the
    buttons of that packet are lost, and when the third byte looks like a first
    one the decoder is out of step with the mouse. *)
Theorem mouse_move_lost m b0 b2 :
  mb_phase m = 1 -> is_byte b0 = true -> Z.land b0 0xc8 = 0x08 -> b2 <> 0xfa ->
  let m' := feed m [b0; 0xfa; b2] in
  (mb_x m', mb_y m', mb_btn m') = (mb_x m, mb_y m, mb_btn m)
  /\ mb_phase m' = if Z.land b2 0xc8 =? 0x08 then 2 else 1.
Proof.
  destruct m as [[[c0 c1] c2] ph x y btn]. cbn [mb_phase]. intros -> Hb Hm H2.
  assert (H0 : (b0 =? 0xfa) = false) by (apply Z.eqb_neq; intros ->; discriminate).
  cbv zeta. unfold feed. cbn [foldl]. unfold ps2mouse_decode at 3 6 9 12. rewrite H0. cbn [mb_buf mb_phase Z.eqb Pos.eqb andb].
  rewrite Hm. cbn [Z.eqb Pos.eqb mb_set_phase mb_set_buf mb_buf mb_phase mb_x mb_y mb_btn].
  unfold ps2mouse_decode. cbn [Z.eqb Pos.eqb mb_set_phase mb_set_buf mb_buf mb_phase mb_x mb_y mb_btn Z.land Pos.land andb].
  rewrite (proj2 (Z.eqb_neq b2 0xfa)) by done. cbn.
  destruct (Z.land b2 200 =? 8); done.
Qed.

Lemma mouse_move_lost_witness :
  let m' := feed (mkMOUSE (0, 0, 0) 1 5 5 1) [0x18; 0xfa; 0x08] in
  (mb_x m', mb_y m', mb_btn m') = (5, 5, 1) /\ mb_phase m' = 2.
Proof. apply (mouse_move_lost (mkMOUSE (0, 0, 0) 1 5 5 1) 0x18 0x08); [reflexivity..|discriminate]. Defined.

(** ** Scancodes *)

(** The scancodes whose lookup leaves one of the two tables. *)
Definition out_of_table (b : Z) : bool := (0x73 <=? b mod 128) || ((97 <=? b) && (b <=? 100)).

Definition is_lower (c : Z) : bool := (97 <=? c) && (c <=? 122).

Definition scancode_ok (b : Z) : bool :=
  (if out_of_table b then
     bool_decide (input_get_char b false = None) && bool_decide (input_get_char b true = None)
   else bool_decide (is_Some (input_get_char b false)) && bool_decide (is_Some (input_get_char b true)))
  && match input_get_char b false with
     | Some c => if is_lower c then bool_decide (input_get_char b true = Some (c - 32)) else true
     | None => true
     end.

(** Of the 256 scancodes, the lookup of a character stays within the tables
    except for the keys from 0x73 on and the four keys 97 to 100, whose key codes
    are larger than the character tables; and with the shift key a letter becomes
    its upper case. *)
Theorem input_get_char_correct b :
  is_byte b = true ->
  (forall sh, input_get_char b sh = None <-> 0x73 <= b mod 128 \/ 97 <= b <= 100)
  /\ (forall c, input_get_char b false = Some c -> 97 <= c <= 122 ->
        input_get_char b true = Some (c - 32)).
Proof.
  intros Hb. assert (scancode_ok b = true) as H.
  { revert b Hb. apply byte_forall. vm_compute. reflexivity. }
  apply andb_prop in H as [H1 H2]. split.
  - intros sh.
    assert (out_of_table b = true <-> 0x73 <= b mod 128 \/ 97 <= b <= 100) as <-.
    { unfold out_of_table. rewrite orb_true_iff, andb_true_iff, !Z.leb_le. lia. }
    destruct (out_of_table b); apply andb_prop in H1 as [H1%bool_decide_eq_true H1'%bool_decide_eq_true];
      destruct sh; rewrite ?H1, ?H1'; try (split; done); split; try done; intros E; by rewrite E in *; destruct H1, H1'.
  - intros c E Hc. rewrite E in H2. unfold is_lower in H2.
    rewrite (proj2 (Z.leb_le 97 c)), (proj2 (Z.leb_le c 122)) in H2 by lia. by apply bool_decide_eq_true in H2.
Qed.

Lemma input_get_char_correct_witness :
  input_get_char 0x1e true = Some (97 - 32) /\ input_get_char 97 false = None.
Proof.
  split.
  - apply (input_get_char_correct 0x1e); [reflexivity|vm_compute; reflexivity|lia].
  - apply (input_get_char_correct 97); [reflexivity|right; lia].
Defined.
