(* ===== verification/Video.v ===== *)
(** * The screen's globals and the mouse pointer

    The globals of src/src/drivers/graphic/videomode.c, the functions on them,
    src/src/include/uapi/graphic.c, and the mouse handler [int2ch_handler] of
    src/src/kernel.c. *)
From Stdlib Require Import ZArith Lia Ascii String.
From stdpp Require Import base option list gmap numbers.
From S2P Require Import Prelude Kutil Heapdl Memory Font Sheet Draw Input.

Set Default Proof Using "Type".

(** ** State *)
Record BOOTINFO := mkBOOTINFO {
  bi_cyls : Z; bi_leds : Z; bi_vmode : Z; bi_reserve : Z;
  bi_scrnx : Z; bi_scrny : Z;
  bi_vram : Z
}.

Record VIDEO := mkVIDEO {
  v_posX : Z; v_posY : Z;
  v_bibk : BOOTINFO;
  v_mouseX : Z; v_mouseY : Z;
  v_screen : list Z;  (** the frame buffer before there are sheets *)
  v_ctl : option SHTCTL;
  v_sheet_desktop : option Z; v_sheet_mouse : option Z; v_sheet_window : option Z; v_sheet_console : option Z
}.

Definition v_set_pos (v : VIDEO) (x y : Z) : VIDEO :=
  mkVIDEO x y (v_bibk v) (v_mouseX v) (v_mouseY v) (v_screen v) (v_ctl v)
    (v_sheet_desktop v) (v_sheet_mouse v) (v_sheet_window v) (v_sheet_console v).
Definition v_set_mouse (v : VIDEO) (x y : Z) : VIDEO :=
  mkVIDEO (v_posX v) (v_posY v) (v_bibk v) x y (v_screen v) (v_ctl v)
    (v_sheet_desktop v) (v_sheet_mouse v) (v_sheet_window v) (v_sheet_console v).
Definition v_set_screen (v : VIDEO) (s : list Z) : VIDEO :=
  mkVIDEO (v_posX v) (v_posY v) (v_bibk v) (v_mouseX v) (v_mouseY v) s (v_ctl v)
    (v_sheet_desktop v) (v_sheet_mouse v) (v_sheet_window v) (v_sheet_console v).
Definition v_set_ctl (v : VIDEO) (c : SHTCTL) : VIDEO :=
  mkVIDEO (v_posX v) (v_posY v) (v_bibk v) (v_mouseX v) (v_mouseY v) (v_screen v) (Some c)
    (v_sheet_desktop v) (v_sheet_mouse v) (v_sheet_window v) (v_sheet_console v).
Definition v_set_bibk (v : VIDEO) (bi : BOOTINFO) : VIDEO :=
  mkVIDEO (v_posX v) (v_posY v) bi (v_mouseX v) (v_mouseY v) (v_screen v) (v_ctl v)
    (v_sheet_desktop v) (v_sheet_mouse v) (v_sheet_window v) (v_sheet_console v).
Definition v_set_sheets (v : VIDEO) (d m w c : option Z) : VIDEO :=
  mkVIDEO (v_posX v) (v_posY v) (v_bibk v) (v_mouseX v) (v_mouseY v) (v_screen v) (v_ctl v) d m w c.

(** The globals at boot, with what the frame buffer holds then. *)
Definition video_boot (screen : list Z) : VIDEO :=
  mkVIDEO padding_l 30 (mkBOOTINFO 0 0 0 0 0 0 0) 0 0 screen None None None None None.

(** ** Start *)
Definition videomode_window_initialize (v : VIDEO) (p : ports) (bi : BOOTINFO) : option (VIDEO * ports) :=
  let v := v_set_bibk v bi in
  let v := v_set_mouse v (Z.quot (bi_scrnx bi) 2) (Z.quot (bi_scrny bi) 2) in
  p ← init_palette p;
  screen ← draw_desktop (v_screen v) (bi_scrnx bi) (bi_scrny bi);
  Some (v_set_screen v screen, p).

(** What a block of the heap holds; theorems quantify over the memory, so that
    a byte that was never written may be anything. *)
Definition contents (m : memory) (ptr size : Z) : list Z :=
  (fun i => default 0 (m !! u32 (ptr + i))) <$> seqZ 0 size.

(** A buffer from [kmalloc]; the code writes to it without a check. *)
Definition kmalloc_buf (h : heap) (m : memory) (size : Z) : option (list Z * heap) :=
  '(ptr, h) ← kmalloc h (u32 size);
  if ptr =? 0 then None else Some (contents m ptr size, h).

(** The sheet's metadata and its buffer. *)
Definition setbuf (ctl : SHTCTL) (s : Z) (buf : list Z) (xsize ysize inv : Z) : option SHTCTL :=
  upd_sheet ctl s (fun sh => sheet_setbuf sh buf xsize ysize inv).

Definition init_desktop (h : heap) (m : memory) (ctl : SHTCTL) (scrnx scrny : Z) : option (Z * SHTCTL * heap) :=
  '(d, ctl) ← sheet_alloc ctl;
  '(buf, h) ← kmalloc_buf h m (scrnx * scrny);
  buf ← draw_desktop buf scrnx scrny;
  buf ← putfonts8_asc buf scrnx 9 9 COL8_000000 (cstr "Haribote OS");
  buf ← putfonts8_asc buf scrnx 8 8 COL8_FFFFFF (cstr "Haribote OS");
  d ← d;
  ctl ← setbuf ctl d buf scrnx scrny (-1);
  ctl ← sheet_slide ctl d 0 0;
  Some (d, ctl, h).

Definition init_mouse (h : heap) (m : memory) (ctl : SHTCTL) (scrnx scrny : Z) : option (Z * SHTCTL * heap) :=
  '(s, ctl) ← sheet_alloc ctl;
  '(buf, h) ← kmalloc_buf h m (16 * 16);
  s ← s;
  buf ← init_mouse_cursor8 buf 99;
  ctl ← setbuf ctl s buf 16 16 99;
  let mouseX := Z.quot (scrnx - 16) 2 in
  let mouseY := Z.quot (scrny - 16) 2 in
  ctl ← sheet_slide ctl s mouseX mouseY;
  Some (s, ctl, h).

Definition init_console (h : heap) (m : memory) (ctl : SHTCTL) : option (Z * SHTCTL * heap * memory) :=
  '(s, ctl) ← sheet_alloc ctl;
  let consoleWidth := 256 in
  let consoleHeight := 165 in
  '(ptr, h, m) ← kzalloc h m (consoleWidth * consoleHeight);
  if ptr =? 0 then None
  else
    s ← s;
    buf ← make_window8 (contents m ptr (consoleWidth * consoleHeight)) consoleWidth consoleHeight (cstr "console") true;
    ctl ← setbuf ctl s buf consoleWidth consoleHeight (-1);
    ctl ← make_textbox8 ctl s 8 28 (consoleWidth - 8 * 2) (consoleHeight - 28 - 9) COL8_000000;
    '(ctl, h, m) ← sheet_textbox_alloc h m ctl s 8 28 (consoleWidth - 8 * 2) (consoleHeight - 28 - 9)
                     COL8_000000 (-1) COL8_FFFFFF;
    ctl ← sheet_slide ctl s 320 40;
    Some (s, ctl, h, m).

Definition init_window (h : heap) (m : memory) (ctl : SHTCTL) : option (Z * SHTCTL * heap) :=
  '(s, ctl) ← sheet_alloc ctl;
  '(buf, h) ← kmalloc_buf h m (160 * 68);
  s ← s;
  buf ← make_window8 buf 160 68 (cstr "window") false;
  ctl ← setbuf ctl s buf 160 68 (-1);
  ctl ← sheet_slide ctl s 120 122;
  Some (s, ctl, h).

Definition sheet_initialize (h : heap) (m : memory) (v : VIDEO) (scrnx scrny : Z) : option (VIDEO * heap * memory) :=
  '(ctl, h, m) ← shtctl_init h m (v_screen v) scrnx scrny;
  ctl ← ctl;
  '(desktop, ctl, h) ← init_desktop h m ctl scrnx scrny;
  '(mouse, ctl, h) ← init_mouse h m ctl scrnx scrny;
  '(console, ctl, h, m) ← init_console h m ctl;
  '(window, ctl, h) ← init_window h m ctl;
  ctl ← sheet_updown ctl desktop 0;
  ctl ← sheet_updown ctl window 1;
  ctl ← sheet_updown ctl console 2;
  ctl ← sheet_updown ctl mouse 3;
  ctl ← sheet_update_zmap ctl 0 0 scrnx scrny 0;
  ctl ← sheet_update_with_screenxy ctl 0 0 scrnx scrny 0 (-1);
  Some (v_set_sheets (v_set_ctl v ctl) (Some desktop) (Some mouse) (Some window) (Some console), h, m).

Definition get_sheet_window (v : VIDEO) : option Z := v_sheet_window v.
Definition get_sheet_console (v : VIDEO) : option Z := v_sheet_console v.

(** ** Printing on the desktop *)
Definition videomode_kfprint (v : VIDEO) (str : list Z) (color : Z) : option VIDEO :=
  let canvasWidth := bi_scrnx (v_bibk v) in
  let canvasHeight := bi_scrny (v_bibk v) in
  let color := if color =? 0 then COL8_FFFFFF else color in
  match v_sheet_desktop v with
  | None =>
      '(buf, x, y) ← putfonts8_ascv2 (v_screen v) canvasWidth (v_posX v) (v_posY v) color str;
      Some (v_set_pos (v_set_screen v buf) x y)
  | Some d =>
      ctl ← v_ctl v;
      sh ← (c_sheet0 ctl)$[d];
      '(buf, x, y) ← putfonts8_ascv2 (s_buf sh) canvasWidth (v_posX v) (v_posY v) color str;
      ctl ← on_buf ctl d (fun _ => Some buf);
      ctl ← sheet_update_sheet ctl d 0 0 canvasWidth canvasHeight;
      Some (v_set_pos (v_set_ctl v ctl) x y)
  end.

Definition kfprint (v : VIDEO) (str : list Z) (color : Z) : option VIDEO := videomode_kfprint v str color.
Definition graphic_init (v : VIDEO) (p : ports) (bi : BOOTINFO) : option (VIDEO * ports) :=
  videomode_window_initialize v p bi.
Definition graphic_window_manager_init (h : heap) (m : memory) (v : VIDEO) (bi : BOOTINFO)
  : option (VIDEO * heap * memory) := sheet_initialize h m v (bi_scrnx bi) (bi_scrny bi).

(** ** The pointer *)
Definition graphic_move_mouse (v : VIDEO) (mouse_one_move : MOUSE_DATA_BUNDLE) : option VIDEO :=
  match v_ctl v, v_sheet_mouse v with
  | Some ctl, Some mouse =>
      let scrnx := bi_scrnx (v_bibk v) in
      let scrny := bi_scrny (v_bibk v) in
      let newX := v_mouseX v + mb_x mouse_one_move in
      let newY := v_mouseY v - mb_y mouse_one_move in
      let newX := if newX <? 0 then 0 else newX in
      let newX := if newX >? scrnx - 1 then scrnx - 1 else newX in
      let newY := if newY <? 0 then 0 else newY in
      let newY := if newY >? scrny - 1 then scrny - 1 else newY in
      let v := v_set_mouse v newX newY in
      ctl ← sheet_slide ctl mouse newX newY;
      Some (v_set_ctl v ctl)
  | _, _ => Some v
  end.

Definition SCREEN_MOUSEXY : Type := Z * Z.
Definition getMouseXY (v : VIDEO) : SCREEN_MOUSEXY := (v_mouseX v, v_mouseY v).

Definition isCursorWithinSheet (xy : SCREEN_MOUSEXY) (s : SHEET) : bool :=
  (xy.1 >=? s_xStart s) && (xy.1 - s_bufXsize s <=? s_xStart s)
  && (xy.2 >=? s_yStart s) && (xy.2 - s_bufYsize s <=? s_yStart s).

(** From the sheet below the pointer's down to the desktop. *)
Definition get_sheet_by_cursor (ctl : SHTCTL) (xy : SCREEN_MOUSEXY) : option (option Z) :=
  r ← loop_until (Z.to_nat (c_zTop ctl)) 0 (fun k _ =>
        s ← (c_sheets ctl)$[c_zTop ctl - 1 - k];
        match s with
        | None => Some (Continue tt)
        | Some i =>
            sh ← (c_sheet0 ctl)$[i];
            Some (if isCursorWithinSheet xy sh then Return tt i else Continue tt)
        end) tt;
  match r with Return _ i => Some (Some i) | _ => Some None end.

(** ** The mouse handler of src/src/kernel.c *)
Definition title (ctl : SHTCTL) (s : Z) (name : string) (isFocus : bool) : option SHTCTL :=
  on_buf ctl s (fun sh => make_wtitle8 (s_buf sh) (s_bufXsize sh) (s_bufYsize sh) (cstr name) isFocus).

Definition update_title (ctl : SHTCTL) (s : Z) : option SHTCTL :=
  sh ← (c_sheet0 ctl)$[s]; sheet_update_sheet ctl s 0 0 (s_bufXsize sh) 21.

Definition int2ch_handler (scancode : Z) (mouse_one_move : MOUSE_DATA_BUNDLE) (v : VIDEO)
  : option (MOUSE_DATA_BUNDLE * VIDEO) :=
  let mouse_one_move := ps2mouse_decode scancode mouse_one_move in
  let xy0 := getMouseXY v in
  v ← graphic_move_mouse v mouse_one_move;
  let xy := getMouseXY v in
  if negb (Z.land (mb_btn mouse_one_move) 1 =? 0) then
    ctl ← v_ctl v;
    selected ← get_sheet_by_cursor ctl xy0;
    match selected with
    | None => Some (mouse_one_move, v)
    | Some selected =>
        w ← get_sheet_window v;
        c ← get_sheet_console v;
        let slide ctl :=
          sh ← (c_sheet0 ctl)$[selected];
          ctl ← sheet_slide ctl selected (s_xStart sh + xy.1 - xy0.1) (s_yStart sh + xy.2 - xy0.2);
          Some (mouse_one_move, v_set_ctl v ctl) in
        if selected =? w then
          ctl ← title ctl w "window" true;
          ctl ← title ctl c "console" false;
          ctl ← sheet_updown ctl selected (c_zTop ctl - 1);
          ctl ← update_title ctl c;
          slide ctl
        else if selected =? c then
          ctl ← title ctl w "window" false;
          ctl ← title ctl c "console" true;
          ctl ← sheet_updown ctl selected (c_zTop ctl - 1);
          ctl ← update_title ctl w;
          slide ctl
        else
          ctl ← title ctl w "window" false;
          ctl ← title ctl c "console" false;
          ctl ← update_title ctl w;
          ctl ← update_title ctl c;
          Some (mouse_one_move, v_set_ctl v ctl)
    end
  else Some (mouse_one_move, v).
