(* ===== verification/ScreenDemo.v ===== *)
(** * The drawing tests of src/src/drivers/graphic/videomode.c

    The functions that nothing calls any more, kept beside the desktop: stripes, three
    boxes, a few characters, and the reset of the screen that stands for scrolling. *)
From Stdlib Require Import ZArith Lia.
From stdpp Require Import base option list numbers.
From S2P Require Import Prelude Font Sheet SheetSpec Draw DrawSpec Video.

Set Default Proof Using "Type".

(** ** The functions

    The memory of the VGA adapter is a list of bytes from [video_mem_start] on. *)
Definition COL8_FF0000 : Z := 1.
Definition COL8_00FF00 : Z := 2.
Definition COL8_0000FF : Z := 4.
Definition video_mem_start : Z := 0xa0000.
Definition video_mem_end : Z := 0xaffff.

Definition font_A : list Z := [
  0x00; 0x18; 0x18; 0x18; 0x18; 0x24; 0x24; 0x24;
  0x24; 0x7e; 0x42; 0x42; 0x42; 0xe7; 0x00; 0x00].

Definition __write_some_chars (bi : BOOTINFO) (vram : list Z) : option (list Z) :=
  vram ← putfont8 vram (bi_scrnx bi) 8 8 COL8_FFFFFF font_A 0;
  vram ← putfont8 vram (bi_scrnx bi) 16 8 COL8_FFFFFF hankaku (0x42 * 16);
  vram ← putfont8 vram (bi_scrnx bi) 24 8 COL8_FFFFFF hankaku (0x43 * 16);
  vram ← putfont8 vram (bi_scrnx bi) 40 8 COL8_FFFFFF hankaku (0x31 * 16);
  vram ← putfont8 vram (bi_scrnx bi) 48 8 COL8_FFFFFF hankaku (0x32 * 16);
  putfont8 vram (bi_scrnx bi) 56 8 COL8_FFFFFF hankaku (0x33 * 16).

Definition __draw_stripes (mem : list Z) : option (list Z) :=
  for_range video_mem_start (video_mem_end + 1) (fun i mem => mem$[i - video_mem_start := Z.land i 0x0f]) mem.

Definition __draw_three_boxes (vram : list Z) : option (list Z) :=
  vram ← boxfill8 vram 320 COL8_FF0000 20 20 120 120;
  vram ← boxfill8 vram 320 COL8_00FF00 70 50 170 150;
  boxfill8 vram 320 COL8_0000FF 120 80 220 180.

(** The screen and the parameter [vram] are the same memory. *)
Definition display_scroll (v : VIDEO) (vga_width vga_height : Z) : option VIDEO :=
  vram ← draw_desktop (v_screen v) vga_width vga_height;
  mouse ← init_mouse_cursor8 (replicate 256 0) COL8_008484;
  vram ← putblock8_8 vram (bi_scrnx (v_bibk v)) 16 16 (v_mouseX v) (v_mouseY v) mouse 16;
  Some (v_set_pos (v_set_screen v vram) padding_l 16).

(** ** What they paint *)

(** The letter of the test is the one of the font. *)
Example font_A_is_hankaku : font_A = take 16 (drop (Z.to_nat (0x41 * 16)) hankaku).
Proof. reflexivity. Qed.

Lemma draw_stripes_spec mem :
  Z.of_nat (length mem) = video_mem_end + 1 - video_mem_start ->
  exists mem', __draw_stripes mem = Some mem' /\ length mem' = length mem
    /\ forall k, 0 <= k < Z.of_nat (length mem) -> mem'$[k] = Some (k mod 16).
Proof.
  unfold __draw_stripes, video_mem_start, video_mem_end. intros Hl.
  destruct (for_range_inv (fun i m => length m = length mem /\ forall k, 0 <= k < i - 0xa0000 -> m$[k] = Some (k mod 16))
    0xa0000 (0xaffff + 1) (fun i mem => mem$[i - 0xa0000 := Z.land i 0x0f]) mem) as (mem' & E & H1 & H2).
  - done.
  - split; [done|]. intros; lia.
  - intros i m Hi [H1 H2]. rewrite updateZ_in by lia. eexists. split; [done|]. split; [by rewrite length_insert|].
    intros k Hk. rewrite lookupZ_insert by lia. destruct (decide (i - 0xa0000 = k)) as [<-|].
    + f_equal. change 0x0f with (Z.ones 4). rewrite Z.land_ones by lia.
      change (2 ^ 4) with 16. rewrite Zminus_mod. change (0xa0000 mod 16) with 0. by rewrite Z.sub_0_r, Z.mod_mod by lia.
    + apply H2. lia.
  - exists mem'. split_and!; [exact E|done|]. intros k Hk. apply H2. lia.
Qed.

(** Where boxes overlap the later one is seen; nothing else changes. *)
Lemma draw_three_boxes_spec h :
  181 <= h ->
  paints 320 h __draw_three_boxes
    (fun g => fill COL8_0000FF 120 80 220 180 (fill COL8_00FF00 70 50 170 150 (fill COL8_FF0000 20 20 120 120 g))).
Proof.
  intros Hh. unfold __draw_three_boxes. eapply paints_ext; cycle 1.
  - do 2 (eapply paints_bind; [apply boxfill8_paints; unfold rect_ok; lia|]).
    apply boxfill8_paints. unfold rect_ok. lia.
  - intros g x y _ _. reflexivity.
Qed.

(** The cursor, on the colour of the desktop. *)
Definition cursor_block : list Z := default [] (init_mouse_cursor8 (replicate 256 0) COL8_008484).

Lemma cursor_drawn : init_mouse_cursor8 (replicate 256 0) COL8_008484 = Some cursor_block.
Proof. vm_compute. reflexivity. Qed.

Section scroll.
Context (w h mx my : Z) (Hmx : 0 <= mx /\ mx + 16 <= w) (Hmy : 0 <= my /\ my + 16 <= h).

Lemma put_cursor_paints :
  paints w h (fun vram => putblock8_8 vram w 16 16 mx my cursor_block 16)
    (fun g x y => if in_rect mx my (mx + 15) (my + 15) x y
                  then default (g x y) (cursor_block$[(y - my) * 16 + (x - mx)]) else g x y).
Proof using Hmx Hmy.
  intros buf g Hs. unfold putblock8_8.
  destruct (paint_rect w h (fun x y => cursor_block$[(y - my) * 16 + (x - mx)]) mx my 0 15
    (fun y x vram => c ← cursor_block$[y * 16 + x]; vram$[(my + y) * w + (mx + x) := c]) 0 15 buf g Hs)
    as (buf' & E & Hs').
  - intros y Hy x Hx. split_and!; [lia..|]. intros arr.
    replace (my + y - my) with y by lia. replace (mx + x - mx) with x by lia.
    destruct (lookupZ_is_Some cursor_block (y * 16 + x)) as [c ->].
    { change (length cursor_block) with 256%nat. lia. }
    cbn [mbind option_bind]. f_equal. lia.
  - exists buf'. split; [exact E|]. eapply shows_ext; [|exact Hs']. intros x y _ _.
    destruct (in_rect mx my (mx + 15) (my + 15) x y) eqn:R.
    + apply in_rect_spec in R. by rewrite decide_True by lia.
    + rewrite decide_False; [done|]. intros R'. apply not_true_iff_false in R. apply R, in_rect_spec. lia.
Qed.

(** Scrolling forgets the screen: whatever it showed, the empty desktop is left, with
    the cursor where it was, and printing goes on at (8, 16). *)
Lemma display_scroll_resets v :
  61 <= w -> 28 <= h -> bi_scrnx (v_bibk v) = w -> v_mouseX v = mx -> v_mouseY v = my ->
  exists g, forall screen, Z.of_nat (length screen) = w * h ->
    exists screen', display_scroll (v_set_screen v screen) w h = Some (v_set_pos (v_set_screen v screen') padding_l 16)
      /\ shows w h screen' g.
Proof using Hmx Hmy.
  intros Hw Hh Hsx Hx Hy. destruct (draw_desktop_complete w h Hw Hh) as [g Hg].
  eexists. intros screen Hl. destruct (Hg screen Hl) as (s1 & E1 & Hs1).
  destruct (put_cursor_paints s1 g Hs1) as (s2 & E2 & Hs2). exists s2. split; [|exact Hs2].
  unfold display_scroll. rewrite cursor_drawn. cbn [v_set_screen v_screen v_bibk v_mouseX v_mouseY].
  rewrite Hsx, Hx, Hy, E1. cbn [mbind option_bind]. rewrite E2. reflexivity.
Qed.
End scroll.
