(* ===== verification/Kbc.v ===== *)
(** * The keyboard controller, src/src/drivers/ps2kbc.c and src/src/io/io.c

    The controller is a parameter: what it answers to a read of a port, given all
    port accesses so far.  A computation of [io_m] extends the trace of accesses
    and may be left unfinished, when a wait has polled [patience] times; the trace
    is there in any case, so that what is proved of it holds at every moment. *)
From Stdlib Require Import ZArith Lia.
From stdpp Require Import base option list numbers.
From S2P Require Import Prelude Kutil.

Set Default Proof Using "Type".

(** ** Port accesses *)
Inductive io :=
| In (port val : Z)
| Out (port val : Z).

Record machine := mkM { m_trace : list io; m_cli : bool (** interrupts are disabled *) }.

Definition io_m (A : Type) : Type := machine -> machine * option A.
Definition io_ret {A} (a : A) : io_m A := fun m => (m, Some a).
Definition io_bind {A B} (c : io_m A) (k : A -> io_m B) : io_m B := fun m =>
  match c m with (m, Some a) => k a m | (m, None) => (m, None) end.

Declare Scope io_scope.
Delimit Scope io_scope with io.
Notation "'let*' x := c 'in' k" := (io_bind c (fun x => k)) (at level 200, x name, c at level 100, k at level 200) : io_scope.
Notation "c ;; k" := (io_bind c (fun _ => k)) (at level 100, right associativity) : io_scope.
#[local] Open Scope io_scope.

Definition PS2KBC_PORT_DATA_RW : Z := 0x60.
Definition PS2KBC_PORT_STATUS_R : Z := 0x64.
Definition PS2KBC_PORT_CMD_W : Z := 0x64.
Definition PS2KBC_STATUS_FLAG_OUTPUT_BUF_FULL : Z := 1.
Definition PS2KBC_STATUS_FLAG_INPUT_BUF_FULL : Z := Z.shiftl 1 1.
Definition PS2KBC_CMD_CONFIG_READ : Z := 0x20.
Definition PS2KBC_CMD_CONFIG_WRITE : Z := 0x60.
Definition PS2KBC_CMD_REDIRECT_C2_INBUF : Z := 0xD4.
Definition PS2MOUSE_CMD_RESET : Z := 0xFF.
Definition PS2MOUSE_CMD_DATA_REPORTING_ENABLE : Z := 0xF4.

Section kbc.
Context (dev : list io -> Z -> Z) (patience : nat).

Definition _io_in8 (port : Z) : io_m Z := fun m =>
  let v := u8 (dev (m_trace m) port) in (mkM (m_trace m ++ [In port v]) (m_cli m), Some v).
Definition _io_out8 (port val : Z) : io_m unit := fun m =>
  (mkM (m_trace m ++ [Out port (u8 val)]) (m_cli m), Some tt).
Definition _io_cli : io_m unit := fun m => (mkM (m_trace m) true, Some tt).
Definition _io_sti : io_m unit := fun m => (mkM (m_trace m) false, Some tt).

(** ** src/src/io/io.c *)
Definition io_wait : io_m unit := _io_out8 0x80 0.
(** The interrupt flag of the processor's flags word. *)
Definition io_get_is_cli : io_m bool := fun m => (m, Some (m_cli m)).

(** ** src/src/drivers/ps2kbc.c *)
Fixpoint poll (fuel : nat) (ready : Z -> bool) : io_m unit :=
  match fuel with
  | O => fun m => (m, None)
  | S fuel =>
      let* s := _io_in8 PS2KBC_PORT_STATUS_R in
      if ready s then io_ret tt else poll fuel ready
  end.

Definition ps2kbc_wait_KBC_writeReady : io_m unit :=
  poll patience (fun s => isMaskBitsAllClear s PS2KBC_STATUS_FLAG_INPUT_BUF_FULL).
Definition ps2kbc_wait_KBC_readReady : io_m unit :=
  poll patience (fun s => isMaskBitsAllSet s PS2KBC_STATUS_FLAG_OUTPUT_BUF_FULL).

Definition when (b : bool) (c : io_m unit) : io_m unit := if b then c else io_ret tt.

(** A byte that waits in the output buffer is read and dropped. *)
Definition flush : io_m unit :=
  let* s := _io_in8 PS2KBC_PORT_STATUS_R in
  when (Z.land s PS2KBC_STATUS_FLAG_OUTPUT_BUF_FULL =? 1)
    (let* _ := _io_in8 PS2KBC_PORT_DATA_RW in io_ret tt).

(** [for (i = 0; i < 1000; i++)]: whatever the reset answers is dropped. *)
Fixpoint drain (n : nat) : io_m unit :=
  match n with
  | O => io_ret tt
  | S n => flush ;; io_wait ;; drain n
  end.

Definition ps2kbc_KBC_init : io_m unit :=
  let* isCli := io_get_is_cli in
  when (negb isCli) _io_cli ;;
  flush ;;
  ps2kbc_wait_KBC_writeReady ;;
  _io_out8 PS2KBC_PORT_CMD_W PS2KBC_CMD_CONFIG_READ ;;
  ps2kbc_wait_KBC_readReady ;;
  let* kbc_conf0 := _io_in8 PS2KBC_PORT_DATA_RW in
  if Z.land (Z.shiftr kbc_conf0 5) 1 =? 0 then io_ret tt
  else
    let kbc_conf0 := Z.lor kbc_conf0 (Z.shiftl 1 1) in
    ps2kbc_wait_KBC_writeReady ;;
    _io_out8 PS2KBC_PORT_CMD_W PS2KBC_CMD_CONFIG_WRITE ;;
    ps2kbc_wait_KBC_writeReady ;;
    _io_out8 PS2KBC_PORT_DATA_RW kbc_conf0 ;;
    ps2kbc_wait_KBC_writeReady ;;
    _io_out8 PS2KBC_PORT_CMD_W 0xff ;;
    drain 1000 ;;
    when (negb isCli) _io_sti.

Definition ps2kbc_MOUSE_init : io_m unit :=
  let* isCli := io_get_is_cli in
  when (negb isCli) _io_cli ;;
  flush ;;
  ps2kbc_wait_KBC_writeReady ;;
  _io_out8 PS2KBC_PORT_CMD_W PS2KBC_CMD_REDIRECT_C2_INBUF ;;
  ps2kbc_wait_KBC_writeReady ;;
  _io_out8 PS2KBC_PORT_DATA_RW PS2MOUSE_CMD_RESET ;;
  ps2kbc_wait_KBC_readReady ;;
  _io_in8 PS2KBC_PORT_DATA_RW ;;
  ps2kbc_wait_KBC_readReady ;;
  _io_in8 PS2KBC_PORT_DATA_RW ;;
  ps2kbc_wait_KBC_readReady ;;
  _io_in8 PS2KBC_PORT_DATA_RW ;;
  ps2kbc_wait_KBC_writeReady ;;
  _io_out8 PS2KBC_PORT_CMD_W PS2KBC_CMD_REDIRECT_C2_INBUF ;;
  ps2kbc_wait_KBC_writeReady ;;
  _io_out8 PS2KBC_PORT_DATA_RW PS2MOUSE_CMD_DATA_REPORTING_ENABLE ;;
  ps2kbc_wait_KBC_writeReady ;;
  ps2kbc_wait_KBC_writeReady ;;
  _io_out8 PS2KBC_PORT_CMD_W 0xff ;;
  drain 1000 ;;
  when (negb isCli) _io_sti.

(** ** The protocol

    As the file's header says: the controller is written to only when a status
    read just before showed the input buffer empty, and its data port is read only
    when one just before showed the output buffer full. *)
Definition status_before (prev : option io) (bit : Z) (val : bool) : bool :=
  match prev with
  | Some (In port s) => (port =? PS2KBC_PORT_STATUS_R) && Bool.eqb (Z.testbit s bit) val
  | _ => false
  end.

Definition allowed (prev : option io) (e : io) : bool :=
  match e with
  | Out port _ =>
      if (port =? PS2KBC_PORT_DATA_RW) || (port =? PS2KBC_PORT_CMD_W) then status_before prev 1 false else true
  | In port _ => if port =? PS2KBC_PORT_DATA_RW then status_before prev 0 true else true
  end.

Fixpoint obeys_from (prev : option io) (tr : list io) : bool :=
  match tr with
  | [] => true
  | e :: tr => allowed prev e && obeys_from (Some e) tr
  end.
Definition obeys (tr : list io) : bool := obeys_from None tr.

Lemma obeys_from_snoc prev tr e :
  obeys_from prev (tr ++ [e]) = obeys_from prev tr && allowed (match list.last tr with Some x => Some x | None => prev end) e.
Proof.
  revert prev. induction tr as [|x tr IH]; intros prev; [cbn; by rewrite andb_true_r|].
  cbn [app obeys_from]. rewrite IH, andb_assoc. do 2 f_equal. rewrite last_cons. by destruct (list.last tr).
Qed.

Lemma obeys_snoc tr e : obeys (tr ++ [e]) = obeys tr && allowed (list.last tr) e.
Proof. unfold obeys. rewrite obeys_from_snoc. by destruct (list.last tr). Qed.

(** What a computation needs of the last access and what it ensures of it, when
    it ends; that the trace obeys the protocol is kept in any case. *)
Definition steps {A} (pre : option io -> Prop) (c : io_m A) (post : A -> option io -> Prop) : Prop :=
  forall m, obeys (m_trace m) = true -> pre (list.last (m_trace m)) ->
    let '(m', r) := c m in
    obeys (m_trace m') = true /\ forall a, r = Some a -> post a (list.last (m_trace m')).

Definition any (e : option io) : Prop := True.
Definition can_write (e : option io) : Prop := status_before e 1 false = true.
Definition can_read (e : option io) : Prop := status_before e 0 true = true.

Lemma steps_bind {A B} pre (c : io_m A) mid (k : A -> io_m B) post :
  steps pre c mid -> (forall a, steps (mid a) (k a) post) -> steps pre (io_bind c k) post.
Proof.
  intros Hc Hk m Ho Hp. unfold io_bind. specialize (Hc m Ho Hp). destruct (c m) as [m1 [a|]].
  - destruct Hc as [Ho1 Hm]. by apply Hk; [|apply Hm].
  - destruct Hc as [Ho1 _]. split; [done|]. by intros b.
Qed.

Lemma steps_ret {A} pre (a : A) : steps pre (io_ret a) (fun _ => any).
Proof. intros m Ho _. split; [done|]. by intros. Qed.

Lemma steps_weaken {A} (pre pre' : option io -> Prop) (c : io_m A) (post : A -> option io -> Prop) :
  (forall e, pre' e -> pre e) -> steps pre c post -> steps pre' c (fun _ => any).
Proof.
  intros Hp Hc m Ho H. specialize (Hc m Ho (Hp _ H)). destruct (c m). destruct Hc. by split.
Qed.

Lemma steps_any {A} pre (c : io_m A) (post : A -> option io -> Prop) : steps any c post -> steps pre c post.
Proof. intros Hc m Ho _. by apply Hc. Qed.

Lemma steps_status : steps any (_io_in8 PS2KBC_PORT_STATUS_R) (fun v e => e = Some (In PS2KBC_PORT_STATUS_R v)).
Proof.
  intros m Ho _. unfold _io_in8. cbn [m_trace]. rewrite obeys_snoc, Ho. split; [done|].
  intros a [= <-]. by rewrite last_snoc.
Qed.

Lemma steps_data : steps can_read (_io_in8 PS2KBC_PORT_DATA_RW) (fun _ => any).
Proof. intros m Ho Hp. unfold _io_in8. cbn [m_trace]. rewrite obeys_snoc, Ho. split; [exact Hp|]. by intros. Qed.

Lemma steps_out port v :
  steps (fun e => allowed e (Out port (u8 v)) = true) (_io_out8 port v) (fun _ => any).
Proof. intros m Ho Hp. unfold _io_out8. cbn [m_trace]. rewrite obeys_snoc, Ho. split; [exact Hp|]. by intros. Qed.

Lemma steps_flag c b : (forall m, c m = (mkM (m_trace m) b, Some tt)) -> steps any c (fun _ => any).
Proof. intros Hc m Ho _. rewrite Hc. split; [done|]. by intros. Qed.

Lemma steps_poll (ready : Z -> bool) (post : option io -> Prop) fuel :
  (forall s, ready s = true -> post (Some (In PS2KBC_PORT_STATUS_R s))) ->
  steps any (poll fuel ready) (fun _ => post).
Proof.
  intros Hr. induction fuel as [|fuel IH]; cbn [poll].
  - intros m Ho _. split; [done|]. by intros.
  - eapply steps_bind; [apply steps_status|]. intros s. cbv beta. destruct (ready s) eqn:E.
    + intros m Ho El. unfold io_ret. split; [done|]. intros _ _. rewrite El. by apply Hr.
    + intros m Ho _. by apply IH.
Qed.

Lemma bit_clear s : isMaskBitsAllClear s PS2KBC_STATUS_FLAG_INPUT_BUF_FULL = true -> Z.testbit s 1 = false.
Proof.
  unfold isMaskBitsAllClear. intros H%Z.eqb_eq. destruct (Z.testbit s 1) eqn:E; [|done].
  apply (f_equal (fun z => Z.testbit z 1)) in H. by rewrite Z.land_spec, E in H.
Qed.

Lemma bit_set s : Z.land s PS2KBC_STATUS_FLAG_OUTPUT_BUF_FULL = 1 -> Z.testbit s 0 = true.
Proof. intros H. apply (f_equal (fun z => Z.testbit z 0)) in H. rewrite Z.land_spec in H. cbn in H. by rewrite andb_true_r in H. Qed.

Lemma steps_writeReady : steps any ps2kbc_wait_KBC_writeReady (fun _ => can_write).
Proof. apply steps_poll. intros s H. unfold can_write, status_before. by rewrite (bit_clear s H). Qed.

Lemma steps_readReady : steps any ps2kbc_wait_KBC_readReady (fun _ => can_read).
Proof.
  apply steps_poll. intros s H. unfold can_read, status_before. unfold isMaskBitsAllSet in H.
  by rewrite (bit_set s (proj1 (Z.eqb_eq _ _) H)).
Qed.

Lemma steps_when b (c : io_m unit) : steps any c (fun _ => any) -> steps any (when b c) (fun _ => any).
Proof. destruct b; [done|]. intros _. apply steps_ret. Qed.

Lemma steps_flush : steps any flush (fun _ => any).
Proof.
  eapply steps_bind; [apply steps_status|]. intros s. cbv beta. unfold when.
  destruct (Z.eqb_spec (Z.land s PS2KBC_STATUS_FLAG_OUTPUT_BUF_FULL) 1) as [E|E]; [|apply steps_ret].
  eapply steps_bind; [|intros; apply steps_ret].
  eapply steps_weaken; [|apply steps_data]. intros e ->. unfold can_read, status_before. by rewrite (bit_set s E).
Qed.

Lemma steps_io_wait : steps any io_wait (fun _ => any).
Proof. eapply steps_weaken; [|apply steps_out]. done. Qed.

Lemma steps_drain n : steps any (drain n) (fun _ => any).
Proof.
  induction n as [|n IH]; [apply steps_ret|]. cbn [drain].
  eapply steps_bind; [apply steps_flush|]. intros ?. eapply steps_bind; [apply steps_io_wait|]. intros ?. exact IH.
Qed.

Lemma steps_send port v :
  (port = PS2KBC_PORT_DATA_RW \/ port = PS2KBC_PORT_CMD_W) -> steps can_write (_io_out8 port v) (fun _ => any).
Proof. intros Hp. eapply steps_weaken; [|apply steps_out]. intros e He. by destruct Hp as [->| ->]. Qed.

Lemma steps_is_cli : steps any io_get_is_cli (fun _ => any).
Proof. intros m Ho _. split; [done|]. by intros. Qed.
End kbc.

(** Runs through a sequence of calls, with what each needs and ensures. *)
Ltac kbc_steps :=
  repeat first
    [ apply steps_drain | apply steps_ret
    | apply steps_when; first [ eapply (steps_flag _ true); reflexivity | eapply (steps_flag _ false); reflexivity ]
    | eapply steps_bind; [first
        [ apply steps_is_cli | apply steps_flush | apply steps_drain | apply steps_writeReady
        | apply steps_readReady | apply steps_data | apply steps_any; apply steps_writeReady | apply steps_send; auto
        | apply steps_when; eapply (steps_flag _ true); reflexivity ] | intros ?; cbv beta ]
    | match goal with |- steps _ (if ?b then _ else _) _ => destruct b end ].

Lemma steps_KBC_init dev patience : steps any (ps2kbc_KBC_init dev patience) (fun _ => any).
Proof. unfold ps2kbc_KBC_init. kbc_steps. Qed.

Lemma steps_MOUSE_init dev patience : steps any (ps2kbc_MOUSE_init dev patience) (fun _ => any).
Proof. unfold ps2kbc_MOUSE_init. kbc_steps. Qed.

(** C40. Whatever the controller answers, and at whatever moment the initialisation
    of the keyboard and of the mouse is looked at, no byte was ever written to the
    controller unless the status read just before showed its input buffer empty,
    and none was read from its data port unless the status read just before
    showed its output buffer full. *)
Theorem kbc_protocol_obeyed dev patience cli :
  obeys (m_trace (fst (io_bind (ps2kbc_KBC_init dev patience) (fun _ => ps2kbc_MOUSE_init dev patience)
                         (mkM [] cli)))) = true.
Proof.
  assert (steps any (io_bind (ps2kbc_KBC_init dev patience) (fun _ => ps2kbc_MOUSE_init dev patience)) (fun _ => any)) as H.
  { eapply steps_bind; [apply steps_KBC_init|]. intros ?. apply steps_MOUSE_init. }
  specialize (H (mkM [] cli) eq_refl I). destruct (io_bind _ _ _) as [m r]. by destruct H.
Qed.

(** On a controller whose configuration byte has bit 5 clear (no second port) the
    initialisation of the keyboard returns early and leaves the interrupts
    disabled, although they were enabled. *)
Definition single_port (tr : list io) (port : Z) : Z :=
  if port =? PS2KBC_PORT_STATUS_R then 1 else 0x41.

Example kbc_init_leaves_cli :
  let '(m, r) := ps2kbc_KBC_init single_port 10 (mkM [] false) in r = Some tt /\ m_cli m = true.
Proof. vm_compute. done. Qed.
