(* ===== verification/Kernel.v ===== *)
(** * The tasks of the kernel, src/src/kernel.c

    One turn of the loop of each of the three tasks, and how they are started,
    over the state of all components.  The interrupts are disabled during a turn;
    the counters of the turns, which are never read, are left out. *)
From Stdlib Require Import ZArith Lia Ascii String.
From stdpp Require Import base option list gmap numbers.
From S2P Require Import Prelude Kutil Dlist Fifo Heapdl Memory Process Timer Descriptors Sched Font Sheet Draw Input Printf Video.

Set Default Proof Using "Type".

(** ** State *)
Record KERNEL := mkKERNEL {
  k_timers : TIMERCTL;
  k_world : world;
  k_video : VIDEO;
  mouse_one_move : MOUSE_DATA_BUNDLE;
  LRShift : Z;
  mpfifo32Console : option Z
}.

Definition k_set_timers (k : KERNEL) (c : TIMERCTL) : KERNEL :=
  mkKERNEL c (k_world k) (k_video k) (mouse_one_move k) (LRShift k) (mpfifo32Console k).
Definition k_set_world (k : KERNEL) (w : world) : KERNEL :=
  mkKERNEL (k_timers k) w (k_video k) (mouse_one_move k) (LRShift k) (mpfifo32Console k).
Definition k_set_video (k : KERNEL) (v : VIDEO) : KERNEL :=
  mkKERNEL (k_timers k) (k_world k) v (mouse_one_move k) (LRShift k) (mpfifo32Console k).
Definition k_set_mouse (k : KERNEL) (m : MOUSE_DATA_BUNDLE) : KERNEL :=
  mkKERNEL (k_timers k) (k_world k) (k_video k) m (LRShift k) (mpfifo32Console k).
Definition k_set_shift (k : KERNEL) (s : Z) : KERNEL :=
  mkKERNEL (k_timers k) (k_world k) (k_video k) (mouse_one_move k) s (mpfifo32Console k).
Definition k_set_console (k : KERNEL) (f : option Z) : KERNEL :=
  mkKERNEL (k_timers k) (k_world k) (k_video k) (mouse_one_move k) (LRShift k) f.

Definition DEV_FIFO_KBD_END : Z := 256 + 0xff + 1.
Definition DEV_FIFO_MOUSE_END : Z := 512 + 0xff + 1.
Definition is_kbd (d : Z) : bool := (d >=? DEV_FIFO_KBD_START) && (d <? DEV_FIFO_KBD_END).
Definition is_mouse (d : Z) : bool := (d >=? DEV_FIFO_MOUSE_START) && (d <? DEV_FIFO_MOUSE_END).

(** [_putchar] of src/src/util/printf.c *)
Definition _putchar (c : Z) (v : VIDEO) : option VIDEO := kfprint v [c; 0] 0.

(** ** The event loop (TSS3) *)
Definition print_all (v : VIDEO) (l : list (list Z * Z)) : option VIDEO :=
  foldl (fun v tc => v ← v; kfprint v (tc.1 ++ [0]) tc.2) (Some v) l.

(** A key: printed when there is no console, handed to it when it has the focus. *)
Definition key_event (k : KERNEL) (data_keymouse : Z) : option KERNEL :=
  let kbdscancode := data_keymouse - DEV_FIFO_KBD_START in
  let fallback :=
    prints ← int21h_handler (Z.land kbdscancode 0xff);
    v ← print_all (k_video k) prints;
    Some (k_set_video k v) in
  match get_sheet_console (k_video k) with
  | None => fallback
  | Some sc =>
      ctl ← v_ctl (k_video k);
      focus ← (c_sheets ctl)$[c_zTop ctl - 1];
      if bool_decide (focus = Some sc) then
        match mpfifo32Console k with
        | None => fallback
        | Some f =>
            '(_, w) ← mpfifo32_enqueue (Some f) data_keymouse (k_world k);
            Some (k_set_world k w)
        end
      else Some k
  end.

(** From the label [keymouse] on. *)
Definition keymouse_event (keymousefifo usedBytes : Z) (k : KERNEL) : option KERNEL :=
  if usedBytes =? 0 then Some k
  else
    '(data, w) ← mpfifo32_dequeue keymousefifo (k_world k);
    let k := k_set_world k w in
    if data <? 0 then Some k
    else if is_kbd data then key_event k data
    else if is_mouse data then
      '(mv, v) ← int2ch_handler (Z.land (data - DEV_FIFO_MOUSE_START) 0xff) (mouse_one_move k) (k_video k);
      Some (k_set_video (k_set_mouse k mv) v)
    else Some k.

Definition eventloop_turn (keymousefifo fifoTSS3 task3 : Z) (timer_1s : option Z) (k : KERNEL) : option KERNEL :=
  usedBytes ← mpfifo32_status_getUsageB keymousefifo (k_world k);
  used3 ← mpfifo32_status_getUsageB fifoTSS3 (k_world k);
  if (used3 =? 0) && (usedBytes <=? 0) then
    w ← task_sleep (k_world k) (Some task3); Some (k_set_world k w)
  else if used3 =? 0 then keymouse_event keymousefifo usedBytes k
  else
    '(data, w) ← mpfifo32_dequeue fifoTSS3 (k_world k);
    let k := k_set_world k w in
    if data <? 0 then Some k
    else
      k ← (if data =? 1 then c ← timer_settimer (k_timers k) timer_1s 100 1; Some (k_set_timers k c) else Some k);
      keymouse_event keymousefifo usedBytes k.

(** Before the loop: the FIFO of the keyboard and mouse wakes this task; the
    task's own FIFO has the static buffer of 4096 words at [buf]. *)
Definition eventloop_init (keymousefifo fifoTSS3 buf task3 : Z) (k : KERNEL) : option (option Z * KERNEL) :=
  mp ← w_fifos (k_world k) !! keymousefifo;
  let fs := <[keymousefifo := mkMPFIFO32 (mp_fifo32 mp) (mp_buf mp) (Some task3)]> (w_fifos (k_world k)) in
  f ← mpfifo32_init (Some (mkMPFIFO32 FIFO32_zero 0 None)) (Some (buf, replicate 4096 0)) 4096 (Some task3);
  let k := k_set_world k (set_fifos (k_world k) (<[fifoTSS3 := f]> fs)) in
  '(timer_1s, c) ← timer_alloc_customfifo (k_timers k) (Some fifoTSS3);
  c ← timer_settimer c timer_1s 100 1;
  Some (timer_1s, k_set_timers k c).

(** ** The window with the clock (TSS4) *)

(** The time as text, and a box beside it that blinks. *)
Definition render_clock (k : KERNEL) (color : Z) : option KERNEL :=
  match get_sheet_window (k_video k) with
  | None => Some k
  | Some sw =>
      ctl ← v_ctl (k_video k);
      '(_, ctc) ← sprintf_ (Some (replicate 40 0)) (cstr "%010ld") [Word (timer_gettick (k_timers k))];
      ctc ← ctc;
      ctl ← on_buf ctl sw (fun sh =>
              buf ← boxfill8 (s_buf sh) (s_bufXsize sh) COL8_C6C6C6 40 28 119 43;
              buf ← boxfill8 buf (s_bufXsize sh) (u8 color) 40 28 (40 + 7) (28 + 15);
              putfonts8_asc buf (s_bufXsize sh) 40 28 COL8_000000 ctc);
      ctl ← sheet_update_sheet ctl sw 40 28 120 44;
      Some (k_set_video k (v_set_ctl (k_video k) ctl))
  end.

Definition tss4_turn (fifoTSS4 task4 : Z) (timer_1s timer_5s timer_render : option Z) (color : Z) (k : KERNEL)
  : option (Z * KERNEL) :=
  used ← mpfifo32_status_getUsageB fifoTSS4 (k_world k);
  if used <=? 0 then w ← task_sleep (k_world k) (Some task4); Some (color, k_set_world k w)
  else
    '(data, w) ← mpfifo32_dequeue fifoTSS4 (k_world k);
    let k := k_set_world k w in
    if data <? 0 then Some (color, k)
    else
      k ← (if data =? 15 then c ← timer_settimer (k_timers k) timer_5s 500 0; Some (k_set_timers k c) else Some k);
      k ← (if data =? 16 then
             c ← timer_settimer (k_timers k) timer_render 8 0;
             render_clock (k_set_timers k c) color
           else Some k);
      if data =? 11 then
        c ← timer_settimer (k_timers k) timer_1s 100 11;
        Some (match get_sheet_window (k_video k) with Some _ => Z.lxor color COL8_C6C6C6 | None => color end,
              k_set_timers k c)
      else Some (color, k).

Definition tss4_init (fifoTSS4 buf task4 : Z) (k : KERNEL)
  : option (option Z * option Z * option Z * KERNEL) :=
  f ← mpfifo32_init (Some (mkMPFIFO32 FIFO32_zero 0 None)) (Some (buf, replicate 4096 0)) 4096 (Some task4);
  let k := k_set_world k (set_fifos (k_world k) (<[fifoTSS4 := f]> (w_fifos (k_world k)))) in
  '(timer_1s, c) ← timer_alloc_customfifo (k_timers k) (Some fifoTSS4);
  c ← timer_settimer c timer_1s 100 11;
  '(timer_5s, c) ← timer_alloc_customfifo c (Some fifoTSS4);
  c ← timer_settimer c timer_5s 500 15;
  '(timer_render, c) ← timer_alloc_customfifo c (Some fifoTSS4);
  c ← timer_settimer c timer_render 50 16;
  Some (timer_1s, timer_5s, timer_render, k_set_timers k c).

(** ** The console *)

(** The whole line buffer, as [kstrcmp] reads it. *)
Definition line (m : memory) (t : TEXTBOX) : list Z := contents m (t_lineBuf t) OS_TEXTBOX_LINE_BUFFER_SIZE.

Definition get_textbox (ctl : SHTCTL) (sheet : Z) : option TEXTBOX := t ← textbox ctl sheet; t.

Definition prompt (ctl : SHTCTL) (sheet : Z) (s : string) : option SHTCTL :=
  t ← get_textbox ctl sheet; v_textbox_putfonts8_asc ctl sheet (t_charColor t) (cstr s).
Definition new_line (ctl : SHTCTL) (sheet : Z) : option SHTCTL :=
  t ← get_textbox ctl sheet; v_textbox_putfonts8_asc ctl sheet (t_charColor t) [newline; 0].

Definition clear_linebuf (m : memory) (ctl : SHTCTL) (sheet : Z) : option (memory * SHTCTL) :=
  t ← get_textbox ctl sheet;
  '(m, t) ← v_textbox_linebuf_clear m (Some t);
  t ← t;
  ctl ← set_textbox ctl sheet t;
  Some (m, ctl).

(** One cell of the line is cleared and shown. *)
Definition clear_cell (ctl : SHTCTL) (t : TEXTBOX) (x y : Z) : option SHTCTL :=
  let xEnd := s32 (x + t_incrementX t) in
  let yEnd := s32 (y + t_incrementY t) in
  ctl ← v_textbox_boxfill8 ctl t (u8 (t_bgColor t)) x y xEnd yEnd;
  v_textbox_update_sheet ctl (Some (t_sheet t)) x y xEnd yEnd.

Definition OS_NAME : string := "placeholder".

(** The enter key: the rest of the line is cleared, and the line is a command. *)
Definition console_enter (m : memory) (ctl : SHTCTL) (sheet : Z) : option (memory * SHTCTL) :=
  t ← get_textbox ctl sheet;
  ctl ← for_range (t_boxX t) (t_bufXE t - s32 (t_incrementX t) + 1) (fun x ctl => clear_cell ctl t x (t_boxY t)) ctl;
  let lb := line m t in
  is_cls ← kstrcmp lb (cstr "cls");
  if is_cls =? 0 then
    '(m, ctl) ← v_textbox_reset m ctl sheet;
    ctl ← prompt ctl sheet ">";
    Some (m, ctl)
  else
    is_whoami ← kstrcmp lb (cstr "whoami");
    if is_whoami =? 0 then
      ctl ← new_line ctl sheet;
      ctl ← v_textbox_putfonts8_asc ctl sheet COL8_848484 (cstr OS_NAME);
      ctl ← new_line ctl sheet;
      ctl ← prompt ctl sheet ">";
      clear_linebuf m ctl sheet
    else
      ctl ← new_line ctl sheet;
      ctl ← prompt ctl sheet ">";
      clear_linebuf m ctl sheet.

(** The shift and caps lock keys. *)
Definition shift_state (LRShift kbdscancode : Z) : Z :=
  let s := LRShift in
  let s := if kbdscancode =? 0x2a then Z.lor s 1 else s in
  let s := if kbdscancode =? 0x36 then Z.lor s 2 else s in
  let s := if kbdscancode =? Z.lor 0x2a BREAK_MASK then Z.land s (u32 (Z.lnot 1)) else s in
  let s := if kbdscancode =? Z.lor 0x36 BREAK_MASK then Z.land s (u32 (Z.lnot 2)) else s in
  if kbdscancode =? 0x3a then Z.lxor s 4 else s.

Definition is_shift (s : Z) : bool := xorb (Z.land s 3 >? 0) (negb (Z.land s 4 =? 0)).

(** A character goes into the line buffer and onto the screen. *)
Definition console_char (m : memory) (ctl : SHTCTL) (sheet c : Z) : option (memory * SHTCTL) :=
  t ← get_textbox ctl sheet;
  '(_, m, t') ← v_textbox_linebuf_addchar m (Some t) (u8 c);
  t' ← t';
  ctl ← set_textbox ctl sheet t';
  ctl ← clear_cell ctl t' (t_boxX t) (t_boxY t);
  ctl ← v_textbox_putfonts8_asc ctl sheet (t_charColor t') (c :: replicate 9 0);
  Some (m, ctl).

(** The flag says whether the turn goes on to the cursor, or ends by [continue]. *)
Definition console_key (m : memory) (ctl : SHTCTL) (sheet LRShift kbdscancode : Z)
  : option (memory * SHTCTL * Z * bool) :=
  if kbdscancode =? 0x0e then Some (m, ctl, LRShift, false)
  else if kbdscancode =? 0x0f then Some (m, ctl, LRShift, false)
  else if kbdscancode =? 0x1c then
    '(m, ctl) ← console_enter m ctl sheet; Some (m, ctl, LRShift, false)
  else
    let LRShift := shift_state LRShift kbdscancode in
    c ← input_get_char (u8 kbdscancode) (is_shift LRShift);
    if c =? 0 then Some (m, ctl, LRShift, false)
    else '(m, ctl) ← console_char m ctl sheet c; Some (m, ctl, LRShift, true).

(** The cursor box; its coordinates in the text box are also those of the area
    of the sheet that is shown. *)
Definition draw_cursor (ctl : SHTCTL) (sheet cursorColor : Z) : option SHTCTL :=
  t ← get_textbox ctl sheet;
  ctl ← v_textbox_boxfill8 ctl t (u8 cursorColor) (t_boxX t) (t_boxY t) (t_boxX t + 7) (t_boxY t + 15);
  sheet_update_sheet ctl sheet (t_boxX t) (t_boxY t) (t_boxX t + 7) (t_boxY t + 15).

Definition set_mem (w : world) (m : memory) : world := set_heap w (w_heap w) m.

Definition console_turn (fifo task sheet : Z) (timer : option Z) (cursorColor : Z) (k : KERNEL)
  : option (Z * KERNEL) :=
  let timeoutBlink := 80 in
  used ← mpfifo32_status_getUsageB fifo (k_world k);
  if used =? 0 then w ← task_sleep (k_world k) (Some task); Some (cursorColor, k_set_world k w)
  else
    '(i, w) ← mpfifo32_dequeue fifo (k_world k);
    let k := k_set_world k w in
    ctl ← v_ctl (k_video k);
    '(m, ctl, shift, go_on) ← (if is_kbd i
       then console_key (w_mem w) ctl sheet (LRShift k) (i - DEV_FIFO_KBD_START)
       else Some (w_mem w, ctl, LRShift k, true));
    let k := k_set_shift (k_set_video (k_set_world k (set_mem w m)) (v_set_ctl (k_video k) ctl)) shift in
    if go_on : bool then
      '(c, cursorColor) ← (if i =? 21 then c ← timer_settimer (k_timers k) timer timeoutBlink 20; Some (c, COL8_FFFFFF)
                           else Some (k_timers k, cursorColor));
      '(c, cursorColor) ← (if i =? 20 then c ← timer_settimer c timer timeoutBlink 21; Some (c, COL8_000000)
                           else Some (c, cursorColor));
      ctl ← draw_cursor ctl sheet cursorColor;
      Some (cursorColor, k_set_video (k_set_timers k c) (v_set_ctl (k_video k) ctl))
    else Some (cursorColor, k).

Definition sizeof_MPFIFO32 : Z := 28.

Definition console_init (sheet : Z) (k : KERNEL) : option (option Z * option Z * Z * KERNEL) :=
  let w := k_world k in
  task ← mprocess_task_get_current (w_taskctl w);
  '(fifo, h, m) ← kzalloc (w_heap w) (w_mem w) sizeof_MPFIFO32;
  '(buf, h, m) ← kzalloc h m (4 * 512);
  let w := set_heap w h m in
  let old := if fifo =? 0 then None else Some (mkMPFIFO32 FIFO32_zero 0 None) in
  let cells := if buf =? 0 then None else Some (buf, replicate 512 0) in
  let f := mpfifo32_init old cells 512 task in
  let w := match f with Some f => set_fifos w (<[fifo := f]> (w_fifos w)) | None => w end in
  let console := if fifo =? 0 then None else Some fifo in
  '(timer, c) ← timer_alloc_customfifo (k_timers k) console;
  c ← timer_settimer c timer 80 20;
  ctl ← v_ctl (k_video k);
  ctl ← prompt ctl sheet ">";
  Some (task, timer, COL8_FFFFFF,
        k_set_console (k_set_video (k_set_timers (k_set_world k w) c) (v_set_ctl (k_video k) ctl)) console).

(** ** Starting the tasks (in [kernel_main]) *)

(** The segment and entry registers of a new task. *)
Definition task_entry (esp eip : Z) (t : TASK) : TASK :=
  let s := t_tss t in
  set_tss t
    (mkTSS32 (tss_link s) (tss_esp0 s) (tss_ss0 s) (tss_esp1 s) (tss_ss1 s) (tss_esp2 s)
       (tss_ss2 s) (tss_cr3 s) eip (tss_eflags s) (tss_eax s) (tss_ecx s) (tss_edx s)
       (tss_ebx s) esp (tss_ebp s) (tss_esi s) (tss_edi s)
       OS_GDT_KERNEL_DATA_SEGMENT_SELECTOR OS_GDT_KERNEL_CODE_SEGMENT_SELECTOR
       OS_GDT_KERNEL_DATA_SEGMENT_SELECTOR OS_GDT_KERNEL_DATA_SEGMENT_SELECTOR
       OS_GDT_KERNEL_DATA_SEGMENT_SELECTOR OS_GDT_KERNEL_DATA_SEGMENT_SELECTOR
       (tss_ldtr s) (tss_iopb s) (tss_ssp s)).

(** A task with a stack of 16 pages, which starts [room] bytes below its end. *)
Definition start_task (w : world) (eip room : Z) : option (Z * Z * world) :=
  '(task, tc) ← mprocess_task_alloc (w_taskctl w);
  '(stack, h, m) ← kzalloc (w_heap w) (w_mem w) (4096 * 16);
  let w := set_heap w h m in
  let esp := u32 (stack + 4096 * 16 - room) in
  task ← task;
  tc ← upd_task tc task (task_entry esp eip);
  Some (task, esp, set_taskctl w tc).

Definition run_task (w : world) (task level priority : Z) : option world :=
  tc ← mprocess_task_run (w_taskctl w) (Some task) level priority;
  Some (set_taskctl w tc).

(** [*(uint32_t * )a = v] *)
Definition store32 (m : memory) (a v : Z) : memory :=
  <[u32 (a + 3) := u8 (Z.shiftr v 24)]> (<[u32 (a + 2) := u8 (Z.shiftr v 16)]>
    (<[u32 (a + 1) := u8 (Z.shiftr v 8)]> (<[u32 a := u8 v]> m))).

(** [tss4_main], [console_main] and the idle loop are the addresses of the entry
    points, [console_sheet] the pointer that the console gets as its argument. *)
Definition start_tasks (idle_entry tss4_main console_main console_sheet : Z) (k : KERNEL)
  : option (Z * Z * Z * KERNEL) :=
  '(task3, c, w) ← mprocess_init (k_timers k) (k_world k) idle_entry;
  w ← run_task w task3 1 2;
  '(task4, _, w) ← start_task w tss4_main 4;
  w ← run_task w task4 2 1;
  '(taskConsole, esp, w) ← start_task w console_main 8;
  let w := set_mem w (store32 (w_mem w) (esp + 4) console_sheet) in
  w ← run_task w taskConsole 2 2;
  Some (task3, task4, taskConsole, k_set_world (k_set_timers k c) w).
