(* ===== verification/Selftest.v ===== *)
(** * The self tests that the kernel runs at start, src/src/test.c

    [test_dlist] of src/src/util/dlist.c over the store of [Dlist], and [test_all],
    which runs it before the tests of [Kutil] and [Fifo]. *)
From Stdlib Require Import ZArith Lia.
From stdpp Require Import base option list gmap numbers.
From S2P Require Import Prelude Dlist Kutil Fifo.

Set Default Proof Using "Type".

(** ** [test_dlist] *)

(** The test as it is written, on any eight pointers. *)
Definition next_of (st : dstore) (p : Z) : option Z := d_next <$> st !! p.
Definition prev_of (st : dstore) (p : Z) : option Z := d_prev <$> st !! p.

Definition insert_after (st : dstore) (p q : Z) : option dstore := fst <$> dlist_insert_after st p q.
Definition insert_before (st : dstore) (p q : Z) : option dstore := fst <$> dlist_insert_before st p q.

(** The first half: four nodes, and four more between the first two. *)
Definition test_nodes (d0 d1 d2 d3 dnew_a dnew_b dnew_c dnew_d : Z) (st : dstore) : option (bool * dstore) :=
  let st := foldl dlist_init st [d0; d1; d2; d3; dnew_a; dnew_b; dnew_c; dnew_d] in
  st ← insert_after st d0 d1;
  st ← insert_after st d1 d2;
  st ← insert_before st d0 d3;
  n1 ← next_of st d0; n2 ← next_of st n1; n3 ← next_of st n2;
  if negb (n1 =? d1) || negb (n2 =? d2) || negb (n3 =? d3) then Some (false, st) else
  p1 ← prev_of st d0; p2 ← prev_of st p1; p3 ← prev_of st p2;
  if negb (p1 =? d3) || negb (p2 =? d2) || negb (p3 =? d1) then Some (false, st) else
  st ← insert_before st dnew_a dnew_b;
  st ← insert_before st dnew_a dnew_c;
  st ← insert_before st dnew_a dnew_d;
  st ← insert_after st d0 dnew_a;
  n1 ← next_of st d0; n2 ← next_of st n1; nd ← next_of st dnew_d;
  if negb (n1 =? dnew_a) || negb (n2 =? dnew_b) || negb (nd =? d1) then Some (false, st) else
  pa ← prev_of st dnew_a; p1 ← prev_of st d1;
  if negb (pa =? d0) || negb (p1 =? dnew_d) then Some (false, st) else
  st ← fst <$> dlist_remove st dnew_a;
  n1 ← next_of st d0; pb ← prev_of st dnew_b;
  if negb (n1 =? dnew_b) || negb (pb =? d0) then Some (false, st) else
  na ← next_of st dnew_a; pa ← prev_of st dnew_a;
  if negb (na =? dnew_a) || negb (pa =? dnew_a) then Some (false, st) else
  Some (true, st).

(** [TEST_DLIST_S]: two nodes and a number. *)
Definition la_of (s : Z) : Z := s.
Definition lb_of (s : Z) : Z := s + 8.
Definition entry_of (lb : Z) : Z := lb - 8.

(** The second half: the traversal of three structs on the stack; [dt] holds the
    numbers in them. *)
Definition test_entries (ts_head ts1 ts2 : Z) (st : dstore) : option (bool * dstore) :=
  let st := foldl dlist_init st [la_of ts_head; lb_of ts_head; la_of ts1; lb_of ts1; la_of ts2; lb_of ts2] in
  st ← insert_after st (lb_of ts_head) (lb_of ts1);
  st ← insert_after st (lb_of ts1) (lb_of ts2);
  let dt : gmap Z Z := <[ts2 := 2]> (<[ts1 := 1]> (<[ts_head := 0]> ∅)) in
  let head := lb_of ts_head in
  r ← list_for_each_entry (S := dstore * Z) (R := bool) fst 4 head (fun node s =>
        let '(st, i) := s in
        let pos := entry_of node in
        n ← dt !! pos;
        if (i =? 1) && (negb (pos =? ts1) || negb (n =? 1)) then Some (Return (node, s) false)
        else if (i =? 2) && (negb (pos =? ts2) || negb (n =? 2)) then Some (Return (node, s) false)
        else if i =? 3 then Some (Return (node, s) false)
        else Some (Continue (node, (st, i + 1)))) (st, 1);
  match r with
  | Return (st, _) b => Some (b, st)
  | Continue (st, _) | Break (st, _) => Some (true, st)
  end.

(** All eight pointers of the first half are initialised with [{0}]. *)
Definition test_dlist (ts_head ts1 ts2 : Z) (st : dstore) : option (bool * dstore) :=
  '(b, st) ← test_nodes 0 0 0 0 0 0 0 0 st;
  if negb b then Some (false, st) else test_entries ts_head ts1 ts2 st.

(** ** [test_all] *)
Definition test_all (ts_head ts1 ts2 : Z) (st : dstore) : option (bool * dstore) :=
  '(b, st) ← test_dlist ts_head ts1 ts2 st;
  if negb b then Some (false, st) else
  b ← test_kutil;
  if negb b then Some (false, st) else
  b ← test_fifo32;
  if negb b then Some (false, st) else Some (true, st).

(** ** The tests pass, whatever the memory holds *)
Lemma test_nodes_null st : test_nodes 0 0 0 0 0 0 0 0 st = Some (true, <[0 := mkDLIST 0 0]> st).
Proof.
  unfold test_nodes. cbn [foldl]. unfold dlist_init. rewrite !insert_insert_eq.
  unfold insert_after, insert_before, dlist_insert_after, dlist_insert_before, dlist_remove, set_next, set_prev, next_of, prev_of.
  repeat (rewrite lookup_insert_eq || rewrite insert_insert_eq || cbn). done.
Qed.

(** The first half tests nothing: the eight nodes are one, at address 0, which is
    a link to itself at every moment.  On eight nodes the test passes as well. *)
Theorem test_dlist_on_null st :
  test_nodes 0 0 0 0 0 0 0 0 st = Some (true, <[0 := mkDLIST 0 0]> st)
  /\ exists st', test_nodes 8 16 24 32 40 48 56 64 ∅ = Some (true, st').
Proof. split; [apply test_nodes_null|]. eexists. vm_compute. reflexivity. Qed.

(** The structs of the second half do not overlap. *)
Section entries.
Context (h a b : Z) (Ha : h + 16 <= a) (Hb : a + 16 <= b).

Lemma entry_nodes st :
  let st := foldl dlist_init st [la_of h; lb_of h; la_of a; lb_of a; la_of b; lb_of b] in
  dring st (lb_of h) [] /\ dring st (lb_of a) [] /\ dring st (lb_of b) [].
Proof using Ha Hb.
  unfold la_of, lb_of. cbn [foldl]. unfold dlist_init.
  split_and!; (split; [apply NoDup_singleton|]; cbn [dseg]; unfold link, nx, pv;
    rewrite ?lookup_insert_ne by lia; by rewrite lookup_insert_eq).
Qed.

Lemma entry_ring st :
  dring st (lb_of h) [] -> dring st (lb_of a) [] -> dring st (lb_of b) [] ->
  exists st1 st2, insert_after st (lb_of h) (lb_of a) = Some st1
    /\ insert_after st1 (lb_of a) (lb_of b) = Some st2
    /\ dring st2 (lb_of h) [lb_of a; lb_of b].
Proof using Ha Hb.
  intros Rh Ra Rb.
  destruct (dlist_insert_after_ring st (lb_of h) [] (lb_of a) [] Rh Ra) as (st1 & E1 & R1 & S1).
  { intros p q ->%list_elem_of_singleton ->%list_elem_of_singleton. unfold lb_of. lia. }
  apply (dring_rotate st1 (lb_of h) [] (lb_of a) []) in R1.
  assert (Rb1 : dring st1 (lb_of b) []).
  { eapply dring_same_outside; [exact Rb|exact S1|]. intros q ->%list_elem_of_singleton.
    cbn [app]. rewrite elem_of_cons, list_elem_of_singleton. unfold lb_of. lia. }
  destruct (dlist_insert_after_ring st1 (lb_of a) [lb_of h] (lb_of b) [] R1 Rb1) as (st2 & E2 & R2 & _).
  { intros p q Hp ->%list_elem_of_singleton. rewrite elem_of_cons, list_elem_of_singleton in Hp.
    unfold lb_of in *. lia. }
  exists st1, st2. unfold insert_after. rewrite E1, E2. split_and!; [done|done|].
  apply (dring_rotate st2 (lb_of a) [lb_of b] (lb_of h) []) in R2. exact R2.
Qed.

Lemma test_entries_pass st : exists st', test_entries h a b st = Some (true, st').
Proof using Ha Hb.
  destruct (entry_nodes st) as (Rh & Ra & Rb). destruct (entry_ring _ Rh Ra Rb) as (st1 & st2 & E1 & E2 & R).
  unfold test_entries. rewrite E1, bind_Some_eq, E2, bind_Some_eq. unfold list_for_each_entry.
  destruct R as [_ [[N1 _] [[N2 _] [N3 _]]]]. unfold nx in N1, N2, N3.
  cbn [fst]. rewrite N1, bind_Some_eq. unfold lb_of, entry_of in *. cbn [for_each_from].
  replace (a + 8 =? h + 8) with false by lia. replace (a + 8 - 8) with a by lia.
  rewrite lookup_insert_ne by lia. rewrite lookup_insert_eq, bind_Some_eq. rewrite !Z.eqb_refl. cbn [Z.add Pos.add Pos.succ Z.eqb Pos.eqb andb orb negb mbind option_bind fst].
  rewrite N2, bind_Some_eq. replace (b + 8 =? h + 8) with false by lia. replace (b + 8 - 8) with b by lia.
  change (1 + 1) with 2. change (2 + 1) with 3.
  rewrite lookup_insert_eq, bind_Some_eq, !Z.eqb_refl.
  cbn [Z.add Pos.add Pos.succ Z.eqb Pos.eqb andb orb negb mbind option_bind fst].
  rewrite N3, bind_Some_eq, Z.eqb_refl. by eexists.
Qed.
End entries.

(** [test_all] passes, whatever the memory held before, and leaves the memory at
    address 0 as an empty list. *)
Lemma test_all_pass h a b st :
  h + 16 <= a -> a + 16 <= b -> exists st', test_all h a b st = Some (true, st').
Proof.
  intros Ha Hb. unfold test_all, test_dlist. rewrite test_nodes_null, bind_Some_eq. cbn [negb].
  destruct (test_entries_pass h a b Ha Hb (<[0 := mkDLIST 0 0]> st)) as (st' & E). rewrite E, bind_Some_eq. cbn [negb].
  assert (Ek : test_kutil = Some true) by (vm_compute; reflexivity).
  assert (Ef : test_fifo32 = Some true) by (vm_compute; reflexivity).
  rewrite Ek, bind_Some_eq, Ef, bind_Some_eq. by exists st'.
Qed.
