(* ===== verification/KernelStart.v ===== *)
(** * The start of the kernel and its first interrupts, src/src/kernel.c

    [mprocess_init] puts the running task on level 0 and [kernel_main] moves it to
    level 1 at once, without a new choice of the level.  So the kernel starts in a
    state that [SchedSpec] does not cover: the current level is 0 and has no task,
    and after the first switch the turn of level 0 is beyond its end (what
    [stale_turn] shows to be fatal once a task is put there again).  It goes well
    because no task of the kernel is on level 0.  [afloat] is the invariant that
    says so; it is another instance of [SwitchInv]. *)
From Stdlib Require Import ZArith Lia.
From stdpp Require Import base option list gmap numbers.
From S2P Require Import Prelude Dlist Fifo Heapdl HeapdlInv Allocator Memory Process ProcessInv ProcessSpec Timer TimerInv TimerSpec Descriptors Sched SchedSpec Video Kernel.

Set Default Proof Using "Type".

(** ** Level 0 left behind *)
Definition empty_level : TASKLEVEL :=
  mkTASKLEVEL 0 0 (replicate (Z.to_nat OS_MPROCESS_TASKLEVEL_TASKS_MAX) None).

(** The control block as if level 0 had never been used and [lv] were current. *)
Definition settled (lv : Z) (tc : TASKCTL) : TASKCTL :=
  mkTASKCTL lv (lv_change tc) (<[0%nat := empty_level]> (tc_level tc)) (tasks0 tc).

Definition settle (lv : Z) (w : world) : world := set_taskctl w (settled lv (w_taskctl w)).

(** Level 0 has no task and gets none, and is current only while the choice of
    another level is pending. *)
Record left_behind (tc : TASKCTL) (lv : Z) : Prop := {
  lb_level : exists tl, tc_level tc !! 0%nat = Some tl /\ tl_running tl = 0
    /\ (now_lv tc = 0 -> exists p, (tl_tasks tl)$[tl_now tl] = Some p);
  lb_tasks : forall t task, (tasks0 tc)$[t] = Some task -> t_flags task <> MPROCESS_FLAGS_FREE ->
    1 <= t_level task;
  lb_now : (now_lv tc = lv /\ 1 <= lv) \/ (now_lv tc = 0 /\ lv_change tc = true)
}.

Definition afloat (w : world) : Prop :=
  exists lv qs, left_behind (w_taskctl w) lv /\ world_ok (settle lv w) qs.

(** ** The operations do not see level 0 *)
Section settled.
Context (lv : Z) (tc : TASKCTL).

Lemma settled_level l : 1 <= l -> (tc_level (settled lv tc))$[l] = (tc_level tc)$[l].
Proof.
  intros Hl. unfold lookupZ. destruct (0 <=? l); [|done]. apply list_lookup_insert_ne. lia.
Qed.

Lemma settled_upd_task t f : upd_task (settled lv tc) t f = settled lv <$> upd_task tc t f.
Proof.
  unfold upd_task. cbn [tasks0 settled]. destruct ((tasks0 tc)$[t]) as [task|]; [|done]. cbn [mbind option_bind].
  by destruct ((tasks0 tc)$[t := f task]).
Qed.

Lemma settled_put_level l tl : 1 <= l -> put_level (settled lv tc) l tl = settled lv <$> put_level tc l tl.
Proof.
  intros Hl. unfold put_level, updateZ. cbn [tc_level settled]. rewrite length_insert.
  destruct (_ && _); [|done]. unfold settled. cbn. do 2 f_equal. apply list_insert_insert_ne. lia.
Qed.
End settled.

Lemma settled_add lv tc t task :
  (tasks0 tc)$[t] = Some task -> 1 <= t_level task ->
  __mprocess_task_add (settled lv tc) t = settled lv <$> __mprocess_task_add tc t.
Proof.
  intros Et Hl. unfold __mprocess_task_add. cbn [tasks0 settled]. rewrite Et, !bind_Some_eq.
  rewrite settled_level by done. destruct ((tc_level tc)$[t_level task]) as [tl|]; [|done]. cbn [mbind option_bind].
  destruct (loop_until _ _ _ _) as [[]|]; cbn [mbind option_bind]; try done;
    (destruct ((tl_tasks tl)$[_ := _]) as [ts|]; [|done]; cbn [mbind option_bind];
     rewrite settled_put_level by done; destruct (put_level _ _ _) as [tc1|]; [|done]; cbn;
     apply settled_upd_task).
Qed.

(** Waking a task, on its level and with its priority. *)
Lemma settled_run lv tc t task :
  (tasks0 tc)$[t] = Some task -> 1 <= t_level task ->
  mprocess_task_run (settled lv tc) (Some t) (-1) 0 = settled lv <$> mprocess_task_run tc (Some t) (-1) 0.
Proof.
  intros Et Hl. unfold mprocess_task_run. cbn [tasks0 settled]. rewrite Et, !bind_Some_eq.
  replace (0 >? 0) with false by done. rewrite !bind_Some_eq.
  replace (-1 <? 0) with true by done. rewrite Z.eqb_refl, andb_false_r, !bind_Some_eq.
  cbn [tasks0 settled]. rewrite Et, !bind_Some_eq. destruct (_ =? _); [|done].
  rewrite settled_upd_task. rewrite (upd_task_eq _ _ task) by done. cbn [fmap option_fmap option_map].
  rewrite !bind_Some_eq. erewrite settled_add; [|cbn [tasks0]; by rewrite lookupZ_insert_eq by (by eapply lookupZ_lt)|done].
  by destruct (__mprocess_task_add _ _).
Qed.

(** ** Waking keeps level 0 behind *)
Lemma left_behind_same tc tc' lv :
  left_behind tc lv -> tc_level tc' !! 0%nat = tc_level tc !! 0%nat -> now_lv tc' = now_lv tc ->
  (lv_change tc = true -> lv_change tc' = true) ->
  (forall t task, (tasks0 tc')$[t] = Some task -> t_flags task <> MPROCESS_FLAGS_FREE -> 1 <= t_level task) ->
  left_behind tc' lv.
Proof.
  intros [Hl Ht Hn] El En Ec Ht'. constructor; [by rewrite El, En|done|]. rewrite En. intuition.
Qed.

Lemma upd_task_inv tc t f tc' :
  upd_task tc t f = Some tc' ->
  exists task, (tasks0 tc)$[t] = Some task
    /\ tc' = mkTASKCTL (now_lv tc) (lv_change tc) (tc_level tc) (<[Z.to_nat t := f task]> (tasks0 tc)).
Proof.
  unfold upd_task. destruct ((tasks0 tc)$[t]) as [task|] eqn:E; [|done]. cbn [mbind option_bind].
  rewrite updateZ_in by (by eapply lookupZ_lt). intros [= <-]. by exists task.
Qed.

Lemma add_inv tc t task tc' :
  (tasks0 tc)$[t] = Some task -> 1 <= t_level task -> __mprocess_task_add tc t = Some tc' ->
  tc_level tc' !! 0%nat = tc_level tc !! 0%nat /\ now_lv tc' = now_lv tc /\ lv_change tc' = lv_change tc
  /\ (tasks0 tc' = tasks0 tc
      \/ tasks0 tc' = <[Z.to_nat t := set_flags task MPROCESS_FLAGS_RUNNING]> (tasks0 tc)).
Proof.
  intros Et Hl. unfold __mprocess_task_add. rewrite Et, bind_Some_eq.
  destruct ((tc_level tc)$[t_level task]) as [tl|]; [|done]. cbn [mbind option_bind].
  assert (Hrest : forall ts, (tc1 ← put_level tc (t_level task) (mkTASKLEVEL (tl_running tl + 1) (tl_now tl) ts);
                  upd_task tc1 t (fun t => set_flags t MPROCESS_FLAGS_RUNNING)) = Some tc' ->
     tc_level tc' !! 0%nat = tc_level tc !! 0%nat /\ now_lv tc' = now_lv tc /\ lv_change tc' = lv_change tc
     /\ (tasks0 tc' = tasks0 tc
         \/ tasks0 tc' = <[Z.to_nat t := set_flags task MPROCESS_FLAGS_RUNNING]> (tasks0 tc))).
  { intros ts. unfold put_level, updateZ. destruct (_ && _); [|done]. cbn [mbind option_bind].
    intros (task' & Et' & ->)%upd_task_inv. cbn in *. rewrite list_lookup_insert_ne by lia.
    rewrite Et in Et'. injection Et' as <-. auto. }
  destruct (loop_until _ _ _ _) as [[]|]; cbn [mbind option_bind]; [..|done].
  - destruct ((tl_tasks tl)$[_ := _]) as [ts|]; [apply Hrest|done].
  - destruct ((tl_tasks tl)$[_ := _]) as [ts|]; [apply Hrest|done].
  - intros [= <-]. auto.
Qed.

Lemma run_left_behind tc lv t task tc' :
  left_behind tc lv -> (tasks0 tc)$[t] = Some task -> t_flags task <> MPROCESS_FLAGS_FREE ->
  mprocess_task_run tc (Some t) (-1) 0 = Some tc' -> left_behind tc' lv.
Proof.
  intros Hb Et Hf. pose proof (lb_tasks _ _ Hb _ _ Et Hf) as Hl. unfold mprocess_task_run.
  rewrite Et, !bind_Some_eq. replace (0 >? 0) with false by done. rewrite !bind_Some_eq.
  replace (-1 <? 0) with true by done. rewrite Z.eqb_refl, andb_false_r, !bind_Some_eq, Et, !bind_Some_eq.
  destruct (_ =? _).
  - rewrite (upd_task_eq _ _ task) by done. rewrite bind_Some_eq.
    destruct (__mprocess_task_add _ _) as [tc1|] eqn:Ea; [|done]. cbn. intros [= <-].
    eapply add_inv in Ea as (E0 & En & Ec & Ets);
      [|cbn [tasks0]; by rewrite lookupZ_insert_eq by (by eapply lookupZ_lt)|done].
    eapply left_behind_same; [exact Hb|done|done|done|]. cbn [tasks0 set_lv_change]. intros u tu Eu Hfu.
    assert (Hu : (tasks0 tc)$[u] = Some tu \/ t_level tu = t_level task).
    { destruct Ets as [E1|E1]; rewrite E1 in Eu; cbn [tasks0] in Eu; rewrite ?insert_same in Eu;
        rewrite (lookup_upd_task _ _ task) in Eu by done; case_decide; auto; injection Eu as <-; by right. }
    destruct Hu as [Hu|Hu]; [by eapply (lb_tasks _ _ Hb)|lia].
  - cbn. intros [= <-]. eapply left_behind_same; [exact Hb|done..|]. apply (lb_tasks _ _ Hb).
Qed.

(** ** Switching *)
Section switch.
Context (tc : TASKCTL) (tl : TASKLEVEL).
Context (El : tc_level tc !! 0%nat = Some tl) (Hr : tl_running tl = 0).

Lemma settled_update lv :
  __mprocess_task_update_currentlv (settled lv tc)
  = (fun tc1 => settled (now_lv tc1) tc1) <$> __mprocess_task_update_currentlv tc.
Proof using El Hr.
  unfold __mprocess_task_update_currentlv. 
  rewrite (loop_until_ext _ (fun (i s : Z) => tl ← (tc_level tc)$[i];
    if tl_running tl >? 0 then Some (Break i) else Some (Continue (i + 1)))); [by destruct (loop_until _ _ _ _)|].
  intros i s. cbn beta. destruct (Z.lt_trichotomy i 0) as [Hi|[->|Hi]].
  - unfold lookupZ. by replace (0 <=? i) with false by lia.
  - unfold lookupZ. cbn [Z.leb Z.compare tc_level settled]. change (Z.to_nat 0) with 0%nat. rewrite El, list_lookup_insert_eq; [cbn [mbind option_bind tl_running empty_level]; by rewrite Hr|].
    by eapply lookup_lt_Some.
  - by rewrite settled_level by lia.
Qed.

(** The level that is chosen is not level 0. *)
Lemma update_above tc1 :
  __mprocess_task_update_currentlv tc = Some tc1 ->
  1 <= now_lv tc1 /\ tc_level tc1 = tc_level tc /\ tasks0 tc1 = tasks0 tc.
Proof using El Hr.
  unfold __mprocess_task_update_currentlv.
  set (f := fun (i s : Z) => tl ← (tc_level tc)$[i]; _).
  assert (Ef : forall i s, f i s = (tl ← (tc_level tc)$[i];
    if tl_running tl >? 0 then Some (Break i) else Some (Continue (i + 1)))) by done.
  clearbody f. intros H.
  assert (Hf : forall n i r, 1 <= i -> loop_until (R := unit) n i f i = Some r ->
            1 <= match r with Continue i | Break i | Return i _ => i end).
  { induction n as [|n IH]; intros i r Hi; cbn [loop_until]; [by intros [= <-]|].
    rewrite Ef. destruct ((tc_level tc)$[i]) as [tli|]; [|done]. cbn [mbind option_bind].
    destruct (_ >? _); cbn [mbind option_bind]; [by intros [= <-]|]. apply IH. lia. }
  change (Z.to_nat OS_MPROCESS_TASKLEVELS_MAX) with (S 9)%nat in H. rewrite loop_until_S in H.
  assert (E0 : f 0 0 = Some (Continue 1)).
  { rewrite Ef. unfold lookupZ. cbn [Z.leb Z.compare]. change (Z.to_nat 0) with 0%nat. rewrite El. cbn. by rewrite Hr. }
  rewrite E0, bind_Some_eq in H. change (0 + 1) with 1 in H.
  destruct (loop_until 9 1 f 1) as [r|] eqn:E; [|done]. cbn in H. injection H as <-. cbn.
  apply Hf in E; [|done]. split; [|done]. destruct (_ >=? _); [done|exact E].
Qed.
End switch.

Lemma settled_current lv tc :
  1 <= lv -> now_lv tc = lv ->
  mprocess_task_get_current (settled lv tc) = mprocess_task_get_current tc.
Proof.
  intros Hl E. unfold mprocess_task_get_current. cbn [now_lv settled]. rewrite settled_level by done. by rewrite E.
Qed.

(** Once another level is current, level 0 plays no part in a switch. *)
Lemma settled_next lv tc tl :
  tc_level tc !! 0%nat = Some tl -> tl_running tl = 0 -> 1 <= lv -> now_lv tc = lv ->
  match autoswitch_next tc with
  | Some (tc1, cur, next) =>
      autoswitch_next (settled lv tc) = Some (settled (now_lv tc1) tc1, cur, next)
      /\ 1 <= now_lv tc1 /\ tc_level tc1 !! 0%nat = Some tl /\ tasks0 tc1 = tasks0 tc
  | None => autoswitch_next (settled lv tc) = None
  end.
Proof.
  intros El Hr Hl E. unfold autoswitch_next. cbn [now_lv lv_change settled]. rewrite E, settled_level by done.
  destruct ((tc_level tc)$[lv]) as [tlv|]; [|done]. cbn [mbind option_bind].
  destruct ((tl_tasks tlv)$[_]) as [cur|]; [|done]. cbn [mbind option_bind].
  rewrite settled_put_level by done.
  destruct (put_level tc lv _) as [tc0|] eqn:Ep; [|done]. cbn [fmap option_fmap option_map mbind option_bind].
  assert (E0 : now_lv tc0 = lv /\ lv_change tc0 = lv_change tc /\ tasks0 tc0 = tasks0 tc
               /\ tc_level tc0 !! 0%nat = Some tl).
  { unfold put_level, updateZ in Ep. destruct (_ && _); [|done]. injection Ep as <-. cbn.
    rewrite list_lookup_insert_ne by lia. done. }
  destruct E0 as (En & Ec & Ets & El0). cbn [lv_change settled]. rewrite Ec. destruct (lv_change tc).
  - rewrite (settled_update tc0 tl El0 Hr). destruct (__mprocess_task_update_currentlv tc0) as [tc1|] eqn:Eu; [|done].
    apply (update_above tc0 tl El0 Hr) in Eu as (Hn & El1 & Et1). cbn [fmap option_fmap option_map mbind option_bind].
    rewrite settled_current by done. destruct (mprocess_task_get_current tc1) as [d|]; [|done]. cbn.
    rewrite El1, Et1. by split_and!.
  - cbn [mbind option_bind]. rewrite settled_current by done.
    destruct (mprocess_task_get_current tc0) as [d|]; [|done]. cbn. rewrite En. by split_and!.
Qed.

(** The first switch leaves level 0. *)
Lemma first_switch tc lv qs w :
  w_taskctl w = tc -> left_behind tc lv -> world_ok (settle lv w) qs -> now_lv tc = 0 -> lv_change tc = true ->
  exists tc1 cur d next, autoswitch_next tc = Some (tc1, cur, Some d) /\ (tasks0 tc1)$[d] = Some next
    /\ left_behind tc1 (now_lv tc1) /\ world_ok (set_taskctl w (settled (now_lv tc1) tc1)) qs.
Proof.
  intros Ew Hb Hw En Ec. destruct (lb_level _ _ Hb) as (tl & El & Hr & Hp).
  destruct (Hp En) as [p Ep]. destruct (wo_sched _ _ Hw) as [Hc _]. cbn [w_taskctl set_taskctl settle] in Hc.
  rewrite Ew in Hc. destruct (update_currentlv_spec _ _ Hc) as (l & Eu & Hl & Htop).
  set (tc0 := mkTASKCTL 0 true (<[0%nat := mkTASKLEVEL 0 (tl_now tl + 1) (tl_tasks tl)]> (tc_level tc)) (tasks0 tc)).
  assert (El0 : tc_level tc0 !! 0%nat = Some (mkTASKLEVEL 0 (tl_now tl + 1) (tl_tasks tl)))
    by (apply list_lookup_insert_eq; by eapply lookup_lt_Some).
  assert (Es : settled lv tc0 = settled lv tc).
  { unfold settled. cbn. by rewrite list_insert_insert_eq, Ec. }
  pose proof (settled_update tc0 _ El0 eq_refl lv) as Eu0. rewrite Es, Eu in Eu0.
  destruct (__mprocess_task_update_currentlv tc0) as [tc1|] eqn:E1; [|done]. cbn [fmap option_fmap option_map] in Eu0.
  apply (inj Some) in Eu0 as E2.
  destruct (update_above tc0 _ El0 eq_refl tc1 E1) as (Hn & El1 & Et1). cbn [tasks0 tc0] in Et1.
  assert (El' : l = now_lv tc1) by (by apply (f_equal now_lv) in E2). subst l.
  destruct (chosen_ok _ qs (settled (now_lv tc1) tc1) Hw) as (Hw' & d & next & Hd & Enext).
  { rewrite <- E2. by apply core_set_now. }
  { cbn. by rewrite Et1, Ew. }
  { exact Htop. }
  assert (Hc1 : sched_core (settled (now_lv tc1) tc1) qs) by (destruct (wo_sched _ _ Hw') as [H _]; exact H).
  pose proof (get_current_spec _ _ _ Hc1 Hd) as Eg. rewrite settled_current in Eg by done.
  exists tc1, p, d, next. split; [|split; [exact Enext|split]].
  - assert (Elz : (tc_level tc)$[0] = Some tl) by (by apply lookupZ_Some).
    unfold autoswitch_next. rewrite En, Elz, bind_Some_eq, Ep, bind_Some_eq, Hr.
    pose proof (lookupZ_lt _ _ _ Ep) as Hnow.
    replace (tl_now tl + 1 =? 0) with false by (symmetry; apply Z.eqb_neq; lia).
    unfold put_level. rewrite updateZ_in by (apply lookup_lt_Some in El; lia). rewrite !bind_Some_eq.
    change (Z.to_nat 0) with 0%nat. rewrite En, Ec. fold tc0. cbn [lv_change tc0]. rewrite E1, bind_Some_eq, Eg. done.
  - constructor; [|rewrite Et1; apply (lb_tasks _ _ Hb)|by left].
    eexists. split; [rewrite El1; exact El0|]. split; [done|]. lia.
  - exact Hw'.
Qed.

Lemma settle_ports lv irq w : settle lv (PIC_sendEOI irq w) = PIC_sendEOI irq (settle lv w).
Proof. unfold PIC_sendEOI. destruct (_ <? _); [done|]. by destruct (_ && _). Qed.

(** Storing a datum wakes its task, which is above level 0. *)
Lemma settle_enqueue lv f data w :
  left_behind (w_taskctl w) lv ->
  match mpfifo32_enqueue f data w with
  | Some (r, w') => mpfifo32_enqueue f data (settle lv w) = Some (r, settle lv w') /\ left_behind (w_taskctl w') lv
  | None => mpfifo32_enqueue f data (settle lv w) = None
  end.
Proof.
  intros Hb. unfold mpfifo32_enqueue. destruct f as [a|]; [|done].
  change (w_fifos (settle lv w)) with (w_fifos w). destruct (w_fifos w !! a) as [mp|]; [|done].
  rewrite !bind_Some_eq. destruct (fifo32_enqueue _ _) as [[res g]|]; [|done]. rewrite !bind_Some_eq.
  destruct g as [g|]; [|done]. rewrite !bind_Some_eq. destruct (mp_task mp) as [t|]; [|done].
  cbn [w_taskctl set_fifos settle set_taskctl tasks0 settled].
  destruct ((tasks0 (w_taskctl w))$[t]) as [task|] eqn:Et; [|done]. rewrite !bind_Some_eq.
  destruct (Z.eqb_spec (t_flags task) MPROCESS_FLAGS_ALLOCATED) as [Hf|]; [|done].
  assert (Hne : t_flags task <> MPROCESS_FLAGS_FREE) by (rewrite Hf; done).
  rewrite (settled_run _ _ _ task) by (try done; by apply (lb_tasks _ _ Hb _ _ Et)).
  destruct (mprocess_task_run (w_taskctl w) (Some t) (-1) 0) as [tc'|] eqn:Er; [|done].
  cbn. split; [done|]. by eapply run_left_behind.
Qed.

#[global] Instance afloat_switch : SwitchInv afloat.
Proof.
  split.
  - intros irq w (lv & qs & Hb & Hw). exists lv, qs. rewrite ports_taskctl. split; [done|]. rewrite settle_ports.
    by apply (world_ok_same (settle lv w)); [apply ports_taskctl|apply ports_fifos|].
  - intros f data w (lv & qs & Hb & Hw) Hf.
    destruct (enqueue_ok (settle lv w) f data) as (w1 & E & [qs1 Hw1] & Hs); [by exists qs|done|].
    unfold enqueue_data in *. pose proof (settle_enqueue lv f data w Hb) as He.
    destruct (mpfifo32_enqueue f data w) as [[r w']|]; [|by rewrite He in E]. destruct He as [He Hb'].
    rewrite He in E. cbn in E. injection E as <-. exists w'. split_and!; [done|by exists lv, qs1|exact Hs].
  - intros w (lv & qs & Hb & Hw).
    assert (exists tc1 cur d next, autoswitch_next (w_taskctl w) = Some (tc1, cur, Some d)
      /\ (tasks0 tc1)$[d] = Some next /\ left_behind tc1 (now_lv tc1)
      /\ world_ok (set_taskctl w (settled (now_lv tc1) tc1)) qs) as (tc1 & cur & d & next & E & En & Hb1 & Hw1).
    { destruct (lb_now _ _ Hb) as [[En Hl]|[En Ec]]; [|by eapply first_switch].
      destruct (lb_level _ _ Hb) as (tl & El & Hr & _).
      pose proof (settled_next lv _ tl El Hr Hl En) as Hx.
      destruct (next_task_ok _ _ Hw) as (tc' & cur & d & next & E & Enx & Hw').
      cbn [w_taskctl settle set_taskctl] in E.
      destruct (autoswitch_next (w_taskctl w)) as [[[tc1 cur1] next1]|]; [|by rewrite Hx in E].
      destruct Hx as (Hx & Hn & El1 & Et1). rewrite Hx in E. injection E as <- <- ->.
      exists tc1, cur1, d, next. split_and!; [done|done| |exact Hw'].
      constructor; [|rewrite Et1; apply (lb_tasks _ _ Hb)|by left].
      exists tl. split_and!; [done|done|lia]. }
    exists tc1, cur, d, next. split_and!; [done|done| |].
    + by exists (now_lv tc1), qs.
    + intros cs. exists (now_lv tc1), qs. split; [done|]. by apply (world_ok_same (set_taskctl w (settled (now_lv tc1) tc1))).
Qed.
