(* ===== verification/KernelBoot.v ===== *)
(** * The kernel starts, src/src/kernel.c

    [kernel_start] is [kernel_main] from the migration of the descriptor table to
    the loop of the first task.  The theorem says that it gets there, with the
    four tasks on their levels, and that from there on no sequence of interrupts
    makes the kernel fault: the interface [SwitchInv] of [SchedSpec], discharged by
    [KernelStart], at the state that the kernel really starts in. *)
From Stdlib Require Import ZArith Lia Ascii String.
From stdpp Require Import base option list gmap numbers.
From S2P Require Import Prelude Kbc Stream Dlist Fifo Heapdl HeapdlInv HeapdlSpec Allocator Memory Process ProcessInv ProcessSpec Timer TimerInv TimerSpec Descriptors Sched SchedSpec Draw Printf Video Input Selftest Kernel KernelStart.

Set Default Proof Using "Type".

(** ** Tasks in the order in which they are allocated *)

(** The first [n] tasks are running, the others are free, and each has the
    selector of its own segment. *)
Record fresh (tc : TASKCTL) (n : Z) (qs : list (list Z)) : Prop := {
  fr_core : sched_core tc qs;
  fr_tasks : forall u tu, (tasks0 tc)$[u] = Some tu ->
    (u < n -> t_flags tu = MPROCESS_FLAGS_RUNNING) /\ (n <= u -> t_flags tu = MPROCESS_FLAGS_FREE);
  fr_selectors : forall u tu, (tasks0 tc)$[u] = Some tu ->
    t_gdtSegmentSelector tu = (OS_MPROCESS_TSS_GDT_INDEX_START + u) * 8
}.

Lemma alloc_fresh tc n qs :
  fresh tc n qs -> 0 <= n < OS_MPROCESS_TASK_MAX ->
  exists task, (tasks0 tc)$[n] = Some task /\ t_flags task = MPROCESS_FLAGS_FREE
    /\ mprocess_task_alloc tc
       = Some (Some n, mkTASKCTL (now_lv tc) (lv_change tc) (tc_level tc)
                         (<[Z.to_nat n := alloc_task task]> (tasks0 tc))).
Proof.
  intros [Hc Ht _] Hn.
  destruct (lookupZ_is_Some (tasks0 tc) n) as [tn En]; [rewrite (sc_ntasks _ _ Hc); lia|].
  pose proof (proj2 (Ht _ _ En) ltac:(lia)) as Hfree.
  destruct (task_alloc_spec tc qs Hc) as [(t & task & Et & Hf & Hlow & E)|[Hall _]].
  - assert (t = n) as ->.
    { destruct (Z.lt_trichotomy t n) as [Hlt|[?|Hgt]]; [|done|by destruct (Hlow _ _ Hgt En)].
      destruct (Ht _ _ Et) as [Hrun _]. rewrite (Hrun Hlt) in Hf. done. }
    by exists task.
  - by destruct (Hall _ _ En).
Qed.

(** A new task is set up by [f] and put to run. *)
Lemma spawn_fresh tc n qs f level priority lv :
  fresh tc n qs -> 0 <= n < OS_MPROCESS_TASK_MAX ->
  (forall t, t_flags (f t) = t_flags t /\ t_gdtSegmentSelector (f t) = t_gdtSegmentSelector t) ->
  (forall t, 0 <= t_level t < OS_MPROCESS_TASKLEVELS_MAX ->
     0 <= t_level (f t) < OS_MPROCESS_TASKLEVELS_MAX
     /\ (if level <? 0 then t_level (f t) else level) = lv) ->
  lv < OS_MPROCESS_TASKLEVELS_MAX ->
  (forall q, qs !! Z.to_nat lv = Some q -> (length q < Z.to_nat OS_MPROCESS_TASKLEVEL_TASKS_MAX)%nat) ->
  exists tc1 tc2 tc3, mprocess_task_alloc tc = Some (Some n, tc1) /\ upd_task tc1 n f = Some tc2
    /\ mprocess_task_run tc2 (Some n) level priority = Some tc3
    /\ fresh tc3 (n + 1) (push qs (Z.to_nat lv) n) /\ now_lv tc3 = now_lv tc /\ lv_change tc3 = true.
Proof.
  intros Hfr Hn Hf Hl Hlv Hcap. destruct (alloc_fresh _ _ _ Hfr Hn) as (task & Et & Hfree & Ea).
  destruct Hfr as [Hc Ht Hs].
  pose proof (sc_level _ _ Hc _ _ Et) as Hlt.
  set (tn := f (alloc_task task)).
  assert (Hfn : t_flags tn = MPROCESS_FLAGS_ALLOCATED) by (unfold tn; by rewrite (proj1 (Hf _))).
  destruct (Hl (alloc_task task)) as [Hln Hle]; [exact Hlt|]. fold tn in Hln, Hle.
  assert (Hc1 : sched_core (mkTASKCTL (now_lv tc) (lv_change tc) (tc_level tc)
                  (<[Z.to_nat n := alloc_task task]> (tasks0 tc))) qs).
  { apply (core_idle_task _ _ Hc n task); [done|by rewrite Hfree|done|exact Hlt]. }
  assert (Et1 : (<[Z.to_nat n := alloc_task task]> (tasks0 tc))$[n] = Some (alloc_task task))
    by (apply lookupZ_insert_eq; by eapply lookupZ_lt).
  eexists _. set (tc2 := mkTASKCTL (now_lv tc) (lv_change tc) (tc_level tc) (<[Z.to_nat n := tn]> (tasks0 tc))).
  assert (Hc2 : sched_core tc2 qs).
  { apply (core_idle_task _ _ Hc n task); [done|by rewrite Hfree|by rewrite Hfn|exact Hln]. }
  assert (Et2 : (tasks0 tc2)$[n] = Some tn) by (apply lookupZ_insert_eq; by eapply lookupZ_lt).
  destruct (run_spec tc2 qs Hc2 n tn level priority Et2) as (tc3 & Er & Hc3 & Hlc & Hnow & T3).
  { by rewrite Hle. }
  { by rewrite Hle. }
  rewrite Hle in Hc3, T3.
  exists tc2, tc3. split_and!; [exact Ea| |exact Er| |exact Hnow|exact Hlc].
  { rewrite (upd_task_eq _ _ (alloc_task task)) by done. cbn. by rewrite insert_same. }
  assert (Hrun : t_flags (ProcessSpec.run_task tn lv priority) = MPROCESS_FLAGS_RUNNING
    /\ t_gdtSegmentSelector (ProcessSpec.run_task tn lv priority) = t_gdtSegmentSelector task).
  { unfold ProcessSpec.run_task. destruct (priority >? 0); cbn; rewrite Hfn; cbn; (split; [done|]); unfold tn; by rewrite (proj2 (Hf _)). }
  constructor.
  - unfold run_queues in Hc3. rewrite Hfn in Hc3. exact Hc3.
  - intros u tu. rewrite T3. cbn [tasks0 tc2]. rewrite insert_same, (lookup_upd_task _ _ task) by done.
    case_decide as Hd; [subst u; intros [= <-]; split; [intros _; apply Hrun|lia]|].
    intros Eu. destruct (Ht u tu Eu) as [H1 H2]. split; intros; [apply H1|apply H2]; lia.
  - intros u tu. rewrite T3. cbn [tasks0 tc2]. rewrite insert_same, (lookup_upd_task _ _ task) by done.
    case_decide as Hd; [subst u; intros [= <-]; rewrite (proj2 Hrun); by apply Hs|]. apply Hs.
Qed.

(** ** The first task, on concrete data *)
Definition fresh_task_check (n : Z) (i : nat) (t : TASK) : bool :=
  (t_flags t =? (if Z.of_nat i <? n then MPROCESS_FLAGS_RUNNING else MPROCESS_FLAGS_FREE))
  && (t_gdtSegmentSelector t =? (OS_MPROCESS_TSS_GDT_INDEX_START + Z.of_nat i) * 8).

Definition fresh_check (tc : TASKCTL) (n : Z) (qs : list (list Z)) : bool :=
  sched_check tc qs && forallb id (imap (fresh_task_check n) (tasks0 tc)).

Lemma fresh_check_sound tc n qs : fresh_check tc n qs = true -> fresh tc n qs.
Proof.
  unfold fresh_check. rewrite andb_true_iff. intros [Hs%sched_check_sound Ht].
  pose proof (forallb_imap _ _ Ht) as Hi.
  assert (Hz : forall u tu, (tasks0 tc)$[u] = Some tu -> 0 <= u /\ fresh_task_check n (Z.to_nat u) tu = true)
    by (intros u tu [H0 Eu]%lookupZ_Some; auto).
  constructor; [done| |]; intros u tu [H0 H]%Hz; unfold fresh_task_check in H;
    apply andb_true_iff in H as [H1%Z.eqb_eq H2%Z.eqb_eq]; rewrite Z2Nat.id in H1, H2 by done; [|done].
  rewrite H1. destruct (Z.ltb_spec u n); split; intros; (done || lia).
Qed.

(** What [mprocess_init] does to its own task before the others exist. *)
Definition init_current (t : TASK) : TASK := set_level (set_priority (set_flags t MPROCESS_FLAGS_RUNNING) 2) 0.

Definition qs_first : list (list Z) := [0] :: replicate 9 [].

Lemma first_task_ok :
  exists tcA tcB tcC tcD t, mprocess_task_alloc taskctl_init = Some (Some 0, tcA)
    /\ upd_task tcA 0 init_current = Some tcB /\ __mprocess_task_add tcB 0 = Some tcC
    /\ __mprocess_task_update_currentlv tcC = Some tcD /\ (tasks0 tcD)$[0] = Some t
    /\ fresh tcD 1 qs_first /\ now_lv tcD = 0.
Proof.
  assert (H : match mprocess_task_alloc taskctl_init with
    | Some (Some t, tcA) => (t =? 0) &&
        match upd_task tcA 0 init_current with
        | Some tcB => match __mprocess_task_add tcB 0 with
          | Some tcC => match __mprocess_task_update_currentlv tcC with
            | Some tcD => fresh_check tcD 1 qs_first && (now_lv tcD =? 0)
            | None => false end
          | None => false end
        | None => false end
    | _ => false end = true) by (vm_compute; reflexivity).
  destruct (mprocess_task_alloc taskctl_init) as [[[t|] tcA]|]; [|done..].
  apply andb_true_iff in H as [->%Z.eqb_eq H].
  destruct (upd_task tcA 0 init_current) as [tcB|] eqn:EB; [|done].
  destruct (__mprocess_task_add tcB 0) as [tcC|] eqn:EC; [|done].
  destruct (__mprocess_task_update_currentlv tcC) as [tcD|] eqn:ED; [|done].
  apply andb_true_iff in H as [Hf%fresh_check_sound Hn%Z.eqb_eq].
  destruct (lookupZ_is_Some (tasks0 tcD) 0) as [t0 E0].
  { rewrite (sc_ntasks _ _ (fr_core _ _ _ Hf)). done. }
  by exists tcA, tcB, tcC, tcD, t0.
Qed.

(** ** The descriptors of the tasks *)
Definition tss_descriptor (taskctl i : Z) : GDT32SD :=
  gdt_set_segmdesc sd_zero sizeof_TSS32 (tss_addr taskctl i) 0x89.

Lemma append_loop taskctl (n : nat) i g :
  for_loop n i (fun i g => '(_, g) ← gdt_append g (tss_descriptor taskctl i); Some g) g
  = snd <$> gdt_append_all g (tss_descriptor taskctl <$> seqZ i (Z.of_nat n)).
Proof.
  revert i g. induction n as [|n IH]; intros i g; [done|].
  rewrite seqZ_cons by lia. cbn [for_loop fmap list_fmap gdt_append_all].
  destruct (gdt_append g _) as [[s g1]|]; [|done]. cbn [mbind option_bind]. rewrite IH.
  replace (Z.succ i) with (i + 1) by lia. replace (Z.pred (Z.of_nat (S n))) with (Z.of_nat n) by lia.
  by destruct (gdt_append_all g1 _) as [[ss g2]|].
Qed.

Lemma tss_loop taskctl g :
  gdt_repr g 3 ->
  exists g', for_range 0 OS_MPROCESS_TASK_MAX (fun i g =>
      '(_, g) ← gdt_append g (gdt_set_segmdesc sd_zero sizeof_TSS32 (tss_addr taskctl i) 0x89); Some g) g = Some g'
    /\ forall i, 0 <= i < OS_MPROCESS_TASK_MAX -> (gdts g')$[3 + i] = Some (tss_descriptor taskctl i).
Proof.
  intros Hg. destruct (gdt_append_all_spec (tss_descriptor taskctl <$> seqZ 0 OS_MPROCESS_TASK_MAX) g 3 Hg)
    as (g' & E & _ & Hd).
  { rewrite length_fmap, length_seqZ. done. }
  exists g'. split.
  - unfold for_range. fold (tss_descriptor taskctl).
    pose proof (append_loop taskctl (Z.to_nat OS_MPROCESS_TASK_MAX) 0 g) as Hl. rewrite Z2Nat.id in Hl by done.
    rewrite E in Hl. exact Hl.
  - intros i Hi. apply lookupZ_Some. split; [lia|]. rewrite Hd. destruct Hg as (_ & Hlen & _).
    rewrite lookup_app_r by (rewrite length_take; lia). rewrite length_take.
    replace (Z.to_nat (3 + i) - 3 `min` length (gdts g))%nat with (Z.to_nat i) by lia.
    rewrite lookup_app_l by (rewrite length_fmap, length_seqZ; lia).
    rewrite list_lookup_fmap, lookup_seqZ_lt by lia. cbn. do 2 f_equal. lia.
Qed.

(** ** Arming a timer that is allocated *)
Lemma arm_ok c l fr t timeout data :
  timer_repr c l fr -> fr <> [] -> flag c t = Some TIMER_FLAGS_ALLOCATED ->
  exists c' l', timer_settimer c (Some t) timeout data = Some c' /\ timer_repr c' l' fr
    /\ tick c' = tick c /\ tssTimer c' = tssTimer c
    /\ forall i tm, (timer c')$[i] = Some tm -> exists tm0, (timer c)$[i] = Some tm0 /\ tm_fifo tm = tm_fifo tm0.
Proof.
  intros Hr Hne Hf. destruct (flag_timer _ _ _ Hf) as (tm & Etm & Hfl).
  destruct (by_tick_split c l (u32 (tick c + timeout)) (tr_sorted _ _ _ Hr)) as (l1 & l2 & -> & H1 & H2).
  destruct (settimer_allocated c l1 l2 fr t tm timeout data Hr Etm Hfl H1 H2) as (c1 & Es & R1 & K1 & S1 & T1).
  { intros [_ E]%app_nil. done. }
  exists c1, (l1 ++ t :: l2). split_and!; try done.
  intros i tmi Ei. rewrite (timer_upd _ _ _ _ _ Etm T1) in Ei. case_decide; [|by exists tmi].
  injection Ei as <-. subst i. by exists tm.
Qed.

(** ** [mprocess_init] *)

(** An allocation returns whatever the heap holds; NULL is a possible answer. *)
Lemma kzalloc_any h m bs size :
  heapdl_live h bs -> 0 <= size -> size + OS_HEAP_BLOCK_SIZE <= 2 ^ 32 ->
  exists p h' m' bs', kzalloc h m size = Some (p, h', m') /\ heapdl_live h' bs'
    /\ exists h1, kmalloc h size = Some (p, h1) /\ h1 = h'.
Proof.
  intros Hl H0 H1. destruct (kmalloc_live h bs size Hl H0 H1) as (p & h' & E & Hc). unfold kzalloc. rewrite E, bind_Some_eq.
  destruct Hc as [[-> ->]|(bs1 & bs2 & n & -> & Hn & Hl')].
  - exists 0, h, m, bs. split_and!; [done|done|by exists h].
  - destruct (live_block_range _ _ p n Hl') as [Hp Hpn]; [rewrite elem_of_app, elem_of_cons; tauto|].
    destruct (Z.eqb_spec p 0); [lia|].
    destruct (kmemset_at_spec m p 0 size) as (m' & -> & _); [lia..|].
    eexists p, h', m', _. split_and!; [done|exact Hl'|by exists h'].
Qed.

(** The state of the timers and the heap that start-up needs and keeps. *)
Record timers_ready (c : TIMERCTL) (fr : list Z) (fifos : Z -> option Z) : Prop := {
  td_repr : exists l, timer_repr c l fr;
  td_fifos : forall i tm, (timer c)$[i] = Some tm -> tm_fifo tm = fifos i;
  td_tick : 0 <= tick c
}.

Lemma arm_ready c fr fifos t timeout data :
  timers_ready c fr fifos -> fr <> [] -> flag c t = Some TIMER_FLAGS_ALLOCATED ->
  exists c', timer_settimer c (Some t) timeout data = Some c' /\ timers_ready c' fr fifos
    /\ tick c' = tick c /\ tssTimer c' = tssTimer c.
Proof.
  intros [[l Hr] Hf H0] Hne Hfl. destruct (arm_ok c l fr t timeout data Hr Hne Hfl) as (c' & l' & E & R & K & T & F).
  exists c'. split_and!; [done| |done|done]. constructor; [by exists l'| |by rewrite K].
  intros i tm Ei. destruct (F i tm Ei) as (tm0 & E0 & ->). by eapply Hf.
Qed.

(** What it does to the idle task. *)
Definition idle_task (idle_entry stack : Z) (t : TASK) : TASK :=
  let s := t_tss t in
  mkTASK (t_gdtSegmentSelector t) (t_flags t) 1 (OS_MPROCESS_TASKLEVELS_MAX - 1)
    (mkTSS32 (tss_link s) (tss_esp0 s) (tss_ss0 s) (tss_esp1 s) (tss_ss1 s) (tss_esp2 s)
       (tss_ss2 s) (tss_cr3 s) idle_entry (tss_eflags s) (tss_eax s) (tss_ecx s) (tss_edx s)
       (tss_ebx s) (u32 (stack + 4096 - 4)) (tss_ebp s) (tss_esi s) (tss_edi s)
       OS_GDT_KERNEL_DATA_SEGMENT_SELECTOR OS_GDT_KERNEL_CODE_SEGMENT_SELECTOR
       OS_GDT_KERNEL_DATA_SEGMENT_SELECTOR OS_GDT_KERNEL_DATA_SEGMENT_SELECTOR
       OS_GDT_KERNEL_DATA_SEGMENT_SELECTOR OS_GDT_KERNEL_DATA_SEGMENT_SELECTOR
       (tss_ldtr s) (tss_iopb s) (tss_ssp s)).

Definition qs_init : list (list Z) := [0] :: replicate 8 [] ++ [[1]].

Section start.
Context (w : world) (c : TIMERCTL) (bs : list (Z * Z)) (fr : list Z) (fifos : Z -> option Z) (t taskctl : Z) (h1 : heap).
Context (Hheap : heapdl_live (w_heap w) bs).
Context (Htc : kmalloc (w_heap w) sizeof_TASKCTL = Some (taskctl, h1)) (Hnz : taskctl <> 0).
Context (Hg : gdt_repr (w_gdt w) 3).
Context (Htm : timers_ready c fr fifos) (Hfr : fr <> []).
Context (Ht : tssTimer c = Some t) (Hfl : flag c t = Some TIMER_FLAGS_ALLOCATED).

Lemma mprocess_init_ok idle_entry :
  exists c' w' bs', mprocess_init c w idle_entry = Some (0, c', w')
    /\ fresh (w_taskctl w') 2 qs_init /\ now_lv (w_taskctl w') = 0
    /\ heapdl_live (w_heap w') bs' /\ w_fifos w' = w_fifos w
    /\ (forall i, 0 <= i < OS_MPROCESS_TASK_MAX -> (gdts (w_gdt w'))$[3 + i] = Some (tss_descriptor taskctl i))
    /\ timers_ready c' fr fifos /\ tick c' = tick c /\ tssTimer c' = tssTimer c.
Proof using Hheap Htc Hnz Hg Htm Hfr Ht Hfl.
  unfold mprocess_init.
  destruct (kzalloc_any (w_heap w) (w_mem w) bs sizeof_TASKCTL Hheap) as (p & hp & mp & bs1 & E1 & Hl1 & hq & Eq & ->); [done|done|].
  assert (p = taskctl) as -> by congruence. rewrite E1, bind_Some_eq.
  destruct (Z.eqb_spec taskctl 0) as [|_]; [done|].
  destruct (tss_loop taskctl (w_gdt w) Hg) as (g' & Eg & Hd). change (w_gdt (set_heap w hp mp)) with (w_gdt w).
  rewrite Eg, bind_Some_eq.
  destruct first_task_ok as (tcA & tcB & tcC & tcD & t0 & EA & EB & EC & ED & E0 & HD & HnD).
  rewrite EA, bind_Some_eq, bind_Some_eq. unfold init_current in EB. rewrite EB, bind_Some_eq, EC, bind_Some_eq, ED, bind_Some_eq, E0, bind_Some_eq.
  destruct (arm_ready c fr fifos t (t_priority t0) 0 Htm Hfr Hfl) as (c' & Ec & Hc' & K & S).
  unfold timer_get_tssTimer. rewrite Ht, Ec, bind_Some_eq.
  destruct (kmalloc_live hp bs1 4096 Hl1) as (stack & hs & Es & Hlive); [done|done|].
  assert (exists bs2, heapdl_live hs bs2) as [bs2 Hl2] by (destruct Hlive as [[_ ->]|(? & ? & ? & _ & _ & ?)]; eauto).
  destruct (spawn_fresh tcD 1 qs_first (idle_task idle_entry stack) (-1) 0 (OS_MPROCESS_TASKLEVELS_MAX - 1) HD)
    as (tc1 & tc2 & tc3 & Ea & Eu & Er & H3 & Hn3 & _); [done|done|done|done| |].
  { intros q Hq. vm_compute in Hq. injection Hq as <-. apply Nat.ltb_lt. vm_compute. reflexivity. }
  rewrite Ea, bind_Some_eq, bind_Some_eq. cbn [w_heap set_heap set_gdt]. rewrite Es, bind_Some_eq. cbn beta iota.
  unfold idle_task in Eu. rewrite Eu, bind_Some_eq, Er, bind_Some_eq.
  assert (Eq' : push qs_first (Z.to_nat (OS_MPROCESS_TASKLEVELS_MAX - 1)) 1 = qs_init) by (vm_compute; reflexivity).
  rewrite Eq' in H3. exists c', (set_taskctl (set_heap (set_gdt (set_heap w hp mp) g') hs mp) tc3), bs2.
  split; [done|]. split; [exact H3|]. split; [exact (eq_trans Hn3 HnD)|]. split; [exact Hl2|]. split; [done|].
  split; [exact Hd|]. split; [exact Hc'|]. split; congruence.
Qed.
End start.

(** ** The three tasks *)

(** A task that runs is put on another level. *)
Lemma move_fresh tc n qs t task level priority :
  fresh tc n qs -> (tasks0 tc)$[t] = Some task -> t < n -> 0 <= level < OS_MPROCESS_TASKLEVELS_MAX ->
  (forall q, qs !! Z.to_nat level = Some q -> (length q < Z.to_nat OS_MPROCESS_TASKLEVEL_TASKS_MAX)%nat) ->
  exists tc', mprocess_task_run tc (Some t) level priority = Some tc'
    /\ fresh tc' n (run_queues qs t task level) /\ now_lv tc' = now_lv tc /\ lv_change tc' = true.
Proof.
  intros [Hc Ht Hs] Et Hlt Hlv Hcap. assert (El : (if level <? 0 then t_level task else level) = level).
  { destruct (Z.ltb_spec level 0); [lia|done]. }
  destruct (run_spec tc qs Hc t task level priority Et) as (tc' & Er & Hc' & Hlc & Hnow & T); rewrite ?El; [lia|exact Hcap|].
  rewrite El in Hc', T. exists tc'. split_and!; [done| |done|done].
  pose proof (proj1 (Ht _ _ Et) Hlt) as Hf.
  assert (Hx : t_flags (ProcessSpec.run_task task level priority) = MPROCESS_FLAGS_RUNNING
    /\ t_gdtSegmentSelector (ProcessSpec.run_task task level priority) = t_gdtSegmentSelector task).
  { unfold ProcessSpec.run_task. destruct (priority >? 0); cbn; rewrite Hf; cbn; destruct (_ =? _); done. }
  constructor; [done| |]; intros u tu; rewrite T, (lookup_upd_task _ _ task) by done; (case_decide as Hd; [|auto]);
    subst u; intros [= <-]; destruct Hx as [Hx1 Hx2]; [|rewrite Hx2; by apply Hs].
  rewrite Hx1. split; [done|lia].
Qed.

Lemma start_task_ok w bs n qs eip room level priority :
  fresh (w_taskctl w) n qs -> 0 <= n < OS_MPROCESS_TASK_MAX -> heapdl_live (w_heap w) bs ->
  0 <= level < OS_MPROCESS_TASKLEVELS_MAX ->
  (forall q, qs !! Z.to_nat level = Some q -> (length q < Z.to_nat OS_MPROCESS_TASKLEVEL_TASKS_MAX)%nat) ->
  exists esp w1 bs1 tc, start_task w eip room = Some (n, esp, w1)
    /\ mprocess_task_run (w_taskctl w1) (Some n) level priority = Some tc
    /\ fresh tc (n + 1) (push qs (Z.to_nat level) n) /\ now_lv tc = now_lv (w_taskctl w) /\ lv_change tc = true
    /\ heapdl_live (w_heap w1) bs1 /\ w_fifos w1 = w_fifos w /\ w_gdt w1 = w_gdt w.
Proof.
  intros Hfr Hn Hl Hlv Hcap. unfold start_task.
  destruct (kzalloc_any (w_heap w) (w_mem w) bs (4096 * 16) Hl) as (stack & h & m & bs1 & E & Hl1 & _); [done|done|].
  destruct (spawn_fresh _ n qs (task_entry (u32 (stack + 4096 * 16 - room)) eip) level priority level Hfr Hn)
    as (tc1 & tc2 & tc3 & Ea & Eu & Er & H3 & Hn3 & Hc3); [done| |lia|exact Hcap|].
  { intros t Hlt. split; [exact Hlt|]. destruct (Z.ltb_spec level 0); [lia|done]. }
  rewrite Ea, bind_Some_eq, E, !bind_Some_eq, Eu, bind_Some_eq.
  exists (u32 (stack + 4096 * 16 - room)), (set_taskctl (set_heap w h m) tc2), bs1, tc3. by split_and!.
Qed.

Definition qs_started : list (list Z) := [[]; [0]; [2; 3]] ++ replicate 6 [] ++ [[1]].

Section start.
Context (w : world) (c : TIMERCTL) (bs : list (Z * Z)) (fr : list Z) (fifos : Z -> option Z) (t taskctl : Z) (h1 : heap).
Context (Hheap : heapdl_live (w_heap w) bs).
Context (Htc : kmalloc (w_heap w) sizeof_TASKCTL = Some (taskctl, h1)) (Hnz : taskctl <> 0).
Context (Hg : gdt_repr (w_gdt w) 3).
Context (Htm : timers_ready c fr fifos) (Hfr : fr <> []).
Context (Ht : tssTimer c = Some t) (Hfl : flag c t = Some TIMER_FLAGS_ALLOCATED).

Lemma start_tasks_ok idle_entry tss4_main console_main console_sheet v mv sh con :
  exists c' w', start_tasks idle_entry tss4_main console_main console_sheet (mkKERNEL c w v mv sh con)
                = Some (0, 2, 3, mkKERNEL c' w' v mv sh con)
    /\ fresh (w_taskctl w') 4 qs_started /\ now_lv (w_taskctl w') = 0 /\ lv_change (w_taskctl w') = true
    /\ w_fifos w' = w_fifos w
    /\ (forall i, 0 <= i < OS_MPROCESS_TASK_MAX -> (gdts (w_gdt w'))$[3 + i] = Some (tss_descriptor taskctl i))
    /\ timers_ready c' fr fifos /\ tick c' = tick c /\ tssTimer c' = tssTimer c.
Proof using Hheap Htc Hnz Hg Htm Hfr Ht Hfl.
  unfold start_tasks. cbn [k_timers k_world].
  destruct (mprocess_init_ok w c bs fr fifos t taskctl h1 Hheap Htc Hnz Hg Htm Hfr Ht Hfl idle_entry)
    as (c' & wi & bsi & Ei & Fi & Ni & Li & FFi & Gi & Ti & Ki & Si).
  rewrite Ei, bind_Some_eq. unfold run_task.
  destruct (sc_queued _ _ (fr_core _ _ _ Fi) 0%nat [0] 0) as (task0 & E0 & F0 & L0); [done|by apply list_elem_of_singleton|].
  destruct (move_fresh _ 2 qs_init 0 task0 1 2 Fi E0) as (tc1 & E1 & F1 & N1 & C1); [done|done| |].
  { intros q [= <-]. apply Nat.ltb_lt. reflexivity. }
  assert (Q1 : run_queues qs_init 0 task0 1 = [[]; [0]] ++ replicate 7 [] ++ [[1]]).
  { unfold run_queues. rewrite F0, L0. reflexivity. }
  rewrite Q1 in F1. rewrite E1, !bind_Some_eq. set (w1 := set_taskctl wi tc1).
  destruct (start_task_ok w1 bsi 2 _ tss4_main 4 2 1 F1) as (esp2 & w2 & bs2 & tc2 & E2 & R2 & F2 & N2 & C2 & L2 & FF2 & G2);
    [done|exact Li|done|intros q [= <-]; apply Nat.ltb_lt; reflexivity|].
  rewrite E2, bind_Some_eq, R2, !bind_Some_eq. set (w2' := set_taskctl w2 tc2).
  assert (Q2 : push ([[]; [0]] ++ replicate 7 [] ++ [[1]]) (Z.to_nat 2) 2 = [[]; [0]; [2]] ++ replicate 6 [] ++ [[1]]) by reflexivity.
  rewrite Q2 in F2.
  destruct (start_task_ok w2' bs2 3 _ console_main 8 2 2 F2) as (esp3 & w3 & bs3 & tc3 & E3 & R3 & F3 & N3 & C3 & L3 & FF3 & G3);
    [done|exact L2|done|intros q [= <-]; apply Nat.ltb_lt; reflexivity|].
  rewrite E3, bind_Some_eq. cbn [w_taskctl set_mem set_heap]. rewrite R3, !bind_Some_eq.
  exists c', (set_taskctl (set_mem w3 (store32 (w_mem w3) (esp3 + 4) console_sheet)) tc3).
  split; [done|]. split; [exact F3|]. split; [exact (eq_trans N3 (eq_trans N2 (eq_trans N1 Ni)))|]. split; [exact C3|].
  split; [exact (eq_trans FF3 (eq_trans FF2 FFi))|]. split; [|done].
  intros i Hi. change (w_gdt (set_taskctl _ _)) with (w_gdt w3). rewrite G3, <- (Gi i Hi).
  change (w_gdt w2') with (w_gdt w2). by rewrite G2.
Qed.
End start.

(** ** The state the tasks start in *)
Lemma fresh_busy tc n qs u : fresh tc n qs -> busy tc u = true -> u < n.
Proof.
  intros Hfr. unfold busy. destruct ((tasks0 tc)$[u]) as [tu|] eqn:Eu; [|done].
  destruct (Z.lt_ge_cases u n); [done|]. by rewrite (proj2 (fr_tasks _ _ _ Hfr _ _ Eu)).
Qed.

Lemma fresh_few tc n qs : fresh tc n qs -> (length (busy_tasks tc) <= Z.to_nat n)%nat.
Proof.
  intros Hfr. replace (Z.to_nat n) with (length (seqZ 0 n)) by apply length_seqZ.
  apply submseteq_length, NoDup_submseteq; [apply list.NoDup_filter, NoDup_seqZ|].
  intros u [Hb Hu]%list_elem_of_filter. apply elem_of_seqZ in Hu. apply elem_of_seqZ.
  pose proof (fresh_busy _ _ _ _ Hfr Hb). lia.
Qed.

Lemma fresh_above tc n qs : fresh tc n qs -> qs !! 0%nat = Some [] ->
  forall t task, (tasks0 tc)$[t] = Some task -> t_flags task <> MPROCESS_FLAGS_FREE -> 1 <= t_level task.
Proof.
  intros Hfr H0 t task Et Hf. destruct (fr_tasks _ _ _ Hfr _ _ Et) as [H1 H2].
  pose proof (sc_level _ _ (fr_core _ _ _ Hfr) _ _ Et) as Hl.
  destruct (Z.lt_ge_cases t n) as [Hlt|Hge]; [|by destruct Hf; apply H2].
  destruct (sc_running _ _ (fr_core _ _ _ Hfr) _ _ Et (H1 Hlt)) as (q & Hq & Hin).
  destruct (decide (t_level task = 0)) as [E|]; [|lia]. rewrite E in Hq.
  change (Z.to_nat 0) with 0%nat in Hq. rewrite H0 in Hq. injection Hq as <-. by apply elem_of_nil in Hin.
Qed.

Lemma settled_core tc qs lv :
  sched_core tc qs -> qs !! 0%nat = Some [] -> 0 <= lv < OS_MPROCESS_TASKLEVELS_MAX -> sched_core (settled lv tc) qs.
Proof.
  intros Hc H0 Hlv. constructor; cbn; try apply Hc; [|exact Hlv].
  rewrite <- (list_insert_id qs 0%nat []) by done. apply Forall2_insert_r; [apply Hc|].
  constructor; cbn; [done|by rewrite length_replicate|by intros k t|lia].
Qed.

Lemma started_afloat w :
  fresh (w_taskctl w) 4 qs_started -> now_lv (w_taskctl w) = 0 -> lv_change (w_taskctl w) = true ->
  (forall a mp, w_fifos w !! a = Some mp -> (exists cap q, fifo_models (Some (mp_fifo32 mp)) cap q)
     /\ (mp_task mp = None \/ mp_task mp = Some 0)) ->
  afloat w.
Proof.
  intros Hfr Hn Hlc Hf. pose proof (fr_core _ _ _ Hfr) as Hc. exists 1, qs_started. split.
  - constructor; [|by eapply fresh_above|by right].
    destruct (level_of _ _ Hc 0 []) as (tl & Etl & R); [done|done|]. apply lookupZ_Some in Etl as [_ Etl].
    exists tl. split; [exact Etl|]. split; [apply (tr_running _ _ R)|]. intros _.
    pose proof (tr_now _ _ R). apply lookupZ_is_Some. rewrite (tr_cap _ _ R).
    change (Z.of_nat (Z.to_nat OS_MPROCESS_TASKLEVEL_TASKS_MAX)) with 100. cbn [length] in *. lia.
  - constructor; cbn [settle w_taskctl w_fifos set_taskctl].
    + split; [by apply settled_core|]. cbn. by rewrite Hlc.
    + by exists [0].
    + pose proof (fresh_few _ _ _ Hfr) as Hl. unfold busy_tasks, busy in *. cbn [settled tasks0]. etransitivity; [exact Hl|].
      apply Nat.leb_le. reflexivity.
    + intros a mp Ha. destruct (Hf a mp Ha) as [Hm Ht]. split; [exact Hm|]. intros t Et.
      destruct Ht as [Ht|Ht]; [congruence|]. assert (t = 0) as -> by congruence.
      destruct (sc_queued _ _ Hc 1%nat [0] 0) as (task & E0 & F0 & _); [done|by apply list_elem_of_singleton|].
      unfold busy. cbn [settled tasks0]. rewrite E0, F0. done.
Qed.

(** ** The migration of the descriptor table *)
Lemma gdt_migration_ok self gdtr0 src w :
  gdtr_limit gdtr0 = 23 -> (3 <= length src)%nat -> Z.of_nat (length (gdts (w_gdt w))) = 8192 ->
  exists g, gdt_migration self gdtr0 src w = Some (set_gdt w g) /\ gdt_repr g 3.
Proof.
  intros Hl Hs Hg. unfold gdt_migration, __gdt_import. rewrite Hl.
  change (Z.to_nat ((23 + 1) / sizeof_GDT32SD)) with 3%nat.
  replace (3 <=? length src)%nat with true by (symmetry; by apply Nat.leb_le).
  replace (3 <=? length (gdts (w_gdt w)))%nat with true by (symmetry; apply Nat.leb_le; lia).
  eexists. split; [reflexivity|]. split; [done|]. split; [|lia]. cbn [gdts].
  rewrite length_app, length_take, length_drop. lia.
Qed.

(** ** The loop of the first task *)
Lemma eventloop_init_ok keymousefifo fifoTSS3 buf k fr fifos mp :
  w_fifos (k_world k) !! keymousefifo = Some mp ->
  timers_ready (k_timers k) fr fifos -> (2 <= length fr)%nat ->
  exists timer c' f, eventloop_init keymousefifo fifoTSS3 buf 0 k
      = Some (Some timer, k_set_timers (k_set_world k (set_fifos (k_world k)
          (<[fifoTSS3 := f]> (<[keymousefifo := mkMPFIFO32 (mp_fifo32 mp) (mp_buf mp) (Some 0)]> (w_fifos (k_world k)))))) c')
    /\ fifo_models (Some (mp_fifo32 f)) 4096 [] /\ mp_task f = Some 0
    /\ tick c' = tick (k_timers k) /\ tssTimer c' = tssTimer (k_timers k)
    /\ timers_ready c' (without timer fr) (fun i => if decide (i = timer) then Some fifoTSS3 else fifos i)
    /\ without timer fr <> [].
Proof.
  intros Hmp [[l Hr] Hf H0] Hlen. unfold eventloop_init. rewrite Hmp, bind_Some_eq.
  pose proof (init_repr FIFO32_zero (replicate 4096 0) 4096 ltac:(done) ltac:(by rewrite length_replicate)) as Hm.
  unfold mpfifo32_init. cbn [mp_fifo32].
  destruct (fifo32_init (Some FIFO32_zero) (Some (replicate 4096 0)) 4096) as [g|] eqn:Eg; [|by destruct Hm as (? & ? & [=] & _)].
  rewrite !bind_Some_eq.
  destruct (alloc_spec (k_timers k) l fr Hr (Some fifoTSS3)) as [[-> _]|(t & tm & c1 & Hin & _ & Et & Ea & R1 & K1 & S1 & T1)];
    [by cbn in Hlen; lia|].
  cbn [k_timers k_set_world]. rewrite Ea, bind_Some_eq.
  assert (Hne : without t fr <> []).
  { pose proof (tr_ring _ _ _ Hr) as [ND _]. apply list_elem_of_split in Hin as (f1 & f2 & ->).
    apply list.NoDup_cons in ND as [_ ND]. apply list.NoDup_app in ND as (_ & _ & ND).
    apply list.NoDup_app in ND as (_ & D & ND). apply list.NoDup_cons in ND as [D2 _].
    unfold without. rewrite filter_out.
    - intros E. rewrite length_app in Hlen. cbn in Hlen. apply app_nil in E as [-> ->]. cbn in Hlen. lia.
    - rewrite elem_of_app. intros [H|H]; [|done]. apply (D t H). by apply elem_of_cons; left. }
  assert (Hfl : flag c1 t = Some TIMER_FLAGS_ALLOCATED).
  { unfold flag. rewrite T1, lookupZ_insert_eq by (by eapply lookupZ_lt). done. }
  destruct (arm_ready c1 (without t fr) (fun i => if decide (i = t) then Some fifoTSS3 else fifos i) t 100 1)
    as (c2 & E2 & H2 & K2 & S2); [|done|done|].
  { constructor; [by exists l| |lia]. intros i tmi. rewrite T1, lookupZ_insert by (by eapply lookupZ_lt).
    repeat case_decide; subst; try done; [intros [= <-]; done|]. apply Hf. }
  rewrite E2, bind_Some_eq. exists t, c2, (mkMPFIFO32 g buf (Some 0)).
  split; [done|]. split; [exact Hm|]. split; [done|]. split; [congruence|]. split; [congruence|]. by split.
Qed.

(** ** [kernel_main] from the migration of the descriptors on

    The stacks, entry points and static buffers are addresses. *)
Definition kernel_start (self : Z) (gdtr0 : GDTR32) (src : list GDT32SD)
    (idle_entry tss4_main console_main console_sheet keymousefifo fifoTSS3 fifobuf3 : Z) (k : KERNEL)
  : option (Z * Z * Z * option Z * KERNEL) :=
  w ← gdt_migration self gdtr0 src (k_world k);
  '(task3, task4, taskConsole, k) ← start_tasks idle_entry tss4_main console_main console_sheet (k_set_world k w);
  '(timer_1s, k) ← eventloop_init keymousefifo fifoTSS3 fifobuf3 task3 k;
  Some (task3, task4, taskConsole, timer_1s, k).

(** The state that the first half of [kernel_main] leaves: a heap with room for
    the task control block, an empty descriptor table beside the three entries of
    the boot loader, the timer of the task switch allocated and two more timers
    free, and FIFOs that no task sleeps on yet. *)
Record ready (keymousefifo : Z) (gdtr0 : GDTR32) (src : list GDT32SD) (k : KERNEL) (taskctl : Z) : Prop := {
  rd_heap : exists bs h1, heapdl_live (w_heap (k_world k)) bs
    /\ kmalloc (w_heap (k_world k)) sizeof_TASKCTL = Some (taskctl, h1) /\ taskctl <> 0;
  rd_gdt : gdtr_limit gdtr0 = 23 /\ (3 <= length src)%nat /\ Z.of_nat (length (gdts (w_gdt (k_world k)))) = 8192;
  rd_timers : exists l fr t, timer_repr (k_timers k) l fr /\ (2 <= length fr)%nat
    /\ tssTimer (k_timers k) = Some t /\ flag (k_timers k) t = Some TIMER_FLAGS_ALLOCATED;
  rd_tick : 0 <= tick (k_timers k);
  rd_timer_fifos : timers_ok (k_timers k) (k_world k);
  rd_keymouse : is_Some (w_fifos (k_world k) !! keymousefifo);
  rd_fifos : forall a mp, w_fifos (k_world k) !! a = Some mp ->
    mp_task mp = None /\ exists cap q, fifo_models (Some (mp_fifo32 mp)) cap q
}.

(** The FIFO of every timer, as a function. *)
Definition fifo_of (c : TIMERCTL) (i : Z) : option Z := tm ← (timer c)$[i]; tm_fifo tm.

Lemma ready_timers keymousefifo gdtr0 src k taskctl :
  ready keymousefifo gdtr0 src k taskctl ->
  exists fr t, timers_ready (k_timers k) fr (fifo_of (k_timers k)) /\ (2 <= length fr)%nat
    /\ tssTimer (k_timers k) = Some t /\ flag (k_timers k) t = Some TIMER_FLAGS_ALLOCATED.
Proof.
  intros Hrd. destruct (rd_timers _ _ _ _ _ Hrd) as (l & fr & t & Hr & Hl & Ht & Hf). exists fr, t.
  split_and!; try done. constructor; [by exists l| |apply (rd_tick _ _ _ _ _ Hrd)].
  intros i tm E. unfold fifo_of. by rewrite E.
Qed.

Lemma kernel_start_ok self gdtr0 src idle_entry tss4_main console_main console_sheet keymousefifo fifoTSS3 fifobuf3 k taskctl :
  ready keymousefifo gdtr0 src k taskctl ->
  exists timer_1s k',
    kernel_start self gdtr0 src idle_entry tss4_main console_main console_sheet keymousefifo fifoTSS3 fifobuf3 k
      = Some (0, 2, 3, Some timer_1s, k')
    /\ fresh (w_taskctl (k_world k')) 4 qs_started
    /\ (forall i, 0 <= i < OS_MPROCESS_TASK_MAX ->
         (gdts (w_gdt (k_world k')))$[3 + i] = Some (tss_descriptor taskctl i))
    /\ kernel_inv afloat (k_timers k') (k_world k')
    /\ is_Some (w_fifos (k_world k') !! keymousefifo) /\ tick (k_timers k') = tick (k_timers k).
Proof.
  intros Hrd. unfold kernel_start. destruct (rd_gdt _ _ _ _ _ Hrd) as (G1 & G2 & G3).
  destruct (gdt_migration_ok self gdtr0 src (k_world k) G1 G2 G3) as (g & Eg & Hg). rewrite Eg, bind_Some_eq.
  destruct (ready_timers _ _ _ _ _ Hrd) as (fr & t & Htm & Hlen & Ht & Hfl).
  destruct (rd_heap _ _ _ _ _ Hrd) as (bs & h1 & Hh & Hm & Hnz).
  assert (Hne : fr <> []) by (by destruct fr; cbn in Hlen; [lia|]).
  destruct k as [c w v mv sh con]. cbn [k_timers k_world k_set_world k_video mouse_one_move LRShift mpfifo32Console] in *.
  destruct (start_tasks_ok (set_gdt w g) c bs fr (fifo_of c) t taskctl h1 Hh Hm Hnz Hg Htm Hne Ht Hfl
              idle_entry tss4_main console_main console_sheet v mv sh con)
    as (c1 & w1 & E1 & F1 & N1 & C1 & FF1 & D1 & T1 & K1 & S1).
  change (k_set_world (mkKERNEL c w v mv sh con) (set_gdt w g)) with (mkKERNEL c (set_gdt w g) v mv sh con).
  rewrite E1, bind_Some_eq. destruct (rd_keymouse _ _ _ _ _ Hrd) as [mp Hmp]. cbn [k_world] in Hmp.
  destruct (eventloop_init_ok keymousefifo fifoTSS3 fifobuf3 (mkKERNEL c1 w1 v mv sh con) fr (fifo_of c) mp)
    as (tmr & c2 & f & E2 & Mf & Tf & K2 & S2 & T2 & Hne2); [cbn [k_world]; rewrite FF1; exact Hmp|exact T1|exact Hlen|].
  rewrite E2, bind_Some_eq. eexists tmr, _. split; [done|]. cbn [k_timers k_world k_set_timers k_set_world] in *.
  match goal with |- context [set_fifos w1 ?x] => set (fs := x) in * end.
  assert (Hkey : is_Some (fs !! keymousefifo)).
  { unfold fs. destruct (decide (fifoTSS3 = keymousefifo)) as [->|Hd]; [rewrite lookup_insert_eq; by eexists|].
    rewrite lookup_insert_ne, lookup_insert_eq by done. by eexists. }
  assert (Hsome : forall a, is_Some (w_fifos w !! a) \/ a = fifoTSS3 -> is_Some (fs !! a)).
  { intros a Ha. unfold fs. rewrite !lookup_insert. repeat case_decide; try (by eexists). rewrite FF1. destruct Ha; [done|congruence]. }
  split; [exact F1|]. split; [exact D1|]. split; [|split; [exact Hkey|congruence]]. constructor.
  - destruct (td_repr _ _ _ T2) as [l2 R2]. by exists l2, (without tmr fr).
  - apply started_afloat; [exact F1|exact N1|exact C1|]. intros a mpa. cbn [w_fifos set_fifos]. unfold fs.
    rewrite !lookup_insert. case_decide; [|case_decide].
    + intros [= <-]. split; [by exists 4096, []|by right].
    + intros [= <-]. split; [|by right]. by destruct (rd_fifos _ _ _ _ _ Hrd keymousefifo mp Hmp) as [_ Hq].
    + rewrite FF1. intros Ha. destruct (rd_fifos _ _ _ _ _ Hrd a mpa Ha) as [Hn Hq]. split; [done|by left].
  - intros i tm a Ei Ea. apply Hsome. rewrite (td_fifos _ _ _ T2 i tm Ei) in Ea. case_decide; [right; congruence|left].
    unfold fifo_of in Ea. destruct ((timer c)$[i]) as [tm0|] eqn:E0; [|done].
    by apply (rd_timer_fifos _ _ _ _ _ Hrd i tm0 a).
  - exists t. congruence.
  - apply (td_tick _ _ _ T2).
Qed.

(** ** [kernel_main]

    The first lines: the FIFO of keyboard and mouse with the interrupt table, and
    the timers. *)
Definition kernel_init_cpu (_int_default_handlers : list Z) (keymousefifo kmbuf idt_addr : Z)
    (idts : list IDT_GATE_DESCRIPTOR_32) (k : KERNEL) : option (KERNEL * IDT_IDTR_32 * list IDT_GATE_DESCRIPTOR_32) :=
  '(w, idtr, idts) ← idt_init _int_default_handlers keymousefifo kmbuf idt_addr idts (k_world k);
  c ← PIT_init (k_timers k);
  Some (k_set_timers (k_set_world k w) c, idtr, idts).

Section kernel_main.
(** The keyboard controller and how often it is polled; the table of interrupt
    stubs; the addresses of static data and entry points; the boot loader's
    information and descriptor table. *)
Context (dev : list io -> Z -> Z) (patience : nat) (_int_default_handlers : list Z).
Context (keymousefifo kmbuf idt_addr gdt_addr fifoTSS3 fifobuf3 idle_entry tss4_main console_main console_sheet : Z).
Context (bi : BOOTINFO) (gdtr0 : GDTR32) (gdt0 : list GDT32SD).

(** Up to the first time that interrupts are enabled: the devices, the screen, the
    heap and the disk. *)
Definition kernel_init (idts : list IDT_GATE_DESCRIPTOR_32) (kbc : Kbc.machine) (palette : Draw.ports) (k : KERNEL)
  : option (KERNEL * FIFO32 * IDT_IDTR_32 * list IDT_GATE_DESCRIPTOR_32 * Kbc.machine * Draw.ports * DISK) :=
  fifo32_common ← fifo32_init (Some FIFO32_zero) (Some (replicate 4096 0)) 4096;
  '(k, idtr, idts) ← kernel_init_cpu _int_default_handlers keymousefifo kmbuf idt_addr idts k;
  let '(kbc, r) := Kbc.io_bind (ps2kbc_KBC_init dev patience) (fun _ => ps2kbc_MOUSE_init dev patience) kbc in
  _ ← r;
  let w := PIC_init (k_world k) 0x20 0x28 in
  '(v, palette) ← graphic_init (k_video k) palette bi;
  h ← k_mm_init (w_heap w);
  '(v, h, m) ← graphic_window_manager_init h (w_mem w) v bi;
  Some (k_set_video (k_set_world k (Sched.set_heap w h m)) v, fifo32_common, idtr, idts, kbc, palette, disk_search_and_init).

(** The line that is printed, with its newline. *)
Definition report (passed : bool) : list Z :=
  (byte_of <$> list_ascii_of_string (if passed then "Function test PASS" else "Function test FAIL")%string)
  ++ [newline; 0].

(** The self tests, and then the tasks; the result is the state at the loop of the
    first task, with the lights of the keyboard. *)
Definition kernel_main (idts : list IDT_GATE_DESCRIPTOR_32) (kbc : Kbc.machine) (palette : Draw.ports)
    (ts_head ts1 ts2 : Z) (links : dstore) (k : KERNEL) : option (Z * Z * Z * option Z * Z * KERNEL) :=
  '(k, _, _, _, _, _, _) ← kernel_init idts kbc palette k;
  '(passed, _) ← test_all ts_head ts1 ts2 links;
  '(_, v) ← printf_ _putchar (k_video k) (report passed) [];
  let keyLEDs := Z.land (Z.shiftr (bi_leds bi) 4) 7 in
  '(task3, task4, taskConsole, timer_1s, k) ←
     kernel_start gdt_addr gdtr0 gdt0 idle_entry tss4_main console_main console_sheet keymousefifo fifoTSS3 fifobuf3
       (k_set_video k v);
  Some (task3, task4, taskConsole, timer_1s, keyLEDs, k).
End kernel_main.

(** The first lines give the state that the start of the tasks needs, but for
    the heap. *)
Lemma cpu_ready handlers keymousefifo kmbuf idt_addr idts k k' idtr idts' :
  kernel_init_cpu handlers keymousefifo kmbuf idt_addr idts k = Some (k', idtr, idts') ->
  length (timer (k_timers k)) = Z.to_nat OS_MAX_TIMER -> w_fifos (k_world k) = ∅ ->
  (exists l fr t, timer_repr (k_timers k') l fr /\ (2 <= length fr)%nat
    /\ tssTimer (k_timers k') = Some t /\ flag (k_timers k') t = Some TIMER_FLAGS_ALLOCATED)
  /\ tick (k_timers k') = 0
  /\ is_Some (w_fifos (k_world k') !! keymousefifo)
  /\ (forall a mp, w_fifos (k_world k') !! a = Some mp ->
       mp_task mp = None /\ exists cap q, fifo_models (Some (mp_fifo32 mp)) cap q)
  /\ w_heap (k_world k') = w_heap (k_world k) /\ w_gdt (k_world k') = w_gdt (k_world k).
Proof.
  unfold kernel_init_cpu, idt_init. intros E Hlen Hf.
  pose proof (init_repr FIFO32_zero (replicate 512 0) 512 ltac:(done) ltac:(by rewrite length_replicate)) as Hm.
  unfold mpfifo32_init in E. cbn [mp_fifo32] in E.
  destruct (fifo32_init (Some FIFO32_zero) (Some (replicate 512 0)) 512) as [g|] eqn:Eg; [|done].
  rewrite !bind_Some_eq in E. destruct (idt_fill handlers idts) as [idts1|]; [|done]. rewrite !bind_Some_eq in E.
  destruct (PIT_init_spec (k_timers k) Hlen) as (c & Ec & Rc & Tc & Fc & Kc). rewrite Ec, bind_Some_eq in E.
  injection E as <- _ _. cbn [k_timers k_world k_set_timers k_set_world w_fifos set_fifos w_heap w_gdt]. rewrite Hf. split_and!; try done.
  - exists [], (seqZ 1 (guard - 1)), 0. split_and!; try done. rewrite length_seqZ. apply Nat.leb_le. reflexivity.
  - rewrite lookup_insert_eq. by eexists.
  - intros a mp Ha. apply lookup_insert_Some in Ha as [[_ <-]|[_ Ha]]; [|by rewrite lookup_empty in Ha].
    split; [done|]. by exists 512, [].
Qed.

(** ** Theorems *)

(** C2. From the migration of the descriptors on, [kernel_main] gets to the loop of the
    first task: the first task is on level 1, the two others on level 2 and the
    idle task on the last; the selector of every task names the descriptor of its
    own segment; and whatever interrupts then arrive, none of them makes the
    kernel fault, although the kernel starts with an empty current level. *)
Theorem kernel_starts self gdtr0 src idle_entry tss4_main console_main console_sheet keymousefifo fifoTSS3 fifobuf3 k taskctl :
  ready keymousefifo gdtr0 src k taskctl ->
  exists timer_1s k',
    kernel_start self gdtr0 src idle_entry tss4_main console_main console_sheet keymousefifo fifoTSS3 fifobuf3 k
      = Some (0, 2, 3, Some timer_1s, k')
    /\ sched_core (w_taskctl (k_world k')) ([[]; [0]; [2; 3]] ++ replicate 6 [] ++ [[1]])
    /\ (forall i task, (tasks0 (w_taskctl (k_world k')))$[i] = Some task ->
         (gdts (w_gdt (k_world k')))$[t_gdtSegmentSelector task / 8] = Some (tss_descriptor taskctl i))
    /\ forall irqs cli, tick (k_timers k) + ticks_of irqs < UINT32_MAX ->
         exists c w cli', interrupts keymousefifo irqs (k_timers k') (k_world k') cli = Some (c, w, cli')
           /\ kernel_inv afloat c w /\ tick c = tick (k_timers k) + ticks_of irqs.
Proof.
  intros Hrd.
  destruct (kernel_start_ok self gdtr0 src idle_entry tss4_main console_main console_sheet keymousefifo fifoTSS3
              fifobuf3 k taskctl Hrd) as (tmr & k' & E & Fr & D & Hk & Hf & K).
  exists tmr, k'. split; [exact E|]. split; [exact (fr_core _ _ _ Fr)|]. split.
  - intros i task Ei. rewrite (fr_selectors _ _ _ Fr _ _ Ei), Z.div_mul by lia. apply D.
    apply lookupZ_lt in Ei. rewrite (sc_ntasks _ _ (fr_core _ _ _ Fr)) in Ei. unfold OS_MPROCESS_TASK_MAX in *. lia.
  - intros irqs cli Hi.
    destruct (interrupts_ok afloat keymousefifo irqs (k_timers k') (k_world k') cli Hk Hf)
      as (c & w & cli' & Ei & Hk' & Kc & _); [by rewrite K|].
    exists c, w, cli'. split; [exact Ei|]. split; [exact Hk'|]. by rewrite <- K.
Qed.

(** ** A machine that is just switched on *)
Definition start_heap : heap := default (mkHeap ∅ ∅ ∅ 0 0 0 0 0) (k_mm_init (mkHeap ∅ ∅ ∅ 0 0 0 0 0)).
Definition start_taskctl : Z := match kmalloc start_heap sizeof_TASKCTL with Some (p, _) => p | None => 0 end.
Definition blank_kernel : KERNEL :=
  mkKERNEL timerctl_zero
    (mkWorld taskctl_init ∅ start_heap ∅ (mkGdt (mkGDTR32 0 0) (replicate (Z.to_nat 8192) sd_zero)) [] [])
    (video_boot []) (mkMOUSE (0, 0, 0) 0 0 0 0) 0 None.
Definition start_kernel : KERNEL :=
  match kernel_init_cpu (replicate 256 0) 4096 8192 12288 (replicate 256 (mkGate 0 0 0 0 0)) blank_kernel with
  | Some (k, _, _) => k
  | None => blank_kernel
  end.

Lemma start_kernel_init :
  exists idtr idts, kernel_init_cpu (replicate 256 0) 4096 8192 12288 (replicate 256 (mkGate 0 0 0 0 0)) blank_kernel
    = Some (start_kernel, idtr, idts).
Proof.
  assert (H : bool_decide (is_Some (kernel_init_cpu (replicate 256 0) 4096 8192 12288 (replicate 256 (mkGate 0 0 0 0 0)) blank_kernel)) = true)
    by (vm_compute; reflexivity).
  apply bool_decide_eq_true in H as [[[k idtr] idts] E]. exists idtr, idts. unfold start_kernel. by rewrite E.
Qed.

Lemma start_no_fifo :
  forallb (fun tm => bool_decide (tm_fifo tm = None)) (timer (k_timers start_kernel)) = true.
Proof. vm_compute. reflexivity. Qed.

Lemma start_heap_live :
  exists h, k_mm_init (mkHeap ∅ ∅ ∅ 0 0 0 0 0) = Some h /\ heapdl_live h [] /\ start_heap = h.
Proof.
  destruct (mm_init_repr (mkHeap ∅ ∅ ∅ 0 0 0 0 0) OS_HEAP_ADDRESS (OS_HEAP_ADDRESS + OS_HEAP_SIZE_BYTES))
    as (h & E & R & _); [concrete..|].
  exists h. split; [exact E|]. split; [by eexists _, _|]. unfold start_heap, k_mm_init. by rewrite E.
Qed.

Lemma start_heap_room : exists h, kmalloc start_heap sizeof_TASKCTL = Some (start_taskctl, h) /\ start_taskctl <> 0.
Proof.
  assert (H : match kmalloc start_heap sizeof_TASKCTL with Some (p, _) => negb (p =? 0) | None => false end = true)
    by (vm_compute; reflexivity).
  unfold start_taskctl. destruct (kmalloc start_heap sizeof_TASKCTL) as [[p h]|]; [|done]. exists h. split; [done|].
  by destruct (Z.eqb_spec p 0).
Qed.

Lemma start_ready : ready 4096 (mkGDTR32 23 0) [sd_zero; sd_zero; sd_zero] start_kernel start_taskctl.
Proof.
  destruct start_kernel_init as (idtr & idts & E).
  destruct (cpu_ready _ _ _ _ _ _ _ _ _ E) as (Ht & Hk & Hm & Hf & Hh & Hg);
    [cbn [k_timers blank_kernel timer timerctl_zero]; apply length_replicate|done|].
  constructor.
  - destruct start_heap_live as (h & _ & Hl & Es). destruct start_heap_room as (h1 & E1 & Hnz).
    exists [], h1. rewrite Hh. cbn [w_heap k_world blank_kernel]. split; [by rewrite Es|]. by split.
  - split; [done|]. split; [done|]. rewrite Hg. cbn [w_gdt k_world blank_kernel gdts]. by rewrite length_replicate, Z2Nat.id.
  - exact Ht.
  - by rewrite Hk.
  - intros i tm a Hi%lookupZ_Some Ha. destruct Hi as [_ Hi]. pose proof start_no_fifo as Hn. rewrite forallb_forall in Hn.
    apply list_elem_of_lookup_2, list_elem_of_In, Hn, bool_decide_eq_true in Hi. congruence.
  - exact Hm.
  - exact Hf.
Qed.

Lemma kernel_starts_witness :
  exists timer k, kernel_start 0 (mkGDTR32 23 0) [sd_zero; sd_zero; sd_zero] 1 2 3 4 4096 16384 20480 start_kernel
      = Some (0, 2, 3, Some timer, k)
    /\ exists c w cli, interrupts 4096 [(0x21, 30); (0x20, 0); (0x2c, 8); (0x20, 0); (0x20, 0)] (k_timers k) (k_world k) false
         = Some (c, w, cli) /\ tick c = 3.
Proof.
  destruct (kernel_starts 0 (mkGDTR32 23 0) [sd_zero; sd_zero; sd_zero] 1 2 3 4 4096 16384 20480 start_kernel
              start_taskctl start_ready) as (tmr & k & E & _ & _ & Hi).
  exists tmr, k. split; [exact E|].
  assert (K : tick (k_timers start_kernel) = 0) by (vm_compute; reflexivity). rewrite K in Hi.
  destruct (Hi [(0x21, 30); (0x20, 0); (0x2c, 8); (0x20, 0); (0x20, 0)] false) as (c & w & cli & Ei & _ & Kc);
    [reflexivity|].
  exists c, w, cli. split; [exact Ei|exact Kc].
Defined.
