(* ===== verification/Path.v ===== *)
(** * Paths, src/src/fs/pathparser.c

    The allocator is the interface [kzalloc]/[kfree] on a state of its own; a
    part of a path is the address of its node, the address of its string and the
    string's characters.  Using a null pointer is a fault. *)
From Stdlib Require Import ZArith Lia.
From stdpp Require Import base option list numbers.
From S2P Require Import Prelude Kutil.

Set Default Proof Using "Type".

Definition OS_PATH_MAX_LENGTH : Z := 4096.
Definition slash : Z := 47.
Definition colon : Z := 58.
Definition sizeof_PATH_ROOT : Z := 8.
Definition sizeof_PATH_PART : Z := 8.

Record PATH_PART := mkPART { pp_addr : Z; pp_part : Z; pp_str : list Z }.
(** The parts are the list that starts at [first]. *)
Record PATH_ROOT := mkROOT { pr_addr : Z; pr_drive_no : Z; pr_first : list PATH_PART }.

Section path.
Context {H : Type} (kzalloc : H -> Z -> option (Z * H)) (kfree : H -> Z -> option H).

(** [filename] is not null. *)
Definition path_valid_format (filename : list Z) : option bool :=
  len ← kstrnlen filename OS_PATH_MAX_LENGTH;
  if negb (len >=? 3) then Some false
  else
    c ← filename$[0];
    if negb (is_digit c) then Some false
    else r ← kmemcmp (drop 1 filename) [colon; slash] 2; Some (r =? 0).

(** The drive, and the path behind it. *)
Definition path_get_drive_number_by_path (path : list Z) : option (Z * list Z) :=
  valid ← path_valid_format path;
  if negb valid then Some (- EBADPATH, path)
  else c ← path$[0]; Some (to_digit c, drop 3 path).

Definition path_create_root (h : H) (driver_number : Z) : option (PATH_ROOT * H) :=
  '(pr, h) ← kzalloc h sizeof_PATH_ROOT;
  if pr =? 0 then None else Some (mkROOT pr driver_number [], h).

(** The loop that fills [path_part]; its length is the number of characters
    stored, since none of them is 0. *)
Fixpoint part_loop (n : nat) (path path_part : list Z) : option (list Z * list Z) :=
  match n with
  | O => Some (path_part, path)
  | S n =>
      match path with
      | [] => None
      | c :: rest =>
          if c =? 0 then Some (path_part, path)
          else if (c =? slash) && negb (Nat.eqb (length path_part) 0) then Some (path_part, rest)
          else part_loop n rest (path_part ++ [c])
      end
  end.

Definition path_get_path_part (h : H) (path : list Z) : option (option (Z * list Z) * list Z * H) :=
  '(buf, h) ← kzalloc h OS_PATH_MAX_LENGTH;
  if buf =? 0 then None
  else
    '(path_part, path) ← part_loop (Z.to_nat OS_PATH_MAX_LENGTH) path [];
    if Nat.eqb (length path_part) 0 then h ← kfree h buf; Some (None, path, h)
    else Some (Some (buf, path_part), path, h).

(** The new part; the caller links it behind the previous one. *)
Definition path_create_part (h : H) (path_str : list Z) : option (option PATH_PART * list Z * H) :=
  '(p, path_str, h) ← path_get_path_part h path_str;
  match p with
  | None => Some (None, path_str, h)
  | Some (buf, str) =>
      '(pp, h) ← kzalloc h sizeof_PATH_PART;
      if pp =? 0 then None else Some (Some (mkPART pp buf str), path_str, h)
  end.

(** [while (part)]: every turn but the last takes a character of the path. *)
Fixpoint more_parts (fuel : nat) (h : H) (path_str : list Z) : option (list PATH_PART * H) :=
  match fuel with
  | O => None
  | S fuel =>
      '(part, path_str, h) ← path_create_part h path_str;
      match part with
      | None => Some ([], h)
      | Some p => '(ps, h) ← more_parts fuel h path_str; Some (p :: ps, h)
      end
  end.

Definition path_parse (h : H) (path_str : list Z) : option (option PATH_ROOT * H) :=
  len ← kstrlen path_str;
  if len >? OS_PATH_MAX_LENGTH then Some (None, h)
  else
    '(drive_number, tmp) ← path_get_drive_number_by_path path_str;
    if drive_number <? 0 then Some (None, h)
    else
      '(root, h) ← path_create_root h drive_number;
      '(part, tmp, h) ← path_create_part h tmp;
      match part with
      | None => Some (None, h)
      | Some p =>
          '(ps, h) ← more_parts (length path_str) h tmp;
          Some (Some (mkROOT (pr_addr root) (pr_drive_no root) (p :: ps)), h)
      end.

(** The second loop starts at [i], the number of parts: [pt_ptr[i]] is null, or
    behind the array. *)
Definition path_free (h : H) (root : PATH_ROOT) : option (Z * H) :=
  let pt_ptr := (Some <$> take (Z.to_nat OS_PATH_MAX_LENGTH) (pr_first root))
                ++ replicate (Z.to_nat OS_PATH_MAX_LENGTH - length (pr_first root)) None in
  let i := Z.min (Z.of_nat (length (pr_first root))) OS_PATH_MAX_LENGTH in
  if OS_PATH_MAX_LENGTH <? Z.of_nat (length (pr_first root)) then Some (u32 (- EBADPATH), h)
  else
    h ← for_range 0 (i + 1) (fun k h =>
          p ← pt_ptr$[i - k];
          p ← p;
          h ← kfree h (pp_part p);
          kfree h (pp_addr p)) h;
    h ← kfree h (pr_addr root);
    Some (0, h).

(** ** Parsing a path that was put together from its parts *)
Context (Halloc : forall h n, exists p h', kzalloc h n = Some (p, h') /\ p <> 0).
Context (Hfree : forall h p, exists h', kfree h p = Some h').

Definition part_ok (s : list Z) : bool :=
  negb (Nat.eqb (length s) 0) && forallb (fun c => negb (c =? 0) && negb (c =? slash)) s.

Fixpoint join (segs : list (list Z)) : list Z :=
  match segs with
  | [] => []
  | [s] => s
  | s :: segs => s ++ [slash] ++ join segs
  end.

(** "d:/" and the parts with slashes between them. *)
Definition path_string (d : Z) (segs : list (list Z)) : list Z := [48 + d; colon; slash] ++ join segs ++ [0].

Lemma part_loop_run n s acc rest :
  (length s < n)%nat -> forallb (fun c => negb (c =? 0) && negb (c =? slash)) s = true ->
  part_loop n (s ++ rest) acc = part_loop (n - length s) rest (acc ++ s).
Proof using Type.
  revert n acc. induction s as [|c s IH]; intros n acc Hn Hs; cbn [app length] in *.
  - by rewrite Nat.sub_0_r, app_nil_r.
  - destruct n as [|n]; [lia|]. cbn [forallb] in Hs. apply andb_prop in Hs as [Hc Hs].
    apply andb_prop in Hc as [H0%negb_true_iff H1%negb_true_iff]. cbn [part_loop Nat.sub]. rewrite H0, H1.
    cbn [andb]. rewrite IH by (lia || done). by rewrite <- (assoc_L (++)).
Qed.

Lemma part_ok_inv s :
  part_ok s = true -> (0 < length s)%nat /\ forallb (fun c => negb (c =? 0) && negb (c =? slash)) s = true.
Proof using Type. intros [H1%negb_true_iff H2]%andb_prop. apply Nat.eqb_neq in H1. split; [lia|done]. Qed.

(** A part, and what is behind it: a slash, or the end of the path. *)
Lemma part_loop_part n s rest :
  part_ok s = true -> (length s < n)%nat ->
  part_loop n (s ++ [slash] ++ rest) [] = Some (s, rest) /\ part_loop n (s ++ [0]) [] = Some (s, [0]).
Proof using Type.
  intros [Hl Hc]%part_ok_inv Hn.
  rewrite (part_loop_run n s [] ([slash] ++ rest)), (part_loop_run n s [] [0]) by done. cbn [app].
  destruct (n - length s)%nat as [|k] eqn:Ek; [lia|].
  cbn [part_loop]. change (slash =? 0) with false. change (slash =? slash) with true. change (0 =? 0) with true.
  destruct (Nat.eqb_spec (length s) 0); [lia|]. done.
Qed.

Lemma create_part h s path :
  part_ok s = true -> (length s < 4096)%nat ->
  (exists p h', path_create_part h (s ++ [slash] ++ path) = Some (Some p, path, h') /\ pp_str p = s)
  /\ (exists p h', path_create_part h (s ++ [0]) = Some (Some p, [0], h') /\ pp_str p = s).
Proof using Halloc.
  intros Hs Hl. destruct (part_loop_part 4096 s path Hs Hl) as [E1 E2]. apply part_ok_inv in Hs as [Hs _].
  unfold path_create_part, path_get_path_part. change (Z.to_nat OS_PATH_MAX_LENGTH) with 4096%nat.
  destruct (Halloc h OS_PATH_MAX_LENGTH) as (b & h1 & -> & Hb). destruct (Halloc h1 sizeof_PATH_PART) as (q & h2 & E & Hq).
  cbn [mbind option_bind]. rewrite (proj2 (Z.eqb_neq b 0)) by done. rewrite E1, E2. cbn [mbind option_bind].
  destruct (Nat.eqb_spec (length s) 0); [lia|]. cbn [mbind option_bind]. rewrite E. cbn [mbind option_bind].
  rewrite (proj2 (Z.eqb_neq q 0)) by done. split; eexists _, _; split; try reflexivity.
Qed.

Lemma create_end h : exists h', path_create_part h [0] = Some (None, [0], h').
Proof using Halloc Hfree.
  unfold path_create_part, path_get_path_part. change (Z.to_nat OS_PATH_MAX_LENGTH) with 4096%nat.
  destruct (Halloc h OS_PATH_MAX_LENGTH) as (b & h1 & -> & Hb). destruct (Hfree h1 b) as [h2 E].
  cbn [mbind option_bind]. rewrite (proj2 (Z.eqb_neq b 0)) by done.
  change (part_loop 4096 [0] []) with (Some ([] : list Z, [0])). cbn [mbind option_bind length Nat.eqb].
  rewrite E. by eexists.
Qed.

(** The parts from [segs] on, a list that may be empty. *)
Lemma more_parts_join segs fuel h :
  forallb part_ok segs = true -> Forall (fun s => (length s < 4096)%nat) segs -> (length segs < fuel)%nat ->
  exists ps h', more_parts fuel h (join segs ++ [0]) = Some (ps, h') /\ pp_str <$> ps = segs.
Proof using Halloc Hfree.
  revert fuel h. induction segs as [|s segs IH]; intros fuel h Hs Hl Hf; (destruct fuel as [|fuel]; [lia|]); cbn [more_parts].
  - destruct (create_end h) as [h' E]. cbn [join app]. rewrite E. by exists [], h'.
  - cbn [forallb] in Hs. apply andb_prop in Hs as [Hs0 Hs]. inversion_clear Hl as [|? ? Hl0 Hl'].
    cbn [length] in Hf. destruct (create_part h s (join segs ++ [0]) Hs0 Hl0) as [(p & h1 & E1 & P1) (q & h2 & E2 & P2)].
    destruct segs as [|s' segs].
    + cbn [join]. rewrite E2. cbn [mbind option_bind].
      destruct (IH fuel h2 Hs Hl' ltac:(simpl in *; lia)) as (ps & h3 & E & EP). cbn [join app] in E. rewrite E.
      cbn [mbind option_bind]. exists (q :: ps), h3. split; [done|]. by rewrite fmap_cons, P2, EP.
    + change (join (s :: s' :: segs)) with (s ++ [slash] ++ join (s' :: segs)). rewrite <- !(assoc_L (++)).
      rewrite E1. cbn [mbind option_bind].
      destruct (IH fuel h1 Hs Hl' ltac:(simpl in *; lia)) as (ps & h3 & E & EP). rewrite E.
      cbn [mbind option_bind]. exists (p :: ps), h3. split; [done|]. by rewrite fmap_cons, P1, EP.
Qed.

Lemma nonzero_strlen s : forallb (fun c => negb (c =? 0)) s = true -> kstrlen (s ++ [0]) = Some (Z.of_nat (length s)).
Proof using Type.
  induction s as [|c s IH]; intros Hs; [done|]. cbn [forallb] in Hs. apply andb_prop in Hs as [Hc Hs].
  cbn [app kstrlen length]. rewrite Hc, IH by done. cbn [mbind option_bind]. f_equal. lia.
Qed.

Lemma nonzero_strnlen s n i : forallb (fun c => negb (c =? 0)) s = true -> (length s < n)%nat ->
  kstrnlen_from n i (s ++ [0]) = Some (i + Z.of_nat (length s)).
Proof using Type.
  revert n i. induction s as [|c s IH]; intros n i Hs Hn; (destruct n as [|n]; [simpl in *; lia|]); cbn [app kstrnlen_from length] in *.
  - change (0 =? 0) with true. f_equal. lia.
  - cbn [forallb] in Hs. apply andb_prop in Hs as [Hc%negb_true_iff Hs]. rewrite Hc, IH by (done || lia). f_equal. lia.
Qed.

Lemma join_nonzero segs : forallb part_ok segs = true -> forallb (fun c => negb (c =? 0)) (join segs) = true.
Proof using Type.
  assert (forall s, part_ok s = true -> forallb (fun c => negb (c =? 0)) s = true) as Hp.
  { intros s [_ Hs]%part_ok_inv. rewrite forallb_forall in *. intros c Hc. specialize (Hs c Hc). by apply andb_prop in Hs as [? _]. }
  induction segs as [|s segs IH]; intros Hs; [done|]. cbn [forallb] in Hs. apply andb_prop in Hs as [Hs0 Hs].
  destruct segs as [|s' segs]; [by apply Hp|].
  change (join (s :: s' :: segs)) with (s ++ [slash] ++ join (s' :: segs)). rewrite !forallb_app, IH by done.
  by rewrite Hp.
Qed.

Lemma join_length segs :
  forallb part_ok segs = true ->
  (length segs <= length (join segs))%nat /\ Forall (fun s => (length s <= length (join segs))%nat) segs.
Proof using Type.
  induction segs as [|s segs IH]; intros Hs; [by split|]. cbn [forallb] in Hs. apply andb_prop in Hs as [Hs0 Hs].
  apply part_ok_inv in Hs0 as [Hs0 _]. destruct (IH Hs) as [H1 H2].
  destruct segs as [|s' segs]; [split; [simpl; lia|by repeat constructor]|].
  change (join (s :: s' :: segs)) with (s ++ [slash] ++ join (s' :: segs)). rewrite !length_app. cbn [length].
  split; [cbn [length] in *; lia|]. constructor; [lia|]. eapply Forall_impl; [|exact H2]. intros x Hx. simpl in *. lia.
Qed.

Lemma path_string_eq d segs : path_string d segs = ([48 + d; colon; slash] ++ join segs) ++ [0].
Proof using Type. unfold path_string. by rewrite <- (assoc_L (++)). Qed.

Lemma path_nonzero d segs :
  0 <= d -> forallb part_ok segs = true ->
  forallb (fun c => negb (c =? 0)) ([48 + d; colon; slash] ++ join segs) = true.
Proof using Type.
  intros Hd Hs. rewrite forallb_app, join_nonzero by done. cbn [forallb].
  by rewrite (proj2 (Z.eqb_neq (48 + d) 0)) by lia.
Qed.

Lemma parse_drive d segs :
  0 <= d <= 9 -> forallb part_ok segs = true -> Z.of_nat (length (path_string d segs)) <= OS_PATH_MAX_LENGTH ->
  path_get_drive_number_by_path (path_string d segs) = Some (d, join segs ++ [0]).
Proof using Type.
  intros Hd Hs Hlen. pose proof (path_nonzero d segs ltac:(lia) Hs) as Hnz.
  rewrite path_string_eq in *. rewrite length_app in Hlen. cbn [length] in Hlen. unfold OS_PATH_MAX_LENGTH in Hlen.
  unfold path_get_drive_number_by_path, path_valid_format, kstrnlen.
  change (Z.to_nat OS_PATH_MAX_LENGTH) with 4096%nat. rewrite nonzero_strnlen by (done || lia).
  cbn [mbind option_bind]. rewrite Z.geb_leb, (proj2 (Z.leb_le 3 _)) by (rewrite length_app; simpl; lia). cbn [negb].
  cbn [app]. change ((48 + d :: ?l)$[0]) with (Some (48 + d)). cbn [mbind option_bind].
  assert (is_digit (48 + d) = true) as ->.
  { unfold is_digit. rewrite (proj2 (Z.leb_le 48 _)), (proj2 (Z.leb_le _ 57)) by lia. done. }
  cbn [negb drop]. unfold to_digit. change (kmemcmp _ _ 2) with (Some 0). cbn [mbind option_bind negb].
  change (0 =? 0) with true. cbn [negb]. do 2 f_equal. lia.
Qed.

(** The first part, and the loop over the others. *)
Lemma all_parts s segs fuel h :
  forallb part_ok (s :: segs) = true -> Forall (fun s => (length s < 4096)%nat) (s :: segs) -> (length segs < fuel)%nat ->
  exists p ps h1 h2 rest, path_create_part h (join (s :: segs) ++ [0]) = Some (Some p, rest, h1)
    /\ more_parts fuel h1 rest = Some (ps, h2) /\ pp_str <$> p :: ps = s :: segs.
Proof using Halloc Hfree.
  intros Hs Hl Hf. cbn [forallb] in Hs. apply andb_prop in Hs as [Hs0 Hs]. inversion_clear Hl as [|? ? Hl0 Hl'].
  destruct (create_part h s (join segs ++ [0]) Hs0 Hl0) as [(p & h1 & E1 & P1) (q & h2 & E2 & P2)].
  destruct segs as [|s' segs].
  - destruct (more_parts_join [] fuel h2 eq_refl Hl' Hf) as (ps & h3 & E & EP).
    exists q, ps, h2, h3, [0]. split_and!; [done..|]. by rewrite fmap_cons, P2, EP.
  - destruct (more_parts_join (s' :: segs) fuel h1 Hs Hl' Hf) as (ps & h3 & E & EP).
    exists p, ps, h1, h3, (join (s' :: segs) ++ [0]). split_and!; [|done|by rewrite fmap_cons, P1, EP].
    change (join (s :: s' :: segs)) with (s ++ [slash] ++ join (s' :: segs)). by rewrite <- !(assoc_L (++)).
Qed.

(** A path put together from a drive digit and nonempty parts, shorter than
    the longest path the parser accepts, parses to that drive and exactly those
    parts in order, as long as memory lasts. *)
Theorem path_parse_roundtrip h d segs :
  0 <= d <= 9 -> segs <> [] -> forallb part_ok segs = true ->
  Z.of_nat (length (path_string d segs)) <= OS_PATH_MAX_LENGTH ->
  exists root h', path_parse h (path_string d segs) = Some (Some root, h')
    /\ pr_drive_no root = d /\ pp_str <$> pr_first root = segs.
Proof using Halloc Hfree.
  intros Hd Hne Hs Hlen. pose proof (path_nonzero d segs ltac:(lia) Hs) as Hnz.
  pose proof (parse_drive d segs Hd Hs Hlen) as Hv. destruct (join_length segs Hs) as [HL HF].
  rewrite path_string_eq, !length_app in Hlen. cbn [length] in Hlen. unfold OS_PATH_MAX_LENGTH in Hlen.
  unfold path_parse. rewrite Hv. rewrite path_string_eq, nonzero_strlen by done. cbn [mbind option_bind].
  rewrite Z.gtb_ltb, (proj2 (Z.ltb_ge OS_PATH_MAX_LENGTH _))
    by (rewrite length_app; unfold OS_PATH_MAX_LENGTH; cbn [length]; lia).
  rewrite (proj2 (Z.ltb_ge d 0)) by lia.
  unfold path_create_root. destruct (Halloc h sizeof_PATH_ROOT) as (r & h1 & -> & Hr). cbn [mbind option_bind].
  rewrite (proj2 (Z.eqb_neq r 0)) by done. cbn [mbind option_bind].
  destruct segs as [|s segs]; [done|].
  destruct (all_parts s segs (length (([48 + d; colon; slash] ++ join (s :: segs)) ++ [0])) h1 Hs)
    as (p & ps & h2 & h3 & rest & E1 & E2 & EP).
  - eapply Forall_impl; [|exact HF]. intros x Hx. cbv beta in Hx. lia.
  - clear -HL. rewrite !length_app. cbn [length] in *. lia.
  - rewrite E1. cbn [mbind option_bind]. rewrite E2. cbn [mbind option_bind].
    eexists _, _. split; [reflexivity|]. by split.
Qed.
End path.

(** An allocator that never runs out. *)
Definition bump (h : Z) (n : Z) : option (Z * Z) := Some (Z.abs h + 1, Z.abs h + Z.abs n + 1).

Lemma path_parse_roundtrip_witness :
  exists root h', path_parse bump (fun h _ => Some h) 4096
      (path_string 0 [[111; 112; 116]; [98; 105; 110]]) = Some (Some root, h')
    /\ pr_drive_no root = 0 /\ pp_str <$> pr_first root = [[111; 112; 116]; [98; 105; 110]].
Proof.
  apply (path_parse_roundtrip bump (fun h _ => Some h)).
  - intros h n. eexists _, _. split; [reflexivity|]. lia.
  - intros h p. by eexists.
  - lia.
  - discriminate.
  - reflexivity.
  - vm_compute. discriminate.
Defined.

(** Releasing a parsed path never succeeds: the second loop begins with the
    element behind the last part, a null pointer or a place behind the array. *)
Theorem path_free_faults {H} (kfree : H -> Z -> option H) h root :
  Z.of_nat (length (pr_first root)) <= OS_PATH_MAX_LENGTH -> path_free kfree h root = None.
Proof.
  intros Hl. unfold path_free. rewrite (proj2 (Z.ltb_ge _ _)) by done. rewrite Z.min_l by done.
  rewrite for_range_cons by lia. rewrite Z.sub_0_r.
  unfold OS_PATH_MAX_LENGTH in *. change (Z.to_nat 4096) with 4096%nat.
  rewrite take_ge by lia. rewrite lookupZ_nat.
  rewrite lookup_app_r by (rewrite length_fmap; lia). rewrite length_fmap, Nat.sub_diag.
  destruct (4096 - length (pr_first root))%nat; reflexivity.
Qed.

Lemma path_free_faults_witness :
  path_free (fun h _ => Some h) 0 (mkROOT 32 0 [mkPART 64 96 [111]]) = None.
Proof. apply (path_free_faults (fun h _ => Some h)). vm_compute. discriminate. Defined.
