(* ===== verification/Memtest.v ===== *)
(** * The memory test of src/src/memory/memory.c

    The machine is a parameter: which addresses have memory behind them, and what
    a read of one that has none returns.  A write to such an address is lost. *)
From Stdlib Require Import ZArith Lia.
From stdpp Require Import base option list gmap numbers.
From S2P Require Import Prelude Kutil.

Set Default Proof Using "Type".

Definition pat0 : Z := 0xaa55aa55.
Definition pat1 : Z := 0x55aa55aa.
Definition step_4KB : Z := 0x1000.
Definition EFLAGS_MASK_AC : Z := 0x00040000.
Definition CR0_MASK_CD : Z := 0x40000000.

(** The words of the memory. *)
Abbreviation words := (gmap Z Z).

Definition not32 (z : Z) : Z := u32 (Z.lnot z).

Section memtest.
Context (backed : Z -> bool) (bus : Z -> Z).

Definition rd (m : words) (p : Z) : Z := if backed p then default 0 (m !! p) else bus p.
Definition wr (m : words) (p v : Z) : words := if backed p then <[p := v]> m else m.

(** The two patterns at one address: whether it is memory, and what is left. *)
Definition probe (m : words) (p : Z) : bool * words :=
  let original_data := rd m p in
  let m := wr m p pat0 in
  let m := wr m p (not32 (rd m p)) in
  if negb (rd m p =? pat1) then (false, wr m p original_data)
  else
    let m := wr m p (not32 (rd m p)) in
    if negb (rd m p =? pat0) then (false, wr m p original_data)
    else (true, wr m p original_data).

Fixpoint memtest_loop (fuel : nat) (m : words) (addr_current mem_end : Z) : option (Z * words) :=
  match fuel with
  | O => None
  | S fuel =>
      if addr_current <? mem_end then
        let '(ok, m) := probe m addr_current in
        if negb ok then Some (addr_current, m)
        else memtest_loop fuel m (u32 (addr_current + step_4KB)) mem_end
      else Some (u32 (addr_current - step_4KB), m)
  end.

Definition kmemtest_subtest (m : words) (mem_start mem_end : Z) : option (Z * words) :=
  memtest_loop (S (Z.to_nat ((mem_end - mem_start + step_4KB - 1) / step_4KB))) m mem_start mem_end.

(** [ac_kept] says whether the processor keeps the AC flag, as a 486 does; the
    values written to CR0 are returned in order. *)
Definition kmemtest (ac_kept : bool) (eflags cr0 : Z) (m : words) (mem_start mem_end : Z)
  : option (Z * list Z * words) :=
  let eflagsbk := eflags in
  let eflags := Z.lor eflags EFLAGS_MASK_AC in
  let eflags := if ac_kept then eflags else Z.land eflags (not32 EFLAGS_MASK_AC) in
  let is_486_or_above := isMaskBitsAllSet eflags EFLAGS_MASK_AC in
  let cr0bk := cr0 in
  let log := if is_486_or_above then [Z.lor cr0bk CR0_MASK_CD] else [] in
  '(res, m) ← kmemtest_subtest m mem_start mem_end;
  let log := if is_486_or_above then log ++ [cr0bk] else log in
  Some (u32 (s32 res), log, m).

(** ** What it finds *)
Context (m : words) (Hm : forall p, backed p = true -> is_Some (m !! p)).

Lemma probe_spec p : probe m p = (backed p, m).
Proof using Hm.
  unfold probe, rd, wr. destruct (backed p) eqn:Eb.
  - destruct (Hm p Eb) as [v Ev]. rewrite !lookup_insert_eq, Ev. cbn [default from_option].
    change (not32 pat0 =? pat1) with true. change (not32 (not32 pat0) =? pat0) with true. cbn [negb].
    rewrite !insert_insert_eq. by rewrite insert_id.
  - destruct (Z.eqb_spec (bus p) pat1) as [->|]; [|done]. by change (pat1 =? pat0) with false.
Qed.

(** The pages of a region, and what the test finds among them. *)
Definition pages (mem_start mem_end : Z) : nat := Z.to_nat ((mem_end - mem_start + step_4KB - 1) / step_4KB).
Definition page (mem_start : Z) (k : nat) : Z := mem_start + step_4KB * Z.of_nat k.

Definition found (mem_start mem_end res : Z) : Prop :=
  let n := pages mem_start mem_end in
  (exists k, (k < n)%nat /\ backed (page mem_start k) = false /\ res = page mem_start k
     /\ forall j, (j < k)%nat -> backed (page mem_start j) = true)
  \/ (res = u32 (page mem_start n - step_4KB) /\ forall j, (j < n)%nat -> backed (page mem_start j) = true).

Lemma page_before mem_start mem_end j :
  mem_start <= mem_end -> page mem_start j < mem_end <-> (j < pages mem_start mem_end)%nat.
Proof using Type.
  intros Hse.
  assert (Hn : Z.of_nat (pages mem_start mem_end) = (mem_end - mem_start + step_4KB - 1) / step_4KB).
  { unfold pages. rewrite Z2Nat.id; [done|]. unfold step_4KB. apply Z.div_pos; lia. }
  pose proof (Z.div_mod (mem_end - mem_start + step_4KB - 1) step_4KB ltac:(done)) as Hdm.
  pose proof (Z.mod_pos_bound (mem_end - mem_start + step_4KB - 1) step_4KB ltac:(done)) as Hmb.
  rewrite <- Hn in Hdm. generalize dependent (pages mem_start mem_end). intros n Hn Hdm.
  unfold page, step_4KB in *. split; intros; lia.
Qed.

Lemma memtest_loop_finds mem_start mem_end fuel i :
  0 <= mem_start <= mem_end -> mem_end <= 2 ^ 32 - step_4KB ->
  (i <= pages mem_start mem_end)%nat -> (pages mem_start mem_end - i < fuel)%nat ->
  (forall j, (j < i)%nat -> backed (page mem_start j) = true) ->
  exists res, memtest_loop fuel m (page mem_start i) mem_end = Some (res, m) /\ 0 <= res < 2 ^ 32
    /\ found mem_start mem_end res.
Proof using Hm.
  intros Hse He. revert i. induction fuel as [|fuel IH]; intros i Hi Hfu Hb; [lia|]. cbn [memtest_loop].
  pose proof (page_before mem_start mem_end i ltac:(lia)) as Hlt.
  destruct (Z.ltb_spec (page mem_start i) mem_end) as [Hl|Hl].
  - rewrite probe_spec. apply Hlt in Hl as Hin. destruct (backed (page mem_start i)) eqn:Eb; cbn [negb].
    + replace (u32 (page mem_start i + step_4KB)) with (page mem_start (S i)).
      * apply IH; [lia|lia|]. intros j Hj. destruct (decide (j = i)) as [->|]; [done|]. apply Hb. lia.
      * rewrite u32_small; unfold page, step_4KB in *; lia.
    + exists (page mem_start i). split_and!; [done|unfold page, step_4KB in *; lia..|]. left. by exists i.
  - assert (i = pages mem_start mem_end) as ->.
    { destruct (decide (i = pages mem_start mem_end)); [done|]. exfalso.
      assert (page mem_start i < mem_end) by (apply Hlt; lia). lia. }
    eexists. split_and!; [reflexivity|apply u32_range..|]. right. by split.
Qed.

(** The test of the processor: the AC flag survives exactly on those that have it. *)
Lemma ac_test (ac_kept : bool) (eflags : Z) :
  isMaskBitsAllSet (if ac_kept then Z.lor eflags EFLAGS_MASK_AC
     else Z.land (Z.lor eflags EFLAGS_MASK_AC) (not32 EFLAGS_MASK_AC)) EFLAGS_MASK_AC = ac_kept.
Proof using Type.
  unfold isMaskBitsAllSet. destruct ac_kept.
  - apply Z.eqb_eq. apply Z.bits_inj'. intros i Hi. rewrite Z.land_spec, Z.lor_spec.
    by destruct (Z.testbit eflags i), (Z.testbit EFLAGS_MASK_AC i).
  - apply Z.eqb_neq. rewrite <- Z.land_assoc. change (Z.land (not32 EFLAGS_MASK_AC) EFLAGS_MASK_AC) with 0.
    by rewrite Z.land_0_r.
Qed.

(** The memory test stops at the first page whose first word is not memory and
    returns its address, or returns the last page it tested when all are memory;
    it always ends, leaves the memory as it was, and restores the cache bit of
    CR0 after having set it, on processors that have one. *)
Theorem kmemtest_correct ac_kept eflags cr0 mem_start mem_end :
  0 <= mem_start <= mem_end -> mem_end <= 2 ^ 32 - step_4KB ->
  exists res,
    kmemtest ac_kept eflags cr0 m mem_start mem_end
    = Some (res, if ac_kept then [Z.lor cr0 CR0_MASK_CD; cr0] else [], m)
    /\ found mem_start mem_end res.
Proof using Hm.
  intros Hse He.
  destruct (memtest_loop_finds mem_start mem_end (S (pages mem_start mem_end)) 0 Hse He) as (res & E & Hr & HQ);
    [lia|lia|intros; lia|].
  exists res. split; [|done]. unfold kmemtest, kmemtest_subtest. rewrite ac_test. fold (pages mem_start mem_end).
  unfold page in E. rewrite Z.mul_0_r, Z.add_0_r in E. rewrite E. cbn [mbind option_bind].
  assert (u32 (s32 res) = res) as ->.
  { unfold u32, s32. rewrite Zminus_mod_idemp_l. replace (res + 2 ^ 31 - 2 ^ 31) with res by lia. by apply Z.mod_small. }
  by destruct ac_kept.
Qed.
End memtest.

(** Two pages of memory, and nothing behind them. *)
Lemma kmemtest_correct_witness :
  let m : words := {[ 0x7e00 := 5; 0x8e00 := 6 ]} in
  exists res,
    kmemtest (fun a => (a =? 0x7e00) || (a =? 0x8e00)) (fun _ => 0xffffffff) true 2 0x11 m 0x7e00 0x7ffff
    = Some (res, [Z.lor 0x11 CR0_MASK_CD; 0x11], m).
Proof.
  intros m.
  destruct (kmemtest_correct (fun a => (a =? 0x7e00) || (a =? 0x8e00)) (fun _ => 0xffffffff) m) with
    (ac_kept := true) (eflags := 2) (cr0 := 0x11) (mem_start := 0x7e00) (mem_end := 0x7ffff) as (res & E & _).
  - intros p [->%Z.eqb_eq | ->%Z.eqb_eq]%orb_prop; vm_compute; eauto.
  - lia.
  - concrete.
  - exists res. exact E.
Defined.
