(* ===== verification/HeapDebug.v ===== *)
(** * The heap check that can be called by hand, [heap_debug] of src/src/test.c

    The memory test, 28000 blocks taken and given back, and the counters of the heap.
    What it prints is a list of lines, a format with its arguments. *)
From Stdlib Require Import ZArith Lia String.
From stdpp Require Import base option list gmap numbers sorting.
From S2P Require Import Prelude Dlist Heapdl HeapdlInv HeapdlFree HeapdlSpec Allocator Memory Memtest.

#[local] Open Scope string_scope.
#[local] Open Scope list_scope.
#[local] Open Scope Z_scope.

Set Default Proof Using "Type".

(** ** The function *)
Inductive line := Line (format : string) (args : list Z).

(** The loop that takes blocks until it has [n] or the heap is out of them. *)
Fixpoint take_blocks (n : nat) (i : Z) (handlers : list Z) (out : list line) (h : heap) (m : memory)
  : option (list Z * list line * heap * memory) :=
  match n with
  | O => Some (handlers, out, h, m)
  | S n =>
      '(p, h, m) ← kzalloc h m 2048;
      handlers ← handlers$[i := p];
      if p =? 0 then Some (handlers, out ++ [Line "NULL, i: %d" [i]], h, m)
      else take_blocks n (i + 1) handlers out h m
  end.

Definition give_blocks (handlers : list Z) (h : heap) : option heap :=
  for_range 0 28000 (fun i h => p ← handlers$[i]; kfree h p) h.

Section heap_debug.
Context (backed : Z -> bool) (bus : Z -> Z) (ac_kept : bool) (eflags cr0 vram : Z).

Definition heap_debug (w : words) (h : heap) (m : memory) : option (list line * words * heap * memory) :=
  '(mem0, _, w) ← kmemtest backed bus ac_kept eflags cr0 w 0x7E00 0x7ffff;
  '(mem, _, w) ← kmemtest backed bus ac_kept eflags cr0 w OS_HEAP_ADDRESS 0xbfffffff;
  let mem := mem / 1024 / 1024 in
  let out := [Line "mem_test OK from addr %4x to %4x \n" [0x7E00; mem0];
              Line "mem_test OK,&=%dMB~%dMB\n" [OS_HEAP_ADDRESS / 1024 / 1024; mem];
              Line "VRAM: %p\n" [vram];
              Line "Used: %dKB" [k_heapdl_mm_get_usage h / 1024]] in
  let handlers := replicate 30000 0 in
  '(handlers, out, h, m) ← take_blocks (Z.to_nat 28000) 0 handlers out h m;
  h ← give_blocks handlers h;
  '(a, h, m) ← kzalloc h m 10;
  chunks ← debug__k_heapdl_mm_get_chunks (heap_fuel h) h;
  fc ← debug__k_heapdl_mm_get_chunksfree (heap_fuel h) h;
  Some (out ++ [Line "a: %p" [a]; Line "f: %d" [k_heapdl_mm_get_free h / 1024 / 1024];
                Line "chunks: %d" [chunks]; Line "fc: %d" [fc]], w, h, m).
End heap_debug.

(** ** Blocks that are held and given back in any order *)
Lemma filter_agree {A} (P Q : A -> Prop) `{!forall x, Decision (P x)} `{!forall x, Decision (Q x)} (l : list A) :
  (forall x, x ∈ l -> P x <-> Q x) -> filter P l = filter Q l.
Proof.
  induction l as [|x l IH]; intros Hl; [done|]. rewrite !filter_cons.
  rewrite IH by (intros y Hy; apply Hl; by right). pose proof (Hl x ltac:(by left)).
  repeat case_decide; tauto.
Qed.

(** The pointers [ps] are live, and [bs] is what is live apart from them. *)
Record holding (ps : list Z) (bs' bs : list (Z * Z)) : Prop := {
  ho_nodup : NoDup ps;
  ho_live : forall p, p ∈ ps -> p ∈ bs'.*1;
  ho_rest : filter (fun b => b.1 ∉ ps) bs' = bs
}.

Lemma holding_nil bs : holding [] bs bs.
Proof.
  split; [constructor|by intros p ?%elem_of_nil|]. induction bs as [|b bs IH]; [done|].
  rewrite filter_cons, decide_True by apply not_elem_of_nil. by rewrite IH.
Qed.

Section holding.
Context (ps : list Z) (p n : Z) (bs1 bs2 bs : list (Z * Z)).
Context (Hnd : NoDup (bs1 ++ (p, n) :: bs2).*1).

Lemma key_fresh b : b ∈ bs1 ++ bs2 -> b.1 <> p.
Proof using Hnd.
  intros Hb <-. rewrite fmap_app in Hnd. cbn in Hnd. rewrite <- Permutation_middle in Hnd.
  apply list.NoDup_cons in Hnd as [H _]. apply H. rewrite <- fmap_app. apply list_elem_of_fmap. by exists b.
Qed.

Lemma rest_other (P Q : Z * Z -> Prop) `{!forall b, Decision (P b)} `{!forall b, Decision (Q b)} :
  ~ P (p, n) -> (forall b, b ∈ bs1 ++ bs2 -> P b <-> Q b) ->
  filter P (bs1 ++ (p, n) :: bs2) = filter Q (bs1 ++ bs2).
Proof using Type.
  intros HP Hb. rewrite <- (filter_agree P Q) by done. by rewrite !list.filter_app, filter_cons, decide_False by done.
Qed.

Lemma holding_take : holding ps (bs1 ++ bs2) bs -> holding (ps ++ [p]) (bs1 ++ (p, n) :: bs2) bs.
Proof using Hnd.
  intros [H1 H2 H3].
  assert (Hp : p ∉ ps).
  { intros (b & Eb & Hb)%H2%list_elem_of_fmap. apply (key_fresh b); congruence. }
  split.
  - apply NoDup_app. split_and!; [done| |apply NoDup_singleton]. intros q Hq ->%list_elem_of_singleton. done.
  - intros q. rewrite elem_of_app, list_elem_of_singleton, fmap_app, fmap_cons, elem_of_app, elem_of_cons.
    intros [Hq%H2| ->]; [|tauto]. rewrite fmap_app, elem_of_app in Hq. tauto.
  - rewrite <- H3. apply rest_other; cbn [fst].
    + rewrite elem_of_app, list_elem_of_singleton. tauto.
    + intros b Hb. pose proof (key_fresh b Hb). rewrite elem_of_app, list_elem_of_singleton. tauto.
Qed.

Lemma holding_give : holding (p :: ps) (bs1 ++ (p, n) :: bs2) bs -> holding ps (bs1 ++ bs2) bs.
Proof using Hnd.
  intros [H1 H2 H3]. apply list.NoDup_cons in H1 as [Hp H1]. split; [done| |].
  - intros q Hq. assert (q <> p) by (by intros ->). specialize (H2 q ltac:(by right)).
    rewrite fmap_app, fmap_cons, elem_of_app, elem_of_cons in H2. rewrite fmap_app, elem_of_app.
    cbn in H2. tauto.
  - rewrite <- H3. symmetry. apply rest_other.
    + rewrite elem_of_cons. cbn [fst]. tauto.
    + intros b Hb. pose proof (key_fresh b Hb). rewrite elem_of_cons. tauto.
Qed.
End holding.

(** ** It returns, and gives back what it took *)
Lemma live_nodup h bs : heapdl_live h bs -> NoDup bs.*1.
Proof.
  intros Hl. apply sorted_before_nodup; [|by apply (live_nonneg (Allocator0 := heapdl_allocator) h)].
  exact (al_sorted (Allocator := heapdl_allocator) h bs Hl).
Qed.

Lemma handlers_at (pre l : list Z) x : (pre ++ x :: l)$[Z.of_nat (length pre)] = Some x.
Proof. rewrite lookupZ_nat. by apply list_lookup_middle. Qed.

Lemma update_at (pre l : list Z) x y : (pre ++ x :: l)$[Z.of_nat (length pre) := y] = Some (pre ++ y :: l).
Proof.
  rewrite updateZ_nat by (rewrite length_app; cbn; lia). by rewrite insert_app_r_alt, Nat.sub_diag.
Qed.

Lemma take_blocks_spec n ps k out h m bs' bs :
  (n <= k)%nat -> heapdl_live h bs' -> holding ps bs' bs ->
  exists ps' k' out' h' m' bs'',
    take_blocks n (Z.of_nat (length ps)) (ps ++ replicate k 0) out h m = Some (ps' ++ replicate k' 0, out', h', m')
    /\ (length ps' + k' = length ps + k)%nat /\ (length ps' <= length ps + n)%nat
    /\ heapdl_live h' bs'' /\ holding ps' bs'' bs.
Proof.
  revert ps k out h m bs'. induction n as [|n IH]; intros ps k out h m bs' Hn Hl Hh; cbn [take_blocks].
  { exists ps, k, out, h, m, bs'. split_and!; [done|done|lia|done|done]. }
  destruct (kzalloc_correct h m bs' 2048 Hl) as (p & h' & m' & -> & _ & Hc); [done|done|]. rewrite bind_Some_eq. cbv beta iota zeta.
  destruct k as [|k]; [lia|]. cbn [replicate]. rewrite update_at, bind_Some_eq. cbv beta.
  destruct Hc as [(-> & -> & ->)|(bs1 & bs2 & s & -> & _ & Hl' & _)].
  - change (0 =? 0) with true. cbv iota. exists ps, (S k), (out ++ [Line "NULL, i: %d" [Z.of_nat (length ps)]]), h, m, bs'.
    split_and!; [done|done|lia|done|done].
  - destruct (live_block_range _ _ p s Hl') as [Hp _]; [rewrite elem_of_app, elem_of_cons; tauto|].
    destruct (Z.eqb_spec p 0); [lia|].
    destruct (IH (ps ++ [p]) k out h' m' (bs1 ++ (p, s) :: bs2)) as (ps' & k' & out' & h'' & m'' & bs'' & E & H1 & H2 & H3 & H4);
      [lia|done|by apply holding_take; [eapply live_nodup|]|].
    rewrite length_app in *. cbn [length] in *. rewrite <- app_assoc, Nat2Z.inj_add in E. cbn [app] in E.
    exists ps', k', out', h'', m'', bs''. split_and!; [exact E|lia|lia|done|done].
Qed.

Lemma give_blocks_loop n handlers pre qs k h bs' bs :
  handlers = pre ++ qs ++ replicate k 0 -> (length qs <= n <= length qs + k)%nat ->
  heapdl_live h bs' -> holding qs bs' bs ->
  exists h', for_loop n (Z.of_nat (length pre)) (fun i h => p ← handlers$[i]; kfree h p) h = Some h' /\ heapdl_live h' bs.
Proof.
  revert pre qs k h bs'. induction n as [|n IH]; intros pre qs k h bs' Eh Hn Hl Hh; cbn [for_loop].
  { destruct qs as [|q qs]; [|cbn in Hn; lia]. exists h. split; [done|].
    rewrite <- (ho_rest _ _ _ Hh). by rewrite (ho_rest _ _ _ (holding_nil bs')). }
  destruct qs as [|q qs].
  - destruct k as [|k]; [cbn in Hn; lia|]. cbn [app replicate] in Eh. assert (handlers$[Z.of_nat (length pre)] = Some 0) as -> by (rewrite Eh; apply handlers_at).
    cbn [mbind option_bind]. change (kfree h 0) with (Some h). cbn [mbind option_bind].
    replace (Z.of_nat (length pre) + 1) with (Z.of_nat (length (pre ++ [0]))) by (rewrite length_app; cbn; lia).
    apply (IH _ [] k _ bs'); [by rewrite Eh, <- app_assoc|cbn in *; lia|done|done].
  - cbn [app] in Eh. assert (handlers$[Z.of_nat (length pre)] = Some q) as -> by (rewrite Eh; apply handlers_at). cbn [mbind option_bind].
    destruct (proj1 (list_elem_of_fmap _ _ _) (ho_live _ _ _ Hh q ltac:(by left))) as ([p s] & -> & (bs1 & bs2 & ->)%list_elem_of_split).
    cbn [fst] in *. destruct (heapdl_free_live _ _ _ _ _ Hl) as (h' & -> & _ & Hl'). cbn [mbind option_bind].
    replace (Z.of_nat (length pre) + 1) with (Z.of_nat (length (pre ++ [p]))) by (rewrite length_app; cbn; lia).
    apply (IH _ qs k _ (bs1 ++ bs2)); [by rewrite Eh, <- app_assoc|cbn in *; lia|done|].
    eapply holding_give; [by eapply live_nodup|exact Hh].
Qed.

Lemma counts_return h bs :
  heapdl_live h bs -> exists fc chunks,
    debug__k_heapdl_mm_get_chunksfree (heap_fuel h) h = Some fc
    /\ debug__k_heapdl_mm_get_chunks (heap_fuel h) h = Some chunks.
Proof.
  intros (cs & fl & Hr & _). destruct (chunk_counts h cs fl (heap_fuel h) Hr) as [-> ->]; [|eauto].
  pose proof (tiles_length _ _ _ (hr_tiles _ _ _ Hr)). pose proof (first_last _ _ _ Hr).
  unfold heap_fuel, sizeof_CHUNK in *.
  assert (Z.of_nat (length cs) + 1 <= (last h - first h) / 32) by (apply Z.div_le_lower_bound; lia).
  lia.
Qed.

(** The check can be run at any moment: it ends on every heap, also on one that has no
    room for its blocks, leaves the memory that it probes as it was, and gives back all
    it takes apart from its last ten bytes. *)
Theorem heap_debug_leaves backed bus ac_kept eflags cr0 vram w h m bs :
  (forall p, backed p = true -> is_Some (w !! p)) -> heapdl_live h bs ->
  exists out h' m' bs',
    heap_debug backed bus ac_kept eflags cr0 vram w h m = Some (out, w, h', m') /\ heapdl_live h' bs'
    /\ (bs' = bs \/ exists bs1 bs2 p n, bs = bs1 ++ bs2 /\ 10 <= n /\ bs' = bs1 ++ (p, n) :: bs2).
Proof.
  intros Hw Hl. unfold heap_debug.
  destruct (kmemtest_correct backed bus w Hw ac_kept eflags cr0 0x7E00 0x7ffff) as (mem0 & -> & _); [done..|].
  destruct (kmemtest_correct backed bus w Hw ac_kept eflags cr0 OS_HEAP_ADDRESS 0xbfffffff) as (mem & E & _); [done..|].
  rewrite bind_Some_eq. cbv beta iota zeta. rewrite E, bind_Some_eq. cbv beta iota zeta. clear E.
  match goal with |- context [take_blocks _ _ _ ?l _ _] => generalize l; intros out end.
  destruct (take_blocks_spec (Z.to_nat 28000) [] (Z.to_nat 30000) out h m bs bs)
    as (ps & k & out' & h1 & m1 & bs1 & E & H1 & H2 & Hl1 & Hh); [lia|done|apply holding_nil|].
  cbn [length Nat.add] in H1, H2. change (Z.of_nat (length (@nil Z))) with 0 in E. cbn [app] in E.
  replace (replicate 30000 0) with (replicate (Z.to_nat 30000) 0) by (f_equal; lia).
  rewrite E, bind_Some_eq. cbv beta iota zeta. clear E.
  destruct (give_blocks_loop (Z.to_nat (28000 - 0)) (ps ++ replicate k 0) [] ps k h1 bs1 bs) as (h2 & E & Hl2);
    [done|lia|done|done|].
  change (Z.of_nat (length (@nil Z))) with 0 in E. unfold give_blocks, for_range. rewrite E, bind_Some_eq. cbv beta.
  destruct (kzalloc_correct h2 m1 bs 10 Hl2) as (p & h3 & m2 & -> & _ & Hc); [done|done|]. rewrite bind_Some_eq. cbv beta iota zeta.
  assert (exists bs', heapdl_live h3 bs' /\ (bs' = bs \/ exists bs1 bs2 p n, bs = bs1 ++ bs2 /\ 10 <= n /\ bs' = bs1 ++ (p, n) :: bs2))
    as (bs' & Hl3 & Hb).
  { destruct Hc as [(_ & -> & _)|(l1 & l2 & n & -> & Hn & Hl3 & _)]; [by exists bs; auto|].
    eexists. split; [exact Hl3|]. right. by exists l1, l2, p, n. }
  destruct (counts_return _ _ Hl3) as (fc & chunks & -> & ->).
  eexists _, h3, m2, bs'. split; [reflexivity|]. by split.
Qed.
