(* ===== verification/HeapTable.v ===== *)
(** * The alternative heap, src/src/memory/heap.c and src/src/memory/kheap.c

    A table with one byte for each block of 4096 bytes.  The kernel selects the
    other heap ([OS_HEAP_MM_ALT] is 0); this one is compiled and kept as an
    alternative. *)
From Stdlib Require Import ZArith Lia.
From stdpp Require Import base option list numbers.
From S2P Require Import Prelude Kutil Memory.

Set Default Proof Using "Type".

Definition HEAP_BLOCK_TABLE_ENTRY_TAKEN : Z := 0x01.
Definition HEAP_BLOCK_TABLE_ENTRY_FREE : Z := 0x00.
Definition HEAP_BLOCK_HAS_NEXT : Z := 128.
Definition HEAP_BLOCK_IS_FIRST : Z := 64.
Definition HBLOCK_SIZE : Z := 4096.

Record HEAP_TABLE := mkTABLE { entries : list Z; total_blocks : Z }.
Record HEAP := mkHEAP { table : HEAP_TABLE; start_addr : Z }.

Definition set_entries (h : HEAP) (l : list Z) : HEAP :=
  mkHEAP (mkTABLE l (total_blocks (table h))) (start_addr h).
Definition put_entry (h : HEAP) (i e : Z) : option HEAP :=
  l ← (entries (table h))$[i := e]; Some (set_entries h l).

Definition heap_validate_alignment (ptr : Z) : bool := ptr mod HBLOCK_SIZE =? 0.

Definition heap_validate_table (heap_start heap_end : Z) (t : HEAP_TABLE) : Z :=
  let total_memory_size := u32 (heap_end - heap_start) in
  let expected_total_table_blocks := total_memory_size / HBLOCK_SIZE in
  if negb (total_blocks t =? expected_total_table_blocks) then - EINVARG else 0.

(** On misaligned addresses the error code is set and then not returned. *)
Definition heap_create (h : HEAP) (heap_start heap_end : Z) (t : HEAP_TABLE) : option (Z * HEAP) :=
  if negb (heap_validate_alignment heap_start) || negb (heap_validate_alignment heap_end) then Some (0, h)
  else
    let res := heap_validate_table heap_start heap_end t in
    if res <? 0 then Some (res, h)
    else
      l ← kmemset (entries t) 0 (total_blocks t);
      Some (0, mkHEAP (mkTABLE l (total_blocks t)) heap_start).

Definition heap_table_heap_align_to_upper (val : Z) : Z :=
  let residual := val mod HBLOCK_SIZE in
  if residual =? 0 then val else u32 (val + (HBLOCK_SIZE - residual)).
Definition heap_table_heap_align_to_lower (val : Z) : Z :=
  let residual := val mod HBLOCK_SIZE in
  if residual =? 0 then val else u32 (val - residual).

Definition heap_get_entry_type (entry : Z) : Z := Z.land entry 0x0f.

Definition heap_get_start_block (h : HEAP) (blocks : Z) : option Z :=
  let t := table h in
  r ← loop_until (Z.to_nat (total_blocks t)) 0 (fun i continuous_free_block_counter =>
        e ← (entries t)$[i];
        if negb (heap_get_entry_type e =? HEAP_BLOCK_TABLE_ENTRY_FREE) then Some (Continue 0)
        else
          let n := u32 (continuous_free_block_counter + 1) in
          Some (if n =? blocks then Return n i else Continue n)) 0;
  match r with
  | Return _ i => Some (u32 i)
  | _ => Some (u32 (- ENOMEM))
  end.

Definition heap_block_to_address (h : HEAP) (block : Z) : Z := u32 (start_addr h + u32 (block * HBLOCK_SIZE)).

Definition heap_mark_blocks_taken (h : HEAP) (start_block blocks : Z) : option HEAP :=
  let end_block := u32 (start_block + blocks - 1) in
  let entry := if blocks >? 1 then Z.lor HEAP_BLOCK_TABLE_ENTRY_TAKEN HEAP_BLOCK_HAS_NEXT
               else HEAP_BLOCK_TABLE_ENTRY_TAKEN in
  h ← put_entry h start_block (Z.lor entry HEAP_BLOCK_IS_FIRST);
  h ← for_range (start_block + 1) end_block (fun i h => put_entry h i entry) h;
  put_entry h end_block HEAP_BLOCK_TABLE_ENTRY_TAKEN.

Definition heap_malloc_blocks (h : HEAP) (blocks : Z) : option (Z * HEAP) :=
  b ← heap_get_start_block h blocks;
  let start_block := s32 b in
  if start_block <? 0 then Some (0, h)
  else
    let address := heap_block_to_address h start_block in
    h ← heap_mark_blocks_taken h start_block blocks;
    Some (address, h).

Definition heap_malloc (h : HEAP) (size : Z) : option (Z * HEAP) :=
  let aligned_size := heap_table_heap_align_to_upper size in
  heap_malloc_blocks h (aligned_size / HBLOCK_SIZE).

(** Pointers are unsigned, their difference is not. *)
Definition heap_address_to_block (h : HEAP) (ptr : Z) : Z := u32 (s32 (ptr - start_addr h)) / HBLOCK_SIZE.

(** The loop returns in its first turn. *)
Definition heap_mark_blocks_free (h : HEAP) (start_block : Z) : option HEAP :=
  e ← (entries (table h))$[start_block];
  if negb (Z.land e 1 =? HEAP_BLOCK_TABLE_ENTRY_FREE) then put_entry h start_block HEAP_BLOCK_TABLE_ENTRY_FREE
  else Some h.

Definition heap_free (h : HEAP) (ptr : Z) : option HEAP :=
  heap_mark_blocks_free h (heap_address_to_block h ptr).

(** ** src/src/memory/kheap.c *)
Definition k_heap_table_mm_init (h : HEAP) (mem : list Z) : option (Z * HEAP) :=
  let total_memory_blocks := Z.quot OS_HEAP_SIZE_BYTES HBLOCK_SIZE in
  heap_create h OS_HEAP_ADDRESS (OS_HEAP_ADDRESS + OS_HEAP_SIZE_BYTES) (mkTABLE mem total_memory_blocks).
Definition k_heap_table_mm_malloc (h : HEAP) (size : Z) : option (Z * HEAP) := heap_malloc h size.
Definition k_heap_table_mm_free (h : HEAP) (ptr : Z) : option HEAP := heap_free h ptr.

(** ** Blocks *)
Definition is_free (l : list Z) (i : Z) : bool :=
  match l$[i] with Some e => heap_get_entry_type e =? HEAP_BLOCK_TABLE_ENTRY_FREE | None => false end.

(** The [n] blocks that end with block [i] are free. *)
Definition run_ends (l : list Z) (n i : Z) : Prop := forall j, i - n < j <= i -> is_free l j = true.

(** One turn of the search: [c] counts the free blocks just before [i]. *)
Definition search_body (l : list Z) (n i c : Z) : option (step Z Z) :=
  e ← l$[i];
  if negb (heap_get_entry_type e =? HEAP_BLOCK_TABLE_ENTRY_FREE) then Some (Continue 0)
  else let n0 := u32 (c + 1) in Some (if n0 =? n then Return n0 i else Continue n0).

Lemma search_body_eq l n i c :
  0 <= i < Z.of_nat (length l) -> 0 <= c < 2 ^ 31 ->
  search_body l n i c = Some (if is_free l i then (if c + 1 =? n then Return (c + 1) i else Continue (c + 1))
                              else Continue 0).
Proof.
  intros Hi Hc. unfold search_body, is_free. destruct (lookupZ_is_Some l i Hi) as [e ->]. cbn [mbind option_bind].
  rewrite u32_small by lia. by destruct (heap_get_entry_type e =? HEAP_BLOCK_TABLE_ENTRY_FREE).
Qed.

Lemma run_snoc l c i : run_ends l c (i - 1) -> is_free l i = true -> run_ends l (c + 1) i.
Proof. intros Hr Hf j Hj. destruct (decide (j = i)) as [->|]; [done|]. apply Hr. lia. Qed.

(** Before [i] no row was long enough, the last one has [c] blocks. *)
Lemma search_finds l n k i c :
  i + Z.of_nat k = Z.of_nat (length l) -> Z.of_nat (length l) < 2 ^ 31 -> 0 <= c <= i -> c < n ->
  run_ends l c (i - 1) -> (c < i -> is_free l (i - 1 - c) = false) ->
  (forall i', n - 1 <= i' < i -> ~ run_ends l n i') ->
  (exists j v, loop_until k i (search_body l n) c = Some (Return v j) /\ n - 1 <= j < Z.of_nat (length l)
     /\ run_ends l n j /\ forall i', n - 1 <= i' < j -> ~ run_ends l n i')
  \/ (exists c', loop_until k i (search_body l n) c = Some (Continue c')
      /\ forall i', n - 1 <= i' < Z.of_nat (length l) -> ~ run_ends l n i').
Proof.
  revert i c. induction k as [|k IH]; intros i c Hk Hb Hc Hcn Hrun Hstop Hno; cbn [loop_until].
  { right. exists c. split; [done|]. intros i' Hi'. apply Hno. lia. }
  rewrite search_body_eq by lia. cbn [mbind option_bind]. destruct (is_free l i) eqn:Ef.
  - destruct (Z.eqb_spec (c + 1) n) as [En|En].
    + left. eexists _, _. split; [reflexivity|]. split_and!; [lia|lia| |done]. rewrite <- En. by apply run_snoc.
    + apply (IH (i + 1) (c + 1)); [lia|lia|lia|lia| | |].
      * replace (i + 1 - 1) with i by lia. by apply run_snoc.
      * intros Hlt. replace (i + 1 - 1 - (c + 1)) with (i - 1 - c) by lia. apply Hstop. lia.
      * intros i' Hi'. destruct (decide (i' = i)) as [->|]; [|apply Hno; lia].
        intros Hr. assert (is_free l (i - 1 - c) = true) as Ht by (apply Hr; lia). rewrite Hstop in Ht by lia. done.
  - apply (IH (i + 1) 0); [lia|lia|lia|lia| | |].
    + intros j Hj. lia.
    + intros _. by replace (i + 1 - 1 - 0) with i by lia.
    + intros i' Hi'. destruct (decide (i' = i)) as [->|]; [|apply Hno; lia].
      intros Hr. rewrite (Hr i) in Ef by lia. done.
Qed.

Lemma heap_get_start_block_eq h n :
  heap_get_start_block h n
  = (r ← loop_until (Z.to_nat (total_blocks (table h))) 0 (search_body (entries (table h)) n) 0;
     Some (match r with Return _ i => u32 i | _ => u32 (- ENOMEM) end)).
Proof.
  unfold heap_get_start_block, search_body. cbv zeta.
  match goal with |- context [loop_until ?k ?i ?f ?c] => by destruct (loop_until k i f c) as [[]|] end.
Qed.

(** The search for [n] free blocks in a row ends, and returns the number of
    the last block of the first such row, not of its first block; there is none
    when it returns the error. *)
Theorem start_block_is_last h n :
  0 < n -> Z.of_nat (length (entries (table h))) = total_blocks (table h) -> total_blocks (table h) < 2 ^ 31 ->
  (exists i, heap_get_start_block h n = Some i /\ n - 1 <= i < total_blocks (table h)
     /\ run_ends (entries (table h)) n i
     /\ forall i', n - 1 <= i' < i -> ~ run_ends (entries (table h)) n i')
  \/ (heap_get_start_block h n = Some (u32 (- ENOMEM))
      /\ forall i', n - 1 <= i' < total_blocks (table h) -> ~ run_ends (entries (table h)) n i').
Proof.
  intros Hn Hl Hb. rewrite heap_get_start_block_eq. rewrite <- Hl in *.
  destruct (search_finds (entries (table h)) n (Z.to_nat (Z.of_nat (length (entries (table h))))) 0 0)
    as [(j & v & -> & Hj & Hr & Hm)|(c' & -> & Hm)]; [lia|lia|lia|lia|intros j Hj; lia|lia|intros; lia| |].
  - left. exists j. cbn [mbind option_bind]. rewrite u32_small by lia. done.
  - right. done.
Qed.

Lemma start_block_is_last_witness :
  let h := mkHEAP (mkTABLE [1; 0; 0; 0] 4) 0x01000000 in
  heap_get_start_block h 2 = Some 2 /\ run_ends (entries (table h)) 2 2.
Proof.
  intros h.
  destruct (start_block_is_last h 2 ltac:(lia) eq_refl ltac:(reflexivity)) as [(i & E & _ & Hr & _)|[E _]].
  - assert (i = 2) as -> by (vm_compute in E; congruence). done.
  - exfalso. vm_compute in E. congruence.
Defined.

(** So a request for two blocks can be given a block that is in use: after
    three requests for a block and the release of the first two, the two blocks of
    the next request are the second and the third one, which is still held. *)
Theorem table_blocks_overlap :
  exists h1 h2 h3 h4 h5 h6 b0 b1 b2 b,
    let h0 := mkHEAP (mkTABLE (replicate 8 0) 8) 0x01000000 in
    heap_malloc h0 4096 = Some (b0, h1) /\ heap_malloc h1 4096 = Some (b1, h2)
    /\ heap_malloc h2 4096 = Some (b2, h3)
    /\ heap_free h3 b0 = Some h4 /\ heap_free h4 b1 = Some h5
    /\ heap_malloc h5 8192 = Some (b, h6)
    /\ b <= b2 < b + 8192.
Proof. do 10 eexists. cbv zeta. split_and!; [vm_compute; reflexivity..| |]; vm_compute; congruence. Qed.
