(* ===== verification/Error.v ===== *)
(** * Errors of the 64-bit kernel, src/src/error.hpp

    An [Error] is a code with the place in the source where it was made; the
    place is only printed, so the models carry the code. *)
From Stdlib Require Import ZArith.
From stdpp Require Import base option list strings.
From S2P Require Import Prelude.

Inductive Code :=
| kSuccess | kFull | kEmpty | kNoEnoughMemory | kIndexOutOfRange | kHostControllerNotHalted
| kInvalidSlotID | kPortNotConnected | kInvalidEndpointNumber | kTransferRingNotSet
| kAlreadyAllocated | kNotImplemented | kInvalidDescriptor | kBufferTooSmall | kUnknownDevice
| kNoCorrespondingSetupStage | kTransferFailed | kInvalidPhase | kUnknownXHCISpeedID
| kNoWaiter | kEndpointNotInCharge | kNoPCIMSI.

#[global] Instance Code_eq_dec : EqDecision Code.
Proof. solve_decision. Defined.

(** The conversion to [bool]: true for an error. *)
Definition is_error (c : Code) : bool := bool_decide (c <> kSuccess).
