(* ===== verification/ErrorNames.v ===== *)
(** * The names of the error codes, src/src/error.hpp

    An error with its place in the source, and the table that names its code. *)
From Stdlib Require Import ZArith Lia String.
From stdpp Require Import base option list strings.
From S2P Require Import Prelude Error.

#[local] Open Scope string_scope.
#[local] Open Scope list_scope.
#[local] Open Scope Z_scope.

Set Default Proof Using "Type".

(** The number of a code is its place in the enumeration. *)
Definition codes : list Code := [
  kSuccess; kFull; kEmpty; kNoEnoughMemory; kIndexOutOfRange; kHostControllerNotHalted;
  kInvalidSlotID; kPortNotConnected; kInvalidEndpointNumber; kTransferRingNotSet;
  kAlreadyAllocated; kNotImplemented; kInvalidDescriptor; kBufferTooSmall; kUnknownDevice;
  kNoCorrespondingSetupStage; kTransferFailed; kInvalidPhase; kUnknownXHCISpeedID;
  kNoWaiter; kEndpointNotInCharge; kNoPCIMSI].

Fixpoint index_of (c : Code) (l : list Code) : Z :=
  match l with
  | [] => 0
  | d :: l => if decide (c = d) then 0 else 1 + index_of c l
  end.
Definition code_number (c : Code) : Z := index_of c codes.
Definition kLastOfCode : Z := 22.

Definition code_names_ : list string := [
  "kSuccess"; "kFull"; "kEmpty"; "kNoEnoughMemory"; "kIndexOutOfRange"; "kHostControllerNotHalted";
  "kInvalidSlotID"; "kPortNotConnected"; "kInvalidEndpointNumber"; "kTransferRingNotSet";
  "kAlreadyAllocated"; "kNotImplemented"; "kInvalidDescriptor"; "kBufferTooSmall"; "kUnknownDevice";
  "kNoCorrespondingSetupStage"; "kTransferFailed"; "kInvalidPhase"; "kUnknownXHCISpeedID";
  "kNoWaiter"; "kEndpointNotInCharge"; "kNoPCIMSI"].

Record Error := mkError { code_ : Code; file_ : string; line_ : Z }.
Definition Cause (e : Error) : Code := code_ e.
Definition Name (e : Error) : option string := code_names_$[code_number (code_ e)].

(** The assertion of the source. *)
Example names_complete : Z.of_nat (length code_names_) = kLastOfCode.
Proof. reflexivity. Qed.

(** Each error has a name, and the name tells which code it is. *)
Lemma Name_total e : exists n, Name e = Some n.
Proof. destruct e as [[] f l]; eexists; reflexivity. Qed.

Lemma Name_inj e e' : Name e = Name e' -> Cause e = Cause e'.
Proof. destruct e as [[] f l], e' as [[] f' l']; vm_compute; intros E; solve [reflexivity|discriminate E]. Qed.
