(* ===== verification/Frames.v ===== *)
(** * Physical memory frames, src/src/memory_manager.cpp

    The bitmap allocator of the 64-bit kernel, and the loop of src/src/main.cpp
    that fills the bitmap from the memory map of the firmware.  A [FrameID] is its
    number.  One bit of [alloc_map_] stands for each frame of 4 KiB. *)
From Stdlib Require Import ZArith Lia.
From stdpp Require Import base option list numbers.
From S2P Require Import Prelude Error.

Set Default Proof Using "Type".

Definition KiB (kib : Z) : Z := kib * 1024.
Definition MiB (mib : Z) : Z := mib * KiB 1024.
Definition GiB (gib : Z) : Z := gib * MiB 1024.
Definition kBytesPerFrame : Z := KiB 4.
Definition kNullFrame : Z := 2 ^ 64 - 1.
Definition Frame (id : Z) : Z := u64 (id * kBytesPerFrame).

Definition kMaxPhysicalMemoryBytes : Z := GiB 128.
Definition kFrameCount : Z := kMaxPhysicalMemoryBytes / kBytesPerFrame.
Definition kBitsPerMapLine : Z := 64.

Record BitmapMemoryManager := mkMM { alloc_map_ : list Z; range_begin_ : Z; range_end_ : Z }.

Definition BitmapMemoryManager_new : BitmapMemoryManager :=
  mkMM (replicate (Z.to_nat (kFrameCount / kBitsPerMapLine)) 0) 0 kFrameCount.

Definition line_bit (bit_index : Z) : Z := u64 (Z.shiftl 1 bit_index).

Definition GetBit (m : BitmapMemoryManager) (frame : Z) : option bool :=
  let line_index := frame / kBitsPerMapLine in
  let bit_index := frame mod kBitsPerMapLine in
  line ← (alloc_map_ m)$[line_index];
  Some (negb (Z.land line (line_bit bit_index) =? 0)).

Definition SetBit (m : BitmapMemoryManager) (frame : Z) (allocated : bool) : option BitmapMemoryManager :=
  let line_index := frame / kBitsPerMapLine in
  let bit_index := frame mod kBitsPerMapLine in
  line ← (alloc_map_ m)$[line_index];
  let line := if allocated then Z.lor line (line_bit bit_index)
              else Z.land line (u64 (Z.lnot (line_bit bit_index))) in
  l ← (alloc_map_ m)$[line_index := line];
  Some (mkMM l (range_begin_ m) (range_end_ m)).

Definition MarkAllocated (m : BitmapMemoryManager) (start_frame num_frames : Z) : option BitmapMemoryManager :=
  for_range 0 num_frames (fun i m => SetBit m (u64 (start_frame + i)) true) m.

Definition Free (m : BitmapMemoryManager) (start_frame num_frames : Z) : option (Code * BitmapMemoryManager) :=
  m ← for_range 0 num_frames (fun i m => SetBit m (u64 (start_frame + i)) false) m;
  Some (kSuccess, m).

Definition SetMemoryRange (m : BitmapMemoryManager) (range_begin range_end : Z) : BitmapMemoryManager :=
  mkMM (alloc_map_ m) range_begin range_end.

(** The scan of [num_frames] frames from [start_frame_id]: it returns when the
    range ends, and breaks at a frame in use; the state is [i]. *)
Definition scan_frames (m : BitmapMemoryManager) (start_frame_id num_frames : Z) : option (step Z unit) :=
  loop_until (Z.to_nat num_frames) 0 (fun (i _ : Z) =>
    if u64 (start_frame_id + i) >=? range_end_ m then Some (Return i tt)
    else
      b ← GetBit m (u64 (start_frame_id + i));
      Some (if b : bool then Break i else Continue (i + 1))) 0.

Fixpoint Allocate_from (fuel : nat) (m : BitmapMemoryManager) (start_frame_id num_frames : Z)
  : option (Z * Code * BitmapMemoryManager) :=
  match fuel with
  | O => None
  | S fuel =>
      r ← scan_frames m start_frame_id num_frames;
      match r with
      | Return _ _ => Some (kNullFrame, kNoEnoughMemory, m)
      | Continue i | Break i =>
          if i =? num_frames then
            m ← MarkAllocated m start_frame_id num_frames;
            Some (start_frame_id, kSuccess, m)
          else Allocate_from fuel m (u64 (start_frame_id + (i + 1))) num_frames
      end
  end.

(** Each round starts at a later frame, so a round for each frame of the range
    and one more are enough. *)
Definition Allocate (m : BitmapMemoryManager) (num_frames : Z) : option (Z * Code * BitmapMemoryManager) :=
  Allocate_from (S (Z.to_nat (range_end_ m - range_begin_ m))) m (range_begin_ m) num_frames.

(** ** The memory map, src/src/memory_map.hpp and src/src/main.cpp *)
Definition kEfiBootServicesCode : Z := 3.
Definition kEfiBootServicesData : Z := 4.
Definition kEfiConventionalMemory : Z := 7.

Definition IsAvailable (memory_type : Z) : bool :=
  (memory_type =? kEfiBootServicesCode) || (memory_type =? kEfiBootServicesData)
  || (memory_type =? kEfiConventionalMemory).

Definition kUEFIPageSize : Z := 4096.

Record MemoryDescriptor := mkDesc { d_type : Z; physical_start : Z; number_of_pages : Z }.

(** The loop over the descriptors, and the range that follows it. *)
Fixpoint map_loop (ds : list MemoryDescriptor) (m : BitmapMemoryManager) (available_end : Z)
  : option (BitmapMemoryManager * Z) :=
  match ds with
  | [] => Some (m, available_end)
  | desc :: ds =>
      if physical_start desc >? GiB 128 then Some (m, available_end)
      else
        m ← (if available_end <? physical_start desc then
               MarkAllocated m (available_end / kBytesPerFrame)
                 ((physical_start desc - available_end) / kBytesPerFrame)
             else Some m);
        let physical_end := u64 (physical_start desc + number_of_pages desc * kUEFIPageSize) in
        if IsAvailable (d_type desc) then map_loop ds m physical_end
        else
          m ← MarkAllocated m (physical_start desc / kBytesPerFrame)
                (u64 (number_of_pages desc * kUEFIPageSize) / kBytesPerFrame);
          map_loop ds m available_end
  end.

Definition setup_frames (memoryMap : list MemoryDescriptor) : option BitmapMemoryManager :=
  '(m, available_end) ← map_loop memoryMap BitmapMemoryManager_new 0;
  Some (SetMemoryRange m 1 (available_end / kBytesPerFrame)).

(** ** The set of frames in use *)
Definition frames (m : BitmapMemoryManager) : Z := kBitsPerMapLine * Z.of_nat (length (alloc_map_ m)).
Definition marked (m : BitmapMemoryManager) (f : Z) : bool := default false (GetBit m f).

(** The map is long enough for its range, which frame numbers cannot leave. *)
Record mm_ok (m : BitmapMemoryManager) : Prop := {
  ok_lines : Forall (fun line => 0 <= line < 2 ^ 64) (alloc_map_ m);
  ok_size : frames m < 2 ^ 63;
  ok_range : 0 <= range_begin_ m <= range_end_ m;
  ok_end : range_end_ m <= frames m
}.

Definition in_run (s n f : Z) : bool := (s <=? f) && (f <? s + n).
Definition free_run (m : BitmapMemoryManager) (s n : Z) : Prop := forall f, s <= f < s + n -> marked m f = false.

(** [m'] differs from [m] in that the frames [s .. s+n-1] are [b]. *)
Definition changed (m m' : BitmapMemoryManager) (s n : Z) (b : bool) : Prop :=
  frames m' = frames m /\ range_begin_ m' = range_begin_ m /\ range_end_ m' = range_end_ m
  /\ Forall (fun line => 0 <= line < 2 ^ 64) (alloc_map_ m')
  /\ forall f, 0 <= f -> marked m' f = if in_run s n f then b else marked m f.

Lemma in_run_spec s n f : in_run s n f = true <-> s <= f < s + n.
Proof. unfold in_run. rewrite andb_true_iff, Z.leb_le, Z.ltb_lt. done. Qed.

(** ** One bit *)
Lemma line_bit_eq k : 0 <= k < 64 -> line_bit k = 2 ^ k.
Proof.
  intros Hk. unfold line_bit. rewrite Z.shiftl_1_l. apply Z.mod_small.
  split; [apply Z.pow_nonneg; lia|]. apply Z.pow_lt_mono_r; lia.
Qed.

Lemma land_bit line k : 0 <= k -> negb (Z.land line (2 ^ k) =? 0) = Z.testbit line k.
Proof.
  intros Hk. destruct (Z.testbit line k) eqn:E.
  - apply negb_true_iff, Z.eqb_neq. intros H0. apply (f_equal (fun z => Z.testbit z k)) in H0.
    rewrite Z.land_spec, E, Z.pow2_bits_true, Z.bits_0 in H0 by lia. done.
  - apply negb_false_iff, Z.eqb_eq. apply Z.bits_inj'. intros i Hi.
    rewrite Z.land_spec, Z.bits_0, Z.pow2_bits_eqb by lia.
    destruct (Z.eqb_spec k i) as [->|]; [by rewrite E|apply andb_false_r].
Qed.

Lemma marked_eq m f line :
  (alloc_map_ m)$[f / kBitsPerMapLine] = Some line ->
  marked m f = Z.testbit line (f mod kBitsPerMapLine).
Proof.
  intros E. unfold marked, GetBit. rewrite E. cbn [mbind option_bind default].
  pose proof (Z.mod_pos_bound f kBitsPerMapLine ltac:(done)). unfold kBitsPerMapLine in *.
  rewrite line_bit_eq by lia. simpl. apply land_bit. lia.
Qed.

(** The line that [SetBit] stores. *)
Definition set_line (line k : Z) (b : bool) : Z :=
  if b then Z.lor line (line_bit k) else Z.land line (u64 (Z.lnot (line_bit k))).

Lemma set_line_bits line k b i :
  0 <= k < 64 -> 0 <= i < 64 ->
  Z.testbit (set_line line k b) i = if decide (i = k) then b else Z.testbit line i.
Proof.
  intros Hk Hi. unfold set_line. rewrite line_bit_eq by lia. destruct b.
  - rewrite Z.lor_spec, Z.pow2_bits_eqb by lia. case_decide; subst.
    + by rewrite Z.eqb_refl, orb_true_r.
    + destruct (Z.eqb_spec k i); [lia|]. apply orb_false_r.
  - rewrite Z.land_spec. unfold u64. rewrite Z.mod_pow2_bits_low, Z.lnot_spec, Z.pow2_bits_eqb by lia.
    case_decide; subst.
    + by rewrite Z.eqb_refl, andb_false_r.
    + destruct (Z.eqb_spec k i); [lia|]. apply andb_true_r.
Qed.

Lemma set_line_range line k b : 0 <= k < 64 -> 0 <= line < 2 ^ 64 -> 0 <= set_line line k b < 2 ^ 64.
Proof.
  intros Hk [H0 H1]. assert (Hb : forall i, 64 <= i -> Z.testbit (set_line line k b) i = false).
  { intros i Hi. assert (Z.testbit line i = false) as El.
    { rewrite <- (Z.mod_small line (2 ^ 64)) by lia. apply Z.mod_pow2_bits_high. lia. }
    unfold set_line. rewrite line_bit_eq by lia. destruct b.
    - rewrite Z.lor_spec, El, Z.pow2_bits_false by lia. done.
    - by rewrite Z.land_spec, El. }
  assert (0 <= set_line line k b) as Hn.
  { unfold set_line. destruct b.
    - apply Z.lor_nonneg. rewrite line_bit_eq by lia. split; [lia|apply Z.pow_nonneg; lia].
    - apply Z.land_nonneg. by left. }
  split; [done|].
  assert (E : set_line line k b mod 2 ^ 64 = set_line line k b).
  2:{ rewrite <- E. by apply Z.mod_pos_bound. }
  apply Z.bits_inj'. intros i Hi. destruct (decide (i < 64)).
  - by rewrite Z.mod_pow2_bits_low.
  - rewrite Z.mod_pow2_bits_high by lia. symmetry. apply Hb. lia.
Qed.

Lemma SetBit_spec m f b :
  Forall (fun line => 0 <= line < 2 ^ 64) (alloc_map_ m) -> 0 <= f < frames m ->
  exists m', SetBit m f b = Some m' /\ changed m m' f 1 b.
Proof.
  intros HF Hf. unfold SetBit. pose proof (Z.div_mod f kBitsPerMapLine ltac:(done)) as Hd.
  pose proof (Z.mod_pos_bound f kBitsPerMapLine ltac:(done)) as Hk.
  unfold frames in Hf. set (q := f / kBitsPerMapLine) in *. set (k := f mod kBitsPerMapLine) in *.
  assert (Hq : 0 <= q < Z.of_nat (length (alloc_map_ m))) by (unfold kBitsPerMapLine in *; lia).
  destruct (lookupZ_is_Some _ _ Hq) as [line El]. rewrite El. cbn [mbind option_bind].
  fold (set_line line k b). rewrite updateZ_in by done. cbn [mbind option_bind].
  eexists. split; [reflexivity|]. unfold changed, frames. cbn [alloc_map_ range_begin_ range_end_].
  rewrite length_insert. split_and!; [done..| |].
  - apply Forall_insert; [done|]. rewrite Forall_lookup in HF. apply lookupZ_Some in El as [_ El].
    apply set_line_range; [unfold kBitsPerMapLine in *; lia|]. by eapply HF.
  - intros g Hg. pose proof (Z.div_mod g kBitsPerMapLine ltac:(done)) as Hdg.
    pose proof (Z.mod_pos_bound g kBitsPerMapLine ltac:(done)) as Hkg.
    destruct (decide (g / kBitsPerMapLine = q)) as [Eq|Nq].
    + erewrite marked_eq; [|cbn [alloc_map_]; rewrite Eq; by apply lookupZ_insert_eq].
      rewrite set_line_bits by (unfold kBitsPerMapLine in *; lia).
      rewrite (marked_eq m g line) by (by rewrite Eq).
      destruct (in_run f 1 g) eqn:Er.
      * apply in_run_spec in Er. assert (g = f) as -> by lia. by rewrite decide_True.
      * rewrite decide_False; [done|]. intros Ek. apply not_true_iff_false in Er. apply Er.
        apply in_run_spec. rewrite Eq in Hdg. lia.
    + assert (in_run f 1 g = false) as ->.
      { apply not_true_iff_false. intros Er%in_run_spec. apply Nq. assert (g = f) by lia. by subst g. }
      unfold marked, GetBit. cbn [alloc_map_]. rewrite lookupZ_insert_ne by (try done; lia). done.
Qed.

(** ** Runs of frames *)
Lemma frames_nonneg m : 0 <= frames m.
Proof. unfold frames, kBitsPerMapLine. lia. Qed.

Lemma marks_spec m s n b :
  Forall (fun line => 0 <= line < 2 ^ 64) (alloc_map_ m) -> frames m < 2 ^ 63 ->
  0 <= s -> 0 <= n -> s + n <= frames m ->
  exists m', for_range 0 n (fun i m => SetBit m (u64 (s + i)) b) m = Some m' /\ changed m m' s n b.
Proof.
  intros HF Hsz Hs Hn Hle.
  destruct (for_range_inv (fun i m' => changed m m' s i b) 0 n (fun i m => SetBit m (u64 (s + i)) b) m)
    as (m' & E & H'); [done| | |by exists m'].
  - split_and!; try done. intros f Hf. destruct (in_run s 0 f) eqn:E; [|done].
    apply in_run_spec in E. lia.
  - intros i m1 Hi (Hfr & Hb & He & HF1 & Hm1).
    assert (u64 (s + i) = s + i) as -> by (apply Z.mod_small; lia).
    destruct (SetBit_spec m1 (s + i) b HF1) as (m2 & E & Hfr2 & Hb2 & He2 & HF2 & Hm2); [lia|].
    exists m2. split; [done|]. split_and!; try congruence. intros f Hf.
    rewrite Hm2, Hm1 by done. unfold in_run.
    repeat match goal with |- context [?x <=? ?y] => destruct (Z.leb_spec x y) end;
    repeat match goal with |- context [?x <? ?y] => destruct (Z.ltb_spec x y) end; simpl; done || lia.
Qed.

Lemma changed_ok m m' s n b : mm_ok m -> changed m m' s n b -> mm_ok m'.
Proof. intros [H1 H2 H3 H4] (E1 & E2 & E3 & H5 & _). constructor; try done; congruence || (rewrite ?E1, ?E2, ?E3; done). Qed.

(** ** The search *)
Definition scan_body (m : BitmapMemoryManager) (s i _c : Z) : option (step Z unit) :=
  if u64 (s + i) >=? range_end_ m then Some (Return i tt)
  else
    b ← GetBit m (u64 (s + i));
    Some (if b : bool then Break i else Continue (i + 1)).

Lemma GetBit_marked m f : 0 <= f < frames m -> GetBit m f = Some (marked m f).
Proof.
  intros Hf. unfold marked, GetBit. unfold frames, kBitsPerMapLine in *.
  destruct (lookupZ_is_Some (alloc_map_ m) (f / 64)) as [line ->]; [|done].
  split; [apply Z.div_pos; lia|]. apply Z.div_lt_upper_bound; lia.
Qed.

(** What the scan of [n] frames from [s] finds. *)
Definition scanned (m : BitmapMemoryManager) (s n : Z) (r : step Z unit) : Prop :=
  match r with
  | Continue i => i = n /\ s + n <= range_end_ m /\ free_run m s n
  | Break i => 0 <= i < n /\ s + i < range_end_ m /\ marked m (s + i) = true
  | Return i _ => 0 <= i < n /\ range_end_ m <= s + i
  end.

Section search.
Context (m : BitmapMemoryManager) (Hok : mm_ok m).

Lemma scan_body_eq s i c :
  0 <= s -> 0 <= i -> s + i <= range_end_ m ->
  scan_body m s i c = Some (if range_end_ m <=? s + i then Return i tt
                            else if marked m (s + i) then Break i else Continue (i + 1)).
Proof using Hok.
  destruct Hok as [HF Hsz Hr He]. intros Hs Hi Hle. unfold scan_body.
  assert (u64 (s + i) = s + i) as -> by (apply Z.mod_small; lia). rewrite Z.geb_leb.
  destruct (Z.leb_spec (range_end_ m) (s + i)); [done|]. by rewrite GetBit_marked by lia.
Qed.

Lemma scan_spec s n :
  0 <= s <= range_end_ m -> 0 <= n -> exists r, scan_frames m s n = Some r /\ scanned m s n r.
Proof using Hok.
  destruct Hok as [HF Hsz Hr He]. intros Hs Hn. change (scan_frames m s n) with (loop_until (Z.to_nat n) 0 (scan_body m s) 0).
  assert (G : forall k i, 0 <= i -> i + Z.of_nat k = n -> s + i <= range_end_ m -> free_run m s i ->
    exists r, loop_until k i (scan_body m s) i = Some r /\ scanned m s n r).
  { induction k as [|k IH]; intros i Hi Hk Hle Hfree; cbn [loop_until].
    - exists (Continue i). split; [done|]. assert (i = n) as -> by lia. done.
    - rewrite scan_body_eq by lia. cbn [mbind option_bind].
      destruct (Z.leb_spec (range_end_ m) (s + i)).
      { exists (Return i tt). split; [done|]. simpl. lia. }
      destruct (marked m (s + i)) eqn:Em.
      { exists (Break i). split; [done|]. simpl. split_and!; lia || done. }
      apply IH; [lia|lia|lia|]. intros f Hf. destruct (decide (f = s + i)) as [->|]; [done|].
      apply Hfree. lia. }
  apply G; [lia|lia|lia|]. intros f Hf. lia.
Qed.

(** No run of [n] free frames of the range starts before [s]. *)
Definition none_before (s n : Z) : Prop :=
  forall s', range_begin_ m <= s' < s -> s' + n <= range_end_ m -> ~ free_run m s' n.

Definition allocated (n : Z) (r : Z * Code * BitmapMemoryManager) : Prop :=
  (exists s m', r = (s, kSuccess, m') /\ range_begin_ m <= s /\ s + n <= range_end_ m
     /\ free_run m s n /\ none_before s n /\ changed m m' s n true)
  \/ (r = (kNullFrame, kNoEnoughMemory, m)
      /\ forall s, range_begin_ m <= s -> s + n <= range_end_ m -> ~ free_run m s n).

Lemma Allocate_from_spec n fuel s :
  0 <= n -> range_begin_ m <= s <= range_end_ m -> range_end_ m - s < Z.of_nat fuel -> none_before s n ->
  exists r, Allocate_from fuel m s n = Some r /\ allocated n r.
Proof using Hok.
  intros Hn. pose proof Hok as [HF Hsz Hr He]. revert s.
  induction fuel as [|fuel IH]; intros s Hs Hfu Hno; [lia|]. cbn [Allocate_from].
  destruct (scan_spec s n) as (r & -> & Hsc); [lia|done|]. cbn [mbind option_bind].
  destruct r as [i|i|i []]; simpl in Hsc.
  - destruct Hsc as (-> & Hle & Hfr). rewrite Z.eqb_refl.
    destruct (marks_spec m s n true HF Hsz) as (m' & E & Hc); [lia..|].
    unfold MarkAllocated. rewrite E. eexists. split; [reflexivity|]. left. exists s, m'.
    do 5 (split; [done || lia|]). done.
  - destruct Hsc as (Hi & Hle & Hm). destruct (Z.eqb_spec i n); [lia|].
    assert (u64 (s + (i + 1)) = s + i + 1) as -> by (rewrite Z.add_assoc; apply Z.mod_small; lia).
    apply IH; [lia|lia|]. intros s' Hs' Hle' Hfr.
    destruct (decide (s' < s)); [by apply (Hno s'); [lia|done|]|].
    assert (marked m (s + i) = false) by (apply Hfr; lia). congruence.
  - eexists. split; [reflexivity|]. right. split; [done|]. intros s' Hs' Hle'. apply Hno; [lia|done].
Qed.
End search.

Lemma Allocate_spec m n :
  mm_ok m -> 0 <= n -> exists r, Allocate m n = Some r /\ allocated m n r.
Proof.
  intros Hok Hn. destruct (ok_range m Hok) as [H0 H1]. apply Allocate_from_spec; [done|done|lia|lia|].
  intros s' Hs'. lia.
Qed.

(** C29. [Allocate] always returns: it finds the first run of [n] free frames in
    the range and marks exactly these, or reports that there is none and changes
    nothing. *)
Theorem Allocate_correct m n :
  mm_ok m -> 0 <= n -> exists r, Allocate m n = Some r /\ allocated m n r.
Proof. apply Allocate_spec. Qed.

Lemma Allocate_correct_witness :
  let m := mkMM [0xB] 1 64 in
  mm_ok m /\ exists m', Allocate m 2 = Some (4, kSuccess, m') /\ marked m' 5 = true.
Proof.
  intros m. assert (Hok : mm_ok m).
  { constructor; [|done|done|done]. apply list.Forall_singleton. done. }
  split; [done|]. destruct (Allocate_correct m 2 Hok ltac:(lia)) as (r & E & Ha).
  assert (E' : Allocate m 2 = Some (4, kSuccess, mkMM [0x3B] 1 64)) by reflexivity.
  rewrite E in E'. simplify_eq. destruct Ha as [(s & m' & Er & _ & _ & _ & _ & Hc)|[Er _]]; [|done].
  simplify_eq. eexists. split; [done|]. destruct Hc as (_ & _ & _ & _ & Hm). by rewrite Hm.
Defined.

(** ** Clients

    The states that the calls of [Allocate] and [Free] reach, with the runs that
    were handed out and not given back. *)
Inductive frame_client (m0 : BitmapMemoryManager) : BitmapMemoryManager -> list (Z * Z) -> Prop :=
| fc_start : frame_client m0 m0 []
| fc_allocate m rs n s m' :
    frame_client m0 m rs -> 0 <= n -> Allocate m n = Some (s, kSuccess, m') ->
    frame_client m0 m' ((s, n) :: rs)
| fc_fail m rs n s c m' :
    frame_client m0 m rs -> 0 <= n -> Allocate m n = Some (s, c, m') -> c <> kSuccess ->
    frame_client m0 m' rs
| fc_free m rs1 rs2 s n c m' :
    frame_client m0 m (rs1 ++ (s, n) :: rs2) -> Free m s n = Some (c, m') ->
    frame_client m0 m' (rs1 ++ rs2).

(** How often the frame [f] is held. *)
Fixpoint held (f : Z) (rs : list (Z * Z)) : Z :=
  match rs with
  | [] => 0
  | (s, n) :: rs => Z.b2z (in_run s n f) + held f rs
  end.

Record client_inv (m0 m : BitmapMemoryManager) (rs : list (Z * Z)) : Prop := {
  ci_ok : mm_ok m;
  ci_range : range_begin_ m = range_begin_ m0 /\ range_end_ m = range_end_ m0;
  ci_in : Forall (fun r => range_begin_ m0 <= r.1 /\ 0 <= r.2 /\ r.1 + r.2 <= range_end_ m0) rs;
  ci_used : forall f, 0 <= f -> Z.b2z (marked m f) = Z.b2z (marked m0 f) + held f rs
}.

Lemma held_app f rs1 rs2 : held f (rs1 ++ rs2) = held f rs1 + held f rs2.
Proof. induction rs1 as [|[s n] rs1 IH]; simpl; [done|]. rewrite IH. lia. Qed.

Lemma Free_spec m s n :
  mm_ok m -> range_begin_ m <= s -> 0 <= n -> s + n <= range_end_ m ->
  exists m', Free m s n = Some (kSuccess, m') /\ changed m m' s n false.
Proof.
  intros [HF Hsz Hr He] Hs Hn Hle. destruct (marks_spec m s n false HF Hsz) as (m' & E & Hc); [lia..|].
  exists m'. unfold Free. by rewrite E.
Qed.

Lemma client_keeps m0 m rs : mm_ok m0 -> frame_client m0 m rs -> client_inv m0 m rs.
Proof.
  intros H0. induction 1 as [|m rs n s m' _ [Hok Hr Hin Hu] Hn E|m rs n s c m' _ [Hok Hr Hin Hu] Hn E Hc
    |m rs1 rs2 s n c m' _ [Hok Hr Hin Hu] E].
  - constructor; [done|done|constructor|]. intros f Hf. simpl. lia.
  - destruct (Allocate_spec m n Hok Hn) as (r & E' & Ha).
    rewrite E in E'. simplify_eq.
    destruct Ha as [(s' & m1 & Er & Hb & He & Hfr & _ & Hch)|[Er _]]; [|done]. simplify_eq.
    pose proof Hch as (_ & E2 & E3 & _ & Hm). constructor.
    + by eapply changed_ok.
    + by rewrite E2, E3.
    + constructor; [|done]. simpl. destruct Hr as [<- <-]. lia.
    + intros f Hf. simpl. rewrite Hm by done. specialize (Hu f Hf).
      destruct (in_run s' n f) eqn:Ei; simpl; [|done]. apply in_run_spec in Ei.
      rewrite Hfr in Hu by done. simpl in Hu. lia.
  - destruct (Allocate_spec m n Hok Hn) as (r & E' & Ha).
    rewrite E in E'. simplify_eq.
    destruct Ha as [(s' & m1 & Er & _)|[Er _]]; simplify_eq. by constructor.
  - apply list.Forall_app in Hin as [Hin1 [Hin Hin2]%list.Forall_cons]. simpl in Hin.
    destruct (Free_spec m s n Hok) as (m1 & E' & Hch); [destruct Hr; lia..|].
    rewrite E in E'. simplify_eq. pose proof Hch as (_ & E2 & E3 & _ & Hm). constructor.
    + by eapply changed_ok.
    + by rewrite E2, E3.
    + apply list.Forall_app. done.
    + intros f Hf. rewrite Hm by done. specialize (Hu f Hf). rewrite held_app in *. simpl in Hu.
      destruct (in_run s n f); simpl in *; [|lia].
      assert (forall rs, 0 <= held f rs) as Hnn.
      { intros rs. induction rs as [|[a b] rs IH]; simpl; [done|]. destruct (in_run a b f); simpl; lia. }
      pose proof (Hnn rs1). pose proof (Hnn rs2). destruct (marked m f), (marked m0 f); simpl in *; lia.
Qed.

(** C34. Whatever calls of [Allocate] and [Free] its clients make, giving back only
    what they hold: a frame is in use exactly when it was at the start or one
    client holds it, and never for two of these reasons; all runs lie in the
    range; and the next call returns. *)
Theorem frame_clients_correct m0 m rs :
  mm_ok m0 -> frame_client m0 m rs ->
  (forall f, 0 <= f -> Z.b2z (marked m f) = Z.b2z (marked m0 f) + held f rs)
  /\ Forall (fun r => range_begin_ m0 <= r.1 /\ 0 <= r.2 /\ r.1 + r.2 <= range_end_ m0) rs
  /\ (forall n, 0 <= n -> is_Some (Allocate m n))
  /\ (forall s n, (s, n) ∈ rs -> is_Some (Free m s n)).
Proof.
  intros H0 Hc. destruct (client_keeps m0 m rs H0 Hc) as [Hok Hr Hin Hu]. split_and!; [done|done| |].
  - intros n Hn.
    destruct (Allocate_spec m n Hok Hn) as (r & E' & Ha). by exists r.
  - intros s n Hs. rewrite list.Forall_forall in Hin. apply Hin in Hs. simpl in Hs.
    destruct (Free_spec m s n Hok) as (m1 & E' & Hch); [destruct Hr; lia..|]. by exists (kSuccess, m1).
Qed.

Lemma frame_clients_correct_witness :
  exists m, frame_client (mkMM [1] 1 64) m [(3, 1); (1, 2)] /\ marked m 3 = true.
Proof.
  assert (Hok : mm_ok (mkMM [1] 1 64)).
  { constructor; [|done|done|done]. apply list.Forall_singleton. done. }
  assert (Hc : frame_client (mkMM [1] 1 64) (mkMM [15] 1 64) [(3, 1); (1, 2)]).
  { eapply (fc_allocate _ (mkMM [7] 1 64)); [|lia|reflexivity].
    eapply (fc_allocate _ (mkMM [1] 1 64)); [constructor|lia|reflexivity]. }
  exists (mkMM [15] 1 64). split; [done|].
  pose proof (proj1 (frame_clients_correct _ _ _ Hok Hc) 3 ltac:(lia)) as Hm.
  change (held 3 [(3, 1); (1, 2)]) with 1 in Hm.
  change (marked (mkMM [1] 1 64) 3) with false in Hm. destruct (marked (mkMM [15] 1 64) 3); done.
Defined.

(** ** The bitmap from the memory map *)
Definition desc_lo (d : MemoryDescriptor) : Z := physical_start d / kBytesPerFrame.
Definition desc_hi (d : MemoryDescriptor) : Z := desc_lo d + number_of_pages d.

(** The map is sorted, its regions start at pages, do not overlap and lie in the
    memory that the manager can handle. *)
Fixpoint map_ok (hi : Z) (ds : list MemoryDescriptor) : Prop :=
  match ds with
  | [] => True
  | d :: ds =>
      (kBytesPerFrame | physical_start d) /\ hi <= desc_lo d /\ 0 <= number_of_pages d
      /\ desc_hi d <= kFrameCount /\ map_ok (desc_hi d) ds
  end.

Definition available_in (ds : list MemoryDescriptor) (f : Z) : bool :=
  existsb (fun d => IsAvailable (d_type d) && in_run (desc_lo d) (number_of_pages d) f) ds.

(** The end of the last available region. *)
Fixpoint last_available (e : Z) (ds : list MemoryDescriptor) : Z :=
  match ds with
  | [] => e
  | d :: ds => last_available (if IsAvailable (d_type d) then desc_hi d else e) ds
  end.

Lemma map_ok_above hi ds f : map_ok hi ds -> f < hi -> available_in ds f = false.
Proof.
  revert hi. induction ds as [|d ds IH]; intros hi; simpl; [done|].
  intros (_ & Hlo & Hn & _ & Hok) Hf. rewrite (IH _ Hok) by (unfold desc_hi; lia).
  rewrite orb_false_r. apply andb_false_iff. right. apply not_true_iff_false. rewrite in_run_spec. lia.
Qed.

Lemma mark_frames m s n :
  Forall (fun line => 0 <= line < 2 ^ 64) (alloc_map_ m) -> frames m = kFrameCount ->
  0 <= s -> 0 <= n -> s + n <= kFrameCount ->
  exists m', MarkAllocated m s n = Some m' /\ changed m m' s n true.
Proof. intros HF Hfr Hs Hn Hle. apply marks_spec; rewrite ?Hfr; done. Qed.

(** The gap before a descriptor. *)
Lemma mark_gap m ae d :
  Forall (fun line => 0 <= line < 2 ^ 64) (alloc_map_ m) -> frames m = kFrameCount ->
  (kBytesPerFrame | physical_start d) -> 0 <= ae <= desc_lo d -> desc_lo d <= kFrameCount ->
  exists m', (if kBytesPerFrame * ae <? physical_start d
              then MarkAllocated m (kBytesPerFrame * ae / kBytesPerFrame)
                     ((physical_start d - kBytesPerFrame * ae) / kBytesPerFrame)
              else Some m) = Some m'
    /\ changed m m' ae (desc_lo d - ae) true.
Proof.
  intros HF Hfr [q Hq] Hae Hle. unfold desc_lo in *. rewrite Hq in *. rewrite Z.div_mul in * by done.
  rewrite (Z.mul_comm q). destruct (Z.ltb_spec (kBytesPerFrame * ae) (kBytesPerFrame * q)) as [Hlt|Hge].
  - rewrite <- Z.mul_sub_distr_l, !(Z.mul_comm kBytesPerFrame), !Z.div_mul by done.
    apply mark_frames; [done|done|lia|lia|lia].
  - assert (ae = q) as -> by (unfold kBytesPerFrame, KiB in *; lia). exists m. split; [done|].
    split_and!; try done. intros f Hf. destruct (in_run q (q - q) f) eqn:Ei; [|done].
    apply in_run_spec in Ei. lia.
Qed.

Lemma phys_end d :
  (kBytesPerFrame | physical_start d) -> 0 <= desc_lo d -> 0 <= number_of_pages d -> desc_hi d <= kFrameCount ->
  physical_start d = kBytesPerFrame * desc_lo d
  /\ u64 (physical_start d + number_of_pages d * kUEFIPageSize) = kBytesPerFrame * desc_hi d
  /\ u64 (number_of_pages d * kUEFIPageSize) / kBytesPerFrame = number_of_pages d
  /\ (physical_start d >? GiB 128) = false.
Proof.
  intros [q Hq] Hlo Hn Hhi.
  assert (Hps : physical_start d = kBytesPerFrame * desc_lo d)
    by (unfold desc_lo; rewrite Hq, Z.div_mul by done; lia).
  unfold desc_hi in *. change kFrameCount with 33554432 in Hhi. change (GiB 128) with 137438953472.
  rewrite Hps. unfold u64. change kBytesPerFrame with 4096 in *. change kUEFIPageSize with 4096.
  rewrite !Z.mod_small by lia. split_and!; [done|lia| |].
  - apply Z.div_mul. done.
  - rewrite Z.gtb_ltb. apply Z.ltb_ge. lia.
Qed.

(** Frames below [ae] keep their marks; those up to the last available region
    are free exactly when a region of an available type contains them. *)
Definition mapped (m m' : BitmapMemoryManager) (ae ae' : Z) (ds : list MemoryDescriptor) : Prop :=
  Forall (fun line => 0 <= line < 2 ^ 64) (alloc_map_ m') /\ frames m' = kFrameCount
  /\ forall f, 0 <= f < ae' -> marked m' f = if f <? ae then marked m f else negb (available_in ds f).

(** [m1] is [m] with the gap between [ae] and the descriptor [d] marked. *)
Section one_descriptor.
Context (m m1 : BitmapMemoryManager) (ae hi : Z) (d : MemoryDescriptor).
Context (Hm1 : forall f, 0 <= f -> marked m1 f = if in_run ae (desc_lo d - ae) f then true else marked m f).
Context (Hun : forall f, hi <= f -> marked m f = false).
Context (Hae : 0 <= ae <= hi) (Hlo : hi <= desc_lo d) (Hn : 0 <= number_of_pages d).

Lemma gap_above f : desc_hi d <= f -> marked m1 f = false.
Proof using Hm1 Hun Hae Hlo Hn.
  unfold desc_hi. intros Hf. rewrite Hm1 by lia. destruct (in_run ae _ f) eqn:Ei; [|apply Hun; lia].
  apply in_run_spec in Ei. lia.
Qed.

Lemma gap_below f : 0 <= f < ae -> marked m1 f = marked m f.
Proof using Hm1.
  intros Hf. rewrite Hm1 by lia. unfold in_run. by destruct (Z.leb_spec ae f); [lia|].
Qed.

Lemma gap_region f : ae <= f < desc_hi d -> marked m1 f = negb (in_run (desc_lo d) (number_of_pages d) f).
Proof using Hm1 Hun Hae Hlo.
  intros Hf. rewrite Hm1 by lia. unfold in_run, desc_hi in *. destruct (Z.leb_spec ae f); [|lia].
  destruct (Z.ltb_spec f (ae + (desc_lo d - ae))); simpl.
  - by destruct (Z.leb_spec (desc_lo d) f); [lia|].
  - rewrite Hun by lia. destruct (Z.leb_spec (desc_lo d) f); [|lia].
    by destruct (Z.ltb_spec f (desc_lo d + number_of_pages d)); [|lia].
Qed.
End one_descriptor.

Lemma out_of_desc d f : desc_hi d <= f -> in_run (desc_lo d) (number_of_pages d) f = false.
Proof. intros Hf. apply not_true_iff_false. rewrite in_run_spec. unfold desc_hi in *. lia. Qed.

Lemma map_loop_spec ds m hi ae :
  Forall (fun line => 0 <= line < 2 ^ 64) (alloc_map_ m) -> frames m = kFrameCount ->
  map_ok hi ds -> 0 <= ae <= hi -> (forall f, hi <= f -> marked m f = false) ->
  exists m', map_loop ds m (kBytesPerFrame * ae) = Some (m', kBytesPerFrame * last_available ae ds)
    /\ mapped m m' ae (last_available ae ds) ds.
Proof.
  revert m hi ae. induction ds as [|d ds IH]; intros m hi ae HF Hfr Hok Hae Hun; cbn [map_loop last_available].
  { exists m. split; [done|]. split_and!; [done|done|]. intros f Hf. by destruct (Z.ltb_spec f ae); [|lia]. }
  destruct Hok as (Hdv & Hlo & Hn & Hhi & Hok). assert (desc_lo d <= desc_hi d) by (unfold desc_hi; lia).
  destruct (phys_end d) as (Eps & Eend & En & ->); [done|lia|done|done|]. rewrite Eend, En.
  destruct (mark_gap m ae d HF Hfr Hdv) as (m1 & -> & Hf1 & _ & _ & HF1 & Hm1); [lia|lia|].
  cbn [mbind option_bind]. pose proof (gap_above m m1 ae hi d Hm1 Hun Hae Hlo Hn) as Habove.
  destruct (IsAvailable (d_type d)) eqn:Ea.
  - destruct (IH m1 (desc_hi d) (desc_hi d)) as (m' & -> & HF' & Hf' & Hm'); [done|congruence|done|lia|done|].
    exists m'. split; [done|]. split_and!; [done|done|]. intros f Hf. rewrite Hm' by done. simpl. rewrite Ea.
    destruct (Z.ltb_spec f (desc_hi d)) as [Hlt|Hge].
    + rewrite (map_ok_above (desc_hi d) ds f Hok Hlt), orb_false_r. simpl. destruct (Z.ltb_spec f ae).
      * apply (gap_below m m1 ae d Hm1). lia.
      * by apply (gap_region m m1 ae hi d Hm1 Hun Hae Hlo).
    + destruct (Z.ltb_spec f ae); [lia|]. by rewrite out_of_desc.
  - change (physical_start d / kBytesPerFrame) with (desc_lo d).
    destruct (mark_frames m1 (desc_lo d) (number_of_pages d) HF1) as (m2 & -> & Hf2 & _ & _ & HF2 & Hm2);
      [congruence|lia|done|done|]. cbn [mbind option_bind].
    destruct (IH m2 (desc_hi d) ae) as (m' & -> & HF' & Hf' & Hm'); [done|congruence|done|lia| |].
    { intros f Hf. rewrite Hm2, out_of_desc by lia. by apply Habove. }
    exists m'. split; [done|]. split_and!; [done|done|]. intros f Hf. rewrite Hm' by done.
    simpl. rewrite Ea. simpl. destruct (Z.ltb_spec f ae); [|done]. rewrite Hm2 by lia.
    rewrite (gap_below m m1 ae d Hm1) by lia. unfold in_run. by destruct (Z.leb_spec (desc_lo d) f); [lia|].
Qed.

Lemma new_frames :
  Forall (fun line => 0 <= line < 2 ^ 64) (alloc_map_ BitmapMemoryManager_new)
  /\ frames BitmapMemoryManager_new = kFrameCount
  /\ forall f, 0 <= f -> marked BitmapMemoryManager_new f = false.
Proof.
  unfold BitmapMemoryManager_new, frames. cbn [alloc_map_]. split_and!.
  - apply list.Forall_replicate. lia.
  - rewrite length_replicate, Z2Nat.id by done. reflexivity.
  - intros f Hf. unfold marked, GetBit. cbn [alloc_map_].
    destruct (lookupZ _ _) as [line|] eqn:E; [|done]. apply lookupZ_Some in E as [_ E].
    apply lookup_replicate in E as [-> _]. done.
Qed.

(** From a sorted memory map of whole pages below 128 GiB the start of the
    kernel builds a manager whose range ends with the last available region, and
    in which a frame is free exactly when a region of an available type contains
    it. *)
Theorem setup_frames_correct ds :
  map_ok 0 ds ->
  exists m, setup_frames ds = Some m /\ range_begin_ m = 1 /\ range_end_ m = last_available 0 ds
    /\ frames m = kFrameCount
    /\ forall f, 0 <= f < range_end_ m -> marked m f = negb (available_in ds f).
Proof.
  intros Hok. destruct new_frames as (HF & Hfr & Hun). unfold setup_frames.
  destruct (map_loop_spec ds BitmapMemoryManager_new 0 0 HF Hfr Hok) as (m & E & _ & Hfm & Hm); [lia|done|].
  rewrite Z.mul_0_r in E. rewrite E. cbn [mbind option_bind].
  rewrite (Z.mul_comm kBytesPerFrame), Z.div_mul by done.
  eexists. split_and!; [reflexivity|done|done|done|]. cbn [SetMemoryRange range_end_]. intros f Hf.
  change (marked (SetMemoryRange m 1 (last_available 0 ds)) f) with (marked m f). rewrite Hm by done.
  destruct (Z.ltb_spec f 0); [lia|done].
Qed.

Lemma setup_frames_correct_witness :
  let ds := [mkDesc 7 0 2; mkDesc 0 8192 1; mkDesc 4 16384 3] in
  map_ok 0 ds /\ exists m, setup_frames ds = Some m /\ range_end_ m = 7
    /\ marked m 1 = false /\ marked m 3 = true.
Proof.
  intros ds. assert (Hok : map_ok 0 ds).
  { simpl. split_and!; try done; try lia; by apply Znumtheory.Zmod_divide. }
  split; [done|]. destruct (setup_frames_correct ds Hok) as (m & E & _ & Hr & _ & Hm). exists m.
  split_and!; [done|done| |]; rewrite Hm by (rewrite Hr; done); reflexivity.
Defined.

(** A region that starts at 128 GiB passes the test of the loop, and has no bit in
    the map. *)
Lemma setup_frames_faults : setup_frames [mkDesc 7 0 kFrameCount; mkDesc 0 (GiB 128) 1] = None.
Proof. vm_compute. reflexivity. Qed.
