(* ===== verification/ArrayQueue.v ===== *)
(** * The message queue of the 64-bit kernel, src/src/queue.hpp

    [ArrayQueue<T>] is a ring over an array that its owner provides.  The
    interrupt handler of src/src/main.cpp pushes messages, the main loop takes them
    with interrupts off; any sequence of both behaves as a bounded queue. *)
From Stdlib Require Import ZArith Lia.
From stdpp Require Import base option list numbers.
From S2P Require Import Prelude Error Fifo.

Set Default Proof Using "Type".

Section queue.
Context {T : Type}.

Record ArrayQueue := mkQueue {
  data_ : list T; read_pos_ : Z; write_pos_ : Z; count_ : Z; capacity_ : Z
}.

Definition ArrayQueue_new (buf : list T) (size : Z) : ArrayQueue := mkQueue buf 0 0 0 size.

Definition Push (q : ArrayQueue) (value : T) : option (Code * ArrayQueue) :=
  if count_ q =? capacity_ q then Some (kFull, q)
  else
    d ← (data_ q)$[write_pos_ q := value];
    let write_pos := u64 (write_pos_ q + 1) in
    let write_pos := if write_pos =? capacity_ q then 0 else write_pos in
    Some (kSuccess, mkQueue d (read_pos_ q) write_pos (u64 (count_ q + 1)) (capacity_ q)).

Definition Pop (q : ArrayQueue) : Code * ArrayQueue :=
  if count_ q =? 0 then (kEmpty, q)
  else
    let read_pos := u64 (read_pos_ q + 1) in
    let read_pos := if read_pos =? capacity_ q then 0 else read_pos in
    (kSuccess, mkQueue (data_ q) read_pos (write_pos_ q) (u64 (count_ q - 1)) (capacity_ q)).

Definition IsEmpty (q : ArrayQueue) : bool := count_ q =? 0.
Definition Count (q : ArrayQueue) : Z := count_ q.
Definition Capacity (q : ArrayQueue) : Z := capacity_ q.
Definition Front (q : ArrayQueue) : option T := (data_ q)$[read_pos_ q].

(** The start of a turn of the main loop: with interrupts off, it halts when the
    queue is empty and else takes the message at its front. *)
Definition take_message (q : ArrayQueue) : option (option T * ArrayQueue) :=
  if IsEmpty q then Some (None, q)
  else
    msg ← Front q;
    let '(_, q) := Pop q in
    Some (Some msg, q).

(** ** The abstract queue *)
Inductive queue_op := QPush (value : T) | QTake | QCount.
Inductive queue_result := RError (c : Code) | RMessage (m : option T) | RCount (n : Z).

Definition spec_step (cap : Z) (q : list T) (op : queue_op) : queue_result * list T :=
  match op with
  | QPush v => if Z.of_nat (length q) <? cap then (RError kSuccess, q ++ [v]) else (RError kFull, q)
  | QTake => match q with [] => (RMessage None, []) | x :: q => (RMessage (Some x), q) end
  | QCount => (RCount (Z.of_nat (length q)), q)
  end.

Definition array_step (q : ArrayQueue) (op : queue_op) : option (queue_result * ArrayQueue) :=
  match op with
  | QPush v => '(c, q) ← Push q v; Some (RError c, q)
  | QTake => '(m, q) ← take_message q; Some (RMessage m, q)
  | QCount => Some (RCount (Count q), q)
  end.

Fixpoint spec_run (cap : Z) (q : list T) (ops : list queue_op) : list queue_result * list T :=
  match ops with
  | [] => ([], q)
  | op :: ops => let '(r, q) := spec_step cap q op in let '(rs, q) := spec_run cap q ops in (r :: rs, q)
  end.

Fixpoint array_run (q : ArrayQueue) (ops : list queue_op) : option (list queue_result * ArrayQueue) :=
  match ops with
  | [] => Some ([], q)
  | op :: ops => '(r, q) ← array_step q op; '(rs, q) ← array_run q ops; Some (r :: rs, q)
  end.

(** ** The representation *)
Record queue_repr (q : ArrayQueue) (l : list T) : Prop := {
  qr_cap : 0 < capacity_ q < 2 ^ 64;
  qr_buf : capacity_ q <= Z.of_nat (length (data_ q));
  qr_count : count_ q = Z.of_nat (length l);
  qr_fits : count_ q <= capacity_ q;
  qr_read : 0 <= read_pos_ q < capacity_ q;
  qr_write : write_pos_ q = ring_index (capacity_ q) (read_pos_ q) (length l);
  qr_elems : forall i x, l !! i = Some x -> (data_ q)$[ring_index (capacity_ q) (read_pos_ q) i] = Some x
}.

Lemma new_repr buf n : 0 < n < 2 ^ 64 -> n <= Z.of_nat (length buf) -> queue_repr (ArrayQueue_new buf n) [].
Proof. intros Hn Hl. constructor; simpl; try done; lia. Qed.

(** The increment of the source, with its wrap at the capacity. *)
Lemma wrap_succ n r i :
  0 < n < 2 ^ 64 ->
  (if u64 (ring_index n r i + 1) =? n then 0 else u64 (ring_index n r i + 1)) = ring_index n r (S i).
Proof.
  intros Hn. rewrite <- (ring_succ n r i) by lia. pose proof (ring_index_range n r i ltac:(lia)) as Hi.
  unfold u64. destruct (decide (ring_index n r i + 1 < 2 ^ 64)) as [Hs|Hs]; [by rewrite Z.mod_small by lia|lia].
Qed.

Section operations.
Context (q : ArrayQueue) (l : list T) (Hq : queue_repr q l).

Lemma Push_full v : Z.of_nat (length l) = capacity_ q -> Push q v = Some (kFull, q).
Proof using Hq. destruct Hq. intros E. unfold Push. destruct (Z.eqb_spec (count_ q) (capacity_ q)); [done|lia]. Qed.

Lemma Push_room v :
  Z.of_nat (length l) < capacity_ q ->
  exists q', Push q v = Some (kSuccess, q') /\ capacity_ q' = capacity_ q /\ queue_repr q' (l ++ [v]).
Proof using Hq.
  destruct Hq as [Hc Hb Hn Hf Hr Hw He]. intros Hlt.
  assert (Hw' : 0 <= write_pos_ q < capacity_ q) by (rewrite Hw; apply ring_index_range; lia).
  unfold Push. destruct (Z.eqb_spec (count_ q) (capacity_ q)); [lia|].
  rewrite updateZ_in by lia. cbn [mbind option_bind]. eexists. split; [reflexivity|]. split; [done|].
  assert (u64 (count_ q + 1) = Z.of_nat (length (l ++ [v]))) as En
    by (rewrite length_app; unfold u64; rewrite Z.mod_small; simpl; lia).
  constructor; cbn [capacity_ data_ count_ read_pos_ write_pos_]; try done.
  - by rewrite length_insert.
  - rewrite En, length_app. simpl. lia.
  - rewrite Hw, wrap_succ, length_app, Nat.add_1_r by lia. done.
  - intros i x Hi. rewrite lookupZ_insert by lia. apply lookup_app_Some in Hi as [Hi|[Hge Hi]].
    + rewrite decide_False; [by apply He|]. intros E. rewrite Hw in E. apply lookup_lt_Some in Hi.
      apply ring_index_inj in E; lia.
    + apply list_lookup_singleton_Some in Hi as [Hi ->]. rewrite decide_True; [done|]. rewrite Hw. f_equal. lia.
Qed.

Lemma take_empty : l = [] -> take_message q = Some (None, q).
Proof using Hq. destruct Hq as [? ? Hn]. intros ->. unfold take_message, IsEmpty. by rewrite Hn. Qed.

Lemma take_front x l' :
  l = x :: l' ->
  exists q', take_message q = Some (Some x, q') /\ capacity_ q' = capacity_ q /\ queue_repr q' l'.
Proof using Hq.
  destruct Hq as [Hc Hb Hn Hf Hr Hw He]. intros ->. unfold take_message, IsEmpty, Front, Pop.
  pose proof (He 0%nat x eq_refl) as Hx. rewrite ring_index_0 in Hx by done.
  assert ((count_ q =? 0) = false) as -> by (apply Z.eqb_neq; rewrite Hn; done).
  rewrite Hx. cbn [mbind option_bind]. eexists. split; [reflexivity|]. split; [done|].
  pose proof (wrap_succ (capacity_ q) (read_pos_ q) 0 Hc) as Hs. rewrite ring_index_0 in Hs by done.
  assert (u64 (count_ q - 1) = Z.of_nat (length l')) as En
    by (rewrite Hn; unfold u64; rewrite Z.mod_small; simpl in *; lia).
  constructor; cbn [capacity_ data_ count_ read_pos_ write_pos_]; rewrite ?Hs; try done.
  - rewrite En. simpl in *. lia.
  - apply ring_index_range. lia.
  - rewrite Hw, ring_shift by lia. done.
  - intros i y Hi. rewrite ring_shift by lia. by apply He.
Qed.
End operations.

Lemma step_refines q l op :
  queue_repr q l ->
  exists q', array_step q op = Some ((spec_step (capacity_ q) l op).1, q') /\ capacity_ q' = capacity_ q
    /\ queue_repr q' (spec_step (capacity_ q) l op).2.
Proof.
  intros Hq. destruct op as [v| |]; cbn [array_step spec_step].
  - pose proof (qr_fits _ _ Hq). pose proof (qr_count _ _ Hq).
    destruct (Z.ltb_spec (Z.of_nat (length l)) (capacity_ q)).
    + destruct (Push_room q l Hq v) as (q' & -> & Hc & Hr); [done|]. by exists q'.
    + rewrite (Push_full q l Hq v) by lia. by exists q.
  - destruct l as [|x l].
    + rewrite (take_empty q [] Hq) by done. by exists q.
    + destruct (take_front q (x :: l) Hq x l) as (q' & -> & Hc & Hr); [done|]. by exists q'.
  - exists q. unfold Count. by rewrite (qr_count _ _ Hq).
Qed.

Lemma run_refines q l ops :
  queue_repr q l ->
  exists q', array_run q ops = Some ((spec_run (capacity_ q) l ops).1, q')
    /\ queue_repr q' (spec_run (capacity_ q) l ops).2.
Proof.
  revert q l. induction ops as [|op ops IH]; intros q l Hr; [by exists q|].
  cbn [array_run spec_run]. destruct (step_refines q l op Hr) as (q1 & -> & Hc & Hr1).
  destruct (spec_step (capacity_ q) l op) as [r l1]. cbn [mbind option_bind fst snd] in *.
  destruct (IH q1 l1 Hr1) as (q2 & E & Hr2). rewrite Hc in E, Hr2. rewrite E. cbn [mbind option_bind].
  destruct (spec_run (capacity_ q) l1 ops) as [rs l2]. by exists q2.
Qed.

(** Pushes of the interrupt handler and turns of the main loop, in whatever
    order they come, give the results of a bounded queue: messages are taken in the
    order in which they were pushed, none is lost before the queue is full, and
    no access leaves the array. *)
Theorem array_queue_refines buf n ops :
  0 < n < 2 ^ 64 -> n <= Z.of_nat (length buf) ->
  exists q, array_run (ArrayQueue_new buf n) ops = Some ((spec_run n [] ops).1, q)
    /\ queue_repr q (spec_run n [] ops).2.
Proof.
  intros Hn Hl. exact (run_refines _ _ ops (new_repr buf n Hn Hl)).
Qed.
End queue.
Arguments ArrayQueue T : clear implicits.
Arguments queue_op T : clear implicits.
Arguments queue_result T : clear implicits.

Lemma array_queue_refines_witness :
  exists q, array_run (ArrayQueue_new [0; 0] 2) [QPush 5; QPush 6; QPush 7; QTake; QPush 8; QTake; QTake; QTake]
    = Some ([RError kSuccess; RError kSuccess; RError kFull; RMessage (Some 5); RError kSuccess;
             RMessage (Some 6); RMessage (Some 8); RMessage None], q).
Proof.
  destruct (array_queue_refines [0; 0] 2
    [QPush 5; QPush 6; QPush 7; QTake; QPush 8; QTake; QTake; QTake]) as (q & E & _); [lia|simpl; lia|].
  exists q. exact E.
Defined.
