(* ===== verification/Bits.v ===== *)
(** * Bit fields

    The C++ sources describe registers and hardware structures as unions of an
    integer with bit fields.  A field is a position and a width. *)
From Stdlib Require Import ZArith Lia.
From stdpp Require Import base option numbers.
From S2P Require Import Prelude.

Definition get_field (pos width z : Z) : Z := Z.land (Z.shiftr z pos) (Z.ones width).
Definition set_field (pos width x z : Z) : Z :=
  Z.lor (Z.ldiff z (Z.shiftl (Z.ones width) pos)) (Z.shiftl (Z.land x (Z.ones width)) pos).

(** A field of one bit. *)
Definition get_bit (pos z : Z) : bool := Z.testbit z pos.
Definition set_bit (pos : Z) (b : bool) (z : Z) : Z := set_field pos 1 (Z.b2z b) z.

Lemma get_field_bits pos width z i :
  0 <= pos -> 0 <= i -> 0 <= width -> Z.testbit (get_field pos width z) i = (i <? width) && Z.testbit z (i + pos).
Proof.
  intros. unfold get_field. rewrite Z.land_spec, Z.shiftr_spec, Z.testbit_ones_nonneg by lia. apply andb_comm.
Qed.

Lemma set_field_bits pos width x z i :
  0 <= pos -> 0 <= width -> 0 <= i ->
  Z.testbit (set_field pos width x z) i
  = if (pos <=? i) && (i <? pos + width) then Z.testbit x (i - pos) else Z.testbit z i.
Proof.
  intros Hp Hw Hi. unfold set_field. rewrite Z.lor_spec, Z.ldiff_spec, !Z.shiftl_spec by lia.
  destruct (Z.leb_spec pos i) as [Hle|Hlt]; simpl.
  - rewrite Z.land_spec, Z.testbit_ones_nonneg by lia.
    replace (i - pos <? width) with (i <? pos + width)
      by (destruct (Z.ltb_spec i (pos + width)), (Z.ltb_spec (i - pos) width); lia || done).
    destruct (i <? pos + width); simpl; rewrite ?andb_true_r, ?andb_false_r, ?orb_false_l, ?orb_false_r; done.
  - rewrite !(Z.testbit_neg_r _ (i - pos)) by lia. by rewrite andb_true_r, orb_false_r.
Qed.

Lemma get_field_range pos width z : 0 <= width -> 0 <= get_field pos width z < 2 ^ width.
Proof. intros. unfold get_field. rewrite Z.land_ones by done. apply Z.mod_pos_bound. lia. Qed.

Lemma get_field_div pos width z : 0 <= pos -> 0 <= width -> get_field pos width z = z / 2 ^ pos mod 2 ^ width.
Proof. intros. unfold get_field. by rewrite Z.land_ones, Z.shiftr_div_pow2. Qed.

Lemma get_set_same pos width x z :
  0 <= pos -> 0 <= x < 2 ^ width -> 0 <= width -> get_field pos width (set_field pos width x z) = x.
Proof.
  intros Hp Hx Hw. apply Z.bits_inj'. intros i Hi. rewrite get_field_bits, set_field_bits by lia.
  destruct (Z.leb_spec pos (i + pos)); [|lia]. replace (i + pos - pos) with i by lia.
  destruct (Z.ltb_spec i width), (Z.ltb_spec (i + pos) (pos + width)); try lia; simpl; [done|].
  rewrite <- (Z.mod_small x (2 ^ width)) by done. by rewrite Z.mod_pow2_bits_high by lia.
Qed.

Lemma get_set_other pos width pos' width' x z :
  0 <= pos -> 0 <= width -> 0 <= pos' -> 0 <= width' -> pos' + width' <= pos \/ pos + width <= pos' ->
  get_field pos' width' (set_field pos width x z) = get_field pos' width' z.
Proof.
  intros Hp Hw Hp' Hw' Hd. apply Z.bits_inj'. intros i Hi. rewrite !get_field_bits, set_field_bits by lia.
  destruct (Z.ltb_spec i width'); [|done]. simpl.
  destruct (Z.leb_spec pos (i + pos')), (Z.ltb_spec (i + pos') (pos + width)); simpl; done || lia.
Qed.

Lemma get_set_bit pos b z : 0 <= pos -> get_bit pos (set_bit pos b z) = b.
Proof.
  intros. unfold get_bit, set_bit. rewrite set_field_bits by lia.
  destruct (Z.leb_spec pos pos); [|lia]. destruct (Z.ltb_spec pos (pos + 1)); [|lia]. simpl.
  rewrite Z.sub_diag. by destruct b.
Qed.

Lemma get_set_bit_other pos width pos' x z :
  0 <= pos -> 0 <= width -> 0 <= pos' -> pos' < pos \/ pos + width <= pos' ->
  get_bit pos' (set_field pos width x z) = get_bit pos' z.
Proof.
  intros. unfold get_bit. rewrite set_field_bits by lia.
  destruct (Z.leb_spec pos pos'), (Z.ltb_spec pos' (pos + width)); simpl; done || lia.
Qed.

(** Flags in the low bits of an aligned address. *)
Lemma lor_flags a k f : 0 <= k -> (2 ^ k | a) -> 0 <= f < 2 ^ k -> Z.lor a f = a + f.
Proof.
  intros Hk [q ->] Hf. rewrite <- (Z.add_lor_land (q * 2 ^ k) f).
  assert (Z.land (q * 2 ^ k) f = 0) as ->; [|lia]. apply Z.bits_inj'. intros i Hi.
  rewrite Z.land_spec, Z.bits_0. destruct (decide (i < k)).
  - by rewrite Z.mul_pow2_bits_low by lia.
  - rewrite <- (Z.mod_small f (2 ^ k)) by done. by rewrite Z.mod_pow2_bits_high, andb_false_r by lia.
Qed.

Create HintDb bits.
#[export] Hint Resolve get_field_range : bits.
