(* ===== verification/UsbMemory.v ===== *)
(** * Memory of the USB driver, src/src/usb/memory.cpp

    [AllocMem] hands out pieces of a static pool and never takes them back.  The
    address of the pool is chosen by the linker. *)
From Stdlib Require Import ZArith Lia.
From stdpp Require Import base option list numbers.
From S2P Require Import Prelude.

Set Default Proof Using "Type".

Definition kMemoryPoolSize : Z := 4096 * 1024.

(** [Ceil] on 64-bit values; the alignment has 32 bits. *)
Definition Ceil (value alignment : Z) : Z :=
  Z.land (u64 (value + alignment - 1)) (u64 (Z.lnot (u32 (alignment - 1)))).

Section pool.
Context (memory_pool : Z).

(** The address or null, and the new value of [alloc_ptr]. *)
Definition AllocMem (alloc_ptr size alignment boundary : Z) : Z * Z :=
  let alloc_ptr := if alignment >? 0 then Ceil alloc_ptr alignment else alloc_ptr in
  let alloc_ptr :=
    if boundary >? 0 then
      let next_boundary := Ceil alloc_ptr boundary in
      if next_boundary <? u64 (alloc_ptr + size) then next_boundary else alloc_ptr
    else alloc_ptr in
  if u64 (memory_pool + kMemoryPoolSize) <? u64 (alloc_ptr + size) then (0, alloc_ptr)
  else (alloc_ptr, u64 (alloc_ptr + size)).

Definition FreeMem (alloc_ptr p : Z) : Z := alloc_ptr.

(** A request is a size, an alignment and a boundary. *)
Record request := mkRequest { rq_size : Z; rq_alignment : Z; rq_boundary : Z }.

Fixpoint alloc_all (alloc_ptr : Z) (rqs : list request) : list Z * Z :=
  match rqs with
  | [] => ([], alloc_ptr)
  | rq :: rqs =>
      let '(p, alloc_ptr) := AllocMem alloc_ptr (rq_size rq) (rq_alignment rq) (rq_boundary rq) in
      let '(ps, alloc_ptr) := alloc_all alloc_ptr rqs in
      (p :: ps, alloc_ptr)
  end.

(** ** Rounding up *)
Definition pow2_or_0 (a : Z) : Prop := a = 0 \/ exists k, 0 <= k < 32 /\ a = 2 ^ k.

Lemma Ceil_spec v k :
  0 <= v -> 0 <= k < 32 -> v + 2 ^ k <= 2 ^ 64 ->
  v <= Ceil v (2 ^ k) < v + 2 ^ k /\ (2 ^ k | Ceil v (2 ^ k)).
Proof.
  intros Hv Hk Hle. assert (0 < 2 ^ k < 2 ^ 32)
    by (split; [apply Z.pow_pos_nonneg|apply Z.pow_lt_mono_r]; lia).
  assert (E : Ceil v (2 ^ k) = (v + 2 ^ k - 1) / 2 ^ k * 2 ^ k).
  { unfold Ceil, u64. rewrite (Z.mod_small (v + 2 ^ k - 1)) by lia. rewrite u32_small by lia.
    rewrite <- Z.shiftr_div_pow2, <- Z.shiftl_mul_pow2 by lia.
    replace (2 ^ k - 1) with (Z.ones k) by (rewrite Z.ones_equiv; lia).
    apply Z.bits_inj'. intros i Hi. rewrite Z.land_spec, Z.shiftl_spec by done.
    destruct (decide (i < 64)) as [H64|H64].
    - rewrite Z.mod_pow2_bits_low, Z.lnot_spec, Z.testbit_ones_nonneg by lia.
      destruct (Z.ltb_spec i k); simpl.
      + by rewrite andb_false_r, Z.testbit_neg_r by lia.
      + rewrite andb_true_r, Z.shiftr_spec by lia. f_equal. lia.
    - rewrite (Z.mod_pow2_bits_high _ 64 i), andb_false_r by lia. rewrite Z.shiftr_spec by lia.
      replace (i - k + k) with i by lia. rewrite <- (Z.mod_small (v + 2 ^ k - 1) (2 ^ 64)) by lia.
      by rewrite Z.mod_pow2_bits_high by lia. }
  rewrite E. split; [|by apply Z.divide_factor_r].
  pose proof (Z.div_mod (v + 2 ^ k - 1) (2 ^ k) ltac:(lia)).
  pose proof (Z.mod_pos_bound (v + 2 ^ k - 1) (2 ^ k) ltac:(lia)). lia.
Qed.

Lemma pow2_divide j k : 0 <= j <= k -> (2 ^ j | 2 ^ k).
Proof. intros. exists (2 ^ (k - j)). rewrite <- Z.pow_add_r by lia. f_equal. lia. Qed.

Lemma Ceil_aligned v k : 0 <= v -> 0 <= k < 32 -> v + 2 ^ k <= 2 ^ 64 -> (2 ^ k | v) -> Ceil v (2 ^ k) = v.
Proof.
  intros Hv Hk Hle Hd. destruct (Ceil_spec v k Hv Hk Hle) as [Hr [q Hq]]. destruct Hd as [p Hp].
  assert (0 < 2 ^ k) by (apply Z.pow_pos_nonneg; lia). assert (q = p) by nia. lia.
Qed.

(** A multiple of every power of two below 2^32 bounds the rounding. *)
Lemma Ceil_below v k M : 0 <= v <= M -> 0 <= k < 32 -> v + 2 ^ k <= 2 ^ 64 -> (2 ^ 31 | M) -> Ceil v (2 ^ k) <= M.
Proof.
  intros Hv Hk Hle HM. destruct (Ceil_spec v k) as [Hr [q Hq]]; [lia|done|done|].
  assert (0 < 2 ^ k) by (apply Z.pow_pos_nonneg; lia).
  destruct (Z.divide_trans (2 ^ k) (2 ^ 31) M (pow2_divide k 31 ltac:(lia)) HM) as [p Hp].
  assert (q <= p) by nia. nia.
Qed.

(** ** The allocator

    [M] bounds the pointer, also after a request that failed. *)
Context (M : Z) (Hpool : 0 < memory_pool) (HM : memory_pool + kMemoryPoolSize <= M)
  (HM31 : (2 ^ 31 | M)) (HM62 : M <= 2 ^ 62).

Definition request_ok (rq : request) : Prop :=
  0 <= rq_size rq < 2 ^ 62 /\ pow2_or_0 (rq_alignment rq) /\ pow2_or_0 (rq_boundary rq).

(** A block is aligned, in the pool, and does not cross a boundary it fits into. *)
Definition block_of (rq : request) (p : Z) : Prop :=
  memory_pool <= p /\ p + rq_size rq <= memory_pool + kMemoryPoolSize
  /\ (0 < rq_alignment rq -> (rq_alignment rq | p))
  /\ (0 < rq_boundary rq -> 0 < rq_size rq <= rq_boundary rq ->
      p / rq_boundary rq = (p + rq_size rq - 1) / rq_boundary rq).

(** The address after the alignment. *)
Lemma align_ptr ptr al :
  memory_pool <= ptr <= M -> pow2_or_0 al ->
  exists q, (if al >? 0 then Ceil ptr al else ptr) = q /\ ptr <= q <= M /\ q <= ptr + al
    /\ (0 < al -> (al | q)).
Proof using Hpool HM31 HM62.
  intros Hp [->|(k & Hk & ->)].
  { exists ptr. split_and!; [done|lia|lia|lia|lia]. }
  assert (0 < 2 ^ k < 2 ^ 32) by (split; [apply Z.pow_pos_nonneg|apply Z.pow_lt_mono_r]; lia).
  rewrite Z.gtb_ltb. destruct (Z.ltb_spec 0 (2 ^ k)); [|lia].
  destruct (Ceil_spec ptr k) as [Hr Hd]; [lia|done|lia|].
  pose proof (Ceil_below ptr k M ltac:(lia) Hk ltac:(lia) HM31). eexists.
  split_and!; [reflexivity|lia|lia|lia|done].
Qed.

(** The move to the next boundary keeps the alignment and prevents crossing. *)
Lemma move_ptr q size al bd :
  memory_pool <= q <= M -> 0 <= size < 2 ^ 62 -> pow2_or_0 al -> pow2_or_0 bd -> (0 < al -> (al | q)) ->
  exists r, (if bd >? 0 then let nb := Ceil q bd in if nb <? u64 (q + size) then nb else q else q) = r
    /\ q <= r <= M /\ r <= q + bd /\ (0 < al -> (al | r))
    /\ (0 < bd -> 0 < size <= bd -> r / bd = (r + size - 1) / bd).
Proof using Hpool HM31 HM62.
  intros Hq Hs Hal [->|(k & Hk & ->)] Hd.
  { exists q. split_and!; [done|lia|lia|lia|done|lia]. }
  assert (0 < 2 ^ k < 2 ^ 32) by (split; [apply Z.pow_pos_nonneg|apply Z.pow_lt_mono_r]; lia).
  rewrite Z.gtb_ltb. destruct (Z.ltb_spec 0 (2 ^ k)); [|lia]. cbv zeta.
  destruct (Ceil_spec q k) as [Hr [c Hc]]; [lia|done|lia|].
  pose proof (Ceil_below q k M ltac:(lia) Hk ltac:(lia) HM31).
  assert (u64 (q + size) = q + size) as -> by (apply Z.mod_small; lia).
  destruct (Z.ltb_spec (Ceil q (2 ^ k)) (q + size)) as [Hlt|Hge]; eexists.
  - split_and!; [reflexivity|lia|lia|lia| |].
    + intros Ha. destruct Hal as [->|(j & Hj & ->)]; [lia|]. destruct (decide (j <= k)).
      * rewrite Hc. apply Z.divide_mul_r, pow2_divide. lia.
      * rewrite Ceil_aligned; [by apply Hd|lia|done|lia|].
        eapply Z.divide_trans; [|by apply Hd]. apply pow2_divide. lia.
    + intros _ Hsz. rewrite Hc, Z.div_mul by lia. apply Z.div_unique with (size - 1); lia.
  - split_and!; [reflexivity|lia|lia|lia|done|]. intros _ Hsz.
    rewrite <- (Z.div_unique q (2 ^ k) (c - 1) (q - (c - 1) * 2 ^ k)) by lia.
    apply Z.div_unique with (q + size - 1 - (c - 1) * 2 ^ k); lia.
Qed.

Lemma AllocMem_spec ptr rq :
  memory_pool <= ptr <= M -> request_ok rq ->
  exists p ptr', AllocMem ptr (rq_size rq) (rq_alignment rq) (rq_boundary rq) = (p, ptr')
    /\ ptr <= ptr' <= M
    /\ (p = 0 /\ memory_pool + kMemoryPoolSize < ptr + rq_size rq + rq_alignment rq + rq_boundary rq
        \/ ptr <= p /\ ptr' = p + rq_size rq /\ block_of rq p).
Proof using Hpool HM HM31 HM62.
  intros Hp (Hs & Hal & Hbd). unfold AllocMem.
  destruct (align_ptr ptr _ Hp Hal) as (q & -> & Hq & Hqa & Hd). cbv zeta.
  destruct (move_ptr q _ _ _ ltac:(lia) Hs Hal Hbd Hd) as (r & E & Hr & Hrb & Hdr & Hx). cbv zeta in E.
  rewrite E. assert (0 < kMemoryPoolSize) by done.
  assert (u64 (r + rq_size rq) = r + rq_size rq) as -> by (apply Z.mod_small; lia).
  assert (u64 (memory_pool + kMemoryPoolSize) = memory_pool + kMemoryPoolSize) as ->
    by (apply Z.mod_small; lia).
  destruct (Z.ltb_spec (memory_pool + kMemoryPoolSize) (r + rq_size rq)); eexists _, _.
  - split; [reflexivity|]. split; [lia|]. left. lia.
  - split; [reflexivity|]. split; [lia|]. right. split; [lia|]. split; [done|].
    unfold block_of. split_and!; [lia|lia|done|done].
Qed.

(** Whatever blocks the driver asks for, one after the other: each answer is
    null, or a block of the pool that has the alignment, does not cross a
    boundary it fits into, and lies behind all earlier blocks; so no two blocks
    overlap. *)
Theorem usb_blocks_correct rqs :
  Forall request_ok rqs ->
  exists ps ptr, alloc_all memory_pool rqs = (ps, ptr) /\ length ps = length rqs
    /\ (forall i rq p, rqs !! i = Some rq -> ps !! i = Some p -> p = 0 \/ block_of rq p)
    /\ (forall i j rq p p', (i < j)%nat -> rqs !! i = Some rq -> ps !! i = Some p -> ps !! j = Some p' ->
        p <> 0 -> p' <> 0 -> p + rq_size rq <= p').
Proof using Hpool HM HM31 HM62.
  intros HF. assert (0 < kMemoryPoolSize) by done.
  assert (G : forall ptr, memory_pool <= ptr <= M -> exists ps ptr', alloc_all ptr rqs = (ps, ptr')
    /\ length ps = length rqs /\ (forall j p, ps !! j = Some p -> p <> 0 -> ptr <= p)
    /\ (forall i rq p, rqs !! i = Some rq -> ps !! i = Some p -> p = 0 \/ block_of rq p)
    /\ (forall i j rq p p', (i < j)%nat -> rqs !! i = Some rq -> ps !! i = Some p -> ps !! j = Some p' ->
        p <> 0 -> p' <> 0 -> p + rq_size rq <= p')).
  2:{ destruct (G memory_pool ltac:(lia)) as (ps & ptr & E & Hl & _ & H1 & H2). by exists ps, ptr. }
  induction HF as [|rq rqs Hrq HF IH]; intros ptr Hp; cbn [alloc_all].
  { exists [], ptr. split_and!; [done|done|done| |]; intros *; rewrite ?lookup_nil; done. }
  destruct (AllocMem_spec ptr rq Hp Hrq) as (p & ptr1 & -> & Hp1 & Hc).
  destruct (IH ptr1 ltac:(lia)) as (ps & ptr2 & -> & Hl & Hlo & Hb & Hs). exists (p :: ps), ptr2.
  split; [done|]. split; [simpl; lia|]. split_and!.
  - intros [|j] q Hq Hz; simplify_eq/=; [destruct Hc; lia|]. specialize (Hlo j q Hq Hz). lia.
  - intros [|i] rq' q Hq Hz; simplify_eq/=; [destruct Hc as [[? _]|(_ & _ & ?)]; auto|by eapply Hb].
  - intros [|i] [|j] rq' q q' Hij Hrq' Hq Hq' Hz Hz'; simplify_eq/=; try lia.
    + specialize (Hlo j q' Hq' Hz'). destruct Hc as [[? _]|(_ & Hc & _)]; [done|lia].
    + eapply Hs; [|done..]. lia.
Qed.
End pool.

Lemma usb_blocks_correct_witness :
  let rqs := [mkRequest 512 64 65536; mkRequest 16 64 65536; mkRequest 8192 4096 0] in
  alloc_all 0x200040 0x200040 rqs = ([0x200040; 0x200240; 0x201000], 0x203000) /\ 0x200240 / 65536 = 0x20024f / 65536.
Proof.
  intros rqs. assert (HF : Forall request_ok rqs).
  { assert (P : forall k, 0 <= k < 32 -> pow2_or_0 (2 ^ k)) by (intros k Hk; right; by exists k).
    repeat apply list.Forall_cons_2; [| | |apply list.Forall_nil_2]; (split; [simpl; lia|]).
    - exact (conj (P 6 ltac:(lia)) (P 16 ltac:(lia))).
    - exact (conj (P 6 ltac:(lia)) (P 16 ltac:(lia))).
    - exact (conj (P 12 ltac:(lia)) (or_introl eq_refl)). }
  destruct (usb_blocks_correct 0x200040 0x80000000 ltac:(lia) ltac:(done) (Z.divide_refl _) ltac:(done) rqs HF)
    as (ps & ptr & E & _ & Hb & _).
  assert (E' : alloc_all 0x200040 0x200040 rqs = ([0x200040; 0x200240; 0x201000], 0x203000)) by reflexivity.
  split; [done|]. rewrite E in E'. injection E' as -> _.
  destruct (Hb 1%nat (mkRequest 16 64 65536) 0x200240 eq_refl eq_refl) as [?|(_ & _ & _ & Hx)]; [done|].
  apply Hx; simpl; lia.
Defined.

(** The sum of the pointer and the size is not checked: a size close to 2^64
    is granted, and the next block lies before the last one. *)
Lemma AllocMem_wraps :
  AllocMem 0x200000 0x200100 (2 ^ 64 - 0x80) 0 0 = (0x200100, 0x200080).
Proof. reflexivity. Qed.
