(* ===== verification/Ring.v ===== *)
(** * Rings of the USB host controller, src/src/usb/xhci/ring.cpp

    The driver gives commands and transfers to the controller (xHC) through a
    [Ring], and gets events through an [EventRing].  Producer and consumer each
    have a position and a cycle bit that they flip when they wrap; an entry is
    valid when its cycle bit is the consumer's.  The theorems put the code of
    the driver together with the other side as src/src/usb/xhci/ring.hpp describes it. *)
From Stdlib Require Import ZArith Lia.
From stdpp Require Import base option list numbers.
From S2P Require Import Prelude Error Bits Fifo UsbMemory.

Set Default Proof Using "Type".

(** ** Entries, src/src/usb/xhci/trb.hpp *)
Record TRB := mkTRB { trb_data0 : Z; trb_data1 : Z; trb_data2 : Z; trb_data3 : Z }.
Definition sizeof_TRB : Z := 16.
Definition TRB_zero : TRB := mkTRB 0 0 0 0.
Definition cycle_of (t : TRB) : bool := get_bit 0 (trb_data3 t).
Definition trb_type (t : TRB) : Z := get_field 10 6 (trb_data3 t).

(** [LinkTRB{buf_}] with [toggle_cycle]. *)
Definition LinkTRB_Type : Z := 6.
Definition link_word (p : Z) : Z := set_field 4 60 (Z.shiftr p 4) 0.
Definition LinkTRB (p : Z) : TRB :=
  let w := link_word p in
  mkTRB (u32 w) (Z.shiftr w 32) 0 (set_bit 1 true (set_field 10 6 LinkTRB_Type 0)).
Definition LinkTRB_Pointer (t : TRB) : Z :=
  Z.shiftl (get_field 4 60 (Z.lor (trb_data0 t) (Z.shiftl (trb_data1 t) 32))) 4.

(** ** The ring of commands and transfers *)
Record Ring := mkRing {
  buf_ : Z;            (** the address of the entries *)
  ring_mem : list TRB; (** the entries *)
  buf_size_ : Z;
  cycle_bit_ : bool;
  write_index_ : Z
}.

Definition Initialize (memory_pool alloc_ptr buf_size : Z) : Code * option Ring * Z :=
  let '(p, alloc_ptr) := AllocMem memory_pool alloc_ptr (u64 (sizeof_TRB * buf_size)) 64 (64 * 1024) in
  if p =? 0 then (kNoEnoughMemory, None, alloc_ptr)
  else (kSuccess, Some (mkRing p (replicate (Z.to_nat buf_size) TRB_zero) buf_size true 0), alloc_ptr).

(** The contents of the entry after each of the five stores of [CopyToLast]. *)
Definition copy_stores (data : TRB) (cycle_bit : bool) (slot : TRB) : list TRB :=
  let s1 := mkTRB (trb_data0 data) (trb_data1 slot) (trb_data2 slot) (trb_data3 slot) in
  let s2 := mkTRB (trb_data0 s1) (trb_data1 data) (trb_data2 s1) (trb_data3 s1) in
  let s3 := mkTRB (trb_data0 s2) (trb_data1 s2) (trb_data2 data) (trb_data3 s2) in
  let s4 := mkTRB (trb_data0 s3) (trb_data1 s3) (trb_data2 s3) (trb_data3 data) in
  let s5 := mkTRB (trb_data0 s4) (trb_data1 s4) (trb_data2 s4) (set_bit 0 cycle_bit (trb_data3 s4)) in
  [s1; s2; s3; s4; s5].

Definition CopyToLast (r : Ring) (data : TRB) : option Ring :=
  slot ← (ring_mem r)$[write_index_ r];
  slot ← list.last (copy_stores data (cycle_bit_ r) slot);
  l ← (ring_mem r)$[write_index_ r := slot];
  Some (mkRing (buf_ r) l (buf_size_ r) (cycle_bit_ r) (write_index_ r)).

(** The index of the new entry, and the ring. *)
Definition Push (r : Ring) (data : TRB) : option (Z * Ring) :=
  let enqueuePtr := write_index_ r in
  r ← CopyToLast r data;
  let r := mkRing (buf_ r) (ring_mem r) (buf_size_ r) (cycle_bit_ r) (u64 (write_index_ r + 1)) in
  if write_index_ r =? u64 (buf_size_ r - 1) then
    r ← CopyToLast r (LinkTRB (buf_ r));
    Some (enqueuePtr, mkRing (buf_ r) (ring_mem r) (buf_size_ r) (negb (cycle_bit_ r)) 0)
  else Some (enqueuePtr, r).

(** ** The ring of events

    The segment table has one entry; the register ERDP holds the address of the
    next event in its upper 60 bits. *)
Record InterrupterRegisterSet := mkIR { ERSTSZ : Z; ERSTBA : Z; ERDP : Z }.

Record EventRing := mkERing {
  ebuf_ : Z; ering_mem : list TRB; ebuf_size_ : Z;
  erst_ : Z; ring_segment_base_address : Z; ring_segment_size : Z;
  ecycle_bit_ : bool; interrupter_ : InterrupterRegisterSet
}.

Definition ERSTSZ_SetSize (data value : Z) : Z := set_field 0 16 value data.
Definition ERSTBA_SetPointer (data value : Z) : Z := set_field 6 58 (Z.shiftr value 6) data.
Definition ERDP_Pointer (data : Z) : Z := u64 (Z.shiftl (get_field 4 60 data) 4).
Definition ERDP_SetPointer (data value : Z) : Z := set_field 4 60 (Z.shiftr value 4) data.

Definition WriteDequeuePointer (e : EventRing) (p : Z) : EventRing :=
  let r := interrupter_ e in
  mkERing (ebuf_ e) (ering_mem e) (ebuf_size_ e) (erst_ e) (ring_segment_base_address e) (ring_segment_size e)
    (ecycle_bit_ e) (mkIR (ERSTSZ r) (ERSTBA r) (ERDP_SetPointer (ERDP r) p)).
Definition ReadDequeuePointer (e : EventRing) : Z := ERDP_Pointer (ERDP (interrupter_ e)).

(** Memory at address [p], an entry of the ring. *)
Definition trb_at (e : EventRing) (p : Z) : option TRB :=
  if (p - ebuf_ e) mod sizeof_TRB =? 0 then (ering_mem e)$[(p - ebuf_ e) / sizeof_TRB] else None.

Definition Front (e : EventRing) : option TRB := trb_at e (ReadDequeuePointer e).
Definition HasFront (e : EventRing) : option bool :=
  t ← Front e; Some (eqb (cycle_of t) (ecycle_bit_ e)).

Definition Pop (e : EventRing) : EventRing :=
  let p := u64 (ReadDequeuePointer e + sizeof_TRB) in
  let segment_begin := ring_segment_base_address e in
  let segment_end := u64 (segment_begin + ring_segment_size e * sizeof_TRB) in
  if p =? segment_end then
    WriteDequeuePointer
      (mkERing (ebuf_ e) (ering_mem e) (ebuf_size_ e) (erst_ e) (ring_segment_base_address e) (ring_segment_size e)
         (negb (ecycle_bit_ e)) (interrupter_ e)) segment_begin
  else WriteDequeuePointer e p.

Definition EventRing_Initialize (memory_pool alloc_ptr buf_size : Z) (r : InterrupterRegisterSet)
  : Code * option EventRing * Z :=
  let '(p, alloc_ptr) := AllocMem memory_pool alloc_ptr (u64 (sizeof_TRB * buf_size)) 64 (64 * 1024) in
  if p =? 0 then (kNoEnoughMemory, None, alloc_ptr)
  else
    let '(erst, alloc_ptr) := AllocMem memory_pool alloc_ptr sizeof_TRB 64 (64 * 1024) in
    if erst =? 0 then (kNoEnoughMemory, None, FreeMem alloc_ptr p)
    else
      let r := mkIR (ERSTSZ_SetSize (ERSTSZ r) 1) (ERSTBA r) (ERDP r) in
      let e := mkERing p (replicate (Z.to_nat buf_size) TRB_zero) buf_size erst p (u16 buf_size) true r in
      let e := WriteDequeuePointer e p in
      let r := interrupter_ e in
      let r := mkIR (ERSTSZ r) (ERSTBA_SetPointer (ERSTBA r) erst) (ERDP r) in
      (kSuccess, Some (mkERing (ebuf_ e) (ering_mem e) (ebuf_size_ e) (erst_ e) (ring_segment_base_address e)
                         (ring_segment_size e) (ecycle_bit_ e) r), alloc_ptr).

(** What [ProcessEvent] does with the ring: the event at the front, if there is one,
    and the ring after it is popped ([ProcessEvent] itself is in Xhci.v). *)
Definition take_event (e : EventRing) : option (option TRB * EventRing) :=
  b ← HasFront e;
  if b : bool then t ← Front e; Some (Some t, Pop e) else Some (None, e).

(** ** Entries with a cycle bit *)
Definition with_cycle (t : TRB) (c : bool) : TRB :=
  mkTRB (trb_data0 t) (trb_data1 t) (trb_data2 t) (set_bit 0 c (trb_data3 t)).

Lemma cycle_with t c : cycle_of (with_cycle t c) = c.
Proof. apply get_set_bit. lia. Qed.

Lemma type_with t c : trb_type (with_cycle t c) = trb_type t.
Proof. unfold trb_type, with_cycle, set_bit. apply get_set_other; lia. Qed.

Lemma set_bit_same pos z : 0 <= pos -> set_bit pos (get_bit pos z) z = z.
Proof.
  intros Hp. apply Z.bits_inj'. intros i Hi. unfold set_bit, get_bit. rewrite set_field_bits by lia.
  destruct (Z.leb_spec pos i), (Z.ltb_spec i (pos + 1)); simpl; try done.
  assert (i = pos) as -> by lia. rewrite Z.sub_diag. by destruct (Z.testbit z pos).
Qed.

Lemma with_cycle_same t : with_cycle t (cycle_of t) = t.
Proof. destruct t. unfold with_cycle, cycle_of. simpl. by rewrite set_bit_same. Qed.

Lemma set_bit_twice pos b c z : 0 <= pos -> set_bit pos b (set_bit pos c z) = set_bit pos b z.
Proof.
  intros Hp. apply Z.bits_inj'. intros i Hi. unfold set_bit. rewrite !set_field_bits by lia.
  by destruct ((pos <=? i) && (i <? pos + 1)).
Qed.

Lemma with_cycle_twice t b c : with_cycle (with_cycle t c) b = with_cycle t b.
Proof. unfold with_cycle. simpl. by rewrite set_bit_twice. Qed.

Lemma last_store data c slot : list.last (copy_stores data c slot) = Some (with_cycle data c).
Proof. reflexivity. Qed.

(** While an entry is written, the consumer sees it as invalid or complete. *)
Lemma stores_not_torn data c slot t :
  cycle_of slot = negb c -> cycle_of data = false -> t ∈ copy_stores data c slot ->
  cycle_of t = negb c \/ t = with_cycle data c.
Proof.
  intros Hs Hd Ht. unfold copy_stores in Ht. cbn [trb_data0 trb_data1 trb_data2 trb_data3] in Ht.
  repeat (apply elem_of_cons in Ht as [->|Ht]; [try (by left)|]); [| |by apply elem_of_nil in Ht].
  - destruct c; [by left|]. right. destruct data. rewrite <- Hd. symmetry. apply with_cycle_same.
  - by right.
Qed.

(** ** Entries in a ring of [N] cells

    [q] are the entries that were produced and not yet consumed; [F] counts all
    entries consumed so far.  The other cells look invalid to the consumer. *)
Definition cell (N F : Z) (i : nat) : Z := ring_index N F i.
Definition phase (N F : Z) (i : nat) : bool := Z.even ((F + Z.of_nat i) / N).

Record cells_ok (l : list TRB) (N F : Z) (q : list TRB) : Prop := {
  co_pos : 0 < N;
  co_len : N <= Z.of_nat (length l);
  co_count : 0 <= F;
  co_full : Z.of_nat (length q) <= N;
  co_valid : forall i t, q !! i = Some t -> l$[cell N F i] = Some (with_cycle t (phase N F i));
  co_stale : forall i, (length q <= i)%nat -> Z.of_nat i < N ->
    exists t, l$[cell N F i] = Some t /\ cycle_of t = negb (phase N F i)
}.

Lemma phase_shift N F i : phase N (F + 1) i = phase N F (S i).
Proof. unfold phase. do 2 f_equal. lia. Qed.

Lemma cell_shift N F i : cell N (F + 1) i = cell N F (S i).
Proof. unfold cell, ring_index. f_equal. lia. Qed.

(** The cell a whole round later has the other phase. *)
Lemma phase_round N F i : 0 < N -> Z.even ((F + Z.of_nat i + N) / N) = negb (phase N F i).
Proof.
  intros HN. unfold phase. replace (F + Z.of_nat i + N) with (F + Z.of_nat i + 1 * N) by lia.
  rewrite Z.div_add by lia. rewrite Z.even_add. by destruct (Z.even _).
Qed.

Lemma cells_produce l N F q t :
  cells_ok l N F q -> Z.of_nat (length q) < N ->
  cells_ok (<[Z.to_nat (cell N F (length q)) := with_cycle t (phase N F (length q))]> l) N F (q ++ [t]).
Proof.
  intros [HN Hl HF Hf Hv Hs] Hr.
  pose proof (ring_index_range N F (length q) HN) as Hc. unfold cell in *.
  assert (Hne : forall i, i <> length q -> Z.of_nat i < N -> ring_index N F (length q) <> ring_index N F i).
  { intros i Hi Hlt E. apply ring_index_inj in E; lia. }
  constructor; [done|by rewrite length_insert|done|rewrite length_app; simpl; lia| |].
  - intros i u Hi. rewrite lookupZ_insert by lia. apply lookup_app_Some in Hi as [Hi|[Hge Hi]].
    + pose proof (lookup_lt_Some _ _ _ Hi). rewrite decide_False by (apply Hne; lia). by apply Hv.
    + apply list_lookup_singleton_Some in Hi as [Hi ->]. assert (i = length q) as -> by lia.
      by rewrite decide_True.
  - intros i Hi Hlt. rewrite length_app in Hi. simpl in Hi. rewrite lookupZ_insert by lia.
    rewrite decide_False by (apply Hne; lia). apply Hs; lia.
Qed.

Lemma cells_consume l N F t q : cells_ok l N F (t :: q) -> cells_ok l N (F + 1) q.
Proof.
  intros [HN Hl HF Hf Hv Hs]. constructor; [done|done|lia|simpl in Hf; lia| |].
  - intros i u Hi. rewrite cell_shift, phase_shift. by apply Hv.
  - intros i Hi Hlt. rewrite cell_shift, phase_shift. destruct (decide (S i < Z.to_nat N)%nat) as [Hin|Hout].
    + apply Hs; simpl; lia.
    + assert (S i = Z.to_nat N) as E by lia. exists (with_cycle t (phase N F 0)).
      assert (cell N F (S i) = cell N F 0) as ->.
      { unfold cell, ring_index. rewrite E, Z2Nat.id, Z.add_0_r by lia.
        replace (F + N) with (F + 1 * N) by lia. apply Z.mod_add. lia. }
      split; [by apply Hv|]. rewrite cycle_with. unfold phase at 2.
      rewrite E. replace (F + Z.of_nat (Z.to_nat N)) with (F + Z.of_nat 0 + N) by lia.
      by rewrite phase_round, negb_involutive.
Qed.

Lemma cells_zero n N : 0 < N <= n -> cells_ok (replicate (Z.to_nat n) TRB_zero) N 0 [].
Proof.
  intros Hn. constructor; [lia|rewrite length_replicate; lia|done|simpl; lia|done|].
  intros i _ Hi. exists TRB_zero. unfold cell, ring_index, phase. rewrite Z.mod_small, Z.div_small by lia.
  split; [|done]. unfold lookupZ. destruct (Z.leb_spec 0 (0 + Z.of_nat i)); [|lia].
  apply lookup_replicate_2. lia.
Qed.

Lemma cells_outside l N F q i t : cells_ok l N F q -> N <= i -> cells_ok (<[Z.to_nat i := t]> l) N F q.
Proof.
  intros [HN Hl HF Hf Hv Hs] Hi.
  assert (forall j, (<[Z.to_nat i := t]> l)$[cell N F j] = l$[cell N F j]) as E.
  { intros j. pose proof (ring_index_range N F j HN). apply lookupZ_insert_ne; unfold cell; lia. }
  constructor; [done|by rewrite length_insert|done|done| |]; intros; rewrite E; eauto.
Qed.

(** The phase changes exactly where the position wraps. *)
Lemma phase_succ N F i :
  0 < N -> phase N F (S i) = if cell N F i + 1 =? N then negb (phase N F i) else phase N F i.
Proof.
  intros HN. unfold phase, cell, ring_index. set (a := F + Z.of_nat i).
  replace (F + Z.of_nat (S i)) with (a + 1) by lia.
  pose proof (Z.div_mod a N ltac:(lia)). pose proof (Z.mod_pos_bound a N HN).
  destruct (Z.eqb_spec (a mod N + 1) N).
  - rewrite <- (Z.div_unique (a + 1) N (a / N + 1) 0) by lia. rewrite Z.even_add. by destruct (Z.even _).
  - by rewrite <- (Z.div_unique (a + 1) N (a / N) (a mod N + 1)) by lia.
Qed.

Lemma cell_succ N F i : 0 < N -> cell N F (S i) = if cell N F i + 1 =? N then 0 else cell N F i + 1.
Proof. intros HN. symmetry. by apply ring_succ. Qed.

(** ** The link *)
Lemma link_word_eq p : 0 <= p < 2 ^ 64 -> (16 | p) -> link_word p = p.
Proof.
  intros Hp [k Hk]. apply Z.bits_inj'. intros i Hi. unfold link_word.
  rewrite set_field_bits, Z.bits_0 by lia. destruct (Z.leb_spec 4 i) as [Hle|Hlt]; simpl.
  - destruct (Z.ltb_spec i (4 + 60)); simpl.
    + rewrite Z.shiftr_spec by lia. f_equal. lia.
    + rewrite <- (Z.mod_small p (2 ^ 64)) by done. by rewrite Z.mod_pow2_bits_high by lia.
  - rewrite Hk. change 16 with (2 ^ 4). by rewrite Z.mul_pow2_bits_low by lia.
Qed.

Lemma link_pointer p c : 0 <= p < 2 ^ 64 -> (16 | p) -> LinkTRB_Pointer (with_cycle (LinkTRB p) c) = p.
Proof.
  intros Hp Hd. unfold LinkTRB_Pointer, with_cycle, LinkTRB. cbn [trb_data0 trb_data1].
  rewrite link_word_eq by done.
  assert (Z.lor (u32 p) (Z.shiftl (Z.shiftr p 32) 32) = p) as ->.
  { apply Z.bits_inj'. intros i Hi. rewrite Z.lor_spec, Z.shiftl_spec by lia. unfold u32.
    destruct (decide (i < 32)).
    - by rewrite Z.mod_pow2_bits_low, (Z.testbit_neg_r _ (i - 32)), orb_false_r by lia.
    - rewrite Z.mod_pow2_bits_high, Z.shiftr_spec by lia. simpl. f_equal. lia. }
  apply Z.bits_inj'. intros i Hi. rewrite Z.shiftl_spec by lia. destruct Hd as [k ->].
  destruct (decide (i < 4)).
  - rewrite Z.testbit_neg_r by lia. change 16 with (2 ^ 4). by rewrite Z.mul_pow2_bits_low by lia.
  - rewrite get_field_bits by lia. replace (i - 4 + 4) with i by lia. destruct (Z.ltb_spec (i - 4) 60); [done|].
    rewrite <- (Z.mod_small (k * 16) (2 ^ 64)) by done. by rewrite Z.mod_pow2_bits_high by lia.
Qed.

Lemma link_type p c : trb_type (with_cycle (LinkTRB p) c) = LinkTRB_Type.
Proof. rewrite type_with. reflexivity. Qed.

Lemma link_toggles p c : get_bit 1 (trb_data3 (with_cycle (LinkTRB p) c)) = true.
Proof. by destruct c. Qed.

(** ** Driver and controller on a ring of commands

    The controller, as the comment of src/src/usb/xhci/ring.hpp has it: it compares
    the cycle bit of the entry at its position with its own, follows a link,
    and else takes the entry. *)
Fixpoint xhc_fetch (fuel : nat) (base : Z) (l : list TRB) (p : Z) (ccs : bool)
  : option (option TRB * Z * bool) :=
  match fuel with
  | O => None
  | S fuel =>
      t ← l$[(p - base) / sizeof_TRB];
      if negb (eqb (cycle_of t) ccs) then Some (None, p, ccs)
      else if trb_type t =? LinkTRB_Type then
        xhc_fetch fuel base l (LinkTRB_Pointer t) (if get_bit 1 (trb_data3 t) then negb ccs else ccs)
      else Some (Some t, p + sizeof_TRB, ccs)
  end.

(** Entries that the driver pushes: their cycle bit is still 0, and they are no
    links. *)
Definition plain (t : TRB) : Prop := cycle_of t = false /\ trb_type t <> LinkTRB_Type.

Record ring_ok (r : Ring) (p : Z) (ccs : bool) (F : Z) (q : list TRB) : Prop := {
  ro_cells : cells_ok (ring_mem r) (buf_size_ r - 1) F q;
  ro_len : Z.of_nat (length (ring_mem r)) = buf_size_ r;
  ro_size : buf_size_ r < 2 ^ 32;
  ro_addr : 0 <= buf_ r < 2 ^ 63;
  ro_align : (16 | buf_ r);
  ro_room : Z.of_nat (length q) < buf_size_ r - 1;
  ro_plain : Forall plain q;
  ro_write : write_index_ r = cell (buf_size_ r - 1) F (length q);
  ro_cycle : cycle_bit_ r = phase (buf_size_ r - 1) F (length q);
  ro_link : buf_size_ r - 1 <= F + Z.of_nat (length q) ->
    (ring_mem r)$[buf_size_ r - 1]
    = Some (with_cycle (LinkTRB (buf_ r)) (negb (phase (buf_size_ r - 1) F (length q))));
  ro_read :
    (p = buf_ r + sizeof_TRB * cell (buf_size_ r - 1) F 0 /\ ccs = phase (buf_size_ r - 1) F 0)
    \/ (p = buf_ r + sizeof_TRB * (buf_size_ r - 1) /\ buf_size_ r - 1 <= F
        /\ cell (buf_size_ r - 1) F 0 = 0 /\ ccs = negb (phase (buf_size_ r - 1) F 0))
}.

Lemma CopyToLast_eq r data :
  0 <= write_index_ r < Z.of_nat (length (ring_mem r)) ->
  CopyToLast r data
  = Some (mkRing (buf_ r) (<[Z.to_nat (write_index_ r) := with_cycle data (cycle_bit_ r)]> (ring_mem r))
      (buf_size_ r) (cycle_bit_ r) (write_index_ r)).
Proof.
  intros Hw. unfold CopyToLast. destruct (lookupZ_is_Some _ _ Hw) as [slot ->]. cbn [mbind option_bind].
  rewrite last_store. cbn [mbind option_bind]. by rewrite updateZ_in.
Qed.

(** What [Push] makes of the ring. *)
Definition pushed (r : Ring) (data : TRB) : Ring :=
  let l := <[Z.to_nat (write_index_ r) := with_cycle data (cycle_bit_ r)]> (ring_mem r) in
  if write_index_ r + 1 =? buf_size_ r - 1 then
    mkRing (buf_ r) (<[Z.to_nat (buf_size_ r - 1) := with_cycle (LinkTRB (buf_ r)) (cycle_bit_ r)]> l) (buf_size_ r)
      (negb (cycle_bit_ r)) 0
  else mkRing (buf_ r) l (buf_size_ r) (cycle_bit_ r) (write_index_ r + 1).

Lemma Push_wf r data :
  0 <= write_index_ r < buf_size_ r - 1 -> Z.of_nat (length (ring_mem r)) = buf_size_ r -> buf_size_ r < 2 ^ 32 ->
  Push r data = Some (write_index_ r, pushed r data).
Proof.
  intros Hw Hl Hsz. unfold Push, pushed. rewrite CopyToLast_eq by lia.
  cbn [mbind option_bind write_index_ buf_size_ buf_ ring_mem cycle_bit_].
  assert (u64 (write_index_ r + 1) = write_index_ r + 1) as -> by (apply Z.mod_small; lia).
  assert (u64 (buf_size_ r - 1) = buf_size_ r - 1) as -> by (apply Z.mod_small; lia).
  destruct (Z.eqb_spec (write_index_ r + 1) (buf_size_ r - 1)) as [E|E]; [|done].
  rewrite CopyToLast_eq; cbn [write_index_ ring_mem]; [|rewrite length_insert; lia].
  cbn [mbind option_bind write_index_ buf_size_ buf_ ring_mem cycle_bit_]. by rewrite E.
Qed.

Section driver.
Context (r : Ring) (p : Z) (ccs : bool) (F : Z) (q : list TRB) (Hr : ring_ok r p ccs F q).
Local Notation N := (buf_size_ r - 1).

Lemma write_range : 0 <= write_index_ r < N.
Proof using Hr. destruct Hr as [[HN _ _ _ _ _] _ _ _ _ _ _ -> _ _ _]. by apply ring_index_range. Qed.

Lemma Push_eq data : Push r data = Some (write_index_ r, pushed r data).
Proof using Hr. pose proof write_range. destruct Hr. by apply Push_wf; [lia..|]. Qed.

Lemma push_ok data :
  plain data -> Z.of_nat (length q) + 1 < N -> ring_ok (pushed r data) p ccs F (q ++ [data]).
Proof using Hr.
  intros Hpl Hroom. pose proof write_range as Hw.
  destruct Hr as [Hc Hl Hsz Ha Hal Hrm Hp Hwi Hcy Hli Hre]. pose proof (co_pos _ _ _ _ Hc) as HN.
  pose proof (cells_produce _ _ _ _ data Hc Hrm) as Hc'. rewrite <- Hwi, <- Hcy in Hc'.
  assert (HS : length (q ++ [data]) = S (length q)) by (rewrite length_app; simpl; lia).
  pose proof (cell_succ N F (length q) HN) as Ec. pose proof (phase_succ N F (length q) HN) as Eph.
  rewrite <- Hwi in Ec, Eph. rewrite <- Hcy in Eph. unfold pushed.
  destruct (Z.eqb_spec (write_index_ r + 1) N) as [E|E]; constructor;
    cbn [ring_mem buf_size_ buf_ cycle_bit_ write_index_]; rewrite ?HS, ?length_insert; try done; try lia.
  - apply cells_outside; [done|lia].
  - apply list.Forall_app. split; [done|]. by apply list.Forall_singleton.
  - intros _. rewrite lookupZ_insert_eq by (rewrite length_insert; lia). by rewrite Eph, negb_involutive.
  - apply list.Forall_app. split; [done|]. by apply list.Forall_singleton.
  - intros Hle. rewrite lookupZ_insert_ne by lia. rewrite Eph, Hcy. apply Hli.
    destruct (decide (N = F + Z.of_nat (S (length q)))) as [EN|]; [|lia]. exfalso. apply E.
    rewrite Hwi. unfold cell, ring_index. rewrite Z.mod_small by (destruct Hc; lia). lia.
Qed.

(** The controller at an entry. *)
Lemma fetch_cell fuel :
  p = buf_ r + sizeof_TRB * cell N F 0 -> ccs = phase N F 0 ->
  exists res p' ccs', xhc_fetch (S fuel) (buf_ r) (ring_mem r) p ccs = Some (res, p', ccs')
    /\ match q with
       | [] => res = None /\ ring_ok r p' ccs' F []
       | t :: q' => res = Some (with_cycle t (phase N F 0)) /\ ring_ok r p' ccs' (F + 1) q'
       end.
Proof using Hr.
  intros Ep Eccs. pose proof Hr as [Hc Hl Hsz Ha Hal Hrm Hp Hwi Hcy Hli Hre].
  pose proof (co_pos _ _ _ _ Hc) as HN. cbn [xhc_fetch].
  assert ((p - buf_ r) / sizeof_TRB = cell N F 0) as ->
    by (rewrite Ep; unfold sizeof_TRB; rewrite Z.add_simpl_l, (Z.mul_comm 16), Z.div_mul; done).
  destruct q as [|t q'].
  - destruct (co_stale _ _ _ _ Hc 0%nat) as (t & -> & Ht); [done|lia|]. cbn [mbind option_bind].
    rewrite Ht, Eccs. exists None, p, (phase N F 0). split; [by destruct (phase N F 0)|]. split; [done|].
    by rewrite <- Eccs.
  - rewrite (co_valid _ _ _ _ Hc 0%nat t) by done. cbn [mbind option_bind].
    apply list.Forall_cons in Hp as [[_ Hty] Hp]. rewrite cycle_with, type_with, Eccs, eqb_reflx. simpl.
    destruct (Z.eqb_spec (trb_type t) LinkTRB_Type); [done|]. eexists _, _, _. split; [reflexivity|].
    split; [done|]. pose proof (cells_consume _ _ _ _ _ Hc) as Hc'.
    assert (Hs : forall i, cell N (F + 1) i = cell N F (S i)) by apply cell_shift.
    assert (Hph : forall i, phase N (F + 1) i = phase N F (S i)) by apply phase_shift.
    constructor; rewrite ?Hs, ?Hph; try done; try (simpl in *; lia).
    + intros Hle. apply Hli. simpl. lia.
    + rewrite cell_succ, phase_succ by done. rewrite Ep.
      destruct (Z.eqb_spec (cell N F 0 + 1) N) as [EN|EN]; [right|left; split; [lia|done]].
      split_and!; [lia| |done|by rewrite negb_involutive].
      unfold cell, ring_index in EN. pose proof (Z.mod_le (F + Z.of_nat 0) N). destruct Hc. lia.
Qed.
End driver.

Lemma fetch_ok r p ccs F q :
  ring_ok r p ccs F q ->
  exists res p' ccs', xhc_fetch 2 (buf_ r) (ring_mem r) p ccs = Some (res, p', ccs')
    /\ match q with
       | [] => res = None /\ ring_ok r p' ccs' F []
       | t :: q' => res = Some (with_cycle t (phase (buf_size_ r - 1) F 0)) /\ ring_ok r p' ccs' (F + 1) q'
       end.
Proof.
  intros Hr. destruct (ro_read _ _ _ _ _ Hr) as [[Ep Ec]|(Ep & HF & E0 & Ec)]; [by apply (fetch_cell _ _ _ _ _ Hr)|].
  pose proof Hr as [Hc Hl Hsz Ha Hal Hrm Hp Hwi Hcy Hli Hre]. pose proof (co_pos _ _ _ _ Hc) as HN.
  set (N := buf_size_ r - 1) in *.
  assert (Hph : phase N F (length q) = phase N F 0).
  { unfold phase, cell, ring_index in *. f_equal. rewrite Z.add_0_r in *.
    pose proof (Z.div_mod F N ltac:(lia)). rewrite <- (Z.div_unique (F + Z.of_nat (length q)) N (F / N)
      (Z.of_nat (length q))) by lia. done. }
  assert (Hr' : ring_ok r (buf_ r + sizeof_TRB * cell N F 0) (phase N F 0) F q)
    by (constructor; try done; by left).
  destruct (fetch_cell _ _ _ _ _ Hr' 0 eq_refl eq_refl) as (res & p' & ccs' & E & HQ).
  exists res, p', ccs'. split; [|done]. rewrite <- E.
  change (xhc_fetch 2 (buf_ r) (ring_mem r) p ccs) with
    (t ← (ring_mem r)$[(p - buf_ r) / sizeof_TRB];
     if negb (eqb (cycle_of t) ccs) then Some (None, p, ccs)
     else if trb_type t =? LinkTRB_Type then
       xhc_fetch 1 (buf_ r) (ring_mem r) (LinkTRB_Pointer t) (if get_bit 1 (trb_data3 t) then negb ccs else ccs)
     else Some (Some t, p + sizeof_TRB, ccs)).
  assert ((p - buf_ r) / sizeof_TRB = N) as ->
    by (rewrite Ep; unfold sizeof_TRB; rewrite Z.add_simpl_l, (Z.mul_comm 16), Z.div_mul; done).
  rewrite Hli by lia. cbn [mbind option_bind]. rewrite cycle_with, link_type, link_toggles, Hph, Ec, eqb_reflx.
  cbn [negb]. rewrite Z.eqb_refl, negb_involutive, link_pointer by (done || lia).
  by rewrite E0, Z.mul_0_r, Z.add_0_r.
Qed.

(** ** Any interleaving *)
Inductive ring_op := RPush (data : TRB) | RFetch.

(** What the controller gets, in order; a failed fetch is [None]. *)
Fixpoint ring_run (r : Ring) (p : Z) (ccs : bool) (ops : list ring_op) : option (list (option TRB)) :=
  match ops with
  | [] => Some []
  | RPush data :: ops => '(_, r) ← Push r data; ring_run r p ccs ops
  | RFetch :: ops =>
      '(res, p, ccs) ← xhc_fetch 2 (buf_ r) (ring_mem r) p ccs;
      rs ← ring_run r p ccs ops;
      Some (option_map (fun t => with_cycle t false) res :: rs)
  end.

(** A queue; and that it never holds more than [cap] entries. *)
Fixpoint fifo_spec (q : list TRB) (ops : list ring_op) : list (option TRB) :=
  match ops with
  | [] => []
  | RPush data :: ops => fifo_spec (q ++ [data]) ops
  | RFetch :: ops => match q with [] => None :: fifo_spec [] ops | t :: q => Some t :: fifo_spec q ops end
  end.

Fixpoint paced (cap k : Z) (ops : list ring_op) : Prop :=
  match ops with
  | [] => True
  | RPush data :: ops => plain data /\ k + 1 <= cap /\ paced cap (k + 1) ops
  | RFetch :: ops => paced cap (Z.max 0 (k - 1)) ops
  end.

Lemma run_delivers r p ccs F q ops :
  ring_ok r p ccs F q -> paced (buf_size_ r - 2) (Z.of_nat (length q)) ops ->
  ring_run r p ccs ops = Some (fifo_spec q ops).
Proof.
  revert r p ccs F q. induction ops as [|[data|] ops IH]; intros r p ccs F q Hr Hp; [done| |];
    cbn [ring_run fifo_spec].
  - destruct Hp as (Hpl & Hk & Hp). rewrite (Push_eq _ _ _ _ _ Hr). cbn [mbind option_bind].
    assert (Hb : buf_size_ (pushed r data) = buf_size_ r) by (unfold pushed; by destruct (_ =? _)).
    eapply (IH _ _ _ F); [apply push_ok; [done|done|lia]|]. rewrite Hb, length_app. simpl.
    by rewrite Nat2Z.inj_add.
  - destruct (fetch_ok _ _ _ _ _ Hr) as (res & p' & ccs' & -> & HQ). cbn [mbind option_bind].
    cbn [paced] in Hp. destruct q as [|t q].
    + destruct HQ as [-> Hr']. rewrite (IH _ _ _ _ _ Hr') by done. done.
    + destruct HQ as [-> Hr']. rewrite (IH _ _ _ _ _ Hr').
      2:{ replace (Z.max 0 _) with (Z.of_nat (length q)) in Hp by (simpl; lia). done. }
      cbn [mbind option_bind option_map]. rewrite with_cycle_twice.
      pose proof (ro_plain _ _ _ _ _ Hr) as Hpl. apply list.Forall_cons in Hpl as [[Hc _] _].
      by rewrite <- Hc, with_cycle_same.
Qed.

Lemma Initialize_ok pool ptr n r ptr' :
  2 <= n < 2 ^ 32 -> Initialize pool ptr n = (kSuccess, Some r, ptr') ->
  0 <= buf_ r < 2 ^ 63 -> (16 | buf_ r) -> ring_ok r (buf_ r) true 0 [].
Proof.
  intros Hn E Ha Hal. unfold Initialize in E. destruct (AllocMem _ _ _ _ _) as [p ptr1].
  destruct (p =? 0); [done|]. injection E as <- <-. cbn [buf_] in *. constructor; cbn; try done; try lia.
  - apply cells_zero. lia.
  - rewrite length_replicate. lia.
  - left. unfold cell, ring_index, phase. rewrite Z.mod_0_l, Z.div_0_l by lia. split; [lia|done].
Qed.

(** C30. From the allocation of a command ring on, whatever the interleaving of
    the driver's pushes and the controller's fetches: the controller gets the
    entries that were pushed, each once, in order and unchanged but for the cycle
    bit, also across the link at the end, and finds the ring empty exactly when
    it has had them all; provided that no more than [n - 2] are ever pending. *)
Theorem command_ring_delivers pool M ptr n ops :
  0 < pool -> pool + kMemoryPoolSize <= M -> (2 ^ 31 | M) -> M <= 2 ^ 62 -> pool <= ptr <= M ->
  2 <= n < 2 ^ 20 -> paced (n - 2) 0 ops ->
  (exists r ptr', Initialize pool ptr n = (kSuccess, Some r, ptr')
     /\ ring_run r (buf_ r) true ops = Some (fifo_spec [] ops))
  \/ exists ptr', Initialize pool ptr n = (kNoEnoughMemory, None, ptr').
Proof.
  intros Hpool HM HM31 HM62 Hptr Hn Hp.
  destruct (AllocMem_spec pool M Hpool HM HM31 HM62 ptr (mkRequest (16 * n) 64 (64 * 1024)))
    as (a & ptr' & E & Hptr' & Ha); [done| |].
  { split; [simpl; lia|]. split; [right; exists 6; by split|right; exists 16; by split]. }
  assert (u64 (sizeof_TRB * n) = 16 * n) as En by (apply Z.mod_small; unfold sizeof_TRB; lia).
  cbn [rq_size rq_alignment rq_boundary] in E, Ha. unfold Initialize. rewrite En, E.
  destruct Ha as [[-> _]|(_ & _ & Hlo & Hhi & Hal & _)]; [right; by exists ptr'|]. left.
  cbn [rq_size rq_alignment] in Hhi, Hal. destruct (Z.eqb_spec a 0); [lia|].
  eexists _, _. split; [reflexivity|]. apply run_delivers with (F := 0); [|done].
  eapply (Initialize_ok pool ptr n _ ptr'); [lia| | |].
  - unfold Initialize. rewrite En, E. by destruct (Z.eqb_spec a 0).
  - cbn [buf_]. unfold kMemoryPoolSize in *. lia.
  - cbn [buf_]. apply Z.divide_trans with 64; [by exists 4|]. apply Hal. lia.
Qed.

Definition demo_trb (n : Z) : TRB := mkTRB n 0 0 (set_field 10 6 23 0).

Lemma command_ring_delivers_witness :
  exists r ptr', Initialize 0x200000 0x200000 4 = (kSuccess, Some r, ptr')
    /\ ring_run r (buf_ r) true [RPush (demo_trb 1); RPush (demo_trb 2); RFetch; RPush (demo_trb 3); RFetch;
         RFetch; RPush (demo_trb 4); RFetch; RFetch]
       = Some [Some (demo_trb 1); Some (demo_trb 2); Some (demo_trb 3); Some (demo_trb 4); None].
Proof.
  assert (Hpl : forall n, plain (demo_trb n)) by (intros n; split; [done|by vm_compute]).
  destruct (command_ring_delivers 0x200000 0x80000000 0x200000 4 [RPush (demo_trb 1); RPush (demo_trb 2); RFetch;
    RPush (demo_trb 3); RFetch; RFetch; RPush (demo_trb 4); RFetch; RFetch])
    as [(r & ptr' & E & R)|(ptr' & E)]; [done|done|by apply Z.divide_refl|done|done|done| | |].
  - cbn [paced]. split_and!; done || lia.
  - by exists r, ptr'.
  - exfalso. vm_compute in E. done.
Defined.

(** While [Push] writes an entry, store by store, the entry looks invalid to
    the controller until it is complete. *)
Theorem push_never_torn r p ccs F q data :
  ring_ok r p ccs F q -> plain data ->
  exists slot, (ring_mem r)$[write_index_ r] = Some slot /\ cycle_of slot = negb (cycle_bit_ r)
    /\ forall t, t ∈ copy_stores data (cycle_bit_ r) slot ->
       cycle_of t = negb (cycle_bit_ r) \/ t = with_cycle data (cycle_bit_ r).
Proof.
  intros Hr [Hd _]. pose proof Hr as [Hc Hl Hsz Ha Hal Hrm Hp Hwi Hcy Hli Hre].
  destruct (co_stale _ _ _ _ Hc (length q)) as (slot & E & Hs); [lia|lia|].
  exists slot. rewrite Hwi, Hcy. split_and!; [done|done|]. intros t Ht. by eapply stores_not_torn.
Qed.

(** [Push] does not check for room.  When the controller waits at the link and the
    driver fills all cells, the link is rewritten with the other cycle bit, and
    the controller finds an empty ring for ever. *)
Definition demo_ring : Ring := mkRing 0x200000 (replicate 4 TRB_zero) 4 true 0.

Lemma ring_stalls :
  ring_run demo_ring 0x200000 true
    [RPush (demo_trb 1); RFetch; RPush (demo_trb 2); RFetch; RPush (demo_trb 3); RFetch;
     RPush (demo_trb 4); RPush (demo_trb 5); RPush (demo_trb 6); RFetch; RFetch]
  = Some [Some (demo_trb 1); Some (demo_trb 2); Some (demo_trb 3); None; None].
Proof. vm_compute. reflexivity. Qed.

Lemma push_never_torn_witness :
  cycle_of (mkTRB 7 0 0 0) = negb (cycle_bit_ demo_ring) /\ plain (demo_trb 7).
Proof.
  assert (Hr : ring_ok demo_ring 0x200000 true 0 []).
  { constructor; try done; [|by exists 0x20000|by left]. apply (cells_zero 4 3). lia. }
  assert (Hpl : plain (demo_trb 7)) by (split; [done|by vm_compute]).
  destruct (push_never_torn demo_ring 0x200000 true 0 [] (demo_trb 7) Hr Hpl) as (slot & E & _ & Ht).
  split; [|done]. injection E as <-. destruct (Ht (mkTRB 7 0 0 0)) as [H|H]; [by left|done|].
  exfalso. vm_compute in H. done.
Defined.

(** ** Driver and controller on the ring of events *)
Lemma ERDP_roundtrip d p : 0 <= p < 2 ^ 64 -> (16 | p) -> ERDP_Pointer (ERDP_SetPointer d p) = p.
Proof.
  intros Hp [k Hk]. unfold ERDP_Pointer, ERDP_SetPointer. rewrite get_set_same.
  - rewrite Hk, Z.shiftr_div_pow2, Z.shiftl_mul_pow2 by lia. change (2 ^ 4) with 16.
    rewrite Z.div_mul by lia. apply Z.mod_small. lia.
  - lia.
  - rewrite Z.shiftr_div_pow2 by lia. split; [apply Z.div_pos; lia|]. apply Z.div_lt_upper_bound; lia.
  - lia.
Qed.

Record event_ok (e : EventRing) (F : Z) (q : list TRB) : Prop := {
  eo_cells : cells_ok (ering_mem e) (ebuf_size_ e) F q;
  eo_len : Z.of_nat (length (ering_mem e)) = ebuf_size_ e;
  eo_size : ring_segment_size e = ebuf_size_ e /\ ebuf_size_ e < 2 ^ 16;
  eo_addr : ring_segment_base_address e = ebuf_ e /\ 0 <= ebuf_ e < 2 ^ 63 /\ (16 | ebuf_ e);
  eo_read : ReadDequeuePointer e = ebuf_ e + sizeof_TRB * cell (ebuf_size_ e) F 0;
  eo_cycle : ecycle_bit_ e = phase (ebuf_size_ e) F 0
}.

(** The controller writes an event at its own position [w] with its cycle bit. *)
Definition xhc_post (e : EventRing) (w : Z) (pcs : bool) (t : TRB) : option (EventRing * Z * bool) :=
  l ← (ering_mem e)$[w := with_cycle t pcs];
  let e := mkERing (ebuf_ e) l (ebuf_size_ e) (erst_ e) (ring_segment_base_address e) (ring_segment_size e)
             (ecycle_bit_ e) (interrupter_ e) in
  Some (if w + 1 =? ebuf_size_ e then (e, 0, negb pcs) else (e, w + 1, pcs)).

Lemma post_ok e F q t :
  event_ok e F q -> Z.of_nat (length q) < ebuf_size_ e ->
  exists e', xhc_post e (cell (ebuf_size_ e) F (length q)) (phase (ebuf_size_ e) F (length q)) t
      = Some (e', cell (ebuf_size_ e) F (length (q ++ [t])), phase (ebuf_size_ e) F (length (q ++ [t])))
    /\ ebuf_size_ e' = ebuf_size_ e /\ event_ok e' F (q ++ [t]).
Proof.
  intros [Hc Hl Hsz Ha Hr Hcy] Hroom. pose proof (co_pos _ _ _ _ Hc) as HN. unfold xhc_post.
  pose proof (ring_index_range (ebuf_size_ e) F (length q) HN) as Hi. fold (cell (ebuf_size_ e) F (length q)) in Hi.
  rewrite updateZ_in by lia. cbn [mbind option_bind ebuf_size_].
  rewrite length_app, Nat.add_1_r, cell_succ, phase_succ by done. eexists. split.
  { by destruct (Z.eqb_spec (cell (ebuf_size_ e) F (length q) + 1) (ebuf_size_ e)). }
  split; [done|]. constructor; try done; cbn [ering_mem ebuf_size_].
  - by apply cells_produce.
  - by rewrite length_insert.
Qed.

Lemma front_at e F q : event_ok e F q -> Front e = (ering_mem e)$[cell (ebuf_size_ e) F 0].
Proof.
  intros [Hc Hl Hsz Ha Hr Hcy]. unfold Front, trb_at. rewrite Hr, Z.add_simpl_l. unfold sizeof_TRB.
  by rewrite Z.mul_comm, Z.mod_mul, Z.div_mul by done.
Qed.

Lemma pop_ok e F t q : event_ok e F (t :: q) -> ebuf_size_ (Pop e) = ebuf_size_ e /\ event_ok (Pop e) (F + 1) q.
Proof.
  intros [Hc Hl [Hsz1 Hsz2] (Ha1 & Ha2 & Hal) Hr Hcy]. pose proof (co_pos _ _ _ _ Hc) as HN.
  pose proof (ring_index_range (ebuf_size_ e) F 0 HN) as Hi. fold (cell (ebuf_size_ e) F 0) in Hi.
  pose proof (cells_consume _ _ _ _ _ Hc) as Hc'. set (n := ebuf_size_ e) in *. set (c := cell n F 0) in *.
  unfold Pop. rewrite Hr, Ha1, Hsz1. fold n c.
  assert (u64 (ebuf_ e + sizeof_TRB * c + sizeof_TRB) = ebuf_ e + sizeof_TRB * (c + 1)) as ->
    by (unfold u64, sizeof_TRB; rewrite Z.mod_small; lia).
  assert (u64 (ebuf_ e + n * sizeof_TRB) = ebuf_ e + sizeof_TRB * n) as ->
    by (unfold u64, sizeof_TRB; rewrite Z.mod_small; lia).
  assert (Ec : cell n (F + 1) 0 = if c + 1 =? n then 0 else c + 1) by (rewrite cell_shift; by apply cell_succ).
  assert (Ep : phase n (F + 1) 0 = if c + 1 =? n then negb (ecycle_bit_ e) else ecycle_bit_ e)
    by (rewrite phase_shift, Hcy; by apply phase_succ).
  assert (Hd : forall k, (16 | ebuf_ e + sizeof_TRB * k))
    by (intros k; apply Z.divide_add_r; [done|apply Z.divide_factor_l]).
  destruct (Z.eqb_spec (ebuf_ e + sizeof_TRB * (c + 1)) (ebuf_ e + sizeof_TRB * n)) as [E|E];
    destruct (Z.eqb_spec (c + 1) n) as [E'|E']; try (unfold sizeof_TRB in E; lia);
    (split; [done|constructor; try done; cbn [ebuf_size_ ecycle_bit_ WriteDequeuePointer]; fold n]);
    rewrite ?Ec, ?Ep; try done; unfold ReadDequeuePointer; cbn [interrupter_ ERDP WriteDequeuePointer].
  - rewrite ERDP_roundtrip; [simpl; lia|lia|done].
  - cbn [ebuf_ WriteDequeuePointer]. unfold n in *. rewrite ERDP_roundtrip; [done|unfold sizeof_TRB; lia|apply Hd].
Qed.

Lemma take_ok e F q :
  event_ok e F q ->
  match q with
  | [] => take_event e = Some (None, e)
  | t :: q' => take_event e = Some (Some (with_cycle t (ecycle_bit_ e)), Pop e)
  end.
Proof.
  intros He. pose proof He as [Hc Hl Hsz Ha Hr Hcy]. pose proof (co_pos _ _ _ _ Hc) as HN.
  unfold take_event, HasFront. rewrite (front_at _ _ _ He). destruct q as [|t q].
  - destruct (co_stale _ _ _ _ Hc 0%nat) as (t & -> & Ht); [done|lia|]. cbn [mbind option_bind].
    rewrite Ht, Hcy. by destruct (phase _ _ _).
  - rewrite (co_valid _ _ _ _ Hc 0%nat t) by done. cbn [mbind option_bind].
    by rewrite cycle_with, Hcy, eqb_reflx.
Qed.

(** Events of the controller and turns of the driver's loop. *)
Inductive event_op := EPost (t : TRB) | ETake.

Fixpoint event_run (e : EventRing) (w : Z) (pcs : bool) (ops : list event_op) : option (list (option TRB)) :=
  match ops with
  | [] => Some []
  | EPost t :: ops => '(e, w, pcs) ← xhc_post e w pcs t; event_run e w pcs ops
  | ETake :: ops =>
      '(res, e) ← take_event e;
      rs ← event_run e w pcs ops;
      Some (option_map (fun t => with_cycle t false) res :: rs)
  end.

Fixpoint event_spec (q : list TRB) (ops : list event_op) : list (option TRB) :=
  match ops with
  | [] => []
  | EPost t :: ops => event_spec (q ++ [t]) ops
  | ETake :: ops => match q with [] => None :: event_spec [] ops | t :: q => Some t :: event_spec q ops end
  end.

(** The controller posts only when the ring has room. *)
Fixpoint event_paced (cap k : Z) (ops : list event_op) : Prop :=
  match ops with
  | [] => True
  | EPost t :: ops => cycle_of t = false /\ k + 1 <= cap /\ event_paced cap (k + 1) ops
  | ETake :: ops => event_paced cap (Z.max 0 (k - 1)) ops
  end.

Lemma event_run_delivers e F q ops :
  event_ok e F q -> Forall (fun t => cycle_of t = false) q ->
  event_paced (ebuf_size_ e) (Z.of_nat (length q)) ops ->
  event_run e (cell (ebuf_size_ e) F (length q)) (phase (ebuf_size_ e) F (length q)) ops = Some (event_spec q ops).
Proof.
  revert e F q. induction ops as [|[t|] ops IH]; intros e F q He Hq Hp; [done| |]; cbn [event_run event_spec].
  - destruct Hp as (Ht & Hk & Hp). destruct (post_ok e F q t He) as (e' & -> & Hb & He'); [lia|].
    cbn [mbind option_bind]. rewrite <- Hb. apply IH; [done| |].
    + apply list.Forall_app. split; [done|by apply list.Forall_singleton].
    + rewrite Hb, length_app. simpl. by rewrite Nat2Z.inj_add.
  - pose proof (take_ok e F q He) as Ht. cbn [event_paced] in Hp. destruct q as [|t q]; rewrite Ht; cbn [mbind option_bind].
    + rewrite IH by done. done.
    + apply list.Forall_cons in Hq as [Hc Hq]. destruct (pop_ok e F t q He) as [Hb He'].
      pose proof (cell_shift (ebuf_size_ e) F (length q)) as Es. pose proof (phase_shift (ebuf_size_ e) F (length q)) as Ep.
      cbn [length]. rewrite <- Es, <- Ep, <- Hb, (IH (Pop e) (F + 1) q He' Hq).
      2:{ rewrite Hb. replace (Z.max 0 _) with (Z.of_nat (length q)) in Hp by (simpl; lia). done. }
      cbn [mbind option_bind option_map]. by rewrite with_cycle_twice, <- Hc, with_cycle_same.
Qed.

Lemma EventRing_start p n erst r :
  1 <= n < 2 ^ 16 -> 0 <= p < 2 ^ 63 -> (16 | p) ->
  forall e, e = mkERing p (replicate (Z.to_nat n) TRB_zero) n erst p (u16 n) true r ->
  ERDP_Pointer (ERDP r) = p -> event_ok e 0 [].
Proof.
  intros Hn Hp Hal e -> HE. constructor; cbn; try done.
  - apply cells_zero. lia.
  - rewrite length_replicate. lia.
  - rewrite u16_small by lia. split; [done|lia].
  - unfold ReadDequeuePointer. cbn. rewrite HE. unfold cell, ring_index. rewrite Z.mod_0_l by lia. lia.
Qed.

(** C31. From the allocation of the event ring on, whatever the interleaving of
    the controller's events and the turns of the driver's loop: the driver takes
    the events in order, each once and complete, also when it wraps, and finds no
    event exactly when none is pending; provided that the controller does not
    overrun the ring. *)
Theorem event_ring_delivers pool M ptr n regs ops :
  0 < pool -> pool + kMemoryPoolSize <= M -> (2 ^ 31 | M) -> M <= 2 ^ 62 -> pool <= ptr <= M ->
  1 <= n < 2 ^ 16 -> event_paced n 0 ops ->
  (exists e ptr', EventRing_Initialize pool ptr n regs = (kSuccess, Some e, ptr')
     /\ event_run e 0 true ops = Some (event_spec [] ops))
  \/ exists ptr', EventRing_Initialize pool ptr n regs = (kNoEnoughMemory, None, ptr').
Proof.
  intros Hpool HM HM31 HM62 Hptr Hn Hp.
  assert (Hrq : forall s, 0 <= s < 2 ^ 62 -> request_ok (mkRequest s 64 (64 * 1024))).
  { intros s Hs. split; [done|]. split; [right; exists 6; by split|right; exists 16; by split]. }
  destruct (AllocMem_spec pool M Hpool HM HM31 HM62 ptr _ Hptr (Hrq (16 * n) ltac:(lia)))
    as (a & ptr1 & E & Hptr1 & Ha).
  destruct (AllocMem_spec pool M Hpool HM HM31 HM62 ptr1 _ ltac:(lia) (Hrq sizeof_TRB ltac:(done)))
    as (b & ptr2 & E2 & Hptr2 & Hb).
  assert (u64 (sizeof_TRB * n) = 16 * n) as En by (apply Z.mod_small; unfold sizeof_TRB; lia).
  cbn [rq_size rq_alignment rq_boundary] in *. unfold EventRing_Initialize. rewrite En, E.
  destruct Ha as [[-> _]|(_ & _ & Hlo & Hhi & Hal & _)]; [right; by exists ptr1|].
  cbn [rq_size rq_alignment] in *. destruct (Z.eqb_spec a 0); [lia|]. rewrite E2.
  destruct (Z.eqb_spec b 0); [right; by eexists|]. left. eexists _, _. split; [reflexivity|].
  assert (Ha16 : (16 | a)) by (apply Z.divide_trans with 64; [by exists 4|apply Hal; lia]).
  assert (Har : 0 <= a < 2 ^ 63) by (unfold kMemoryPoolSize in *; lia).
  match goal with |- event_run ?e _ _ _ = _ => set (ev := e) end.
  assert (Hok : event_ok ev 0 []).
  { eapply EventRing_start; [exact Hn|exact Har|exact Ha16|reflexivity|]. cbn.
    apply ERDP_roundtrip; [lia|done]. }
  assert (cell (ebuf_size_ ev) 0 (length (@nil TRB)) = 0 /\ phase (ebuf_size_ ev) 0 (length (@nil TRB)) = true)
    as [Ec Ep].
  { unfold cell, ring_index, phase. cbn [length ebuf_size_ ev WriteDequeuePointer].
    rewrite Z.mod_0_l, Z.div_0_l by lia. done. }
  pose proof (event_run_delivers ev 0 [] ops Hok) as HR. rewrite Ec, Ep in HR. apply HR; [constructor|exact Hp].
Qed.

Lemma event_ring_delivers_witness :
  exists e ptr', EventRing_Initialize 0x200000 0x200000 2 (mkIR 0 0 8) = (kSuccess, Some e, ptr')
    /\ event_run e 0 true [EPost (demo_trb 1); EPost (demo_trb 2); ETake; EPost (demo_trb 3); ETake; ETake; ETake]
       = Some [Some (demo_trb 1); Some (demo_trb 2); Some (demo_trb 3); None].
Proof.
  destruct (event_ring_delivers 0x200000 0x80000000 0x200000 2 (mkIR 0 0 8)
    [EPost (demo_trb 1); EPost (demo_trb 2); ETake; EPost (demo_trb 3); ETake; ETake; ETake])
    as [(e & ptr' & E & R)|(ptr' & E)]; [done|done|by apply Z.divide_refl|done|done|done| | |].
  - cbn [event_paced]. split_and!; done || lia.
  - by exists e, ptr'.
  - exfalso. vm_compute in E. done.
Defined.
