(* ===== verification/Paging64.v ===== *)
(** * Page tables of the 64-bit kernel, src/src/paging.cpp

    [SetupIdentityPageTable] fills three levels of tables and loads CR3.  Memory is
    a function from addresses to 64-bit words; the addresses of the tables are
    chosen by the linker, page aligned and apart from each other.  The theorem is
    about the walk that the processor makes through the tables. *)
From Stdlib Require Import ZArith Lia.
From stdpp Require Import base option list numbers.
From S2P Require Import Prelude Bits.

Set Default Proof Using "Type".

Definition kPageSize4K : Z := 1024 * 4.
Definition kPageSize2M : Z := 1024 * 1024 * 2.
Definition kPageSize1G : Z := 1024 * 1024 * 1024.
Definition kPageSize512G : Z := kPageSize1G * 512.
Definition PML4E_SIZE : Z := 4.
Definition PDPTE_SIZE : Z := 512.
Definition PDE_SIZE : Z := 512.

Definition memory := Z -> Z.
Definition store (a v : Z) (m : memory) : memory := fun b => if b =? a then v else m b.

(** The addresses of the tables. *)
Record tables := mkTables { PML4E : Z; PDPTE : Z; PDE : Z }.
Definition PML4E_at (T : tables) (i : Z) : Z := PML4E T + 8 * i.
Definition PDPTE_at (T : tables) (i j : Z) : Z := PDPTE T + 8 * (i * PDPTE_SIZE + j).
Definition PDE_at (T : tables) (i j k : Z) : Z := PDE T + 8 * ((i * PDPTE_SIZE + j) * PDE_SIZE + k).

(** The bodies of the three loops. *)
Definition fill_PDE (T : tables) (i_PML4E i_PDPTE i_pd : Z) (m : memory) : option memory :=
  Some (store (PDE_at T i_PML4E i_PDPTE i_pd)
          (Z.lor (u64 (i_PML4E * kPageSize512G + i_PDPTE * kPageSize1G + i_pd * kPageSize2M)) 0x083) m).

Definition fill_PDPTE (T : tables) (i_PML4E i_PDPTE : Z) (m : memory) : option memory :=
  let m := store (PDPTE_at T i_PML4E i_PDPTE) (Z.lor (PDE_at T i_PML4E i_PDPTE 0) 0x003) m in
  for_range 0 PDE_SIZE (fill_PDE T i_PML4E i_PDPTE) m.

Definition fill_PML4E (T : tables) (i_PML4E : Z) (m : memory) : option memory :=
  let m := store (PML4E_at T i_PML4E) (Z.lor (PDPTE_at T i_PML4E 0) 0x003) m in
  for_range 0 PDPTE_SIZE (fill_PDPTE T i_PML4E) m.

(** The memory and the new CR3. *)
Definition SetupIdentityPageTable (T : tables) (m : memory) : option (memory * Z) :=
  m ← for_range 0 PML4E_SIZE (fill_PML4E T) m;
  Some (m, PML4E_at T 0).

(** ** The processor's walk

    4-level paging: nine bits of the address for each table, bits 12 to 51 of an
    entry for the next table, bit 0 for a present entry and bit 7 for a page in
    place of a table. *)
Definition present (e : Z) : bool := get_bit 0 e.
Definition writable (e : Z) : bool := get_bit 1 e.
Definition page_size (e : Z) : bool := get_bit 7 e.
Definition next_table (e : Z) : Z := Z.shiftl (get_field 12 40 e) 12.

(** The physical address, and whether all levels allow writes. *)
Definition translate (m : memory) (cr3 la : Z) : option (Z * bool) :=
  let e4 := m (cr3 + 8 * get_field 39 9 la) in
  if negb (present e4) then None
  else
    let e3 := m (next_table e4 + 8 * get_field 30 9 la) in
    if negb (present e3) then None
    else if page_size e3 then Some (Z.shiftl (get_field 30 22 e3) 30 + get_field 0 30 la, writable e4 && writable e3)
    else
      let e2 := m (next_table e3 + 8 * get_field 21 9 la) in
      if negb (present e2) then None
      else if page_size e2 then
        Some (Z.shiftl (get_field 21 31 e2) 21 + get_field 0 21 la, writable e4 && writable e3 && writable e2)
      else
        let e1 := m (next_table e2 + 8 * get_field 12 9 la) in
        if negb (present e1) then None
        else Some (next_table e1 + get_field 0 12 la, writable e4 && writable e3 && writable e2 && writable e1).

(** ** Where the tables are *)
Record tables_ok (T : tables) : Prop := {
  to_pml4 : 0 <= PML4E T /\ (4096 | PML4E T) /\ PML4E T < 2 ^ 51;
  to_pdpt : 0 <= PDPTE T /\ (4096 | PDPTE T) /\ PDPTE T < 2 ^ 51;
  to_pd : 0 <= PDE T /\ (4096 | PDE T) /\ PDE T < 2 ^ 51;
  to_apart1 : PML4E T + 32 <= PDPTE T \/ PDPTE T + 4096 * 4 <= PML4E T;
  to_apart2 : PML4E T + 32 <= PDE T \/ PDE T + 4096 * 2048 <= PML4E T;
  to_apart3 : PDPTE T + 4096 * 4 <= PDE T \/ PDE T + 4096 * 2048 <= PDPTE T
}.

(** The first [n] entries of each level, counted through. *)
Definition filled (base n : Z) (entry : Z -> Z) (m : memory) : Prop :=
  forall i, 0 <= i < n -> m (base + 8 * i) = entry i.

Definition pml4_entry (T : tables) (i : Z) : Z := Z.lor (PDPTE T + 4096 * i) 3.
Definition pdpt_entry (T : tables) (s : Z) : Z := Z.lor (PDE T + 4096 * s) 3.
Definition pd_entry (t : Z) : Z := Z.lor (kPageSize2M * t) 0x83.

Lemma filled_store base n entry m v :
  filled base n entry m -> v = entry n -> filled base (n + 1) entry (store (base + 8 * n) v m).
Proof.
  intros Hf Hv i Hi. unfold store. destruct (Z.eqb_spec (base + 8 * i) (base + 8 * n)) as [E|E].
  - assert (i = n) as -> by lia. done.
  - apply Hf. assert (i <> n) by (intros ->; done). lia.
Qed.

Lemma filled_other base n entry m a v :
  filled base n entry m -> a < base \/ base + 8 * n <= a -> filled base n entry (store a v m).
Proof.
  intros Hf Ha i Hi. unfold store. destruct (Z.eqb_spec (base + 8 * i) a); [lia|]. by apply Hf.
Qed.

Section setup.
Context (T : tables) (HT : tables_ok T).

(** [a] entries of the first level, [b] of the second and [c] of the third are
    in place. *)
Definition progress (a b c : Z) (m : memory) : Prop :=
  filled (PML4E T) a (pml4_entry T) m /\ filled (PDPTE T) b (pdpt_entry T) m /\ filled (PDE T) c pd_entry m.

Lemma store_pml4 i b c m :
  0 <= i < 4 -> b <= 2048 -> c <= 2 ^ 20 -> progress i b c m ->
  progress (i + 1) b c (store (PML4E_at T i) (Z.lor (PDPTE_at T i 0) 0x003) m).
Proof using HT.
  intros Hi Hb Hc (H1 & H2 & H3). destruct HT as [_ _ _ A1 A2 A3]. unfold PML4E_at, PDPTE_at.
  split_and!; [apply filled_store; [done|]|apply filled_other; [done|lia]..].
  unfold pml4_entry, PDPTE_SIZE. f_equal. lia.
Qed.

Lemma store_pdpt a i j c m :
  0 <= i < 4 -> 0 <= j < 512 -> a <= 4 -> c <= 2 ^ 20 -> progress a (i * 512 + j) c m ->
  progress a (i * 512 + (j + 1)) c (store (PDPTE_at T i j) (Z.lor (PDE_at T i j 0) 0x003) m).
Proof using HT.
  intros Hi Hj Ha Hc (H1 & H2 & H3). destruct HT as [_ _ _ A1 A2 A3]. unfold PDPTE_at, PDE_at, PDPTE_SIZE, PDE_SIZE.
  split_and!; [apply filled_other; [done|lia]| |apply filled_other; [done|lia]].
  rewrite Z.add_assoc. apply filled_store; [done|]. unfold pdpt_entry. f_equal. lia.
Qed.

Lemma store_pd a b i j k m :
  0 <= i < 4 -> 0 <= j < 512 -> 0 <= k < 512 -> a <= 4 -> b <= 2048 ->
  progress a b ((i * 512 + j) * 512 + k) m ->
  progress a b ((i * 512 + j) * 512 + (k + 1))
    (store (PDE_at T i j k) (Z.lor (u64 (i * kPageSize512G + j * kPageSize1G + k * kPageSize2M)) 0x083) m).
Proof using HT.
  intros Hi Hj Hk Ha Hb (H1 & H2 & H3). destruct HT as [_ _ _ A1 A2 A3]. unfold PDE_at, PDPTE_SIZE, PDE_SIZE.
  split_and!; [apply filled_other; [done|lia]|apply filled_other; [done|lia]|].
  rewrite Z.add_assoc. apply filled_store; [done|]. unfold pd_entry. f_equal.
  unfold kPageSize512G, kPageSize1G, kPageSize2M, u64. rewrite Z.mod_small by lia. lia.
Qed.

Lemma fill_PDPTE_progress a i j m :
  0 <= i < 4 -> 0 <= j < 512 -> a <= 4 -> progress a (i * 512 + j) ((i * 512 + j) * 512) m ->
  exists m', fill_PDPTE T i j m = Some m' /\ progress a (i * 512 + (j + 1)) ((i * 512 + (j + 1)) * 512) m'.
Proof using HT.
  intros Hi Hj Ha Hm. apply (store_pdpt _ i j) in Hm; [|lia..].
  destruct (for_range_inv (fun k => progress a (i * 512 + (j + 1)) ((i * 512 + j) * 512 + k)) 0 PDE_SIZE
    (fill_PDE T i j) (store (PDPTE_at T i j) (Z.lor (PDE_at T i j 0) 0x003) m)) as (m' & E & Hm'); [done| | |].
  - by rewrite Z.add_0_r.
  - intros k m1 Hk Hm1. eexists. split; [reflexivity|]. unfold PDE_SIZE in Hk. apply store_pd; [lia..|done].
  - exists m'. split; [done|].
    replace ((i * 512 + (j + 1)) * 512) with ((i * 512 + j) * 512 + PDE_SIZE) by (unfold PDE_SIZE; lia). done.
Qed.

Lemma fill_PML4E_progress i m :
  0 <= i < 4 -> progress i (i * 512) (i * 512 * 512) m ->
  exists m', fill_PML4E T i m = Some m' /\ progress (i + 1) ((i + 1) * 512) ((i + 1) * 512 * 512) m'.
Proof using HT.
  intros Hi Hm. apply (store_pml4 i) in Hm; [|lia..].
  destruct (for_range_inv (fun j => progress (i + 1) (i * 512 + j) ((i * 512 + j) * 512)) 0 PDPTE_SIZE
    (fill_PDPTE T i) (store (PML4E_at T i) (Z.lor (PDPTE_at T i 0) 0x003) m)) as (m' & E & Hm'); [done| | |].
  - by rewrite Z.add_0_r.
  - intros j m1 Hj Hm1. unfold PDPTE_SIZE in Hj. apply fill_PDPTE_progress; [lia..|done].
  - exists m'. split; [done|]. unfold PDPTE_SIZE in Hm'.
    replace ((i + 1) * 512) with (i * 512 + 512) by lia. done.
Qed.

Lemma setup_progress m :
  exists m', SetupIdentityPageTable T m = Some (m', PML4E T) /\ progress 4 2048 (2 ^ 20) m'.
Proof using HT.
  destruct (for_range_inv (fun i => progress i (i * 512) (i * 512 * 512)) 0 PML4E_SIZE (fill_PML4E T) m)
    as (m' & E & Hm'); [done|split_and!; intros i Hi; lia| |].
  - intros i m1 Hi Hm1. by apply fill_PML4E_progress.
  - exists m'. split; [|done]. unfold SetupIdentityPageTable. rewrite E. unfold PML4E_at.
    by rewrite Z.mul_0_r, Z.add_0_r.
Qed.
End setup.

(** ** Entries *)
Lemma flag_bit a k f b : 0 <= b < k -> (2 ^ k | a) -> get_bit b (Z.lor a f) = Z.testbit f b.
Proof. intros Hb [q ->]. unfold get_bit. by rewrite Z.lor_spec, Z.mul_pow2_bits_low by lia. Qed.

Lemma entry_address a pos width f :
  0 <= pos -> 0 <= width -> (2 ^ pos | a) -> 0 <= a < 2 ^ (pos + width) -> 0 <= f < 2 ^ pos ->
  Z.shiftl (get_field pos width (Z.lor a f)) pos = a.
Proof.
  intros Hp Hw Hd Ha Hf. rewrite (lor_flags a pos f) by done. destruct Hd as [q ->].
  assert (0 < 2 ^ pos) by (apply Z.pow_pos_nonneg; lia). rewrite Z.pow_add_r in Ha by done.
  rewrite get_field_div, Z.shiftl_mul_pow2, Z.div_add_l, (Z.div_small f), Z.add_0_r by lia.
  rewrite Z.mod_small by nia. done.
Qed.

Lemma pd_entry_page t :
  0 <= t < 2 ^ 20 ->
  present (pd_entry t) = true /\ writable (pd_entry t) = true /\ page_size (pd_entry t) = true
  /\ Z.shiftl (get_field 21 31 (pd_entry t)) 21 = 2 ^ 21 * t.
Proof.
  intros Ht. unfold pd_entry, present, writable, page_size. change kPageSize2M with (2 ^ 21).
  assert (Hd : (2 ^ 21 | 2 ^ 21 * t)) by apply Z.divide_factor_l.
  rewrite !(flag_bit _ 21) by (done || lia). split_and!; [done..|].
  apply entry_address; [lia|lia|done|lia|lia].
Qed.

Lemma table_entry a :
  0 <= a < 2 ^ 52 -> (4096 | a) ->
  present (Z.lor a 3) = true /\ writable (Z.lor a 3) = true /\ page_size (Z.lor a 3) = false
  /\ next_table (Z.lor a 3) = a.
Proof.
  intros Ha Hd. change 4096 with (2 ^ 12) in Hd. unfold present, writable, page_size, next_table.
  rewrite !(flag_bit _ 12) by (done || lia). split_and!; [done..|].
  apply entry_address; [lia|lia|done|lia|lia].
Qed.

(** After [SetupIdentityPageTable] the processor's walk from the new CR3 maps
    every linear address below 2 TiB to itself, with write permission. *)
Theorem identity_mapping T m :
  tables_ok T ->
  exists m', SetupIdentityPageTable T m = Some (m', PML4E T)
    /\ forall la, 0 <= la < PML4E_SIZE * kPageSize512G -> translate m' (PML4E T) la = Some (la, true).
Proof.
  intros HT. destruct (setup_progress T HT m) as (m' & E & H1 & H2 & H3). exists m'. split; [done|].
  intros la Hla. destruct HT as [(P1 & P2 & P3) (D1 & D2 & D3) (Q1 & Q2 & Q3) _ _ _].
  change (PML4E_SIZE * kPageSize512G) with (2 ^ 41) in Hla.
  assert (R4 : 0 <= la / 2 ^ 39 < 4) by (split; [apply Z.div_pos|apply Z.div_lt_upper_bound]; lia).
  assert (R3 : 0 <= la / 2 ^ 30 < 2048) by (split; [apply Z.div_pos|apply Z.div_lt_upper_bound]; lia).
  assert (R2 : 0 <= la / 2 ^ 21 < 2 ^ 20) by (split; [apply Z.div_pos|apply Z.div_lt_upper_bound]; lia).
  assert (F4 : get_field 39 9 la = la / 2 ^ 39) by (rewrite get_field_div, Z.mod_small; [done|lia..]).
  assert (F3 : la / 2 ^ 39 * 512 + get_field 30 9 la = la / 2 ^ 30).
  { rewrite get_field_div by lia. change (2 ^ 39) with (2 ^ 30 * 2 ^ 9). rewrite <- Z.div_div by lia.
    pose proof (Z.div_mod (la / 2 ^ 30) (2 ^ 9) ltac:(lia)). lia. }
  assert (F2 : la / 2 ^ 30 * 512 + get_field 21 9 la = la / 2 ^ 21).
  { rewrite get_field_div by lia. change (2 ^ 30) with (2 ^ 21 * 2 ^ 9). rewrite <- Z.div_div by lia.
    pose proof (Z.div_mod (la / 2 ^ 21) (2 ^ 9) ltac:(lia)). lia. }
  assert (F0 : 2 ^ 21 * (la / 2 ^ 21) + get_field 0 21 la = la).
  { rewrite get_field_div, Z.pow_0_r, Z.div_1_r by lia. symmetry. apply Z.div_mod. lia. }
  assert (Hal : forall a k, (4096 | a) -> (4096 | a + 4096 * k))
    by (intros; apply Z.divide_add_r; [done|apply Z.divide_factor_l]).
  unfold translate. rewrite F4, H1 by lia. unfold pml4_entry.
  destruct (table_entry (PDPTE T + 4096 * (la / 2 ^ 39))) as (-> & -> & _ & ->); [lia|by apply Hal|]. cbn [negb].
  replace (PDPTE T + 4096 * (la / 2 ^ 39) + 8 * get_field 30 9 la) with (PDPTE T + 8 * (la / 2 ^ 30)) by lia.
  rewrite H2 by lia. unfold pdpt_entry.
  destruct (table_entry (PDE T + 4096 * (la / 2 ^ 30))) as (-> & -> & -> & ->); [lia|by apply Hal|]. cbn [negb].
  replace (PDE T + 4096 * (la / 2 ^ 30) + 8 * get_field 21 9 la) with (PDE T + 8 * (la / 2 ^ 21)) by lia.
  rewrite H3 by lia. destruct (pd_entry_page (la / 2 ^ 21) R2) as (-> & -> & -> & ->). cbn [negb andb].
  by rewrite F0.
Qed.

Lemma identity_mapping_witness :
  let T := mkTables 0x100000 0x101000 0x200000 in
  tables_ok T /\ exists m', SetupIdentityPageTable T (fun _ => 0) = Some (m', 0x100000)
    /\ translate m' 0x100000 0x1234567890 = Some (0x1234567890, true).
Proof.
  intros T. assert (HT : tables_ok T).
  { constructor; simpl; split_and?; try lia; by apply Znumtheory.Zmod_divide. }
  split; [done|]. destruct (identity_mapping T (fun _ => 0) HT) as (m' & E & Hm). exists m'.
  split; [exact E|]. apply Hm. split; [lia|done].
Defined.

(** The processor takes nine bits of the address at the first level, and the table
    has only four entries: an address from 2 TiB on is translated with whatever
    lies behind the table. *)
Lemma walk_leaves_table :
  exists la, 0 <= la < 2 ^ 47 /\ forall T, PML4E T + 8 * get_field 39 9 la = PML4E_at T PML4E_SIZE.
Proof. exists (2 ^ 41). split; [lia|done]. Qed.
