(* ===== verification/Segment64.v ===== *)
(** * Segments and gates of the 64-bit kernel, src/src/segment.cpp and interrupt.cpp

    Descriptors as words with bit fields, and the processor's reading of them. *)
From Stdlib Require Import ZArith Lia.
From stdpp Require Import base option list numbers.
From S2P Require Import Prelude Bits.

Set Default Proof Using "Type".

(** ** src/src/x86_descriptor.hpp *)
Definition kInterruptGate : Z := 14.
Definition kReadWrite : Z := 2.
Definition kExecuteRead : Z := 10.

(** ** src/src/segment.cpp

    The assignments, in the order of the source; the fields are those of
    [SegmentDescriptor]. *)
Definition SetCodeSegment (type descriptor_privilege_level base limit : Z) : Z :=
  let d := 0 in
  let d := set_field 16 16 (Z.land base 0xffff) d in
  let d := set_field 32 8 (Z.land (Z.shiftr base 16) 0xff) d in
  let d := set_field 56 8 (Z.land (Z.shiftr base 24) 0xff) d in
  let d := set_field 0 16 (Z.land limit 0xffff) d in
  let d := set_field 48 4 (Z.land (Z.shiftr limit 16) 0xf) d in
  let d := set_field 40 4 type d in
  let d := set_field 44 1 1 d in
  let d := set_field 45 2 descriptor_privilege_level d in
  let d := set_field 47 1 1 d in
  let d := set_field 52 1 0 d in
  let d := set_field 53 1 1 d in
  let d := set_field 54 1 0 d in
  set_field 55 1 1 d.

Definition SetDataSegment (type descriptor_privilege_level base limit : Z) : Z :=
  let d := SetCodeSegment type descriptor_privilege_level base limit in
  let d := set_field 53 1 0 d in
  set_field 54 1 1 d.

(** The table, and the limit and address that LGDT loads. *)
Definition SetupSegments (gdt_address : Z) : list Z * (Z * Z) :=
  let gdt := [0; SetCodeSegment kExecuteRead 0 0 0xfffff; SetDataSegment kReadWrite 0 0 0xfffff] in
  (gdt, (8 * Z.of_nat (length gdt) - 1, gdt_address)).

(** ** src/src/interrupt.hpp and src/src/interrupt.cpp *)
Definition MakeIDTAttr (type descriptor_privilege_level : Z) (present : bool) (interrupt_stack_table : Z) : Z :=
  let a := 0 in
  let a := set_field 0 3 interrupt_stack_table a in
  let a := set_field 8 4 type a in
  let a := set_field 13 2 descriptor_privilege_level a in
  set_bit 15 present a.

Record InterruptDescriptor := mkIDT {
  offset_low : Z; segment_selector : Z; attr : Z; offset_middle : Z; offset_high : Z; id_reserved : Z
}.

Definition SetIDTEntry (desc : InterruptDescriptor) (a offset selector : Z) : InterruptDescriptor :=
  mkIDT (u16 (Z.land offset 0xffff)) selector a (u16 (Z.land (Z.shiftr offset 16) 0xffff))
    (u32 (Z.shiftr offset 32)) (id_reserved desc).

(** ** What the processor reads *)
Definition seg_base (d : Z) : Z :=
  get_field 16 16 d + 2 ^ 16 * get_field 32 8 d + 2 ^ 24 * get_field 56 8 d.
Definition seg_limit (d : Z) : Z := get_field 0 16 d + 2 ^ 16 * get_field 48 4 d.
Definition gate_offset (g : InterruptDescriptor) : Z :=
  offset_low g + 2 ^ 16 * offset_middle g + 2 ^ 32 * offset_high g.

(** Reads a field through the assignments. *)
Ltac read_fields :=
  repeat first
    [ rewrite get_set_same by (first [lia | done])
    | rewrite get_set_other by lia ].

(** The canonical descriptors of long mode. *)
Lemma SetupSegments_eq a : SetupSegments a = ([0; 0x00AF9A000000FFFF; 0x00CF92000000FFFF], (23, a)).
Proof. reflexivity. Qed.

Lemma land_mask x k : 0 <= k -> Z.land x (Z.ones k) = x mod 2 ^ k.
Proof. intros. by apply Z.land_ones. Qed.

Section segment.
Context (type dpl base limit : Z).
Context (Ht : 0 <= type < 16) (Hd : 0 <= dpl < 4) (Hb : 0 <= base < 2 ^ 32) (Hl : 0 <= limit < 2 ^ 20).

Lemma base_parts : Z.land base 0xffff + 2 ^ 16 * Z.land (Z.shiftr base 16) 0xff + 2 ^ 24 * Z.land (Z.shiftr base 24) 0xff = base.
Proof using Hb.
  change 0xffff with (Z.ones 16). change 0xff with (Z.ones 8).
  rewrite !land_mask, !Z.shiftr_div_pow2 by lia. rewrite (Z.mod_small (base / 2 ^ 24)).
  2:{ split; [apply Z.div_pos; lia|apply Z.div_lt_upper_bound; lia]. }
  change (2 ^ 24) with (2 ^ 16 * 2 ^ 8) at 2. rewrite <- Z.div_div by lia.
  pose proof (Z.div_mod base (2 ^ 16) ltac:(lia)). pose proof (Z.div_mod (base / 2 ^ 16) (2 ^ 8) ltac:(lia)). lia.
Qed.

Lemma limit_parts : Z.land limit 0xffff + 2 ^ 16 * Z.land (Z.shiftr limit 16) 0xf = limit.
Proof using Hl.
  change 0xffff with (Z.ones 16). change 0xf with (Z.ones 4).
  rewrite !land_mask, !Z.shiftr_div_pow2 by lia. rewrite (Z.mod_small (limit / 2 ^ 16)).
  2:{ split; [apply Z.div_pos; lia|apply Z.div_lt_upper_bound; lia]. }
  pose proof (Z.div_mod limit (2 ^ 16) ltac:(lia)). lia.
Qed.

Lemma land_range x k : 0 <= k -> 0 <= Z.land x (Z.ones k) < 2 ^ k.
Proof using Type. intros. rewrite land_mask by done. apply Z.mod_pos_bound. lia. Qed.

Lemma segment_fields d :
  d = SetCodeSegment type dpl base limit \/ d = SetDataSegment type dpl base limit ->
  seg_base d = base /\ seg_limit d = limit /\ get_field 40 4 d = type /\ get_field 45 2 d = dpl
  /\ get_field 44 1 d = 1 /\ get_field 47 1 d = 1 /\ get_field 55 1 d = 1.
Proof using Ht Hd Hb Hl.
  pose proof (land_range base 16 ltac:(lia)). pose proof (land_range (Z.shiftr base 16) 8 ltac:(lia)).
  pose proof (land_range (Z.shiftr base 24) 8 ltac:(lia)). pose proof (land_range limit 16 ltac:(lia)).
  pose proof (land_range (Z.shiftr limit 16) 4 ltac:(lia)).
  change (Z.ones 16) with 0xffff in *. change (Z.ones 8) with 0xff in *. change (Z.ones 4) with 0xf in *.
  intros [->| ->]; unfold SetDataSegment, SetCodeSegment, seg_base, seg_limit; read_fields;
    split_and!; try done; apply base_parts || apply limit_parts.
Qed.
End segment.

Lemma gate_parts offset :
  0 <= offset < 2 ^ 64 ->
  u16 (Z.land offset 0xffff) + 2 ^ 16 * u16 (Z.land (Z.shiftr offset 16) 0xffff) + 2 ^ 32 * u32 (Z.shiftr offset 32)
  = offset.
Proof.
  intros Ho. change 0xffff with (Z.ones 16). unfold u16, u32.
  rewrite !land_mask, !Z.shiftr_div_pow2, !Zmod_mod by lia. rewrite (Z.mod_small (offset / 2 ^ 32)).
  2:{ split; [apply Z.div_pos; lia|apply Z.div_lt_upper_bound; lia]. }
  change (2 ^ 32) with (2 ^ 16 * 2 ^ 16) at 2. rewrite <- Z.div_div by lia.
  pose proof (Z.div_mod offset (2 ^ 16) ltac:(lia)). pose proof (Z.div_mod (offset / 2 ^ 16) (2 ^ 16) ltac:(lia)). lia.
Qed.

Lemma attr_fields type dpl p ist :
  0 <= type < 16 -> 0 <= dpl < 4 -> 0 <= ist < 8 ->
  let a := MakeIDTAttr type dpl p ist in
  get_field 8 4 a = type /\ get_field 13 2 a = dpl /\ get_field 0 3 a = ist /\ get_bit 15 a = p.
Proof.
  intros Ht Hd Hi. unfold MakeIDTAttr. cbv zeta. split_and!; [..|by apply get_set_bit];
    unfold set_bit; read_fields; done.
Qed.

(** Descriptors of the 64-bit kernel are read back as they were set: base,
    limit, type and privilege level of code and data segments, with the long mode
    bit only in code segments and the 32-bit bit only in data segments; the
    handler address, selector, type, privilege level and stack of gates. *)
Theorem descriptors64_roundtrip type dpl base limit desc offset selector p ist :
  0 <= type < 16 -> 0 <= dpl < 4 -> 0 <= base < 2 ^ 32 -> 0 <= limit < 2 ^ 20 ->
  0 <= offset < 2 ^ 64 -> 0 <= ist < 8 ->
  let c := SetCodeSegment type dpl base limit in
  let d := SetDataSegment type dpl base limit in
  let g := SetIDTEntry desc (MakeIDTAttr type dpl p ist) offset selector in
  (seg_base c = base /\ seg_limit c = limit /\ get_field 40 4 c = type /\ get_field 45 2 c = dpl
   /\ get_field 53 1 c = 1 /\ get_field 54 1 c = 0)
  /\ (seg_base d = base /\ seg_limit d = limit /\ get_field 40 4 d = type /\ get_field 45 2 d = dpl
      /\ get_field 53 1 d = 0 /\ get_field 54 1 d = 1)
  /\ (gate_offset g = offset /\ segment_selector g = selector /\ get_field 8 4 (attr g) = type
      /\ get_field 13 2 (attr g) = dpl /\ get_bit 15 (attr g) = p /\ get_field 0 3 (attr g) = ist).
Proof.
  intros Ht Hd Hb Hl Ho Hi c d g.
  destruct (segment_fields type dpl base limit Ht Hd Hb Hl c) as (C1 & C2 & C3 & C4 & _); [by left|].
  destruct (segment_fields type dpl base limit Ht Hd Hb Hl d) as (D1 & D2 & D3 & D4 & _); [by right|].
  destruct (attr_fields type dpl p ist Ht Hd Hi) as (A1 & A2 & A3 & A4). split_and!; try done.
  - unfold c, SetCodeSegment. by read_fields.
  - unfold c, SetCodeSegment. by read_fields.
  - unfold d, SetDataSegment. by read_fields.
  - unfold d, SetDataSegment. by read_fields.
  - by apply gate_parts.
Qed.

Lemma descriptors64_roundtrip_witness :
  gate_offset (SetIDTEntry (mkIDT 0 0 0 0 0 0) (MakeIDTAttr kInterruptGate 0 true 0) 0xffff800012345678 8)
  = 0xffff800012345678.
Proof.
  destruct (descriptors64_roundtrip kInterruptGate 0 0 0xfffff (mkIDT 0 0 0 0 0 0) 0xffff800012345678 8 true 0)
    as (_ & _ & E & _); [done..|exact E].
Defined.
