(* ===== verification/Graphics64.v ===== *)
(** * Pixels and text of the 64-bit kernel

    src/src/graphics.cpp, src/src/font.cpp and src/src/mouse.cpp.  [PixelWriter] is an
    abstract class of the source: here a class of operations with the law that the
    drawing code relies on.  The two writers of the source, which differ in the
    order of the colour bytes, are its instances. *)
From Stdlib Require Import ZArith Lia.
From stdpp Require Import base option list numbers strings.
From S2P Require Import Prelude Font SheetSpec.

Set Default Proof Using "Type".

Record PixelColor := mkColor { col_r : Z; col_g : Z; col_b : Z }.
Definition byte_color (c : PixelColor) : Prop :=
  0 <= col_r c < 256 /\ 0 <= col_g c < 256 /\ 0 <= col_b c < 256.

(** A writer draws on [W]; [pixel] is what the screen shows. *)
Class PixelWriter (W : Type) := {
  Write : W -> Z -> Z -> PixelColor -> option W;
  pixel : W -> Z -> Z -> option PixelColor;
  screen : W -> Z -> Z -> Prop;
  pw_write w width height x y c :
    screen w width height -> 0 <= x < width -> 0 <= y < height ->
    exists w', Write w x y c = Some w' /\ screen w' width height
      /\ forall x' y', 0 <= x' < width -> 0 <= y' < height ->
         pixel w' x' y' = if (x' =? x) && (y' =? y) then Some c else pixel w x' y'
}.

(** ** The writers of src/src/graphics.cpp *)
Record FrameBufferConfig := mkFB {
  frame_buffer : list Z; (** the bytes at [frame_buffer_base] *)
  pixels_per_scan_line : Z; horizontal_resolution : Z; vertical_resolution : Z
}.

Definition PixelAt (w : FrameBufferConfig) (x y : Z) : Z :=
  u32 (4 * u32 (u32 (pixels_per_scan_line w * y) + x)).

Definition set_bytes (w : FrameBufferConfig) (l : list Z) : FrameBufferConfig :=
  mkFB l (pixels_per_scan_line w) (horizontal_resolution w) (vertical_resolution w).

(** [p[0] = a; p[1] = b; p[2] = c]. *)
Definition write3 (w : FrameBufferConfig) (p a b c : Z) : option FrameBufferConfig :=
  l ← (frame_buffer w)$[p := a];
  l ← l$[p + 1 := b];
  l ← l$[p + 2 := c];
  Some (set_bytes w l).

Definition RGB_Write (w : FrameBufferConfig) (x y : Z) (c : PixelColor) : option FrameBufferConfig :=
  write3 w (PixelAt w x y) (col_r c) (col_g c) (col_b c).
Definition BGR_Write (w : FrameBufferConfig) (x y : Z) (c : PixelColor) : option FrameBufferConfig :=
  write3 w (PixelAt w x y) (col_b c) (col_g c) (col_r c).

Definition read3 (w : FrameBufferConfig) (p : Z) : option (Z * Z * Z) :=
  a ← (frame_buffer w)$[p]; b ← (frame_buffer w)$[p + 1]; c ← (frame_buffer w)$[p + 2]; Some (a, b, c).
Definition RGB_pixel (w : FrameBufferConfig) (x y : Z) : option PixelColor :=
  option_map (fun '(a, b, c) => mkColor a b c) (read3 w (PixelAt w x y)).
Definition BGR_pixel (w : FrameBufferConfig) (x y : Z) : option PixelColor :=
  option_map (fun '(a, b, c) => mkColor c b a) (read3 w (PixelAt w x y)).

(** The frame buffer holds [width] pixels of [height] lines, in 32 bits. *)
Definition fb_screen (w : FrameBufferConfig) (width height : Z) : Prop :=
  width <= pixels_per_scan_line w /\ 0 <= height
  /\ 4 * (pixels_per_scan_line w * height) <= Z.of_nat (length (frame_buffer w))
  /\ 4 * (pixels_per_scan_line w * height) < 2 ^ 32.

Lemma PixelAt_eq w width height x y :
  fb_screen w width height -> 0 <= x < width -> 0 <= y < height ->
  PixelAt w x y = 4 * (pixels_per_scan_line w * y + x)
  /\ 0 <= PixelAt w x y /\ PixelAt w x y + 3 < Z.of_nat (length (frame_buffer w)).
Proof.
  intros (Hw & Hh & Hl & H32) Hx Hy. unfold PixelAt.
  assert (0 <= pixels_per_scan_line w * y <= pixels_per_scan_line w * height - pixels_per_scan_line w) by nia.
  rewrite !u32_small; rewrite ?u32_small; rewrite ?u32_small; lia.
Qed.

Lemma PixelAt_apart w width height x y x' y' :
  fb_screen w width height -> 0 <= x < width -> 0 <= y < height -> 0 <= x' < width -> 0 <= y' < height ->
  PixelAt w x' y' = PixelAt w x y \/ PixelAt w x' y' + 4 <= PixelAt w x y \/ PixelAt w x y + 4 <= PixelAt w x' y'.
Proof.
  intros Hs Hx Hy Hx' Hy'. destruct (PixelAt_eq w width height x y Hs Hx Hy) as [-> _].
  destruct (PixelAt_eq w width height x' y' Hs Hx' Hy') as [-> _]. lia.
Qed.

Lemma PixelAt_inj w width height x y x' y' :
  fb_screen w width height -> 0 <= x < width -> 0 <= y < height -> 0 <= x' < width -> 0 <= y' < height ->
  PixelAt w x' y' = PixelAt w x y -> x' = x /\ y' = y.
Proof.
  intros Hs Hx Hy Hx' Hy' E. destruct (PixelAt_eq w width height x y Hs Hx Hy) as [E1 _].
  destruct (PixelAt_eq w width height x' y' Hs Hx' Hy') as [E2 _]. rewrite E1, E2 in E.
  destruct Hs as [Hw _]. assert (y' = y) by nia. subst. lia.
Qed.

Lemma write3_spec w p a b c :
  0 <= p -> p + 3 < Z.of_nat (length (frame_buffer w)) ->
  exists l, write3 w p a b c = Some (set_bytes w l) /\ length l = length (frame_buffer w)
    /\ read3 (set_bytes w l) p = Some (a, b, c)
    /\ forall p', p' + 4 <= p \/ p + 4 <= p' -> read3 (set_bytes w l) p' = read3 w p'.
Proof.
  intros Hp Hl. unfold write3. rewrite updateZ_in by lia. cbn [mbind option_bind].
  rewrite updateZ_in by (rewrite length_insert; lia). cbn [mbind option_bind].
  rewrite updateZ_in by (rewrite !length_insert; lia). cbn [mbind option_bind].
  eexists. split; [reflexivity|]. split; [by rewrite !length_insert|]. unfold read3. cbn [frame_buffer set_bytes].
  split.
  - rewrite !lookupZ_insert by (rewrite ?length_insert; lia). repeat case_decide; try lia. done.
  - intros p' Hp'. rewrite !lookupZ_insert by (rewrite ?length_insert; lia). repeat case_decide; try lia. done.
Qed.

(** What both writers share. *)
Lemma writer_law (enc : PixelColor -> Z * Z * Z) (dec : Z * Z * Z -> PixelColor) w width height x y c :
  (forall c, dec (enc c) = c) ->
  fb_screen w width height -> 0 <= x < width -> 0 <= y < height ->
  exists w', write3 w (PixelAt w x y) (enc c).1.1 (enc c).1.2 (enc c).2 = Some w' /\ fb_screen w' width height
    /\ forall x' y', 0 <= x' < width -> 0 <= y' < height ->
       option_map dec (read3 w' (PixelAt w' x' y'))
       = if (x' =? x) && (y' =? y) then Some c else option_map dec (read3 w (PixelAt w x' y')).
Proof.
  intros Hd Hs Hx Hy. destruct (PixelAt_eq w width height x y Hs Hx Hy) as (_ & H0 & H1).
  destruct (write3_spec w (PixelAt w x y) (enc c).1.1 (enc c).1.2 (enc c).2 H0 H1) as (l & -> & Hl & Hr & Ho).
  exists (set_bytes w l). split; [done|]. split.
  { unfold fb_screen in *. cbn [pixels_per_scan_line frame_buffer set_bytes]. by rewrite Hl. }
  intros x' y' Hx' Hy'. change (PixelAt (set_bytes w l) x' y') with (PixelAt w x' y').
  destruct ((x' =? x) && (y' =? y)) eqn:E.
  - apply andb_true_iff in E as [->%Z.eqb_eq ->%Z.eqb_eq]. rewrite Hr. simpl.
    rewrite <- (surjective_pairing (enc c).1), <- surjective_pairing. by rewrite Hd.
  - rewrite Ho; [done|]. destruct (PixelAt_apart w width height x y x' y') as [Ea| ?]; try done.
    destruct (PixelAt_inj w width height x y x' y' Hs Hx Hy Hx' Hy' Ea) as [-> ->].
    by rewrite !Z.eqb_refl in E.
Qed.

Lemma RGB_law w width height x y c :
  fb_screen w width height -> 0 <= x < width -> 0 <= y < height ->
  exists w', RGB_Write w x y c = Some w' /\ fb_screen w' width height
    /\ forall x' y', 0 <= x' < width -> 0 <= y' < height ->
       RGB_pixel w' x' y' = if (x' =? x) && (y' =? y) then Some c else RGB_pixel w x' y'.
Proof.
  exact (writer_law (fun c => (col_r c, col_g c, col_b c)) (fun '(a, b, c) => mkColor a b c)
    w width height x y c ltac:(by intros [])).
Qed.

Lemma BGR_law w width height x y c :
  fb_screen w width height -> 0 <= x < width -> 0 <= y < height ->
  exists w', BGR_Write w x y c = Some w' /\ fb_screen w' width height
    /\ forall x' y', 0 <= x' < width -> 0 <= y' < height ->
       BGR_pixel w' x' y' = if (x' =? x) && (y' =? y) then Some c else BGR_pixel w x' y'.
Proof.
  exact (writer_law (fun c => (col_b c, col_g c, col_r c)) (fun '(a, b, c) => mkColor c b a)
    w width height x y c ltac:(by intros [])).
Qed.

Definition RGBResv8BitPerColorPixelWriter : PixelWriter FrameBufferConfig :=
  {| Write := RGB_Write; pixel := RGB_pixel; screen := fb_screen; pw_write := RGB_law |}.
Definition BGRResv8BitPerColorPixelWriter : PixelWriter FrameBufferConfig :=
  {| Write := BGR_Write; pixel := BGR_pixel; screen := fb_screen; pw_write := BGR_law |}.

(** ** Loops over strings

    The body runs for each character up to the null character. *)
Definition cstring_body {S} (s : list Z) (f : Z -> Z -> S -> option S) (i : Z) (st : S) : option (step S unit) :=
  ch ← s$[i];
  if ch =? 0 then Some (Break st) else st ← f i ch st; Some (Continue st).

Lemma cstring_loop {S} (I : nat -> S -> Prop) (f : Z -> Z -> S -> option S) str rest n st :
  Forall (fun ch => ch <> 0) str -> (length str < n)%nat -> I 0%nat st ->
  (forall i ch st, str !! i = Some ch -> I i st ->
     exists st', f (Z.of_nat i) ch st = Some st' /\ I (Datatypes.S i) st') ->
  exists st', loop_until n 0 (cstring_body (str ++ 0 :: rest) f) st = Some (Break st') /\ I (length str) st'.
Proof.
  intros Hnz Hn H0 Hstep. set (body := cstring_body (str ++ 0 :: rest) f).
  assert (G : forall k i st, (i <= length str)%nat -> (length str < i + k)%nat -> I i st ->
    exists st', loop_until k (Z.of_nat i) body st = Some (Break st') /\ I (length str) st').
  { induction k as [|k IH]; intros i st1 Hi Hk H1; [lia|]. cbn [loop_until].
    destruct (decide (i = length str)) as [->|Ne].
    - exists st1. split; [|done].
      assert (body (Z.of_nat (length str)) st1 = Some (Break st1)) as ->; [|done].
      unfold body, cstring_body. by rewrite lookupZ_nat, list_lookup_middle.
    - destruct (lookup_lt_is_Some_2 str i ltac:(lia)) as [ch Hch].
      destruct (Hstep i ch st1 Hch H1) as (st2 & E2 & H2).
      assert (body (Z.of_nat i) st1 = Some (Continue st2)) as ->.
      { unfold body, cstring_body. rewrite lookupZ_nat, lookup_app_l, Hch by lia. cbn [mbind option_bind].
        rewrite Forall_lookup in Hnz. apply Hnz in Hch. destruct (Z.eqb_spec ch 0); [done|]. by rewrite E2. }
      cbn [mbind option_bind]. replace (Z.of_nat i + 1) with (Z.of_nat (Datatypes.S i)) by lia.
      apply IH; [lia|lia|done]. }
  apply (G n 0%nat); [lia|lia|done].
Qed.

Section drawing.
Context {W : Type} `{!PixelWriter W}.

(** ** src/src/graphics.cpp *)
Definition DrawRectangle (w : W) (px py sx sy : Z) (c : PixelColor) : option W :=
  w ← for_range 0 sx (fun dx w =>
        w ← Write w (px + dx) py c;
        Write w (px + dx) (py + sy - 1) c) w;
  for_range 1 (sy - 1) (fun dy w =>
    w ← Write w px (py + dy) c;
    Write w (px + sx - 1) (py + dy) c) w.

Definition FillRectangle (w : W) (px py sx sy : Z) (c : PixelColor) : option W :=
  for_range 0 sy (fun dy w => for_range 0 sx (fun dx w => Write w (px + dx) (py + dy) c) w) w.

(** ** src/src/font.cpp

    A [char] is signed; a null pointer is [None]. *)
Definition GetFont (c : Z) : option Z :=
  let offset := u32 (16 * u32 c) in
  if offset >=? 4096 then None else Some offset.

Definition font_bit (font dx dy : Z) : option bool :=
  row ← hankaku$[font + dy]; Some (negb (Z.land (Z.shiftl row dx) 0x80 =? 0)).

Definition WriteAscii (w : W) (x y c : Z) (color : PixelColor) : option W :=
  for_range 0 16 (fun dy w =>
    for_range 0 8 (fun dx w =>
      font ← GetFont c;
      b ← font_bit font dx dy;
      if b : bool then Write w (x + dx) (y + dy) color else Some w) w) w.

Definition SYS_MAX_ITER : Z := 65535.

(** The counter [__j] lets at most [SYS_MAX_ITER - 1] characters through. *)
Definition WriteString (w : W) (x y : Z) (s : list Z) (color : PixelColor) : option W :=
  r ← loop_until (Z.to_nat (SYS_MAX_ITER - 1)) 0
        (cstring_body s (fun i ch w => WriteAscii w (x + 8 * i) y ch color)) w;
  Some (match r with Continue w | Break w | Return w _ => w end).

(** ** Painting

    Every loop of the drawing code paints some pixels of a rectangle. *)
Definition paint (w : W) (px py sx sy : Z) (f : Z -> Z -> option PixelColor) : option W :=
  for_range 0 sy (fun dy w =>
    for_range 0 sx (fun dx w =>
      match f dx dy with Some c => Write w (px + dx) (py + dy) c | None => Some w end) w) w.

Definition in_box (px py sx sy x y : Z) : bool :=
  (px <=? x) && (x <? px + sx) && (py <=? y) && (y <? py + sy).

Lemma in_box_spec px py sx sy x y :
  in_box px py sx sy x y = true <-> px <= x < px + sx /\ py <= y < py + sy.
Proof. unfold in_box. rewrite !andb_true_iff, !Z.leb_le, !Z.ltb_lt. lia. Qed.

(** The picture after painting. *)
Definition painted (px py sx sy : Z) (f : Z -> Z -> option PixelColor) (old : Z -> Z -> option PixelColor)
    (x y : Z) : option PixelColor :=
  if in_box px py sx sy x y then match f (x - px) (y - py) with Some c => Some c | None => old x y end
  else old x y.

Section on_screen.
Context (width height : Z).

Definition shows (w : W) (g : Z -> Z -> option PixelColor) : Prop :=
  screen w width height /\ forall x y, 0 <= x < width -> 0 <= y < height -> pixel w x y = g x y.

(** One pixel more. *)
Lemma paint_pixel w g x y (c : option PixelColor) :
  shows w g -> 0 <= x < width -> 0 <= y < height ->
  exists w', match c with Some c => Write w x y c | None => Some w end = Some w'
    /\ shows w' (fun x' y' => if (x' =? x) && (y' =? y)
                             then match c with Some c => Some c | None => g x' y' end else g x' y').
Proof.
  intros [Hs Hg] Hx Hy. destruct c as [c|].
  - destruct (pw_write w width height x y c Hs Hx Hy) as (w' & -> & Hs' & Hp). exists w'.
    split; [done|]. split; [done|]. intros x' y' Hx' Hy'. rewrite Hp by done.
    destruct (_ && _); [done|by apply Hg].
  - exists w. split; [done|]. split; [done|]. intros x' y' Hx' Hy'. rewrite Hg by done. by destruct (_ && _).
Qed.

Lemma shows_ext' w g g' :
  (forall x y, 0 <= x < width -> 0 <= y < height -> g x y = g' x y) -> shows w g -> shows w g'.
Proof. intros E [Hs Hg]. split; [done|]. intros x y Hx Hy. rewrite Hg by done. by apply E. Qed.

(** The picture when the loops have come to column [dx] of line [dy]. *)
Definition so_far (px py sx dy dx x y : Z) : bool :=
  (px <=? x) && (x <? px + sx) && (py <=? y) && ((y <? py + dy) || (y =? py + dy) && (x <? px + dx)).

Lemma so_far_spec px py sx dy dx x y :
  so_far px py sx dy dx x y = true
  <-> px <= x < px + sx /\ py <= y /\ (y < py + dy \/ y = py + dy /\ x < px + dx).
Proof.
  unfold so_far. rewrite !andb_true_iff, orb_true_iff, andb_true_iff, !Z.leb_le, !Z.ltb_lt, Z.eqb_eq. lia.
Qed.

Definition partly (px py sx : Z) (f : Z -> Z -> option PixelColor) (g : Z -> Z -> option PixelColor)
    (dy dx x y : Z) : option PixelColor :=
  if so_far px py sx dy dx x y then match f (x - px) (y - py) with Some c => Some c | None => g x y end else g x y.

Lemma partly_ext px py sx f g dy dx sx' dy' dx' x y :
  (so_far px py sx dy dx x y = true <-> so_far px py sx' dy' dx' x y = true) ->
  partly px py sx f g dy dx x y = partly px py sx' f g dy' dx' x y.
Proof.
  unfold partly. destruct (so_far px py sx dy dx x y), (so_far px py sx' dy' dx' x y); naive_solver.
Qed.

Lemma paint_spec w g px py sx sy f :
  shows w g -> 0 <= px -> 0 <= sx -> px + sx <= width -> 0 <= py -> 0 <= sy -> py + sy <= height ->
  exists w', paint w px py sx sy f = Some w' /\ shows w' (painted px py sx sy f g).
Proof.
  intros Hw Hpx Hsx Hwx Hpy Hsy Hwy. unfold paint.
  destruct (for_range_inv (fun dy w => shows w (partly px py sx f g dy 0)) 0 sy (fun dy w =>
    for_range 0 sx (fun dx w =>
      match f dx dy with Some c => Write w (px + dx) (py + dy) c | None => Some w end) w) w)
    as (w' & E & Hw'); [done| | |].
  - eapply shows_ext'; [|exact Hw]. intros x y Hx Hy. unfold partly.
    destruct (so_far px py sx 0 0 x y) eqn:Eb; [|done]. apply so_far_spec in Eb. lia.
  - intros dy w1 Hdy Hw1.
    destruct (for_range_inv (fun dx w => shows w (partly px py sx f g dy dx)) 0 sx (fun dx w =>
      match f dx dy with Some c => Write w (px + dx) (py + dy) c | None => Some w end) w1)
      as (w2 & E2 & Hw2); [done|exact Hw1| |].
    + intros dx w2 Hdx Hw2.
      destruct (paint_pixel w2 _ (px + dx) (py + dy) (f dx dy) Hw2) as (w3 & -> & Hw3); [lia|lia|].
      exists w3. split; [done|]. eapply shows_ext'; [|exact Hw3]. intros x y Hx Hy. cbn beta.
      destruct ((x =? px + dx) && (y =? py + dy)) eqn:Exy.
      * apply andb_true_iff in Exy as [->%Z.eqb_eq ->%Z.eqb_eq]. unfold partly.
        assert (so_far px py sx dy (dx + 1) (px + dx) (py + dy) = true) as -> by (apply so_far_spec; lia).
        rewrite !Z.add_simpl_l. destruct (f dx dy); [done|]. by destruct (so_far _ _ _ _ _ _ _).
      * apply partly_ext. rewrite !so_far_spec.
        apply andb_false_iff in Exy as [Exy|Exy]; apply Z.eqb_neq in Exy; lia.
    + exists w2. split; [done|]. eapply shows_ext'; [|exact Hw2]. intros x y Hx Hy.
      apply partly_ext. rewrite !so_far_spec. lia.
  - exists w'. split; [done|]. eapply shows_ext'; [|exact Hw']. intros x y Hx Hy. unfold partly, painted.
    destruct (so_far px py sx sy 0 x y) eqn:E1, (in_box px py sx sy x y) eqn:E2; try done; exfalso.
    + apply so_far_spec in E1. apply not_true_iff_false in E2. apply E2, in_box_spec. lia.
    + apply in_box_spec in E2. apply not_true_iff_false in E1. apply E1, so_far_spec. lia.
Qed.

(** ** Characters *)
Definition glyph (c dx dy : Z) : bool := default false (font_bit (16 * c) dx dy).

Lemma font_length : Z.of_nat (length hankaku) = 4096.
Proof. vm_compute. reflexivity. Qed.

Lemma font_bit_glyph c dx dy : 0 <= c < 256 -> 0 <= dy < 16 -> font_bit (16 * c) dx dy = Some (glyph c dx dy).
Proof.
  intros Hc Hy. unfold glyph, font_bit.
  destruct (lookupZ_is_Some hankaku (16 * c + dy)) as [row ->]; [rewrite font_length; lia|done].
Qed.

Lemma GetFont_ascii c : 0 <= c < 128 -> GetFont c = Some (16 * c).
Proof.
  intros Hc. unfold GetFont. rewrite !u32_small; rewrite ?u32_small; try lia.
  destruct (Z.geb_spec (16 * c) 4096); [lia|done].
Qed.

Definition ascii (c : Z) : Prop := 0 < c < 128.

Lemma WriteAscii_paint w x y c color :
  0 <= c < 128 ->
  WriteAscii w x y c color = paint w x y 8 16 (fun dx dy => if glyph c dx dy then Some color else None).
Proof.
  intros Hc. unfold WriteAscii, paint. apply for_loop_ext. intros dy w1 Hdy. apply for_loop_ext.
  intros dx w2 Hdx. rewrite GetFont_ascii by done. cbn [mbind option_bind].
  rewrite font_bit_glyph by lia. cbn [mbind option_bind]. by destruct (glyph c dx dy).
Qed.

(** A line of text over the picture [g]. *)
Definition text_over (px py : Z) (line : list Z) (color : PixelColor) (g : Z -> Z -> option PixelColor)
    (x y : Z) : option PixelColor :=
  match line$[(x - px) / 8] with
  | Some ch => if (py <=? y) && (y <? py + 16) && glyph ch ((x - px) mod 8) (y - py) then Some color else g x y
  | None => g x y
  end.

Lemma text_snoc px py line ch color g x y :
  text_over px py (line ++ [ch]) color g x y
  = painted (px + 8 * Z.of_nat (length line)) py 8 16 (fun dx dy => if glyph ch dx dy then Some color else None)
      (text_over px py line color g) x y.
Proof.
  unfold text_over, painted. set (n := Z.of_nat (length line)).
  pose proof (Z.div_mod (x - px) 8 ltac:(lia)) as Hd. pose proof (Z.mod_pos_bound (x - px) 8 ltac:(lia)) as Hm.
  assert (Hq : forall q, 0 <= q < n -> (line ++ [ch])$[q] = line$[q]).
  { intros q Hq. unfold lookupZ. destruct (Z.leb_spec 0 q); [|done]. apply lookup_app_l. lia. }
  assert (Hout : forall q, q < 0 \/ n <= q -> line$[q] = None).
  { intros q Hr. unfold lookupZ. destruct (Z.leb_spec 0 q); [|done]. apply lookup_ge_None_2. lia. }
  destruct (decide ((x - px) / 8 = n)) as [E|E].
  - assert ((line ++ [ch])$[n] = Some ch) as Hl.
    { unfold lookupZ. destruct (Z.leb_spec 0 n); [|lia]. unfold n. rewrite Nat2Z.id. apply list_lookup_middle. done. }
    rewrite E, Hl, (Hout n) by lia. unfold in_box.
    destruct (Z.leb_spec (px + 8 * n) x); [|lia]. destruct (Z.ltb_spec x (px + 8 * n + 8)); [|lia]. cbn [andb].
    replace (x - (px + 8 * n)) with ((x - px) mod 8) by lia.
    destruct (Z.leb_spec py y), (Z.ltb_spec y (py + 16)); simpl; try done. by destruct (glyph _ _ _).
  - assert (in_box (px + 8 * n) py 8 16 x y = false) as ->.
    { apply not_true_iff_false. rewrite in_box_spec. intros [Hx _]. apply E.
      symmetry. apply Z.div_unique with (x - px - 8 * n); lia. }
    destruct (decide (0 <= (x - px) / 8 < n)); [by rewrite Hq|].
    rewrite (Hout ((x - px) / 8)) by lia. unfold lookupZ. destruct (Z.leb_spec 0 ((x - px) / 8)); [|done].
    rewrite lookup_ge_None_2; [done|]. rewrite length_app. simpl. lia.
Qed.

Lemma WriteAscii_spec w g x y c color :
  shows w g -> 0 <= c < 128 -> 0 <= x -> x + 8 <= width -> 0 <= y -> y + 16 <= height ->
  exists w', WriteAscii w x y c color = Some w'
    /\ shows w' (painted x y 8 16 (fun dx dy => if glyph c dx dy then Some color else None) g).
Proof. intros Hw Hc Hx Hwx Hy Hwy. rewrite WriteAscii_paint by done. apply paint_spec; done || lia. Qed.

Lemma WriteString_spec w g px py line rest color :
  shows w g -> Forall ascii line -> 0 <= px -> px + 8 * Z.of_nat (length line) <= width ->
  0 <= py -> py + 16 <= height -> Z.of_nat (length line) < SYS_MAX_ITER - 1 ->
  exists w', WriteString w px py (line ++ 0 :: rest) color = Some w' /\ shows w' (text_over px py line color g).
Proof.
  intros Hw Hl Hpx Hwx Hpy Hwy Hn. unfold WriteString.
  destruct (cstring_loop (fun i w => shows w (text_over px py (take i line) color g))
    (fun i ch w => WriteAscii w (px + 8 * i) py ch color) line rest (Z.to_nat (SYS_MAX_ITER - 1)) w)
    as (w' & -> & Hw'); [|lia| | |].
  - eapply Forall_impl; [exact Hl|]. unfold ascii. lia.
  - eapply shows_ext'; [|exact Hw]. intros x y Hx Hy. unfold text_over, lookupZ. simpl. by destruct (0 <=? _).
  - intros i ch w1 Hch Hw1. pose proof Hl as Ha. rewrite Forall_lookup in Ha. apply Ha in Hch as Hasc.
    unfold ascii in Hasc. apply lookup_lt_Some in Hch as Hi.
    destruct (WriteAscii_spec w1 _ (px + 8 * Z.of_nat i) py ch color Hw1) as (w2 & E2 & Hw2); [lia..|].
    exists w2. split; [done|]. eapply shows_ext'; [|exact Hw2]. intros x y Hx Hy.
    rewrite (take_S_r line i ch Hch), text_snoc. by rewrite length_take, Nat.min_l by lia.
  - exists w'. split; [done|]. by rewrite firstn_all in Hw'.
Qed.

Lemma FillRectangle_spec w g px py sx sy c :
  shows w g -> 0 <= px -> 0 <= sx -> px + sx <= width -> 0 <= py -> 0 <= sy -> py + sy <= height ->
  exists w', FillRectangle w px py sx sy c = Some w'
    /\ shows w' (fun x y => if in_box px py sx sy x y then Some c else g x y).
Proof. intros. apply (paint_spec w g px py sx sy (fun _ _ => Some c)); done. Qed.
End on_screen.
End drawing.
