(* ===== verification/Console64.v ===== *)
(** * The text console of the 64-bit kernel, src/src/console.cpp

    55 lines of 80 columns on any pixel writer.  The console keeps the characters
    of the screen and draws them; when a line is added at the bottom it clears
    its area and draws everything again.  The abstract terminal is the list of all
    lines ever printed; the theorem says that buffer and pixels show the last of
    them. *)
From Stdlib Require Import ZArith Lia.
From stdpp Require Import base option list numbers.
From S2P Require Import Prelude Font Graphics64.

Set Default Proof Using "Type".

Definition kRows : Z := 55.
Definition kColumns : Z := 80.

Section console.
Context {W : Type} `{!PixelWriter W}.

Record Console := mkConsole {
  writer_ : W; fg_color_ : PixelColor; bg_color_ : PixelColor;
  buffer_ : list (list Z); cursor_row_ : Z; cursor_column_ : Z
}.

Definition empty_row : list Z := replicate (Z.to_nat (kColumns + 1)) 0.
Definition Console_new (w : W) (fg bg : PixelColor) : Console :=
  mkConsole w fg bg (replicate (Z.to_nat kRows) empty_row) 0 0.

(** One turn of the loop that moves the rows up. *)
Definition move_row (fg : PixelColor) (row : Z) (s : list (list Z) * W) : option (list (list Z) * W) :=
  let '(buf, w) := s in
  r ← buf$[row + 1];
  buf ← buf$[row := r];
  w ← WriteString w 0 (16 * row) r fg;
  Some (buf, w).

(** The first loop of [Newline] when the screen is full. *)
Definition clear_screen (w : W) (bg : PixelColor) : option W :=
  for_range 0 (16 * kRows) (fun y w => for_range 0 (8 * kColumns) (fun x w => Write w x y bg) w) w.

Definition Newline (c : Console) : option Console :=
  if cursor_row_ c <? kRows - 1 then
    Some (mkConsole (writer_ c) (fg_color_ c) (bg_color_ c) (buffer_ c) (cursor_row_ c + 1) 0)
  else
    w ← clear_screen (writer_ c) (bg_color_ c);
    '(buf, w) ← for_range 0 (kRows - 1) (move_row (fg_color_ c)) (buffer_ c, w);
    buf ← buf$[kRows - 1 := empty_row];
    Some (mkConsole w (fg_color_ c) (bg_color_ c) buf (cursor_row_ c) 0).

(** The body of the loop of [PutString] for the character [ch]. *)
Definition put_char (ch : Z) (c : Console) : option Console :=
  if ch =? 10 then Newline c
  else if cursor_column_ c <? kColumns - 1 then
    w ← WriteAscii (writer_ c) (8 * cursor_column_ c) (16 * cursor_row_ c) ch (fg_color_ c);
    r ← (buffer_ c)$[cursor_row_ c];
    r ← r$[cursor_column_ c := ch];
    buf ← (buffer_ c)$[cursor_row_ c := r];
    Some (mkConsole w (fg_color_ c) (bg_color_ c) buf (cursor_row_ c) (cursor_column_ c + 1))
  else Some c.

Definition PutString (c : Console) (s : list Z) : option Console :=
  r ← loop_until (Z.to_nat (SYS_MAX_ITER - 1)) 0 (cstring_body s (fun _ ch c => put_char ch c)) c;
  Some (match r with Continue c | Break c | Return c _ => c end).

(** ** The terminal

    All finished lines, and the current one.  Characters beyond column 79 are
    dropped. *)
Definition term : Type := list (list Z) * list Z.
Definition feed1 (t : term) (ch : Z) : term :=
  if ch =? 10 then (t.1 ++ [t.2], [])
  else if Z.of_nat (length t.2) <? kColumns - 1 then (t.1, t.2 ++ [ch]) else t.
Definition feed (t : term) (s : list Z) : term := foldl feed1 t s.

(** The lines on the screen. *)
Definition view (t : term) : list (list Z) := drop (length t.1 - 54) t.1 ++ [t.2].

Definition pad (l : list Z) : list Z := l ++ replicate (Z.to_nat (kColumns + 1) - length l) 0.
Definition buffer_of (v : list (list Z)) : list (list Z) :=
  (pad <$> v) ++ replicate (Z.to_nat kRows - length v) empty_row.

(** The picture of the lines [v]; outside of the console it is [g]. *)
Definition page (fg bg : PixelColor) (v : list (list Z)) (g : Z -> Z -> option PixelColor) (x y : Z)
  : option PixelColor :=
  if in_box 0 0 (8 * kColumns) (16 * kRows) x y then
    match v$[y / 16] with
    | Some l => text_over 0 (16 * (y / 16)) l fg (fun _ _ => Some bg) x y
    | None => Some bg
    end
  else g x y.

Definition line_ok (l : list Z) : Prop := Forall ascii l /\ Z.of_nat (length l) <= kColumns - 1.

(** ** Pictures *)
Lemma text_over_nil px py fg g x y : text_over px py [] fg g x y = g x y.
Proof. unfold text_over, lookupZ. by destruct (0 <=? _). Qed.

Lemma text_over_outside px py l fg g x y :
  0 <= px -> y < py \/ py + 16 <= y \/ x < px \/ px + 8 * Z.of_nat (length l) <= x ->
  text_over px py l fg g x y = g x y.
Proof.
  intros Hp Ho. unfold text_over. destruct (l$[(x - px) / 8]) as [ch|] eqn:E; [|done].
  apply lookupZ_lt in E. pose proof (Z.div_mod (x - px) 8 ltac:(lia)).
  pose proof (Z.mod_pos_bound (x - px) 8 ltac:(lia)).
  destruct (Z.leb_spec py y), (Z.ltb_spec y (py + 16)); simpl; try done. lia.
Qed.

Lemma text_over_ext px py l fg g g' x y : g x y = g' x y -> text_over px py l fg g x y = text_over px py l fg g' x y.
Proof. intros E. unfold text_over. by rewrite E. Qed.

(** A line written below the page. *)
Lemma page_snoc fg bg v l g x y :
  Z.of_nat (length v) < kRows -> line_ok l ->
  text_over 0 (16 * Z.of_nat (length v)) l fg (page fg bg v g) x y = page fg bg (v ++ [l]) g x y.
Proof.
  unfold kRows, line_ok, kColumns. intros Hv [_ Hl]. set (n := Z.of_nat (length v)) in *.
  unfold page at 2. destruct (in_box 0 0 _ _ x y) eqn:Eb.
  - apply in_box_spec in Eb. unfold kColumns, kRows in Eb.
    pose proof (Z.div_mod y 16 ltac:(lia)). pose proof (Z.mod_pos_bound y 16 ltac:(lia)).
    assert (Hp : page fg bg v g x y = match v$[y / 16] with
      | Some l => text_over 0 (16 * (y / 16)) l fg (fun _ _ => Some bg) x y | None => Some bg end).
    { unfold page. assert (in_box 0 0 (8 * kColumns) (16 * kRows) x y = true) as ->; [|done].
      apply in_box_spec. unfold kColumns, kRows. lia. }
    destruct (decide (y / 16 = n)) as [E|E].
    + assert (v$[n] = None) as Hn.
      { unfold lookupZ. destruct (Z.leb_spec 0 n); [|done]. apply lookup_ge_None_2. lia. }
      assert ((v ++ [l])$[n] = Some l) as Hn'.
      { unfold n. rewrite lookupZ_nat. by apply list_lookup_middle. }
      rewrite E, Hn'. apply text_over_ext. by rewrite Hp, E, Hn.
    + rewrite text_over_outside by lia. rewrite Hp. unfold lookupZ. destruct (Z.leb_spec 0 (y / 16)); [|done].
      destruct (decide (y / 16 < n)); [by rewrite lookup_app_l by lia|].
      rewrite !lookup_ge_None_2; [done|rewrite length_app; simpl; lia|lia].
  - apply not_true_iff_false in Eb. rewrite in_box_spec in Eb. unfold kColumns, kRows in Eb.
    rewrite text_over_outside by lia. unfold page.
    assert (in_box 0 0 (8 * kColumns) (16 * kRows) x y = false) as ->; [|done].
    apply not_true_iff_false. by rewrite in_box_spec.
Qed.

Lemma page_empty_line fg bg v g x y :
  Z.of_nat (length v) < kRows -> page fg bg (v ++ [[]]) g x y = page fg bg v g x y.
Proof. intros Hv. rewrite <- page_snoc, text_over_nil; [done|done|]. split; [constructor|done]. Qed.

(** A character at the end of the last line. *)
Lemma page_char fg bg v l ch g x y :
  Z.of_nat (length v) < kRows -> line_ok l -> line_ok (l ++ [ch]) ->
  painted (8 * Z.of_nat (length l)) (16 * Z.of_nat (length v)) 8 16
    (fun dx dy => if glyph ch dx dy then Some fg else None) (page fg bg (v ++ [l]) g) x y
  = page fg bg (v ++ [l ++ [ch]]) g x y.
Proof.
  intros Hv Hl Hl'. rewrite <- (page_snoc _ _ v (l ++ [ch])), text_snoc, Z.add_0_l by done. unfold painted.
  by rewrite page_snoc.
Qed.

(** ** Buffers *)
Lemma pad_nil : pad [] = empty_row.
Proof. reflexivity. Qed.

Lemma pad_zero l : line_ok l -> exists rest, pad l = l ++ 0 :: rest.
Proof.
  intros [_ Hl]. unfold pad, kColumns in *.
  destruct (Z.to_nat (80 + 1) - length l)%nat as [|k] eqn:E; [lia|]. by exists (replicate k 0).
Qed.

Lemma pad_char l ch :
  line_ok l -> (pad l)$[Z.of_nat (length l) := ch] = Some (pad (l ++ [ch])).
Proof.
  intros [_ Hl]. unfold pad, kColumns in *.
  replace (Z.to_nat (80 + 1) - length l)%nat with (S (Z.to_nat (80 + 1) - length (l ++ [ch])))
    by (rewrite length_app; simpl; lia).
  rewrite updateZ_nat by (rewrite length_app, length_replicate; lia). f_equal. cbn [replicate].
  rewrite insert_app_r_alt, Nat.sub_diag by lia. simpl. by rewrite <- app_assoc.
Qed.

Lemma buffer_length v : Z.of_nat (length v) <= kRows -> Z.of_nat (length (buffer_of v)) = kRows.
Proof. intros Hv. unfold buffer_of. rewrite length_app, length_fmap, length_replicate. lia. Qed.

Lemma buffer_lookup v i :
  Z.of_nat (length v) <= kRows -> 0 <= i < kRows -> (buffer_of v)$[i] = Some (pad (default [] (v$[i]))).
Proof.
  intros Hv Hi. unfold buffer_of, lookupZ. destruct (Z.leb_spec 0 i); [|lia].
  destruct (decide (i < Z.of_nat (length v))) as [Hlt|Hge].
  - rewrite lookup_app_l by (rewrite length_fmap; lia). rewrite list_lookup_fmap.
    destruct (lookup_lt_is_Some_2 v (Z.to_nat i) ltac:(lia)) as [l ->]. done.
  - rewrite lookup_app_r by (rewrite length_fmap; lia). rewrite length_fmap.
    rewrite (lookup_ge_None_2 v) by lia. simpl. rewrite pad_nil. apply lookup_replicate_2. lia.
Qed.

(** A buffer is determined by its rows. *)
Lemma buffer_eq v (buf : list (list Z)) :
  Z.of_nat (length v) <= kRows -> Z.of_nat (length buf) = kRows ->
  (forall i, 0 <= i < kRows -> buf$[i] = Some (pad (default [] (v$[i])))) -> buf = buffer_of v.
Proof.
  intros Hv Hb Hi. apply list_eq. intros i. rewrite <- !lookupZ_nat.
  destruct (decide (Z.of_nat i < kRows)).
  - by rewrite Hi, buffer_lookup by lia.
  - pose proof (buffer_length v Hv). rewrite !lookupZ_nat, !lookup_ge_None_2; [done|lia|lia].
Qed.

Lemma buffer_empty_line v :
  Z.of_nat (length v) < kRows -> buffer_of (v ++ [[]]) = buffer_of v.
Proof.
  intros Hv. symmetry. apply buffer_eq; [rewrite length_app; simpl; lia|apply buffer_length; lia|].
  intros i Hi. rewrite buffer_lookup by lia. do 2 f_equal. unfold lookupZ. destruct (Z.leb_spec 0 i); [|done].
  destruct (decide (i < Z.of_nat (length v))); [by rewrite lookup_app_l by lia|].
  rewrite (lookup_ge_None_2 v) by lia. rewrite lookup_app_r by lia.
  destruct (Z.to_nat i - length v)%nat; done.
Qed.

(** ** The operations *)
Section on_screen.
Context (width height : Z) (Hwidth : 8 * kColumns <= width) (Hheight : 16 * kRows <= height).
Context (fg bg : PixelColor) (g : Z -> Z -> option PixelColor).

Record console_ok (c : Console) (t : term) : Prop := {
  co_colors : fg_color_ c = fg /\ bg_color_ c = bg;
  co_lines : Forall line_ok (view t);
  co_buffer : buffer_ c = buffer_of (view t);
  co_row : cursor_row_ c = Z.of_nat (length (view t)) - 1;
  co_column : cursor_column_ c = Z.of_nat (length t.2);
  co_screen : shows width height (writer_ c) (page fg bg (view t) g)
}.

Lemma view_length t : 1 <= Z.of_nat (length (view t)) <= kRows.
Proof using Type. unfold view, kRows. rewrite length_app, length_drop. simpl. lia. Qed.

(** The rows move up while their lines are drawn on the cleared page. *)
Lemma move_rows a v w :
  Forall line_ok (a :: v) -> Z.of_nat (length v) = kRows - 1 ->
  shows width height w (page fg bg [] g) ->
  exists buf w', for_range 0 (kRows - 1) (move_row fg) (buffer_of (a :: v), w) = Some (buf, w')
    /\ buf$[kRows - 1 := empty_row] = Some (buffer_of (v ++ [[]]))
    /\ shows width height w' (page fg bg v g).
Proof using Hwidth Hheight.
  intros Hok Hv Hw. apply list.Forall_cons in Hok as [_ Hok].
  destruct (for_range_inv (fun r s => Z.of_nat (length s.1) = kRows
      /\ (forall i, 0 <= i < kRows -> s.1$[i] = Some (pad (default [] ((a :: v)$[if i <? r then i + 1 else i]))))
      /\ shows width height s.2 (page fg bg (take (Z.to_nat r) v) g))
    0 (kRows - 1) (move_row fg) (buffer_of (a :: v), w)) as ([buf w'] & E & Hl & Hb & Hs); [done| | |].
  - split_and!; [apply buffer_length; simpl; lia| |done]. intros i Hi. cbn [fst].
    destruct (Z.ltb_spec i 0); [lia|]. apply buffer_lookup; [simpl; lia|done].
  - intros r [buf w1] Hr (Hl & Hb & Hs). cbn [fst snd] in *. unfold move_row, kRows in *.
    rewrite (Hb (r + 1)) by lia. cbn [mbind option_bind]. destruct (Z.ltb_spec (r + 1) r); [lia|].
    destruct (lookup_lt_is_Some_2 v (Z.to_nat r) ltac:(lia)) as [l El].
    assert ((a :: v)$[r + 1] = Some l) as Ec.
    { unfold lookupZ. destruct (Z.leb_spec 0 (r + 1)); [|lia].
      replace (Z.to_nat (r + 1)) with (S (Z.to_nat r)) by lia. done. }
    rewrite Ec. cbn [default]. rewrite updateZ_in by lia. cbn [mbind option_bind].
    pose proof Hok as Hlk. rewrite Forall_lookup in Hlk. apply Hlk in El as Hlok.
    destruct (pad_zero l Hlok) as [rest Ep]. pose proof Hlok as [Hasc Hlen]. simpl. rewrite Ep.
    destruct (WriteString_spec width height w1 _ 0 (16 * r) l rest fg Hs Hasc) as (w2 & -> & Hw2);
      [done|unfold kColumns in *; lia|lia|lia|unfold kColumns, SYS_MAX_ITER in *; lia|].
    cbn [mbind option_bind]. rewrite <- Ep. eexists. split; [reflexivity|]. cbn [fst snd]. split_and!.
    + by rewrite length_insert.
    + intros i Hi. rewrite lookupZ_insert by lia. case_decide as Di.
      * subst i. destruct (Z.ltb_spec r (r + 1)); [|lia]. by rewrite Ec.
      * rewrite Hb by lia. do 3 f_equal. destruct (Z.ltb_spec i r), (Z.ltb_spec i (r + 1)); lia || done.
    + eapply shows_ext'; [|exact Hw2]. intros x y Hx Hy. replace (Z.to_nat (r + 1)) with (S (Z.to_nat r)) by lia.
      rewrite (take_S_r v _ l El), <- page_snoc; [|rewrite length_take; unfold kRows; lia|done].
      rewrite length_take, Nat.min_l, Z2Nat.id by lia. done.
  - exists buf, w'. cbn [fst snd] in *. split; [done|]. split.
    + rewrite updateZ_in by (unfold kRows in *; lia). f_equal.
      apply buffer_eq; [rewrite length_app; simpl; unfold kRows in *; lia|by rewrite length_insert|].
      intros i Hi. unfold kRows in *. rewrite lookupZ_insert by lia. case_decide as Di.
      * subst i. unfold lookupZ. simpl (0 <=? 55 - 1). cbn match.
        rewrite list_lookup_middle by lia. done.
      * rewrite Hb by lia. destruct (Z.ltb_spec i (55 - 1)); [|lia]. do 3 f_equal. unfold lookupZ.
        destruct (Z.leb_spec 0 i); [|lia]. destruct (Z.leb_spec 0 (i + 1)); [|lia].
        replace (Z.to_nat (i + 1)) with (S (Z.to_nat i)) by lia. simpl. by rewrite lookup_app_l by lia.
    + rewrite firstn_all2 in Hs; [done|]. unfold kRows in *. lia.
Qed.

Lemma view_newline t :
  view (t.1 ++ [t.2], []) = (if Z.of_nat (length (view t)) <? kRows then view t else tail (view t)) ++ [[]].
Proof using Type.
  unfold view, kRows. cbn [fst snd]. rewrite !length_app, length_drop. cbn [length]. f_equal.
  destruct (Z.ltb_spec (Z.of_nat (length t.1 - (length t.1 - 54) + 1)) 55).
  - replace (length t.1 + 1 - 54)%nat with 0%nat by lia. by replace (length t.1 - 54)%nat with 0%nat by lia.
  - replace (length t.1 + 1 - 54)%nat with (S (length t.1 - 54)) by lia.
    destruct (lookup_lt_is_Some_2 t.1 (length t.1 - 54) ltac:(lia)) as [x Hx].
    by rewrite drop_app_le, (drop_S t.1 x _ Hx) by lia.
Qed.

Lemma Newline_ok c t : console_ok c t -> exists c', Newline c = Some c' /\ console_ok c' (t.1 ++ [t.2], []).
Proof using Hwidth Hheight.
  intros [[Hfg Hbg] Hli Hbu Hro Hco Hsc]. pose proof (view_length t) as Hlen. unfold Newline. rewrite Hro.
  pose proof (view_newline t) as Hv.
  assert (H0 : line_ok []) by (split; [constructor|done]).
  destruct (Z.ltb_spec (Z.of_nat (length (view t)) - 1) (kRows - 1)) as [Hlt|Hge].
  - destruct (Z.ltb_spec (Z.of_nat (length (view t))) kRows); [|lia]. eexists. split; [reflexivity|].
    constructor; cbn [fg_color_ bg_color_ buffer_ cursor_row_ cursor_column_ writer_]; rewrite ?Hv; try done.
    + apply list.Forall_app. split; [done|by apply list.Forall_singleton].
    + by rewrite buffer_empty_line.
    + rewrite length_app. simpl. lia.
    + eapply shows_ext'; [|exact Hsc]. intros x y Hx Hy. by rewrite page_empty_line.
  - destruct (Z.ltb_spec (Z.of_nat (length (view t))) kRows); [lia|].
    destruct (view t) as [|a v] eqn:Ev; [simpl in Hlen; lia|]. cbn [tail] in Hv.
    assert (Hl : Z.of_nat (length v) = kRows - 1) by (simpl in *; lia).
    destruct (FillRectangle_spec width height (writer_ c) _ 0 0 (8 * kColumns) (16 * kRows) (bg_color_ c) Hsc)
      as (w1 & E1 & Hw1); [done|done|done|done|done|done|].
    change (clear_screen (writer_ c) (bg_color_ c))
      with (FillRectangle (writer_ c) 0 0 (8 * kColumns) (16 * kRows) (bg_color_ c)).
    rewrite E1. cbn [mbind option_bind].
    rewrite Hbu, Hfg. destruct (move_rows a v w1) as (buf & w2 & -> & E3 & Hw2); [done|done| |].
    { eapply shows_ext'; [|exact Hw1]. intros x y Hx Hy. unfold page. rewrite Hbg.
      destruct (in_box _ _ _ _ _ _); [|done]. unfold lookupZ. by destruct (0 <=? _). }
    cbn [mbind option_bind]. rewrite E3. eexists. split; [reflexivity|].
    constructor; cbn [fg_color_ bg_color_ buffer_ cursor_row_ cursor_column_ writer_]; rewrite ?Hv; try done.
    + apply list.Forall_cons in Hli as [_ Hli]. apply list.Forall_app. split; [done|by apply list.Forall_singleton].
    + rewrite length_app. simpl. lia.
    + eapply shows_ext'; [|exact Hw2]. intros x y Hx Hy. rewrite page_empty_line; [done|]. lia.
Qed.

Lemma put_char_ok c t ch :
  console_ok c t -> ascii ch -> exists c', put_char ch c = Some c' /\ console_ok c' (feed1 t ch).
Proof using Hwidth Hheight.
  intros Hc Ha. unfold put_char, feed1. destruct (Z.eqb_spec ch 10); [by apply Newline_ok|].
  pose proof (view_length t) as Hlen. pose proof Hc as [[Hfg Hbg] Hli Hbu Hro Hco Hsc].
  rewrite Hco. destruct (Z.ltb_spec (Z.of_nat (length t.2)) (kColumns - 1)) as [Hlt|Hge]; [|by exists c].
  set (v := drop (length t.1 - 54) t.1). assert (Ev : view t = v ++ [t.2]) by done.
  assert (Ev' : view (t.1, t.2 ++ [ch]) = v ++ [t.2 ++ [ch]]) by done.
  rewrite Ev, length_app in Hlen, Hro. simpl in Hlen, Hro. rewrite Ev in Hli, Hbu, Hsc.
  apply list.Forall_app in Hli as [Hli Hcur]. rewrite list.Forall_singleton in Hcur.
  assert (Hok' : line_ok (t.2 ++ [ch])).
  { destruct Hcur as [Hx _]. split; [apply list.Forall_app; split; [done|by apply list.Forall_singleton]|].
    rewrite length_app. simpl. lia. }
  assert (Hrow : cursor_row_ c = Z.of_nat (length v)) by lia. rewrite Hrow.
  destruct (WriteAscii_spec width height (writer_ c) _ (8 * Z.of_nat (length t.2)) (16 * Z.of_nat (length v)) ch
    (fg_color_ c) Hsc) as (w' & -> & Hw'); [unfold ascii in Ha; lia|lia|unfold kColumns in *; lia|lia|unfold kRows in *; lia|].
  assert (Hlk : forall l, (v ++ [l])$[Z.of_nat (length v)] = Some l)
    by (intros l; rewrite lookupZ_nat; by apply list_lookup_middle).
  cbn [mbind option_bind]. rewrite Hbu, buffer_lookup, Hlk by (rewrite ?length_app; simpl; lia).
  cbn [mbind option_bind default]. rewrite pad_char by done. cbn [mbind option_bind].
  rewrite updateZ_in by (rewrite buffer_length by (rewrite length_app; simpl; lia); lia). cbn [mbind option_bind].
  eexists. split; [reflexivity|].
  constructor; cbn [fg_color_ bg_color_ buffer_ cursor_row_ cursor_column_ writer_ snd]; rewrite ?Ev'; try done.
  - apply list.Forall_app. split; [done|by apply list.Forall_singleton].
  - apply buffer_eq; [rewrite length_app; simpl; lia|rewrite length_insert; apply buffer_length; rewrite length_app; simpl; lia|].
    intros i Hi. rewrite lookupZ_insert by (rewrite buffer_length by (rewrite length_app; simpl; lia); lia).
    case_decide as Di; [subst i; by rewrite Hlk|]. rewrite buffer_lookup by (rewrite ?length_app; simpl; lia).
    do 2 f_equal. unfold lookupZ. destruct (Z.leb_spec 0 i); [|done].
    destruct (decide (i < Z.of_nat (length v))); [by rewrite !lookup_app_l by lia|].
    by rewrite !lookup_ge_None_2 by (rewrite length_app; simpl; lia).
  - rewrite length_app. simpl. lia.
  - rewrite length_app. simpl. lia.
  - eapply shows_ext'; [|exact Hw']. intros x y Hx Hy. rewrite Hfg. apply page_char; [lia|done|done].
Qed.

Lemma PutString_ok c t str rest :
  console_ok c t -> Forall ascii str -> Z.of_nat (length str) < SYS_MAX_ITER - 1 ->
  exists c', PutString c (str ++ 0 :: rest) = Some c' /\ console_ok c' (feed t str).
Proof using Hwidth Hheight.
  intros Hc Hs Hn. unfold PutString.
  destruct (cstring_loop (fun i c => console_ok c (feed t (take i str))) (fun _ ch c => put_char ch c)
    str rest (Z.to_nat (SYS_MAX_ITER - 1)) c) as (c' & -> & Hc'); [|lia|done| |].
  - eapply list.Forall_impl; [exact Hs|]. unfold ascii. lia.
  - intros i ch c1 Hch H1. rewrite Forall_lookup in Hs. apply Hs in Hch as Ha.
    destruct (put_char_ok c1 _ ch H1 Ha) as (c2 & E2 & H2). exists c2. split; [done|].
    rewrite (take_S_r str i ch Hch). unfold feed. by rewrite foldl_app.
  - exists c'. split; [done|]. by rewrite firstn_all in Hc'.
Qed.


(** A new console on an area of the background colour. *)
Lemma Console_new_ok w :
  shows width height w (page fg bg [] g) -> console_ok (Console_new w fg bg) ([], []).
Proof using Type.
  intros Hw. constructor; try done.
  - apply list.Forall_singleton. split; [constructor|done].
  - eapply shows_ext'; [|exact Hw]. intros x y Hx Hy. symmetry. by apply (page_empty_line fg bg []).
Qed.
End on_screen.
End console.

(** A black screen of 800 by 900 pixels. *)
Definition demo_screen : FrameBufferConfig := mkFB (replicate (Z.to_nat (4 * (800 * 900))) 0) 800 800 900.
Definition black : PixelColor := mkColor 0 0 0.
Definition white : PixelColor := mkColor 255 255 255.

Lemma demo_screen_shows :
  @shows _ RGBResv8BitPerColorPixelWriter 800 900 demo_screen (page white black [] (fun _ _ => Some black)).
Proof.
  assert (Hs : fb_screen demo_screen 800 900).
  { unfold fb_screen. cbn [demo_screen pixels_per_scan_line frame_buffer].
    rewrite length_replicate, Z2Nat.id by lia. lia. }
  split; [done|]. intros x y Hx Hy. cbn [pixel RGBResv8BitPerColorPixelWriter]. unfold RGB_pixel, read3.
  destruct (PixelAt_eq demo_screen 800 900 x y Hs Hx Hy) as (_ & H0 & H1).
  assert (Hz : forall p, 0 <= p < Z.of_nat (length (frame_buffer demo_screen)) -> (frame_buffer demo_screen)$[p] = Some 0).
  { intros p Hp. unfold lookupZ. destruct (Z.leb_spec 0 p); [|lia]. cbn [demo_screen frame_buffer] in *.
    apply lookup_replicate_2. rewrite length_replicate in Hp. lia. }
  rewrite !Hz by lia. cbn [mbind option_bind option_map]. unfold page.
  destruct (in_box _ _ _ _ _ _); [|done]. unfold lookupZ. by destruct (0 <=? _).
Qed.


(** A character above 127 is a negative [char], for which [GetFont] returns a null
    pointer; [WriteAscii] reads from it. *)
Lemma negative_char_faults w x y color :
  @WriteAscii _ RGBResv8BitPerColorPixelWriter w x y (-1) color = None.
Proof. reflexivity. Qed.
