(* ===== verification/Mouse64.v ===== *)
(** * The mouse cursor of the 64-bit kernel, src/src/mouse.cpp *)
From Stdlib Require Import ZArith Lia String Ascii.
From stdpp Require Import base option list numbers.
From S2P Require Import Prelude Graphics64.

Set Default Proof Using "Type".
#[local] Open Scope Z_scope.

Definition kMouseCursorWidth : Z := 15.
Definition kMouseCursorHeight : Z := 24.
Definition mouse_cursor_shape : list string := [
    "@              ";
    "@@             ";
    "@.@            ";
    "@..@           ";
    "@...@          ";
    "@....@         ";
    "@.....@        ";
    "@......@       ";
    "@.......@      ";
    "@........@     ";
    "@.........@    ";
    "@..........@   ";
    "@...........@  ";
    "@............@ ";
    "@......@@@@@@@@";
    "@......@       ";
    "@....@@.@      ";
    "@...@ @.@      ";
    "@..@   @.@     ";
    "@.@    @.@     ";
    "@@      @.@    ";
    "@       @.@    ";
    "         @.@   ";
    "         @@@   "]%string.

Definition shape_at (dy dx : Z) : option Ascii.ascii :=
  row ← mouse_cursor_shape$[dy];
  if 0 <=? dx then String.get (Z.to_nat dx) row else None.

Definition c_at : Ascii.ascii := "@"%char.
Definition c_dot : Ascii.ascii := "."%char.
Definition c_space : Ascii.ascii := " "%char.

Section mouse.
Context {W : Type} `{!PixelWriter W}.

Record MouseCursor := mkMouse { mc_writer : W; erase_color_ : PixelColor; pos_x : Z; pos_y : Z }.

Definition DrawMouseCursor (w : W) (px py : Z) : option W :=
  for_range 0 kMouseCursorHeight (fun dy w =>
    for_range 0 kMouseCursorWidth (fun dx w =>
      ch ← shape_at dy dx;
      if Ascii.eqb ch c_at then Write w (px + dx) (py + dy) (mkColor 0 0 0)
      else if Ascii.eqb ch c_dot then Write w (px + dx) (py + dy) (mkColor 255 255 255)
      else Some w) w) w.

Definition EraseMouseCursor (w : W) (px py : Z) (erase_color : PixelColor) : option W :=
  for_range 0 kMouseCursorHeight (fun dy w =>
    for_range 0 kMouseCursorWidth (fun dx w =>
      ch ← shape_at dy dx;
      if negb (Ascii.eqb ch c_space) then Write w (px + dx) (py + dy) erase_color else Some w) w) w.

Definition MouseCursor_new (w : W) (erase_color : PixelColor) (px py : Z) : option MouseCursor :=
  w ← DrawMouseCursor w px py; Some (mkMouse w erase_color px py).

Definition MoveRelative (m : MouseCursor) (dx dy : Z) : option MouseCursor :=
  w ← EraseMouseCursor (mc_writer m) (pos_x m) (pos_y m) (erase_color_ m);
  let px := pos_x m + dx in
  let py := pos_y m + dy in
  w ← DrawMouseCursor w px py;
  Some (mkMouse w (erase_color_ m) px py).

(** ** What is drawn *)
Definition cursor_color (dx dy : Z) : option PixelColor :=
  match shape_at dy dx with
  | Some ch => if Ascii.eqb ch c_at then Some (mkColor 0 0 0)
               else if Ascii.eqb ch c_dot then Some (mkColor 255 255 255) else None
  | None => None
  end.

(** The shape has only these three characters. *)
Definition shape_cell (dy dx : Z) : bool :=
  match shape_at dy dx with
  | Some ch => Ascii.eqb ch c_at || Ascii.eqb ch c_dot || Ascii.eqb ch c_space
  | None => false
  end.

Lemma shape_complete dx dy :
  0 <= dy < kMouseCursorHeight -> 0 <= dx < kMouseCursorWidth -> shape_cell dy dx = true.
Proof.
  intros Hy Hx.
  assert (H : forallb (fun y => forallb (fun x => shape_cell (Z.of_nat y) (Z.of_nat x)) (seq 0 15)) (seq 0 24) = true)
    by (vm_compute; reflexivity).
  rewrite List.forallb_forall in H. unfold kMouseCursorHeight, kMouseCursorWidth in *.
  specialize (H (Z.to_nat dy)). rewrite List.forallb_forall in H.
  rewrite <- (Z2Nat.id dy), <- (Z2Nat.id dx) by lia.
  apply H; apply List.in_seq; lia.
Qed.

Lemma Draw_paint w px py :
  DrawMouseCursor w px py = paint w px py kMouseCursorWidth kMouseCursorHeight cursor_color.
Proof.
  unfold DrawMouseCursor, paint. apply for_loop_ext. intros dy w1 Hdy. apply for_loop_ext. intros dx w2 Hdx.
  assert (Hc : shape_cell dy dx = true)
    by (apply shape_complete; unfold kMouseCursorHeight, kMouseCursorWidth in *; lia).
  unfold shape_cell, cursor_color in *. destruct (shape_at dy dx) as [ch|]; [|done]. cbn [mbind option_bind]. by destruct (Ascii.eqb ch c_at), (Ascii.eqb ch c_dot).
Qed.

Lemma Erase_paint w px py e :
  EraseMouseCursor w px py e
  = paint w px py kMouseCursorWidth kMouseCursorHeight
      (fun dx dy => match cursor_color dx dy with Some _ => Some e | None => None end).
Proof.
  unfold EraseMouseCursor, paint. apply for_loop_ext. intros dy w1 Hdy. apply for_loop_ext. intros dx w2 Hdx.
  assert (Hc : shape_cell dy dx = true)
    by (apply shape_complete; unfold kMouseCursorHeight, kMouseCursorWidth in *; lia).
  unfold shape_cell, cursor_color in *. destruct (shape_at dy dx) as [ch|]; [|done]. cbn [mbind option_bind].
  destruct (Ascii.eqb ch c_at) eqn:E1; [apply Ascii.eqb_eq in E1 as ->; done|].
  destruct (Ascii.eqb ch c_dot) eqn:E2; [apply Ascii.eqb_eq in E2 as ->; done|].
  simpl in Hc. by rewrite Hc.
Qed.

(** ** Moves *)
Section on_screen.
Context (width height : Z).

Definition inside (px py : Z) : Prop :=
  0 <= px /\ px + kMouseCursorWidth <= width /\ 0 <= py /\ py + kMouseCursorHeight <= height.

(** The cursor over the picture [g]. *)
Definition cursor_over (px py : Z) (g : Z -> Z -> option PixelColor) : Z -> Z -> option PixelColor :=
  painted px py kMouseCursorWidth kMouseCursorHeight cursor_color g.

Fixpoint moves (m : MouseCursor) (ds : list (Z * Z)) : option MouseCursor :=
  match ds with
  | [] => Some m
  | (dx, dy) :: ds => m ← MoveRelative m dx dy; moves m ds
  end.

Fixpoint path_inside (px py : Z) (ds : list (Z * Z)) : Prop :=
  inside px py /\ match ds with [] => True | (dx, dy) :: ds => path_inside (px + dx) (py + dy) ds end.

Definition total (f : Z * Z -> Z) (ds : list (Z * Z)) : Z := foldr (fun d a => f d + a) 0 ds.

Lemma MoveRelative_spec m dx dy :
  let e := erase_color_ m in
  shows width height (mc_writer m) (cursor_over (pos_x m) (pos_y m) (fun _ _ => Some e)) ->
  inside (pos_x m) (pos_y m) -> inside (pos_x m + dx) (pos_y m + dy) ->
  exists w', MoveRelative m dx dy = Some (mkMouse w' e (pos_x m + dx) (pos_y m + dy))
    /\ shows width height w' (cursor_over (pos_x m + dx) (pos_y m + dy) (fun _ _ => Some e)).
Proof.
  intros e Hs (H1 & H2 & H3 & H4) (G1 & G2 & G3 & G4). unfold MoveRelative. rewrite Erase_paint. fold e.
  destruct (paint_spec width height (mc_writer m) _ (pos_x m) (pos_y m) kMouseCursorWidth kMouseCursorHeight
    (fun dx dy => match cursor_color dx dy with Some _ => Some e | None => None end) Hs) as (w1 & -> & Hw1); [done..|].
  cbn [mbind option_bind]. rewrite Draw_paint.
  assert (Hw1' : shows width height w1 (fun _ _ => Some e)).
  { eapply shows_ext'; [|exact Hw1]. intros x y Hx Hy. unfold cursor_over, painted.
    destruct (in_box _ _ _ _ _ _); [|done]. by destruct (cursor_color _ _). }
  destruct (paint_spec width height w1 _ (pos_x m + dx) (pos_y m + dy) kMouseCursorWidth kMouseCursorHeight
    cursor_color Hw1') as (w2 & -> & Hw2); [done..|]. by exists w2.
Qed.

(** On a desktop of the erase colour the cursor leaves no trace: after any moves
    that keep it on the screen, the screen shows the desktop and the cursor at the
    sum of the displacements. *)
Lemma mouse_leaves_no_trace m ds :
  let e := erase_color_ m in
  shows width height (mc_writer m) (cursor_over (pos_x m) (pos_y m) (fun _ _ => Some e)) ->
  path_inside (pos_x m) (pos_y m) ds ->
  exists m', moves m ds = Some m'
    /\ pos_x m' = pos_x m + total fst ds /\ pos_y m' = pos_y m + total snd ds
    /\ shows width height (mc_writer m') (cursor_over (pos_x m') (pos_y m') (fun _ _ => Some e)).
Proof.
  revert m. induction ds as [|[dx dy] ds IH]; intros m e Hs Hp; cbn [moves total foldr].
  { exists m. split_and!; [done|lia|lia|done]. }
  destruct Hp as [Hi Hp]. destruct (MoveRelative_spec m dx dy Hs Hi) as (w' & -> & Hw').
  { destruct ds as [|[? ?] ds]; apply Hp. }
  cbn [mbind option_bind]. destruct (IH (mkMouse w' e (pos_x m + dx) (pos_y m + dy)) Hw' Hp)
    as (m' & E & Ex & Ey & Hm'). exists m'. cbn [pos_x pos_y fst snd] in *. split_and!; [done|unfold total in *; lia..|done].
Qed.
End on_screen.
End mouse.
