(* ===== verification/Pci.v ===== *)
(** * The PCI bus, src/src/pci.cpp

    Configuration registers are read and written through two ports: the first
    takes the address of a register, the second its value.  The registers are a
    function from addresses; what a write does to them is up to the device, a
    parameter.  The scan records at most 32 devices, and that is what makes its
    recursion through bridges end. *)
From Stdlib Require Import ZArith Lia.
From stdpp Require Import base option list numbers.
From S2P Require Import Prelude Error Bits.

Set Default Proof Using "Type".

Record ClassCode := mkClass { cc_base : Z; cc_sub : Z; cc_interface : Z }.
Definition Match1 (c : ClassCode) (b : Z) : bool := b =? cc_base c.
Definition Match2 (c : ClassCode) (b s : Z) : bool := Match1 c b && (s =? cc_sub c).
Definition Match3 (c : ClassCode) (b s i : Z) : bool := Match2 c b s && (i =? cc_interface c).

Record Device := mkDevice {
  dv_bus : Z; dv_device : Z; dv_function : Z; dv_header_type : Z; dv_class_code : ClassCode
}.

(** The ports and registers, and the list of devices of src/src/pci.hpp. *)
Record pci := mkPci {
  latch : Z;            (** what was last written to CONFIG_ADDRESS *)
  conf : Z -> Z;        (** the configuration registers *)
  devices : list Device;
  num_device : Z
}.
Definition kMaxDevices : Z := 32.

Definition set_latch (s : pci) (a : Z) : pci := mkPci a (conf s) (devices s) (num_device s).
Definition set_conf (s : pci) (f : Z -> Z) : pci := mkPci (latch s) f (devices s) (num_device s).
Definition set_devices (s : pci) (l : list Device) (n : Z) : pci := mkPci (latch s) (conf s) l n.

Definition MakeAddress (bus device function reg_addr : Z) : Z :=
  let shl x bits := u32 (Z.shiftl x bits) in
  Z.lor (Z.lor (Z.lor (Z.lor (shl 1 31) (shl bus 16)) (shl device 11)) (shl function 8)) (Z.land reg_addr 0xfc).

(** ** Registers *)
Definition WriteAddress (a : Z) (s : pci) : pci := set_latch s a.
Definition ReadData (s : pci) : Z := conf s (latch s).

Definition read_reg (bus device function reg : Z) (s : pci) : Z * pci :=
  let s := WriteAddress (MakeAddress bus device function reg) s in (ReadData s, s).

Definition ReadVendorId (bus device function : Z) (s : pci) : Z * pci :=
  let '(d, s) := read_reg bus device function 0x00 s in (Z.land d 0xffff, s).
Definition ReadDeviceId (bus device function : Z) (s : pci) : Z * pci :=
  let '(d, s) := read_reg bus device function 0x00 s in (Z.shiftr d 16, s).
Definition ReadHeaderType (bus device function : Z) (s : pci) : Z * pci :=
  let '(d, s) := read_reg bus device function 0x0c s in (Z.land (Z.shiftr d 16) 0xff, s).
Definition ReadClassCode (bus device function : Z) (s : pci) : ClassCode * pci :=
  let '(reg, s) := read_reg bus device function 0x08 s in
  (mkClass (Z.land (Z.shiftr reg 24) 0xff) (Z.land (Z.shiftr reg 16) 0xff) (Z.land (Z.shiftr reg 8) 0xff), s).
Definition ReadBusNumbers (bus device function : Z) (s : pci) : Z * pci := read_reg bus device function 0x18 s.
Definition IsSingleFunctionDevice (header_type : Z) : bool := Z.land header_type 0x80 =? 0.

(** ** The scan *)
Definition AddDevice (d : Device) (s : pci) : option (Code * pci) :=
  if num_device s =? kMaxDevices then Some (kFull, s)
  else
    l ← (devices s)$[num_device s := d];
    Some (kSuccess, set_devices s l (num_device s + 1)).

Section scan_function.
Context (ScanBus : Z -> pci -> option (Code * pci)).

Definition ScanFunction (bus device function : Z) (s : pci) : option (Code * pci) :=
  let '(class_code, s) := ReadClassCode bus device function s in
  let '(header_type, s) := ReadHeaderType bus device function s in
  '(err, s) ← AddDevice (mkDevice bus device function header_type class_code) s;
  if is_error err then Some (err, s)
  else if Match2 class_code 0x06 0x04 then
    let '(bus_numbers, s) := ReadBusNumbers bus device function s in
    let secondary_bus := Z.land (Z.shiftr bus_numbers 8) 0xff in
    ScanBus secondary_bus s
  else Some (kSuccess, s).

(** A loop that scans what exists and returns at the first error. *)
Definition scan_loop (n : nat) (lo : Z) (vendor : Z -> pci -> Z * pci) (scan : Z -> pci -> option (Code * pci))
    (s : pci) : option (Code * pci) :=
  r ← loop_until n lo (fun i s =>
        let '(v, s) := vendor i s in
        if v =? 0xffff then Some (Continue s)
        else
          '(err, s) ← scan i s;
          Some (if is_error err then Return s err else Continue s)) s;
  Some (match r with Return s err => (err, s) | Continue s | Break s => (kSuccess, s) end).

Definition ScanDevice (bus device : Z) (s : pci) : option (Code * pci) :=
  '(err, s) ← ScanFunction bus device 0 s;
  if is_error err then Some (err, s)
  else
    let '(header_type, s) := ReadHeaderType bus device 0 s in
    if IsSingleFunctionDevice header_type then Some (kSuccess, s)
    else scan_loop 7 1 (fun function => ReadVendorId bus device function) (ScanFunction bus device) s.
End scan_function.

(** [ScanBus] and [ScanFunction] call each other; the fuel is the depth. *)
Fixpoint ScanBus (fuel : nat) (bus : Z) (s : pci) : option (Code * pci) :=
  match fuel with
  | O => None
  | S fuel =>
      scan_loop 32 0 (fun device => ReadVendorId bus device 0) (ScanDevice (ScanBus fuel) bus) s
  end.

Definition scan_fuel : nat := 33.

Definition ScanAllBus (s : pci) : option (Code * pci) :=
  let s := set_devices s (devices s) 0 in
  let '(header_type, s) := ReadHeaderType 0 0 0 s in
  if IsSingleFunctionDevice header_type then ScanBus scan_fuel 0 s
  else scan_loop 8 0 (fun function => ReadVendorId 0 0 function) (ScanBus scan_fuel) s.

(** ** What the scan should find *)
Section spec.
Context (cf : Z -> Z).

Definition reg_of (b d f reg : Z) : Z := cf (MakeAddress b d f reg).
Definition present (b d f : Z) : Prop := Z.land (reg_of b d f 0x00) 0xffff <> 0xffff.
Definition header_of (b d f : Z) : Z := Z.land (Z.shiftr (reg_of b d f 0x0c) 16) 0xff.
Definition class_of (b d f : Z) : ClassCode :=
  let r := reg_of b d f 0x08 in
  mkClass (Z.land (Z.shiftr r 24) 0xff) (Z.land (Z.shiftr r 16) 0xff) (Z.land (Z.shiftr r 8) 0xff).
Definition device_of (b d f : Z) : Device := mkDevice b d f (header_of b d f) (class_of b d f).
Definition is_bridge (b d f : Z) : bool := Match2 (class_of b d f) 0x06 0x04.
Definition secondary (b d f : Z) : Z := Z.land (Z.shiftr (reg_of b d f 0x18) 8) 0xff.

(** The functions of a bus: function 0 of each device, and the others of devices
    that say they have more. *)
Definition on_bus (b d f : Z) : Prop :=
  0 <= d < 32 /\ present b d 0
  /\ (f = 0 \/ 1 <= f < 8 /\ IsSingleFunctionDevice (header_of b d 0) = false /\ present b d f).

Definition root_bus (b : Z) : Prop :=
  if IsSingleFunctionDevice (header_of 0 0 0) then b = 0 else 0 <= b < 8 /\ present 0 0 b.

(** The buses that bridges lead to. *)
Inductive reachable : Z -> Prop :=
| reach_root b : root_bus b -> reachable b
| reach_bridge b d f : reachable b -> on_bus b d f -> is_bridge b d f = true -> reachable (secondary b d f).
End spec.

(** ** The scan against it *)
Section correctness.
Context (cf : Z -> Z).

Definition found (s : pci) : list Device := take (Z.to_nat (num_device s)) (devices s).

Record pci_ok (s : pci) : Prop := {
  po_conf : conf s = cf;
  po_len : Z.of_nat (length (devices s)) = kMaxDevices;
  po_num : 0 <= num_device s <= kMaxDevices
}.

Definition sound (d : Device) : Prop :=
  exists b dd f, d = device_of cf b dd f /\ reachable cf b /\ on_bus cf b dd f.
Definition bus_done (devs : list Device) (b : Z) : Prop :=
  forall d f, on_bus cf b d f -> device_of cf b d f ∈ devs.

(** What a call may do: it appends devices that are there, and when it succeeds,
    the buses behind the bridges among them are done. *)
Record extends (s : pci) (c : Code) (s' : pci) : Prop := {
  ex_ok : pci_ok s';
  ex_code : c = kSuccess \/ c = kFull /\ num_device s' = kMaxDevices;
  ex_new : exists new, found s' = found s ++ new /\ Forall sound new
    /\ (c = kSuccess -> forall b d f, device_of cf b d f ∈ new -> is_bridge cf b d f = true ->
        bus_done (found s') (secondary cf b d f))
}.

Lemma found_length s : pci_ok s -> Z.of_nat (length (found s)) = num_device s.
Proof. intros [_ Hl Hn]. unfold found. rewrite length_take. lia. Qed.

Lemma bus_done_mono devs devs' b : bus_done devs b -> bus_done (devs ++ devs') b.
Proof. intros H d f Hf. apply elem_of_app. left. by apply H. Qed.

Lemma extends_refl s : pci_ok s -> extends s kSuccess s.
Proof.
  intros Hok. constructor; [done|by left|]. exists []. rewrite app_nil_r. split_and!; [done|constructor|].
  intros _ b d f Hd. by apply elem_of_nil in Hd.
Qed.

Lemma extends_latch s c s' a : extends s c s' -> extends s c (set_latch s' a).
Proof. intros [[H1 H2 H3] Hc Hn]. by constructor. Qed.

Lemma extends_from_latch s c s' a : extends (set_latch s a) c s' -> extends s c s'.
Proof. intros [H1 Hc Hn]. by constructor. Qed.

Lemma extends_trans s s1 c s2 : extends s kSuccess s1 -> extends s1 c s2 -> extends s c s2.
Proof.
  intros [Hok1 _ (n1 & E1 & Hs1 & Hb1)] [Hok2 Hc2 (n2 & E2 & Hs2 & Hb2)]. constructor; [done|done|].
  exists (n1 ++ n2). rewrite E2, E1, app_assoc. split_and!; [done|by apply list.Forall_app|].
  intros -> b d f [Hd|Hd]%elem_of_app Hbr.
  - rewrite <- E1. apply bus_done_mono. by apply Hb1.
  - rewrite <- E1, <- E2. by apply Hb2.
Qed.

Lemma extends_num s c s' : pci_ok s -> extends s c s' -> num_device s <= num_device s'.
Proof.
  intros Hok [Hok' _ (n & E & _)]. rewrite <- (found_length s Hok), <- (found_length s' Hok'), E, length_app. lia.
Qed.

Lemma device_inj b d f b' d' f' : device_of cf b d f = device_of cf b' d' f' -> b = b' /\ d = d' /\ f = f'.
Proof. unfold device_of. intros E. by injection E as -> -> -> _ _. Qed.

(** *** One function *)
Lemma AddDevice_ok s b d f :
  pci_ok s -> reachable cf b -> on_bus cf b d f ->
  exists c s', AddDevice (device_of cf b d f) s = Some (c, s')
    /\ ((c = kFull /\ extends s kFull s')
        \/ (c = kSuccess /\ num_device s' = num_device s + 1 /\ pci_ok s'
            /\ found s' = found s ++ [device_of cf b d f])).
Proof.
  intros Hok Hr Hb. pose proof Hok as [Hc Hl Hn]. unfold AddDevice, kMaxDevices in *.
  destruct (Z.eqb_spec (num_device s) 32) as [E|E].
  - exists kFull, s. split; [done|]. left. split; [done|]. constructor; [done|by right|].
    exists []. rewrite app_nil_r. by split_and!.
  - rewrite updateZ_in by lia. cbn [mbind option_bind]. eexists _, _. split; [reflexivity|]. right.
    split_and!; [done|done| |].
    + constructor; unfold kMaxDevices; cbn [conf devices num_device set_devices]; [done|by rewrite length_insert|lia].
    + unfold found. cbn [devices num_device set_devices].
      replace (Z.to_nat (num_device s + 1)) with (S (Z.to_nat (num_device s))) by lia.
      rewrite (take_S_r _ _ (device_of cf b d f)) by (apply list_lookup_insert_eq; lia).
      by rewrite take_insert_ge by lia.
Qed.

(** *** Loops *)
Definition loop_body (vendor : Z -> pci -> Z * pci) (scan : Z -> pci -> option (Code * pci)) (i : Z) (s : pci)
  : option (step pci Code) :=
  let '(v, s) := vendor i s in
  if v =? 0xffff then Some (Continue s)
  else
    '(err, s) ← scan i s;
    Some (if is_error err then Return s err else Continue s).

Lemma scan_loop_eq n lo vendor scan s :
  scan_loop n lo vendor scan s
  = (r ← loop_until n lo (loop_body vendor scan) s;
     Some (match r with Return s err => (err, s) | Continue s | Break s => (kSuccess, s) end)).
Proof. reflexivity. Qed.

Section loops.
Context (vid addr : Z -> Z) (vendor : Z -> pci -> Z * pci) (scan : Z -> pci -> option (Code * pci)).
Context (P : Z -> list Device -> Prop) (k lo hi : Z).
Context (Hvendor : forall i s, pci_ok s -> vendor i s = (vid i, set_latch s (addr i))).
Context (Hmono : forall i l l', P i l -> P i (l ++ l')).
Context (Hscan : forall i s, pci_ok s -> lo <= i < hi -> k <= num_device s -> vid i <> 0xffff ->
  exists c s', scan i s = Some (c, s') /\ extends s c s' /\ (c = kSuccess -> P i (found s'))).

Lemma loop_body_eq i s :
  pci_ok s ->
  loop_body vendor scan i s
  = if vid i =? 0xffff then Some (Continue (set_latch s (addr i)))
    else '(err, s) ← scan i (set_latch s (addr i)); Some (if is_error err then Return s err else Continue s).
Proof using Hvendor. intros Hok. unfold loop_body. by rewrite Hvendor. Qed.

Lemma scan_loop_ok n j s :
  lo <= j -> j + Z.of_nat n = hi -> pci_ok s -> k <= num_device s ->
  exists c s', scan_loop n j vendor scan s = Some (c, s') /\ extends s c s'
    /\ (c = kSuccess -> forall i, j <= i < hi -> vid i <> 0xffff -> P i (found s')).
Proof using Hvendor Hmono Hscan.
  revert j s. induction n as [|n IH]; intros j s Hj Hn Hok Hk; rewrite scan_loop_eq; cbn [loop_until].
  { exists kSuccess, s. split; [done|]. split; [by apply extends_refl|]. intros _ i Hi. lia. }
  rewrite (loop_body_eq j s Hok).
  assert (Hok1 : pci_ok (set_latch s (addr j))) by (destruct Hok; by constructor).
  destruct (Z.eqb_spec (vid j) 0xffff) as [E|E].
  - cbn [mbind option_bind]. destruct (IH (j + 1) (set_latch s (addr j))) as (c & s' & E' & He & HP); [lia|lia|done|done|].
    exists c, s'. rewrite scan_loop_eq in E'. split; [done|]. split; [by eapply extends_from_latch|].
    intros Hc i Hi Hv. apply HP; [done| |done]. assert (i <> j) by (intros ->; done). lia.
  - destruct (Hscan j (set_latch s (addr j))) as (c & s1 & -> & He & HP); [done|lia|done|done|].
    cbn [mbind option_bind]. apply extends_from_latch in He.
    destruct (ex_code _ _ _ He) as [->|[-> Hfull]].
    + change (is_error kSuccess) with false. cbn match.
      pose proof (extends_num _ _ _ Hok He) as Hnum.
      destruct (IH (j + 1) s1) as (c & s2 & E2 & He2 & HP2); [lia|lia|by apply He|lia|].
      exists c, s2. rewrite scan_loop_eq in E2. split; [done|]. split; [by eapply extends_trans|].
      intros Hc i Hi Hv. destruct (decide (i = j)) as [->|]; [|apply HP2; [done|lia|done]].
      destruct (ex_new _ _ _ He2) as (new & -> & _). apply Hmono. by apply HP.
    + exists kFull, s1. split; [done|]. split; [done|done].
Qed.
End loops.

Section with_bus.
Context (scan_bus : Z -> pci -> option (Code * pci)) (k : Z).
Context (Hbus : forall b s, pci_ok s -> reachable cf b -> k + 1 <= num_device s ->
  exists c s', scan_bus b s = Some (c, s') /\ extends s c s' /\ (c = kSuccess -> bus_done (found s') b)).

Lemma ScanFunction_ok b d f s :
  pci_ok s -> reachable cf b -> on_bus cf b d f -> k <= num_device s ->
  exists c s', ScanFunction scan_bus b d f s = Some (c, s') /\ extends s c s'
    /\ (c = kSuccess -> device_of cf b d f ∈ found s').
Proof using Hbus.
  intros Hok Hr Hb Hk. unfold ScanFunction, ReadClassCode, ReadHeaderType, read_reg, WriteAddress, ReadData.
  cbn [latch conf set_latch]. rewrite (po_conf s Hok).
  set (s1 := set_latch (set_latch s _) _). assert (Hok1 : pci_ok s1) by (destruct Hok; by constructor).
  change (mkDevice b d f _ _) with (device_of cf b d f).
  destruct (AddDevice_ok s1 b d f Hok1 Hr Hb) as (c & s2 & -> & [[-> He]|(-> & Hn2 & Hok2 & Hf2)]).
  { exists kFull, s2. split; [done|]. split; [|done]. destruct He as [H1 H2 H3]. by constructor. }
  cbn [mbind option_bind]. change (is_error kSuccess) with false. cbn match.
  assert (Hsound : sound (device_of cf b d f)) by (by exists b, d, f).
  assert (Hin : device_of cf b d f ∈ found s2) by (rewrite Hf2; apply elem_of_app; right; by apply list_elem_of_singleton).
  change (Match2 _ 0x06 0x04) with (is_bridge cf b d f). destruct (is_bridge cf b d f) eqn:Ebr.
  - unfold ReadBusNumbers, read_reg, WriteAddress, ReadData. cbn [latch conf set_latch].
    rewrite (po_conf s2 Hok2). change (Z.land (Z.shiftr _ 8) 0xff) with (secondary cf b d f).
    set (s3 := set_latch s2 _). assert (Hok3 : pci_ok s3) by (destruct Hok2; by constructor).
    destruct (Hbus (secondary cf b d f) s3) as (c & s4 & E & He & Hd);
      [done|by apply (reach_bridge cf b d f)| |].
    { change (num_device s3) with (num_device s2). change (num_device s1) with (num_device s) in Hn2. lia. }
    exists c, s4. split; [done|]. destruct He as [Hok4 Hc4 (n & En & Hsn & Hbn)].
    change (found s3) with (found s2) in En. split.
    + constructor; [done|done|]. exists ([device_of cf b d f] ++ n). rewrite En, Hf2, app_assoc.
      split_and!; [done|apply list.Forall_app; split; [by apply list.Forall_singleton|done]|].
      intros Hc b' d' f' [Hx|Hx]%elem_of_app Hbr'.
      * apply list_elem_of_singleton, device_inj in Hx as (-> & -> & ->). rewrite <- Hf2, <- En. by apply Hd.
      * rewrite <- Hf2, <- En. by apply Hbn.
    + intros _. rewrite En. apply elem_of_app. by left.
  - exists kSuccess, s2. split; [done|]. split; [|done]. constructor; [done|by left|].
    exists [device_of cf b d f]. split_and!; [done|by apply list.Forall_singleton|].
    intros _ b' d' f' Hx Hbr'. apply list_elem_of_singleton, device_inj in Hx as (-> & -> & ->). congruence.
Qed.

Lemma vendor_eq b d f s :
  pci_ok s -> ReadVendorId b d f s = (Z.land (reg_of cf b d f 0x00) 0xffff, set_latch s (MakeAddress b d f 0x00)).
Proof using Type. intros [Hc _ _]. unfold ReadVendorId, read_reg, ReadData, WriteAddress. cbn. by rewrite Hc. Qed.

Lemma ScanDevice_ok b d s :
  pci_ok s -> reachable cf b -> 0 <= d < 32 -> present cf b d 0 -> k <= num_device s ->
  exists c s', ScanDevice scan_bus b d s = Some (c, s') /\ extends s c s'
    /\ (c = kSuccess -> forall f, on_bus cf b d f -> device_of cf b d f ∈ found s').
Proof using Hbus.
  intros Hok Hr Hd Hp Hk. unfold ScanDevice.
  assert (H0 : on_bus cf b d 0) by (split; [done|split; [done|by left]]).
  destruct (ScanFunction_ok b d 0 s Hok Hr H0 Hk) as (c & s1 & -> & He & Hin). cbn [mbind option_bind].
  destruct (ex_code _ _ _ He) as [->|[-> Hfull]].
  2:{ exists kFull, s1. split; [done|]. by split. }
  change (is_error kSuccess) with false. cbn match. specialize (Hin eq_refl).
  pose proof (extends_num _ _ _ Hok He) as Hnum. pose proof (ex_ok _ _ _ He) as Hok1.
  unfold ReadHeaderType, read_reg, WriteAddress, ReadData. cbn [latch conf set_latch]. rewrite (po_conf s1 Hok1).
  change (Z.land (Z.shiftr _ 16) 0xff) with (header_of cf b d 0).
  set (s2 := set_latch s1 _). assert (Hok2 : pci_ok s2) by (destruct Hok1; by constructor).
  assert (He2 : extends s kSuccess s2) by (by apply extends_latch).
  destruct (IsSingleFunctionDevice (header_of cf b d 0)) eqn:Es.
  - exists kSuccess, s2. split; [done|]. split; [done|].
    intros _ f (_ & _ & [->|(_ & Hx & _)]); [exact Hin|congruence].
  - destruct (scan_loop_ok (fun f => Z.land (reg_of cf b d f 0x00) 0xffff) (fun f => MakeAddress b d f 0x00)
      (fun f => ReadVendorId b d f) (ScanFunction scan_bus b d)
      (fun f l => device_of cf b d f ∈ l) k 1 8) with (n := 7%nat) (j := 1) (s := s2)
      as (c & s3 & E & He3 & HP); [| | |lia|lia|done|unfold s2; cbn; lia|].
    + intros f s3 Hok3. by apply vendor_eq.
    + intros f l l' Hx. apply elem_of_app. by left.
    + intros f s3 Hok3 Hf Hk3 Hv. apply ScanFunction_ok; [done|done| |done].
      split; [done|]. split; [done|]. right. by split.
    + exists c, s3. split; [done|]. split; [by eapply extends_trans|].
      intros Hc f (_ & _ & [->|(Hf & _ & Hv)]); [|by apply HP].
      destruct (ex_new _ _ _ He3) as (new & -> & _). apply elem_of_app. by left.
Qed.
End with_bus.

Lemma ScanBus_ok fuel b s :
  pci_ok s -> reachable cf b -> kMaxDevices + 1 - num_device s <= Z.of_nat fuel ->
  exists c s', ScanBus fuel b s = Some (c, s') /\ extends s c s' /\ (c = kSuccess -> bus_done (found s') b).
Proof.
  revert b s. induction fuel as [|fuel IH]; intros b s Hok Hr Hfu; [destruct Hok; lia|]. cbn [ScanBus].
  destruct (scan_loop_ok (fun d => Z.land (reg_of cf b d 0 0x00) 0xffff) (fun d => MakeAddress b d 0 0x00)
    (fun d => ReadVendorId b d 0) (ScanDevice (ScanBus fuel) b)
    (fun d l => forall f, on_bus cf b d f -> device_of cf b d f ∈ l) (num_device s) 0 32)
    with (n := 32%nat) (j := 0) (s := s) as (c & s' & E & He & HP); [| | |lia|lia|done|lia|].
  - intros d s1 Hok1. by apply vendor_eq.
  - intros d l l' Hx f Hf. apply elem_of_app. left. by apply Hx.
  - intros d s1 Hok1 Hd Hk Hv. eapply (ScanDevice_ok (ScanBus fuel) (num_device s)); [|done..].
    intros b' s2 Hok2 Hr2 Hk2. apply IH; [done|done|lia].
  - exists c, s'. split; [done|]. split; [done|]. intros Hc d f Hf. apply HP; [done|apply Hf|apply Hf|done].
Qed.
End correctness.

(** The scan from the root buses: all of them are done when it succeeds. *)
Lemma ScanAllBus_ok s :
  Z.of_nat (length (devices s)) = kMaxDevices ->
  let cf := conf s in
  exists c s0 s', ScanAllBus s = Some (c, s') /\ found s0 = [] /\ extends cf s0 c s'
    /\ (c = kSuccess -> forall b, root_bus cf b -> bus_done cf (found s') b).
Proof.
  intros Hl. unfold ScanAllBus. set (cf := conf s).
  unfold ReadHeaderType, read_reg, WriteAddress, ReadData. cbn [latch conf set_latch set_devices].
  change (Z.land (Z.shiftr _ 16) 0xff) with (header_of cf 0 0 0).
  set (s0 := set_latch _ _). assert (Hok : pci_ok cf s0) by (constructor; done).
  destruct (IsSingleFunctionDevice (header_of cf 0 0 0)) eqn:Es.
  - destruct (ScanBus_ok cf scan_fuel 0 s0 Hok) as (c & s' & -> & He & Hd);
      [apply reach_root; unfold root_bus; by rewrite Es|done|]. exists c, s0, s'. split_and!; [done..|].
    unfold root_bus. rewrite Es. intros Hc b ->. by apply Hd.
  - destruct (scan_loop_ok cf (fun f => Z.land (reg_of cf 0 0 f 0x00) 0xffff) (fun f => MakeAddress 0 0 f 0x00)
      (fun f => ReadVendorId 0 0 f) (ScanBus scan_fuel) (fun b l => bus_done cf l b) 0 0 8)
      with (n := 8%nat) (j := 0) (s := s0) as (c & s' & -> & He & HP); [| | |lia|lia|done|done|].
    + intros f s1 Hok1. by apply vendor_eq.
    + intros b l l' Hx. by apply bus_done_mono.
    + intros b s1 Hok1 Hb Hk Hv. apply ScanBus_ok; [done| |].
      * apply reach_root. unfold root_bus. rewrite Es. by split.
      * unfold scan_fuel, kMaxDevices. lia.
    + exists c, s0, s'. split_and!; [done..|]. unfold root_bus. rewrite Es. intros Hc b [Hb Hv]. by apply HP.
Qed.

(** C33. The scan of the PCI buses ends whatever the registers of the devices say,
    also when bridges lead in circles.  It records at most 32 devices, all of them
    present on a bus that can be reached and with the class and header that
    their registers have; and when it reports success, it has recorded every
    function of every bus that can be reached. *)
Theorem pci_scan_correct s :
  Z.of_nat (length (devices s)) = kMaxDevices ->
  exists c s', ScanAllBus s = Some (c, s') /\ num_device s' <= kMaxDevices
    /\ Forall (sound (conf s)) (found s')
    /\ (c = kSuccess /\ (forall b, reachable (conf s) b -> bus_done (conf s) (found s') b)
        \/ c = kFull /\ num_device s' = kMaxDevices).
Proof.
  intros Hl. destruct (ScanAllBus_ok s Hl) as (c & s0 & s' & -> & E0 & [Hok' Hc (new & En & Hsn & Hbn)] & Hroot).
  exists c, s'. rewrite E0 in En. simpl in En. subst new. split_and!; [done|apply Hok'|done|].
  destruct Hc as [->|Hc]; [left|by right]. split; [done|]. intros b Hb.
  induction Hb as [b Hb|b d f Hb IH Hon Hbr]; [by apply Hroot|]. apply Hbn; [done|by apply IH|done].
Qed.

(** A host bridge, a bridge to bus 1 and a device behind it. *)
Definition demo_conf (a : Z) : Z :=
  if a =? MakeAddress 0 0 0 0x00 then 0x12378086
  else if a =? MakeAddress 0 0 0 0x08 then 0x06000000
  else if a =? MakeAddress 0 0 0 0x0c then 0
  else if a =? MakeAddress 0 1 0 0x00 then 0x12378086
  else if a =? MakeAddress 0 1 0 0x08 then 0x06040000
  else if a =? MakeAddress 0 1 0 0x0c then 0x00010000
  else if a =? MakeAddress 0 1 0 0x18 then 0x00010100
  else if a =? MakeAddress 1 3 0 0x00 then 0x100e8086
  else if a =? MakeAddress 1 3 0 0x08 then 0x0c033000
  else if a =? MakeAddress 1 3 0 0x0c then 0
  else 0xffffffff.
Definition no_device : Device := mkDevice 0 0 0 0 (mkClass 0 0 0).
Definition demo_pci : pci := mkPci 0 demo_conf (replicate 32 no_device) 0.

Lemma demo_reach : reachable demo_conf 1.
Proof.
  change 1 with (secondary demo_conf 0 1 0) at 1. apply reach_bridge.
  - apply reach_root. vm_compute. reflexivity.
  - split; [lia|]. split; [vm_compute; discriminate|by left].
  - vm_compute. reflexivity.
Qed.

Lemma pci_scan_correct_witness :
  exists s', ScanAllBus demo_pci = Some (kSuccess, s') /\ num_device s' = 3 /\ bus_done demo_conf (found s') 1.
Proof.
  destruct (pci_scan_correct demo_pci eq_refl) as (c & s' & E & _ & _ & Hc).
  assert (E' : (fun r => (fst r, num_device (snd r))) <$> ScanAllBus demo_pci = Some (kSuccess, 3))
    by (vm_compute; reflexivity).
  rewrite E in E'. cbn in E'. injection E' as -> En. exists s'. split; [exact E|]. split; [exact En|].
  destruct Hc as [[_ Hc]|[Hx _]]; [|discriminate Hx]. apply Hc.
  exact demo_reach.
Defined.

(** ** Base addresses and capabilities

    [hw c a v] are the registers after [v] is written to the register at [a]. *)
Section capabilities.
Context (hw : (Z -> Z) -> Z -> Z -> (Z -> Z)).

Definition WriteData (v : Z) (s : pci) : pci := set_conf s (hw (conf s) (latch s) v).

Definition ReadConfReg (dev : Device) (reg_addr : Z) (s : pci) : Z * pci :=
  read_reg (dv_bus dev) (dv_device dev) (dv_function dev) reg_addr s.
Definition WriteConfReg (dev : Device) (reg_addr v : Z) (s : pci) : pci :=
  WriteData v (WriteAddress (MakeAddress (dv_bus dev) (dv_device dev) (dv_function dev) reg_addr) s).

Definition CalcBarAddress (bar_index : Z) : Z := u8 (0x10 + 4 * bar_index).

Definition ReadBar (dev : Device) (bar_index : Z) (s : pci) : Z * Code * pci :=
  if bar_index >=? 6 then (0, kIndexOutOfRange, s)
  else
    let addr := CalcBarAddress bar_index in
    let '(bar, s) := ReadConfReg dev addr s in
    if Z.land bar 4 =? 0 then (bar, kSuccess, s)
    else if bar_index >=? 5 then (0, kIndexOutOfRange, s)
    else
      let '(bar_upper, s) := ReadConfReg dev (u8 (addr + 4)) s in
      (Z.lor bar (Z.shiftl bar_upper 32), kSuccess, s).

(** *** Message signalled interrupts *)
Definition cap_id (header : Z) : Z := get_field 0 8 header.
Definition next_ptr (header : Z) : Z := get_field 8 8 header.
Definition multi_msg_capable (header : Z) : Z := get_field 17 3 header.
Definition addr_64_capable (header : Z) : bool := get_bit 23 header.
Definition per_vector_mask_capable (header : Z) : bool := get_bit 24 header.
Definition kCapabilityMSI : Z := 0x05.
Definition kCapabilityMSIX : Z := 0x11.

Record MSICapability := mkMSI {
  header : Z; msg_addr : Z; msg_upper_addr : Z; msg_data : Z; mask_bits : Z; pending_bits : Z
}.

Definition ReadMSICapability (dev : Device) (cap_addr : Z) (s : pci) : MSICapability * pci :=
  let '(h, s) := ReadConfReg dev cap_addr s in
  let '(a, s) := ReadConfReg dev (u8 (cap_addr + 4)) s in
  let '(upper, msg_data_addr, s) :=
    if addr_64_capable h then
      let '(u, s) := ReadConfReg dev (u8 (cap_addr + 8)) s in (u, u8 (cap_addr + 12), s)
    else (0, u8 (cap_addr + 8), s) in
  let '(data, s) := ReadConfReg dev msg_data_addr s in
  if per_vector_mask_capable h then
    let '(m, s) := ReadConfReg dev (u8 (msg_data_addr + 4)) s in
    let '(p, s) := ReadConfReg dev (u8 (msg_data_addr + 8)) s in
    (mkMSI h a upper data m p, s)
  else (mkMSI h a upper data 0 0, s).

Definition WriteMSICapability (dev : Device) (cap_addr : Z) (c : MSICapability) (s : pci) : pci :=
  let s := WriteConfReg dev cap_addr (header c) s in
  let s := WriteConfReg dev (u8 (cap_addr + 4)) (msg_addr c) s in
  let '(msg_data_addr, s) :=
    if addr_64_capable (header c)
    then (u8 (cap_addr + 12), WriteConfReg dev (u8 (cap_addr + 8)) (msg_upper_addr c) s)
    else (u8 (cap_addr + 8), s) in
  let s := WriteConfReg dev msg_data_addr (msg_data c) s in
  if per_vector_mask_capable (header c) then
    let s := WriteConfReg dev (u8 (msg_data_addr + 4)) (mask_bits c) s in
    WriteConfReg dev (u8 (msg_data_addr + 8)) (pending_bits c) s
  else s.

Definition ConfigureMSIRegister (dev : Device) (cap_addr addr data num_vector_exponent : Z) (s : pci) : Code * pci :=
  let '(c, s) := ReadMSICapability dev cap_addr s in
  let h := header c in
  let enable := if multi_msg_capable h <=? num_vector_exponent then multi_msg_capable h else num_vector_exponent in
  let h := set_field 20 3 enable h in
  let h := set_bit 16 true h in
  (kSuccess, WriteMSICapability dev cap_addr
               (mkMSI h addr (msg_upper_addr c) data (mask_bits c) (pending_bits c)) s).

Definition ConfigureMSIXRegister : Code := kNotImplemented.

(** The walk through the list of capabilities; [None] when it does not end. *)
Fixpoint cap_walk (fuel : nat) (dev : Device) (cap_addr msi msix : Z) (s : pci) : option (Z * Z * pci) :=
  if cap_addr =? 0 then Some (msi, msix, s)
  else
    match fuel with
    | O => None
    | S fuel =>
        let '(h, s) := ReadConfReg dev cap_addr s in
        let '(msi, msix) :=
          if cap_id h =? kCapabilityMSI then (cap_addr, msix)
          else if cap_id h =? kCapabilityMSIX then (msi, cap_addr) else (msi, msix) in
        cap_walk fuel dev (next_ptr h) msi msix s
    end.

Definition ConfigureMSI (dev : Device) (addr data num_vector_exponent : Z) (s : pci) : option (Code * pci) :=
  let '(p, s) := ReadConfReg dev 0x34 s in
  '(msi, msix, s) ← cap_walk 256 dev (Z.land p 0xff) 0 0 s;
  Some (if negb (msi =? 0) then ConfigureMSIRegister dev msi addr data num_vector_exponent s
        else if negb (msix =? 0) then (ConfigureMSIXRegister, s) else (kNoPCIMSI, s)).

Definition ConfigureMSIFixedDestination (dev : Device) (apic_id : Z) (level : bool)
    (delivery_mode vector num_vector_exponent : Z) (s : pci) : option (Code * pci) :=
  let addr := u32 (Z.lor 0xfee00000 (Z.shiftl apic_id 12)) in
  let data := Z.lor (u32 (Z.shiftl delivery_mode 8)) vector in
  let data := if level then Z.lor data 0xc000 else data in
  ConfigureMSI dev addr data num_vector_exponent s.
End capabilities.
