(* ===== verification/PciLog.v ===== *)
(** * The list of PCI devices that is logged, [InitializePCI] of src/src/pci.cpp

    The same loop stands in [KernelMainNewStack]. A line is its numbers; an error of the
    scan ends the program, which is [inl]. *)
From Stdlib Require Import ZArith Lia.
From stdpp Require Import base option list numbers.
From S2P Require Import Prelude Error Bits Pci.

Set Default Proof Using "Type".

Record pci_line := mkLine {
  ln_bus : Z; ln_device : Z; ln_function : Z; ln_vendor : Z; ln_class : ClassCode; ln_head : Z
}.

Definition log_pci_device (dev : Device) (s : pci) : pci_line * pci :=
  let '(vendor_id, s) := ReadVendorId (dv_bus dev) (dv_device dev) (dv_function dev) s in
  let '(class_code, s) := ReadClassCode (dv_bus dev) (dv_device dev) (dv_function dev) s in
  (mkLine (dv_bus dev) (dv_device dev) (dv_function dev) vendor_id class_code (dv_header_type dev), s).

Fixpoint log_pci_devices (n : nat) (i : Z) (s : pci) : option (list pci_line * pci) :=
  match n with
  | O => Some ([], s)
  | S n =>
      dev ← (devices s)$[i];
      let '(line, s) := log_pci_device dev s in
      '(lines, s) ← log_pci_devices n (i + 1) s;
      Some (line :: lines, s)
  end.

Definition InitializePCI (s : pci) : option ((Code + list pci_line) * pci) :=
  '(err, s) ← ScanAllBus s;
  if is_error err then Some (inl err, s)
  else '(lines, s) ← log_pci_devices (Z.to_nat (num_device s)) 0 s; Some (inr lines, s).

(** ** One line for each device that was found *)
Section lines.
Context (cf : Z -> Z).

Definition line_of (dev : Device) : pci_line :=
  mkLine (dv_bus dev) (dv_device dev) (dv_function dev)
    (Z.land (reg_of cf (dv_bus dev) (dv_device dev) (dv_function dev) 0x00) 0xffff)
    (class_of cf (dv_bus dev) (dv_device dev) (dv_function dev)) (dv_header_type dev).

Lemma log_pci_device_spec dev s :
  pci_ok cf s -> exists a, log_pci_device dev s = (line_of dev, set_latch s a).
Proof. intros [Hc _ _]. eexists. unfold log_pci_device, line_of, reg_of, class_of, reg_of. rewrite <- Hc. reflexivity. Qed.

Lemma latch_ok a s : pci_ok cf s -> pci_ok cf (set_latch s a).
Proof. by intros []. Qed.

Lemma log_pci_devices_spec n i s :
  pci_ok cf s -> (i + n <= length (devices s))%nat ->
  exists a, log_pci_devices n (Z.of_nat i) s = Some (line_of <$> take n (drop i (devices s)), set_latch s a).
Proof.
  revert i s. induction n as [|n IH]; intros i s Hs Hn; cbn [log_pci_devices].
  - exists (latch s). rewrite take_0. by destruct s.
  - destruct (lookup_lt_is_Some_2 (devices s) i) as [dev Hd]; [lia|].
    rewrite lookupZ_nat, Hd. cbn [mbind option_bind]. destruct (log_pci_device_spec dev s Hs) as [a ->].
    destruct (IH (S i) (set_latch s a)) as [a' E]; [by apply latch_ok|cbn; lia|].
    replace (Z.of_nat i + 1) with (Z.of_nat (S i)) by lia. rewrite E. cbn [mbind option_bind].
    exists a'. rewrite (drop_S _ _ _ Hd). reflexivity.
Qed.
End lines.

(** It ends whatever is plugged in: either more than 32 functions were found, and that
    is the end of the program, or the log has a line for each function of the list, in
    its order, with the vendor and the class that its configuration space has. *)
Theorem InitializePCI_lines s :
  Z.of_nat (length (devices s)) = kMaxDevices ->
  exists s', (InitializePCI s = Some (inl kFull, s') /\ num_device s' = kMaxDevices)
    \/ InitializePCI s = Some (inr (line_of (conf s) <$> found s'), s')
       /\ forall b, root_bus (conf s) b -> bus_done (conf s) (found s') b.
Proof.
  intros Hl. unfold InitializePCI.
  destruct (ScanAllBus_ok s Hl) as (c & s0 & s' & -> & _ & [Hok Hc _] & Hroot). cbn [mbind option_bind].
  destruct Hc as [->|[-> Hn]]; [|exists s'; left; by split].
  destruct (log_pci_devices_spec (conf s) (Z.to_nat (num_device s')) 0 s' Hok) as [a E]; [destruct Hok; lia|].
  change (Z.of_nat 0) with 0 in E. rewrite drop_0 in E.
  destruct (is_error kSuccess) eqn:Ee; [done|]. rewrite E. cbn [mbind option_bind].
  exists (set_latch s' a). right. split; [done|]. by apply Hroot.
Qed.

(** On the machine of the demonstration: the bridges and the controller. *)
Example demo_lines :
  match InitializePCI demo_pci with
  | Some (inr lines, _) => length lines = Z.to_nat (default 0 ((fun r => num_device r.2) <$> ScanAllBus demo_pci))
  | _ => False
  end.
Proof. vm_compute. reflexivity. Qed.
