(* ===== verification/ArrayMap.v ===== *)
(** * Maps in an array, src/src/usb/arraymap.hpp

    The USB driver looks up who waits for a transfer in a table of [N] pairs whose
    key may be absent.  As long as a key is only put when it is not in the table,
    the table is a finite map of at most [N] keys; a key that is put into a full
    table is silently lost. *)
From Stdlib Require Import ZArith Lia.
From stdpp Require Import base option list gmap fin_maps numbers.
From S2P Require Import Prelude.

Set Default Proof Using "Type".

Section array_map.
Context {K V : Type} `{EqDecision K}.

Definition ArrayMap : Type := list (option K * V).

Fixpoint Get (key : K) (table : ArrayMap) : option V :=
  match table with
  | [] => None
  | (Some k, v) :: table => if decide (k = key) then Some v else Get key table
  | (None, _) :: table => Get key table
  end.

Fixpoint Put (key : K) (value : V) (table : ArrayMap) : ArrayMap :=
  match table with
  | [] => []
  | (None, _) :: table => (Some key, value) :: table
  | e :: table => e :: Put key value table
  end.

Fixpoint Delete (key : K) (table : ArrayMap) : ArrayMap :=
  match table with
  | [] => []
  | (Some k, v) :: table => if decide (k = key) then (None, v) :: table else (Some k, v) :: Delete key table
  | e :: table => e :: Delete key table
  end.

(** The keys of the table, and that it has a place left. *)
Definition keys (table : ArrayMap) : list K := omap fst table.
Definition has_room (table : ArrayMap) : bool := existsb (fun e => bool_decide (e.1 = None)) table.

Lemma Get_absent key table : key ∉ keys table -> Get key table = None.
Proof.
  induction table as [|[[k|] v] table IH]; [done| |done]. change (key ∉ k :: keys table -> Get key ((Some k, v) :: table) = None).
  intros [Hne Hin]%not_elem_of_cons. cbn [Get]. rewrite decide_False by congruence. by apply IH.
Qed.

Lemma Get_Put key value key' table :
  key ∉ keys table ->
  Get key' (Put key value table)
  = if decide (key = key') then (if has_room table then Some value else None) else Get key' table.
Proof.
  intros Hk. induction table as [|[[k|] v] table IH].
  - cbn. by destruct (decide _).
  - change (key ∉ k :: keys table) in Hk. apply not_elem_of_cons in Hk as [Hne Hin].
    cbn [Put Get]. rewrite (IH Hin). change (has_room ((Some k, v) :: table)) with (has_room table).
    destruct (decide (k = key')) as [->|]; [by rewrite decide_False|done].
  - cbn [Put Get]. change (has_room ((None, v) :: table)) with true.
    by destruct (decide (key = key')).
Qed.

Lemma keys_Put key value table :
  exists l1 l2, keys table = l1 ++ l2
    /\ keys (Put key value table) = l1 ++ (if has_room table then [key] else []) ++ l2.
Proof.
  induction table as [|[[k|] v] table (l1 & l2 & E & E')].
  - by exists [], [].
  - exists (k :: l1), l2. change (has_room ((Some k, v) :: table)) with (has_room table).
    change (keys (Put key value ((Some k, v) :: table))) with (k :: keys (Put key value table)).
    change (keys ((Some k, v) :: table)) with (k :: keys table). by rewrite E, E'.
  - exists [], (keys table). done.
Qed.

Lemma keys_Delete key table :
  NoDup (keys table) -> keys (Delete key table) = filter (fun k => k <> key) (keys table).
Proof.
  induction table as [|[[k|] v] table IH]; [done| |done].
  change (NoDup (k :: keys table) -> keys (if decide (k = key) then (None, v) :: table else (Some k, v) :: Delete key table)
          = filter (fun k => k <> key) (k :: keys table)). intros [Hk Hnd]%list.NoDup_cons.
  destruct (decide (k = key)) as [->|Hne].
  - rewrite filter_cons_False by auto. change (keys table = filter (fun k => k <> key) (keys table)). symmetry.
    apply filter_all. intros k Hin ->. done.
  - rewrite filter_cons_True by done. change (k :: keys (Delete key table) = k :: filter (fun k => k <> key) (keys table)).
    by rewrite IH.
Qed.

Lemma Get_Delete key key' table :
  NoDup (keys table) -> Get key' (Delete key table) = if decide (key = key') then None else Get key' table.
Proof.
  induction table as [|[[k|] v] table IH]; [by destruct (decide _)| |done].
  change (NoDup (k :: keys table) -> Get key' (Delete key ((Some k, v) :: table))
          = if decide (key = key') then None else Get key' ((Some k, v) :: table)). intros [Hk Hnd]%list.NoDup_cons.
  cbn [Delete Get]. destruct (decide (k = key)) as [->|Hne].
  - cbn [Get]. destruct (decide (key = key')) as [->|]; [by apply Get_absent|done].
  - cbn [Get]. rewrite IH by done. destruct (decide (key = key')) as [->|]; [by rewrite decide_False|done].
Qed.

Lemma length_Put key value table : length (Put key value table) = length table.
Proof. induction table as [|[[k|] v] table IH]; simpl; by rewrite ?IH. Qed.
Lemma length_Delete key table : length (Delete key table) = length table.
Proof.
  induction table as [|[[k|] v] table IH]; [done| |simpl; by rewrite IH]. cbn [Delete]. destruct (decide _); [done|].
  simpl. by rewrite IH.
Qed.

Lemma has_room_keys table : has_room table = bool_decide (length (keys table) < length table)%nat.
Proof.
  assert (Hle : forall t : ArrayMap, (length (keys t) <= length t)%nat).
  { intros t. induction t as [|[[k|] v] t IH]; [done| |].
    - change (S (length (keys t)) <= S (length t))%nat. lia.
    - change (length (keys t) <= S (length t))%nat. lia. }
  induction table as [|[[k|] v] table IH]; [done| |].
  - change (has_room ((Some k, v) :: table)) with (has_room table). rewrite IH. apply bool_decide_ext.
    change (length (keys ((Some k, v) :: table))) with (S (length (keys table))). cbn [length]. lia.
  - change (true = bool_decide (length (keys table) < S (length table))%nat). symmetry.
    apply bool_decide_eq_true. specialize (Hle table). lia.
Qed.
End array_map.
Arguments ArrayMap : clear implicits.

(** ** A finite map of bounded size *)
Section refinement.
Context {K V : Type} `{Countable K}.

Inductive map_op := MPut (key : K) (value : V) | MDelete (key : K) | MGet (key : K).

Definition bounded_step (N : nat) (m : gmap K V) (op : map_op) : list (option V) * gmap K V :=
  match op with
  | MPut key value => ([], if decide (size m < N)%nat then <[key := value]> m else m)
  | MDelete key => ([], delete key m)
  | MGet key => ([m !! key], m)
  end.

Definition table_step (t : ArrayMap K V) (op : map_op) : list (option V) * ArrayMap K V :=
  match op with
  | MPut key value => ([], Put key value t)
  | MDelete key => ([], Delete key t)
  | MGet key => ([Get key t], t)
  end.

Fixpoint run_map {S} (step : S -> map_op -> list (option V) * S) (s : S) (ops : list map_op) : list (option V) :=
  match ops with
  | [] => []
  | op :: ops => (step s op).1 ++ run_map step (step s op).2 ops
  end.

(** No key is put twice without being deleted in between. *)
Fixpoint fresh_puts (N : nat) (m : gmap K V) (ops : list map_op) : Prop :=
  match ops with
  | [] => True
  | op :: ops =>
      match op with MPut key _ => m !! key = None | _ => True end
      /\ fresh_puts N (bounded_step N m op).2 ops
  end.

Record table_repr (t : ArrayMap K V) (m : gmap K V) : Prop := {
  tr_get : forall key, Get key t = m !! key;
  tr_keys : forall key, key ∈ keys t <-> is_Some (m !! key);
  tr_nodup : NoDup (keys t);
  tr_size : size m = length (keys t)
}.

Lemma keys_size (t : ArrayMap K V) (m : gmap K V) :
  NoDup (keys t) -> (forall key, key ∈ keys t <-> is_Some (m !! key)) -> size m = length (keys t).
Proof.
  intros Hnd Hk. rewrite <- size_dom, <- (size_list_to_set (C := gset K) (keys t)) by done. f_equal.
  apply set_eq. intros key. by rewrite elem_of_dom, elem_of_list_to_set, Hk.
Qed.

Lemma repr_empty (N : nat) (v : V) : table_repr (replicate N (None, v)) ∅.
Proof.
  assert (Hk : keys (replicate N (None, v)) = ([] : list K)) by (induction N; [done|]; exact IHN).
  constructor; rewrite ?Hk; [|..].
  - intros key. rewrite lookup_empty. apply Get_absent. rewrite Hk. by apply not_elem_of_nil.
  - intros key. rewrite lookup_empty. split; [by intros ?%elem_of_nil|by intros [? ?]].
  - constructor.
  - by rewrite map_size_empty.
Qed.

Lemma step_repr t m op :
  table_repr t m -> match op with MPut key _ => m !! key = None | _ => True end ->
  (table_step t op).1 = (bounded_step (length t) m op).1
  /\ table_repr (table_step t op).2 (bounded_step (length t) m op).2
  /\ length (table_step t op).2 = length t.
Proof.
  intros [Hg Hk Hnd Hs] Hfr. destruct op as [key value|key|key]; cbn [table_step bounded_step fst snd].
  - assert (Hin : key ∉ keys t) by (rewrite Hk, Hfr; by intros [? ?]).
    assert (Hroom : has_room t = bool_decide (size m < length t)%nat) by (by rewrite Hs, has_room_keys).
    split; [done|]. split; [|by apply length_Put].
    destruct (keys_Put key value t) as (l1 & l2 & E & E').
    assert (Hkeys : forall key', key' ∈ keys (Put key value t)
      <-> is_Some ((if decide (size m < length t)%nat then <[key := value]> m else m) !! key')).
    { intros key'. rewrite E', !elem_of_app, Hroom. specialize (Hk key'). rewrite E, elem_of_app in Hk.
      case_bool_decide; [rewrite decide_True by done|rewrite decide_False by done].
      - rewrite lookup_insert_is_Some', <- Hk, list_elem_of_singleton. naive_solver.
      - rewrite <- Hk. set_solver. }
    assert (Hnd' : NoDup (keys (Put key value t))).
    { rewrite E'. rewrite E in Hnd, Hin. destruct (has_room t); [|done].
      change (NoDup (l1 ++ key :: l2)). rewrite <- (Permutation_middle l1 l2 key). by apply list.NoDup_cons. }
    constructor; [|done|done|by apply keys_size].
    intros key'. rewrite Get_Put by done. rewrite Hg, Hroom.
    case_bool_decide; [rewrite (decide_True (P := (_ < _)%nat)) by done|rewrite (decide_False (P := (_ < _)%nat)) by done].
    + destruct (decide (key = key')) as [->|]; [by rewrite lookup_insert_eq|by rewrite lookup_insert_ne].
    + destruct (decide (key = key')) as [->|]; [done|done].
  - split; [done|]. split; [|by apply length_Delete].
    assert (Hkeys : forall key', key' ∈ keys (Delete key t) <-> is_Some (delete key m !! key')).
    { intros key'. rewrite keys_Delete, list_elem_of_filter, Hk, lookup_delete_is_Some by done. naive_solver. }
    assert (Hnd' : NoDup (keys (Delete key t))) by (rewrite keys_Delete by done; by apply list.NoDup_filter).
    constructor; [|done|done|by apply keys_size].
    intros key'. rewrite Get_Delete, Hg by done.
    destruct (decide (key = key')) as [->|]; [by rewrite lookup_delete_eq|by rewrite lookup_delete_ne].
  - split; [by rewrite Hg|]. split; [by constructor|done].
Qed.

(** A table of [N] places answers every sequence of puts, deletions and
    lookups as a finite map does that holds at most [N] keys and ignores a put when
    it is full, provided that no key is put while it is in the map. *)
Theorem array_map_refines (N : nat) (v : V) (ops : list map_op) :
  fresh_puts N ∅ ops ->
  run_map table_step (replicate N (None, v)) ops = run_map (bounded_step N) ∅ ops.
Proof.
  intros Hf. pose proof (repr_empty N v) as Hr. assert (Hl : length (replicate N (@None K, v)) = N) by apply length_replicate.
  revert Hr Hl Hf. generalize (replicate N (@None K, v)) as t, (∅ : gmap K V) as m.
  induction ops as [|op ops IH]; intros t m Hr Hl Hf; [done|]. cbn [run_map]. destruct Hf as [Hop Hf].
  destruct (step_repr t m op Hr Hop) as (E & Hr' & Hl'). rewrite Hl in *. rewrite E. f_equal. by apply IH.
Qed.
End refinement.

Lemma array_map_refines_witness :
  run_map table_step (replicate 2 (None, 0)) [MPut 10 1; MPut 20 2; MPut 30 3; MGet 30; MDelete 10; MPut 30 4; MGet 30; MGet 20]
  = [None; Some 4; Some 2].
Proof.
  rewrite (array_map_refines 2 0 [MPut 10 1; MPut 20 2; MPut 30 3; MGet 30; MDelete 10; MPut 30 4; MGet 30; MGet 20]).
  - vm_compute. reflexivity.
  - vm_compute. repeat split.
Defined.

(** A key that is put again while it is in the table is found with its old value. *)
Lemma second_put_shadowed :
  Get 10 (Put 10 2 (Put 10 1 (replicate 4 (None, 0)))) = Some 1.
Proof. reflexivity. Qed.
