(* ===== verification/Usb.v ===== *)
(** * USB devices and their class drivers, src/src/usb/device.cpp

    A device is set up by three control transfers: its descriptor, its
    configuration, and the choice of that configuration.  From the bytes of the
    configuration the first interface that is a boot keyboard or a boot mouse gets a
    class driver (src/src/usb/classdriver), which then polls its interrupt endpoint.

    How a transfer is made is up to the class derived from [usb::Device]
    (src/src/usb/xhci/device.cpp); [Transport] is that interface.  Objects that the
    driver allocates are kept in a store by their addresses, because several
    endpoints of a device share one class driver. *)
From Stdlib Require Import ZArith Lia.
From stdpp Require Import base option list gmap numbers.
From S2P Require Import Prelude Error Bits UsbMemory ArrayMap.

Set Default Proof Using "Type".

(** ** Endpoints, src/src/usb/endpoint.hpp

    An [EndpointID] is its address. *)
Inductive EndpointType := kControl | kIsochronous | kBulk | kInterrupt.
#[global] Instance EndpointType_eq_dec : EqDecision EndpointType.
Proof. solve_decision. Defined.

Definition EndpointID (ep_num : Z) (dir_in : bool) : Z := Z.lor (Z.shiftl ep_num 1) (Z.b2z dir_in).
Definition ep_Number (addr : Z) : Z := Z.shiftr addr 1.
Definition ep_IsIn (addr : Z) : bool := negb (Z.land addr 1 =? 0).
Definition kDefaultControlPipeID : Z := EndpointID 0 true.

Record EndpointConfig := mkEP { ep_id : Z; ep_type : EndpointType; max_packet_size : Z; interval : Z }.

(** ** Requests, src/src/usb/setupdata.hpp *)
Record SetupData := mkSetup {
  sd_request_type : Z; sd_request : Z; sd_value : Z; sd_index : Z; sd_length : Z
}.
#[global] Instance SetupData_eq_dec : EqDecision SetupData.
Proof. solve_decision. Defined.

Definition rt_kDevice : Z := 0.
Definition rt_kInterface : Z := 1.
Definition rt_kStandard : Z := 0.
Definition rt_kClass : Z := 1.
Definition rt_kOut : Z := 0.
Definition rt_kIn : Z := 1.
Definition kGetDescriptor : Z := 6.
Definition kSetConfiguration : Z := 9.
Definition kSetProtocol : Z := 11.
Definition make_request_type (direction type recipient : Z) : Z :=
  set_field 0 5 recipient (set_field 5 2 type (set_field 7 1 direction 0)).

(** ** Descriptors, src/src/usb/descriptor.hpp

    A descriptor is a place in a buffer of bytes. *)
Definition DeviceDescriptor_kType : Z := 1.
Definition ConfigurationDescriptor_kType : Z := 2.
Definition InterfaceDescriptor_kType : Z := 4.
Definition EndpointDescriptor_kType : Z := 5.
Definition HIDDescriptor_kType : Z := 33.

Definition DescriptorDynamicCast (kType : Z) (buf : list Z) (p : Z) : option bool :=
  t ← buf$[p + 1]; Some (t =? kType).

Definition u16_at (buf : list Z) (p : Z) : option Z :=
  lo ← buf$[p]; hi ← buf$[p + 1]; Some (lo + 2 ^ 8 * hi).

Record InterfaceDescriptor := mkIf {
  interface_number : Z; num_endpoints : Z;
  interface_class : Z; interface_sub_class : Z; interface_protocol : Z
}.
Definition interface_at (buf : list Z) (p : Z) : option InterfaceDescriptor :=
  n ← buf$[p + 2]; e ← buf$[p + 4]; c ← buf$[p + 5]; s ← buf$[p + 6]; i ← buf$[p + 7];
  Some (mkIf n e c s i).

Definition EndpointType_of (transfer_type : Z) : EndpointType :=
  if transfer_type =? 0 then kControl
  else if transfer_type =? 1 then kIsochronous
  else if transfer_type =? 2 then kBulk
  else kInterrupt.

Definition MakeEPConfig (buf : list Z) (p : Z) : option EndpointConfig :=
  address ← buf$[p + 2]; attributes ← buf$[p + 3];
  size ← u16_at buf (p + 4); interval ← buf$[p + 6];
  Some (mkEP (EndpointID (get_field 0 4 address) (get_field 7 1 address =? 1))
          (EndpointType_of (get_field 0 2 attributes)) size interval).

(** Printing a HID descriptor reads its class descriptors. *)
Definition log_hid (buf : list Z) (p : Z) : option unit :=
  _ ← u16_at buf (p + 2); n ← buf$[p + 5];
  for_range 0 n (fun i _ => _ ← buf$[p + 6 + 3 * i]; _ ← u16_at buf (p + 7 + 3 * i); Some tt) tt.

(** [ConfigurationDescriptorReader]; a null pointer is [None] inside. *)
Record reader := mkReader { desc_buf_ : list Z; desc_buf_len_ : Z; p_ : Z }.
Definition Next (r : reader) : option (option Z * reader) :=
  n ← (desc_buf_ r)$[p_ r];
  let p := p_ r + n in
  Some (if p <? desc_buf_len_ r then Some p else None, mkReader (desc_buf_ r) (desc_buf_len_ r) p).

Fixpoint Next_as (fuel : nat) (kType : Z) (r : reader) : option (option Z * reader) :=
  match fuel with
  | O => None
  | S fuel =>
      '(n, r) ← Next r;
      match n with
      | None => Some (None, r)
      | Some n =>
          is_T ← DescriptorDynamicCast kType (desc_buf_ r) n;
          if is_T : bool then Some (Some n, r) else Next_as fuel kType r
      end
  end.

(** A descriptor takes at least one byte of the 256 that a device has room for;
    the loop over the endpoints makes at most 16 turns that do not advance. *)
Definition desc_fuel : nat := 300.

(** ** HID class drivers, src/src/usb/classdriver/hid.cpp, keyboard.cpp, mouse.cpp *)
Inductive HIDKind := HIDKeyboard | HIDMouse.

Definition kBufferSize : Z := 1024.

Record HIDDriver := mkHID {
  hid_kind : HIDKind;
  hid_buf_addr : Z;        (** the address of [buf_] *)
  ep_interrupt_in_ : Z; ep_interrupt_out_ : Z;
  interface_index_ : Z; in_packet_size_ : Z; hid_phase_ : Z;
  hid_buf_ : list Z; previous_buf_ : list Z;
  observers_ : list Z; num_observers_ : Z
}.

Definition HIDBaseDriver (kind : HIDKind) (buf_addr interface_index in_packet_size : Z) : HIDDriver :=
  mkHID kind buf_addr 0 0 interface_index in_packet_size 0
    (replicate (Z.to_nat kBufferSize) 0) (replicate (Z.to_nat kBufferSize) 0) (replicate 4 0) 0.

Definition Subscribe (h : HIDDriver) (observer : Z) : option HIDDriver :=
  l ← (observers_ h)$[num_observers_ h := observer];
  Some (mkHID (hid_kind h) (hid_buf_addr h) (ep_interrupt_in_ h) (ep_interrupt_out_ h) (interface_index_ h)
          (in_packet_size_ h) (hid_phase_ h) (hid_buf_ h) (previous_buf_ h) l (num_observers_ h + 1)).

Definition SetEndpoint (h : HIDDriver) (config : EndpointConfig) : Code * HIDDriver :=
  let set i o := mkHID (hid_kind h) (hid_buf_addr h) i o (interface_index_ h) (in_packet_size_ h) (hid_phase_ h)
                   (hid_buf_ h) (previous_buf_ h) (observers_ h) (num_observers_ h) in
  (kSuccess,
   if bool_decide (ep_type config = kInterrupt) && ep_IsIn (ep_id config) then set (ep_id config) (ep_interrupt_out_ h)
   else if bool_decide (ep_type config = kInterrupt) && negb (ep_IsIn (ep_id config)) then
     set (ep_interrupt_in_ h) (ep_id config)
   else h).

Definition set_hid_phase (h : HIDDriver) (phase : Z) : HIDDriver :=
  mkHID (hid_kind h) (hid_buf_addr h) (ep_interrupt_in_ h) (ep_interrupt_out_ h) (interface_index_ h)
    (in_packet_size_ h) phase (hid_buf_ h) (previous_buf_ h) (observers_ h) (num_observers_ h).

(** What the observers are told. *)
Inductive note := KeyPush (observer keycode : Z) | MouseMove (observer displacement_x displacement_y : Z).

Definition NotifyKeyPush (h : HIDDriver) (keycode : Z) : option (list note) :=
  for_range 0 (num_observers_ h) (fun i ns => o ← (observers_ h)$[i]; Some (ns ++ [KeyPush o keycode])) [].

Definition NotifyMouseMove (h : HIDDriver) (dx dy : Z) : option (list note) :=
  for_range 0 (num_observers_ h) (fun i ns => o ← (observers_ h)$[i]; Some (ns ++ [MouseMove o dx dy])) [].

Definition keyboard_OnDataReceived (h : HIDDriver) : option (list note) :=
  for_range 2 8 (fun i ns =>
    key ← (hid_buf_ h)$[i];
    if key =? 0 then Some ns
    else if bool_decide (key ∈ previous_buf_ h) then Some ns
    else ms ← NotifyKeyPush h key; Some (ns ++ ms)) [].

Definition int8 (z : Z) : Z := (z + 2 ^ 7) mod 2 ^ 8 - 2 ^ 7.
Definition mouse_OnDataReceived (h : HIDDriver) : option (list note) :=
  x ← (hid_buf_ h)$[1]; y ← (hid_buf_ h)$[2]; NotifyMouseMove h (int8 x) (int8 y).

Definition OnDataReceived (h : HIDDriver) : option (list note) :=
  match hid_kind h with HIDKeyboard => keyboard_OnDataReceived h | HIDMouse => mouse_OnDataReceived h end.

(** [std::copy_n(buf_.begin(), len, previous_buf_.begin())]; nothing for a
    negative length. *)
Definition copy_previous (h : HIDDriver) (len : Z) : option HIDDriver :=
  if kBufferSize <? len then None
  else Some (mkHID (hid_kind h) (hid_buf_addr h) (ep_interrupt_in_ h) (ep_interrupt_out_ h) (interface_index_ h)
    (in_packet_size_ h) (hid_phase_ h) (hid_buf_ h)
    (take (Z.to_nat len) (hid_buf_ h) ++ drop (Z.to_nat len) (previous_buf_ h)) (observers_ h) (num_observers_ h)).

(** ** The device *)
Record Device := mkDev {
  class_drivers_ : list Z;   (** 16 pointers, 0 is null *)
  dev_buf_addr : Z;          (** the address of [buf_] *)
  dev_buf_ : list Z;
  num_configurations_ : Z; config_index_ : Z;
  is_initialized_ : bool; initialize_phase_ : Z;
  ep_configs_ : list EndpointConfig; num_ep_configs_ : Z;
  event_waiters_ : ArrayMap SetupData Z
}.

(** How the derived class makes transfers: endpoint, request, buffer, length. *)
Class Transport (T : Type) := {
  transfer_in : Z -> SetupData -> Z -> Z -> T -> option (Code * T);
  transfer_out : Z -> SetupData -> Z -> Z -> T -> option (Code * T);
  interrupt_in : Z -> Z -> Z -> T -> option (Code * T)
}.

(** The state of a device with everything it works on. *)
Record usb (T : Type) := mkUsb {
  u_dev : Device;
  u_drivers : gmap Z HIDDriver;  (** class drivers by address *)
  u_alloc : Z;                   (** [alloc_ptr] of the memory pool *)
  u_notes : list note;           (** what observers were told, the last at the end *)
  u_xfer : T
}.
Arguments mkUsb {T}. Arguments u_dev {T}. Arguments u_drivers {T}. Arguments u_alloc {T}.
Arguments u_notes {T}. Arguments u_xfer {T}.

Definition set_phase (d : Device) (init : bool) (phase : Z) : Device :=
  mkDev (class_drivers_ d) (dev_buf_addr d) (dev_buf_ d) (num_configurations_ d) (config_index_ d)
    init phase (ep_configs_ d) (num_ep_configs_ d) (event_waiters_ d).
Definition set_configuration (d : Device) (num index : Z) : Device :=
  mkDev (class_drivers_ d) (dev_buf_addr d) (dev_buf_ d) num index (is_initialized_ d) (initialize_phase_ d)
    (ep_configs_ d) (num_ep_configs_ d) (event_waiters_ d).
Definition set_endpoints (d : Device) (drivers : list Z) (configs : list EndpointConfig) (num : Z) : Device :=
  mkDev drivers (dev_buf_addr d) (dev_buf_ d) (num_configurations_ d) (config_index_ d) (is_initialized_ d)
    (initialize_phase_ d) configs num (event_waiters_ d).
Definition set_waiters (d : Device) (ws : ArrayMap SetupData Z) : Device :=
  mkDev (class_drivers_ d) (dev_buf_addr d) (dev_buf_ d) (num_configurations_ d) (config_index_ d)
    (is_initialized_ d) (initialize_phase_ d) (ep_configs_ d) (num_ep_configs_ d) ws.

(** [usb::Device::ControlIn] and [ControlOut], which the derived class calls first,
    register the issuer (0 for none); [InterruptIn] does nothing. *)
Definition base_control (d : Device) (setup_data : SetupData) (issuer : Z) : Code * Device :=
  (kSuccess, if issuer =? 0 then d else set_waiters d (Put setup_data issuer (event_waiters_ d))).

Section device.
Context {T : Type} `{Transport T}.
(** The pool of memory, the sizes of the drivers and the place of [buf_] in them are
    the compiler's and the linker's; the default observers are the kernel's. *)
Context (memory_pool sizeof_keyboard sizeof_mouse hid_buf_offset keyboard_observer mouse_observer : Z).

Definition set_dev (w : usb T) (d : Device) : usb T := mkUsb d (u_drivers w) (u_alloc w) (u_notes w) (u_xfer w).
Definition set_driver (w : usb T) (a : Z) (h : HIDDriver) : usb T :=
  mkUsb (u_dev w) (<[a := h]> (u_drivers w)) (u_alloc w) (u_notes w) (u_xfer w).
Definition set_xfer (w : usb T) (t : T) : usb T := mkUsb (u_dev w) (u_drivers w) (u_alloc w) (u_notes w) t.
Definition add_notes (w : usb T) (ns : list note) : usb T :=
  mkUsb (u_dev w) (u_drivers w) (u_alloc w) (u_notes w ++ ns) (u_xfer w).

Definition ControlIn (w : usb T) (ep : Z) (sd : SetupData) (buf len issuer : Z) : option (Code * usb T) :=
  let '(err, d) := base_control (u_dev w) sd issuer in
  let w := set_dev w d in
  if is_error err then Some (err, w)
  else '(err, t) ← transfer_in ep sd buf len (u_xfer w); Some (err, set_xfer w t).

Definition ControlOut (w : usb T) (ep : Z) (sd : SetupData) (buf len issuer : Z) : option (Code * usb T) :=
  let '(err, d) := base_control (u_dev w) sd issuer in
  let w := set_dev w d in
  if is_error err then Some (err, w)
  else '(err, t) ← transfer_out ep sd buf len (u_xfer w); Some (err, set_xfer w t).

Definition InterruptIn (w : usb T) (ep buf len : Z) : option (Code * usb T) :=
  '(err, t) ← interrupt_in ep buf len (u_xfer w); Some (err, set_xfer w t).

Definition GetDescriptor (w : usb T) (ep desc_type desc_index buf len : Z) : option (Code * usb T) :=
  ControlIn w ep
    (mkSetup (make_request_type rt_kIn rt_kStandard rt_kDevice) kGetDescriptor
       (Z.lor (Z.shiftl desc_type 8) desc_index) 0 (u16 len))
    buf len 0.

Definition SetConfiguration (w : usb T) (ep config_value : Z) : option (Code * usb T) :=
  ControlOut w ep
    (mkSetup (make_request_type rt_kOut rt_kStandard rt_kDevice) kSetConfiguration config_value 0 0) 0 0 0.

(** *** The class driver at address [a] *)
Definition hid_OnEndpointsConfigured (w : usb T) (a : Z) : option (Code * usb T) :=
  h ← u_drivers w !! a;
  let setup_data := mkSetup (make_request_type rt_kOut rt_kClass rt_kInterface) kSetProtocol 0
                      (u16 (interface_index_ h)) 0 in
  ControlOut (set_driver w a (set_hid_phase h 1)) kDefaultControlPipeID setup_data 0 0 a.

Definition hid_OnControlCompleted (w : usb T) (a : Z) : option (Code * usb T) :=
  h ← u_drivers w !! a;
  if hid_phase_ h =? 1 then
    InterruptIn (set_driver w a (set_hid_phase h 2)) (ep_interrupt_in_ h) (hid_buf_addr h) (in_packet_size_ h)
  else Some (kNotImplemented, w).

Definition hid_OnInterruptCompleted (w : usb T) (a ep len : Z) : option (Code * usb T) :=
  h ← u_drivers w !! a;
  if ep_IsIn ep then
    ns ← OnDataReceived h;
    h ← copy_previous h len;
    InterruptIn (set_driver (add_notes w ns) a h) (ep_interrupt_in_ h) (hid_buf_addr h) (in_packet_size_ h)
  else Some (kNotImplemented, w).

(** *** The three phases *)
Definition StartInitialize (w : usb T) : option (Code * usb T) :=
  GetDescriptor (set_dev w (set_phase (u_dev w) false 1)) kDefaultControlPipeID DeviceDescriptor_kType 0
    (dev_buf_addr (u_dev w)) 256.

Definition InitializePhase1 (w : usb T) (buf : list Z) (len : Z) : option (Code * usb T) :=
  n ← buf$[17];
  GetDescriptor (set_dev w (set_phase (set_configuration (u_dev w) n 0) (is_initialized_ (u_dev w)) 2))
    kDefaultControlPipeID ConfigurationDescriptor_kType 0 (dev_buf_addr (u_dev w)) 256.

(** [new] of a driver whose [operator new] returns null is a fault. *)
Definition new_driver (w : usb T) (kind : HIDKind) (size interface_index in_packet_size observer : Z)
  : option (Z * usb T) :=
  let '(p, alloc_ptr) := AllocMem memory_pool (u_alloc w) size 0 0 in
  if p =? 0 then None
  else
    let h := HIDBaseDriver kind (p + hid_buf_offset) interface_index in_packet_size in
    h ← (if observer =? 0 then Some h else Subscribe h observer);
    Some (p, mkUsb (u_dev w) (<[p := h]> (u_drivers w)) alloc_ptr (u_notes w) (u_xfer w)).

Definition NewClassDriver (w : usb T) (d : InterfaceDescriptor) : option (Z * usb T) :=
  if (interface_class d =? 3) && (interface_sub_class d =? 1) then
    if interface_protocol d =? 1 then
      new_driver w HIDKeyboard sizeof_keyboard (interface_number d) 8 keyboard_observer
    else if interface_protocol d =? 2 then
      new_driver w HIDMouse sizeof_mouse (interface_number d) 3 mouse_observer
    else Some (0, w)
  else Some (0, w).

(** The endpoints of an interface. *)
Fixpoint endpoint_loop (fuel : nat) (n class_driver : Z) (r : reader) (d : Device) : option (reader * Device) :=
  match fuel with
  | O => None
  | S fuel =>
      if num_ep_configs_ d <? n then
        '(desc, r) ← Next r;
        desc ← desc;
        is_ep ← DescriptorDynamicCast EndpointDescriptor_kType (desc_buf_ r) desc;
        if is_ep : bool then
          conf ← MakeEPConfig (desc_buf_ r) desc;
          configs ← (ep_configs_ d)$[num_ep_configs_ d := conf];
          drivers ← (class_drivers_ d)$[ep_Number (ep_id conf) := class_driver];
          endpoint_loop fuel n class_driver r (set_endpoints d drivers configs (num_ep_configs_ d + 1))
        else
          is_hid ← DescriptorDynamicCast HIDDescriptor_kType (desc_buf_ r) desc;
          _ ← (if is_hid : bool then log_hid (desc_buf_ r) desc else Some tt);
          endpoint_loop fuel n class_driver r d
      else Some (r, d)
  end.

(** The first interface that has a driver; its address, or null. *)
Fixpoint interface_loop (fuel : nat) (r : reader) (w : usb T) : option (Z * usb T) :=
  match fuel with
  | O => None
  | S fuel =>
      '(p, r) ← Next_as desc_fuel InterfaceDescriptor_kType r;
      match p with
      | None => Some (0, w)
      | Some p =>
          if_desc ← interface_at (desc_buf_ r) p;
          '(class_driver, w) ← NewClassDriver w if_desc;
          if class_driver =? 0 then interface_loop fuel r w
          else
            let d := set_endpoints (u_dev w) (class_drivers_ (u_dev w)) (ep_configs_ (u_dev w)) 0 in
            '(_, d) ← endpoint_loop desc_fuel (num_endpoints if_desc) class_driver r d;
            Some (class_driver, set_dev w d)
      end
  end.

Definition InitializePhase2 (w : usb T) (buf : list Z) (len : Z) : option (Code * usb T) :=
  is_conf ← DescriptorDynamicCast ConfigurationDescriptor_kType buf 0;
  if is_conf : bool then
    '(class_driver, w) ← interface_loop desc_fuel (mkReader buf len 0) w;
    if class_driver =? 0 then Some (kSuccess, w)
    else
      configuration_value ← buf$[5];
      SetConfiguration (set_dev w (set_phase (u_dev w) (is_initialized_ (u_dev w)) 3)) kDefaultControlPipeID
        configuration_value
  else Some (kInvalidDescriptor, w).

Definition InitializePhase3 (w : usb T) : option (Code * usb T) :=
  w ← for_range 0 (num_ep_configs_ (u_dev w)) (fun i w =>
        conf ← (ep_configs_ (u_dev w))$[i];
        a ← (class_drivers_ (u_dev w))$[ep_Number (ep_id conf)];
        h ← u_drivers w !! a;
        Some (set_driver w a (SetEndpoint h conf).2)) w;
  Some (kSuccess, set_dev w (set_phase (u_dev w) true 4)).

(** *** Completions *)
Definition OnControlCompleted (w : usb T) (ep : Z) (sd : SetupData) (buf : option (list Z)) (len : Z)
  : option (Code * usb T) :=
  let d := u_dev w in
  if is_initialized_ d then
    match Get sd (event_waiters_ d) with
    | Some a => hid_OnControlCompleted w a
    | None => Some (kNoWaiter, w)
    end
  else if initialize_phase_ d =? 1 then
    if sd_request sd =? kGetDescriptor then
      buf ← buf;
      ok ← DescriptorDynamicCast DeviceDescriptor_kType buf 0;
      if ok : bool then InitializePhase1 w buf len else Some (kInvalidPhase, w)
    else Some (kInvalidPhase, w)
  else if initialize_phase_ d =? 2 then
    if sd_request sd =? kGetDescriptor then
      buf ← buf;
      ok ← DescriptorDynamicCast ConfigurationDescriptor_kType buf 0;
      if ok : bool then InitializePhase2 w buf len else Some (kInvalidPhase, w)
    else Some (kInvalidPhase, w)
  else if initialize_phase_ d =? 3 then
    if sd_request sd =? kSetConfiguration then InitializePhase3 w else Some (kInvalidPhase, w)
  else Some (kNotImplemented, w).

Definition OnInterruptCompleted (w : usb T) (ep len : Z) : option (Code * usb T) :=
  a ← (class_drivers_ (u_dev w))$[ep_Number ep];
  if a =? 0 then Some (kNoWaiter, w) else hid_OnInterruptCompleted w a ep len.

(** The loop over the drivers stops at the first error. *)
Fixpoint configured_loop (drivers : list Z) (w : usb T) : option (Code * usb T) :=
  match drivers with
  | [] => Some (kSuccess, w)
  | a :: drivers =>
      if a =? 0 then configured_loop drivers w
      else '(err, w) ← hid_OnEndpointsConfigured w a;
           if is_error err then Some (err, w) else configured_loop drivers w
  end.
Definition OnEndpointsConfigured (w : usb T) : option (Code * usb T) :=
  configured_loop (class_drivers_ (u_dev w)) w.
End device.
