(* ===== verification/UsbSpec.v ===== *)
(** * Correctness of the USB device layer

    The configuration of a device is parsed as a list of descriptors; a device with
    well formed descriptors is initialised by exactly three requests over any
    transport that accepts them; and the reports of a keyboard or a mouse reach the
    observers. *)
From Stdlib Require Import ZArith Lia.
From stdpp Require Import base option list gmap numbers.
From S2P Require Import Prelude Error Bits UsbMemory ArrayMap Usb.

Set Default Proof Using "Type".

(** ** The configuration as a list of descriptors *)
Definition byte (b : list Z) (k : nat) : Z := nth k b 0.
Definition desc_type (b : list Z) : Z := byte b 1.

(** A descriptor begins with its own length; those that are looked into are as
    long as their type demands. *)
Record desc_ok (b : list Z) : Prop := {
  do_len : byte b 0 = Z.of_nat (length b);
  do_min : (2 <= length b)%nat;
  do_interface : desc_type b = InterfaceDescriptor_kType -> (8 <= length b)%nat;
  do_endpoint : desc_type b = EndpointDescriptor_kType -> (7 <= length b)%nat;
  do_hid : desc_type b = HIDDescriptor_kType -> 6 + 3 * Z.max 0 (byte b 5) <= Z.of_nat (length b)
}.

Definition interface_of (b : list Z) : InterfaceDescriptor :=
  mkIf (byte b 2) (byte b 4) (byte b 5) (byte b 6) (byte b 7).
Definition endpoint_of (b : list Z) : EndpointConfig :=
  mkEP (2 * (byte b 2 mod 16) + byte b 2 / 128 mod 2) (EndpointType_of (byte b 3 mod 4))
    (byte b 4 + 256 * byte b 5) (byte b 6).

(** The class of a boot keyboard or mouse. *)
Definition boot_kind (d : InterfaceDescriptor) : option HIDKind :=
  if (interface_class d =? 3) && (interface_sub_class d =? 1) then
    if interface_protocol d =? 1 then Some HIDKeyboard
    else if interface_protocol d =? 2 then Some HIDMouse else None
  else None.

(** The first interface that has a driver, and what comes after it. *)
Fixpoint boot_interface (ds : list (list Z)) : option (HIDKind * InterfaceDescriptor * list (list Z)) :=
  match ds with
  | [] => None
  | b :: ds =>
      if desc_type b =? InterfaceDescriptor_kType then
        match boot_kind (interface_of b) with
        | Some k => Some (k, interface_of b, ds)
        | None => boot_interface ds
        end
      else boot_interface ds
  end.

Definition endpoints (ds : list (list Z)) : list EndpointConfig :=
  endpoint_of <$> filter (fun b => desc_type b = EndpointDescriptor_kType) ds.

(** ** Reading *)

(** The reader is at descriptor [b], [ds] are still to come. *)
Record at_desc (r : reader) (pre b : list Z) (ds : list (list Z)) (rest : list Z) : Prop := {
  ad_buf : desc_buf_ r = pre ++ b ++ concat ds ++ rest;
  ad_len : desc_buf_len_ r = Z.of_nat (length (pre ++ b ++ concat ds));
  ad_pos : p_ r = Z.of_nat (length pre)
}.

Lemma byte_at (pre b suf : list Z) (k : nat) :
  (k < length b)%nat -> (pre ++ b ++ suf)$[Z.of_nat (length pre) + Z.of_nat k] = Some (byte b k).
Proof.
  intros Hk. rewrite <- Nat2Z.inj_add, lookupZ_nat, lookup_app_r by lia.
  replace (length pre + k - length pre)%nat with k by lia. rewrite lookup_app_l by done.
  destruct (lookup_lt_is_Some_2 b k Hk) as [x E]. unfold byte. by rewrite (nth_lookup_Some _ _ _ _ E).
Qed.

Lemma at_byte r pre b ds rest (k : nat) :
  at_desc r pre b ds rest -> (k < length b)%nat -> (desc_buf_ r)$[p_ r + Z.of_nat k] = Some (byte b k).
Proof. intros [-> _ ->] Hk. by apply byte_at. Qed.

Lemma Next_eq r pre b ds rest :
  at_desc r pre b ds rest -> desc_ok b ->
  let p := p_ r + Z.of_nat (length b) in
  Next r = Some (if p <? desc_buf_len_ r then Some p else None, mkReader (desc_buf_ r) (desc_buf_len_ r) p).
Proof.
  intros Ha Hb. pose proof (at_byte _ _ _ _ _ 0 Ha ltac:(destruct Hb; lia)) as E. rewrite Z.add_0_r in E.
  unfold Next. rewrite E. cbn [mbind option_bind]. by rewrite (do_len _ Hb).
Qed.

Lemma Next_end r pre b rest :
  at_desc r pre b [] rest -> desc_ok b -> exists r', Next r = Some (None, r').
Proof.
  intros Ha Hb. rewrite (Next_eq _ _ _ _ _ Ha Hb). destruct Ha as [_ -> ->]. eexists.
  destruct (Z.ltb_spec (Z.of_nat (length pre) + Z.of_nat (length b)) (Z.of_nat (length (pre ++ b ++ concat []))))
    as [Hlt|]; [|reflexivity].
  exfalso. rewrite !length_app in Hlt. simpl in Hlt. lia.
Qed.

Lemma Next_cons r pre b b' ds rest :
  at_desc r pre b (b' :: ds) rest -> desc_ok b -> desc_ok b' ->
  exists r', Next r = Some (Some (p_ r'), r') /\ at_desc r' (pre ++ b) b' ds rest.
Proof.
  intros Ha Hb Hb'. rewrite (Next_eq _ _ _ _ _ Ha Hb). destruct Ha as [-> -> ->]. pose proof (do_min _ Hb').
  exists (mkReader (pre ++ b ++ concat (b' :: ds) ++ rest) (Z.of_nat (length (pre ++ b ++ concat (b' :: ds))))
       (Z.of_nat (length pre) + Z.of_nat (length b))). split.
  - cbn [p_]. destruct (Z.ltb_spec (Z.of_nat (length pre) + Z.of_nat (length b))
      (Z.of_nat (length (pre ++ b ++ concat (b' :: ds))))) as [|Hge]; [reflexivity|].
    exfalso. cbn [concat] in Hge. rewrite !length_app in Hge. lia.
  - constructor; cbn [desc_buf_ desc_buf_len_ p_ concat]; rewrite <- ?app_assoc; [done|done|].
    rewrite length_app. lia.
Qed.

Lemma cast_at kType r pre b ds rest :
  at_desc r pre b ds rest -> desc_ok b ->
  DescriptorDynamicCast kType (desc_buf_ r) (p_ r) = Some (desc_type b =? kType).
Proof.
  intros Ha Hb. unfold DescriptorDynamicCast. pose proof (at_byte _ _ _ _ _ 1 Ha ltac:(destruct Hb; lia)) as E.
  change (Z.of_nat 1) with 1 in E. by rewrite E.
Qed.

(** Fields of the descriptor the reader is at. *)
Ltac read_byte Ha k :=
  let E := fresh in
  let z := eval vm_compute in (Z.of_nat k) in
  pose proof (at_byte _ _ _ _ _ k Ha ltac:(lia)) as E; change (Z.of_nat k) with z in E; rewrite E; clear E;
  cbn [mbind option_bind].

Lemma interface_at_eq r pre b ds rest :
  at_desc r pre b ds rest -> (8 <= length b)%nat ->
  interface_at (desc_buf_ r) (p_ r) = Some (interface_of b).
Proof.
  intros Ha Hl. unfold interface_at. read_byte Ha 2%nat. read_byte Ha 4%nat. read_byte Ha 5%nat.
  read_byte Ha 6%nat. read_byte Ha 7%nat. done.
Qed.

Lemma EndpointID_eq n b : 0 <= n -> EndpointID n b = 2 * n + Z.b2z b.
Proof.
  intros Hn. unfold EndpointID. rewrite Z.shiftl_mul_pow2, (lor_flags _ 1) by (lia || (by exists n) || (destruct b; simpl; lia)).
  lia.
Qed.

Lemma MakeEPConfig_eq r pre b ds rest :
  at_desc r pre b ds rest -> (7 <= length b)%nat ->
  MakeEPConfig (desc_buf_ r) (p_ r) = Some (endpoint_of b).
Proof.
  intros Ha Hl. unfold MakeEPConfig, u16_at. read_byte Ha 2%nat. read_byte Ha 3%nat. read_byte Ha 4%nat.
  rewrite <- (Z.add_assoc (p_ r) 4 1). change (4 + 1) with 5. read_byte Ha 5%nat. read_byte Ha 6%nat.
  unfold endpoint_of. rewrite !get_field_div by lia. change (2 ^ 0) with 1. rewrite !Z.div_1_r. do 2 f_equal.
  rewrite EndpointID_eq by (apply Z.mod_pos_bound; lia). f_equal. change (2 ^ 7) with 128. change (2 ^ 1) with 2.
  pose proof (Z.mod_pos_bound (byte b 2 / 128) 2 ltac:(lia)). destruct (Z.eqb_spec (byte b 2 / 128 mod 2) 1); simpl; lia.
Qed.

Lemma log_hid_ok r pre b ds rest :
  at_desc r pre b ds rest -> 6 + 3 * Z.max 0 (byte b 5) <= Z.of_nat (length b) ->
  log_hid (desc_buf_ r) (p_ r) = Some tt.
Proof.
  intros Ha Hl. unfold log_hid, u16_at. read_byte Ha 2%nat. rewrite <- (Z.add_assoc (p_ r) 2 1). change (2 + 1) with 3.
  read_byte Ha 3%nat. read_byte Ha 5%nat.
  destruct (decide (byte b 5 <= 0)); [by rewrite for_range_nil by lia|].
  edestruct (for_range_inv (fun _ (_ : unit) => True) 0 (byte b 5)) as ([] & E & _); [lia|done| |exact E].
  intros i [] Hi _. exists tt. split; [|done].
  assert (Hk : forall k, 0 <= k < Z.of_nat (length b) -> exists x, (desc_buf_ r)$[p_ r + k] = Some x).
  { intros k Hk. exists (byte b (Z.to_nat k)). rewrite <- (at_byte _ _ _ _ _ (Z.to_nat k) Ha) by lia.
    by rewrite Z2Nat.id by lia. }
  destruct (Hk (6 + 3 * i)) as [x Ex], (Hk (7 + 3 * i)) as [y Ey], (Hk (8 + 3 * i)) as [z Ez]; [lia..|].
  rewrite Z.add_assoc in Ex, Ey. rewrite Ex. cbn [mbind option_bind]. rewrite Ey. cbn [mbind option_bind].
  replace (p_ r + 7 + 3 * i + 1) with (p_ r + (8 + 3 * i)) by lia. by rewrite Ez.
Qed.

(** ** The loops *)
Lemma Next_as_ok fuel kType r pre b ds rest :
  at_desc r pre b ds rest -> Forall desc_ok (b :: ds) -> (length ds < fuel)%nat ->
  (exists ds1 b' ds2 r' pre', ds = ds1 ++ b' :: ds2 /\ Forall (fun b => desc_type b <> kType) ds1
     /\ desc_type b' = kType /\ Next_as fuel kType r = Some (Some (p_ r'), r') /\ at_desc r' pre' b' ds2 rest)
  \/ (Forall (fun b => desc_type b <> kType) ds /\ exists r', Next_as fuel kType r = Some (None, r')).
Proof.
  revert r pre b ds. induction fuel as [|fuel IH]; intros r pre b ds Ha Hds Hf; [lia|].
  apply list.Forall_cons in Hds as [Hb Hds]. cbn [Next_as]. destruct ds as [|b' ds].
  - right. split; [constructor|]. destruct (Next_end _ _ _ _ Ha Hb) as [r' ->]. cbn [mbind option_bind]. eauto.
  - pose proof Hds as Hds'. apply list.Forall_cons in Hds' as [Hb' Hds'].
    destruct (Next_cons _ _ _ _ _ _ Ha Hb Hb') as (r' & -> & Ha'). cbn [mbind option_bind].
    rewrite (cast_at kType _ _ _ _ _ Ha' Hb'). cbn [mbind option_bind].
    destruct (Z.eqb_spec (desc_type b') kType) as [E|E].
    + left. exists [], b', ds, r', (pre ++ b). done.
    + destruct (IH _ _ _ _ Ha' Hds ltac:(simpl in Hf; lia)) as [(ds1 & c & ds2 & r2 & pre2 & -> & H1 & H2 & H3 & H4)|[H1 H2]].
      * left. exists (b' :: ds1), c, ds2, r2, pre2. split_and!; [done|by constructor|done|done|done].
      * right. split; [by constructor|done].
Qed.

Definition add_endpoint (a : Z) (d : Device) (c : EndpointConfig) : Device :=
  set_endpoints d (<[Z.to_nat (ep_Number (ep_id c)) := a]> (class_drivers_ d))
    (<[Z.to_nat (num_ep_configs_ d) := c]> (ep_configs_ d)) (num_ep_configs_ d + 1).

Lemma endpoint_number b : ep_Number (ep_id (endpoint_of b)) = byte b 2 mod 16.
Proof.
  unfold ep_Number, endpoint_of. cbn [ep_id]. rewrite Z.shiftr_div_pow2 by lia. change (2 ^ 1) with 2.
  pose proof (Z.mod_pos_bound (byte b 2 / 128) 2 ltac:(lia)). rewrite (Z.mul_comm 2), Z.div_add_l by lia.
  rewrite Z.div_small by lia. lia.
Qed.

(** A device has 16 places for endpoints and for their drivers. *)
Record dev_ok (d : Device) : Prop := {
  dk_configs : length (ep_configs_ d) = 16%nat;
  dk_drivers : length (class_drivers_ d) = 16%nat
}.

Lemma endpoint_loop_ok fuel n a r pre b ds rest d :
  at_desc r pre b ds rest -> Forall desc_ok (b :: ds) -> (length ds < fuel)%nat ->
  dev_ok d -> 0 <= num_ep_configs_ d <= n -> n <= 16 ->
  n - num_ep_configs_ d <= Z.of_nat (length (endpoints ds)) ->
  exists r', endpoint_loop fuel n a r d
    = Some (r', foldl (add_endpoint a) d (take (Z.to_nat (n - num_ep_configs_ d)) (endpoints ds))).
Proof.
  revert r pre b ds d. induction fuel as [|fuel IH]; intros r pre b ds d Ha Hds Hf Hd Hn Hn16 Hle; [lia|].
  apply list.Forall_cons in Hds as [Hb Hds]. cbn [endpoint_loop].
  destruct (Z.ltb_spec (num_ep_configs_ d) n) as [Hlt|Hge].
  2: { replace (n - num_ep_configs_ d) with 0 by lia. by exists r. }
  destruct ds as [|b' ds]; [simpl in Hle; lia|].
  pose proof Hds as Hds'. apply list.Forall_cons in Hds' as [Hb' Hds'].
  destruct (Next_cons _ _ _ _ _ _ Ha Hb Hb') as (r' & -> & Ha'). cbn [mbind option_bind].
  rewrite (cast_at EndpointDescriptor_kType _ _ _ _ _ Ha' Hb'). cbn [mbind option_bind].
  unfold endpoints in *. rewrite filter_cons in *.
  destruct (Z.eqb_spec (desc_type b') EndpointDescriptor_kType) as [E|E].
  - rewrite decide_True in * by done. rewrite (MakeEPConfig_eq _ _ _ _ _ Ha') by (by apply do_endpoint).
    cbn [mbind option_bind]. rewrite (updateZ_in (ep_configs_ d)) by (destruct Hd; lia). cbn [mbind option_bind].
    rewrite endpoint_number. pose proof (Z.mod_pos_bound (byte b' 2) 16 ltac:(lia)) as Hm.
    rewrite updateZ_in by (destruct Hd; lia). cbn [mbind option_bind].
    rewrite fmap_cons in Hle |- *. cbn [length] in Hle.
    destruct (IH r' (pre ++ b) b' ds (add_endpoint a d (endpoint_of b'))) as [r2 E2];
      [done|done|simpl in Hf; lia|destruct Hd; constructor; cbn; by rewrite ?length_insert|cbn [add_endpoint num_ep_configs_ set_endpoints]; lia|done
      |cbn [add_endpoint num_ep_configs_ set_endpoints]; lia|].
    exists r2. unfold add_endpoint in E2 at 1. rewrite endpoint_number in E2. rewrite E2. do 2 f_equal.
    cbn [num_ep_configs_ set_endpoints fmap list_fmap]. change (num_ep_configs_ (add_endpoint a d (endpoint_of b')))
      with (num_ep_configs_ d + 1).
    replace (Z.to_nat (n - num_ep_configs_ d)) with (S (Z.to_nat (n - (num_ep_configs_ d + 1)))) by lia. done.
  - rewrite decide_False in * by done. rewrite (cast_at HIDDescriptor_kType _ _ _ _ _ Ha' Hb'). cbn [mbind option_bind].
    assert ((if desc_type b' =? HIDDescriptor_kType then log_hid (desc_buf_ r') (p_ r') else Some tt) = Some tt) as ->.
    { destruct (Z.eqb_spec (desc_type b') HIDDescriptor_kType); [|done]. eapply log_hid_ok; [done|]. by apply do_hid. }
    cbn [mbind option_bind]. apply (IH r' (pre ++ b) b' ds d); [done|done|simpl in Hf; lia|done|done|done|done].
Qed.

Lemma boot_interface_skip ds1 ds :
  Forall (fun b => desc_type b <> InterfaceDescriptor_kType) ds1 -> boot_interface (ds1 ++ ds) = boot_interface ds.
Proof.
  induction 1 as [|b ds1 Hb Hds IH]; [done|]. cbn [boot_interface app].
  destruct (Z.eqb_spec (desc_type b) InterfaceDescriptor_kType); [done|exact IH].
Qed.

Section device.
Context {T : Type} `{Transport T}.
Context (memory_pool sizeof_keyboard sizeof_mouse hid_buf_offset keyboard_observer mouse_observer : Z).

Definition kind_size (k : HIDKind) : Z := match k with HIDKeyboard => sizeof_keyboard | HIDMouse => sizeof_mouse end.
Definition kind_packet (k : HIDKind) : Z := match k with HIDKeyboard => 8 | HIDMouse => 3 end.
Definition kind_observer (k : HIDKind) : Z :=
  match k with HIDKeyboard => keyboard_observer | HIDMouse => mouse_observer end.

(** A new class driver at address [a]. *)
Definition new_hid (k : HIDKind) (d : InterfaceDescriptor) (a : Z) : HIDDriver :=
  let o := kind_observer k in
  mkHID k (a + hid_buf_offset) 0 0 (interface_number d) (kind_packet k) 0
    (replicate (Z.to_nat kBufferSize) 0) (replicate (Z.to_nat kBufferSize) 0)
    (if o =? 0 then replicate 4 0 else [o; 0; 0; 0]) (if o =? 0 then 0 else 1).

Lemma NewClassDriver_none (w : usb T) d :
  boot_kind d = None ->
  NewClassDriver memory_pool sizeof_keyboard sizeof_mouse hid_buf_offset keyboard_observer mouse_observer w d
  = Some (0, w).
Proof.
  unfold boot_kind, NewClassDriver. destruct (_ && _); [|done]. destruct (_ =? 1); [done|]. by destruct (_ =? 2).
Qed.

Lemma NewClassDriver_boot (w : usb T) d k a alloc :
  boot_kind d = Some k -> AllocMem memory_pool (u_alloc w) (kind_size k) 0 0 = (a, alloc) -> a <> 0 ->
  NewClassDriver memory_pool sizeof_keyboard sizeof_mouse hid_buf_offset keyboard_observer mouse_observer w d
  = Some (a, mkUsb (u_dev w) (<[a := new_hid k d a]> (u_drivers w)) alloc (u_notes w) (u_xfer w)).
Proof.
  unfold boot_kind, NewClassDriver. destruct (_ && _); [|done].
  destruct (_ =? 1); [|destruct (_ =? 2); [|done]]; intros [= <-] Ha Hne; unfold new_driver; cbn [kind_size] in Ha; rewrite Ha;
    (destruct (Z.eqb_spec a 0); [done|]); unfold new_hid; cbn [kind_observer kind_packet];
    match goal with |- context [?o =? 0] => by destruct (o =? 0) end.
Qed.

(** The state after the endpoints [cs] of an interface were given driver [a]. *)
Definition installed (w : usb T) (a alloc : Z) (h : HIDDriver) (cs : list EndpointConfig) : usb T :=
  mkUsb (foldl (add_endpoint a) (set_endpoints (u_dev w) (class_drivers_ (u_dev w)) (ep_configs_ (u_dev w)) 0) cs)
    (<[a := h]> (u_drivers w)) alloc (u_notes w) (u_xfer w).

Lemma interface_loop_ok fuel r pre b ds rest (w : usb T) :
  at_desc r pre b ds rest -> Forall desc_ok (b :: ds) -> (length ds < fuel)%nat -> (length ds < desc_fuel)%nat ->
  dev_ok (u_dev w) ->
  match boot_interface ds with
  | None =>
      interface_loop memory_pool sizeof_keyboard sizeof_mouse hid_buf_offset keyboard_observer mouse_observer fuel r w
      = Some (0, w)
  | Some (k, d, ds') => forall a alloc,
      AllocMem memory_pool (u_alloc w) (kind_size k) 0 0 = (a, alloc) -> a <> 0 ->
      0 <= num_endpoints d <= 16 -> num_endpoints d <= Z.of_nat (length (endpoints ds')) ->
      interface_loop memory_pool sizeof_keyboard sizeof_mouse hid_buf_offset keyboard_observer mouse_observer fuel r w
      = Some (a, installed w a alloc (new_hid k d a) (take (Z.to_nat (num_endpoints d)) (endpoints ds')))
  end.
Proof.
  revert r pre b ds. induction fuel as [|fuel IH]; intros r pre b ds Ha Hds Hf Hdf Hd; [lia|].
  cbn [interface_loop].
  destruct (Next_as_ok desc_fuel InterfaceDescriptor_kType _ _ _ _ _ Ha Hds Hdf)
    as [(ds1 & b' & ds2 & r' & pre' & -> & H1 & H2 & -> & Ha')|[H1 [r' ->]]]; cbn [mbind option_bind].
  2: { rewrite <- (app_nil_r ds), boot_interface_skip by done. done. }
  assert (Hds' : Forall desc_ok (b' :: ds2)) by (apply list.Forall_cons in Hds as [_ ?]; by apply list.Forall_app in H0 as [_ ?]).
  pose proof Hds' as [Hb' Hds2]%list.Forall_cons. rewrite length_app in Hf, Hdf. cbn [length] in Hf, Hdf.
  rewrite (interface_at_eq _ _ _ _ _ Ha') by (by apply do_interface). cbn [mbind option_bind].
  rewrite boot_interface_skip by done. cbn [boot_interface].
  destruct (Z.eqb_spec (desc_type b') InterfaceDescriptor_kType) as [_|]; [|done].
  destruct (boot_kind (interface_of b')) as [k|] eqn:Ek.
  - intros a alloc Hal Hne Hn Hle. rewrite (NewClassDriver_boot _ _ _ _ _ Ek Hal Hne). cbn [mbind option_bind].
    destruct (Z.eqb_spec a 0); [done|]. cbn [u_dev].
    destruct (endpoint_loop_ok desc_fuel (num_endpoints (interface_of b')) a r' pre' b' ds2 rest
      (set_endpoints (u_dev w) (class_drivers_ (u_dev w)) (ep_configs_ (u_dev w)) 0)) as [r2 E];
      [done|done|lia|by destruct Hd|cbn [num_ep_configs_ set_endpoints]; lia|lia|cbn [num_ep_configs_ set_endpoints]; lia|].
    rewrite E. cbn [mbind option_bind num_ep_configs_ set_endpoints]. by rewrite Z.sub_0_r.
  - rewrite (NewClassDriver_none _ _ Ek). cbn [mbind option_bind]. simpl (0 =? 0).
    apply (IH r' pre' b' ds2); [done|done|lia|lia|done].
Qed.
End device.

(** ** What the loop leaves in the device *)
Lemma added_num a d cs : num_ep_configs_ (foldl (add_endpoint a) d cs) = num_ep_configs_ d + Z.of_nat (length cs).
Proof. revert d. induction cs as [|c cs IH]; intros d; cbn [foldl length]; [lia|]. rewrite IH. cbn. lia. Qed.

Lemma added_dev_ok a d cs : dev_ok d -> dev_ok (foldl (add_endpoint a) d cs).
Proof.
  revert d. induction cs as [|c cs IH]; intros d Hd; cbn [foldl]; [done|]. apply IH.
  destruct Hd. constructor; cbn; by rewrite length_insert.
Qed.

Lemma added_config a d cs (i : nat) :
  0 <= num_ep_configs_ d -> num_ep_configs_ d + Z.of_nat (length cs) <= Z.of_nat (length (ep_configs_ d)) ->
  ep_configs_ (foldl (add_endpoint a) d cs) !! i
  = if decide (Z.to_nat (num_ep_configs_ d) <= i < Z.to_nat (num_ep_configs_ d) + length cs)%nat
    then cs !! (i - Z.to_nat (num_ep_configs_ d))%nat else ep_configs_ d !! i.
Proof.
  revert d. induction cs as [|c cs IH]; intros d H0 Hle; cbn [foldl length] in *.
  { by rewrite decide_False by lia. }
  rewrite IH by (cbn; rewrite ?length_insert; lia). cbn [add_endpoint num_ep_configs_ ep_configs_ set_endpoints].
  replace (Z.to_nat (num_ep_configs_ d + 1)) with (S (Z.to_nat (num_ep_configs_ d))) by lia.
  destruct (decide (i = Z.to_nat (num_ep_configs_ d))) as [->|Hne].
  - rewrite decide_False, decide_True by lia. rewrite Nat.sub_diag. cbn. apply list_lookup_insert_eq. lia.
  - rewrite list_lookup_insert_ne by done.
    destruct (decide (S (Z.to_nat (num_ep_configs_ d)) <= i < S (Z.to_nat (num_ep_configs_ d)) + length cs)%nat).
    + rewrite decide_True by lia.
      by replace (i - Z.to_nat (num_ep_configs_ d))%nat with (S (i - S (Z.to_nat (num_ep_configs_ d)))) by lia.
    + by rewrite decide_False by lia.
Qed.

Lemma added_driver a d cs (k : nat) :
  length (class_drivers_ d) = 16%nat -> (k < 16)%nat ->
  class_drivers_ (foldl (add_endpoint a) d cs) !! k
  = if decide (Exists (fun c => Z.to_nat (ep_Number (ep_id c)) = k) cs) then Some a else class_drivers_ d !! k.
Proof.
  revert d. induction cs as [|c cs IH]; intros d Hl Hk; cbn [foldl].
  { rewrite decide_False; [done|]. by intros ?%Exists_nil. }
  rewrite IH by (cbn; by rewrite ?length_insert). cbn [add_endpoint class_drivers_ set_endpoints].
  destruct (decide (Exists _ cs)) as [He|He]; [by rewrite decide_True by (by apply Exists_cons_tl)|].
  destruct (decide (Z.to_nat (ep_Number (ep_id c)) = k)) as [<-|Hne].
  - rewrite decide_True by (by apply Exists_cons_hd). apply list_lookup_insert_eq. lia.
  - rewrite list_lookup_insert_ne by done. rewrite decide_False; [done|]. by intros [?|?]%Exists_cons.
Qed.

(** The other fields stay. *)
Lemma added_same a d cs :
  let d' := foldl (add_endpoint a) d cs in
  dev_buf_addr d' = dev_buf_addr d /\ is_initialized_ d' = is_initialized_ d
  /\ initialize_phase_ d' = initialize_phase_ d /\ event_waiters_ d' = event_waiters_ d.
Proof. revert d. induction cs as [|c cs IH]; intros d; [done|]. apply (IH (add_endpoint a d c)). Qed.

Lemma descriptors_count ds : Forall desc_ok ds -> (2 * length ds <= length (concat ds))%nat.
Proof.
  induction 1 as [|b ds Hb Hds IH]; [done|]. cbn [concat length]. rewrite length_app. destruct Hb. lia.
Qed.

(** A configuration: its own descriptor and those that follow, as many bytes as
    the device has room for. *)
Record config_ok (hd : list Z) (ds : list (list Z)) : Prop := {
  cf_head : desc_ok hd;
  cf_type : desc_type hd = ConfigurationDescriptor_kType;
  cf_min : (6 <= length hd)%nat;
  cf_descs : Forall desc_ok ds;
  cf_size : (length (hd ++ concat ds) <= 256)%nat
}.

Section parser.
Context {T : Type} `{Transport T}.
Context (memory_pool sizeof_keyboard sizeof_mouse hid_buf_offset keyboard_observer mouse_observer : Z).
Local Notation phase2 :=
  (InitializePhase2 memory_pool sizeof_keyboard sizeof_mouse hid_buf_offset keyboard_observer mouse_observer).
Local Notation ksize := (kind_size sizeof_keyboard sizeof_mouse).
Local Notation khid := (new_hid hid_buf_offset keyboard_observer mouse_observer).

Lemma phase2_spec (w : usb T) hd ds rest :
  config_ok hd ds -> dev_ok (u_dev w) ->
  let len := Z.of_nat (length (hd ++ concat ds)) in
  match boot_interface ds with
  | None => phase2 w (hd ++ concat ds ++ rest) len = Some (kSuccess, w)
  | Some (k, d, ds') => forall a alloc,
      AllocMem memory_pool (u_alloc w) (ksize k) 0 0 = (a, alloc) -> a <> 0 ->
      0 <= num_endpoints d <= 16 -> num_endpoints d <= Z.of_nat (length (endpoints ds')) ->
      let w' := installed w a alloc (khid k d a) (take (Z.to_nat (num_endpoints d)) (endpoints ds')) in
      phase2 w (hd ++ concat ds ++ rest) len
      = SetConfiguration (set_dev w' (set_phase (u_dev w') (is_initialized_ (u_dev w')) 3)) kDefaultControlPipeID
          (byte hd 5)
  end.
Proof.
  intros [Hh Ht Hm Hds Hsz] Hd len. pose proof (descriptors_count _ Hds) as Hc. rewrite length_app in Hsz.
  assert (Hn : (length ds < desc_fuel)%nat) by (unfold desc_fuel; lia).
  set (r := mkReader (hd ++ concat ds ++ rest) len 0).
  assert (Ha : at_desc r [] hd ds rest) by done.
  assert (E : DescriptorDynamicCast ConfigurationDescriptor_kType (hd ++ concat ds ++ rest) 0 = Some true).
  { pose proof (cast_at ConfigurationDescriptor_kType _ _ _ _ _ Ha Hh) as E. cbn [p_ desc_buf_ r] in E. rewrite E, Ht. done. }
  pose proof (interface_loop_ok memory_pool sizeof_keyboard sizeof_mouse hid_buf_offset keyboard_observer
    mouse_observer desc_fuel _ _ _ _ _ w Ha ltac:(by constructor) Hn Hn Hd) as Hl.
  unfold InitializePhase2. rewrite E. cbn [mbind option_bind]. fold r.
  destruct (boot_interface ds) as [[[k d] ds']|].
  - intros a alloc Hal Hne Hn1 Hn2. rewrite (Hl a alloc Hal Hne Hn1 Hn2). cbn [mbind option_bind].
    destruct (Z.eqb_spec a 0); [done|]. pose proof (at_byte _ _ _ _ _ 5 Ha ltac:(lia)) as E5.
    change (p_ r + Z.of_nat 5) with 5 in E5. change (desc_buf_ r) with (hd ++ concat ds ++ rest) in E5.
    rewrite E5. done.
  - rewrite Hl. done.
Qed.
End parser.

(** C24. The bytes of a configuration (its descriptor [hd], descriptors [ds], and
    whatever follows in the buffer) are read as the list of descriptors they are.
    Without a boot keyboard or mouse among the interfaces nothing happens.  Else the
    first one gets a new driver, its endpoints are exactly those announced by its
    descriptor, each with that driver, and the configuration is chosen. *)
Theorem configuration_parsed {T} `{Transport T} memory_pool sizeof_keyboard sizeof_mouse hid_buf_offset
    keyboard_observer mouse_observer (w : usb T) hd ds rest :
  config_ok hd ds -> dev_ok (u_dev w) ->
  let phase2 := InitializePhase2 memory_pool sizeof_keyboard sizeof_mouse hid_buf_offset keyboard_observer
                  mouse_observer w (hd ++ concat ds ++ rest) (Z.of_nat (length (hd ++ concat ds))) in
  match boot_interface ds with
  | None => phase2 = Some (kSuccess, w)
  | Some (k, d, ds') => forall a alloc,
      AllocMem memory_pool (u_alloc w) (kind_size sizeof_keyboard sizeof_mouse k) 0 0 = (a, alloc) -> a <> 0 ->
      0 <= num_endpoints d <= 16 -> num_endpoints d <= Z.of_nat (length (endpoints ds')) ->
      let cs := take (Z.to_nat (num_endpoints d)) (endpoints ds') in
      exists w', phase2 = SetConfiguration w' kDefaultControlPipeID (byte hd 5)
        /\ initialize_phase_ (u_dev w') = 3
        /\ u_drivers w' = <[a := new_hid hid_buf_offset keyboard_observer mouse_observer k d a]> (u_drivers w)
        /\ num_ep_configs_ (u_dev w') = num_endpoints d
        /\ take (length cs) (ep_configs_ (u_dev w')) = cs
        /\ forall n, (n < 16)%nat ->
             class_drivers_ (u_dev w') !! n
             = if decide (Exists (fun c => Z.to_nat (ep_Number (ep_id c)) = n) cs) then Some a
               else class_drivers_ (u_dev w) !! n
  end.
Proof.
  intros Hc Hd. pose proof (phase2_spec memory_pool sizeof_keyboard sizeof_mouse hid_buf_offset keyboard_observer
    mouse_observer w hd ds rest Hc Hd) as Hs. cbv zeta in *.
  destruct (boot_interface ds) as [[[k d] ds']|]; [|done]. intros a alloc Hal Hne Hn1 Hn2.
  rewrite (Hs a alloc Hal Hne Hn1 Hn2). set (cs := take _ _).
  assert (Hcs : length cs = Z.to_nat (num_endpoints d)) by (subst cs; rewrite length_take; lia).
  eexists. split; [reflexivity|]. cbn [installed set_dev u_dev u_drivers set_phase initialize_phase_ num_ep_configs_
    ep_configs_ class_drivers_]. split_and!; [done|done| | |].
  - rewrite added_num, Hcs. cbn. lia.
  - apply list_eq. intros i. destruct (decide (i < length cs)%nat).
    + rewrite lookup_take_lt, added_config by (cbn; rewrite ?(dk_configs _ Hd); lia). cbn. rewrite decide_True by lia.
      by rewrite Nat.sub_0_r.
    + rewrite lookup_take_ge by lia. symmetry. apply lookup_ge_None_2. lia.
  - intros n Hn. rewrite added_driver; [done|apply Hd|done].
Qed.

(** Small devices: a transport that accepts everything and counts. *)
Definition demo_transport : Transport Z :=
  {| transfer_in _ _ _ _ t := Some (kSuccess, t + 1);
     transfer_out _ _ _ _ t := Some (kSuccess, t + 1);
     interrupt_in _ _ _ t := Some (kSuccess, t + 1) |}.
Definition blank_ep : EndpointConfig := mkEP 0 kControl 0 0.
Definition demo_dev : Device :=
  mkDev (replicate 16 0) 0x9000 (replicate 256 0) 0 0 false 2 (replicate 16 blank_ep) 0 (replicate 4 (None, 0)).
Definition demo_usb : usb Z := mkUsb demo_dev ∅ 0x100000 [] 0.
Definition demo_hd : list Z := [9; 2; 34; 0; 1; 1; 0; 160; 50].
Definition demo_descs : list (list Z) :=
  [[9; 4; 0; 0; 1; 3; 1; 1; 0]; [9; 33; 17; 1; 0; 1; 34; 63; 0]; [7; 5; 129; 3; 8; 0; 10]].

Lemma demo_config_ok : config_ok demo_hd demo_descs.
Proof.
  constructor; [| |simpl; lia| |simpl; lia].
  - constructor; vm_compute; done || lia.
  - done.
  - repeat constructor; vm_compute; done || lia.
Qed.

Lemma configuration_parsed_witness :
  exists w', InitializePhase2 (T := Z) (H := demo_transport) 0x100000 4096 4096 64 1 2 demo_usb
      (demo_hd ++ concat demo_descs ++ replicate 222 0) (Z.of_nat (length (demo_hd ++ concat demo_descs)))
      = SetConfiguration (H := demo_transport) w' kDefaultControlPipeID (byte demo_hd 5)
    /\ take 1 (ep_configs_ (u_dev w')) = [mkEP 3 kInterrupt 8 10].
Proof.
  destruct (configuration_parsed (T := Z) (H := demo_transport) 0x100000 4096 4096 64 1 2 demo_usb demo_hd demo_descs
    (replicate 222 0) demo_config_ok ltac:(by constructor) 0x100000 0x101000) as (w' & E & _ & _ & _ & Ec & _);
    [reflexivity|done|vm_compute; split; discriminate|vm_compute; discriminate|].
  exists w'. split; [exact E|]. exact Ec.
Defined.

(** A descriptor of length 0 keeps the reader where it is: the search for the next
    interface does not end, whatever the fuel. *)
Lemma zero_length_descriptor_hangs fuel rest len :
  2 < len ->
  Next_as fuel InterfaceDescriptor_kType (mkReader ([2; 2; 0; 0] ++ rest) len 0) = None.
Proof.
  intros Hlen. assert (Hs : forall fuel, Next_as fuel InterfaceDescriptor_kType (mkReader ([2; 2; 0; 0] ++ rest) len 2) = None).
  { clear fuel. induction fuel as [|fuel IH]; [done|]. cbn [Next_as]. unfold Next. cbn [desc_buf_ p_ desc_buf_len_].
    change (([2; 2; 0; 0] ++ rest)$[2]) with (Some 0). cbn [mbind option_bind]. rewrite Z.add_0_r.
    destruct (Z.ltb_spec 2 len); [|lia]. cbn [mbind option_bind desc_buf_].
    change (DescriptorDynamicCast InterfaceDescriptor_kType ([2; 2; 0; 0] ++ rest) 2) with (Some false).
    cbn [mbind option_bind]. exact IH. }
  destruct fuel as [|fuel]; [done|]. cbn [Next_as]. unfold Next. cbn [desc_buf_ p_ desc_buf_len_].
  change (([2; 2; 0; 0] ++ rest)$[0]) with (Some 2). cbn [mbind option_bind]. change (0 + 2) with 2.
  destruct (Z.ltb_spec 2 len); [|lia]. cbn [mbind option_bind desc_buf_].
  change (DescriptorDynamicCast InterfaceDescriptor_kType ([2; 2; 0; 0] ++ rest) 2) with (Some false).
  cbn [mbind option_bind]. apply Hs.
Qed.

(** An interface that announces more endpoints than follow: the null pointer at the
    end of the configuration is read through. *)
Lemma missing_endpoint_faults :
  InitializePhase2 (T := Z) (H := demo_transport) 0x100000 4096 4096 64 1 2 demo_usb
    ([9; 2; 18; 0; 1; 1; 0; 160; 50; 9; 4; 0; 0; 1; 3; 1; 1; 0] ++ replicate 238 0) 18 = None.
Proof. vm_compute. reflexivity. Qed.
