(* ===== verification/UsbProtocol.v ===== *)
(** * Devices over a transport

    What the device layer needs of the class that makes the transfers is the class
    [TransportLaws]: a transfer on an open endpoint is accepted and queued.  Over any
    such transport a device with well formed descriptors is initialised by three
    requests, and the reports of a keyboard or a mouse reach the observers. *)
From Stdlib Require Import ZArith Lia.
From stdpp Require Import base option list gmap numbers.
From S2P Require Import Prelude Error Bits UsbMemory ArrayMap Usb UsbSpec.

Set Default Proof Using "Type".

Inductive transfer :=
| TIn (ep : Z) (sd : SetupData) (buf len : Z)
| TOut (ep : Z) (sd : SetupData) (buf len : Z)
| TInterrupt (ep buf len : Z).

Definition transfer_ep (r : transfer) : Z :=
  match r with TIn ep _ _ _ | TOut ep _ _ _ | TInterrupt ep _ _ => ep end.

Definition start {T} `{Transport T} (r : transfer) (t : T) : option (Code * T) :=
  match r with
  | TIn ep sd buf len => transfer_in ep sd buf len t
  | TOut ep sd buf len => transfer_out ep sd buf len t
  | TInterrupt ep buf len => interrupt_in ep buf len t
  end.

Class TransportLaws (T : Type) `{Transport T} := {
  open_ep : Z -> T -> Prop;
  queued : T -> transfer -> T -> Prop;
  start_open r t : open_ep (transfer_ep r) t -> exists t', start r t = Some (kSuccess, t') /\ queued t r t'
}.

(** The three requests. *)
Definition get_descriptor (type : Z) : SetupData := mkSetup 128 kGetDescriptor (256 * type) 0 256.
Definition set_configuration_to (v : Z) : SetupData := mkSetup 0 kSetConfiguration v 0 0.

Section laws.
Context {T : Type} `{Transport T} `{!TransportLaws T}.

Lemma ControlIn_ok (w : usb T) ep sd buf len :
  open_ep ep (u_xfer w) ->
  exists t', ControlIn w ep sd buf len 0 = Some (kSuccess, set_xfer w t') /\ queued (u_xfer w) (TIn ep sd buf len) t'.
Proof.
  intros Ho. destruct (start_open (TIn ep sd buf len) (u_xfer w) Ho) as (t' & E & HQ). exists t'. split; [|done].
  cbn [start] in E. unfold ControlIn, base_control. simpl (0 =? 0). destruct w as [d ds al ns t]. cbn in *. by rewrite E.
Qed.

Lemma ControlOut_ok (w : usb T) ep sd buf len :
  open_ep ep (u_xfer w) ->
  exists t', ControlOut w ep sd buf len 0 = Some (kSuccess, set_xfer w t') /\ queued (u_xfer w) (TOut ep sd buf len) t'.
Proof.
  intros Ho. destruct (start_open (TOut ep sd buf len) (u_xfer w) Ho) as (t' & E & HQ). exists t'. split; [|done].
  cbn [start] in E. unfold ControlOut, base_control. simpl (0 =? 0). destruct w as [d ds al ns t]. cbn in *. by rewrite E.
Qed.

Lemma InterruptIn_ok (w : usb T) ep buf len :
  open_ep ep (u_xfer w) ->
  exists t', InterruptIn w ep buf len = Some (kSuccess, set_xfer w t')
    /\ queued (u_xfer w) (TInterrupt ep buf len) t'.
Proof.
  intros Ho. destruct (start_open (TInterrupt ep buf len) (u_xfer w) Ho) as (t' & E & HQ). exists t'. split; [|done].
  cbn [start] in E. unfold InterruptIn. by rewrite E.
Qed.

(** ** The last phase *)
Definition set_all (h : HIDDriver) (cs : list EndpointConfig) : HIDDriver :=
  foldl (fun h c => (SetEndpoint h c).2) h cs.

(** The interrupt endpoint towards the host that the driver polls: the last one. *)
Definition in_endpoint (cs : list EndpointConfig) (e : Z) : Z :=
  foldl (fun e c => if bool_decide (ep_type c = kInterrupt) && ep_IsIn (ep_id c) then ep_id c else e) e cs.

Lemma set_all_in h cs :
  ep_interrupt_in_ (set_all h cs) = in_endpoint cs (ep_interrupt_in_ h)
  /\ hid_kind (set_all h cs) = hid_kind h.
Proof.
  revert h. induction cs as [|c cs IH]; intros h; [done|]. unfold set_all, in_endpoint. cbn [foldl].
  destruct (IH (SetEndpoint h c).2) as [E1 E2]. unfold set_all, in_endpoint in E1, E2. rewrite E1, E2.
  unfold SetEndpoint. cbn [snd]. destruct (bool_decide _ && ep_IsIn _) eqn:E; cbn; [done|].
  destruct (bool_decide _ && negb _); done.
Qed.

Lemma phase3_ok (w : usb T) a h cs :
  dev_ok (u_dev w) -> u_drivers w !! a = Some h ->
  num_ep_configs_ (u_dev w) = Z.of_nat (length cs) -> take (length cs) (ep_configs_ (u_dev w)) = cs ->
  (forall c, c ∈ cs -> 0 <= ep_Number (ep_id c) < 16
     /\ class_drivers_ (u_dev w) !! Z.to_nat (ep_Number (ep_id c)) = Some a) ->
  exists w', InitializePhase3 w = Some (kSuccess, w')
    /\ u_dev w' = set_phase (u_dev w) true 4
    /\ u_drivers w' = <[a := set_all h cs]> (u_drivers w)
    /\ u_alloc w' = u_alloc w /\ u_notes w' = u_notes w /\ u_xfer w' = u_xfer w.
Proof.
  intros Hd Ha Hn Hcs Hdr. unfold InitializePhase3. rewrite Hn.
  match goal with |- context [for_range 0 _ ?body w] =>
    destruct (for_range_inv (fun i (v : usb T) =>
        v = mkUsb (u_dev w) (<[a := set_all h (take (Z.to_nat i) cs)]> (u_drivers w)) (u_alloc w) (u_notes w) (u_xfer w))
      0 (Z.of_nat (length cs)) body w) as (v & E & Hv); [lia| | |]
  end.
  - rewrite take_0. cbn. rewrite insert_id by done. by destruct w.
  - intros i v Hi ->. cbn [u_dev u_drivers].
    destruct (lookup_lt_is_Some_2 cs (Z.to_nat i)) as [c Ec]; [lia|].
    assert (Ec' : (ep_configs_ (u_dev w))$[i] = Some c).
    { rewrite <- (Z2Nat.id i) by lia. rewrite lookupZ_nat. rewrite <- Hcs in Ec.
      rewrite lookup_take_lt in Ec by lia. done. }
    destruct (Hdr c) as [Hk Hka]; [by eapply list_elem_of_lookup_2|].
    rewrite Ec'. cbn [mbind option_bind]. rewrite <- (Z2Nat.id (ep_Number (ep_id c))) by lia.
    rewrite lookupZ_nat, Hka. cbn [mbind option_bind]. rewrite lookup_insert_eq. cbn [mbind option_bind].
    eexists. split; [reflexivity|]. unfold set_driver. cbn. rewrite insert_insert_eq. f_equal. f_equal.
    replace (Z.to_nat (i + 1)) with (S (Z.to_nat i)) by lia. rewrite (take_S_r _ _ _ Ec).
    unfold set_all. by rewrite foldl_snoc.
  - rewrite E. cbn [mbind option_bind]. subst v. rewrite Nat2Z.id, firstn_all. eexists. split; [reflexivity|]. done.
Qed.
End laws.

(** ** The whole initialisation *)

(** The configuration has a boot interface with its endpoints. *)
Record hid_config (hd : list Z) (ds : list (list Z)) (k : HIDKind) (d : InterfaceDescriptor) (cs : list EndpointConfig)
  : Prop := {
  hc_config : config_ok hd ds;
  hc_boot : exists ds', boot_interface ds = Some (k, d, ds')
    /\ num_endpoints d <= Z.of_nat (length (endpoints ds'))
    /\ cs = take (Z.to_nat (num_endpoints d)) (endpoints ds');
  hc_num : 0 <= num_endpoints d <= 16
}.

Section enumeration.
Context {T : Type} `{Transport T} `{!TransportLaws T}.
Context (memory_pool sizeof_keyboard sizeof_mouse hid_buf_offset keyboard_observer mouse_observer : Z).
Local Notation completed :=
  (OnControlCompleted memory_pool sizeof_keyboard sizeof_mouse hid_buf_offset keyboard_observer mouse_observer).
Local Notation ksize := (kind_size sizeof_keyboard sizeof_mouse).
Local Notation khid := (new_hid hid_buf_offset keyboard_observer mouse_observer).

Lemma start_ok (w : usb T) :
  open_ep kDefaultControlPipeID (u_xfer w) ->
  exists t', StartInitialize w = Some (kSuccess, set_xfer (set_dev w (set_phase (u_dev w) false 1)) t')
    /\ queued (u_xfer w) (TIn kDefaultControlPipeID (get_descriptor 1) (dev_buf_addr (u_dev w)) 256) t'.
Proof.
  intros Ho. unfold StartInitialize, GetDescriptor.
  destruct (ControlIn_ok (set_dev w (set_phase (u_dev w) false 1)) kDefaultControlPipeID (get_descriptor 1)
    (dev_buf_addr (u_dev w)) 256 Ho) as (t' & E & HQ). exists t'. split; [exact E|exact HQ].
Qed.

Lemma phase1_ok (w : usb T) dd n :
  open_ep kDefaultControlPipeID (u_xfer w) -> is_initialized_ (u_dev w) = false -> initialize_phase_ (u_dev w) = 1 ->
  (18 <= length dd)%nat -> desc_type dd = DeviceDescriptor_kType ->
  exists t', completed w kDefaultControlPipeID (get_descriptor 1) (Some dd) n
      = Some (kSuccess, set_xfer (set_dev w (set_phase (set_configuration (u_dev w) (byte dd 17) 0) false 2)) t')
    /\ queued (u_xfer w) (TIn kDefaultControlPipeID (get_descriptor 2) (dev_buf_addr (u_dev w)) 256) t'.
Proof.
  intros Ho Hi Hp Hl Ht. unfold OnControlCompleted. rewrite Hi, Hp. cbn [get_descriptor sd_request].
  change (1 =? 1) with true. change (kGetDescriptor =? kGetDescriptor) with true. cbn [mbind option_bind].
  pose proof (byte_at [] dd [] 1 ltac:(lia)) as E1. pose proof (byte_at [] dd [] 17 ltac:(lia)) as E17.
  rewrite app_nil_r in E1, E17. change ([] ++ dd) with dd in E1, E17.
  unfold DescriptorDynamicCast. change (0 + 1) with (Z.of_nat (length (@nil Z)) + Z.of_nat 1). rewrite E1.
  cbn [mbind option_bind]. unfold desc_type in Ht. rewrite Ht. change (_ =? _) with true. cbv iota.
  unfold InitializePhase1. change 17 with (Z.of_nat (length (@nil Z)) + Z.of_nat 17) at 1. rewrite E17.
  cbn [mbind option_bind]. rewrite Hi. unfold GetDescriptor.
  destruct (ControlIn_ok (set_dev w (set_phase (set_configuration (u_dev w) (byte dd 17) 0) false 2))
    kDefaultControlPipeID (get_descriptor 2) (dev_buf_addr (u_dev w)) 256 Ho) as (t' & E & HQ).
  exists t'. split; [exact E|exact HQ].
Qed.

Lemma phase2_ok (w : usb T) hd ds rest k d cs a alloc :
  open_ep kDefaultControlPipeID (u_xfer w) -> is_initialized_ (u_dev w) = false -> initialize_phase_ (u_dev w) = 2 ->
  dev_ok (u_dev w) -> hid_config hd ds k d cs ->
  AllocMem memory_pool (u_alloc w) (ksize k) 0 0 = (a, alloc) -> a <> 0 ->
  let w' := installed w a alloc (khid k d a) cs in
  exists t', completed w kDefaultControlPipeID (get_descriptor 2) (Some (hd ++ concat ds ++ rest))
               (Z.of_nat (length (hd ++ concat ds)))
      = Some (kSuccess, set_xfer (set_dev w' (set_phase (u_dev w') false 3)) t')
    /\ queued (u_xfer w) (TOut kDefaultControlPipeID (set_configuration_to (byte hd 5)) 0 0) t'.
Proof.
  intros Ho Hi Hp Hd [Hc (ds' & Eb & Hn & ->) Hn16] Hal Hne w'.
  pose proof (phase2_spec memory_pool sizeof_keyboard sizeof_mouse hid_buf_offset keyboard_observer mouse_observer
    w hd ds rest Hc Hd) as Hs. cbv zeta in Hs. rewrite Eb in Hs. specialize (Hs a alloc Hal Hne Hn16 Hn). fold w' in Hs.
  unfold OnControlCompleted. rewrite Hi, Hp. change (2 =? 1) with false. change (2 =? 2) with true.
  cbn [get_descriptor sd_request]. change (kGetDescriptor =? kGetDescriptor) with true. cbn [mbind option_bind].
  assert (E : DescriptorDynamicCast ConfigurationDescriptor_kType (hd ++ concat ds ++ rest) 0 = Some true).
  { pose proof (cast_at ConfigurationDescriptor_kType (mkReader (hd ++ concat ds ++ rest)
      (Z.of_nat (length (hd ++ concat ds))) 0) [] hd ds rest ltac:(done) (cf_head _ _ Hc)) as E.
    cbn [p_ desc_buf_] in E. by rewrite E, (cf_type _ _ Hc). }
  rewrite E. cbn [mbind option_bind]. rewrite Hs.
  assert (Hi' : is_initialized_ (u_dev w') = false).
  { subst w'. cbn [installed u_dev]. destruct (added_same a (set_endpoints (u_dev w) (class_drivers_ (u_dev w)) (ep_configs_ (u_dev w)) 0)
      (take (Z.to_nat (num_endpoints d)) (endpoints ds'))) as (_ & -> & _). done. }
  rewrite Hi'. unfold SetConfiguration.
  destruct (ControlOut_ok (set_dev w' (set_phase (u_dev w') false 3)) kDefaultControlPipeID
    (set_configuration_to (byte hd 5)) 0 0) as (t' & E' & HQ); [exact Ho|].
  exists t'. split; [exact E'|exact HQ].
Qed.
End enumeration.

(** C23. Over any transport that keeps its laws a device with a boot keyboard or mouse
    is initialised by exactly three requests, whatever the transport does between
    them ([t1], [t2], [t3]): the device descriptor, the configuration descriptor, and
    the choice of that configuration.  In the end the device is initialised, has the
    endpoints of the configuration, and the new class driver polls the interrupt
    endpoint towards the host. *)
Theorem device_enumerates {T} `{Transport T} `{!TransportLaws T} memory_pool sizeof_keyboard sizeof_mouse
    hid_buf_offset keyboard_observer mouse_observer (w : usb T) (t1 t2 t3 : T) dd n hd ds rest k d cs a alloc :
  let completed :=
    OnControlCompleted memory_pool sizeof_keyboard sizeof_mouse hid_buf_offset keyboard_observer mouse_observer in
  let pipe := kDefaultControlPipeID in
  let buf := dev_buf_addr (u_dev w) in
  dev_ok (u_dev w) ->
  open_ep pipe (u_xfer w) -> open_ep pipe t1 -> open_ep pipe t2 ->
  (18 <= length dd)%nat -> desc_type dd = DeviceDescriptor_kType ->
  hid_config hd ds k d cs ->
  AllocMem memory_pool (u_alloc w) (kind_size sizeof_keyboard sizeof_mouse k) 0 0 = (a, alloc) -> a <> 0 ->
  exists w1 w2 w3 w4,
    (StartInitialize w = Some (kSuccess, w1) /\ queued (u_xfer w) (TIn pipe (get_descriptor 1) buf 256) (u_xfer w1))
    /\ (completed (set_xfer w1 t1) pipe (get_descriptor 1) (Some dd) n = Some (kSuccess, w2)
        /\ queued t1 (TIn pipe (get_descriptor 2) buf 256) (u_xfer w2))
    /\ (completed (set_xfer w2 t2) pipe (get_descriptor 2) (Some (hd ++ concat ds ++ rest))
          (Z.of_nat (length (hd ++ concat ds))) = Some (kSuccess, w3)
        /\ queued t2 (TOut pipe (set_configuration_to (byte hd 5)) 0 0) (u_xfer w3))
    /\ completed (set_xfer w3 t3) pipe (set_configuration_to (byte hd 5)) None 0 = Some (kSuccess, w4)
    /\ is_initialized_ (u_dev w4) = true
    /\ num_ep_configs_ (u_dev w4) = num_endpoints d
    /\ take (length cs) (ep_configs_ (u_dev w4)) = cs
    /\ (exists h, u_drivers w4 !! a = Some h /\ hid_kind h = k /\ ep_interrupt_in_ h = in_endpoint cs 0).
Proof.
  intros completed pipe buf Hd Ho Ho1 Ho2 Hl Ht Hc Hal Hne.
  destruct (start_ok w Ho) as (s1 & E1 & Q1).
  set (w1 := set_xfer (set_dev w (set_phase (u_dev w) false 1)) s1) in *.
  destruct (phase1_ok memory_pool sizeof_keyboard sizeof_mouse hid_buf_offset keyboard_observer mouse_observer
    (set_xfer w1 t1) dd n Ho1 eq_refl eq_refl Hl Ht) as (s2 & E2 & Q2).
  set (w2 := set_xfer (set_dev (set_xfer w1 t1) _) s2) in *.
  destruct (phase2_ok memory_pool sizeof_keyboard sizeof_mouse hid_buf_offset keyboard_observer mouse_observer
    (set_xfer w2 t2) hd ds rest k d cs a alloc Ho2 eq_refl eq_refl) as (s3 & E3 & Q3);
    [by destruct Hd|done|done|done|].
  set (wi := installed (set_xfer w2 t2) a alloc _ cs) in *.
  set (w3 := set_xfer (set_dev wi _) s3) in *.
  destruct Hc as [Hc (ds' & Eb & Hn & Ecs) Hn16].
  assert (Hcs : length cs = Z.to_nat (num_endpoints d)) by (rewrite Ecs, length_take; lia).
  set (d0 := set_endpoints (u_dev w2) (class_drivers_ (u_dev w2)) (ep_configs_ (u_dev w2)) 0).
  assert (Hd0 : dev_ok d0) by (by destruct Hd).
  assert (Hcf : take (length cs) (ep_configs_ (foldl (add_endpoint a) d0 cs)) = cs).
  { apply list_eq. intros i. destruct (decide (i < length cs)%nat).
    - rewrite lookup_take_lt, added_config by (try apply Hd0; cbn [d0 num_ep_configs_ set_endpoints];
        rewrite ?(dk_configs _ Hd0); lia). cbn [d0 num_ep_configs_ set_endpoints]. rewrite decide_True by lia.
      by rewrite Nat.sub_0_r.
    - rewrite lookup_take_ge by lia. symmetry. apply lookup_ge_None_2. lia. }
  assert (Hnum : num_ep_configs_ (foldl (add_endpoint a) d0 cs) = Z.of_nat (length cs)) by (by rewrite added_num).
  destruct (phase3_ok (set_xfer w3 t3) a (new_hid hid_buf_offset keyboard_observer mouse_observer k d a) cs)
    as (w4 & E4 & Ed & Edr & _); [destruct (added_dev_ok a d0 cs Hd0); by constructor|apply lookup_insert_eq|exact Hnum|exact Hcf| |].
  { intros c Hin. assert (Hr : 0 <= ep_Number (ep_id c) < 16).
    { rewrite Ecs in Hin. apply elem_of_take in Hin as (i & Hin & _).
      apply list_elem_of_lookup_2 in Hin. unfold endpoints in Hin.
      apply list_elem_of_fmap in Hin as (b & -> & _). rewrite endpoint_number. apply Z.mod_pos_bound. lia. }
    split; [done|]. change (class_drivers_ (foldl (add_endpoint a) d0 cs) !! Z.to_nat (ep_Number (ep_id c)) = Some a).
    rewrite added_driver by (apply Hd0 || lia). rewrite decide_True; [done|]. apply list.Exists_exists. by exists c. }
  exists w1, w2, w3, w4. split_and!; [exact E1|exact Q1|exact E2|exact Q2|exact E3|exact Q3| | | | |].
  - unfold completed, OnControlCompleted. change (is_initialized_ (u_dev (set_xfer w3 t3))) with false.
    change (initialize_phase_ (u_dev (set_xfer w3 t3))) with 3. cbn [set_configuration_to sd_request]. exact E4.
  - by rewrite Ed.
  - rewrite Ed. change (num_ep_configs_ (foldl (add_endpoint a) d0 cs) = num_endpoints d). rewrite Hnum. lia.
  - rewrite Ed. exact Hcf.
  - exists (set_all (new_hid hid_buf_offset keyboard_observer mouse_observer k d a) cs).
    rewrite Edr. split; [apply lookup_insert_eq|]. destruct (set_all_in (new_hid hid_buf_offset keyboard_observer mouse_observer k d a) cs)
      as [-> ->]. done.
Qed.

(** The transport of the example keeps the laws: it accepts everything. *)
Definition demo_laws : @TransportLaws Z demo_transport.
Proof.
  refine (@Build_TransportLaws Z demo_transport (fun _ _ => True) (fun t _ t' => t' = t + 1) _).
  intros [] t _; by eexists.
Defined.

Definition demo_dd : list Z := [18; 1; 0; 2; 0; 0; 0; 8; 1; 0; 1; 0; 0; 1; 0; 0; 0; 1].

Lemma demo_hid_config :
  hid_config demo_hd demo_descs HIDKeyboard (mkIf 0 1 3 1 1) [mkEP 3 kInterrupt 8 10].
Proof.
  constructor; [apply demo_config_ok| |simpl; lia]. exists (tl demo_descs).
  split_and!; [reflexivity|vm_compute; discriminate|reflexivity].
Qed.

Lemma device_enumerates_witness :
  exists w1 w2 w3 w4,
    StartInitialize (H := demo_transport) demo_usb = Some (kSuccess, w1)
    /\ OnControlCompleted (H := demo_transport) 0x100000 4096 4096 64 1 2 (set_xfer w1 7) kDefaultControlPipeID
         (get_descriptor 1) (Some demo_dd) 18 = Some (kSuccess, w2)
    /\ OnControlCompleted (H := demo_transport) 0x100000 4096 4096 64 1 2 (set_xfer w2 8) kDefaultControlPipeID
         (get_descriptor 2) (Some (demo_hd ++ concat demo_descs ++ replicate 222 0)) 34 = Some (kSuccess, w3)
    /\ OnControlCompleted (H := demo_transport) 0x100000 4096 4096 64 1 2 (set_xfer w3 9) kDefaultControlPipeID
         (set_configuration_to 1) None 0 = Some (kSuccess, w4)
    /\ is_initialized_ (u_dev w4) = true
    /\ exists h, u_drivers w4 !! 0x100000 = Some h /\ ep_interrupt_in_ h = 3.
Proof.
  destruct (@device_enumerates Z demo_transport demo_laws 0x100000 4096 4096 64 1 2 demo_usb 7 8 9 demo_dd 18
    demo_hd demo_descs (replicate 222 0) HIDKeyboard (mkIf 0 1 3 1 1) [mkEP 3 kInterrupt 8 10] 0x100000 0x101000)
    as (w1 & w2 & w3 & w4 & [E1 _] & [E2 _] & [E3 _] & E4 & Ei & _ & _ & h & Eh & _ & Ein);
    [by constructor|done|done|done|simpl; lia|done|apply demo_hid_config|reflexivity|done|].
  exists w1, w2, w3, w4. split_and!; [exact E1|exact E2|exact E3|exact E4|exact Ei|]. by exists h.
Defined.

(** ** Reports of a keyboard or a mouse *)
Lemma lookupZ_pos {A} (l : list A) i : 0 <= i -> l$[i] = l !! Z.to_nat i.
Proof. intros. by rewrite <- lookupZ_nat, Z2Nat.id. Qed.

Lemma notify_all {N} (g : Z -> N) (l : list Z) n :
  0 <= n <= Z.of_nat (length l) ->
  for_range 0 n (fun i ns => o ← l$[i]; Some (ns ++ [g o])) [] = Some (g <$> take (Z.to_nat n) l).
Proof.
  intros Hn. match goal with |- for_range 0 n ?body [] = _ =>
    destruct (for_range_inv (fun i ns => ns = g <$> take (Z.to_nat i) l) 0 n body []) as (ns & -> & ->); [lia|done| |done] end.
  intros i ns Hi ->. destruct (lookup_lt_is_Some_2 l (Z.to_nat i)) as [o Eo]; [lia|].
  rewrite lookupZ_pos, Eo by lia. cbn [mbind option_bind]. eexists. split; [done|].
  replace (Z.to_nat (i + 1)) with (S (Z.to_nat i)) by lia. by rewrite (take_S_r _ _ _ Eo), fmap_app.
Qed.

(** What the observers [os] are told of a report when [prev] was the one before. *)
Definition key_notes (os prev : list Z) (key : Z) : list note :=
  if (key =? 0) || bool_decide (key ∈ prev) then [] else (fun o => KeyPush o key) <$> os.
Definition report_notes (k : HIDKind) (os prev report : list Z) : list note :=
  match k with
  | HIDKeyboard => concat (key_notes os prev <$> drop 2 report)
  | HIDMouse => (fun o => MouseMove o (int8 (byte report 1)) (int8 (byte report 2))) <$> os
  end.
Fixpoint all_notes (k : HIDKind) (os prev : list Z) (reports : list (list Z)) : list note :=
  match reports with
  | [] => []
  | r :: rs => report_notes k os prev r ++ all_notes k os r rs
  end.

(** A driver in operation whose last report was [prev]. *)
Record hid_ok (h : HIDDriver) (prev : list Z) : Prop := {
  ho_packet : in_packet_size_ h = kind_packet (hid_kind h);
  ho_prev : Z.of_nat (length prev) = in_packet_size_ h;
  ho_previous : previous_buf_ h = prev ++ replicate (Z.to_nat (kBufferSize - in_packet_size_ h)) 0;
  ho_buf : Z.of_nat (length (hid_buf_ h)) = kBufferSize;
  ho_observers : 0 <= num_observers_ h <= Z.of_nat (length (observers_ h))
}.

Definition subscribed (h : HIDDriver) : list Z := take (Z.to_nat (num_observers_ h)) (observers_ h).

(** The controller puts a report into the buffer of the driver. *)
Definition receive (h : HIDDriver) (report : list Z) : HIDDriver :=
  mkHID (hid_kind h) (hid_buf_addr h) (ep_interrupt_in_ h) (ep_interrupt_out_ h) (interface_index_ h)
    (in_packet_size_ h) (hid_phase_ h) (report ++ drop (length report) (hid_buf_ h)) (previous_buf_ h)
    (observers_ h) (num_observers_ h).

Lemma elem_of_prev key prev n : key <> 0 -> key ∈ prev ++ replicate n 0 <-> key ∈ prev.
Proof.
  intros Hk. rewrite elem_of_app. split; [|by left]. intros [?|Hin]; [done|].
  apply elem_of_replicate in Hin as [-> _]. done.
Qed.

Lemma keyboard_notes h prev report :
  hid_kind h = HIDKeyboard -> hid_ok h prev -> Z.of_nat (length report) = in_packet_size_ h ->
  keyboard_OnDataReceived (receive h report) = Some (report_notes HIDKeyboard (subscribed h) prev report).
Proof.
  intros Hk [Hp Hpl Hpr Hb Ho] Hr. rewrite Hk in Hp. cbn [kind_packet] in Hp. unfold keyboard_OnDataReceived.
  match goal with |- for_range 2 8 ?body [] = _ =>
    destruct (for_range_inv (fun i ns => ns = concat (key_notes (subscribed h) prev <$> take (Z.to_nat (i - 2)) (drop 2 report)))
      2 8 body []) as (ns & -> & ->); [lia|done| |] end.
  - intros i ns Hi ->. destruct (lookup_lt_is_Some_2 report (Z.to_nat i)) as [key Ek]; [lia|].
    cbn [receive hid_buf_ previous_buf_]. rewrite lookupZ_pos, lookup_app_l, Ek by lia. cbn [mbind option_bind].
    assert (Ed : drop 2 report !! Z.to_nat (i - 2) = Some key).
    { rewrite lookup_drop. by replace (2 + Z.to_nat (i - 2))%nat with (Z.to_nat i) by lia. }
    replace (Z.to_nat (i + 1 - 2)) with (S (Z.to_nat (i - 2))) by lia.
    rewrite (take_S_r _ _ _ Ed), fmap_app, concat_app. cbn [fmap list_fmap concat]. rewrite app_nil_r.
    set (before := concat _).
    assert (Ekn : key_notes (subscribed h) prev key
      = if (key =? 0) || bool_decide (key ∈ prev) then [] else (fun o => KeyPush o key) <$> subscribed h) by done.
    rewrite Ekn. destruct (Z.eqb_spec key 0) as [|Hne]; cbn [orb]; [exists before; by rewrite app_nil_r|].
    rewrite Hpr. rewrite (bool_decide_ext _ _ (elem_of_prev key prev _ Hne)).
    case_bool_decide; [exists before; by rewrite app_nil_r|]. unfold NotifyKeyPush.
    cbn [receive num_observers_ observers_]. rewrite notify_all by done. cbn [mbind option_bind]. by eexists.
  - cbn [report_notes]. do 3 f_equal. apply take_ge. rewrite length_drop. lia.
Qed.

Lemma OnDataReceived_notes h prev report :
  hid_ok h prev -> Z.of_nat (length report) = in_packet_size_ h ->
  OnDataReceived (receive h report) = Some (report_notes (hid_kind h) (subscribed h) prev report).
Proof.
  intros Hh Hr. unfold OnDataReceived. cbn [receive hid_kind]. destruct (hid_kind h) eqn:Hk.
  - by apply keyboard_notes.
  - destruct Hh as [Hp Hpl Hpr Hb Ho]. rewrite Hk in Hp. cbn [kind_packet] in Hp. unfold mouse_OnDataReceived.
    cbn [receive hid_buf_].
    pose proof (byte_at [] report (drop (length report) (hid_buf_ h)) 1 ltac:(lia)) as E1.
    pose proof (byte_at [] report (drop (length report) (hid_buf_ h)) 2 ltac:(lia)) as E2.
    change (Z.of_nat (length (@nil Z)) + Z.of_nat 1) with 1 in E1.
    change (Z.of_nat (length (@nil Z)) + Z.of_nat 2) with 2 in E2. cbn [app] in E1, E2.
    rewrite E1. cbn [mbind option_bind]. rewrite E2. cbn [mbind option_bind]. unfold NotifyMouseMove.
    cbn [receive num_observers_ observers_]. by rewrite notify_all.
Qed.

Section reports.
Context {T : Type} `{Transport T} `{!TransportLaws T}.

(** Reports arrive one after the other, each completed by an event on endpoint
    [ep]; [ts] are the states of the transport at these events.  The result has the
    states before and after each new request. *)
Fixpoint run_reports (w : usb T) (a ep : Z) (reports : list (list Z)) (ts : list T) : option (usb T * list (T * T)) :=
  match reports, ts with
  | r :: reports, t :: ts =>
      h ← u_drivers w !! a;
      '(err, w) ← OnInterruptCompleted (set_xfer (set_driver w a (receive h r)) t) ep (Z.of_nat (length r));
      if is_error err then None
      else '(w', polls) ← run_reports w a ep reports ts; Some (w', (t, u_xfer w) :: polls)
  | _, _ => Some (w, [])
  end.

Lemma report_step (w : usb T) a ep h prev r t :
  (class_drivers_ (u_dev w))$[ep_Number ep] = Some a -> a <> 0 -> ep_IsIn ep = true ->
  u_drivers w !! a = Some h -> hid_ok h prev -> Z.of_nat (length r) = in_packet_size_ h ->
  open_ep (ep_interrupt_in_ h) t ->
  exists w' h', OnInterruptCompleted (set_xfer (set_driver w a (receive h r)) t) ep (Z.of_nat (length r))
      = Some (kSuccess, w')
    /\ queued t (TInterrupt (ep_interrupt_in_ h) (hid_buf_addr h) (in_packet_size_ h)) (u_xfer w')
    /\ u_dev w' = u_dev w /\ u_drivers w' !! a = Some h' /\ hid_ok h' r
    /\ u_notes w' = u_notes w ++ report_notes (hid_kind h) (subscribed h) prev r
    /\ hid_kind h' = hid_kind h /\ subscribed h' = subscribed h /\ in_packet_size_ h' = in_packet_size_ h
    /\ ep_interrupt_in_ h' = ep_interrupt_in_ h /\ hid_buf_addr h' = hid_buf_addr h.
Proof.
  intros Hcd Hne Hin Ha Hh Hr Ho. pose proof (OnDataReceived_notes h prev r Hh Hr) as En.
  destruct Hh as [Hp Hpl Hpr Hb Hob]. unfold OnInterruptCompleted. cbn [set_xfer set_driver u_dev]. rewrite Hcd.
  cbn [mbind option_bind]. destruct (Z.eqb_spec a 0); [done|]. unfold hid_OnInterruptCompleted.
  cbn [set_xfer set_driver u_drivers]. rewrite lookup_insert_eq. cbn [mbind option_bind]. rewrite Hin, En.
  cbn [mbind option_bind]. unfold copy_previous.
  assert (Hsz : in_packet_size_ h <= 8) by (rewrite Hp; destruct (hid_kind h); simpl; lia).
  destruct (Z.ltb_spec kBufferSize (Z.of_nat (length r))) as [Hbig|_]; [unfold kBufferSize in Hbig; lia|].
  cbn [mbind option_bind]. rewrite Nat2Z.id.
  match goal with |- context [InterruptIn ?v (ep_interrupt_in_ ?h') _ _] => set (h2 := h'); set (v2 := v) end.
  destruct (InterruptIn_ok v2 (ep_interrupt_in_ h) (hid_buf_addr h) (in_packet_size_ h)) as (t' & E & HQ); [done|].
  exists (set_xfer v2 t'), h2. split_and!; [exact E|exact HQ|done|apply lookup_insert_eq| |done..].
  constructor; cbn [h2 receive in_packet_size_ hid_kind previous_buf_ hid_buf_ num_observers_ observers_]; [done|done| | |done].
  - rewrite take_app_length, Hpr. f_equal. replace (length r) with (length prev) by lia. apply drop_app_length.
  - rewrite length_app, length_drop. unfold kBufferSize in *. lia.
Qed.

End reports.

Lemma reports_run {T} `{Transport T} `{!TransportLaws T} (w : usb T) a ep h prev reports ts :
  (class_drivers_ (u_dev w))$[ep_Number ep] = Some a -> a <> 0 -> ep_IsIn ep = true ->
  u_drivers w !! a = Some h -> hid_ok h prev ->
  Forall (fun r => Z.of_nat (length r) = in_packet_size_ h) reports ->
  length ts = length reports -> Forall (open_ep (ep_interrupt_in_ h)) ts ->
  exists w' polls, run_reports w a ep reports ts = Some (w', polls)
    /\ u_notes w' = u_notes w ++ all_notes (hid_kind h) (subscribed h) prev reports
    /\ polls.*1 = ts
    /\ Forall (fun '(t, t') => queued t (TInterrupt (ep_interrupt_in_ h) (hid_buf_addr h) (in_packet_size_ h)) t') polls.
Proof.
  revert w h prev ts. induction reports as [|r reports IH]; intros w h prev ts Hcd Hne Hin Ha Hh Hrs Hl Hts.
  - destruct ts; [|done]. exists w, []. cbn. rewrite app_nil_r. by repeat split.
  - destruct ts as [|t ts]; [done|]. apply list.Forall_cons in Hrs as [Hr Hrs]. apply list.Forall_cons in Hts as [Ht Hts].
    cbn [run_reports]. rewrite Ha. cbn [mbind option_bind].
    destruct (report_step w a ep h prev r t Hcd Hne Hin Ha Hh Hr Ht)
      as (w1 & h1 & -> & Q & Ed & Ea & Hh1 & En & Ek & Es & Epk & Eep & Ebf). cbn [mbind option_bind].
    change (is_error kSuccess) with false. cbv iota.
    destruct (IH w1 h1 r ts) as (w2 & polls & -> & En2 & Ets & Hp);
      [by rewrite Ed|done|done|done|done|by rewrite Epk|simpl in Hl; lia|by rewrite Eep|].
    cbn [mbind option_bind]. exists w2, ((t, u_xfer w1) :: polls). split; [done|].
    rewrite Ek, Es in En2. rewrite Eep, Ebf, Epk in Hp. cbn [all_notes].
    split; [by rewrite En2, En, app_assoc|]. split; [cbn; by rewrite Ets|]. by constructor.
Qed.


Definition demo_hid : HIDDriver :=
  set_all (new_hid 64 1 2 HIDKeyboard (mkIf 0 1 3 1 1) 0x100000) [mkEP 3 kInterrupt 8 10].
Definition demo_running : usb Z :=
  mkUsb (set_endpoints demo_dev (<[1%nat := 0x100000]> (replicate 16 0)) (ep_configs_ demo_dev) 1)
    {[0x100000 := demo_hid]} 0x101000 [] 0.


(** The comparison takes in the modifier byte of the report before: the key with code
    4 (A) is not reported when the left Alt key (modifier 4) was down before. *)
Lemma key_lost_after_modifier : all_notes HIDKeyboard [1] (replicate 8 0) [[4; 0; 0; 0; 0; 0; 0; 0]; [4; 0; 4; 0; 0; 0; 0; 0]] = [].
Proof. vm_compute. reflexivity. Qed.
