(* ===== verification/Trb.v ===== *)
(** * Transfer request blocks, src/src/usb/xhci/trb.hpp

    The unions of the header as functions that build and read the four words of a
    [TRB].  A 64-bit field is spread over the first two words. *)
From Stdlib Require Import ZArith Lia.
From stdpp Require Import base option list numbers.
From S2P Require Import Prelude Error Bits Ring Usb.

Set Default Proof Using "Type".

Definition parameter (t : TRB) : Z := Z.lor (trb_data0 t) (Z.shiftl (trb_data1 t) 32).
Definition set_parameter (p : Z) (t : TRB) : TRB := mkTRB (u32 p) (u32 (Z.shiftr p 32)) (trb_data2 t) (trb_data3 t).
Definition map_status (f : Z -> Z) (t : TRB) : TRB := mkTRB (trb_data0 t) (trb_data1 t) (f (trb_data2 t)) (trb_data3 t).
Definition map_control (f : Z -> Z) (t : TRB) : TRB := mkTRB (trb_data0 t) (trb_data1 t) (trb_data2 t) (f (trb_data3 t)).

Definition set_type (type : Z) (t : TRB) : TRB := map_control (set_field 10 6 type) t.
Definition set_transfer_length (len : Z) (t : TRB) : TRB := map_status (set_field 0 17 len) t.
Definition set_interrupt_on_completion (b : bool) (t : TRB) : TRB := map_control (set_bit 5 b) t.
Definition set_direction (b : bool) (t : TRB) : TRB := map_control (set_bit 16 b) t.

(** ** Transfers *)
Definition NormalTRB_Type : Z := 1.
Definition SetupStageTRB_Type : Z := 2.
Definition DataStageTRB_Type : Z := 3.
Definition StatusStageTRB_Type : Z := 4.
Definition kNoDataStage : Z := 0.
Definition kOutDataStage : Z := 2.
Definition kInDataStage : Z := 3.

Definition SetupStageTRB : TRB :=
  set_transfer_length 8 (map_control (set_bit 6 true) (set_type SetupStageTRB_Type TRB_zero)).

(** [MakeSetupStageTRB] of src/src/usb/xhci/device.cpp, and the request that a
    completion reads back. *)
Definition MakeSetupStageTRB (sd : SetupData) (transfer_type : Z) : TRB :=
  let s := SetupStageTRB in
  mkTRB
    (set_field 16 16 (sd_value sd) (set_field 8 8 (sd_request sd) (set_field 0 8 (sd_request_type sd) (trb_data0 s))))
    (set_field 16 16 (sd_length sd) (set_field 0 16 (sd_index sd) (trb_data1 s)))
    (trb_data2 s)
    (set_field 16 2 transfer_type (trb_data3 s)).

Definition setup_data_of (t : TRB) : SetupData :=
  mkSetup (get_field 0 8 (trb_data0 t)) (get_field 8 8 (trb_data0 t)) (get_field 16 16 (trb_data0 t))
    (get_field 0 16 (trb_data1 t)) (get_field 16 16 (trb_data1 t)).

Definition DataStageTRB : TRB := set_type DataStageTRB_Type TRB_zero.
Definition MakeDataStageTRB (buf len : Z) (dir_in : bool) : TRB :=
  set_direction dir_in
    (map_status (set_field 17 5 0) (set_transfer_length len (set_parameter buf DataStageTRB))).
Definition StatusStageTRB : TRB := set_type StatusStageTRB_Type TRB_zero.
Definition NormalTRB : TRB := set_type NormalTRB_Type TRB_zero.
Definition set_interrupt_on_short_packet (b : bool) (t : TRB) : TRB := map_control (set_bit 2 b) t.
Definition trb_transfer_length (t : TRB) : Z := get_field 0 17 (trb_data2 t).

(** ** Commands *)
Definition EnableSlotCommandTRB_Type : Z := 9.
Definition AddressDeviceCommandTRB_Type : Z := 11.
Definition ConfigureEndpointCommandTRB_Type : Z := 12.
Definition EnableSlotCommandTRB : TRB := set_type EnableSlotCommandTRB_Type TRB_zero.
Definition context_command (type input_context slot_id : Z) : TRB :=
  let t := map_control (set_field 24 8 slot_id) (set_type type TRB_zero) in
  set_parameter (set_field 4 60 (Z.shiftr input_context 4) 0) t.
Definition AddressDeviceCommandTRB (input_context slot_id : Z) : TRB :=
  context_command AddressDeviceCommandTRB_Type input_context slot_id.
Definition ConfigureEndpointCommandTRB (input_context slot_id : Z) : TRB :=
  context_command ConfigureEndpointCommandTRB_Type input_context slot_id.

(** ** Events *)
Definition TransferEventTRB_Type : Z := 32.
Definition CommandCompletionEventTRB_Type : Z := 33.
Definition PortStatusChangeEventTRB_Type : Z := 34.
Definition event_transfer_length (t : TRB) : Z := get_field 0 24 (trb_data2 t).
Definition completion_code (t : TRB) : Z := get_field 24 8 (trb_data2 t).
Definition event_data (t : TRB) : bool := get_bit 2 (trb_data3 t).
Definition event_endpoint_id (t : TRB) : Z := get_field 16 5 (trb_data3 t).
Definition event_slot_id (t : TRB) : Z := get_field 24 8 (trb_data3 t).
Definition TransferEvent_Pointer (t : TRB) : Z := parameter t.
Definition CommandCompletion_Pointer (t : TRB) : Z := Z.shiftl (get_field 4 60 (parameter t)) 4.
Definition event_port_id (t : TRB) : Z := get_field 24 8 (trb_data0 t).

Definition TRBDynamicCast (Type_ : Z) (t : TRB) : bool := Type_ =? trb_type t.

(** ** Reading back *)
Lemma parameter_set p t : 0 <= p < 2 ^ 64 -> parameter (set_parameter p t) = p.
Proof.
  intros Hp. unfold parameter, set_parameter. cbn [trb_data0 trb_data1]. unfold u32.
  apply Z.bits_inj'. intros i Hi. rewrite Z.lor_spec, Z.shiftl_spec by done.
  destruct (decide (i < 32)).
  - rewrite Z.mod_pow2_bits_low by lia. rewrite (Z.testbit_neg_r _ (i - 32)) by lia. by rewrite orb_false_r.
  - rewrite Z.mod_pow2_bits_high by lia. cbn [orb]. destruct (decide (i < 64)).
    + rewrite Z.mod_pow2_bits_low, Z.shiftr_spec by lia. by replace (i - 32 + 32) with i by lia.
    + rewrite Z.mod_pow2_bits_high by lia. rewrite <- (Z.mod_small p (2 ^ 64)) by done.
      by rewrite Z.mod_pow2_bits_high by lia.
Qed.

(** The fields of a request fit. *)
Record setup_ok (sd : SetupData) : Prop := {
  so_type : 0 <= sd_request_type sd < 2 ^ 8;
  so_request : 0 <= sd_request sd < 2 ^ 8;
  so_value : 0 <= sd_value sd < 2 ^ 16;
  so_index : 0 <= sd_index sd < 2 ^ 16;
  so_length : 0 <= sd_length sd < 2 ^ 16
}.

Lemma setup_roundtrip sd ty c : setup_ok sd -> setup_data_of (with_cycle (MakeSetupStageTRB sd ty) c) = sd.
Proof.
  intros [H1 H2 H3 H4 H5]. unfold setup_data_of, MakeSetupStageTRB, with_cycle. cbn [trb_data0 trb_data1].
  rewrite !get_set_same by lia.
  rewrite !(get_set_other 16 16) by lia. rewrite !get_set_same by lia.
  rewrite !(get_set_other 8 8) by lia. rewrite !get_set_same by lia. by destruct sd.
Qed.

(** What every block is when the driver pushes it: the cycle bit is still clear and
    the type is what it was made with. *)
Lemma MakeSetup_type sd ty : trb_type (MakeSetupStageTRB sd ty) = SetupStageTRB_Type.
Proof. unfold trb_type, MakeSetupStageTRB. cbn [trb_data3]. rewrite get_set_other by lia. reflexivity. Qed.
Lemma MakeSetup_plain sd ty : plain (MakeSetupStageTRB sd ty).
Proof.
  split; [|by rewrite MakeSetup_type]. unfold cycle_of, MakeSetupStageTRB. cbn [trb_data3].
  rewrite get_set_bit_other by lia. reflexivity.
Qed.

Lemma MakeData_type buf len b c :
  trb_type (set_interrupt_on_completion c (MakeDataStageTRB buf len b)) = DataStageTRB_Type.
Proof. by destruct b, c. Qed.
Lemma MakeData_plain buf len b c : plain (set_interrupt_on_completion c (MakeDataStageTRB buf len b)).
Proof. split; [by destruct b, c|by rewrite MakeData_type]. Qed.
Lemma MakeData_length buf len b c cy :
  0 <= len < 2 ^ 17 ->
  trb_transfer_length (with_cycle (set_interrupt_on_completion c (MakeDataStageTRB buf len b)) cy) = len.
Proof.
  intros Hl. unfold trb_transfer_length. cbn [with_cycle set_interrupt_on_completion map_control MakeDataStageTRB set_direction
    map_status set_transfer_length trb_data2]. rewrite get_set_other by lia. by rewrite get_set_same by lia.
Qed.
Lemma MakeData_pointer buf len b c cy :
  0 <= buf < 2 ^ 64 ->
  parameter (with_cycle (set_interrupt_on_completion c (MakeDataStageTRB buf len b)) cy) = buf.
Proof. intros Hb. exact (parameter_set buf DataStageTRB Hb). Qed.
