(* ===== verification/TrbNames.v ===== *)
(** * Names and unused blocks of the xHCI driver, src/src/usb/xhci/trb.hpp, trb.cpp

    The blocks that nothing builds, the tables of names, and what the driver logs of a
    transfer: the lines as data, without their layout. *)
From Stdlib Require Import ZArith Lia String.
From stdpp Require Import base option list numbers.
From S2P Require Import Prelude Error Bits Ring Usb Trb.

#[local] Open Scope string_scope.
#[local] Open Scope Z_scope.

Set Default Proof Using "Type".

(** ** Blocks *)
Definition NoOpTRB_Type : Z := 8.
Definition StopEndpointCommandTRB_Type : Z := 15.
Definition NoOpCommandTRB_Type : Z := 23.
Definition NoOpTRB : TRB := set_type NoOpTRB_Type TRB_zero.
Definition NoOpCommandTRB : TRB := set_type NoOpCommandTRB_Type TRB_zero.
Definition StopEndpointCommandTRB (endpoint_id slot_id : Z) : TRB :=
  map_control (set_field 24 8 slot_id) (map_control (set_field 16 5 endpoint_id) (set_type StopEndpointCommandTRB_Type TRB_zero)).
Definition StopEndpointCommand_EndpointID (t : TRB) : Z := get_field 16 5 (trb_data3 t).

Lemma stop_endpoint_fields ep slot c :
  0 <= ep < 32 -> 0 <= slot < 256 ->
  let t := with_cycle (StopEndpointCommandTRB ep slot) c in
  trb_type t = StopEndpointCommandTRB_Type /\ StopEndpointCommand_EndpointID t = ep /\ event_slot_id t = slot.
Proof.
  intros Hep Hs t. subst t. rewrite type_with. unfold StopEndpointCommand_EndpointID, event_slot_id, trb_type, StopEndpointCommandTRB.
  cbn [with_cycle map_control set_type trb_data3]. unfold set_bit. split_and!.
  - rewrite !get_set_other by lia. by rewrite get_set_same by (unfold StopEndpointCommandTRB_Type; lia).
  - rewrite !get_set_other by lia. by rewrite get_set_same by lia.
  - rewrite get_set_other by lia. by rewrite get_set_same by lia.
Qed.

(** ** The tables *)
Definition kTRBCompletionCodeToName : list string := [
    "Invalid"; "Success"; "Data Buffer Error"; "Babble Detected Error"; "USB Transaction Error";
    "TRB Error"; "Stall Error"; "Resource Error"; "Bandwidth Error"; "No Slots Available Error";
    "Invalid Stream Type Error"; "Slot Not Enabled Error"; "Endpoint Not Enabled Error";
    "Short Packet"; "Ring Underrun"; "Ring Overrun"; "VF Event Ring Full Error"; "Parameter Error";
    "Bandwidth Overrun Error"; "Context State Error"; "No ping Response Error";
    "Event Ring Full Error"; "Incompatible Device Error"; "Missed Service Error";
    "Command Ring Stopped"; "Command Aborted"; "Stopped"; "Stopped - Length Invalid";
    "Stopped - Short Packet"; "Max Exit Latency Too Large Error"; "Reserved";
    "Isoch Buffer Overrun"; "Event Lost Error"; "Undefined Error"; "Invalid Stream ID Error";
    "Secondary Bandwidth Error"; "Split Transaction Error"].

Definition kTRBTypeToName : list string := [
    "Reserved"; "Normal"; "Setup Stage"; "Data Stage"; "Status Stage"; "Isoch"; "Link"; "EventData";
    "No-Op"; "Enable Slot Command"; "Disable Slot Command"; "Address Device Command";
    "Configure Endpoint Command"; "Evaluate Context Command"; "Reset Endpoint Command";
    "Stop Endpoint Command"; "Set TR Dequeue Pointer Command"; "Reset Device Command";
    "Force Event Command"; "Negotiate Bandwidth Command"; "Set Latency Tolerance Value Command";
    "Get Port Bandwidth Command"; "Force Header Command"; "No Op Command"; "Reserved"; "Reserved";
    "Reserved"; "Reserved"; "Reserved"; "Reserved"; "Reserved"; "Reserved"; "Transfer Event";
    "Command Completion Event"; "Port Status Change Event"; "Bandwidth Request Event";
    "Doorbell Event"; "Host Controller Event"; "Device Notification Event"; "MFINDEX Wrap Event";
    "Reserved"; "Reserved"; "Reserved"; "Reserved"; "Reserved"; "Reserved"; "Reserved"; "Reserved";
    "Vendor Defined"; "Vendor Defined"; "Vendor Defined"; "Vendor Defined"; "Vendor Defined";
    "Vendor Defined"; "Vendor Defined"; "Vendor Defined"; "Vendor Defined"; "Vendor Defined";
    "Vendor Defined"; "Vendor Defined"; "Vendor Defined"; "Vendor Defined"; "Vendor Defined";
    "Vendor Defined"].

(** The name of a type: the field has six bits. *)
Lemma type_named t : exists name, kTRBTypeToName$[trb_type t] = Some name.
Proof.
  apply lookupZ_is_Some. unfold trb_type. pose proof (get_field_range 10 6 (trb_data3 t)). cbn. lia.
Qed.

Example type_names :
  (fun n => kTRBTypeToName$[n]) <$> [NormalTRB_Type; SetupStageTRB_Type; DataStageTRB_Type; StatusStageTRB_Type; NoOpTRB_Type;
    EnableSlotCommandTRB_Type; AddressDeviceCommandTRB_Type; ConfigureEndpointCommandTRB_Type; StopEndpointCommandTRB_Type;
    NoOpCommandTRB_Type; TransferEventTRB_Type; CommandCompletionEventTRB_Type; PortStatusChangeEventTRB_Type]
  = Some <$> ["Normal"; "Setup Stage"; "Data Stage"; "Status Stage"; "No-Op"; "Enable Slot Command"; "Address Device Command";
     "Configure Endpoint Command"; "Stop Endpoint Command"; "No Op Command"; "Transfer Event"; "Command Completion Event";
     "Port Status Change Event"].
Proof. reflexivity. Qed.

(** ** The log of a transfer, src/src/usb/xhci/device.cpp *)
Inductive log_line :=
| LValue (value : Z) (completion : string) (residual slot ep : Z)
| LIssuer (issuer completion : string) (residual slot ep : Z)
| LDataStage (len buf dir attr : Z)
| LSetupStage (sd : SetupData).

Definition log_data (t : TRB) : log_line :=
  LDataStage (trb_transfer_length t) (parameter t) (Z.b2z (get_bit 16 (trb_data3 t))) (Z.land (trb_data3 t) 0x7f).
Definition log_setup (t : TRB) : log_line := LSetupStage (setup_data_of t).

(** [issuer] is the block the event points to. *)
Definition log_transfer (trb issuer : TRB) : option (list log_line) :=
  if event_data trb then
    completion ← kTRBCompletionCodeToName$[completion_code trb];
    Some [LValue (TransferEvent_Pointer trb) completion (event_transfer_length trb) (event_slot_id trb) (event_endpoint_id trb)]
  else
    type ← kTRBTypeToName$[trb_type issuer];
    completion ← kTRBCompletionCodeToName$[completion_code trb];
    Some (LIssuer type completion (event_transfer_length trb) (event_slot_id trb) (event_endpoint_id trb)
          :: if TRBDynamicCast DataStageTRB_Type issuer then [log_data issuer]
             else if TRBDynamicCast SetupStageTRB_Type issuer then [log_setup issuer] else []).

(** A code that the table has is logged; the others, as those of vendors from 192 on,
    are looked up behind it. *)
Lemma log_transfer_spec trb issuer :
  if completion_code trb <? 37 then exists l, log_transfer trb issuer = Some l else log_transfer trb issuer = None.
Proof.
  unfold log_transfer. destruct (type_named issuer) as [name ->].
  assert (0 <= completion_code trb) as H0 by (pose proof (get_field_range 24 8 (trb_data2 trb)); unfold completion_code; lia).
  destruct (Z.ltb_spec (completion_code trb) 37) as [H|H].
  - destruct (lookupZ_is_Some kTRBCompletionCodeToName (completion_code trb)) as [c ->]; [cbn; lia|].
    destruct (event_data trb); eauto.
  - assert (kTRBCompletionCodeToName$[completion_code trb] = None) as ->.
    { unfold lookupZ. destruct (0 <=? _); [|done]. apply lookup_ge_None_2. cbn. lia. }
    by destruct (event_data trb).
Qed.

Example vendor_code issuer : log_transfer (mkTRB 0 0 (Z.shiftl 192 24) 0) issuer = None.
Proof. exact (log_transfer_spec (mkTRB 0 0 (Z.shiftl 192 24) 0) issuer). Qed.
