(* ===== verification/XhciDevice.v ===== *)
(** * Devices of the USB controller, src/src/usb/xhci/device.cpp

    [usb::xhci::Device] makes the transfers of the device layer with one ring for each
    endpoint: it is an instance of [Transport], and keeps its laws.  A completion
    names the block it is about by its address; the device finds the request again
    in a map from the address of the last block of a transfer to its first. *)
From Stdlib Require Import ZArith Lia.
From stdpp Require Import base option list gmap numbers.
From S2P Require Import Prelude Error Bits UsbMemory ArrayMap Ring Usb UsbSpec UsbProtocol Trb TrbNames.

Set Default Proof Using "Type".

(** A ring that is not there is a null pointer; one whose buffer could not be
    allocated has a null buffer ([Some None]), and pushing to it is a fault. *)
Record xhci_dev := mkX {
  x_slot_id : Z;
  transfer_rings_ : list (option (option Ring));   (** 31, the index is the endpoint address - 1 *)
  setup_stage_map_ : ArrayMap Z Z;
  bells : list Z                                   (** values written to the doorbell *)
}.

Definition sizeof_Ring : Z := 32.

Definition set_ring (x : xhci_dev) (i : Z) (r : option (option Ring)) : option xhci_dev :=
  l ← (transfer_rings_ x)$[i := r]; Some (mkX (x_slot_id x) l (setup_stage_map_ x) (bells x)).

(** The ring, and the new value of [alloc_ptr]. *)
Definition AllocTransferRing (memory_pool alloc_ptr : Z) (x : xhci_dev) (dci buf_size : Z)
  : option (option (option Ring) * xhci_dev * Z) :=
  let '(p, alloc_ptr) := AllocMem memory_pool alloc_ptr sizeof_Ring 64 4096 in
  let '(tr, alloc_ptr) :=
    if p =? 0 then (None, alloc_ptr)
    else let '(_, r, alloc_ptr) := Initialize memory_pool alloc_ptr buf_size in (Some r, alloc_ptr) in
  x ← set_ring x (dci - 1) tr;
  Some (tr, x, alloc_ptr).

(** [tr->Push(trb)] on the ring of index [i]: the address of the block. *)
Definition push_to (x : xhci_dev) (i : Z) (trb : TRB) : option (Z * xhci_dev) :=
  tr ← (transfer_rings_ x)$[i]; r ← tr; r ← r;
  '(k, r) ← Push r trb;
  x ← set_ring x i (Some (Some r));
  Some (buf_ r + sizeof_TRB * k, x).

(** The block at an address, in one of the rings. *)
Definition ring_at (r : Ring) (p : Z) : option TRB :=
  if (p - buf_ r) mod sizeof_TRB =? 0 then (ring_mem r)$[(p - buf_ r) / sizeof_TRB] else None.
Fixpoint deref (rings : list (option (option Ring))) (p : Z) : option TRB :=
  match rings with
  | [] => None
  | Some (Some r) :: rings => match ring_at r p with Some t => Some t | None => deref rings p end
  | _ :: rings => deref rings p
  end.

(** [TRBDynamicCast<SetupStageTRB>] of a pointer. *)
Definition cast_setup (x : xhci_dev) (p : Z) : option Z :=
  t ← deref (transfer_rings_ x) p; Some (if TRBDynamicCast SetupStageTRB_Type t then p else 0).

Definition put_stage (x : xhci_dev) (key value : Z) : xhci_dev :=
  mkX (x_slot_id x) (transfer_rings_ x) (Put key value (setup_stage_map_ x)) (bells x).
(** [DoorbellRegister::Ring] *)
Definition ring_bell (x : xhci_dev) (target : Z) : xhci_dev :=
  mkX (x_slot_id x) (transfer_rings_ x) (setup_stage_map_ x)
    (bells x ++ [set_field 16 16 0 (set_field 0 8 target 0)]).

Definition x_ControlIn (ep : Z) (sd : SetupData) (buf len : Z) (x : xhci_dev) : option (Code * xhci_dev) :=
  if (ep_Number ep <? 0) || (15 <? ep_Number ep) then Some (kInvalidEndpointNumber, x)
  else
    let i := ep - 1 in
    tr ← (transfer_rings_ x)$[i];
    match tr with
    | None => Some (kTransferRingNotSet, x)
    | Some _ =>
        let status := StatusStageTRB in
        if negb (buf =? 0) then
          '(p, x) ← push_to x i (MakeSetupStageTRB sd kInDataStage);
          setup_trb_position ← cast_setup x p;
          let data := set_interrupt_on_completion true (MakeDataStageTRB buf len true) in
          '(data_trb_position, x) ← push_to x i data;
          '(_, x) ← push_to x i status;
          Some (kSuccess, ring_bell (put_stage x data_trb_position setup_trb_position) ep)
        else
          '(p, x) ← push_to x i (MakeSetupStageTRB sd kNoDataStage);
          setup_trb_position ← cast_setup x p;
          let status := set_interrupt_on_completion true (set_direction true status) in
          '(status_trb_position, x) ← push_to x i status;
          Some (kSuccess, ring_bell (put_stage x status_trb_position setup_trb_position) ep)
    end.

Definition x_ControlOut (ep : Z) (sd : SetupData) (buf len : Z) (x : xhci_dev) : option (Code * xhci_dev) :=
  if (ep_Number ep <? 0) || (15 <? ep_Number ep) then Some (kInvalidEndpointNumber, x)
  else
    let i := ep - 1 in
    tr ← (transfer_rings_ x)$[i];
    match tr with
    | None => Some (kTransferRingNotSet, x)
    | Some _ =>
        let status := set_direction true StatusStageTRB in
        if negb (buf =? 0) then
          '(p, x) ← push_to x i (MakeSetupStageTRB sd kOutDataStage);
          setup_trb_position ← cast_setup x p;
          let data := set_interrupt_on_completion true (MakeDataStageTRB buf len false) in
          '(data_trb_position, x) ← push_to x i data;
          '(_, x) ← push_to x i status;
          Some (kSuccess, ring_bell (put_stage x data_trb_position setup_trb_position) ep)
        else
          '(p, x) ← push_to x i (MakeSetupStageTRB sd kNoDataStage);
          setup_trb_position ← cast_setup x p;
          let status := set_interrupt_on_completion true status in
          '(status_trb_position, x) ← push_to x i status;
          Some (kSuccess, ring_bell (put_stage x status_trb_position setup_trb_position) ep)
    end.

Definition x_InterruptIn (ep buf len : Z) (x : xhci_dev) : option (Code * xhci_dev) :=
  let i := ep - 1 in
  tr ← (transfer_rings_ x)$[i];
  match tr with
  | None => Some (kTransferRingNotSet, x)
  | Some _ =>
      let normal :=
        set_interrupt_on_completion true (set_interrupt_on_short_packet true
          (set_transfer_length len (set_parameter buf NormalTRB))) in
      '(_, x) ← push_to x i normal;
      Some (kSuccess, ring_bell x ep)
  end.

#[global] Instance xhci_transport : Transport xhci_dev :=
  {| transfer_in := x_ControlIn; transfer_out := x_ControlOut; interrupt_in := x_InterruptIn |}.

(** ** Completions *)

(** Memory behind a data pointer: the buffer of the device; nothing else is read. *)
Definition buffer_at (w : usb xhci_dev) (p : Z) : option (list Z) :=
  if p =? 0 then None
  else if p =? dev_buf_addr (u_dev w) then Some (dev_buf_ (u_dev w)) else Some [].

(** The event is logged before anything is done about it, with the names of its code and,
    unless it carries a value, of the type of the block it points to. *)
Definition log_event (x : xhci_dev) (trb : TRB) : option (list log_line) :=
  issuer ← (if event_data trb then Some TRB_zero else deref (transfer_rings_ x) (TransferEvent_Pointer trb));
  log_transfer trb issuer.

Lemma log_event_beyond x trb : 37 <= completion_code trb -> log_event x trb = None.
Proof.
  intros Hc. unfold log_event. destruct (if event_data trb then _ else _) as [issuer|]; [|done]. cbn.
  pose proof (log_transfer_spec trb issuer) as Hl. destruct (Z.ltb_spec (completion_code trb) 37); [lia|done].
Qed.

Lemma log_event_issuer x trb issuer :
  completion_code trb < 37 -> deref (transfer_rings_ x) (TransferEvent_Pointer trb) = Some issuer ->
  exists l, log_event x trb = Some l.
Proof.
  intros Hc Hd. unfold log_event. rewrite Hd. destruct (event_data trb); cbn.
  - pose proof (log_transfer_spec trb TRB_zero) as Hl. destruct (Z.ltb_spec (completion_code trb) 37); [done|lia].
  - pose proof (log_transfer_spec trb issuer) as Hl. destruct (Z.ltb_spec (completion_code trb) 37); [done|lia].
Qed.

Section completion.
Context (memory_pool sizeof_keyboard sizeof_mouse hid_buf_offset keyboard_observer mouse_observer : Z).

Definition OnTransferEventReceived (w : usb xhci_dev) (trb : TRB) : option (Code * usb xhci_dev) :=
  let x := u_xfer w in
  let residual_length := event_transfer_length trb in
  _ ← log_event x trb;
  if negb (completion_code trb =? 1) && negb (completion_code trb =? 13) then Some (kTransferFailed, w)
  else
    let p := TransferEvent_Pointer trb in
    issuer_trb ← deref (transfer_rings_ x) p;
    let ep := event_endpoint_id trb in
    if TRBDynamicCast NormalTRB_Type issuer_trb then
      OnInterruptCompleted w ep (trb_transfer_length issuer_trb - residual_length)
    else
      match Get p (setup_stage_map_ x) with
      | None => Some (kNoCorrespondingSetupStage, w)
      | Some setup_position =>
          let w := set_xfer w (mkX (x_slot_id x) (transfer_rings_ x) (Delete p (setup_stage_map_ x)) (bells x)) in
          setup_stage_trb ← deref (transfer_rings_ x) setup_position;
          let setup_data := setup_data_of setup_stage_trb in
          let completed := OnControlCompleted memory_pool sizeof_keyboard sizeof_mouse hid_buf_offset
                             keyboard_observer mouse_observer in
          if TRBDynamicCast DataStageTRB_Type issuer_trb then
            completed w ep setup_data (buffer_at w (parameter issuer_trb))
              (trb_transfer_length issuer_trb - residual_length)
          else if TRBDynamicCast StatusStageTRB_Type issuer_trb then completed w ep setup_data None 0
          else Some (kNotImplemented, w)
      end.
End completion.

(** ** Rings in memory *)
Record ring_wf (r : Ring) : Prop := {
  rw_size : 4 < buf_size_ r < 2 ^ 32;
  rw_len : Z.of_nat (length (ring_mem r)) = buf_size_ r;
  rw_write : 0 <= write_index_ r < buf_size_ r - 1
}.

Definition in_ring (r : Ring) (p : Z) : Prop := buf_ r <= p < buf_ r + sizeof_TRB * Z.of_nat (length (ring_mem r)).

(** The rings are sound and do not overlap. *)
Record x_ok (x : xhci_dev) : Prop := {
  xk_num : length (transfer_rings_ x) = 31%nat;
  xk_wf : forall i r, transfer_rings_ x !! i = Some (Some (Some r)) -> ring_wf r;
  xk_apart : forall i j r r' p, transfer_rings_ x !! i = Some (Some (Some r)) ->
    transfer_rings_ x !! j = Some (Some (Some r')) -> in_ring r p -> in_ring r' p -> i = j
}.

Lemma pushed_wf r t :
  ring_wf r ->
  ring_wf (pushed r t) /\ buf_ (pushed r t) = buf_ r /\ length (ring_mem (pushed r t)) = length (ring_mem r)
  /\ buf_size_ (pushed r t) = buf_size_ r.
Proof.
  intros [Hs Hl Hw]. unfold pushed. destruct (Z.eqb_spec (write_index_ r + 1) (buf_size_ r - 1)); cbn;
    rewrite ?length_insert; (split; [|done]); constructor; cbn; rewrite ?length_insert; lia.
Qed.

Lemma pushed_same r t (k : Z) :
  ring_wf r -> 0 <= k < buf_size_ r - 1 ->
  ring_mem (pushed r t) !! Z.to_nat k
  = if decide (k = write_index_ r) then Some (with_cycle t (cycle_bit_ r)) else ring_mem r !! Z.to_nat k.
Proof.
  intros [Hs Hl Hw] Hk. unfold pushed.
  assert (E : <[Z.to_nat (write_index_ r) := with_cycle t (cycle_bit_ r)]> (ring_mem r) !! Z.to_nat k
    = if decide (k = write_index_ r) then Some (with_cycle t (cycle_bit_ r)) else ring_mem r !! Z.to_nat k).
  { destruct (decide _) as [->|]; [apply list_lookup_insert_eq; lia|apply list_lookup_insert_ne; lia]. }
  destruct (_ =? _); cbn [ring_mem]; [|done]. rewrite list_lookup_insert_ne by lia. exact E.
Qed.

Lemma ring_at_in r p t : ring_at r p = Some t -> in_ring r p.
Proof.
  unfold ring_at. destruct (Z.eqb_spec ((p - buf_ r) mod sizeof_TRB) 0) as [E|]; [|done]. intros Hl%lookupZ_lt.
  unfold in_ring, sizeof_TRB in *. pose proof (Z.div_mod (p - buf_ r) 16 ltac:(lia)). lia.
Qed.

Lemma ring_at_entry r (k : Z) :
  0 <= k -> ring_at r (buf_ r + sizeof_TRB * k) = ring_mem r !! Z.to_nat k.
Proof.
  intros Hk. unfold ring_at, sizeof_TRB. rewrite Z.add_simpl_l, (Z.mul_comm 16), Z.mod_mul, Z.div_mul by lia.
  simpl (0 =? 0). by apply lookupZ_pos.
Qed.

Lemma in_ring_entry r (k : Z) :
  0 <= k < Z.of_nat (length (ring_mem r)) -> in_ring r (buf_ r + sizeof_TRB * k).
Proof. intros Hk. unfold in_ring, sizeof_TRB. lia. Qed.

Lemma deref_at rings (i : nat) r p t :
  rings !! i = Some (Some (Some r)) -> ring_at r p = Some t ->
  (forall j r', rings !! j = Some (Some (Some r')) -> in_ring r' p -> j = i) ->
  deref rings p = Some t.
Proof.
  revert i. induction rings as [|c rings IH]; intros i Hi Ht Hu; [done|]. destruct i as [|i].
  - injection Hi as ->. cbn [deref]. by rewrite Ht.
  - assert (E : deref rings p = Some t).
    { apply (IH i); [done|done|]. intros j r' Hj Hp. by injection (Hu (S j) r' Hj Hp). }
    destruct c as [[r0|]|]; cbn [deref]; [|done|done]. destruct (ring_at r0 p) as [t0|] eqn:E0; [|done].
    exfalso. apply ring_at_in in E0. by specialize (Hu 0%nat r0 eq_refl E0).
Qed.

Lemma deref_entry x (i : nat) r (k : Z) t :
  x_ok x -> transfer_rings_ x !! i = Some (Some (Some r)) -> 0 <= k -> ring_mem r !! Z.to_nat k = Some t ->
  deref (transfer_rings_ x) (buf_ r + sizeof_TRB * k) = Some t.
Proof.
  intros Hx Hi Hk Ht. apply (deref_at _ i r); [done|by rewrite ring_at_entry|]. intros j r' Hj Hp.
  apply (xk_apart _ Hx j i r' r (buf_ r + sizeof_TRB * k)); [done|done|done|].
  apply in_ring_entry. apply lookup_lt_Some in Ht. lia.
Qed.

(** A push keeps the rings in order. *)
Definition with_ring (x : xhci_dev) (i : nat) (r : Ring) : xhci_dev :=
  mkX (x_slot_id x) (<[i := Some (Some r)]> (transfer_rings_ x)) (setup_stage_map_ x) (bells x).

Lemma with_ring_ok x (i : nat) r r' :
  x_ok x -> transfer_rings_ x !! i = Some (Some (Some r)) -> ring_wf r' -> buf_ r' = buf_ r ->
  length (ring_mem r') = length (ring_mem r) -> x_ok (with_ring x i r').
Proof.
  intros [Hn Hw Ha] Hi Hr' Hb Hl. pose proof (lookup_lt_Some _ _ _ Hi) as Hlt.
  assert (Hin : forall p, in_ring r' p -> in_ring r p) by (intros p; unfold in_ring; by rewrite Hb, Hl).
  constructor; cbn [with_ring transfer_rings_]; [by rewrite length_insert| |].
  - intros j r2 Hj. destruct (decide (j = i)) as [->|]; [|rewrite list_lookup_insert_ne in Hj by done; eauto].
    rewrite list_lookup_insert_eq in Hj by done. by injection Hj as <-.
  - intros j k r1 r2 p Hj Hk H1 H2.
    assert (Hold : forall j r1, <[i := Some (Some r')]> (transfer_rings_ x) !! j = Some (Some (Some r1)) -> in_ring r1 p ->
      exists r0, transfer_rings_ x !! j = Some (Some (Some r0)) /\ in_ring r0 p).
    { clear -Hi Hin Hlt. intros j r1 Hj H1. destruct (decide (j = i)) as [->|].
      - rewrite list_lookup_insert_eq in Hj by done. injection Hj as <-. eauto.
      - rewrite list_lookup_insert_ne in Hj by done. eauto. }
    destruct (Hold j r1 Hj H1) as (s1 & E1 & P1), (Hold k r2 Hk H2) as (s2 & E2 & P2).
    by apply (Ha j k s1 s2 p).
Qed.

Lemma push_to_ok x (i : nat) r t :
  x_ok x -> transfer_rings_ x !! i = Some (Some (Some r)) ->
  push_to x (Z.of_nat i) t = Some (buf_ r + sizeof_TRB * write_index_ r, with_ring x i (pushed r t))
  /\ x_ok (with_ring x i (pushed r t)).
Proof.
  intros Hx Hi. pose proof (xk_wf _ Hx _ _ Hi) as Hr. destruct (pushed_wf r t Hr) as (Hw & Hb & Hl & _).
  split; [|by apply (with_ring_ok x i r)].
  unfold push_to. rewrite lookupZ_nat, Hi. cbn [mbind option_bind].
  rewrite Push_wf by (destruct Hr; lia). cbn [mbind option_bind]. unfold set_ring.
  rewrite updateZ_nat by (by eapply lookup_lt_Some). cbn [mbind option_bind]. by rewrite Hb.
Qed.

(** ** Transfers *)

(** The blocks of a transfer, the last one of which is reported. *)
Definition stages (r : transfer) : list TRB :=
  match r with
  | TIn _ sd buf len =>
      if buf =? 0 then
        [MakeSetupStageTRB sd kNoDataStage; set_interrupt_on_completion true (set_direction true StatusStageTRB)]
      else
        [MakeSetupStageTRB sd kInDataStage; set_interrupt_on_completion true (MakeDataStageTRB buf len true);
         StatusStageTRB]
  | TOut _ sd buf len =>
      if buf =? 0 then
        [MakeSetupStageTRB sd kNoDataStage; set_interrupt_on_completion true (set_direction true StatusStageTRB)]
      else
        [MakeSetupStageTRB sd kOutDataStage; set_interrupt_on_completion true (MakeDataStageTRB buf len false);
         set_direction true StatusStageTRB]
  | TInterrupt _ buf len =>
      [set_interrupt_on_completion true (set_interrupt_on_short_packet true
         (set_transfer_length len (set_parameter buf NormalTRB)))]
  end.

Definition entry_addr (r : Ring) : Z := buf_ r + sizeof_TRB * write_index_ r.

Lemma with_ring_twice x i r1 r2 : with_ring (with_ring x i r1) i r2 = with_ring x i r2.
Proof. unfold with_ring. cbn. by rewrite list_insert_insert_eq. Qed.

Lemma with_ring_lookup x (i : nat) r r' :
  transfer_rings_ x !! i = Some r -> transfer_rings_ (with_ring x i r') !! i = Some (Some (Some r')).
Proof. intros Hi. cbn. apply list_lookup_insert_eq. by eapply lookup_lt_Some. Qed.

Lemma cast_pushed x (i : nat) r sd tt :
  x_ok x -> transfer_rings_ x !! i = Some (Some (Some r)) ->
  cast_setup (with_ring x i (pushed r (MakeSetupStageTRB sd tt))) (entry_addr r) = Some (entry_addr r).
Proof.
  intros Hx Hi. pose proof (xk_wf _ Hx _ _ Hi) as Hr.
  destruct (pushed_wf r (MakeSetupStageTRB sd tt) Hr) as (Hw & Hb & Hl & _).
  unfold cast_setup, entry_addr. rewrite <- Hb.
  rewrite (deref_entry _ i (pushed r (MakeSetupStageTRB sd tt)) (write_index_ r)
    (with_cycle (MakeSetupStageTRB sd tt) (cycle_bit_ r))); [| | |destruct Hr; lia|].
  - cbn [mbind option_bind]. unfold TRBDynamicCast. by rewrite type_with, MakeSetup_type.
  - by apply (push_to_ok x i r).
  - by eapply with_ring_lookup.
  - rewrite pushed_same by (done || (destruct Hr; lia)). by rewrite decide_True.
Qed.

Lemma ep_number_range ep : 1 <= ep <= 31 -> (ep_Number ep <? 0) || (15 <? ep_Number ep) = false.
Proof.
  intros H. unfold ep_Number. rewrite Z.shiftr_div_pow2 by lia. change (2 ^ 1) with 2.
  pose proof (Z.div_le_mono ep 31 2 ltac:(lia) ltac:(lia)) as Hd. pose proof (Z.div_pos ep 2 ltac:(lia) ltac:(lia)).
  change (31 / 2) with 15 in Hd. destruct (Z.ltb_spec (ep / 2) 0), (Z.ltb_spec 15 (ep / 2)); lia || done.
Qed.

(** The device after transfer [tr] on the ring [r] of index [i]. *)
Definition started (x : xhci_dev) (i : nat) (r : Ring) (tr : transfer) : xhci_dev :=
  let x := with_ring x i (foldl pushed r (stages tr)) in
  let x := match tr with
           | TInterrupt _ _ _ => x
           | TIn _ sd buf _ => put_stage x (entry_addr (pushed r (hd TRB_zero (stages tr)))) (entry_addr r)
           | TOut _ sd buf _ => put_stage x (entry_addr (pushed r (hd TRB_zero (stages tr)))) (entry_addr r)
           end in
  ring_bell x (transfer_ep tr).

(** Pushing block after block. *)
Ltac push_next Hx Hi :=
  let E := fresh in let Hx' := fresh "Hx" in let Hi' := fresh "Hi" in
  match type of Hi with transfer_rings_ _ !! _ = Some (Some (Some ?r)) =>
    match goal with |- context [push_to ?x _ ?t] =>
      destruct (push_to_ok x _ r t Hx Hi) as [E Hx']; rewrite E; clear E; cbn [mbind option_bind];
      pose proof (with_ring_lookup x _ _ (pushed r t) Hi) as Hi'; rewrite ?with_ring_twice in Hx', Hi' |- *
    end
  end.

Lemma start_eq x (i : nat) r tr :
  x_ok x -> transfer_rings_ x !! i = Some (Some (Some r)) -> transfer_ep tr = Z.of_nat i + 1 ->
  start tr x = Some (kSuccess, started x i r tr).
Proof.
  intros Hx Hi He. assert (Hi31 : (i < 31)%nat) by (rewrite <- (xk_num _ Hx); by eapply lookup_lt_Some).
  destruct tr as [ep sd buf len|ep sd buf len|ep buf len]; cbn [transfer_ep] in He;
    cbn [start transfer_in transfer_out interrupt_in xhci_transport]; unfold x_ControlIn, x_ControlOut, x_InterruptIn, started;
    cbn [stages transfer_ep]; rewrite ?ep_number_range by lia; replace (ep - 1) with (Z.of_nat i) by lia;
    rewrite lookupZ_nat, Hi; cbn [mbind option_bind].
  - destruct (buf =? 0); cbn [negb]; push_next Hx Hi; rewrite cast_pushed by done; cbn [mbind option_bind];
      push_next Hx0 Hi0; [done|push_next Hx1 Hi1; done].
  - destruct (buf =? 0); cbn [negb]; push_next Hx Hi; rewrite cast_pushed by done; cbn [mbind option_bind];
      push_next Hx0 Hi0; [done|push_next Hx1 Hi1; done].
  - push_next Hx Hi. done.
Qed.

Lemma started_rings x (i : nat) r tr : transfer_rings_ (started x i r tr) = <[i := Some (Some (foldl pushed r (stages tr)))]> (transfer_rings_ x).
Proof. by destruct tr. Qed.

Lemma pushed_all_wf r ts :
  ring_wf r -> ring_wf (foldl pushed r ts) /\ buf_ (foldl pushed r ts) = buf_ r
  /\ length (ring_mem (foldl pushed r ts)) = length (ring_mem r).
Proof.
  revert r. induction ts as [|t ts IH]; intros r Hr; [done|]. cbn [foldl].
  destruct (pushed_wf r t Hr) as (Hw & Hb & Hl & _). destruct (IH _ Hw) as (? & Eb & El). by rewrite Eb, El.
Qed.

Lemma started_ok x (i : nat) r tr :
  x_ok x -> transfer_rings_ x !! i = Some (Some (Some r)) -> x_ok (started x i r tr).
Proof.
  intros Hx Hi. destruct (pushed_all_wf r (stages tr) (xk_wf _ Hx _ _ Hi)) as (Hw & Hb & Hl).
  destruct (with_ring_ok x i r _ Hx Hi Hw Hb Hl) as [Hn Hf Ha]. cbn [with_ring transfer_rings_] in *.
  constructor; rewrite started_rings; done.
Qed.

(** The device keeps the laws of a transport. *)
#[global] Instance xhci_laws : TransportLaws xhci_dev.
Proof.
  refine (@Build_TransportLaws xhci_dev xhci_transport
    (fun ep x => x_ok x /\ exists (i : nat) r, transfer_rings_ x !! i = Some (Some (Some r)) /\ ep = Z.of_nat i + 1)
    (fun x tr x' => exists (i : nat) r, transfer_rings_ x !! i = Some (Some (Some r)) /\ x_ok x' /\ x' = started x i r tr) _).
  intros tr x (Hx & i & r & Hi & He). exists (started x i r tr). split; [by apply start_eq|].
  exists i, r. split_and!; [done|by apply started_ok|done].
Defined.

(** ** What becomes of a control transfer *)
Lemma write_pushed r t :
  write_index_ (pushed r t) = if write_index_ r + 1 =? buf_size_ r - 1 then 0 else write_index_ r + 1.
Proof. unfold pushed. by destruct (_ =? _). Qed.

Definition is_control (tr : transfer) (sd : SetupData) (buf len : Z) : Prop :=
  exists ep, tr = TIn ep sd buf len \/ tr = TOut ep sd buf len.

Lemma status_plain :
  plain StatusStageTRB /\ plain (set_direction true StatusStageTRB)
  /\ plain (set_interrupt_on_completion true (set_direction true StatusStageTRB)).
Proof. repeat split; vm_compute; done. Qed.

(** Its first block carries the request, its second one is reported. *)
Lemma control_stages tr sd buf len :
  is_control tr sd buf len ->
  exists tt a rest, stages tr = MakeSetupStageTRB sd tt :: a :: rest /\ (length rest <= 1)%nat
    /\ (if buf =? 0 then trb_type a = StatusStageTRB_Type
        else exists b, a = set_interrupt_on_completion true (MakeDataStageTRB buf len b))
    /\ Forall plain (stages tr).
Proof.
  destruct status_plain as (SP1 & SP2 & SP3).
  intros [ep [->| ->]]; cbn [stages]; destruct (buf =? 0).
  - exists kNoDataStage, (set_interrupt_on_completion true (set_direction true StatusStageTRB)), [].
    split_and!; [done|simpl; lia|done|]. auto using MakeSetup_plain, Forall_cons, Forall_nil, SP1, SP2, SP3.
  - eexists kInDataStage, _, _. split_and!; [done|simpl; lia|by eexists|].
    auto using MakeSetup_plain, MakeData_plain, Forall_cons, Forall_nil, SP1, SP2, SP3.
  - exists kNoDataStage, (set_interrupt_on_completion true (set_direction true StatusStageTRB)), [].
    split_and!; [done|simpl; lia|done|]. auto using MakeSetup_plain, Forall_cons, Forall_nil, SP1, SP2, SP3.
  - eexists kOutDataStage, _, _. split_and!; [done|simpl; lia|by eexists|].
    auto using MakeSetup_plain, MakeData_plain, Forall_cons, Forall_nil, SP1, SP2, SP3.
Qed.

Lemma control_entries r a b rest :
  ring_wf r -> (length rest <= 1)%nat ->
  let r' := foldl pushed r (a :: b :: rest) in
  (exists c, ring_mem r' !! Z.to_nat (write_index_ r) = Some (with_cycle a c))
  /\ exists c, ring_mem r' !! Z.to_nat (write_index_ (pushed r a)) = Some (with_cycle b c).
Proof.
  intros Hr Hrest r'. destruct (pushed_wf r a Hr) as (Ha & _ & _ & Sa).
  destruct (pushed_wf _ b Ha) as (Hb & _ & _ & Sb).
  pose proof (write_pushed r a) as Wa. pose proof (write_pushed (pushed r a) b) as Wb. rewrite Sa, Wa in Wb.
  pose proof Hr as [Hs _ Hw]. pose proof Ha as [_ _ Hwa].
  assert (H0 : ring_mem (pushed (pushed r a) b) !! Z.to_nat (write_index_ r) = Some (with_cycle a (cycle_bit_ r))).
  { rewrite pushed_same by (done || lia). rewrite decide_False.
    - rewrite pushed_same by (done || lia). by rewrite decide_True.
    - rewrite Wa. destruct (Z.eqb_spec (write_index_ r + 1) (buf_size_ r - 1)); lia. }
  assert (H1 : ring_mem (pushed (pushed r a) b) !! Z.to_nat (write_index_ (pushed r a))
    = Some (with_cycle b (cycle_bit_ (pushed r a)))).
  { rewrite pushed_same by (done || lia). by rewrite decide_True. }
  destruct rest as [|c [|]]; [subst r'; cbn [foldl]; eauto| |simpl in Hrest; lia]. subst r'. cbn [foldl].
  rewrite !pushed_same by (done || lia). rewrite Wb, Wa in *.
  destruct (Z.eqb_spec (write_index_ r + 1) (buf_size_ r - 1)), (Z.eqb_spec (0 + 1) (buf_size_ r - 1)),
    (Z.eqb_spec (write_index_ r + 1 + 1) (buf_size_ r - 1)); try lia;
    repeat ((rewrite decide_True by lia) || (rewrite decide_False by lia)); eauto.
Qed.

Lemma pushes_ring_ok r pos ccs F q ts :
  ring_ok r pos ccs F q -> Forall plain ts -> Z.of_nat (length q + length ts) < buf_size_ r - 1 ->
  ring_ok (foldl pushed r ts) pos ccs F (q ++ ts) /\ buf_size_ (foldl pushed r ts) = buf_size_ r.
Proof.
  revert r q. induction ts as [|t ts IH]; intros r q Hr Hp Hl; cbn [foldl]; [by rewrite app_nil_r|].
  apply list.Forall_cons in Hp as [Ht Hp]. cbn [length] in Hl.
  assert (Hb : buf_size_ (pushed r t) = buf_size_ r) by (unfold pushed; by destruct (_ =? _)).
  destruct (IH (pushed r t) (q ++ [t])) as [H1 H2]; [by apply push_ok; [done|done|lia]|done
    |rewrite Hb, length_app; simpl; lia|].
  rewrite <- app_assoc in H1. by rewrite H2.
Qed.

Lemma fetch_all q : fifo_spec q (replicate (S (length q)) RFetch) = (Some <$> q) ++ [None].
Proof. induction q as [|t q IH]; [done|]. change (Some t :: fifo_spec q (replicate (S (length q)) RFetch) = Some t :: ((Some <$> q) ++ [None])). by rewrite IH. Qed.

Lemma paced_fetches cap k n : paced cap k (replicate n RFetch).
Proof. revert k. induction n as [|n IH]; intros k; [done|]. apply IH. Qed.

Lemma started_map x (i : nat) r tr sd buf len :
  is_control tr sd buf len ->
  setup_stage_map_ (started x i r tr)
  = Put (entry_addr (pushed r (hd TRB_zero (stages tr)))) (entry_addr r) (setup_stage_map_ x).
Proof. by intros [ep [->| ->]]. Qed.

(** The blocks of the transfer in memory. *)
Lemma control_in_memory x (i : nat) r tr sd tt a rest :
  x_ok x -> transfer_rings_ x !! i = Some (Some (Some r)) ->
  stages tr = MakeSetupStageTRB sd tt :: a :: rest -> (length rest <= 1)%nat ->
  let rings := transfer_rings_ (started x i r tr) in
  (exists c, deref rings (entry_addr r) = Some (with_cycle (MakeSetupStageTRB sd tt) c))
  /\ exists c, deref rings (entry_addr (pushed r (MakeSetupStageTRB sd tt))) = Some (with_cycle a c).
Proof.
  intros Hx Hi Est Hrest rings. pose proof (xk_wf _ Hx _ _ Hi) as Hw.
  destruct (pushed_all_wf r (stages tr) Hw) as (Hw' & Hb & Hl).
  destruct (pushed_wf r (MakeSetupStageTRB sd tt) Hw) as (Hw1 & Hb1 & _).
  assert (Hi' : rings !! i = Some (Some (Some (foldl pushed r (stages tr))))).
  { unfold rings. rewrite started_rings. apply list_lookup_insert_eq. by eapply lookup_lt_Some. }
  destruct (control_entries r (MakeSetupStageTRB sd tt) a rest Hw Hrest) as [[c0 E0] [c1 E1]]. rewrite <- Est in E0, E1.
  unfold entry_addr. rewrite Hb1, <- Hb. destruct Hw, Hw1.
  split; [exists c0|exists c1]; eapply (deref_entry (started x i r tr) i); eauto using started_ok; lia.
Qed.

(** The event for the block at [p], whose request is at [ps]. *)
Lemma completion_at memory_pool sizeof_keyboard sizeof_mouse hid_buf_offset keyboard_observer mouse_observer
    (w : usb xhci_dev) e a c sd tt c' ps buf len :
  let rings := transfer_rings_ (u_xfer w) in
  completion_code e = 1 \/ completion_code e = 13 ->
  deref rings (TransferEvent_Pointer e) = Some (with_cycle a c) ->
  Get (TransferEvent_Pointer e) (setup_stage_map_ (u_xfer w)) = Some ps ->
  deref rings ps = Some (with_cycle (MakeSetupStageTRB sd tt) c') ->
  setup_ok sd -> 0 <= buf < 2 ^ 64 -> 0 <= len < 2 ^ 17 ->
  (if buf =? 0 then trb_type a = StatusStageTRB_Type
   else exists b, a = set_interrupt_on_completion true (MakeDataStageTRB buf len b)) ->
  exists x'',
    OnTransferEventReceived memory_pool sizeof_keyboard sizeof_mouse hid_buf_offset keyboard_observer
      mouse_observer w e
    = OnControlCompleted memory_pool sizeof_keyboard sizeof_mouse hid_buf_offset keyboard_observer
        mouse_observer (set_xfer w x'') (event_endpoint_id e) sd
        (if buf =? 0 then None else buffer_at w buf) (if buf =? 0 then 0 else len - event_transfer_length e).
Proof.
  intros rings Hcode Ed Eg Es Hsd Hbuf Hlen Ha. unfold OnTransferEventReceived.
  destruct (log_event_issuer (u_xfer w) e _ ltac:(lia) Ed) as [l ->]. cbn [mbind option_bind].
  assert ((negb (completion_code e =? 1) && negb (completion_code e =? 13)) = false) as ->
    by (by destruct Hcode as [-> | ->]).
  unfold rings in Ed, Es. rewrite Ed. cbn [mbind option_bind].
  unfold TRBDynamicCast. rewrite !type_with, Eg, Es. cbn [mbind option_bind]. rewrite setup_roundtrip by done.
  destruct (buf =? 0) eqn:Eb.
  - rewrite Ha. eexists. reflexivity.
  - destruct Ha as [b ->]. rewrite MakeData_type, MakeData_pointer, MakeData_length by done. eexists. reflexivity.
Qed.

(** C26. A control transfer on a ring that the controller has worked off: the
    controller fetches exactly its setup, data and status blocks, in order; and when
    the controller reports the second one ([e]), the device layer is told of the
    completion of the very request that was made, with the buffer of the request and
    the number of bytes that arrived. *)
Theorem control_transfer_roundtrip memory_pool sizeof_keyboard sizeof_mouse hid_buf_offset keyboard_observer
    mouse_observer x (i : nat) r pos ccs F tr sd buf len :
  is_control tr sd buf len -> transfer_ep tr = Z.of_nat i + 1 ->
  setup_ok sd -> 0 <= buf < 2 ^ 64 -> 0 <= len < 2 ^ 17 ->
  x_ok x -> transfer_rings_ x !! i = Some (Some (Some r)) -> ring_ok r pos ccs F [] ->
  has_room (setup_stage_map_ x) = true -> (forall k, k ∈ keys (setup_stage_map_ x) -> ~ in_ring r k) ->
  exists x' r' p, start tr x = Some (kSuccess, x')
    /\ transfer_rings_ x' !! i = Some (Some (Some r'))
    /\ ring_run r' pos ccs (replicate (S (length (stages tr))) RFetch) = Some ((Some <$> stages tr) ++ [None])
    /\ in_ring r' p
    /\ forall (w : usb xhci_dev) e,
         u_xfer w = x' -> TransferEvent_Pointer e = p -> completion_code e = 1 \/ completion_code e = 13 ->
         exists x'',
           OnTransferEventReceived memory_pool sizeof_keyboard sizeof_mouse hid_buf_offset keyboard_observer
             mouse_observer w e
           = OnControlCompleted memory_pool sizeof_keyboard sizeof_mouse hid_buf_offset keyboard_observer
               mouse_observer (set_xfer w x'') (event_endpoint_id e) sd
               (if buf =? 0 then None else buffer_at w buf)
               (if buf =? 0 then 0 else len - event_transfer_length e).
Proof.
  intros Hc He Hsd Hbuf Hlen Hx Hi Hr Hroom Hkeys. pose proof (xk_wf _ Hx _ _ Hi) as Hw.
  destruct (control_stages _ _ _ _ Hc) as (tt & a & rest & Est & Hrest & Ha & Hplain).
  set (r' := foldl pushed r (stages tr)). set (p := entry_addr (pushed r (MakeSetupStageTRB sd tt))).
  pose proof (start_eq x i r tr Hx Hi He) as Estart. pose proof (started_ok x i r tr Hx Hi) as Hx'.
  assert (Hi' : transfer_rings_ (started x i r tr) !! i = Some (Some (Some r'))).
  { rewrite started_rings. apply list_lookup_insert_eq. by eapply lookup_lt_Some. }
  destruct (control_in_memory x i r tr sd tt a rest Hx Hi Est Hrest) as [[c0 E0] [c1 E1]].
  destruct (pushed_wf r (MakeSetupStageTRB sd tt) Hw) as (Hw1 & Hb1 & Hl1 & _).
  destruct (pushed_all_wf r (stages tr) Hw) as (Hw' & Hb' & Hl').
  assert (Hp : in_ring r p).
  { unfold p, entry_addr. rewrite Hb1. apply in_ring_entry. destruct Hw1. lia. }
  assert (Eg : Get p (setup_stage_map_ (started x i r tr)) = Some (entry_addr r)).
  { rewrite (started_map x i r tr sd buf len Hc), Est. cbn [hd]. fold p. rewrite Get_Put; [by rewrite decide_True, Hroom|].
    intros Hin. by apply (Hkeys p). }
  exists (started x i r tr), r', p. split_and!; [done|done| |by unfold in_ring, r'; rewrite Hb', Hl'|].
  - assert (Hle : Z.of_nat (length (stages tr)) <= 3) by (rewrite Est; simpl; lia).
    destruct (pushes_ring_ok r pos ccs F [] (stages tr) Hr Hplain) as [Hr' Hsz]; [destruct Hw; simpl; lia|].
    rewrite (run_delivers _ _ _ _ _ _ Hr'); [f_equal; apply fetch_all|]. apply paced_fetches.
  - intros w e Hu Hpe Hcode. subst p. eapply completion_at; rewrite ?Hu, ?Hpe; eauto.
Qed.

(** A device whose default control pipe has a ring of eight entries. *)
Definition demo_ring8 : Ring := mkRing 0x200000 (replicate 8 TRB_zero) 8 true 0.
Definition demo_x : xhci_dev := mkX 1 (Some (Some demo_ring8) :: replicate 30 None) (replicate 16 (None, 0)) [].

Lemma demo_x_ring i r : transfer_rings_ demo_x !! i = Some (Some (Some r)) -> i = 0%nat /\ r = demo_ring8.
Proof.
  destruct i as [|i]; [by intros [= <-]|]. change (transfer_rings_ demo_x !! S i) with (replicate 30 (@None (option Ring)) !! i).
  intros Hi. by apply lookup_replicate in Hi as [? _].
Qed.

Lemma demo_x_ok : x_ok demo_x.
Proof.
  constructor; [done| |].
  - intros i r [_ ->]%demo_x_ring. by constructor.
  - intros i j r r' p [-> _]%demo_x_ring [-> _]%demo_x_ring. done.
Qed.

Lemma demo_ring8_ok : ring_ok demo_ring8 0x200000 true 0 [].
Proof. constructor; try done; [|by exists 0x20000|by left]. apply (cells_zero 8 7). lia. Qed.

Lemma control_transfer_roundtrip_witness :
  exists x' r', start (TIn 1 (get_descriptor 1) 0x9000 256) demo_x = Some (kSuccess, x')
    /\ transfer_rings_ x' !! 0%nat = Some (Some (Some r'))
    /\ ring_run r' 0x200000 true [RFetch; RFetch; RFetch; RFetch]
       = Some ((Some <$> stages (TIn 1 (get_descriptor 1) 0x9000 256)) ++ [None]).
Proof.
  destruct (control_transfer_roundtrip 0 0 0 0 0 0 demo_x 0 demo_ring8 0x200000 true 0
    (TIn 1 (get_descriptor 1) 0x9000 256) (get_descriptor 1) 0x9000 256) as (x' & r' & p & E1 & E2 & E3 & _);
    [exists 1; by left|done|by constructor|done|done|apply demo_x_ok|done|apply demo_ring8_ok|done| |].
  - intros k Hk. by apply elem_of_nil in Hk.
  - exists x', r'. split_and!; [exact E1|exact E2|exact E3].
Defined.

(** The names of completion codes end at 36; a code beyond it is looked up behind
    the table. *)
Lemma unknown_code_faults a b c d e f (w : usb xhci_dev) t :
  37 <= completion_code t -> OnTransferEventReceived a b c d e f w t = None.
Proof.
  intros Hc. unfold OnTransferEventReceived. by rewrite log_event_beyond.
Qed.
