(* ===== verification/Xhci.v ===== *)
(** * The USB host controller driver, src/src/usb/xhci/xhci.cpp, devmgr.cpp, port.cpp

    A port goes through the phases of [ConfigPhase], driven by the events of the
    controller: reset, enabling of a slot, addressing, initialisation of the device,
    configuration of its endpoints.  From the reset to the address only one port may
    be on its way, the [addressing_port]; the others wait.

    The controller is a parameter: [hw n p] is what the [n]-th read of a port's status
    register gives for port [p].  A handler is a computation that may end in a fault.
    Waiting for the end of a reset polls at most [patience] times. *)
From Stdlib Require Import ZArith Lia.
From stdpp Require Import base option list gmap numbers.
From S2P Require Import Prelude Error Bits UsbMemory ArrayMap Ring Usb Trb XhciDevice.

Set Default Proof Using "Type".

Inductive ConfigPhase :=
| kNotConnected | kWaitingAddressed | kResettingPort | kEnablingSlot | kAddressingDevice
| kInitializingDevice | kConfiguringEndpoints | kConfigured.
#[global] Instance ConfigPhase_eq_dec : EqDecision ConfigPhase.
Proof. solve_decision. Defined.

(** ** Contexts, src/src/usb/xhci/context.hpp

    A slot context is its eight words; of an endpoint context the words that have
    fields, words 2 and 3 as one. *)
Definition SlotContext : Type := list Z.
Record EndpointContext := mkEPC { epc_0 : Z; epc_1 : Z; epc_2 : Z; epc_4 : Z }.
Record InputContext := mkIn {
  drop_context_flags : Z; add_context_flags : Z; in_slot_context : SlotContext; in_ep_contexts : list EndpointContext
}.

Definition set_dword (c : SlotContext) (i : nat) (f : Z -> Z) : SlotContext := alter f i c.
Definition root_hub_port_num (c : SlotContext) : Z := get_field 16 8 (default 0 (c !! 1%nat)).
Definition slot_speed (c : SlotContext) : Z := get_field 20 4 (default 0 (c !! 0%nat)).

(** [DeviceContextIndex(ep_num, dir_in)] *)
Definition DeviceContextIndex (ep_num : Z) (dir_in : bool) : Z :=
  2 * ep_num + (if ep_num =? 0 then 1 else Z.b2z dir_in).

Definition clear_control (ic : InputContext) : InputContext := mkIn 0 0 (in_slot_context ic) (in_ep_contexts ic).
Definition EnableSlotContext (ic : InputContext) : InputContext :=
  mkIn (drop_context_flags ic) (Z.lor (add_context_flags ic) 1) (in_slot_context ic) (in_ep_contexts ic).
Definition EnableEndpoint (ic : InputContext) (dci : Z) : InputContext :=
  mkIn (drop_context_flags ic) (Z.lor (add_context_flags ic) (u32 (Z.shiftl 1 dci))) (in_slot_context ic) (in_ep_contexts ic).
Definition set_slot_context (ic : InputContext) (c : SlotContext) : InputContext :=
  mkIn (drop_context_flags ic) (add_context_flags ic) c (in_ep_contexts ic).
(** The endpoint context of index [dci], from 1. *)
Definition update_ep (ic : InputContext) (dci : Z) (f : EndpointContext -> EndpointContext) : option InputContext :=
  c ← (in_ep_contexts ic)$[dci - 1]; l ← (in_ep_contexts ic)$[dci - 1 := f c];
  Some (mkIn (drop_context_flags ic) (add_context_flags ic) (in_slot_context ic) l).

Definition InitializeSlotContext (port_num port_speed : Z) (c : SlotContext) : SlotContext :=
  let c := set_dword c 0 (set_field 0 20 0) in
  let c := set_dword c 1 (set_field 16 8 port_num) in
  let c := set_dword c 0 (set_field 27 5 1) in
  set_dword c 0 (set_field 20 4 port_speed).

Definition DetermineMaxPacketSizeForControlPipe (slot_speed : Z) : Z :=
  if slot_speed =? 4 then 512 else if slot_speed =? 3 then 64 else 8.

Definition InitializeEP0Context (buffer max_packet_size : Z) (c : EndpointContext) : EndpointContext :=
  let w0 := set_field 8 2 0 (set_field 10 5 0 (set_field 16 8 0 (epc_0 c))) in
  let w1 := set_field 1 2 3 (set_field 8 8 0 (set_field 16 16 max_packet_size (set_field 3 3 4 (epc_1 c)))) in
  let w2 := set_bit 0 true (set_field 4 60 (Z.shiftr buffer 4) (epc_2 c)) in
  mkEPC w0 w1 w2 (epc_4 c).

(** The index of the highest bit, by the instruction [bsr]. *)
Definition MostSignificantBit (value : Z) : Z := if value =? 0 then -1 else Z.log2 value.

(** src/src/usb/xhci/speed.hpp *)
Definition kFullSpeed : Z := 1.
Definition kLowSpeed : Z := 2.
Definition kSuperSpeedPlus : Z := 5.

Definition convert_interval (port_speed : Z) (type : EndpointType) (interval : Z) : Z :=
  if (port_speed =? kFullSpeed) || (port_speed =? kLowSpeed) then
    if bool_decide (type = kIsochronous) then interval + 2 else MostSignificantBit (u32 interval) + 3
  else interval - 1.

Definition xhci_ep_type (type : EndpointType) (is_in : bool) : Z :=
  match type with
  | kControl => 4
  | kIsochronous => if is_in then 5 else 1
  | kBulk => if is_in then 6 else 2
  | kInterrupt => if is_in then 7 else 3
  end.

Definition configure_ep (port_speed : Z) (config : EndpointConfig) (buffer : Z) (c : EndpointContext) : EndpointContext :=
  let w1 := set_field 3 3 (xhci_ep_type (ep_type config) (ep_IsIn (ep_id config))) (epc_1 c) in
  let w1 := set_field 16 16 (max_packet_size config) w1 in
  let w0 := set_field 16 8 (convert_interval port_speed (ep_type config) (interval config)) (epc_0 c) in
  let w4 := set_field 0 16 1 (epc_4 c) in
  let w2 := set_bit 0 true (set_field 4 60 (Z.shiftr buffer 4) (epc_2 c)) in
  mkEPC (set_field 8 2 0 (set_field 10 5 0 w0)) (set_field 1 2 3 w1) w2 w4.

(** ** The state *)
Record xdevice := mkXD {
  xd_addr : Z;                 (** where the [Device] was allocated *)
  xd_usb : usb xhci_dev;
  xd_ctx : SlotContext;        (** of the device context, which the controller writes *)
  xd_input : InputContext
}.

(** [DeviceManager] *)
Record devmgr := mkMgr { devices_ : list (option xdevice); device_context_pointers_ : list Z; max_slots_ : Z }.

Record xhc := mkXhc {
  port_config_phase : list ConfigPhase;   (** 256, by port number *)
  addressing_port : Z;
  cr_ : Ring;
  er_ : EventRing;
  devmgr_ : devmgr;
  pool_ptr : Z;                           (** [alloc_ptr] *)
  told : list note;                       (** what observers were told *)
  command_bells : list Z;                 (** writes to doorbell 0 *)
  port_writes : list (Z * Z);             (** writes to status registers of ports *)
  port_reads : nat                        (** how many of them were read *)
}.

Definition M (A : Type) : Type := xhc -> option (A * xhc).
#[global] Instance M_ret : MRet M := fun A a s => Some (a, s).
#[global] Instance M_bind : MBind M := fun A B f m s => match m s with Some (a, s) => f a s | None => None end.
Definition lift {A} (o : option A) : M A := fun s => match o with Some a => Some (a, s) | None => None end.
Definition gets {A} (f : xhc -> A) : M A := fun s => Some (f s, s).
Definition puts (f : xhc -> xhc) : M unit := fun s => Some (tt, f s).

Definition set_phase_of (l : list ConfigPhase) (s : xhc) : xhc :=
  mkXhc l (addressing_port s) (cr_ s) (er_ s) (devmgr_ s) (pool_ptr s) (told s) (command_bells s) (port_writes s) (port_reads s).
Definition set_addressing (p : Z) (s : xhc) : xhc :=
  mkXhc (port_config_phase s) p (cr_ s) (er_ s) (devmgr_ s) (pool_ptr s) (told s) (command_bells s) (port_writes s) (port_reads s).
Definition set_cr (r : Ring) (s : xhc) : xhc :=
  mkXhc (port_config_phase s) (addressing_port s) r (er_ s) (devmgr_ s) (pool_ptr s) (told s) (command_bells s) (port_writes s) (port_reads s).
Definition set_er (e : EventRing) (s : xhc) : xhc :=
  mkXhc (port_config_phase s) (addressing_port s) (cr_ s) e (devmgr_ s) (pool_ptr s) (told s) (command_bells s) (port_writes s) (port_reads s).
Definition set_mgr (m : devmgr) (s : xhc) : xhc :=
  mkXhc (port_config_phase s) (addressing_port s) (cr_ s) (er_ s) m (pool_ptr s) (told s) (command_bells s) (port_writes s) (port_reads s).
Definition set_pool (p : Z) (s : xhc) : xhc :=
  mkXhc (port_config_phase s) (addressing_port s) (cr_ s) (er_ s) (devmgr_ s) p (told s) (command_bells s) (port_writes s) (port_reads s).
Definition set_told (ns : list note) (s : xhc) : xhc :=
  mkXhc (port_config_phase s) (addressing_port s) (cr_ s) (er_ s) (devmgr_ s) (pool_ptr s) ns (command_bells s) (port_writes s) (port_reads s).
Definition add_bell (v : Z) (s : xhc) : xhc :=
  mkXhc (port_config_phase s) (addressing_port s) (cr_ s) (er_ s) (devmgr_ s) (pool_ptr s) (told s) (command_bells s ++ [v]) (port_writes s) (port_reads s).
Definition add_port_write (p v : Z) (s : xhc) : xhc :=
  mkXhc (port_config_phase s) (addressing_port s) (cr_ s) (er_ s) (devmgr_ s) (pool_ptr s) (told s) (command_bells s) (port_writes s ++ [(p, v)]) (port_reads s).
Definition count_read (s : xhc) : xhc :=
  mkXhc (port_config_phase s) (addressing_port s) (cr_ s) (er_ s) (devmgr_ s) (pool_ptr s) (told s) (command_bells s) (port_writes s) (S (port_reads s)).

Definition get_phase (p : Z) : M ConfigPhase := s ← gets port_config_phase; lift (s$[p]).
Definition put_phase (p : Z) (ph : ConfigPhase) : M unit :=
  l ← gets port_config_phase; l ← lift (l$[p := ph]); puts (set_phase_of l).

Section controller.
Context (hw : nat -> Z -> Z) (patience : nat) (max_ports : Z).
(** The memory pool, and sizes and offsets that the compiler chooses. *)
Context (memory_pool sizeof_Device ctx_offset input_offset buf_offset : Z).
Context (sizeof_keyboard sizeof_mouse hid_buf_offset keyboard_observer mouse_observer : Z).

(** ** Ports, src/src/usb/xhci/port.cpp *)
Definition read_PORTSC (p : Z) : M Z := fun s =>
  if (1 <=? p) && (p <=? max_ports) then Some (hw (port_reads s) p, count_read s) else None.
Definition write_PORTSC (p v : Z) : M unit := fun s =>
  if (1 <=? p) && (p <=? max_ports) then Some (tt, add_port_write p v s) else None.

Definition IsConnected (p : Z) : M bool := v ← read_PORTSC p; mret (get_bit 0 v).
Definition IsEnabled (p : Z) : M bool := v ← read_PORTSC p; mret (get_bit 1 v).
Definition IsPortResetChanged (p : Z) : M bool := v ← read_PORTSC p; mret (get_bit 21 v).
Definition Speed (p : Z) : M Z := v ← read_PORTSC p; mret (get_field 10 4 v).

Fixpoint wait_reset (fuel : nat) (p : Z) : M unit :=
  match fuel with
  | O => lift None
  | S fuel => v ← read_PORTSC p; if get_bit 4 v then wait_reset fuel p else mret tt
  end.
Definition Port_Reset (p : Z) : M unit :=
  v ← read_PORTSC p;
  _ ← write_PORTSC p (Z.lor (Z.land v 0x0e00c3e0) 0x00020010);
  wait_reset patience p.
Definition ClearPortResetChange (p : Z) : M unit :=
  v ← read_PORTSC p; write_PORTSC p (set_bit 21 true (Z.land v 0x0e01c3e0)).

(** ** Devices, src/src/usb/xhci/devmgr.cpp *)
Definition FindBySlot (slot_id : Z) : M (option xdevice) :=
  m ← gets devmgr_;
  if max_slots_ m <? slot_id then mret None else lift ((devices_ m)$[slot_id]).

Definition put_device (slot_id : Z) (d : xdevice) : M unit :=
  m ← gets devmgr_;
  l ← lift ((devices_ m)$[slot_id := Some d]);
  puts (set_mgr (mkMgr l (device_context_pointers_ m) (max_slots_ m))).

(** A new device; the memory of the pool is zero. *)
Definition new_device (slot_id addr : Z) : xdevice :=
  let dev := mkDev (replicate 16 0) (addr + buf_offset) (replicate 256 0) 0 0 false 0
               (replicate 16 (mkEP 0 kControl 0 0)) 0 (replicate 4 (None, 0)) in
  mkXD addr (mkUsb dev ∅ 0 [] (mkX slot_id (replicate 31 None) (replicate 16 (None, 0)) []))
    (replicate 8 0) (mkIn 0 0 (replicate 8 0) (replicate 31 (mkEPC 0 0 0 0))).

Definition AllocDevice (slot_id : Z) : M Code :=
  m ← gets devmgr_;
  if max_slots_ m <? slot_id then mret kInvalidSlotID
  else
    d ← lift ((devices_ m)$[slot_id]);
    match d with
    | Some _ => mret kAlreadyAllocated
    | None =>
        ptr ← gets pool_ptr;
        let '(addr, ptr) := AllocMem memory_pool ptr sizeof_Device 64 4096 in
        if addr =? 0 then lift None
        else _ ← puts (set_pool ptr); _ ← put_device slot_id (new_device slot_id addr); mret kSuccess
    end.

Definition LoadDCBAA (slot_id : Z) : M Code :=
  m ← gets devmgr_;
  if max_slots_ m <? slot_id then mret kInvalidSlotID
  else
    d ← lift ((devices_ m)$[slot_id]); d ← lift d;
    l ← lift ((device_context_pointers_ m)$[slot_id := xd_addr d + ctx_offset]);
    _ ← puts (set_mgr (mkMgr (devices_ m) l (max_slots_ m)));
    mret kSuccess.

(** The memory of the device is not given back; the slot is not checked. *)
Definition Remove (slot_id : Z) : M Code :=
  m ← gets devmgr_;
  l ← lift ((device_context_pointers_ m)$[slot_id := 0]);
  ds ← lift ((devices_ m)$[slot_id := None]);
  _ ← puts (set_mgr (mkMgr ds l (max_slots_ m)));
  mret kSuccess.

(** The first slot, from 1, whose device is at the port. *)
Fixpoint find_port (port_num : Z) (ds : list (option xdevice)) : option xdevice :=
  match ds with
  | [] => None
  | Some d :: ds => if root_hub_port_num (xd_ctx d) =? port_num then Some d else find_port port_num ds
  | None :: ds => find_port port_num ds
  end.
Definition FindByPort (port_num : Z) : M (option xdevice) :=
  m ← gets devmgr_; mret (find_port port_num (take (Z.to_nat (max_slots_ m)) (drop 1 (devices_ m)))).

(** A call of the device layer on the device of a slot: the pool and the notes are
    shared by all devices. *)
Definition on_device (slot_id : Z) (f : usb xhci_dev -> option (Code * usb xhci_dev)) : M Code :=
  d ← FindBySlot slot_id; d ← lift d;
  ptr ← gets pool_ptr; ns ← gets told;
  let u := xd_usb d in
  '(err, u) ← lift (f (mkUsb (u_dev u) (u_drivers u) ptr ns (u_xfer u)));
  _ ← put_device slot_id (mkXD (xd_addr d) u (xd_ctx d) (xd_input d));
  _ ← puts (set_pool (u_alloc u)); _ ← puts (set_told (u_notes u));
  mret err.

(** ** Commands *)
Definition push_command (cmd : TRB) : M unit :=
  r ← gets cr_; '(_, r) ← lift (Push r cmd); _ ← puts (set_cr r); puts (add_bell 0).

(** [dev->AllocTransferRing(dci, 32)->Buffer()] *)
Definition alloc_ring (slot_id dci : Z) : M Z :=
  d ← FindBySlot slot_id; d ← lift d;
  ptr ← gets pool_ptr;
  '(tr, x, ptr) ← lift (AllocTransferRing memory_pool ptr (u_xfer (xd_usb d)) dci 32);
  _ ← puts (set_pool ptr);
  _ ← put_device slot_id (mkXD (xd_addr d) (set_xfer (xd_usb d) x) (xd_ctx d) (xd_input d));
  tr ← lift tr;
  mret (match tr with Some r => buf_ r | None => 0 end).

Definition update_input (slot_id : Z) (f : InputContext -> option InputContext) : M unit :=
  d ← FindBySlot slot_id; d ← lift d;
  ic ← lift (f (xd_input d));
  put_device slot_id (mkXD (xd_addr d) (xd_usb d) (xd_ctx d) ic).

(** ** The phases of a port *)
Definition ResetPort (port : Z) : M Code :=
  is_connected ← IsConnected port;
  if negb is_connected then mret kSuccess
  else
    a ← gets addressing_port;
    if negb (a =? 0) then _ ← put_phase port kWaitingAddressed; mret kSuccess
    else
      ph ← get_phase port;
      if negb (bool_decide (ph = kNotConnected)) && negb (bool_decide (ph = kWaitingAddressed)) then mret kInvalidPhase
      else
        _ ← puts (set_addressing port);
        _ ← put_phase port kResettingPort;
        _ ← Port_Reset port;
        mret kSuccess.

Definition EnableSlot (port : Z) : M Code :=
  is_enabled ← IsEnabled port;
  reset_completed ← IsPortResetChanged port;
  if is_enabled && reset_completed then
    _ ← ClearPortResetChange port;
    _ ← put_phase port kEnablingSlot;
    _ ← push_command EnableSlotCommandTRB;
    mret kSuccess
  else mret kSuccess.

Definition AddressDevice (port_id slot_id : Z) : M Code :=
  _ ← AllocDevice slot_id;
  d ← FindBySlot slot_id;
  match d with
  | None => mret kInvalidSlotID
  | Some d =>
      let ep0_dci := DeviceContextIndex 0 false in
      _ ← update_input slot_id (fun ic => Some (EnableEndpoint (EnableSlotContext (clear_control ic)) ep0_dci));
      speed ← Speed port_id;
      _ ← update_input slot_id (fun ic =>
            Some (set_slot_context ic (InitializeSlotContext port_id speed (in_slot_context ic))));
      buffer ← alloc_ring slot_id ep0_dci;
      _ ← update_input slot_id (fun ic =>
            update_ep ic ep0_dci (InitializeEP0Context buffer
              (DetermineMaxPacketSizeForControlPipe (slot_speed (in_slot_context ic)))));
      _ ← LoadDCBAA slot_id;
      _ ← put_phase port_id kAddressingDevice;
      _ ← push_command (AddressDeviceCommandTRB (xd_addr d + input_offset) slot_id);
      mret kSuccess
  end.

Definition InitializeDevice (port_id slot_id : Z) : M Code :=
  d ← FindBySlot slot_id;
  match d with
  | None => mret kInvalidSlotID
  | Some _ =>
      _ ← put_phase port_id kInitializingDevice;
      _ ← on_device slot_id StartInitialize;
      mret kSuccess
  end.

Definition CompleteConfiguration (port_id slot_id : Z) : M Code :=
  d ← FindBySlot slot_id;
  match d with
  | None => mret kInvalidSlotID
  | Some _ =>
      _ ← on_device slot_id OnEndpointsConfigured;
      _ ← put_phase port_id kConfigured;
      mret kSuccess
  end.

Fixpoint configure_loop (slot_id port_speed : Z) (configs : list EndpointConfig) : M unit :=
  match configs with
  | [] => mret tt
  | c :: configs =>
      let dci := ep_id c in
      _ ← update_input slot_id (fun ic => Some (EnableEndpoint ic dci));
      buffer ← alloc_ring slot_id dci;
      _ ← update_input slot_id (fun ic => update_ep ic dci (configure_ep port_speed c buffer));
      configure_loop slot_id port_speed configs
  end.

Definition ConfigureEndpoints (slot_id : Z) : M Code :=
  d ← FindBySlot slot_id; d ← lift d;
  let dev := u_dev (xd_usb d) in
  _ ← update_input slot_id (fun ic =>
        let ic := EnableSlotContext (set_slot_context (clear_control ic) (xd_ctx d)) in
        Some (set_slot_context ic (set_dword (in_slot_context ic) 0 (set_field 27 5 31))));
  let port_id := root_hub_port_num (xd_ctx d) in
  port_speed ← Speed port_id;
  if (port_speed =? 0) || (kSuperSpeedPlus <? port_speed) then mret kUnknownXHCISpeedID
  else
    _ ← configure_loop slot_id port_speed (take (Z.to_nat (num_ep_configs_ dev)) (ep_configs_ dev));
    _ ← put_phase port_id kConfiguringEndpoints;
    _ ← push_command (ConfigureEndpointCommandTRB (xd_addr d + input_offset) (x_slot_id (u_xfer (xd_usb d))));
    mret kSuccess.

(** ** Events *)
Definition OnPortStatusChange (trb : TRB) : M Code :=
  let port_id := event_port_id trb in
  ph ← get_phase port_id;
  match ph with
  | kNotConnected => ResetPort port_id
  | kResettingPort => EnableSlot port_id
  | _ => mret kInvalidPhase
  end.

Definition OnTransfer (trb : TRB) : M Code :=
  let slot_id := event_slot_id trb in
  d ← FindBySlot slot_id;
  match d with
  | None => mret kInvalidSlotID
  | Some _ =>
      err ← on_device slot_id (fun u =>
        OnTransferEventReceived memory_pool sizeof_keyboard sizeof_mouse hid_buf_offset keyboard_observer
          mouse_observer u trb);
      if is_error err then mret err
      else
        d ← FindBySlot slot_id; d ← lift d;
        let port_id := root_hub_port_num (xd_ctx d) in
        if is_initialized_ (u_dev (xd_usb d)) then
          ph ← get_phase port_id;
          if bool_decide (ph = kInitializingDevice) then ConfigureEndpoints slot_id else mret kSuccess
        else mret kSuccess
  end.

(** The first port that waits for its turn is reset. *)
Fixpoint next_waiting (n : nat) (i : Z) : M Code :=
  match n with
  | O => mret kSuccess
  | S n =>
      ph ← get_phase i;
      if bool_decide (ph = kWaitingAddressed) then ResetPort i else next_waiting n (i + 1)
  end.

Definition OnCommandCompletion (trb : TRB) : M Code :=
  r ← gets cr_;
  issuer ← lift (ring_at r (CommandCompletion_Pointer trb));
  let issuer_type := trb_type issuer in
  let slot_id := event_slot_id trb in
  if issuer_type =? EnableSlotCommandTRB_Type then
    a ← gets addressing_port; ph ← get_phase a;
    if bool_decide (ph <> kEnablingSlot) then mret kInvalidPhase else AddressDevice a slot_id
  else if issuer_type =? AddressDeviceCommandTRB_Type then
    d ← FindBySlot slot_id;
    match d with
    | None => mret kInvalidSlotID
    | Some d =>
        let port_id := root_hub_port_num (xd_ctx d) in
        a ← gets addressing_port;
        if negb (port_id =? a) then mret kInvalidPhase
        else
          ph ← get_phase port_id;
          if bool_decide (ph <> kAddressingDevice) then mret kInvalidPhase
          else
            _ ← puts (set_addressing 0);
            err ← next_waiting 256 0;
            if is_error err then mret err else InitializeDevice port_id slot_id
    end
  else if issuer_type =? ConfigureEndpointCommandTRB_Type then
    d ← FindBySlot slot_id;
    match d with
    | None => mret kInvalidSlotID
    | Some d =>
        let port_id := root_hub_port_num (xd_ctx d) in
        ph ← get_phase port_id;
        if bool_decide (ph <> kConfiguringEndpoints) then mret kInvalidPhase
        else CompleteConfiguration port_id slot_id
    end
  else mret kInvalidPhase.

Definition ConfigurePort (port : Z) : M Code :=
  ph ← get_phase port;
  if bool_decide (ph = kNotConnected) then ResetPort port else mret kSuccess.

(** One event, when there is one. *)
Definition ProcessEvent : M Code :=
  e ← gets er_;
  b ← lift (HasFront e);
  if negb b then mret kSuccess
  else
    trb ← lift (Front e);
    err ← (if TRBDynamicCast TransferEventTRB_Type trb then OnTransfer trb
           else if TRBDynamicCast PortStatusChangeEventTRB_Type trb then OnPortStatusChange trb
           else if TRBDynamicCast CommandCompletionEventTRB_Type trb then OnCommandCompletion trb
           else mret kNotImplemented);
    e ← gets er_;
    _ ← puts (set_er (Pop e));
    mret err.
End controller.
