(* ===== verification/XhciSpec.v ===== *)
(** * Correctness of the controller driver

    At every moment the ports between reset and address are exactly the
    [addressing_port], whatever events arrive and whatever the devices do; and a port
    with a device on it is led from phase to phase. *)
From Stdlib Require Import ZArith Lia.
From stdpp Require Import base option list gmap numbers.
From S2P Require Import Prelude Error Bits UsbMemory ArrayMap Ring Usb UsbSpec UsbProtocol Trb XhciDevice Xhci.

Set Default Proof Using "Type*".

(** ** What a handler leaves alone

    [keeps f m]: the part [f] of the state is as before when [m] returns. *)
Definition keeps {X A} (f : xhc -> X) (m : M A) : Prop := forall s a s', m s = Some (a, s') -> f s' = f s.

Definition ports (s : xhc) : list ConfigPhase * Z := (port_config_phase s, addressing_port s).

Lemma bind_inv {A B} (m : M A) (k : A -> M B) s b s' :
  (m ≫= k) s = Some (b, s') -> exists a s1, m s = Some (a, s1) /\ k a s1 = Some (b, s').
Proof. unfold mbind, M_bind. destruct (m s) as [[a s1]|]; [|done]. eauto. Qed.

Section keeps.
Context {X : Type} (f : xhc -> X).

Lemma keeps_bind {A B} (m : M A) (k : A -> M B) : keeps f m -> (forall a, keeps f (k a)) -> keeps f (m ≫= k).
Proof.
  intros Hm Hk s b s' (a & s1 & E1 & E2)%bind_inv. rewrite (Hk _ _ _ _ E2). by eapply Hm.
Qed.
Lemma keeps_ret {A} (a : A) : keeps f (mret a : M A).
Proof. by intros s b s' [= <- <-]. Qed.
Lemma keeps_lift {A} (o : option A) : keeps f (lift o).
Proof. intros s b s'. unfold lift. destruct o; [|done]. by intros [= <- <-]. Qed.
Lemma keeps_gets {A} (g : xhc -> A) : keeps f (gets g).
Proof. by intros s b s' [= <- <-]. Qed.
Lemma keeps_puts g : (forall s, f (g s) = f s) -> keeps f (puts g).
Proof. intros Hf s b s' [= <- <-]. apply Hf. Qed.
Lemma keeps_if {A} (b : bool) (m1 m2 : M A) : keeps f m1 -> keeps f m2 -> keeps f (if b then m1 else m2).
Proof. by destruct b. Qed.
End keeps.

Create HintDb keeps.
#[export] Hint Resolve keeps_bind keeps_ret keeps_lift keeps_gets keeps_puts keeps_if : keeps.
#[export] Hint Extern 1 (keeps _ (let '(_, _) := ?p in _)) => destruct p : keeps.
#[export] Hint Extern 1 (keeps _ (match ?o with Some _ => _ | None => _ end)) => destruct o : keeps.

(** The parts that registers, commands and devices have nothing to do with. *)
Class aside {X} (f : xhc -> X) : Prop := {
  aside_cr r s : f (set_cr r s) = f s;
  aside_mgr m s : f (set_mgr m s) = f s;
  aside_pool p s : f (set_pool p s) = f s;
  aside_told ns s : f (set_told ns s) = f s;
  aside_bell v s : f (add_bell v s) = f s;
  aside_port p v s : f (add_port_write p v s) = f s;
  aside_read s : f (count_read s) = f s
}.
#[global] Instance aside_ports : aside ports.
Proof. by constructor. Qed.
#[global] Instance aside_er : aside er_.
Proof. by constructor. Qed.
#[export] Hint Resolve aside_ports aside_er aside_cr aside_mgr aside_pool aside_told aside_bell : keeps.

Section quiet.
Context {X : Type} (f : xhc -> X) `{!aside f}.
Context (hw : nat -> Z -> Z) (patience : nat) (max_ports : Z).
Context (memory_pool sizeof_Device ctx_offset input_offset buf_offset : Z).
Context (sizeof_keyboard sizeof_mouse hid_buf_offset keyboard_observer mouse_observer : Z).

Lemma quiet_read p : keeps f (read_PORTSC hw max_ports p).
Proof. intros s a s'. unfold read_PORTSC. destruct (_ && _); [|done]. intros [= <- <-]. apply aside_read. Qed.
Lemma quiet_write p v : keeps f (write_PORTSC max_ports p v).
Proof. intros s a s'. unfold write_PORTSC. destruct (_ && _); [|done]. intros [= <- <-]. apply aside_port. Qed.
Hint Resolve quiet_read quiet_write : keeps.

Lemma quiet_wait fuel p : keeps f (wait_reset hw max_ports fuel p).
Proof. induction fuel as [|fuel IH]; cbn [wait_reset]; eauto 6 with keeps. Qed.
Hint Resolve quiet_wait : keeps.
Lemma quiet_Reset p : keeps f (Port_Reset hw patience max_ports p).
Proof. unfold Port_Reset. eauto 8 with keeps. Qed.
Lemma quiet_Connected p : keeps f (IsConnected hw max_ports p).
Proof. unfold IsConnected. eauto with keeps. Qed.
Lemma quiet_Enabled p : keeps f (IsEnabled hw max_ports p).
Proof. unfold IsEnabled. eauto with keeps. Qed.
Lemma quiet_ResetChanged p : keeps f (IsPortResetChanged hw max_ports p).
Proof. unfold IsPortResetChanged. eauto with keeps. Qed.
Lemma quiet_Speed p : keeps f (Speed hw max_ports p).
Proof. unfold Speed. eauto with keeps. Qed.
Lemma quiet_Clear p : keeps f (ClearPortResetChange hw max_ports p).
Proof. unfold ClearPortResetChange. eauto with keeps. Qed.
Lemma quiet_Find slot : keeps f (FindBySlot slot).
Proof. unfold FindBySlot. eauto 6 with keeps. Qed.
Lemma quiet_put_device slot d : keeps f (put_device slot d).
Proof. unfold put_device. eauto 8 with keeps. Qed.
Hint Resolve quiet_Reset quiet_Connected quiet_Enabled quiet_ResetChanged quiet_Speed quiet_Clear quiet_Find
  quiet_put_device : keeps.
Lemma quiet_AllocDevice slot : keeps f (AllocDevice memory_pool sizeof_Device buf_offset slot).
Proof. unfold AllocDevice. eauto 20 with keeps. Qed.
Lemma quiet_LoadDCBAA slot : keeps f (LoadDCBAA ctx_offset slot).
Proof. unfold LoadDCBAA. eauto 20 with keeps. Qed.
Lemma quiet_on_device slot g : keeps f (on_device slot g).
Proof. unfold on_device. eauto 20 with keeps. Qed.
Lemma quiet_command cmd : keeps f (push_command cmd).
Proof. unfold push_command. eauto 20 with keeps. Qed.
Lemma quiet_ring slot dci : keeps f (alloc_ring memory_pool slot dci).
Proof. unfold alloc_ring. eauto 20 with keeps. Qed.
Lemma quiet_input slot g : keeps f (update_input slot g).
Proof. unfold update_input. eauto 20 with keeps. Qed.
Hint Resolve quiet_AllocDevice quiet_LoadDCBAA quiet_on_device quiet_command quiet_ring quiet_input : keeps.
Lemma quiet_configure slot speed cs : keeps f (configure_loop memory_pool slot speed cs).
Proof. induction cs as [|c cs IH]; cbn [configure_loop]; eauto 20 with keeps. Qed.
End quiet.
#[export] Hint Resolve quiet_read quiet_write quiet_wait quiet_Reset quiet_Connected quiet_Enabled quiet_ResetChanged
  quiet_Speed quiet_Clear quiet_Find quiet_put_device quiet_AllocDevice quiet_LoadDCBAA quiet_on_device quiet_command
  quiet_ring quiet_input quiet_configure : keeps.

(** Resetting a port does not touch the devices. *)
Section devices.
Context (hw : nat -> Z -> Z) (patience : nat) (max_ports : Z).

Lemma read_devices p : keeps devmgr_ (read_PORTSC hw max_ports p).
Proof. intros s a s'. unfold read_PORTSC. destruct (_ && _); [|done]. by intros [= <- <-]. Qed.
Lemma write_devices p v : keeps devmgr_ (write_PORTSC max_ports p v).
Proof. intros s a s'. unfold write_PORTSC. destruct (_ && _); [|done]. by intros [= <- <-]. Qed.
Hint Resolve read_devices write_devices : keeps.
Lemma wait_devices fuel p : keeps devmgr_ (wait_reset hw max_ports fuel p).
Proof. induction fuel as [|fuel IH]; cbn [wait_reset]; eauto 6 with keeps. Qed.
Hint Resolve wait_devices : keeps.
Lemma ResetPort_devices p : keeps devmgr_ (ResetPort hw patience max_ports p).
Proof. unfold ResetPort, IsConnected, put_phase, get_phase, Port_Reset. eauto 30 with keeps. Qed.
Hint Resolve ResetPort_devices : keeps.
Lemma next_waiting_devices n i : keeps devmgr_ (next_waiting hw patience max_ports n i).
Proof. revert i. induction n as [|n IH]; intros i; cbn [next_waiting]; unfold get_phase; eauto 10 with keeps. Qed.
End devices.

(** ** The ports *)
Definition on_the_way (ph : ConfigPhase) : bool :=
  match ph with kResettingPort | kEnablingSlot | kAddressingDevice => true | _ => false end.

(** A port is between reset and address exactly when it is the [addressing_port]. *)
Definition exclusive (s : xhc) : Prop :=
  length (port_config_phase s) = 256%nat
  /\ forall p ph, (port_config_phase s)$[p] = Some ph ->
       (on_the_way ph = true <-> p = addressing_port s /\ addressing_port s <> 0).

(** The same with the exception of port [q], which has its address but is not yet
    in its next phase. *)
Definition exclusive_but (q : Z) (s : xhc) : Prop :=
  length (port_config_phase s) = 256%nat
  /\ (port_config_phase s)$[q] = Some kAddressingDevice /\ q <> addressing_port s
  /\ forall p ph, p <> q -> (port_config_phase s)$[p] = Some ph ->
       (on_the_way ph = true <-> p = addressing_port s /\ addressing_port s <> 0).

Lemma exclusive_ports s s' : ports s' = ports s -> exclusive s -> exclusive s'.
Proof. intros [= E1 E2]. unfold exclusive. by rewrite E1, E2. Qed.
Lemma exclusive_but_ports q s s' : ports s' = ports s -> exclusive_but q s -> exclusive_but q s'.
Proof. intros [= E1 E2]. unfold exclusive_but. by rewrite E1, E2. Qed.

Lemma get_phase_inv p s ph s' : get_phase p s = Some (ph, s') -> s' = s /\ (port_config_phase s)$[p] = Some ph.
Proof.
  unfold get_phase, mbind, M_bind, gets, lift. destruct ((port_config_phase s)$[p]) as [ph'|]; [|done].
  by intros [= <- <-].
Qed.

Lemma put_phase_inv p ph s a s' :
  put_phase p ph s = Some (a, s') ->
  0 <= p < Z.of_nat (length (port_config_phase s))
  /\ s' = set_phase_of (<[Z.to_nat p := ph]> (port_config_phase s)) s.
Proof.
  unfold put_phase, mbind, M_bind, gets, lift, puts.
  destruct ((port_config_phase s)$[p := ph]) as [l|] eqn:E; [|done]. intros [= <- <-].
  by apply updateZ_Some in E as [? ->].
Qed.

(** A step inside or outside of the protected phases. *)
Lemma put_phase_exclusive s p ph ph0 :
  exclusive s -> (port_config_phase s)$[p] = Some ph0 -> on_the_way ph = on_the_way ph0 ->
  exclusive (set_phase_of (<[Z.to_nat p := ph]> (port_config_phase s)) s).
Proof.
  intros [Hl Hx] Hp Ho. split; [cbn; by rewrite length_insert|]. cbn [set_phase_of port_config_phase addressing_port].
  pose proof (lookupZ_lt _ _ _ Hp) as Hr. intros q ph1 Hq. destruct (decide (q = p)) as [->|Hne].
  - rewrite lookupZ_insert_eq in Hq by lia. injection Hq as <-. rewrite Ho. by apply Hx.
  - rewrite lookupZ_insert_ne in Hq by lia. by apply Hx.
Qed.

(** Taking a handler that returned apart. *)
Tactic Notation "run" hyp(H) "as" simple_intropattern(a) simple_intropattern(s) simple_intropattern(E) :=
  apply bind_inv in H as (a & s & E & H).

Section ports.
Context (hw : nat -> Z -> Z) (patience : nat) (max_ports : Z).

Lemma connected_range p s b s' : IsConnected hw max_ports p s = Some (b, s') -> 1 <= p <= max_ports.
Proof.
  intros H. run H as v s1 E. unfold read_PORTSC in E.
  destruct (Z.leb_spec 1 p), (Z.leb_spec p max_ports); done || lia.
Qed.

Lemma ResetPort_cases p s err s' :
  ResetPort hw patience max_ports p s = Some (err, s') ->
  1 <= p
  /\ ((ports s' = ports s
       /\ (err = kSuccess
           \/ exists ph, (port_config_phase s)$[p] = Some ph /\ ph <> kNotConnected /\ ph <> kWaitingAddressed))
      \/ (err = kSuccess /\ 0 <= p < Z.of_nat (length (port_config_phase s))
          /\ ports s' = (if addressing_port s =? 0
                         then (<[Z.to_nat p := kResettingPort]> (port_config_phase s), p)
                         else (<[Z.to_nat p := kWaitingAddressed]> (port_config_phase s), addressing_port s)))).
Proof.
  intros H. unfold ResetPort in H. run H as b s1 E. split; [apply connected_range in E; lia|].
  apply (quiet_Connected ports hw max_ports p) in E. destruct b; cbn [negb] in H; [|injection H as <- <-; left; auto].
  run H as a s2 E2. injection E2 as <- <-. injection E as E1 E2. rewrite E2 in H.
  destruct (Z.eqb_spec (addressing_port s) 0) as [Ea|Ea]; cbn [negb] in H.
  - run H as ph s3 E3. apply get_phase_inv in E3 as [-> E3]. rewrite E1 in E3.
    case_bool_decide as Hp1; case_bool_decide as Hp2; cbn [negb andb] in H;
      try (injection H as <- <-; left; split; [unfold ports; by rewrite E1, E2|right; by exists ph]);
      run H as u s4 E4; injection E4 as <- <-; run H as u s5 E5; apply put_phase_inv in E5 as [Hr ->];
      run H as u' s6 E6; injection H as <- <-; apply (quiet_Reset ports hw patience max_ports p) in E6; rewrite E6;
      right; (split; [done|]); cbn [set_addressing port_config_phase] in Hr; rewrite E1 in Hr; (split; [done|]);
      cbn; by rewrite E1.
  - run H as u s3 E3. apply put_phase_inv in E3 as [Hr ->]. injection H as <- <-. rewrite E1 in Hr. right.
    split; [done|]. split; [done|]. unfold ports; cbn. by rewrite E1, E2.
Qed.

Lemma reset_exclusive p s err s' ph :
  exclusive s -> (port_config_phase s)$[p] = Some ph -> on_the_way ph = false ->
  ResetPort hw patience max_ports p s = Some (err, s') -> exclusive s'.
Proof.
  intros Hx Hp Hph (Hp1 & [[Es _]|(_ & Hr & Es)])%ResetPort_cases; [by eapply exclusive_ports|].
  destruct (Z.eqb_spec (addressing_port s) 0) as [Ea|Ea]; injection Es as E1 E2.
  - pose proof Hx as [Hl Hx']. split; [rewrite E1; by rewrite length_insert|]. intros q ph1 Hq. rewrite E1 in Hq. rewrite E2.
    destruct (decide (q = p)) as [->|Hne].
    + rewrite lookupZ_insert_eq in Hq by lia. injection Hq as <-. cbn. split; [lia|done].
    + rewrite lookupZ_insert_ne in Hq by lia. rewrite (Hx' q ph1 Hq), Ea. lia.
  - apply (exclusive_ports (set_phase_of (<[Z.to_nat p := kWaitingAddressed]> (port_config_phase s)) s)).
    + unfold ports. by rewrite E1, E2.
    + by apply (put_phase_exclusive s p _ ph).
Qed.

Lemma reset_exclusive_but q p s err s' :
  exclusive_but q s -> (port_config_phase s)$[p] = Some kWaitingAddressed -> addressing_port s = 0 ->
  ResetPort hw patience max_ports p s = Some (err, s') -> err = kSuccess /\ exclusive_but q s'.
Proof.
  intros (Hl & Hq & Hne & Hx) Hp Ha (Hp1 & [[Es Her]|(-> & Hr & Es)])%ResetPort_cases.
  - split; [|by eapply exclusive_but_ports]. destruct Her as [|(ph & E & _ & Hn)]; [done|]. rewrite Hp in E. by injection E as <-.
  - split; [done|]. rewrite Ha in Es. cbn [Z.eqb] in Es. injection Es as E1 E2.
    assert (Hqp : q <> p) by (intros ->; rewrite Hp in Hq; done).
    unfold exclusive_but. rewrite E1, E2. split; [by rewrite length_insert|].
    split; [by rewrite lookupZ_insert_ne by lia|]. split; [done|]. intros r ph1 Hrq Hr1.
    destruct (decide (r = p)) as [->|Hrp].
    + rewrite lookupZ_insert_eq in Hr1 by lia. injection Hr1 as <-. cbn. split; [lia|done].
    + rewrite lookupZ_insert_ne in Hr1 by lia. rewrite (Hx r ph1 Hrq Hr1), Ha. lia.
Qed.

Lemma waiting_exclusive_but q n i s err s' :
  exclusive_but q s -> addressing_port s = 0 ->
  next_waiting hw patience max_ports n i s = Some (err, s') -> err = kSuccess /\ exclusive_but q s'.
Proof.
  revert i. induction n as [|n IH]; intros i Hx Ha H; [by injection H as <- <-|]. cbn [next_waiting] in H.
  run H as ph s1 E. apply get_phase_inv in E as [-> E]. case_bool_decide as Hw; [|by apply (IH (i + 1))].
  subst ph. by eapply reset_exclusive_but.
Qed.
End ports.

(** ** The handlers

    [hoare P m Q]: from a state in [P], [m] ends, when it does, in [Q]. *)
Definition hoare {A} (P : xhc -> Prop) (m : M A) (Q : A -> xhc -> Prop) : Prop :=
  forall s a s', P s -> m s = Some (a, s') -> Q a s'.

(** Port [p] is in a phase on the way to its address, or not, as [b] says. *)
Definition at_phase (p : Z) (b : bool) (s : xhc) : Prop :=
  exclusive s /\ exists ph, (port_config_phase s)$[p] = Some ph /\ on_the_way ph = b.

Lemma hoare_bind {A B} P (m : M A) Q (k : A -> M B) R :
  hoare P m Q -> (forall a, hoare (Q a) (k a) R) -> hoare P (m ≫= k) R.
Proof. intros Hm Hk s b s' Hs (a & s1 & E1 & E2)%bind_inv. by apply (Hk a s1 b s'), E2; eapply Hm. Qed.

Lemma hoare_ret {A} (P : xhc -> Prop) (a : A) : hoare P (mret a) (fun _ => P).
Proof. by intros s b s' Hs [= <- <-]. Qed.

Lemma hoare_post {A} P (m : M A) (Q Q' : A -> xhc -> Prop) :
  hoare P m Q -> (forall a s, Q a s -> Q' a s) -> hoare P m Q'.
Proof. intros Hm HQ s a s' Hs E. eapply HQ, Hm; eauto. Qed.

Lemma hoare_pre {A} (P P' : xhc -> Prop) (m : M A) Q : hoare P' m Q -> (forall s, P s -> P' s) -> hoare P m Q.
Proof. intros Hm HP s a s' Hs E. eapply Hm; eauto. Qed.

(** What depends on the ports only survives what does not touch them. *)
Lemma hoare_keeps {A} (P : xhc -> Prop) (m : M A) :
  (forall s s', ports s' = ports s -> P s -> P s') -> keeps ports m -> hoare P m (fun _ => P).
Proof. intros HP Hm s a s' Hs E. eapply HP; [|exact Hs]. by eapply Hm. Qed.

Lemma at_phase_ports p b s s' : ports s' = ports s -> at_phase p b s -> at_phase p b s'.
Proof. intros E [Hx Hp]. split; [by eapply exclusive_ports|]. injection E as -> _. done. Qed.

Lemma hoare_put_phase p b ph : on_the_way ph = b -> hoare (at_phase p b) (put_phase p ph) (fun _ => exclusive).
Proof.
  intros <- s a s' [Hx (ph0 & Hp & Ho)] [Hr ->]%put_phase_inv. by eapply put_phase_exclusive.
Qed.

Lemma hoare_get_phase (P : xhc -> Prop) p :
  hoare P (get_phase p) (fun ph s => P s /\ (port_config_phase s)$[p] = Some ph).
Proof. by intros s ph s' Hs [-> E]%get_phase_inv. Qed.

Lemma hoare_lift {A B} P (o : option A) (k : A -> M B) Q :
  (forall a, o = Some a -> hoare P (k a) Q) -> hoare P (lift o ≫= k) Q.
Proof. intros Hk s b s' Hs H. run H as a s1 E. destruct o as [a'|]; [|done]. injection E as <- <-. by eapply Hk. Qed.

Create HintDb hoare.
#[export] Hint Resolve exclusive_ports exclusive_but_ports at_phase_ports : hoare.

(** Step over an operation that leaves the ports alone, or over the write of a phase. *)
Ltac quietly := refine (hoare_bind _ _ _ _ _ _ _); [refine (hoare_keeps _ _ _ _); [by eauto with hoare|by eauto 20 with keeps]|intros ?; cbn beta].
Ltac writing := refine (hoare_bind _ _ _ _ _ _ _); [by refine (hoare_put_phase _ _ _ _)|intros ?; cbn beta].

Section handlers.
Context (hw : nat -> Z -> Z) (patience : nat) (max_ports : Z).
Context (memory_pool sizeof_Device ctx_offset input_offset buf_offset : Z).
Context (sizeof_keyboard sizeof_mouse hid_buf_offset keyboard_observer mouse_observer : Z).

Lemma EnableSlot_exclusive p : hoare (at_phase p true) (EnableSlot hw max_ports p) (fun _ => exclusive).
Proof.
  unfold EnableSlot. do 2 quietly. destruct (_ && _).
  - quietly. writing. quietly. refine (hoare_ret _ _).
  - refine (hoare_post _ _ _ _ _ _); [refine (hoare_ret _ _)|]. by intros ? s [].
Qed.

Lemma AddressDevice_exclusive p slot :
  hoare (at_phase p true) (AddressDevice hw max_ports memory_pool sizeof_Device ctx_offset input_offset buf_offset p slot)
    (fun _ => exclusive).
Proof.
  unfold AddressDevice. do 2 quietly. destruct a0 as [d|].
  - do 6 quietly. writing. quietly. refine (hoare_ret _ _).
  - refine (hoare_post _ _ _ _ _ _); [refine (hoare_ret _ _)|]. by intros ? s [].
Qed.

Lemma CompleteConfiguration_exclusive p slot :
  hoare (at_phase p false) (CompleteConfiguration p slot) (fun _ => exclusive).
Proof.
  unfold CompleteConfiguration. quietly. destruct a as [d|].
  - quietly. writing. refine (hoare_ret _ _).
  - refine (hoare_post _ _ _ _ _ _); [refine (hoare_ret _ _)|]. by intros ? s [].
Qed.

Lemma Find_inv slot s d s' : FindBySlot slot s = Some (d, s') -> s' = s.
Proof.
  intros H. unfold FindBySlot in H. run H as m s1 E. injection E as <- <-.
  destruct (_ <? _); [by injection H as <- <-|]. unfold lift in H. destruct (_$[slot]); [by injection H as <- <-|done].
Qed.

(** The devices are found by the table of the manager alone. *)
Lemma Find_devices slot s s' d : devmgr_ s' = devmgr_ s -> FindBySlot slot s = Some (d, s) -> FindBySlot slot s' = Some (d, s').
Proof.
  unfold FindBySlot, mbind, M_bind, gets, lift, mret, M_ret. intros ->.
  destruct (_ <? _); [by intros [= <-]|]. destruct (_$[slot]); [by intros [= <-]|done].
Qed.

Lemma ConfigureEndpoints_exclusive slot :
  hoare (fun s => exclusive s /\ forall d, FindBySlot slot s = Some (Some d, s) -> at_phase (root_hub_port_num (xd_ctx d)) false s)
    (ConfigureEndpoints hw max_ports memory_pool input_offset slot) (fun _ => exclusive).
Proof.
  unfold ConfigureEndpoints.
  refine (hoare_bind _ _ (fun d s => from_option (fun d => at_phase (root_hub_port_num (xd_ctx d)) false s) (exclusive s) d) _ _ _ _).
  { intros s d s' [Hx Hd] E. pose proof (Find_inv _ _ _ _ E) as ->. destruct d as [d|]; [by apply Hd|done]. }
  intros o. refine (hoare_lift _ _ _ _ _). intros d ->. cbn [from_option].
  do 2 quietly. destruct (_ || _).
  - refine (hoare_post _ _ _ _ _ _); [refine (hoare_ret _ _)|]. by intros ? s [].
  - quietly. writing. quietly. refine (hoare_ret _ _).
Qed.

Lemma InitializeDevice_exclusive p slot d s err s' :
  exclusive_but p s -> FindBySlot slot s = Some (Some d, s) -> InitializeDevice p slot s = Some (err, s') -> exclusive s'.
Proof.
  intros (Hl & Hp & Hne & Hx) Hd H. unfold InitializeDevice in H. run H as d' s1 E. rewrite Hd in E. injection E as <- <-.
  run H as u s1 E. apply put_phase_inv in E as [Hr ->]. run H as c s2 E. apply (quiet_on_device ports) in E.
  injection H as <- <-. eapply exclusive_ports; [exact E|].
  split; [cbn; by rewrite length_insert|]. cbn [set_phase_of port_config_phase addressing_port]. intros q ph Hq.
  destruct (decide (q = p)) as [->|Hqp].
  - rewrite lookupZ_insert_eq in Hq by lia. injection Hq as <-. cbn. split; [done|]. by intros [-> _].
  - rewrite lookupZ_insert_ne in Hq by lia. by apply Hx.
Qed.

Lemma OnPortStatusChange_exclusive trb :
  hoare exclusive (OnPortStatusChange hw patience max_ports trb) (fun _ => exclusive).
Proof.
  unfold OnPortStatusChange. refine (hoare_bind _ _ _ _ _ (hoare_get_phase _ _) _).
  intros [] s err s' [Hx Hp] H; try by injection H as <- <-.
  - by eapply reset_exclusive.
  - eapply EnableSlot_exclusive; [|exact H]. split; [done|]. by eexists.
Qed.

Lemma ConfigurePort_exclusive p : hoare exclusive (ConfigurePort hw patience max_ports p) (fun _ => exclusive).
Proof.
  unfold ConfigurePort. refine (hoare_bind _ _ _ _ _ (hoare_get_phase _ _) _).
  intros ph s err s' [Hx Hp] H. case_bool_decide as E; [subst ph|by injection H as <- <-]. by eapply reset_exclusive.
Qed.

Lemma OnTransfer_exclusive trb :
  hoare exclusive (OnTransfer hw max_ports memory_pool input_offset sizeof_keyboard sizeof_mouse hid_buf_offset
                     keyboard_observer mouse_observer trb) (fun _ => exclusive).
Proof.
  unfold OnTransfer. quietly. destruct a as [d0|]; [|refine (hoare_ret _ _)]. quietly.
  destruct (is_error a); [refine (hoare_ret _ _)|].
  intros s err s' Hx H. run H as d1 s1 E1. pose proof (Find_inv _ _ _ _ E1) as ->. run H as d s1 E.
  destruct d1 as [d1|]; [|done]. injection E as <- <-. destruct (is_initialized_ _); [|by injection H as <- <-].
  run H as ph s1 E2. apply get_phase_inv in E2 as [-> E2]. case_bool_decide as Hph; [|by injection H as <- <-]. subst ph.
  eapply ConfigureEndpoints_exclusive; [|exact H]. split; [done|]. intros d Hd. rewrite E1 in Hd. injection Hd as <-.
  split; [done|]. by eexists.
Qed.

(** The port whose address command completed leaves the protected phases, and another
    one may enter them. *)
Lemma hand_over p s :
  exclusive s -> p = addressing_port s -> (port_config_phase s)$[p] = Some kAddressingDevice ->
  exclusive_but p (set_addressing 0 s).
Proof.
  intros [Hl Hx] -> Hp. destruct (Hx _ _ Hp) as [Hw _]. destruct (Hw eq_refl) as [_ Ha].
  split; [done|]. cbn [set_addressing port_config_phase addressing_port]. split; [done|]. split; [done|].
  intros q ph Hq Hph. rewrite (Hx q ph Hph). lia.
Qed.

Lemma addressed_exclusive p slot d :
  hoare (fun s => exclusive_but p s /\ addressing_port s = 0 /\ FindBySlot slot s = Some (Some d, s))
    (err ← next_waiting hw patience max_ports 256 0; if is_error err then mret err else InitializeDevice p slot)
    (fun _ => exclusive).
Proof.
  intros s err s' (Hx & Ha & Hd) H. run H as err1 s1 E. pose proof (next_waiting_devices _ _ _ _ _ _ _ _ E) as Hm.
  apply waiting_exclusive_but with (q := p) in E as [-> Hx1]; [|done..]. cbn in H.
  eapply InitializeDevice_exclusive; [exact Hx1| |exact H]. by apply (Find_devices slot s).
Qed.

Lemma OnCommandCompletion_exclusive trb :
  hoare exclusive (OnCommandCompletion hw patience max_ports memory_pool sizeof_Device ctx_offset input_offset buf_offset trb)
    (fun _ => exclusive).
Proof.
  unfold OnCommandCompletion. do 2 quietly. destruct (_ =? _).
  { intros s err s' Hx H. run H as p s1 E1. injection E1 as <- <-. run H as ph s1 E1. apply get_phase_inv in E1 as [-> E1].
    case_bool_decide as Hph; [by injection H as <- <-|]. eapply AddressDevice_exclusive; [|exact H]. split; [done|].
    subst ph. by eexists. }
  destruct (_ =? _).
  { intros s err s' Hx H. run H as d s1 E1. pose proof (Find_inv _ _ _ _ E1) as ->. destruct d as [d|]; [|by injection H as <- <-].
    run H as p s1 E2. injection E2 as <- <-.
    destruct (Z.eqb_spec (root_hub_port_num (xd_ctx d)) (addressing_port s)) as [Ep|]; cbn [negb] in H; [|by injection H as <- <-].
    run H as ph s1 E2. apply get_phase_inv in E2 as [-> E2]. case_bool_decide as Hph; [by injection H as <- <-|].
    run H as u s1 E3. injection E3 as <- <-. eapply addressed_exclusive; [|exact H].
    split; [apply hand_over; [done..|]; by subst ph|]. split; [done|].
    by apply (Find_devices _ s). }
  destruct (_ =? _); [|refine (hoare_ret _ _)].
  intros s err s' Hx H. run H as d s1 E1. pose proof (Find_inv _ _ _ _ E1) as ->. destruct d as [d|]; [|by injection H as <- <-].
  run H as ph s1 E2. apply get_phase_inv in E2 as [-> E2]. case_bool_decide as Hph; [by injection H as <- <-|].
  eapply CompleteConfiguration_exclusive; [|exact H]. split; [done|].
  subst ph. by eexists.
Qed.

Lemma ProcessEvent_exclusive :
  hoare exclusive (ProcessEvent hw patience max_ports memory_pool sizeof_Device ctx_offset input_offset buf_offset
                     sizeof_keyboard sizeof_mouse hid_buf_offset keyboard_observer mouse_observer) (fun _ => exclusive).
Proof.
  unfold ProcessEvent. do 2 quietly. destruct (negb _); [refine (hoare_ret _ _)|]. quietly.
  refine (hoare_bind _ _ (fun _ => exclusive) _ _ _ _).
  - repeat case_match;
      [apply OnTransfer_exclusive|apply OnPortStatusChange_exclusive|apply OnCommandCompletion_exclusive|apply hoare_ret].
  - intros err. do 2 quietly. refine (hoare_ret _ _).
Qed.

(** ** Every reachable state

    The driver starts with no port connected; then ports are configured and events
    processed in any order, and the hardware and the rest of the system change
    whatever is not the driver's record of the ports. *)
Inductive reachable : xhc -> Prop :=
| reach_start s :
    port_config_phase s = replicate 256 kNotConnected -> addressing_port s = 0 -> reachable s
| reach_other s s' : reachable s -> ports s' = ports s -> reachable s'
| reach_configure s p err s' :
    reachable s -> ConfigurePort hw patience max_ports p s = Some (err, s') -> reachable s'
| reach_event s err s' :
    reachable s ->
    ProcessEvent hw patience max_ports memory_pool sizeof_Device ctx_offset input_offset buf_offset
      sizeof_keyboard sizeof_mouse hid_buf_offset keyboard_observer mouse_observer s = Some (err, s') ->
    reachable s'.

Lemma reachable_exclusive s : reachable s -> exclusive s.
Proof.
  induction 1 as [s Hp Ha|s s' _ IH E|s p err s' _ IH E|s err s' _ IH E].
  - unfold exclusive. rewrite Hp, Ha. split; [done|]. intros p ph Hph. apply lookupZ_Some in Hph as [_ Hph].
    apply lookup_replicate in Hph as [-> _]. cbn. split; [done|]. by intros [_ ?].
  - by apply (exclusive_ports s).
  - by apply (ConfigurePort_exclusive p s err).
  - by apply (ProcessEvent_exclusive s err).
Qed.

(** C18. Whatever the events are and in whatever order they come, whatever the port
    registers read as: at most one port is being given an address at a time, and it is
    the one the driver has noted as [addressing_port]. *)
Theorem addressing_exclusive s p q php phq :
  reachable s ->
  (port_config_phase s)$[p] = Some php -> (port_config_phase s)$[q] = Some phq ->
  on_the_way php = true -> on_the_way phq = true ->
  p = q /\ p = addressing_port s.
Proof.
  intros [_ Hx]%reachable_exclusive Hp Hq Hop Hoq.
  apply (Hx p php Hp) in Hop. apply (Hx q phq Hq) in Hoq. split; [|tauto]. destruct Hop, Hoq. congruence.
Qed.
End handlers.

(** A controller at rest with slots for 8 devices. *)
Definition xhc_start : xhc :=
  mkXhc (replicate 256 kNotConnected) 0 (mkRing 0x1000 (replicate 4 TRB_zero) 4 true 0)
    (mkERing 0x2000 [] 0 0 0 0 true (mkIR 0 0 0)) (mkMgr (replicate 9 None) (replicate 9 0) 8) 0x3000 [] [] [] 0.

Lemma addressing_exclusive_witness :
  exists s, ConfigurePort (fun _ _ => 1) 1 4 2 xhc_start = Some (kSuccess, s)
    /\ (port_config_phase s)$[2] = Some kResettingPort /\ (2 = 2 /\ 2 = addressing_port s).
Proof.
  eexists. split; [vm_compute; reflexivity|]. split; [reflexivity|].
  apply (addressing_exclusive (fun _ _ => 1) 1 4 0 0 0 0 0 0 0 0 0 0 _ 2 2 kResettingPort kResettingPort);
    [|reflexivity..].
  apply (reach_configure _ _ _ _ _ _ _ _ _ _ _ _ _ xhc_start 2 kSuccess); [|reflexivity].
  apply reach_start; reflexivity.
Defined.
