(* ===== verification/XhciProgress.v ===== *)
(** * How the controller driver brings a port up

    What each step on the way from a connected port to its first request leaves in
    memory and on the command ring. *)
From Stdlib Require Import ZArith Lia.
From stdpp Require Import base option list gmap numbers.
From S2P Require Import Prelude Error Bits UsbMemory ArrayMap Ring Usb UsbSpec UsbProtocol Trb XhciDevice Xhci XhciSpec.

Set Default Proof Using "Type".

(** ** Devices in their slots *)
Definition slot_ok (slot : Z) (s : xhc) : Prop :=
  let m := devmgr_ s in
  1 <= slot <= max_slots_ m /\ Z.of_nat (length (devices_ m)) = max_slots_ m + 1
  /\ Z.of_nat (length (device_context_pointers_ m)) = max_slots_ m + 1.

Definition holds (slot : Z) (d : xdevice) (s : xhc) : Prop :=
  slot_ok slot s /\ (devices_ (devmgr_ s))$[slot] = Some (Some d).

(** All that work on the device of a slot leaves as it is. *)
Definition rest (s : xhc) :=
  (ports s, cr_ s, er_ s, device_context_pointers_ (devmgr_ s), command_bells s, port_writes s).

Lemma Find_holds slot d s : holds slot d s -> FindBySlot slot s = Some (Some d, s).
Proof.
  intros [(Hs & _) E]. unfold FindBySlot, mbind, M_bind, gets, lift.
  destruct (Z.ltb_spec (max_slots_ (devmgr_ s)) slot); [lia|]. by rewrite E.
Qed.

Lemma put_holds slot d s :
  slot_ok slot s -> exists s', put_device slot d s = Some (tt, s') /\ holds slot d s' /\ rest s' = rest s
                               /\ pool_ptr s' = pool_ptr s /\ told s' = told s /\ port_reads s' = port_reads s.
Proof.
  intros (Hs & Hd & Hc). unfold put_device, mbind, M_bind, gets, lift, puts. rewrite updateZ_in by lia.
  eexists. split; [reflexivity|]. split; [|done]. split; cbn.
  - unfold slot_ok; cbn. rewrite length_insert. lia.
  - by rewrite lookupZ_insert_eq by lia.
Qed.

Lemma update_holds slot d f ic s :
  holds slot d s -> f (xd_input d) = Some ic ->
  exists s', update_input slot f s = Some (tt, s') /\ holds slot (mkXD (xd_addr d) (xd_usb d) (xd_ctx d) ic) s'
             /\ rest s' = rest s /\ pool_ptr s' = pool_ptr s /\ port_reads s' = port_reads s.
Proof.
  intros H Hf. destruct (put_holds slot (mkXD (xd_addr d) (xd_usb d) (xd_ctx d) ic) s) as (s' & E & Hh & Hr & Hp & _ & Hn);
    [apply H|].
  exists s'. split_and!; try done. unfold update_input, mbind, M_bind. rewrite (Find_holds _ _ _ H). cbn. by rewrite Hf.
Qed.

Section steps.
Context (hw : nat -> Z -> Z) (patience : nat) (max_ports : Z).
Context (memory_pool sizeof_Device ctx_offset input_offset buf_offset : Z).

Lemma ring_holds slot d dci tr x ptr s :
  holds slot d s -> AllocTransferRing memory_pool (pool_ptr s) (u_xfer (xd_usb d)) dci 32 = Some (Some tr, x, ptr) ->
  exists s', alloc_ring memory_pool slot dci s = Some (match tr with Some r => buf_ r | None => 0 end, s')
             /\ holds slot (mkXD (xd_addr d) (set_xfer (xd_usb d) x) (xd_ctx d) (xd_input d)) s' /\ rest s' = rest s
             /\ port_reads s' = port_reads s.
Proof.
  intros H E.
  destruct (put_holds slot (mkXD (xd_addr d) (set_xfer (xd_usb d) x) (xd_ctx d) (xd_input d)) (set_pool ptr s))
    as (s' & E' & Hh & Hr & _ & _ & Hn); [apply H|].
  exists s'. split_and!; try done. unfold alloc_ring, mbind, M_bind. rewrite (Find_holds _ _ _ H).
  cbn -[put_device set_pool]. rewrite E. cbn -[put_device set_pool]. by rewrite E'.
Qed.

Lemma AllocDevice_holds slot addr ptr s :
  slot_ok slot s -> (devices_ (devmgr_ s))$[slot] = Some None ->
  AllocMem memory_pool (pool_ptr s) sizeof_Device 64 4096 = (addr, ptr) -> addr <> 0 ->
  exists s', AllocDevice memory_pool sizeof_Device buf_offset slot s = Some (kSuccess, s')
             /\ holds slot (new_device buf_offset slot addr) s' /\ rest s' = rest s /\ pool_ptr s' = ptr
             /\ port_reads s' = port_reads s.
Proof.
  intros Hs Hd E Ha. destruct (put_holds slot (new_device buf_offset slot addr) (set_pool ptr s))
    as (s' & E' & Hh & Hr & Hp & _ & Hn); [apply Hs|].
  exists s'. split_and!; try done. unfold AllocDevice, mbind, M_bind, gets, lift.
  destruct (Z.ltb_spec (max_slots_ (devmgr_ s)) slot); [destruct Hs; lia|]. rewrite Hd, E.
  destruct (Z.eqb_spec addr 0); [done|]. cbn. by rewrite E'.
Qed.

Lemma LoadDCBAA_holds slot d s :
  holds slot d s ->
  exists s', LoadDCBAA ctx_offset slot s = Some (kSuccess, s') /\ holds slot d s'
    /\ (device_context_pointers_ (devmgr_ s'))$[slot] = Some (xd_addr d + ctx_offset)
    /\ (ports s', cr_ s', command_bells s', port_writes s') = (ports s, cr_ s, command_bells s, port_writes s).
Proof.
  intros [(Hs & Hl & Hc) Hd]. unfold LoadDCBAA, mbind, M_bind, gets, lift, puts.
  destruct (Z.ltb_spec (max_slots_ (devmgr_ s)) slot); [lia|]. rewrite Hd, updateZ_in by lia.
  eexists. split; [reflexivity|]. split; [split; [|exact Hd]|split].
  - unfold slot_ok; cbn. rewrite length_insert. lia.
  - cbn. by rewrite lookupZ_insert_eq by lia.
  - done.
Qed.

(** A slot that was removed can be used again. *)
Lemma Remove_frees slot d s :
  holds slot d s ->
  exists s', Remove slot s = Some (kSuccess, s') /\ slot_ok slot s' /\ (devices_ (devmgr_ s'))$[slot] = Some None
    /\ (device_context_pointers_ (devmgr_ s'))$[slot] = Some 0.
Proof.
  intros [(Hs & Hl & Hc) Hd]. unfold Remove, mbind, M_bind, gets, lift, puts. rewrite !updateZ_in by lia.
  eexists. split; [reflexivity|]. unfold slot_ok. cbn. rewrite !length_insert, !lookupZ_insert_eq by lia. done.
Qed.

(** ** The address command *)

(** What the controller reads of the input context: which contexts are there, the port
    and its speed, and the default control pipe with its ring. *)
Record addresses (p speed : Z) (r : Ring) (ic : InputContext) : Prop := {
  addr_flags : (drop_context_flags ic, add_context_flags ic) = (0, 3);
  addr_port : root_hub_port_num (in_slot_context ic) = p;
  addr_speed : slot_speed (in_slot_context ic) = speed;
  addr_entries : get_field 27 5 (default 0 (in_slot_context ic !! 0%nat)) = 1;
  addr_ep0 : exists c, in_ep_contexts ic !! 0%nat = Some c
    /\ get_field 3 3 (epc_1 c) = 4 /\ get_field 1 2 (epc_1 c) = 3
    /\ get_field 16 16 (epc_1 c) = DetermineMaxPacketSizeForControlPipe speed
    /\ get_bit 0 (epc_2 c) = true /\ 16 * get_field 4 60 (epc_2 c) = buf_ r
}.

Lemma packet_size_range speed : 0 <= DetermineMaxPacketSizeForControlPipe speed < 2 ^ 16.
Proof. unfold DetermineMaxPacketSizeForControlPipe. repeat case_match; lia. Qed.

Lemma EP0_fields buffer mps :
  0 <= buffer < 2 ^ 64 -> (16 | buffer) -> 0 <= mps < 2 ^ 16 ->
  let c := InitializeEP0Context buffer mps (mkEPC 0 0 0 0) in
  get_field 3 3 (epc_1 c) = 4 /\ get_field 1 2 (epc_1 c) = 3 /\ get_field 16 16 (epc_1 c) = mps
  /\ get_bit 0 (epc_2 c) = true /\ 16 * get_field 4 60 (epc_2 c) = buffer.
Proof.
  intros Hb [k Hk] Hm. unfold InitializeEP0Context. cbn [epc_1 epc_2]. split_and!.
  - rewrite !get_set_other by lia. by rewrite get_set_same by lia.
  - by rewrite get_set_same by lia.
  - rewrite !get_set_other by lia. by rewrite get_set_same by lia.
  - by rewrite get_set_bit by lia.
  - unfold set_bit. rewrite get_set_other by lia. rewrite Z.shiftr_div_pow2 by lia. change (2 ^ 4) with 16.
    rewrite get_set_same by (subst buffer; rewrite ?Z.div_mul by lia; lia). subst buffer. rewrite Z.div_mul by lia. lia.
Qed.

Lemma input_addresses p speed r ic :
  0 <= p < 256 -> 0 <= speed < 16 -> 0 <= buf_ r < 2 ^ 64 -> (16 | buf_ r) ->
  (let ic1 := set_slot_context (EnableEndpoint (EnableSlotContext (clear_control
                (mkIn 0 0 (replicate 8 0) (replicate 31 (mkEPC 0 0 0 0))))) 1)
                (InitializeSlotContext p speed (replicate 8 0)) in
   update_ep ic1 1 (InitializeEP0Context (buf_ r) (DetermineMaxPacketSizeForControlPipe (slot_speed (in_slot_context ic1)))))
  = Some ic ->
  addresses p speed r ic.
Proof.
  intros Hp Hs Hb Ha. cbn -[InitializeEP0Context DetermineMaxPacketSizeForControlPipe set_field slot_speed].
  intros [= <-].
  assert (Hsp : slot_speed [set_field 20 4 speed (set_field 27 5 1 (set_field 0 20 0 0)); set_field 16 8 p 0; 0; 0; 0; 0; 0; 0] = speed)
    by (unfold slot_speed; cbn -[set_field]; by rewrite get_set_same by lia).
  constructor; cbn -[InitializeEP0Context DetermineMaxPacketSizeForControlPipe set_field slot_speed].
  - reflexivity.
  - unfold root_hub_port_num. cbn -[set_field]. by rewrite get_set_same by lia.
  - exact Hsp.
  - rewrite get_set_other by lia. by rewrite get_set_same by lia.
  - rewrite Hsp. eexists. split; [reflexivity|]. apply EP0_fields; [done..|apply packet_size_range].
Qed.

Lemma bind_run {A B} (m : M A) (k : A -> M B) s a s1 : m s = Some (a, s1) -> (m ≫= k) s = k a s1.
Proof. unfold mbind, M_bind. by intros ->. Qed.

(** A ring of commands that has a place for one more. *)
Definition open_ring (r : Ring) : Prop :=
  0 <= write_index_ r < buf_size_ r - 1 /\ Z.of_nat (length (ring_mem r)) = buf_size_ r /\ buf_size_ r < 2 ^ 32.

Lemma push_command_run cmd s :
  open_ring (cr_ s) -> push_command cmd s = Some (tt, add_bell 0 (set_cr (pushed (cr_ s) cmd) s)).
Proof.
  intros (H1 & H2 & H3). unfold push_command, mbind, M_bind, gets, lift, puts. by rewrite Push_wf by done.
Qed.

Lemma put_phase_run p ph s :
  0 <= p < Z.of_nat (length (port_config_phase s)) ->
  put_phase p ph s = Some (tt, set_phase_of (<[Z.to_nat p := ph]> (port_config_phase s)) s).
Proof. intros Hp. unfold put_phase, mbind, M_bind, gets, lift, puts. by rewrite updateZ_in by done. Qed.

Lemma Speed_run p s :
  1 <= p <= max_ports -> Speed hw max_ports p s = Some (get_field 10 4 (hw (port_reads s) p), count_read s).
Proof.
  intros Hp. unfold Speed, mbind, M_bind, read_PORTSC.
  destruct (Z.leb_spec 1 p), (Z.leb_spec p max_ports); [done|lia..].
Qed.

Lemma AllocTransferRing_run ptr x dci a ptr1 r ptr2 :
  AllocMem memory_pool ptr sizeof_Ring 64 4096 = (a, ptr1) -> a <> 0 ->
  Initialize memory_pool ptr1 32 = (kSuccess, Some r, ptr2) ->
  1 <= dci <= Z.of_nat (length (transfer_rings_ x)) ->
  AllocTransferRing memory_pool ptr x dci 32
  = Some (Some (Some r), mkX (x_slot_id x) (<[Z.to_nat (dci - 1) := Some (Some r)]> (transfer_rings_ x))
                           (setup_stage_map_ x) (bells x), ptr2).
Proof.
  intros E1 Ha E2 Hd. unfold AllocTransferRing, set_ring. rewrite E1. destruct (Z.eqb_spec a 0); [done|]. rewrite E2.
  by rewrite updateZ_in by lia.
Qed.

(** When a slot was given to the port being addressed, the driver makes a device for
    it, prepares its input context - the port and its speed, the packet size of the
    default control pipe for that speed, a fresh ring for it - gives the controller the
    place of the device context, and puts the address command, with the input context
    and the slot, on the command ring and rings its doorbell. *)
Theorem address_command_prepared p slot s addr ptr1 ring_addr ptr2 r ptr3 :
  1 <= p <= max_ports -> max_ports < 256 -> length (port_config_phase s) = 256%nat ->
  slot_ok slot s -> (devices_ (devmgr_ s))$[slot] = Some None -> open_ring (cr_ s) ->
  AllocMem memory_pool (pool_ptr s) sizeof_Device 64 4096 = (addr, ptr1) -> addr <> 0 ->
  AllocMem memory_pool ptr1 sizeof_Ring 64 4096 = (ring_addr, ptr2) -> ring_addr <> 0 ->
  Initialize memory_pool ptr2 32 = (kSuccess, Some r, ptr3) -> 0 <= buf_ r < 2 ^ 64 -> (16 | buf_ r) ->
  exists s' d,
    AddressDevice hw max_ports memory_pool sizeof_Device ctx_offset input_offset buf_offset p slot s = Some (kSuccess, s')
    /\ holds slot d s' /\ xd_addr d = addr
    /\ addresses p (get_field 10 4 (hw (port_reads s) p)) r (xd_input d)
    /\ transfer_rings_ (u_xfer (xd_usb d)) !! 0%nat = Some (Some (Some r))
    /\ (device_context_pointers_ (devmgr_ s'))$[slot] = Some (addr + ctx_offset)
    /\ port_config_phase s' = <[Z.to_nat p := kAddressingDevice]> (port_config_phase s)
    /\ cr_ s' = pushed (cr_ s) (AddressDeviceCommandTRB (addr + input_offset) slot)
    /\ command_bells s' = command_bells s ++ [0].
Proof.
  intros Hp Hmax Hl Hs Hd Hcr E1 Ha E2 Hra E3 Hb Hal.
  destruct (AllocDevice_holds slot addr ptr1 s) as (s1 & R1 & H1 & Hr1 & Hp1 & Hn1); [done..|].
  pose proof (Find_holds _ _ _ H1) as F1.
  destruct (update_holds slot _ (fun ic => Some (EnableEndpoint (EnableSlotContext (clear_control ic)) (DeviceContextIndex 0 false))) _ s1 H1 eq_refl)
    as (s2 & R2 & H2 & Hr2 & Hp2 & Hn2).
  pose proof (Speed_run p s2 Hp) as R3. rewrite Hn2, Hn1 in R3. set (speed := get_field 10 4 (hw (port_reads s) p)) in *.
  destruct (update_holds slot _ (fun ic => Some (set_slot_context ic (InitializeSlotContext p speed (in_slot_context ic)))) _
    (count_read s2) H2 eq_refl) as (s4 & R4 & H4 & Hr4 & Hp4 & _).
  assert (Hptr : pool_ptr s4 = ptr1) by (rewrite Hp4; exact (eq_trans Hp2 Hp1)).
  pose proof (AllocTransferRing_run ptr1 (mkX slot (replicate 31 None) (replicate 16 (None, 0)) []) 1 ring_addr ptr2 r ptr3 E2 Hra E3
    ltac:(cbn; lia)) as ER. rewrite <- Hptr in ER.
  destruct (ring_holds slot _ (DeviceContextIndex 0 false) (Some r) _ ptr3 s4 H4 ER) as (s5 & R5 & H5 & Hr5 & _).
  destruct (update_holds slot _ (fun ic => update_ep ic (DeviceContextIndex 0 false)
      (InitializeEP0Context (buf_ r) (DetermineMaxPacketSizeForControlPipe (slot_speed (in_slot_context ic))))) _ s5 H5 eq_refl)
    as (s6 & R6 & H6 & Hr6 & _).
  destruct (LoadDCBAA_holds slot _ s6 H6) as (s7 & R7 & H7 & Hc7 & Hr7).
  assert (Hr : rest s6 = rest s).
  { rewrite Hr6, Hr5, Hr4. change (rest (count_read s2)) with (rest s2). by rewrite Hr2, Hr1. }
  injection Hr as Hph Had Hcr' _ _ Hbl _. injection Hr7 as Hph7 Had7 Hcr7 Hbl7 _.
  rewrite Hph in Hph7. rewrite Hcr' in Hcr7. rewrite Hbl in Hbl7.
  eexists _, _. split; [|split; [|split]].
  - unfold AddressDevice. rewrite (bind_run _ _ _ _ _ R1), (bind_run _ _ _ _ _ F1), (bind_run _ _ _ _ _ R2),
      (bind_run _ _ _ _ _ R3), (bind_run _ _ _ _ _ R4), (bind_run _ _ _ _ _ R5), (bind_run _ _ _ _ _ R6),
      (bind_run _ _ _ _ _ R7).
    erewrite bind_run by (apply put_phase_run; rewrite Hph7, Hl; lia).
    erewrite bind_run by (apply push_command_run; cbn; by rewrite Hcr7). reflexivity.
  - exact H7.
  - reflexivity.
  - split_and!.
    + apply input_addresses; [lia|apply (get_field_range 10 4); lia|done|done|reflexivity].
    + reflexivity.
    + exact Hc7.
    + cbn. by rewrite Hph7.
    + cbn. by rewrite Hcr7.
    + cbn. by rewrite Hbl7.
Qed.
End steps.

(** ** The next port *)

(** All but the count of the reads. *)
Definition unread (s : xhc) : xhc :=
  mkXhc (port_config_phase s) (addressing_port s) (cr_ s) (er_ s) (devmgr_ s) (pool_ptr s) (told s) (command_bells s)
    (port_writes s) 0.

Lemma holds_unread slot d s s' : unread s' = unread s -> holds slot d s -> holds slot d s'.
Proof. intros E. unfold holds, slot_ok. injection E as _ _ _ _ -> _ _ _ _. done. Qed.

Lemma get_phase_run p ph s : (port_config_phase s)$[p] = Some ph -> get_phase p s = Some (ph, s).
Proof. intros E. unfold get_phase, mbind, M_bind, gets, lift. by rewrite E. Qed.

Section turn.
Context (hw : nat -> Z -> Z) (patience : nat) (max_ports : Z).

Lemma read_run p s :
  1 <= p <= max_ports -> read_PORTSC hw max_ports p s = Some (hw (port_reads s) p, count_read s).
Proof. intros Hp. unfold read_PORTSC. destruct (Z.leb_spec 1 p), (Z.leb_spec p max_ports); [done|lia..]. Qed.

Lemma write_run p v s : 1 <= p <= max_ports -> write_PORTSC max_ports p v s = Some (tt, add_port_write p v s).
Proof. intros Hp. unfold write_PORTSC. destruct (Z.leb_spec 1 p), (Z.leb_spec p max_ports); [done|lia..]. Qed.

(** Polling ends when the bit is seen clear within the bound. *)
Lemma wait_reset_ends fuel p s :
  1 <= p <= max_ports -> (exists k, (k < fuel)%nat /\ get_bit 4 (hw (port_reads s + k)%nat p) = false) ->
  exists s', wait_reset hw max_ports fuel p s = Some (tt, s') /\ unread s' = unread s.
Proof.
  intros Hp. revert s. induction fuel as [|fuel IH]; intros s (k & Hk & Hb); [lia|]. cbn [wait_reset].
  rewrite (bind_run _ _ _ _ _ (read_run p s Hp)). destruct (get_bit 4 (hw (port_reads s) p)) eqn:E; [|by eexists].
  destruct k as [|k]; [rewrite Nat.add_0_r in Hb; congruence|].
  destruct (IH (count_read s)) as (s' & E' & Hu); [|by exists s'].
  exists k. split; [lia|]. cbn [count_read port_reads]. by rewrite Nat.add_succ_comm.
Qed.

Lemma ResetPort_takes q s :
  1 <= q <= max_ports -> max_ports < 256 -> length (port_config_phase s) = 256%nat -> addressing_port s = 0 ->
  (port_config_phase s)$[q] = Some kWaitingAddressed \/ (port_config_phase s)$[q] = Some kNotConnected ->
  get_bit 0 (hw (port_reads s) q) = true ->
  (exists k, (k < patience)%nat /\ get_bit 4 (hw (port_reads s + 2 + k)%nat q) = false) ->
  exists s' v, ResetPort hw patience max_ports q s = Some (kSuccess, s') /\ get_bit 4 v = true
    /\ unread s' = unread (add_port_write q v
         (set_phase_of (<[Z.to_nat q := kResettingPort]> (port_config_phase s)) (set_addressing q s))).
Proof.
  intros Hq Hmax Hl Ha Hph Hc (k & Hk & Hb). unfold ResetPort, IsConnected.
  rewrite (bind_run _ _ _ true (count_read s)) by (rewrite (bind_run _ _ _ _ _ (read_run q s Hq)); by rewrite Hc).
  cbn [negb]. rewrite (bind_run _ _ _ _ _ (eq_refl : gets addressing_port (count_read s) = Some (addressing_port s, count_read s))).
  rewrite Ha. cbn [negb Z.eqb].
  assert (exists ph, (port_config_phase s)$[q] = Some ph
    /\ negb (bool_decide (ph = kNotConnected)) && negb (bool_decide (ph = kWaitingAddressed)) = false) as (ph & Eph & Enb).
  { destruct Hph; eexists; by split. }
  rewrite (bind_run _ _ _ _ _ (get_phase_run q ph (count_read s) Eph)), Enb.
  rewrite (bind_run _ _ _ _ _ (eq_refl : puts (set_addressing q) (count_read s) = Some (tt, set_addressing q (count_read s)))).
  erewrite bind_run by (apply put_phase_run; cbn; lia).
  set (s1 := set_phase_of _ _).
  set (v := Z.lor (Z.land (hw (S (port_reads s)) q) 0x0e00c3e0) 0x00020010).
  destruct (wait_reset_ends patience q (add_port_write q v (count_read s1)) Hq) as (s' & E & Hu).
  { exists k. split; [done|]. cbn. by replace (S (S (port_reads s + k))) with (port_reads s + 2 + k)%nat by lia. }
  exists s', v. split; [|split].
  - erewrite bind_run; [reflexivity|]. unfold Port_Reset. rewrite (bind_run _ _ _ _ _ (read_run q s1 Hq)).
    rewrite (bind_run _ _ _ _ _ (write_run q _ (count_read s1) Hq)). exact E.
  - unfold get_bit, v. rewrite Z.lor_spec. apply orb_true_r.
  - rewrite Hu. done.
Qed.

Lemma next_waiting_first n i q s :
  i <= q < i + Z.of_nat n -> (port_config_phase s)$[q] = Some kWaitingAddressed ->
  (forall j, i <= j < q -> exists ph, (port_config_phase s)$[j] = Some ph /\ ph <> kWaitingAddressed) ->
  next_waiting hw patience max_ports n i s = ResetPort hw patience max_ports q s.
Proof.
  revert i. induction n as [|n IH]; intros i Hi Hq Hb; [lia|]. cbn [next_waiting]. destruct (decide (i = q)) as [->|Hne].
  - rewrite (bind_run _ _ _ _ _ (get_phase_run _ _ _ Hq)). done.
  - destruct (Hb i) as (ph & E & Hph); [lia|]. rewrite (bind_run _ _ _ _ _ (get_phase_run _ _ _ E)).
    rewrite bool_decide_eq_false_2 by done. apply IH; [lia|done|]. intros j Hj. apply Hb. lia.
Qed.
End turn.

Lemma start_holds slot d s :
  holds slot d s -> open_ep kDefaultControlPipeID (u_xfer (xd_usb d)) ->
  exists s' d' , on_device slot StartInitialize s = Some (kSuccess, s') /\ holds slot d' s' /\ rest s' = rest s
    /\ queued (u_xfer (xd_usb d)) (TIn kDefaultControlPipeID (get_descriptor 1) (dev_buf_addr (u_dev (xd_usb d))) 256)
         (u_xfer (xd_usb d')).
Proof.
  intros H Ho. destruct d as [a u c ic]. set (w := mkUsb (u_dev u) (u_drivers u) (pool_ptr s) (told s) (u_xfer u)).
  destruct (start_ok w Ho) as (t' & E & HQ).
  destruct (put_holds slot (mkXD a (set_xfer (set_dev w (set_phase (u_dev w) false 1)) t') c ic) s) as (s1 & E1 & H1 & Hr & _);
    [apply H|].
  eexists _, _. split; [|split; [|split]].
  - unfold on_device. rewrite (bind_run _ _ _ _ _ (Find_holds _ _ _ H)). unfold lift, gets, mbind, M_bind.
    cbn [xd_usb xd_addr xd_ctx xd_input]. fold w. rewrite E, E1. reflexivity.
  - exact H1.
  - exact Hr.
  - exact HQ.
Qed.


(** ** A port that was unplugged while it waited

    Its reset is skipped with success, so the search for the next port ends with it;
    the ports behind it stay waiting although no port is being addressed, and nothing
    resets a port that waits but the end of another one's addressing. *)
Lemma unplugged_port_blocks hw patience max_ports n i q s :
  i <= q < i + Z.of_nat n -> (port_config_phase s)$[q] = Some kWaitingAddressed ->
  (forall j, i <= j < q -> exists ph, (port_config_phase s)$[j] = Some ph /\ ph <> kWaitingAddressed) ->
  1 <= q <= max_ports -> get_bit 0 (hw (port_reads s) q) = false ->
  next_waiting hw patience max_ports n i s = Some (kSuccess, count_read s)
  /\ (forall r, (port_config_phase s)$[r] = Some kWaitingAddressed ->
      ConfigurePort hw patience max_ports r s = Some (kSuccess, s)
      /\ forall trb, event_port_id trb = r -> OnPortStatusChange hw patience max_ports trb s = Some (kInvalidPhase, s)).
Proof.
  intros Hi Hq Hb Hr Hc. split.
  - rewrite (next_waiting_first _ _ _ _ _ q) by done. unfold ResetPort, IsConnected.
    rewrite (bind_run _ _ _ false (count_read s)); [done|]. rewrite (bind_run _ _ _ _ _ (read_run hw max_ports q s Hr)).
    by rewrite Hc.
  - intros r E. split.
    + unfold ConfigurePort. by rewrite (bind_run _ _ _ _ _ (get_phase_run _ _ _ E)).
    + intros trb <-. unfold OnPortStatusChange. by rewrite (bind_run _ _ _ _ _ (get_phase_run _ _ _ E)).
Qed.

(** ** An example

    Port 2 is at work, port 3 waits. *)
Definition xhc_slot_given : xhc :=
  set_pool 0x200000 (set_addressing 2 (set_phase_of (<[2%nat := kEnablingSlot]> (<[3%nat := kWaitingAddressed]>
    (port_config_phase xhc_start))) xhc_start)).

Lemma address_command_prepared_witness :
  exists s' d,
    AddressDevice (fun _ _ => 0x0c03) 4 0x200000 0x1000 0x200 0x300 0x400 2 1 xhc_slot_given = Some (kSuccess, s')
    /\ holds 1 d s' /\ root_hub_port_num (in_slot_context (xd_input d)) = 2
    /\ cr_ s' = pushed (cr_ xhc_slot_given) (AddressDeviceCommandTRB 0x200300 1).
Proof.
  destruct (address_command_prepared (fun _ _ => 0x0c03) 4 0x200000 0x1000 0x200 0x300 0x400 2 1 xhc_slot_given
    0x200000 0x201000 0x201000 0x201020 (mkRing 0x201040 (replicate 32 TRB_zero) 32 true 0) 0x201240)
    as (s' & d & E & Hd & _ & Ha & _ & _ & _ & Hcr & _);
    [lia|lia|reflexivity|unfold slot_ok; cbn; lia|reflexivity|unfold open_ring; cbn; lia
    |reflexivity|lia|reflexivity|lia|reflexivity|cbn; lia|by exists 0x20104|].
  exists s', d. split_and!; [exact E|exact Hd|apply (addr_port _ _ _ _ Ha)|exact Hcr].
Defined.

(** The device of port 2 in slot 1, with its address; the command is the first entry. *)
Definition demo_ep0 : Ring := mkRing 0x201040 (replicate 32 TRB_zero) 32 true 0.
Definition demo_device : xdevice :=
  mkXD 0x200000
    (set_xfer (xd_usb (new_device 0x400 1 0x200000)) (mkX 1 (<[0%nat := Some (Some demo_ep0)]> (replicate 31 None)) (replicate 16 (None, 0)) []))
    [0; 0x20000; 0; 0; 0; 0; 0; 0] (xd_input (new_device 0x400 1 0x200000)).
Definition xhc_addressed : xhc :=
  set_cr (pushed (cr_ xhc_start) (AddressDeviceCommandTRB 0x200300 1))
    (set_mgr (mkMgr (<[1%nat := Some demo_device]> (replicate 9 None)) (replicate 9 0) 8)
      (set_phase_of (<[2%nat := kAddressingDevice]> (port_config_phase xhc_slot_given)) xhc_slot_given)).

Lemma demo_open : open_ep kDefaultControlPipeID (u_xfer (xd_usb demo_device)).
Proof.
  assert (Hone : forall (i : nat) r, <[0%nat := Some (Some demo_ep0)]> (replicate 31 (@None (option Ring))) !! i = Some (Some (Some r)) ->
    i = 0%nat /\ r = demo_ep0).
  { intros [|i] r E; [by injection E as <-|]. rewrite list_lookup_insert_ne in E by done. by apply lookup_replicate in E as [? _]. }
  split; [constructor|].
  - reflexivity.
  - intros i r [-> ->]%Hone. by constructor.
  - intros i j r r' p [-> _]%Hone [-> _]%Hone. done.
  - by exists 0%nat, demo_ep0.
Qed.

