(* ===== verification/DeviceState.v ===== *)
(** * What the xHCI driver keeps but does not use, src/src/usb/xhci/device.cpp, devmgr.cpp

    The state of a device with its search, and the transfer that is not implemented. The
    field [state_] is set by [Device::Initialize] and [SelectForSlotAssignment] only, which
    nothing calls; before, it has no value, which is [None]. *)
From Stdlib Require Import ZArith Lia.
From stdpp Require Import base option list numbers.
From S2P Require Import Prelude Error XhciDevice Xhci.

Set Default Proof Using "Type".

Inductive State := kInvalid | kBlank | kSlotAssigning | kSlotAssigned.
#[global] Instance State_eq_dec : EqDecision State.
Proof. solve_decision. Defined.

Definition Device_Initialize (state_ : option State) : Code * option State := (kSuccess, Some kBlank).
Definition SelectForSlotAssignment (state_ : option State) : option State := Some kSlotAssigning.

Definition x_InterruptOut (ep buf len : Z) (x : xhci_dev) : option (Code * xhci_dev) := Some (kNotImplemented, x).

(** The devices of the slots with their states. *)
Fixpoint find_state (st : State) (l : list (option (xdevice * option State))) : option (option xdevice) :=
  match l with
  | [] => Some None
  | None :: l => find_state st l
  | Some (dev, s) :: l => s ← s; if decide (s = st) then Some (Some dev) else find_state st l
  end.

Definition FindByState (st : State) (max_slots_ : Z) (devices_ : list (option (xdevice * option State)))
  : option (option xdevice) :=
  find_state st (take (Z.to_nat max_slots_) (drop 1 devices_)).

(** Once every device has a state the first one in [st] is found, or there is none. *)
Lemma find_state_first st l :
  (forall dev s, Some (dev, s) ∈ l -> is_Some s) ->
  exists r, find_state st l = Some r
    /\ match r with
       | Some dev => exists l1 l2, l = l1 ++ Some (dev, Some st) :: l2 /\ forall d, Some (d, Some st) ∉ l1
       | None => forall d, Some (d, Some st) ∉ l
       end.
Proof.
  induction l as [|[[d s]|] l IH]; intros Hs; cbn [find_state].
  - exists None. split; [done|]. intros d. apply not_elem_of_nil.
  - destruct (Hs d s ltac:(by left)) as [s' ->]. cbn [mbind option_bind]. destruct (decide (s' = st)) as [->|Hne].
    + exists (Some d). split; [done|]. exists [], l. split; [done|]. intros d'. apply not_elem_of_nil.
    + destruct IH as (r & -> & Hr); [intros dev s Hd; apply (Hs dev); by right|]. exists r. split; [done|].
      destruct r as [dev|]; [|intros d'; rewrite elem_of_cons; intros [E|H]; [by simplify_eq|by apply (Hr d')]].
      destruct Hr as (l1 & l2 & -> & H1). exists (Some (d, Some s') :: l1), l2. split; [done|].
      intros d'. rewrite elem_of_cons. intros [E|H]; [by simplify_eq|by apply (H1 d')].
  - destruct IH as (r & -> & Hr); [intros dev s Hd; apply (Hs dev); by right|]. exists r. split; [done|].
    destruct r as [dev|]; [|intros d'; rewrite elem_of_cons; intros [E|H]; [done|by apply (Hr d')]].
    destruct Hr as (l1 & l2 & -> & H1). exists (None :: l1), l2. split; [done|].
    intros d'. rewrite elem_of_cons. intros [E|H]; [done|by apply (H1 d')].
Qed.

(** A device that was only allocated has no state to compare. *)
Lemma allocated_has_no_state st dev l : find_state st (Some (dev, None) :: l) = None.
Proof. reflexivity. Qed.
