(* ===== verification/XhciInit.v ===== *)
(** * Starting the USB host controller, src/src/usb/xhci/xhci.cpp, registers.cpp, devmgr.cpp

    The driver finds the registers, takes the controller over from the firmware, halts
    and resets it, gives it its memory, and lets it run.  All accesses to registers are
    recorded in order; the controller is a parameter: [hw t a] is what a read of the
    register at address [a] gives after the accesses [t].  A computation may not come to
    an end - a poll is given up after [patience] reads, a null pointer is written to -
    and then has no result; the accesses up to there remain. *)
From Stdlib Require Import ZArith Lia.
From stdpp Require Import base option list numbers.
From S2P Require Import Prelude Error Bits UsbMemory Ring.

Set Default Proof Using "Type".

Inductive access := Rd (a v : Z) | Wr (a v : Z).

(** The accesses so far, and the memory: [alloc_ptr], [DeviceContexts()] and the array
    of scratchpad buffers. *)
Record io := mkIO { trace : list access; io_alloc : Z; io_contexts : list Z; io_scratch : list Z }.

Definition IO (A : Type) : Type := io -> option A * io.
#[global] Instance IO_ret : MRet IO := fun A a s => (Some a, s).
#[global] Instance IO_bind : MBind IO := fun A B f m s =>
  match m s with (Some a, s) => f a s | (None, s) => (None, s) end.
Definition stuck {A} : IO A := fun s => (None, s).

Definition add_access (x : access) (s : io) : io := mkIO (trace s ++ [x]) (io_alloc s) (io_contexts s) (io_scratch s).
Definition set_alloc (p : Z) (s : io) : io := mkIO (trace s) p (io_contexts s) (io_scratch s).
Definition set_contexts (l : list Z) (s : io) : io := mkIO (trace s) (io_alloc s) l (io_scratch s).
Definition set_scratch (l : list Z) (s : io) : io := mkIO (trace s) (io_alloc s) (io_contexts s) l.
Definition modify (f : io -> io) : IO unit := fun s => (Some tt, f s).

(** ** Bit fields, src/src/usb/xhci/registers.hpp *)
Definition max_ports_field (hcsparams1 : Z) : Z := get_field 24 8 hcsparams1.
Definition max_scratchpad_buffers_high (hcsparams2 : Z) : Z := get_field 21 5 hcsparams2.
Definition max_scratchpad_buffers_low (hcsparams2 : Z) : Z := get_field 27 5 hcsparams2.
Definition xhci_extended_capabilities_pointer (hccparams1 : Z) : Z := get_field 16 16 hccparams1.
Definition DBOFF_Offset (dboff : Z) : Z := u32 (Z.shiftl (get_field 2 30 dboff) 2).
Definition RTSOFF_Offset (rtsoff : Z) : Z := u32 (Z.shiftl (get_field 5 27 rtsoff) 5).
Definition run_stop (usbcmd : Z) : bool := get_bit 0 usbcmd.
Definition host_controller_reset (usbcmd : Z) : bool := get_bit 1 usbcmd.
Definition interrupter_enable (usbcmd : Z) : bool := get_bit 2 usbcmd.
Definition host_controller_halted (usbsts : Z) : bool := get_bit 0 usbsts.
Definition controller_not_ready (usbsts : Z) : bool := get_bit 11 usbsts.
Definition CRCR_Pointer (crcr : Z) : Z := u64 (Z.shiftl (get_field 6 58 crcr) 6).
Definition CRCR_SetPointer (crcr value : Z) : Z := set_field 6 58 (Z.shiftr value 6) crcr.
Definition DCBAAP_Pointer (dcbaap : Z) : Z := u64 (Z.shiftl (get_field 6 26 dcbaap) 6).
Definition DCBAAP_SetPointer (dcbaap value : Z) : Z := set_field 6 26 (Z.shiftr value 6) dcbaap.
Definition capability_id (ext : Z) : Z := get_field 0 8 ext.
Definition next_pointer (ext : Z) : Z := get_field 8 8 ext.
Definition hc_bios_owned_semaphore (usblegsup : Z) : bool := get_bit 16 usblegsup.
Definition hc_os_owned_semaphore (usblegsup : Z) : bool := get_bit 24 usblegsup.

(** ** Where the registers are *)
Definition CAPLENGTH (mmio_base : Z) : Z := mmio_base.
Definition HCSPARAMS1 (mmio_base : Z) : Z := mmio_base + 0x04.
Definition HCSPARAMS2 (mmio_base : Z) : Z := mmio_base + 0x08.
Definition HCCPARAMS1 (mmio_base : Z) : Z := mmio_base + 0x10.
Definition DBOFF (mmio_base : Z) : Z := mmio_base + 0x14.
Definition RTSOFF (mmio_base : Z) : Z := mmio_base + 0x18.
Definition USBCMD (op : Z) : Z := op.
Definition USBSTS (op : Z) : Z := op + 0x04.
Definition CRCR (op : Z) : Z := op + 0x18.
Definition DCBAAP (op : Z) : Z := op + 0x30.
Definition CONFIG (op : Z) : Z := op + 0x38.
Definition PortRegisterSets (op : Z) : Z := op + 0x400.
(** Of an interrupter. *)
Definition IMAN (ir : Z) : Z := ir.
Definition ERSTSZ_at (ir : Z) : Z := ir + 0x08.
Definition ERSTBA_at (ir : Z) : Z := ir + 0x10.
Definition ERDP_at (ir : Z) : Z := ir + 0x18.

Record Controller := mkController { mmio_base_ : Z; op_ : Z; max_ports_ : Z }.

Section start.
Context (hw : list access -> Z -> Z) (patience : nat) (memory_pool : Z).

(** [MemMapRegister::Read] and [Write] of a register of [w] bits. *)
Definition Read (w a : Z) : IO Z := fun s =>
  let v := hw (trace s) a mod 2 ^ w in (Some v, add_access (Rd a v) s).
Definition Write (a v : Z) : IO unit := modify (add_access (Wr a v)).

(** [while (!done(Read(a)));] and the last value read. *)
Fixpoint poll (fuel : nat) (a : Z) (done : Z -> bool) : IO Z :=
  match fuel with
  | O => stuck
  | S fuel => v ← Read 32 a; if done v then mret v else poll fuel a done
  end.

Definition Alloc (size alignment boundary : Z) : IO Z := fun s =>
  let '(p, ptr) := AllocMem memory_pool (io_alloc s) size alignment boundary in (Some p, set_alloc ptr s).

(** ** The controller and its registers *)
Definition Controller_new (mmio_base : Z) : IO Controller :=
  caplength ← Read 8 (CAPLENGTH mmio_base);
  hcsparams1 ← Read 32 (HCSPARAMS1 mmio_base);
  mret (mkController mmio_base (mmio_base + caplength) (max_ports_field hcsparams1)).

Definition InterrupterRegisterSets (c : Controller) : IO Z :=
  rtsoff ← Read 32 (RTSOFF (mmio_base_ c)); mret (mmio_base_ c + RTSOFF_Offset rtsoff + 0x20).
Definition DoorbellRegisters (c : Controller) : IO Z :=
  dboff ← Read 32 (DBOFF (mmio_base_ c)); mret (mmio_base_ c + DBOFF_Offset dboff).
Definition DoorbellRegisterAt (c : Controller) (index : Z) : IO Z :=
  base ← DoorbellRegisters c; mret (base + 4 * index).

(** ** Extended capabilities, src/src/usb/xhci/registers.cpp *)
Definition AddOrNull (p d : Z) : Z := if d =? 0 then 0 else p + 4 * d.
Definition ExtendedRegisterList_begin (mmio_base hccp : Z) : Z :=
  AddOrNull mmio_base (xhci_extended_capabilities_pointer hccp).

(** The first register of the list with the capability 1, or null. *)
Fixpoint find_legacy (fuel : nat) (reg : Z) : IO Z :=
  match fuel with
  | O => stuck
  | S fuel =>
      if reg =? 0 then mret 0
      else
        r ← Read 32 reg;
        if capability_id r =? 1 then mret reg
        else r ← Read 32 reg; find_legacy fuel (AddOrNull reg (next_pointer r))
  end.

Definition RequestHCOwnership (mmio_base hccp : Z) : IO unit :=
  reg ← find_legacy patience (ExtendedRegisterList_begin mmio_base hccp);
  if reg =? 0 then mret tt
  else
    r ← Read 32 reg;
    if hc_os_owned_semaphore r then mret tt
    else
      _ ← Write reg (set_bit 24 true r);
      _ ← poll patience reg (fun r => negb (hc_bios_owned_semaphore r || negb (hc_os_owned_semaphore r)));
      mret tt.

(** ** Its memory *)
Definition DeviceManager_Initialize (max_slots : Z) : IO (Code * Z) :=
  devices ← Alloc (u64 (8 * (max_slots + 1))) 0 0;
  if devices =? 0 then mret (kNoEnoughMemory, 0)
  else
    contexts ← Alloc (u64 (8 * (max_slots + 1))) 64 4096;
    if contexts =? 0 then mret (kNoEnoughMemory, 0)
    else
      _ ← modify (set_contexts (replicate (Z.to_nat (max_slots + 1)) 0));
      mret (kSuccess, contexts).

Fixpoint scratchpad_buffers (n : nat) : IO (list Z) :=
  match n with
  | O => mret []
  | S n => p ← Alloc 4096 4096 4096; ps ← scratchpad_buffers n; mret (p :: ps)
  end.

Definition AllocScratchpad (hcsparams2 : Z) : IO unit :=
  let max_scratchpad_buffers :=
    u16 (Z.lor (max_scratchpad_buffers_low hcsparams2) (Z.shiftl (max_scratchpad_buffers_high hcsparams2) 5)) in
  if 0 <? max_scratchpad_buffers then
    arr ← Alloc (u64 (8 * max_scratchpad_buffers)) 64 4096;
    if arr =? 0 then stuck
    else
      ps ← scratchpad_buffers (Z.to_nat max_scratchpad_buffers);
      _ ← modify (set_scratch ps);
      modify (fun s => set_contexts (<[0%nat := arr]> (io_contexts s)) s)
  else mret tt.

Definition Ring_Initialize (buf_size : Z) : IO (Code * option Ring) := fun s =>
  let '(err, r, ptr) := Initialize memory_pool (io_alloc s) buf_size in (Some (err, r), set_alloc ptr s).

Definition RegisterCommandRing (ring : Ring) (crcr : Z) : IO Code :=
  value ← Read 64 crcr;
  let value := set_bit 0 true value in
  let value := set_bit 1 false value in
  let value := set_bit 2 false value in
  _ ← Write crcr (CRCR_SetPointer value (buf_ ring));
  mret kSuccess.

(** [EventRing::Initialize] with the accesses it makes to the registers of the
    interrupter at [ir]. *)
Definition EventRing_Initialize_io (buf_size ir : Z) : IO (Code * option EventRing) :=
  buf ← Alloc (u64 (sizeof_TRB * buf_size)) 64 (64 * 1024);
  if buf =? 0 then mret (kNoEnoughMemory, None)
  else
    erst ← Alloc sizeof_TRB 64 (64 * 1024);
    if erst =? 0 then mret (kNoEnoughMemory, None)
    else
      erstsz ← Read 32 (ERSTSZ_at ir);
      let erstsz := ERSTSZ_SetSize erstsz 1 in
      _ ← Write (ERSTSZ_at ir) erstsz;
      erdp ← Read 64 (ERDP_at ir);
      let erdp := ERDP_SetPointer erdp buf in
      _ ← Write (ERDP_at ir) erdp;
      erstba ← Read 64 (ERSTBA_at ir);
      let erstba := ERSTBA_SetPointer erstba erst in
      _ ← Write (ERSTBA_at ir) erstba;
      mret (kSuccess, Some (mkERing buf (replicate (Z.to_nat buf_size) TRB_zero) buf_size erst buf (u16 buf_size) true
                              (mkIR erstsz erstba erdp))).

(** ** [Controller::Initialize] *)
Definition kDeviceSize : Z := 8.

(** Halt the controller, then reset it. *)
Definition halt_and_reset (op : Z) : IO unit :=
  usbcmd ← Read 32 (USBCMD op);
  let usbcmd := set_bit 2 false usbcmd in
  let usbcmd := set_bit 3 false usbcmd in
  let usbcmd := set_bit 10 false usbcmd in
  usbsts ← Read 32 (USBSTS op);
  let usbcmd := if host_controller_halted usbsts then usbcmd else set_bit 0 false usbcmd in
  _ ← Write (USBCMD op) usbcmd;
  _ ← poll patience (USBSTS op) host_controller_halted;
  usbcmd ← Read 32 (USBCMD op);
  _ ← Write (USBCMD op) (set_bit 1 true usbcmd);
  _ ← poll patience (USBCMD op) (fun v => negb (host_controller_reset v));
  _ ← poll patience (USBSTS op) (fun v => negb (controller_not_ready v));
  mret tt.

(** Its error, and the rings when there is none. *)
Definition Controller_Initialize (c : Controller) : IO (Code * option (Ring * EventRing)) :=
  '(err, contexts) ← DeviceManager_Initialize kDeviceSize;
  if is_error err then mret (err, None)
  else
    hccp ← Read 32 (HCCPARAMS1 (mmio_base_ c));
    _ ← RequestHCOwnership (mmio_base_ c) hccp;
    _ ← halt_and_reset (op_ c);
    _ ← Read 32 (HCSPARAMS1 (mmio_base_ c));
    config ← Read 32 (CONFIG (op_ c));
    _ ← Write (CONFIG (op_ c)) (set_field 0 8 kDeviceSize config);
    hcsparams2 ← Read 32 (HCSPARAMS2 (mmio_base_ c));
    _ ← AllocScratchpad hcsparams2;
    _ ← Write (DCBAAP (op_ c)) (DCBAAP_SetPointer 0 contexts);
    ir ← InterrupterRegisterSets c;
    '(err, cr) ← Ring_Initialize 32;
    match cr with
    | None => mret (err, None)
    | Some cr =>
        err ← RegisterCommandRing cr (CRCR (op_ c));
        if is_error err then mret (err, None)
        else
          '(err, er) ← EventRing_Initialize_io 32 ir;
          match er with
          | None => mret (err, None)
          | Some er =>
              iman ← Read 32 (IMAN ir);
              _ ← Write (IMAN ir) (set_bit 1 true (set_bit 0 true iman));
              usbcmd ← Read 32 (USBCMD (op_ c));
              _ ← Write (USBCMD (op_ c)) (set_bit 2 true usbcmd);
              mret (kSuccess, Some (cr, er))
          end
    end.

Definition Run (c : Controller) : IO Code :=
  usbcmd ← Read 32 (USBCMD (op_ c));
  _ ← Write (USBCMD (op_ c)) (set_bit 0 true usbcmd);
  _ ← Read 32 (USBCMD (op_ c));
  _ ← poll patience (USBSTS (op_ c)) (fun v => negb (host_controller_halted v));
  mret kSuccess.
End start.
