(* ===== verification/XhciInitSpec.v ===== *)
(** * Correctness of starting the controller

    The order of the accesses to the registers is judged by a monitor that knows what
    the controller's documentation asks of a driver.  For every controller that keeps
    its side the driver keeps its own, even when it ends up waiting; and when the
    controller makes progress and there is memory, it is started. *)
From Stdlib Require Import ZArith Lia.
From stdpp Require Import base option list numbers sets.
From S2P Require Import Prelude Error Bits UsbMemory Ring XhciInit.

(** ** The monitor

    [Ready l]: reset and ready, with the registers [l] written since then. *)
Inductive stage := Begin | Halted | Resetting | ResetDone | Ready (l : list Z) | Running.

Section monitor.
Context (op ir : Z).

(** What must be set up before the controller may interrupt or run. *)
Definition set_up : list Z := [CONFIG op; DCBAAP op; CRCR op; ERSTSZ_at ir; ERDP_at ir; ERSTBA_at ir].
Definition complete (l : list Z) : bool := forallb (fun a => bool_decide (a ∈ l)) set_up.

Definition mon_read (st : stage) (a v : Z) : stage :=
  if a =? USBSTS op then
    match st with
    | Begin => if host_controller_halted v then Halted else Begin
    | ResetDone => if controller_not_ready v then ResetDone else Ready []
    | _ => st
    end
  else if a =? USBCMD op then
    match st with
    | Resetting => if host_controller_reset v then Resetting else ResetDone
    | _ => st
    end
  else st.

(** The command register: a reset only of a halted controller, interrupts and running
    only when all is set up. *)
Definition mon_command (st : stage) (v : Z) : option stage :=
  if host_controller_reset v then match st with Halted => Some Resetting | _ => None end
  else if run_stop v || interrupter_enable v then
    match st with
    | Ready l => if complete l then Some (if run_stop v then Running else Ready l) else None
    | Running => if run_stop v then Some Running else None
    | _ => None
    end
  else match st with Resetting | ResetDone | Running => None | _ => Some st end.

(** The other registers of the driver only when the controller is ready; the base
    address of the event ring, which starts the ring, after its size and pointer. *)
Definition mon_write (st : stage) (a v : Z) : option stage :=
  if a =? USBCMD op then mon_command st v
  else if bool_decide (a ∈ IMAN ir :: set_up) then
    match st with
    | Ready l =>
        if (a =? ERSTBA_at ir) && negb (bool_decide (ERSTSZ_at ir ∈ l) && bool_decide (ERDP_at ir ∈ l)) then None
        else Some (Ready (a :: l))
    | _ => None
    end
  else match st with Begin | Halted => Some st | _ => None end.

Definition mon_step (st : option stage) (x : access) : option stage :=
  st ← st; match x with Rd a v => Some (mon_read st a v) | Wr a v => mon_write st a v end.
Definition mon (t : list access) : option stage := foldl mon_step (Some Begin) t.

Lemma mon_snoc t x : mon (t ++ [x]) = mon_step (mon t) x.
Proof. unfold mon. by rewrite foldl_app. Qed.
End monitor.
#[global] Arguments mon : simpl never.
#[global] Arguments complete : simpl never.

(** ** The controller's side *)
Section spec.
Context (hw : list access -> Z -> Z) (patience : nat) (memory_pool : Z) (c : Controller) (ir hccp : Z).
Local Notation op := (op_ c).
Local Notation mmio := (mmio_base_ c).
Local Notation now t a := (hw t a mod 2 ^ 32).
Local Notation mon := (mon op ir).

(** [a] read [k] times. *)
Fixpoint polled (k : nat) (a : Z) (t : list access) : list access :=
  match k with O => t | S k => polled k a (t ++ [Rd a (now t a)]) end.

(** The layout of the registers; a reset bit reads as set only while a reset goes on; a
    controller whose run bit is set is not halted. *)
Record documented : Prop := {
  doc_runtime : forall t, mmio + RTSOFF_Offset (now t (RTSOFF mmio)) + 0x20 = ir;
  doc_apart : op + 0x40 <= ir;
  doc_params : forall t, now t (HCCPARAMS1 mmio) = hccp;
  doc_legacy : forall s reg s', find_legacy hw patience (ExtendedRegisterList_begin mmio hccp) s = (Some reg, s') ->
                 reg <> USBCMD op /\ reg ∉ IMAN ir :: set_up op ir;
  doc_reset : forall t, mon t <> Some Resetting -> host_controller_reset (now t (USBCMD op)) = false;
  doc_run : forall t, run_stop (now t (USBCMD op)) = true ->
              host_controller_halted (now (t ++ [Rd (USBCMD op) (now t (USBCMD op))]) (USBSTS op)) = false
}.

(** ** A logic of the accesses

    In [triple live P m Q] the conditions are on the stage of the monitor and on
    [alloc_ptr].  The monitor accepts all accesses of [m]; when [m] ends it does so in
    [Q], and with [live] it ends. *)
Definition triple {A} (live : bool) (P : stage -> Z -> Prop) (m : IO A) (Q : A -> stage -> Z -> Prop) : Prop :=
  forall s st, mon (trace s) = Some st -> P st (io_alloc s) ->
  match m s with
  | (Some a, s') => exists st', mon (trace s') = Some st' /\ Q a st' (io_alloc s')
  | (None, s') => live = false /\ exists st', mon (trace s') = Some st'
  end.

Lemma triple_ret {A} live (P : stage -> Z -> Prop) (a : A) (Q : A -> stage -> Z -> Prop) :
  (forall st al, P st al -> Q a st al) -> triple live P (mret a) Q.
Proof. intros HQ s st Hs HP. exists st. auto. Qed.

Lemma triple_bind {A B} live P (m : IO A) Q (k : A -> IO B) R :
  triple live P m Q -> (forall a, triple live (Q a) (k a) R) -> triple live P (m ≫= k) R.
Proof.
  intros Hm Hk s st Hs HP. unfold mbind, IO_bind. specialize (Hm s st Hs HP).
  destruct (m s) as [[a|] s1]; [|exact Hm]. destruct Hm as (st1 & H1 & HQ). exact (Hk a s1 st1 H1 HQ).
Qed.

Lemma triple_pre {A} live (P P' : stage -> Z -> Prop) (m : IO A) Q :
  triple live P' m Q -> (forall st al, P st al -> P' st al) -> triple live P m Q.
Proof. intros Hm HP s st Hs H. apply (Hm s st Hs), HP, H. Qed.

Lemma triple_post {A} live P (m : IO A) (Q Q' : A -> stage -> Z -> Prop) :
  triple live P m Q -> (forall a st al, Q a st al -> Q' a st al) -> triple live P m Q'.
Proof.
  intros Hm HQ s st Hs HP. specialize (Hm s st Hs HP). destruct (m s) as [[a|] s1]; [|exact Hm].
  destruct Hm as (st1 & H1 & H2). exists st1. auto.
Qed.

(** A fact that does not depend on the state. *)
Lemma triple_fact {A} live (F : Prop) (P : stage -> Z -> Prop) (m : IO A) Q :
  (F -> triple live P m Q) -> triple live (fun st al => F /\ P st al) m Q.
Proof. intros Hm s st Hs [HF HP]. exact (Hm HF s st Hs HP). Qed.

Lemma triple_or {A} live (P1 P2 : stage -> Z -> Prop) (m : IO A) Q :
  triple live P1 m Q -> triple live P2 m Q -> triple live (fun st al => P1 st al \/ P2 st al) m Q.
Proof. intros H1 H2 s st Hs [HP|HP]; [exact (H1 s st Hs HP)|exact (H2 s st Hs HP)]. Qed.

(** The values [v] that a read may give are known as those of the hardware. *)
Lemma triple_read live (P : stage -> Z -> Prop) w a :
  triple live P (Read hw w a)
    (fun v st al => exists t st0, v = hw t a mod 2 ^ w /\ mon t = Some st0 /\ P st0 al /\ st = mon_read op st0 a v).
Proof.
  intros s st Hs HP. cbn. eexists. split; [by rewrite mon_snoc, Hs|]. by exists (trace s), st.
Qed.

Lemma triple_write live (P : stage -> Z -> Prop) a v (f : stage -> stage) :
  (forall st al, P st al -> mon_write op ir st a v = Some (f st)) ->
  triple live P (Write a v) (fun _ st al => exists st0, P st0 al /\ st = f st0).
Proof. intros Hw s st Hs HP. cbn. exists (f st). split; [by rewrite mon_snoc, Hs; cbn; rewrite (Hw st _ HP)|]. by exists st. Qed.

Lemma triple_alloc live (P : stage -> Z -> Prop) size al bd :
  triple live P (Alloc memory_pool size al bd)
    (fun p st ptr => exists ptr0, P st ptr0 /\ AllocMem memory_pool ptr0 size al bd = (p, ptr)).
Proof.
  intros s st Hs HP. unfold Alloc. destruct (AllocMem _ _ _ _ _) as [p ptr] eqn:E. exists st. split; [done|]. by exists (io_alloc s).
Qed.

Lemma triple_modify live (P : stage -> Z -> Prop) f :
  (forall s, trace (f s) = trace s /\ io_alloc (f s) = io_alloc s) -> triple live P (modify f) (fun _ => P).
Proof. intros Hf s st Hs HP. destruct (Hf s) as [E1 E2]. cbn. exists st. by rewrite E1, E2. Qed.

(** A poll keeps what reads of the register keep, and ends with [Q]; it is sure to end
    when the register is sure to show what it waits for. *)
Lemma triple_poll live (I : stage -> Prop) (P : Z -> Prop) a done (Q : stage -> Prop) fuel :
  (forall st v, I st -> done v = false -> I (mon_read op st a v)) ->
  (forall st v, I st -> done v = true -> Q (mon_read op st a v)) ->
  forall s st, mon (trace s) = Some st -> I st -> P (io_alloc s) ->
  (live = true -> exists k, (k < fuel)%nat /\ done (now (polled k a (trace s)) a) = true) ->
  match poll hw fuel a done s with
  | (Some _, s') => exists st', mon (trace s') = Some st' /\ Q st' /\ P (io_alloc s')
  | (None, s') => live = false /\ exists st', mon (trace s') = Some st'
  end.
Proof.
  intros HI HQ. induction fuel as [|fuel IH]; intros s st Hs Hst HP Hlive; cbn [poll].
  - cbn. split; [|by exists st]. destruct live; [|done]. destruct (Hlive eq_refl) as (k & ? & _). lia.
  - unfold mbind, IO_bind, Read. cbn. set (v := now (trace s) a). destruct (done v) eqn:Ed.
    + cbn. eexists. split; [by rewrite mon_snoc, Hs|]. split; [by apply HQ|done].
    + apply (IH (add_access (Rd a v) s) (mon_read op st a v)); [cbn; by rewrite mon_snoc, Hs|by apply HI|done|].
      intros Hl. destruct (Hlive Hl) as ([|k] & Hk & Hd); [cbn in Hd; subst v; congruence|]. exists k. split; [lia|exact Hd].
Qed.

(** ** The steps of the driver *)

(** The number of scratchpad buffers the controller asks for. *)
Definition scratchpads (hcsparams2 : Z) : Z :=
  u16 (Z.lor (max_scratchpad_buffers_low hcsparams2) (Z.shiftl (max_scratchpad_buffers_high hcsparams2) 5)).

Definition devmgr_requests : list request := [mkRequest 72 0 0; mkRequest 72 64 4096].
Definition scratch_requests (n : Z) : list request :=
  if 0 <? n then mkRequest (8 * n) 64 4096 :: replicate (Z.to_nat n) (mkRequest 4096 4096 4096) else [].
Definition ring_requests : list request := [mkRequest 512 64 0x10000; mkRequest 512 64 0x10000; mkRequest 16 64 0x10000].

(** The controller gets on with what it was told within the bound of the polls, and
    there is memory, from [alloc_ptr] on, for all that is allocated. *)
Record progress (n alloc_ptr : Z) : Prop := {
  pr_list : forall s, (find_legacy hw patience (ExtendedRegisterList_begin mmio hccp) s).1 <> None;
  pr_owner : forall s reg s1 t v,
    find_legacy hw patience (ExtendedRegisterList_begin mmio hccp) s = (Some reg, s1) -> reg <> 0 ->
    hc_os_owned_semaphore v = true ->
    exists k, (k < patience)%nat /\ let r := now (polled k reg (t ++ [Wr reg v])) reg in
      hc_bios_owned_semaphore r = false /\ hc_os_owned_semaphore r = true;
  pr_halt : forall t v, run_stop v = false ->
    exists k, (k < patience)%nat /\ host_controller_halted (now (polled k (USBSTS op) (t ++ [Wr (USBCMD op) v])) (USBSTS op)) = true;
  pr_reset : forall t, mon t = Some Resetting ->
    exists k, (k < patience)%nat /\ host_controller_reset (now (polled k (USBCMD op) t) (USBCMD op)) = false;
  pr_ready : forall t, mon t = Some ResetDone ->
    exists k, (k < patience)%nat /\ controller_not_ready (now (polled k (USBSTS op) t) (USBSTS op)) = false;
  pr_run : forall t, mon t = Some Running ->
    exists k, (k < patience)%nat /\ host_controller_halted (now (polled k (USBSTS op) t) (USBSTS op)) = false;
  pr_scratch : forall t, scratchpads (now t (HCSPARAMS2 mmio)) = n;
  pr_memory : 0 ∉ (alloc_all memory_pool alloc_ptr (devmgr_requests ++ scratch_requests n ++ ring_requests)).1
}.

Context (live : bool) (n a0 : Z) (Hdoc : documented) (Hlive : live = true -> progress n a0).

Definition early (st : stage) : Prop := st = Begin \/ st = Halted.
(** [rqs] can still be satisfied. *)
Definition covered (rqs : list request) (al : Z) : Prop := live = true -> 0 ∉ (alloc_all memory_pool al rqs).1.
Definition here (X : stage -> Prop) (rqs : list request) (st : stage) (al : Z) : Prop := X st /\ covered rqs al.

Lemma early_read st a v : early st -> early (mon_read op st a v).
Proof.
  intros [-> | ->]; unfold mon_read, early; repeat (case_match; try done); auto.
Qed.

Lemma ready_read l a v : mon_read op (Ready l) a v = Ready l.
Proof. unfold mon_read. repeat case_match; done. Qed.

Lemma covered_alloc al rq rqs p al' :
  covered (rq :: rqs) al -> AllocMem memory_pool al (rq_size rq) (rq_alignment rq) (rq_boundary rq) = (p, al') ->
  (live = true -> p <> 0) /\ covered rqs al'.
Proof.
  intros Hc E. unfold covered in *. cbn [alloc_all] in Hc. rewrite E in Hc. destruct (alloc_all memory_pool al' rqs) as [ps al2].
  cbn in *. split; intros Hl; specialize (Hc Hl); rewrite elem_of_cons in Hc; intros ?; apply Hc; [by left|by right].
Qed.

Lemma alloc_here X rq rqs :
  triple live (here X (rq :: rqs)) (Alloc memory_pool (rq_size rq) (rq_alignment rq) (rq_boundary rq))
    (fun p st al => (live = true -> p <> 0) /\ here X rqs st al).
Proof.
  eapply triple_post; [apply triple_alloc|]. cbn. intros p st al (al0 & [HX Hc] & E).
  destruct (covered_alloc _ _ _ _ _ Hc E). done.
Qed.

Lemma read_early rqs w a : triple live (here early rqs) (Read hw w a) (fun _ => here early rqs).
Proof.
  eapply triple_post; [apply triple_read|]. intros v st al (t & st0 & _ & _ & [He Hc] & ->).
  split; [by apply early_read|done].
Qed.

Lemma read_ready l rqs w a : triple live (here (eq (Ready l)) rqs) (Read hw w a) (fun _ => here (eq (Ready l)) rqs).
Proof.
  eapply triple_post; [apply triple_read|]. intros v st al (t & st0 & _ & _ & [<- Hc] & ->).
  split; [by rewrite ready_read|done].
Qed.

(** A register of the set-up is noted. *)
Lemma write_ready l rqs a v :
  a ∈ IMAN ir :: set_up op ir -> (a = ERSTBA_at ir -> ERSTSZ_at ir ∈ l /\ ERDP_at ir ∈ l) ->
  triple live (here (eq (Ready l)) rqs) (Write a v) (fun _ => here (eq (Ready (a :: l))) rqs).
Proof.
  intros Ha Hb. eapply triple_post; [apply (triple_write live _ a v (fun _ => Ready (a :: l)))|].
  - intros st al [<- _]. unfold mon_write. destruct (Z.eqb_spec a (USBCMD op)) as [->|_].
    { pose proof (doc_apart Hdoc) as Hap. exfalso. unfold set_up, USBCMD, IMAN, CONFIG, DCBAAP, CRCR, ERSTSZ_at, ERDP_at, ERSTBA_at in Ha.
      repeat (apply elem_of_cons in Ha as [Ha|Ha]; [lia|]). by apply elem_of_nil in Ha. }
    rewrite bool_decide_eq_true_2 by done. destruct (Z.eqb_spec a (ERSTBA_at ir)) as [E|]; [|done].
    destruct (Hb E). rewrite !bool_decide_eq_true_2 by done. done.
  - intros _ st al (st0 & [_ Hc] & ->). done.
Qed.

(** *** Memory for the devices *)
Definition out_of_memory (X : stage -> Prop) (err : Code) (st : stage) : Prop :=
  live = false /\ err = kNoEnoughMemory /\ X st.

Lemma no_memory {B} (X : stage -> Prop) (b : B) rqs p Q :
  p = 0 -> (forall st al, out_of_memory X kNoEnoughMemory st -> Q (kNoEnoughMemory, b) st al) ->
  triple live (fun st al => (live = true -> p <> 0) /\ here X rqs st al) (mret (kNoEnoughMemory, b)) Q.
Proof.
  intros -> HQ s st Hs [Hl [HX _]]. exists st. split; [done|]. apply HQ. split; [|done].
  destruct live; [by destruct (Hl eq_refl)|done].
Qed.

Lemma DeviceManager_triple rqs :
  triple live (here early (devmgr_requests ++ rqs)) (DeviceManager_Initialize memory_pool kDeviceSize)
    (fun '(err, _) st al => (err = kSuccess /\ here early rqs st al) \/ out_of_memory early err st).
Proof.
  unfold DeviceManager_Initialize. eapply triple_bind; [apply (alloc_here early (mkRequest 72 0 0))|].
  intros p. cbn beta. destruct (Z.eqb_spec p 0) as [->|Hp]; [eapply no_memory; [done|by right]|].
  apply triple_fact. intros _.
  eapply triple_bind; [apply (alloc_here early (mkRequest 72 64 4096))|].
  intros q. cbn beta. destruct (Z.eqb_spec q 0) as [->|Hq]; [eapply no_memory; [done|by right]|].
  apply triple_fact. intros _.
  eapply triple_bind; [by apply triple_modify|]. intros []. cbn beta.
  apply triple_ret. by left.
Qed.

(** *** Polls *)
Lemma poll_triple (I Q : stage -> Prop) rqs a done :
  (forall st v, I st -> done v = false -> I (mon_read op st a v)) ->
  (forall st v, I st -> done v = true -> Q (mon_read op st a v)) ->
  (live = true -> forall t st, mon t = Some st -> I st ->
     exists k, (k < patience)%nat /\ done (now (polled k a t) a) = true) ->
  triple live (here I rqs) (poll hw patience a done) (fun _ => here Q rqs).
Proof.
  intros HI HQ Hl s st Hs [Hst Hc]. apply (triple_poll live I _ a done Q patience HI HQ s st); eauto.
Qed.

(** A write, and the wait for its effect. *)
Lemma write_poll_bind {B} (X I Q : stage -> Prop) rqs a v b done (k : Z -> IO B) R (f : stage -> stage) :
  (forall st, X st -> mon_write op ir st a v = Some (f st) /\ I (f st)) ->
  (forall st v, I st -> done v = false -> I (mon_read op st b v)) ->
  (forall st v, I st -> done v = true -> Q (mon_read op st b v)) ->
  (live = true -> forall t st, mon t = Some st -> X st ->
     exists k, (k < patience)%nat /\ done (now (polled k b (t ++ [Wr a v])) b) = true) ->
  (forall x, triple live (here Q rqs) (k x) R) ->
  triple live (here X rqs) (_ ← Write a v; x ← poll hw patience b done; k x) R.
Proof.
  intros Hw HI HQ Hl Hk s st Hs [HX Hc]. destruct (Hw st HX) as [Ew Hf].
  change ((_ ← Write a v; x ← poll hw patience b done; k x) s) with ((x ← poll hw patience b done; k x) (add_access (Wr a v) s)).
  assert (Hs' : mon (trace (add_access (Wr a v) s)) = Some (f st)) by (cbn; by rewrite mon_snoc, Hs).
  pose proof (triple_poll live I (covered rqs) b done Q patience HI HQ _ _ Hs' Hf Hc
    (fun H => Hl H _ _ Hs HX)) as Hp.
  unfold mbind, IO_bind. destruct (poll hw patience b done (add_access (Wr a v) s)) as [[x|] s1].
  - destruct Hp as (st1 & H1 & H2 & H3). apply (Hk x s1 st1 H1). done.
  - exact Hp.
Qed.

(** *** The controller leaves the firmware *)
Lemma find_legacy_accepted fuel reg rqs :
  triple false (here early rqs) (find_legacy hw fuel reg) (fun _ => here early rqs).
Proof.
  revert reg. induction fuel as [|fuel IH]; intros reg; cbn [find_legacy].
  - intros s st Hs _. split; [done|by exists st].
  - destruct (reg =? 0); [by apply triple_ret|].
    eapply triple_bind; [apply triple_read|]. intros r. cbn beta.
    refine (triple_pre _ _ (here early rqs) _ _ _ _).
    2:{ intros st al (t & st0 & _ & _ & [He Hc] & ->). split; [by apply early_read|done]. }
    destruct (_ =? 1); [by apply triple_ret|].
    eapply triple_bind; [apply triple_read|]. intros r'. cbn beta.
    refine (triple_pre _ _ (here early rqs) _ _ (IH _) _).
    intros st al (t & st0 & _ & _ & [He Hc] & ->). split; [by apply early_read|done].
Qed.

Lemma find_legacy_triple rqs :
  triple live (here early rqs) (find_legacy hw patience (ExtendedRegisterList_begin mmio hccp))
    (fun reg st al => (exists s s', find_legacy hw patience (ExtendedRegisterList_begin mmio hccp) s = (Some reg, s'))
                      /\ here early rqs st al).
Proof.
  intros s st Hs HP. pose proof (find_legacy_accepted patience (ExtendedRegisterList_begin mmio hccp) rqs s st Hs HP) as Hf.
  destruct (find_legacy _ _ _ s) as [[reg|] s'] eqn:E.
  - destruct Hf as (st' & H1 & H2). exists st'. split; [done|]. split; [by exists s, s'|done].
  - destruct Hf as [_ Hf]. split; [|done]. destruct live; [|done].
    destruct (pr_list _ _ (Hlive eq_refl) s). by rewrite E.
Qed.

Lemma ownership_triple rqs :
  triple live (here early rqs) (RequestHCOwnership hw patience mmio hccp) (fun _ => here early rqs).
Proof.
  unfold RequestHCOwnership. eapply triple_bind; [apply find_legacy_triple|]. intros reg. cbn beta.
  apply triple_fact. intros (s0 & s1 & Hreg). destruct (Z.eqb_spec reg 0) as [|Hr0]; [by apply triple_ret|].
  eapply triple_bind; [apply read_early|]. intros r. cbn beta.
  destruct (hc_os_owned_semaphore r); [by apply triple_ret|].
  apply (write_poll_bind early early early rqs _ _ _ _ _ _ id).
  - intros st He. split; [|done]. destruct (doc_legacy Hdoc _ _ _ Hreg) as [Hn Hi]. unfold mon_write.
    destruct (Z.eqb_spec reg (USBCMD op)); [done|]. rewrite bool_decide_eq_false_2 by done. by destruct He as [-> | ->].
  - intros st v He _. by apply early_read.
  - intros st v He _. by apply early_read.
  - intros Hl t st _ _. destruct (pr_owner _ _ (Hlive Hl) s0 reg s1 t (set_bit 24 true r) Hreg Hr0) as (k & Hk & E1 & E2).
    { unfold hc_os_owned_semaphore. by rewrite get_set_bit by lia. }
    exists k. split; [done|]. by rewrite E1, E2.
  - intros _. by apply triple_ret.
Qed.

(** *** Halt and reset *)
Definition quiet (usbcmd : Z) : Z := set_bit 10 false (set_bit 3 false (set_bit 2 false usbcmd)).

(** The command that halts the controller has neither the run bit nor a reset nor
    interrupts in it. *)
Lemma halt_command {B} rqs (k : Z -> IO B) R :
  (forall v, host_controller_reset v = false -> run_stop v = false -> interrupter_enable v = false ->
     triple live (here early rqs) (k v) R) ->
  triple live (here early rqs)
    (usbcmd ← Read hw 32 (USBCMD op); usbsts ← Read hw 32 (USBSTS op);
     k (if host_controller_halted usbsts then quiet usbcmd else set_bit 0 false (quiet usbcmd))) R.
Proof.
  intros Hk s st Hs [He Hc]. unfold mbind, IO_bind, Read. cbn beta iota zeta.
  set (v := now (trace s) (USBCMD op)). cbn [add_access trace].
  set (w := now (trace s ++ [Rd (USBCMD op) v]) (USBSTS op)).
  apply (Hk _) with (st := mon_read op (mon_read op st (USBCMD op) v) (USBSTS op) w).
  - unfold host_controller_reset, quiet, set_bit. pose proof (doc_reset Hdoc (trace s)) as Hr. fold v in Hr.
    case_match; rewrite ?get_set_bit_other by lia; apply Hr; rewrite Hs; by destruct He as [-> | ->].
  - unfold run_stop, quiet. destruct (host_controller_halted w) eqn:Ew.
    + unfold set_bit. rewrite !get_set_bit_other by lia. destruct (get_bit 0 v) eqn:E; [|done].
      pose proof (doc_run Hdoc (trace s) E) as Hr. fold v w in Hr. congruence.
    + by rewrite get_set_bit by lia.
  - unfold interrupter_enable, quiet. case_match; unfold set_bit at 1; rewrite ?get_set_bit_other by lia;
      unfold set_bit at 1; rewrite ?get_set_bit_other by lia; try (unfold set_bit at 1; rewrite get_set_bit_other by lia);
      by rewrite get_set_bit by lia.
  - cbn [add_access trace]. by rewrite !mon_snoc, Hs.
  - split; [|done]. by apply early_read, early_read.
Qed.

Lemma halt_and_reset_triple rqs :
  triple live (here early rqs) (halt_and_reset hw patience op) (fun _ => here (eq (Ready [])) rqs).
Proof.
  apply (halt_command rqs (fun v =>
    _ ← Write (USBCMD op) v;
    _ ← poll hw patience (USBSTS op) host_controller_halted;
    usbcmd ← Read hw 32 (USBCMD op);
    _ ← Write (USBCMD op) (set_bit 1 true usbcmd);
    _ ← poll hw patience (USBCMD op) (fun v => negb (host_controller_reset v));
    _ ← poll hw patience (USBSTS op) (fun v => negb (controller_not_ready v));
    mret tt)).
  intros v Hv1 Hv2 Hv3.
  assert (Hcmd : USBCMD op =? USBSTS op = false) by (unfold USBSTS, USBCMD; lia).
  apply (write_poll_bind early early (eq Halted) rqs _ _ _ _ _ _ id).
  - intros st He. split; [|done]. unfold mon_write, mon_command. rewrite Z.eqb_refl, Hv1, Hv2, Hv3. by destruct He as [-> | ->].
  - intros st w He _. by apply early_read.
  - intros st w He Hw. unfold mon_read. rewrite Z.eqb_refl, Hw. by destruct He as [-> | ->].
  - intros Hl t st _ _. by apply (pr_halt _ _ (Hlive Hl)).
  - intros _. eapply triple_bind; [apply triple_read|]. intros u. cbn beta.
    refine (triple_pre _ _ (here (eq Halted) rqs) _ _ _ _).
    2:{ intros st al (t & st0 & _ & _ & [<- Hc] & ->). split; [|done]. unfold mon_read. by repeat case_match. }
    assert (Hw : forall st, Halted = st -> mon_write op ir st (USBCMD op) (set_bit 1 true u) = Some Resetting).
    { intros st <-. unfold mon_write, mon_command, host_controller_reset. by rewrite Z.eqb_refl, get_set_bit by lia. }
    apply (write_poll_bind (eq Halted) (eq Resetting) (eq ResetDone) rqs _ _ _ _ _ _ (fun _ => Resetting)).
    + intros st Hst. split; [by apply Hw|done].
    + intros st w <- Hd. unfold mon_read. rewrite Hcmd, Z.eqb_refl. by destruct (host_controller_reset w).
    + intros st w <- Hd. unfold mon_read. rewrite Hcmd, Z.eqb_refl. by destruct (host_controller_reset w).
    + intros Hl t st Ht Hst. destruct (pr_reset _ _ (Hlive Hl) (t ++ [Wr (USBCMD op) (set_bit 1 true u)])) as (k & Hk & E).
      { rewrite mon_snoc, Ht. by apply Hw. }
      exists k. split; [done|]. by rewrite E.
    + intros _. refine (triple_bind _ _ _ (fun _ => here (eq (Ready [])) rqs) _ _ _ _); [|intros x; by apply triple_ret].
      apply (poll_triple (eq ResetDone)).
      * intros st w <- Hd. unfold mon_read. rewrite Z.eqb_refl. by destruct (controller_not_ready w).
      * intros st w <- Hd. unfold mon_read. rewrite Z.eqb_refl. by destruct (controller_not_ready w).
      * intros Hl t st Ht <-. destruct (pr_ready _ _ (Hlive Hl) t Ht) as (k & Hk & E). exists k. split; [done|]. by rewrite E.
Qed.

(** *** Memory for the controller *)
Lemma scratchpad_buffers_triple X k rqs :
  triple live (here X (replicate k (mkRequest 4096 4096 4096) ++ rqs)) (scratchpad_buffers memory_pool k) (fun _ => here X rqs).
Proof.
  induction k as [|k IH]; cbn [scratchpad_buffers replicate app]; [by apply triple_ret|].
  eapply triple_bind; [apply (alloc_here X (mkRequest 4096 4096 4096))|]. intros p. cbn beta. apply triple_fact. intros _.
  eapply triple_bind; [apply IH|]. intros ps. cbn beta. by apply triple_ret.
Qed.

Lemma scratchpads_range h : 0 <= scratchpads h < 2 ^ 16.
Proof. unfold scratchpads, u16. apply Z.mod_pos_bound. lia. Qed.

Lemma AllocScratchpad_triple X h rqs :
  (live = true -> scratchpads h = n) ->
  triple live (here X (scratch_requests n ++ rqs)) (AllocScratchpad memory_pool h) (fun _ => here X rqs).
Proof.
  intros Hn. refine (triple_pre _ _ (here X (scratch_requests (scratchpads h) ++ rqs)) _ _ _ _).
  2:{ intros st al [HX Hc]. split; [done|]. intros Hl. rewrite (Hn Hl). by apply Hc. }
  unfold AllocScratchpad, scratch_requests. fold (scratchpads h). pose proof (scratchpads_range h) as Hr. cbv zeta.
  destruct (Z.ltb_spec 0 (scratchpads h)); [|by apply triple_ret].
  replace (u64 (8 * scratchpads h)) with (8 * scratchpads h) by (symmetry; apply Z.mod_small; lia).
  eapply triple_bind; [apply (alloc_here X (mkRequest (8 * scratchpads h) 64 4096))|]. intros p. cbn beta.
  destruct (Z.eqb_spec p 0) as [->|Hp].
  { intros s st Hs [Hl _]. split; [|by exists st]. destruct live; [by destruct (Hl eq_refl)|done]. }
  apply triple_fact. intros _. eapply triple_bind; [apply scratchpad_buffers_triple|]. intros ps. cbn beta.
  eapply triple_bind; [by apply triple_modify|]. intros u. cbn beta. by apply triple_modify.
Qed.

Lemma Ring_triple X rqs :
  triple live (here X (mkRequest 512 64 0x10000 :: rqs)) (Ring_Initialize memory_pool 32)
    (fun '(err, r) st al => match r with
                            | Some _ => err = kSuccess /\ here X rqs st al
                            | None => out_of_memory X err st
                            end).
Proof.
  intros s st Hs [HX Hc]. unfold Ring_Initialize, Initialize. change (u64 (sizeof_TRB * 32)) with 512. change (64 * 1024) with 0x10000.
  destruct (AllocMem memory_pool (io_alloc s) 512 64 0x10000) as [p al] eqn:E.
  destruct (covered_alloc _ (mkRequest 512 64 0x10000) _ _ _ Hc E) as [Hp Hc'].
  destruct (Z.eqb_spec p 0) as [->|Hp0]; exists st; (split; [done|]); [|by split].
  split; [|done]. destruct live; [by destruct (Hp eq_refl)|done].
Qed.

Lemma command_ring_triple l rqs r :
  triple live (here (eq (Ready l)) rqs) (RegisterCommandRing hw r (CRCR op))
    (fun err st al => err = kSuccess /\ here (eq (Ready (CRCR op :: l))) rqs st al).
Proof.
  unfold RegisterCommandRing. eapply triple_bind; [apply read_ready|]. intros v. cbn beta zeta.
  eapply triple_bind; [apply write_ready|].
  - unfold set_up. set_solver.
  - intros E. pose proof (doc_apart Hdoc). unfold CRCR, ERSTBA_at in E. lia.
  - intros u. cbn beta. by apply triple_ret.
Qed.

Lemma event_ring_triple l rqs :
  triple live (here (eq (Ready l)) (mkRequest 512 64 0x10000 :: mkRequest 16 64 0x10000 :: rqs)) (EventRing_Initialize_io hw memory_pool 32 ir)
    (fun '(err, r) st al => match r with
       | Some _ => err = kSuccess /\ here (eq (Ready (ERSTBA_at ir :: ERDP_at ir :: ERSTSZ_at ir :: l))) rqs st al
       | None => out_of_memory (eq (Ready l)) err st
       end).
Proof.
  unfold EventRing_Initialize_io.
  eapply triple_bind; [apply (alloc_here _ (mkRequest 512 64 0x10000))|]. intros p. cbn beta.
  destruct (Z.eqb_spec p 0) as [->|Hp]; [by eapply no_memory|]. apply triple_fact. intros _.
  eapply triple_bind; [apply (alloc_here _ (mkRequest 16 64 0x10000))|]. intros q. cbn beta.
  destruct (Z.eqb_spec q 0) as [->|Hq]; [by eapply no_memory|]. apply triple_fact. intros _.
  eapply triple_bind; [apply read_ready|]. intros v1. cbn beta zeta.
  eapply triple_bind; [apply write_ready; [unfold set_up; set_solver|unfold ERSTSZ_at, ERSTBA_at; lia]|]. intros u1. cbn beta.
  eapply triple_bind; [apply read_ready|]. intros v2. cbn beta zeta.
  eapply triple_bind; [apply write_ready; [unfold set_up; set_solver|unfold ERDP_at, ERSTBA_at; lia]|]. intros u2. cbn beta.
  eapply triple_bind; [apply read_ready|]. intros v3. cbn beta zeta.
  eapply triple_bind; [apply write_ready; [unfold set_up; set_solver|intros _; set_solver]|]. intros u3. cbn beta.
  by apply triple_ret.
Qed.

(** *** All of it *)
Definition started (st : stage) : Prop := st = Running \/ exists l, st = Ready l /\ complete op ir l = true.
(** Where the driver may give up: interrupts and running were never allowed. *)
Definition unstarted (st : stage) : Prop := early st \/ exists l, st = Ready l /\ complete op ir l = false.

Definition initialized (r : Code * option (Ring * EventRing)) (st : stage) (al : Z) : Prop :=
  match r with
  | (err, Some _) => err = kSuccess /\ started st
  | (err, None) => out_of_memory unstarted err st
  end.

Lemma interrupts_triple {B} l rqs (b : B) Q :
  complete op ir l = true -> (forall st al, started st -> Q b st al) ->
  triple live (here (eq (Ready l)) rqs)
    (usbcmd ← Read hw 32 (USBCMD op); _ ← Write (USBCMD op) (set_bit 2 true usbcmd); mret b) Q.
Proof.
  intros Hl HQ. eapply triple_bind; [apply triple_read|]. intros v. cbn beta.
  intros s st Hs (t & st0 & -> & Ht & [<- _] & Est). rewrite ready_read in Est. subst st.
  assert (Hr : host_controller_reset (set_bit 2 true (now t (USBCMD op))) = false).
  { unfold host_controller_reset, set_bit. rewrite get_set_bit_other by lia. apply (doc_reset Hdoc). by rewrite Ht. }
  set (v := set_bit 2 true _) in *. exists (if run_stop v then Running else Ready l). split.
  - cbn. rewrite mon_snoc, Hs. cbn. unfold mon_write, mon_command. rewrite Z.eqb_refl, Hr.
    assert (interrupter_enable v = true) as -> by (unfold v, interrupter_enable; by rewrite get_set_bit by lia).
    by rewrite orb_true_r, Hl.
  - apply HQ. unfold started. destruct (run_stop v); [by left|right]. by exists l.
Qed.

Lemma stop_early (X : stage -> Prop) err :
  (forall st, X st -> unstarted st) ->
  triple live (fun st _ => out_of_memory X err st) (mret (err, None)) initialized.
Proof. intros HX. apply triple_ret. intros st al (Hl & He & H). split_and!; auto. Qed.

Lemma ready_unstarted l st : complete op ir l = false -> Ready l = st -> unstarted st.
Proof. intros Hl <-. right. by exists l. Qed.

Lemma not_complete l a : a ∈ set_up op ir -> a ∉ l -> complete op ir l = false.
Proof.
  intros Ha Hn. apply not_true_is_false. intros H. unfold complete in H. rewrite forallb_forall in H.
  apply Hn. eapply bool_decide_eq_true_1, (H a). by apply list_elem_of_In.
Qed.

(** With the rings: from the registers [CONFIG] and [DCBAAP] to the end. *)
Lemma rings_triple (l := [DCBAAP op; CONFIG op]) :
  triple live (here (eq (Ready l)) ring_requests)
    ('(err, cr) ← Ring_Initialize memory_pool 32;
     match cr with
     | None => mret (err, None)
     | Some cr =>
         err ← RegisterCommandRing hw cr (CRCR op);
         if is_error err then mret (err, None)
         else
           '(err, er) ← EventRing_Initialize_io hw memory_pool 32 ir;
           match er with
           | None => mret (err, None)
           | Some er =>
               iman ← Read hw 32 (IMAN ir);
               _ ← Write (IMAN ir) (set_bit 1 true (set_bit 0 true iman));
               usbcmd ← Read hw 32 (USBCMD op);
               _ ← Write (USBCMD op) (set_bit 2 true usbcmd);
               mret (kSuccess, Some (cr, er))
           end
     end) initialized.
Proof.
  pose proof (doc_apart Hdoc) as Hap.
  eapply triple_bind; [apply Ring_triple|]. intros [err [cr|]]; cbn beta iota.
  2:{ apply stop_early. intros st. apply ready_unstarted. apply (not_complete _ (CRCR op)); [unfold set_up; set_solver|].
      unfold l, CRCR, DCBAAP, CONFIG. rewrite !elem_of_cons, elem_of_nil. lia. }
  apply triple_fact. intros ->. eapply triple_bind; [apply command_ring_triple|]. intros err. cbn beta.
  apply triple_fact. intros ->. change (is_error kSuccess) with false. cbv iota.
  eapply triple_bind; [apply event_ring_triple|]. intros [err [er|]]; cbn beta iota.
  2:{ apply stop_early. intros st. apply ready_unstarted. apply (not_complete _ (ERSTBA_at ir)); [unfold set_up; set_solver|].
      unfold l, CRCR, DCBAAP, CONFIG, ERSTBA_at. rewrite !elem_of_cons, elem_of_nil. lia. }
  apply triple_fact. intros ->. eapply triple_bind; [apply read_ready|]. intros iman. cbn beta.
  eapply triple_bind; [apply write_ready; [set_solver|unfold IMAN, ERSTBA_at; lia]|]. intros u. cbn beta.
  apply interrupts_triple; [|done]. unfold complete. apply forallb_forall. intros a Ha%list_elem_of_In.
  apply bool_decide_eq_true_2. unfold set_up in Ha. unfold l. set_solver.
Qed.

(** A value read is one the register has. *)
Lemma read_value X rqs a (F : Z -> Prop) :
  (forall st v, X st -> X (mon_read op st a v)) -> (forall t, F (now t a)) ->
  triple live (here X rqs) (Read hw 32 a) (fun v st al => F v /\ here X rqs st al).
Proof.
  intros HX HF. eapply triple_post; [apply triple_read|]. intros v st al (t & st0 & -> & _ & [He Hc] & ->).
  split; [apply HF|]. split; [by apply HX|done].
Qed.

Lemma Initialize_triple :
  triple live (here early (devmgr_requests ++ scratch_requests n ++ ring_requests)) (Controller_Initialize hw patience memory_pool c)
    initialized.
Proof.
  pose proof (doc_apart Hdoc) as Hap.
  unfold Controller_Initialize. eapply triple_bind; [apply DeviceManager_triple|]. intros [err contexts]. cbn beta iota.
  apply triple_or.
  2:{ destruct (is_error err) eqn:Ee; [apply stop_early; by left|].
      intros s st Hs (_ & -> & _). done. }
  apply triple_fact. intros ->. change (is_error kSuccess) with false. cbv iota.
  eapply triple_bind; [apply (read_value early _ _ (eq hccp)); [intros; by apply early_read|]|].
  { intros t. symmetry. apply (doc_params Hdoc). }
  intros v. cbn beta. apply triple_fact. intros <-.
  eapply triple_bind; [apply ownership_triple|]. intros u0. cbn beta.
  eapply triple_bind; [apply halt_and_reset_triple|]. intros u1. cbn beta.
  eapply triple_bind; [apply read_ready|]. intros v1. cbn beta.
  eapply triple_bind; [apply read_ready|]. intros v2. cbn beta.
  eapply triple_bind; [apply write_ready; [unfold set_up; set_solver|unfold CONFIG, ERSTBA_at; lia]|]. intros u2. cbn beta.
  eapply triple_bind; [apply (read_value _ _ _ (fun v => live = true -> scratchpads v = n))|].
  { intros st v <-. by rewrite ready_read. }
  { intros t Hl. apply (pr_scratch _ _ (Hlive Hl)). }
  intros v3. cbn beta. apply triple_fact. intros Hn.
  eapply triple_bind; [by apply AllocScratchpad_triple|]. intros u3. cbn beta.
  eapply triple_bind; [apply write_ready; [unfold set_up; set_solver|unfold DCBAAP, ERSTBA_at; lia]|]. intros u4. cbn beta.
  unfold InterrupterRegisterSets.
  eapply triple_bind; [eapply triple_bind; [apply (read_value _ _ _ (fun v => mmio + RTSOFF_Offset v + 0x20 = ir))|]|].
  { intros st v <-. by rewrite ready_read. }
  { apply (doc_runtime Hdoc). }
  { intros v. cbn beta. apply triple_ret with (Q := fun r st al => r = ir /\ here (eq (Ready [DCBAAP op; CONFIG op])) ring_requests st al).
    intros st al [E H]. by rewrite E. }
  intros ir'. cbn beta. apply triple_fact. intros ->. apply rings_triple.
Qed.

Lemma Run_triple rqs :
  triple live (here started rqs) (Run hw patience c) (fun err st _ => err = kSuccess /\ st = Running).
Proof.
  unfold Run. assert (Hst : forall st a v, started st -> started (mon_read op st a v)).
  { intros st a v [-> | (l & -> & Hl)]; [|rewrite ready_read; right; by exists l]. left. unfold mon_read. by repeat case_match. }
  eapply triple_bind; [apply triple_read|]. intros v. cbn beta.
  refine (triple_bind _ _ _ (fun _ => here (eq Running) rqs) _ _ _ _).
  - intros s st Hs (t & st0 & -> & Ht & [Hs0 Hc] & ->). exists Running. split; [|by split].
    cbn. rewrite mon_snoc, Hs. cbn. unfold mon_write, mon_command. rewrite Z.eqb_refl.
    assert (host_controller_reset (set_bit 0 true (now t (USBCMD op))) = false) as ->.
    { unfold host_controller_reset, set_bit. rewrite get_set_bit_other by lia. apply (doc_reset Hdoc). rewrite Ht.
      by destruct Hs0 as [-> | (l & -> & _)]. }
    unfold run_stop. rewrite get_set_bit by lia. cbn [orb].
    destruct (Hst st0 (USBCMD op) (now t (USBCMD op)) Hs0) as [-> | (l & -> & ->)]; done.
  - intros u. assert (Hrun : forall st a v, Running = st -> Running = mon_read op st a v)
      by (intros st a w <-; unfold mon_read; by repeat case_match).
    eapply triple_bind; [apply (read_value (eq Running) _ _ (fun _ => True)); [auto|done]|]. intros w. cbn beta.
    apply triple_fact. intros _. eapply triple_bind; [apply (poll_triple (eq Running) (eq Running))|].
    + intros st x Hx _. by apply Hrun.
    + intros st x Hx _. by apply Hrun.
    + intros Hl t st Ht <-. destruct (pr_run _ _ (Hlive Hl) t Ht) as (k & Hk & E). exists k. split; [done|]. by rewrite E.
    + intros x. cbn beta. apply triple_ret. by intros st al [<- _].
Qed.
End spec.

(** ** Accepted sequences of accesses *)
Section accepted.
Context (op ir : Z).
Local Notation mon := (mon op ir).

Lemma incomplete_cons a l : complete op ir (a :: l) = false -> complete op ir l = false.
Proof.
  intros Hst. apply not_true_is_false. intros Hc. apply eq_true_false_abs in Hst; [done|].
  unfold complete in *. rewrite forallb_forall in Hc. apply forallb_forall. intros b Hb. specialize (Hc b Hb).
  apply bool_decide_eq_true in Hc. apply bool_decide_eq_true. set_solver.
Qed.

(** A controller that is not started was never told to run, nor to interrupt. *)
Lemma not_started t st :
  mon t = Some st -> match st with Ready l => complete op ir l = false | Running => False | _ => True end ->
  forall v, Wr (USBCMD op) v ∈ t -> host_controller_reset v = false -> run_stop v = false /\ interrupter_enable v = false.
Proof.
  revert st. induction t as [|x t IH] using rev_ind; intros st Hm Hst v Hv Hr; [by apply elem_of_nil in Hv|].
  rewrite mon_snoc in Hm. destruct (mon t) as [st0|] eqn:E; [|done]. cbn in Hm. apply elem_of_app in Hv as [Hv|Hv].
  - apply (IH st0); [done| |done|done]. destruct x as [a w|a w]; cbn in Hm.
    + unfold mon_read in Hm. destruct st0 as [| | | |l|]; [done..| |]; repeat case_match; simplify_eq; done.
    + unfold mon_write, mon_command in Hm. destruct st0 as [| | | |l|]; [done..| |]; repeat case_match; simplify_eq; try done; try congruence.
      by eapply incomplete_cons.
  - apply list_elem_of_singleton in Hv as <-. cbn in Hm. unfold mon_write, mon_command in Hm. rewrite Z.eqb_refl, Hr in Hm.
    destruct (run_stop v), (interrupter_enable v); cbn in Hm; try done; repeat case_match; simplify_eq; done || congruence.
Qed.

Lemma rejected_app t t' : mon t = None -> mon (t ++ t') = None.
Proof.
  intros Hm. induction t' as [|x t' IH] using rev_ind; [by rewrite app_nil_r|]. by rewrite app_assoc, mon_snoc, IH.
Qed.
End accepted.

Section theorems.
Context (hw : list access -> Z -> Z) (patience : nat) (memory_pool : Z) (c : Controller) (ir hccp : Z).
Local Notation op := (op_ c).
Local Notation init := (Controller_Initialize hw patience memory_pool c).

Lemma init_accepted s r s1 :
  documented hw patience c ir hccp -> mon op ir (trace s) = Some Begin -> init s = (r, s1) ->
  exists st, mon op ir (trace s1) = Some st
    /\ match r with
       | Some (err, Some _) => err = kSuccess /\ started c ir st
       | Some (err, None) => err = kNoEnoughMemory /\ unstarted c ir st
       | None => True
       end.
Proof.
  intros Hdoc Hs E.
  pose proof (Initialize_triple hw patience memory_pool c ir hccp false 0 0 Hdoc ltac:(done) s Begin Hs) as H. rewrite E in H.
  assert (H0 := H ltac:(split; [by left|done])). clear H.
  destruct r as [[err [rs|]]|].
  - destruct H0 as (st & Hst & HQ). by exists st.
  - destruct H0 as (st & Hst & _ & HQ). by exists st.
  - destruct H0 as (_ & st & Hst). by exists st.
Qed.

(** C19. Whatever the controller answers, as long as it answers as documented, and
    however little memory there is: all accesses of [Initialize] are in order, and all
    of [Run] after a success, even when one of them waits for ever.  The controller is
    reset only when it has been seen halted, set up only when it has been seen ready
    after the reset, and told to interrupt and to run only when its slots, its context
    array, its command ring and its event ring are set. *)
Theorem start_in_order s r s1 :
  documented hw patience c ir hccp -> mon op ir (trace s) = Some Begin -> init s = (r, s1) ->
  mon op ir (trace s1) <> None
  /\ forall rings, r = Some (kSuccess, Some rings) -> mon op ir (trace (Run hw patience c s1).2) <> None.
Proof.
  intros Hdoc Hs E. destruct (init_accepted s r s1 Hdoc Hs E) as (st & Hst & Hr). split; [by rewrite Hst|].
  intros rings ->. destruct Hr as [_ Hr].
  pose proof (Run_triple hw patience memory_pool c ir hccp false 0 0 Hdoc ltac:(done) [] s1 st Hst ltac:(by split)) as H.
  destruct (Run hw patience c s1) as [[e|] s2].
  - destruct H as (st2 & E2 & _). cbn. by rewrite E2.
  - destruct H as (_ & st2 & E2). cbn. by rewrite E2.
Qed.

(** C21. The only error of [Initialize] is that there is not enough memory; and then the
    controller was not started: no command let it run or interrupt. *)
Theorem start_fails_safely s err s1 :
  documented hw patience c ir hccp -> mon op ir (trace s) = Some Begin -> init s = (Some (err, None), s1) ->
  err = kNoEnoughMemory
  /\ forall v, Wr (USBCMD op) v ∈ trace s1 -> host_controller_reset v = false ->
       run_stop v = false /\ interrupter_enable v = false.
Proof.
  intros Hdoc Hs E. destruct (init_accepted s _ s1 Hdoc Hs E) as (st & Hst & He & Hu). split; [done|].
  apply (not_started op ir _ st Hst). destruct Hu as [[-> | ->]|(l & -> & Hl)]; done.
Qed.

Lemma controller_runs n s :
  documented hw patience c ir hccp -> progress hw patience memory_pool c ir hccp n (io_alloc s) ->
  mon op ir (trace s) = Some Begin ->
  exists rings s1 s2, init s = (Some (kSuccess, Some rings), s1) /\ Run hw patience c s1 = (Some kSuccess, s2)
    /\ mon op ir (trace s2) = Some Running.
Proof.
  intros Hdoc Hpr Hs.
  pose proof (Initialize_triple hw patience memory_pool c ir hccp true n (io_alloc s) Hdoc (fun _ => Hpr) s Begin Hs) as H.
  assert (H0 := H ltac:(split; [by left|intros _; apply (pr_memory _ _ _ _ _ _ _ _ Hpr)])). clear H.
  destruct (init s) as [[[err [rings|]]|] s1]; [|by destruct H0 as (st & _ & ? & _)|by destruct H0].
  destruct H0 as (st & Hst & -> & Hr).
  pose proof (Run_triple hw patience memory_pool c ir hccp true n (io_alloc s) Hdoc (fun _ => Hpr) [] s1 st Hst) as H.
  assert (H1 := H ltac:(split; [done|intros _; by apply not_elem_of_nil])). clear H.
  destruct (Run hw patience c s1) as [[e|] s2] eqn:E; [|by destruct H1]. destruct H1 as (st2 & Hst2 & -> & ->).
  by exists rings, s1, s2.
Qed.

End theorems.

(** ** What the kernel does with an error

    It logs it and calls [Run] all the same: a controller that has not been set up is
    told to run. *)
Lemma poll_extends hw fuel a done s : exists t, trace (poll hw fuel a done s).2 = trace s ++ t.
Proof.
  revert s. induction fuel as [|fuel IH]; intros s; cbn [poll]; [exists []; by rewrite app_nil_r|].
  unfold mbind, IO_bind, Read. cbn beta iota zeta. destruct (done _); [by eexists|].
  destruct (IH (add_access (Rd a (hw (trace s) a mod 2 ^ 32)) s)) as [t E]. rewrite E. cbn. rewrite <- app_assoc. by eexists.
Qed.

Lemma run_after_failure hw patience c ir hccp s st :
  documented hw patience c ir hccp -> mon (op_ c) ir (trace s) = Some st -> unstarted c ir st ->
  mon (op_ c) ir (trace (Run hw patience c s).2) = None.
Proof.
  intros Hdoc Hs Hst. unfold Run, mbind, IO_bind, Read, Write, modify. cbn beta iota zeta.
  set (v := hw (trace s) (USBCMD (op_ c)) mod 2 ^ 32). set (s1 := add_access (Wr _ _) _).
  assert (H1 : mon (op_ c) ir (trace s1) = None).
  { cbn. rewrite !mon_snoc, Hs. cbn. unfold mon_write. rewrite Z.eqb_refl.
    assert (mon_read (op_ c) st (USBCMD (op_ c)) v = st) as ->.
    { destruct Hst as [[-> | ->]|(l & -> & _)]; unfold mon_read;
        (destruct (Z.eqb_spec (USBCMD (op_ c)) (USBSTS (op_ c))); [unfold USBCMD, USBSTS in *; lia|by rewrite Z.eqb_refl]). }
    unfold mon_command. assert (host_controller_reset (set_bit 0 true v) = false) as ->.
    { unfold host_controller_reset, set_bit. rewrite get_set_bit_other by lia. apply (doc_reset _ _ _ _ _ Hdoc).
      rewrite Hs. by destruct Hst as [[-> | ->]|(l & -> & _)]. }
    unfold run_stop. rewrite get_set_bit by lia. cbn [orb].
    by destruct Hst as [[-> | ->]|(l & -> & ->)]. }
  match goal with |- context [poll hw patience ?a ?d ?s2] => destruct (poll_extends hw patience a d s2) as [t Et];
    destruct (poll hw patience a d s2) as [[w|] s3] end;
    cbn in Et |- *; rewrite Et; do 2 (apply rejected_app; try exact H1).
Qed.

(** The field of the register for the context array has 26 bits, not 58: an address
    from 4 GiB on is cut. *)
Lemma DCBAAP_roundtrip p : 0 <= p < 2 ^ 64 -> (64 | p) -> DCBAAP_Pointer (DCBAAP_SetPointer 0 p) = p mod 2 ^ 32.
Proof.
  intros Hp [k ->]. unfold DCBAAP_Pointer, DCBAAP_SetPointer. rewrite Z.shiftr_div_pow2 by lia. change (2 ^ 6) with 64.
  rewrite Z.div_mul by lia. unfold u64.
  assert (get_field 6 26 (set_field 6 26 k 0) = k mod 2 ^ 26) as ->.
  { apply Z.bits_inj'. intros i Hi. rewrite get_field_bits, set_field_bits by lia.
    destruct (Z.ltb_spec i 26).
    - destruct (Z.leb_spec 6 (i + 6)), (Z.ltb_spec (i + 6) (6 + 26)); try lia. rewrite Z.mod_pow2_bits_low by lia.
      cbn. f_equal. lia.
    - by rewrite Z.mod_pow2_bits_high by lia. }
  rewrite Z.shiftl_mul_pow2 by lia. pose proof (Z.mod_pos_bound k (2 ^ 26) ltac:(lia)).
  rewrite Z.mod_small by lia. change (2 ^ 32) with (2 ^ 26 * 64). change (2 ^ 6) with 64.
  by rewrite Z.mul_mod_distr_r by lia.
Qed.

(** The event ring set up with these accesses is that of the ring component, with the
    registers as they were read. *)
Lemma EventRing_io_eq hw pool n ir s :
  match EventRing_Initialize_io hw pool n ir s with
  | (Some (err, Some e), s') =>
      exists v1 v2 v3, EventRing_Initialize pool (io_alloc s) n (mkIR v1 v3 v2) = (err, Some e, io_alloc s')
  | (Some (err, None), s') => exists r, EventRing_Initialize pool (io_alloc s) n r = (err, None, io_alloc s')
  | (None, _) => False
  end.
Proof.
  unfold EventRing_Initialize_io, EventRing_Initialize, Alloc, mbind, IO_bind.
  destruct (AllocMem pool (io_alloc s) _ 64 _) as [p al]. destruct (Z.eqb_spec p 0); [by exists (mkIR 0 0 0)|].
  cbn [set_alloc io_alloc]. destruct (AllocMem pool al _ 64 _) as [q al']. destruct (Z.eqb_spec q 0); [by exists (mkIR 0 0 0)|].
  cbn. do 3 eexists. unfold WriteDequeuePointer. cbn. reflexivity.
Qed.

(** ** An example: a controller that obeys at once, found running *)
Definition demo_c : Controller := mkController 0x1000 0x1040 4.
Definition demo_running (t : list access) : bool :=
  foldl (fun b x => match x with
                    | Wr a v => if a =? USBCMD 0x1040 then negb (host_controller_reset v) && run_stop v else b
                    | Rd _ _ => b
                    end) true t.
Definition demo_hw (t : list access) (a : Z) : Z :=
  if a =? USBCMD 0x1040 then Z.b2z (demo_running t)
  else if a =? USBSTS 0x1040 then Z.b2z (negb (demo_running t))
  else if a =? RTSOFF 0x1000 then 0x1000
  else if a =? CAPLENGTH 0x1000 then 0x40
  else if a =? HCSPARAMS1 0x1000 then Z.shiftl 4 24
  else 0.

Lemma demo_documented : documented demo_hw 1 demo_c 0x2020 0.
Proof.
  constructor; [done|cbn; lia|done| | |].
  - intros s reg s' [= <- <-]. split; [done|]. unfold set_up. cbn. rewrite !elem_of_cons, elem_of_nil. unfold IMAN, CONFIG, DCBAAP, CRCR, ERSTSZ_at, ERDP_at, ERSTBA_at. lia.
  - intros t _. unfold demo_hw. cbn [op_ demo_c]. rewrite Z.eqb_refl. by destruct (demo_running t).
  - intros t. unfold demo_hw. cbn [op_ demo_c]. rewrite Z.eqb_refl. change (USBSTS 0x1040 =? USBCMD 0x1040) with false.
    rewrite Z.eqb_refl. unfold demo_running. rewrite foldl_app. cbn [foldl]. by destruct (foldl _ _ _).
Qed.

Lemma demo_running_mon t : mon 0x1040 0x2020 t = Some Running -> demo_running t = true.
Proof.
  induction t as [|x t IH] using rev_ind; [done|]. rewrite mon_snoc. unfold demo_running. rewrite foldl_app.
  fold (demo_running t). cbn [foldl]. destruct (mon 0x1040 0x2020 t) as [st|]; [|done]. cbn [mon_step mbind option_bind].
  destruct x as [a v|a v].
  - intros [= E]. apply IH. f_equal. unfold mon_read in E. repeat case_match; congruence.
  - unfold mon_write, mon_command. intros E. repeat case_match; simplify_eq; try done.
Qed.

Lemma demo_progress : progress demo_hw 1 0x200000 demo_c 0x2020 0 0 0x200000.
Proof.
  constructor.
  - done.
  - intros s reg s1 t v [= <- <-]. done.
  - intros t v Hv. exists 0%nat. split; [lia|]. cbn [polled]. unfold demo_hw. cbn [op_ demo_c].
    change (USBSTS 0x1040 =? USBCMD 0x1040) with false. rewrite Z.eqb_refl. unfold demo_running. rewrite foldl_app. cbn [foldl].
    by rewrite Z.eqb_refl, Hv, andb_false_r.
  - intros t _. exists 0%nat. split; [lia|]. cbn [polled]. unfold demo_hw. cbn [op_ demo_c]. rewrite Z.eqb_refl. by destruct (demo_running t).
  - intros t _. exists 0%nat. split; [lia|]. cbn [polled]. unfold demo_hw. cbn [op_ demo_c].
    change (USBSTS 0x1040 =? USBCMD 0x1040) with false. rewrite Z.eqb_refl. by destruct (demo_running t).
  - intros t Ht. exists 0%nat. split; [lia|]. cbn [polled]. unfold demo_hw. cbn [op_ demo_c].
    change (USBSTS 0x1040 =? USBCMD 0x1040) with false. rewrite Z.eqb_refl. by rewrite (demo_running_mon t Ht).
  - done.
  - apply (bool_decide_eq_true_1 _). vm_compute. reflexivity.
Qed.

Definition demo_io (alloc : Z) : io := mkIO [] alloc [] [].


Lemma start_in_order_witness :
  let '(r, s1) := Controller_Initialize demo_hw 1 0x200000 demo_c (demo_io 0x200000) in
  mon 0x1040 0x2020 (trace s1) <> None /\ length (trace s1) = 27%nat.
Proof.
  destruct (Controller_Initialize demo_hw 1 0x200000 demo_c (demo_io 0x200000)) as [r s1] eqn:E. split.
  - apply (start_in_order demo_hw 1 0x200000 demo_c 0x2020 0 (demo_io 0x200000) r s1 demo_documented); [reflexivity|exact E].
  - apply (f_equal (fun x => length (trace x.2))) in E. vm_compute in E. symmetry. exact E.
Defined.

(** The pool is used up. *)
Lemma start_fails_safely_witness :
  exists s1, Controller_Initialize demo_hw 1 0x200000 demo_c (demo_io 0x600000) = (Some (kNoEnoughMemory, None), s1)
    /\ (kNoEnoughMemory = kNoEnoughMemory
        /\ forall v, Wr (USBCMD (op_ demo_c)) v ∈ trace s1 -> host_controller_reset v = false ->
             run_stop v = false /\ interrupter_enable v = false).
Proof.
  destruct (Controller_Initialize demo_hw 1 0x200000 demo_c (demo_io 0x600000)) as [r s1] eqn:E.
  exists s1. assert (r = Some (kNoEnoughMemory, None)) as -> by (by vm_compute in E; injection E as <- <-).
  split; [done|].
  apply (start_fails_safely demo_hw 1 0x200000 demo_c 0x2020 0 (demo_io 0x600000) kNoEnoughMemory s1 demo_documented);
    [reflexivity|exact E].
Defined.
