(* ===== verification/Main64.v ===== *)
(** * The 64-bit kernel, src/src/main.cpp

    What [KernelMainNewStack] puts together: it paints the desktop, looks for the USB
    host controller among the devices of the bus, configures its ports, and then serves
    the messages that its interrupts leave in the queue.  Interrupts, the controller and
    the loop are the steps of a state machine. *)
From Stdlib Require Import ZArith Lia.
From stdpp Require Import base option list gmap numbers.
From S2P Require Import Prelude Error Bits ArrayQueue Pci UsbMemory ArrayMap Ring Usb Trb XhciDevice Xhci Graphics64 Mouse64.

Set Default Proof Using "Type".

(** ** The desktop *)
Definition kDesktopBGColor : PixelColor := mkColor 45 118 237.

Section desktop.
Context {W : Type} `{!PixelWriter W}.

Definition paint_desktop (w : W) (kFrameWidth kFrameHeight : Z) : option W :=
  w ← FillRectangle w 0 0 kFrameWidth (kFrameHeight - 50) kDesktopBGColor;
  w ← FillRectangle w 0 (kFrameHeight - 50) kFrameWidth 50 (mkColor 1 8 17);
  w ← FillRectangle w 0 (kFrameHeight - 50) (Z.quot kFrameWidth 5) 50 (mkColor 80 80 80);
  DrawRectangle w 10 (kFrameHeight - 40) 30 30 (mkColor 160 160 160).

Definition MouseObserver (m : MouseCursor) (displacement_x displacement_y : Z) : option MouseCursor :=
  MoveRelative m displacement_x displacement_y.
End desktop.

(** ** The host controller on the bus *)
Definition vendor (d : Pci.Device) (s : pci) : Z * pci := ReadVendorId (dv_bus d) (dv_device d) (dv_function d) s.
Definition pci_devices (s : pci) : list Pci.Device := take (Z.to_nat (num_device s)) (devices s).

(** The first controller of Intel, or else the last one. *)
Fixpoint find_xhc (ds : list Pci.Device) (xhc_dev : option Pci.Device) (s : pci) : option Pci.Device * pci :=
  match ds with
  | [] => (xhc_dev, s)
  | d :: ds =>
      if Match3 (dv_class_code d) 0x0c 0x03 0x30 then
        let '(v, s) := vendor d s in
        if 0x8086 =? v then (Some d, s) else find_xhc ds (Some d) s
      else find_xhc ds xhc_dev s
  end.

Fixpoint intel_ehc_exist (ds : list Pci.Device) (s : pci) : bool * pci :=
  match ds with
  | [] => (false, s)
  | d :: ds =>
      if Match3 (dv_class_code d) 0x0c 0x03 0x20 then
        let '(v, s) := vendor d s in
        if 0x8086 =? v then (true, s) else intel_ehc_exist ds s
      else intel_ehc_exist ds s
  end.

Definition SwitchEhci2Xhci (hw : (Z -> Z) -> Z -> Z -> (Z -> Z)) (xhc_dev : Pci.Device) (s : pci) : pci :=
  let '(b, s) := intel_ehc_exist (pci_devices s) s in
  if negb b then s
  else
    let '(superspeed_ports, s) := ReadConfReg xhc_dev 0xdc s in
    let s := WriteConfReg hw xhc_dev 0xd8 superspeed_ports s in
    let '(ehci2xhci_ports, s) := ReadConfReg xhc_dev 0xd4 s in
    WriteConfReg hw xhc_dev 0xd0 ehci2xhci_ports s.

(** Of [ReadBar]; the lower four bits are flags. *)
Definition mmio_base_of (bar : Z) : Z := Z.land bar (u64 (Z.lnot 0xf)).

(** ** The ports and the events of the controller *)
Section kernel.
Context (hw : nat -> Z -> Z) (patience : nat) (max_ports : Z).
Context (memory_pool sizeof_Device ctx_offset input_offset buf_offset : Z).
Context (sizeof_keyboard sizeof_mouse hid_buf_offset keyboard_observer mouse_observer : Z).

(** From port [i] on, [n] ports; errors are logged. *)
Fixpoint configure_ports (n : nat) (i : Z) : M unit :=
  match n with
  | O => mret tt
  | S n =>
      _ ← IsConnected hw max_ports i;
      b ← IsConnected hw max_ports i;
      _ ← (if b : bool then ConfigurePort hw patience max_ports i else mret kSuccess);
      configure_ports n (i + 1)
  end.

Definition process : M Code :=
  ProcessEvent hw patience max_ports memory_pool sizeof_Device ctx_offset input_offset buf_offset
    sizeof_keyboard sizeof_mouse hid_buf_offset keyboard_observer mouse_observer.

(** The only message. *)
Inductive Message := kInterruptXHCI.

(** The registers of the local APIC, as the stores to them in order. *)
Definition NotifyEndOfInterrupt (apic : list (Z * Z)) : list (Z * Z) := apic ++ [(0xfee000b0, 0)].

Definition IntHandlerXHCI (q : ArrayQueue Message) (apic : list (Z * Z))
  : option (ArrayQueue Message * list (Z * Z)) :=
  '(_, q) ← ArrayQueue.Push q kInterruptXHCI; Some (q, NotifyEndOfInterrupt apic).

(** ** The machine

    The loop is either about to look at the queue or working on the events of a
    message; the controller writes events at its own position [k_pos] with its cycle
    bit [k_pcs] when the ring has room, and then has an interrupt to deliver.  [k_posted]
    and [k_done] record the events posted and processed. *)
Record kernel := mkKernel {
  k_queue : ArrayQueue Message;
  k_xhc : xhc;
  k_working : bool;
  k_pending : bool;
  k_pos : Z; k_pcs : bool;
  k_posted : list TRB; k_done : list TRB
}.

(** An event without its cycle bit, which depends on its place in the ring. *)
Definition event (t : TRB) : TRB := with_cycle t false.

Inductive kstep : kernel -> kernel -> Prop :=
| step_post k t e pos pcs :
    Z.of_nat (length (k_posted k)) - Z.of_nat (length (k_done k)) < ebuf_size_ (er_ (k_xhc k)) ->
    xhc_post (er_ (k_xhc k)) (k_pos k) (k_pcs k) t = Some (e, pos, pcs) ->
    kstep k (mkKernel (k_queue k) (set_er e (k_xhc k)) (k_working k) true pos pcs (k_posted k ++ [event t]) (k_done k))
| step_interrupt k q apic apic' :
    k_pending k = true -> IntHandlerXHCI (k_queue k) apic = Some (q, apic') ->
    kstep k (mkKernel q (k_xhc k) (k_working k) false (k_pos k) (k_pcs k) (k_posted k) (k_done k))
| step_hardware k s :
    er_ s = er_ (k_xhc k) ->
    kstep k (mkKernel (k_queue k) s (k_working k) (k_pending k) (k_pos k) (k_pcs k) (k_posted k) (k_done k))
| step_message k q :
    k_working k = false -> ArrayQueue.take_message (k_queue k) = Some (Some kInterruptXHCI, q) ->
    kstep k (mkKernel q (k_xhc k) true (k_pending k) (k_pos k) (k_pcs k) (k_posted k) (k_done k))
| step_event k t err s :
    k_working k = true -> HasFront (er_ (k_xhc k)) = Some true -> Front (er_ (k_xhc k)) = Some t ->
    process (k_xhc k) = Some (err, s) ->
    kstep k (mkKernel (k_queue k) s true (k_pending k) (k_pos k) (k_pcs k) (k_posted k) (k_done k ++ [event t]))
| step_end k :
    k_working k = true -> HasFront (er_ (k_xhc k)) = Some false ->
    kstep k (mkKernel (k_queue k) (k_xhc k) false (k_pending k) (k_pos k) (k_pcs k) (k_posted k) (k_done k)).
End kernel.
