(* ===== verification/MainSpec64.v ===== *)
(** * Correctness of the main loop of the 64-bit kernel

    Messages may be dropped when the queue is full; events are not: an event that was
    posted is processed, once and in its turn. *)
From Stdlib Require Import ZArith Lia.
From stdpp Require Import base option list gmap numbers.
From S2P Require Import Prelude Error Bits Fifo ArrayQueue Pci UsbMemory ArrayMap Ring.
From S2P Require Import Usb UsbSpec UsbProtocol Trb XhciDevice Xhci XhciSpec Graphics64 Mouse64 Main64.

(** ** The handlers and the event ring *)
Section handlers.
Context (hw : nat -> Z -> Z) (patience : nat) (max_ports : Z).
Context (memory_pool sizeof_Device ctx_offset input_offset buf_offset : Z).
Context (sizeof_keyboard sizeof_mouse hid_buf_offset keyboard_observer mouse_observer : Z).

Lemma er_get_phase p : keeps er_ (get_phase p).
Proof. unfold get_phase. eauto with keeps. Qed.
Lemma er_put_phase p ph : keeps er_ (put_phase p ph).
Proof. unfold put_phase. eauto 8 with keeps. Qed.
Lemma er_addressing p : keeps er_ (puts (set_addressing p)).
Proof. by apply keeps_puts. Qed.
Hint Resolve er_get_phase er_put_phase er_addressing : keeps.
Lemma er_ResetPort p : keeps er_ (ResetPort hw patience max_ports p).
Proof. unfold ResetPort. eauto 30 with keeps. Qed.
Hint Resolve er_ResetPort : keeps.
Lemma er_next_waiting n i : keeps er_ (next_waiting hw patience max_ports n i).
Proof. revert i. induction n as [|n IH]; intros i; cbn [next_waiting]; eauto 10 with keeps. Qed.
Hint Resolve er_next_waiting : keeps.
Lemma er_EnableSlot p : keeps er_ (EnableSlot hw max_ports p).
Proof. unfold EnableSlot. eauto 30 with keeps. Qed.
Lemma er_AddressDevice p slot :
  keeps er_ (AddressDevice hw max_ports memory_pool sizeof_Device ctx_offset input_offset buf_offset p slot).
Proof. unfold AddressDevice. eauto 40 with keeps. Qed.
Lemma er_InitializeDevice p slot : keeps er_ (InitializeDevice p slot).
Proof. unfold InitializeDevice. eauto 20 with keeps. Qed.
Lemma er_CompleteConfiguration p slot : keeps er_ (CompleteConfiguration p slot).
Proof. unfold CompleteConfiguration. eauto 20 with keeps. Qed.
Lemma er_ConfigureEndpoints slot : keeps er_ (ConfigureEndpoints hw max_ports memory_pool input_offset slot).
Proof. unfold ConfigureEndpoints. eauto 30 with keeps. Qed.
Hint Resolve er_EnableSlot er_AddressDevice er_InitializeDevice er_CompleteConfiguration er_ConfigureEndpoints : keeps.
Lemma er_OnPortStatusChange trb : keeps er_ (OnPortStatusChange hw patience max_ports trb).
Proof. unfold OnPortStatusChange. apply keeps_bind; [auto with keeps|]. intros []; auto with keeps. Qed.
Lemma er_OnTransfer trb :
  keeps er_ (OnTransfer hw max_ports memory_pool input_offset sizeof_keyboard sizeof_mouse hid_buf_offset
               keyboard_observer mouse_observer trb).
Proof. unfold OnTransfer. eauto 30 with keeps. Qed.
Lemma er_OnCommandCompletion trb :
  keeps er_ (OnCommandCompletion hw patience max_ports memory_pool sizeof_Device ctx_offset input_offset buf_offset trb).
Proof. unfold OnCommandCompletion. eauto 40 with keeps. Qed.
Hint Resolve er_OnPortStatusChange er_OnTransfer er_OnCommandCompletion : keeps.

(** Processing an event takes it off the ring and changes nothing else there. *)
Lemma process_pops s err s' :
  HasFront (er_ s) = Some true ->
  process hw patience max_ports memory_pool sizeof_Device ctx_offset input_offset buf_offset
    sizeof_keyboard sizeof_mouse hid_buf_offset keyboard_observer mouse_observer s = Some (err, s') ->
  er_ s' = Pop (er_ s).
Proof.
  intros Hf H. unfold process, ProcessEvent in H. run H as e s1 E. injection E as <- <-. run H as b s1 E.
  unfold lift in E. rewrite Hf in E. injection E as <- <-. cbn [negb] in H. run H as trb s1 E.
  apply keeps_lift with (f := er_) in E. run H as err1 s2 E2.
  assert (E3 : er_ s2 = er_ s1) by (revert E2; repeat case_match; intros E2;
    first [by eapply er_OnTransfer|by eapply er_OnPortStatusChange|by eapply er_OnCommandCompletion|by eapply keeps_ret]).
  run H as e s3 E4. injection E4 as <- <-. run H as u s3 E4. injection E4 as <- <-. injection H as <- <-. cbn. congruence.
Qed.
End handlers.

(** ** The machine *)
Section machine.
Context (hw : nat -> Z -> Z) (patience : nat) (max_ports : Z).
Context (memory_pool sizeof_Device ctx_offset input_offset buf_offset : Z).
Context (sizeof_keyboard sizeof_mouse hid_buf_offset keyboard_observer mouse_observer : Z).
Local Notation kstep := (kstep hw patience max_ports memory_pool sizeof_Device ctx_offset input_offset buf_offset
  sizeof_keyboard sizeof_mouse hid_buf_offset keyboard_observer mouse_observer).

(** At the start of the loop: a new event ring and a new queue of messages. *)
Record kstart (k : kernel) : Prop := {
  ks_ring : event_ok (er_ (k_xhc k)) 0 [];
  ks_queue : exists buf n, k_queue k = ArrayQueue_new buf n /\ 0 < n < 2 ^ 64 /\ n <= Z.of_nat (length buf);
  ks_rest : k_working k = false /\ k_pending k = false /\ k_pos k = 0 /\ k_pcs k = true /\ k_posted k = [] /\ k_done k = []
}.

Inductive kreach (k0 : kernel) : kernel -> Prop :=
| kreach_refl : kreach k0 k0
| kreach_step k k' : kreach k0 k -> kstep k k' -> kreach k0 k'.

(** The events [q] are in the ring and the messages [l] in the queue; as long as there
    is an event, something is on its way to fetch it. *)
Record kinv (F : Z) (q : list TRB) (l : list Message) (k : kernel) : Prop := {
  ki_ring : event_ok (er_ (k_xhc k)) F q;
  ki_queue : queue_repr (k_queue k) l;
  ki_pos : k_pos k = cell (ebuf_size_ (er_ (k_xhc k))) F (length q);
  ki_pcs : k_pcs k = phase (ebuf_size_ (er_ (k_xhc k))) F (length q);
  ki_log : k_posted k = k_done k ++ (event <$> q);
  ki_awake : q <> [] -> k_pending k = true \/ l <> [] \/ k_working k = true
}.

Lemma kinv_start k : kstart k -> kinv 0 [] [] k.
Proof.
  intros [Hr (buf & n & Eq & Hn & Hb) (Hw & Hp & Hpos & Hpcs & Hpo & Hd)].
  pose proof (co_pos _ _ _ _ (eo_cells _ _ _ Hr)) as HN.
  constructor; [done|rewrite Eq; by apply new_repr| | |by rewrite Hpo, Hd|done].
  - rewrite Hpos. unfold cell, ring_index. by rewrite Z.mod_0_l by lia.
  - rewrite Hpcs. unfold phase. by rewrite Z.div_0_l by lia.
Qed.

Lemma HasFront_ok e F q : event_ok e F q -> HasFront e = Some (match q with [] => false | _ => true end).
Proof.
  intros He. pose proof (take_ok e F q He) as H. unfold take_event in H. destruct q.
  - destruct (HasFront e) as [[]|]; [|done|done]. cbn in H. destruct (Front e); done.
  - destruct (HasFront e) as [[]|]; done.
Qed.

Lemma Front_ok e F t q : event_ok e F (t :: q) -> Front e = Some (with_cycle t (ecycle_bit_ e)).
Proof.
  intros He. pose proof (take_ok e F _ He) as H. unfold take_event in H. rewrite (HasFront_ok _ _ _ He) in H. cbn in H.
  destruct (Front e); [|done]. cbn in H. by injection H as <-.
Qed.

Lemma event_cycle t c : event (with_cycle t c) = event t.
Proof. apply with_cycle_twice. Qed.

Lemma handler_queue q l q' apic apic' :
  queue_repr q l -> IntHandlerXHCI q apic = Some (q', apic') -> exists l', queue_repr q' l' /\ l' <> [].
Proof.
  intros Hq H. unfold IntHandlerXHCI in H. pose proof Hq as [Hc _ Hn Hf _ _ _].
  destruct (decide (Z.of_nat (length l) = capacity_ q)) as [E|E].
  - rewrite (Push_full q l Hq _ E) in H. injection H as <- _. exists l. split; [done|]. intros ->. cbn in E. lia.
  - destruct (Push_room q l Hq kInterruptXHCI) as (q2 & E2 & _ & Hq2); [lia|]. rewrite E2 in H. injection H as <- _.
    eexists. split; [exact Hq2|]. by destruct l.
Qed.

Lemma kinv_step k k' F q l : kinv F q l k -> kstep k k' -> exists F' q' l', kinv F' q' l' k'.
Proof.
  intros [Hr Hq Hpos Hpcs Hlog Haw] Hs.
  destruct Hs as [k t e pos pcs Hroom Hp|k q1 apic apic' Hp Hh|k s Hh|k q1 Hw Ht|k t err s Hw Hf Ht Hp|k Hw Hf];
    cbn [k_xhc k_queue k_working k_pending k_pos k_pcs k_posted k_done] in *.
  - rewrite Hlog, length_app, length_fmap in Hroom.
    destruct (post_ok _ F q t Hr) as (e' & E & Hsz & Hr'); [lia|]. rewrite <- Hpos, <- Hpcs, Hp in E. injection E as -> -> ->.
    exists F, (q ++ [t]), l. constructor; cbn; rewrite ?Hsz; try done; [|by left].
    by rewrite Hlog, fmap_app, app_assoc.
  - destruct (handler_queue _ _ _ _ _ Hq Hh) as (l' & Hq' & Hl'). exists F, q, l'. constructor; try done. by right; left.
  - exists F, q, l. constructor; cbn; rewrite ?Hh; done.
  - destruct l as [|m l].
    { rewrite (take_empty _ _ Hq) in Ht; done. }
    destruct (take_front _ _ Hq m l) as (q2 & E2 & _ & Hq2); [done|]. rewrite E2 in Ht. simplify_eq.
    exists F, q, l. constructor; try done. by right; right.
  - rewrite (HasFront_ok _ _ _ Hr) in Hf. destruct q as [|t1 q]; [done|]. rewrite (Front_ok _ _ _ _ Hr) in Ht. injection Ht as <-.
    apply process_pops in Hp; [|by rewrite (HasFront_ok _ _ _ Hr)].
    destruct (pop_ok _ _ _ _ Hr) as [Hsz Hr']. exists (F + 1), q, l. constructor; cbn; rewrite ?Hp, ?Hsz; try done.
    + by rewrite Hpos, cell_shift.
    + by rewrite Hpcs, phase_shift.
    + rewrite Hlog, event_cycle. cbn. by rewrite <- app_assoc.
    + by right; right.
  - rewrite (HasFront_ok _ _ _ Hr) in Hf. destruct q as [|t1 q]; [|done]. by exists F, [], l.
Qed.

Lemma kreach_inv k0 k : kstart k0 -> kreach k0 k -> exists F q l, kinv F q l k.
Proof.
  intros H0 Hk. induction Hk as [|k k' _ (F & q & l & IH) Hs]; [eexists _, _, _; by apply kinv_start|]. by eapply kinv_step.
Qed.

(** C22. However the events of the controller, its interrupts and the main loop are
    interleaved, and although messages are dropped when the queue is full: the events
    processed are the first of those posted, in order and each once, and when the loop
    has come to rest - no message, no interrupt on its way - all of them were. *)
Theorem no_event_lost k0 k :
  kstart k0 -> kreach k0 k ->
  k_done k `prefix_of` k_posted k
  /\ (k_working k = false -> k_pending k = false -> IsEmpty (k_queue k) = true -> k_done k = k_posted k).
Proof.
  intros H0 Hk. destruct (kreach_inv k0 k H0 Hk) as (F & q & l & [Hr Hq _ _ Hlog Haw]). split; [by exists (event <$> q)|].
  intros Hw Hp He. destruct q as [|t q]; [by rewrite Hlog, app_nil_r|]. exfalso.
  unfold IsEmpty in He. rewrite (qr_count _ _ Hq) in He. destruct l; [|done].
  destruct Haw as [?|[?|?]]; congruence.
Qed.
End machine.

(** A port reports a change; the event is posted, its interrupt served, the event
    processed. *)
Definition demo_event : TRB := mkTRB 0x1000000 0 0 0x8800.
Definition demo_er : EventRing :=
  mkERing 0x2000 (replicate 2 TRB_zero) 2 0x3000 0x2000 2 true (mkIR 1 0x3000 0x2000).
Definition demo_kernel : kernel :=
  mkKernel (ArrayQueue_new [kInterruptXHCI; kInterruptXHCI] 2) (set_er demo_er xhc_start) false false 0 true [] [].

Lemma demo_kstart : kstart demo_kernel.
Proof.
  constructor; [|by exists [kInterruptXHCI; kInterruptXHCI], 2|done].
  by apply (EventRing_start 0x2000 2 0x3000 (mkIR 1 0x3000 0x2000)); [| |exists 0x200|reflexivity|].
Qed.

Lemma no_event_lost_witness :
  exists k, kreach (fun _ _ => 0) 1 4 0 0 0 0 0 0 0 0 0 0 demo_kernel k /\ k_posted k = [event demo_event] /\ k_done k = k_posted k.
Proof.
  eassert (Hk : kreach (fun _ _ => 0) 1 4 0 0 0 0 0 0 0 0 0 0 demo_kernel _).
  { eapply kreach_step; [eapply kreach_step; [eapply kreach_step; [eapply kreach_step; [eapply kreach_step; [apply kreach_refl|]|]|]|]|].
    - apply (step_post _ _ _ _ _ _ _ _ _ _ _ _ _ demo_kernel demo_event); [reflexivity|vm_compute; reflexivity].
    - eapply step_interrupt with (apic := []); [reflexivity|vm_compute; reflexivity].
    - apply step_message; [reflexivity|vm_compute; reflexivity].
    - eapply step_event; [reflexivity|vm_compute; reflexivity|vm_compute; reflexivity|vm_compute; reflexivity].
    - apply step_end; [reflexivity|vm_compute; reflexivity]. }
  eexists. split; [exact Hk|]. split; [vm_compute; reflexivity|].
  apply (no_event_lost _ _ _ _ _ _ _ _ _ _ _ _ _ _ _ demo_kstart Hk); vm_compute; reflexivity.
Defined.

(** ** The controller that is found *)
Definition is_xhc (d : Pci.Device) : bool := Match3 (dv_class_code d) 0x0c 0x03 0x30.
Definition is_intel (cf : Z -> Z) (d : Pci.Device) : bool :=
  0x8086 =? Z.land (cf (MakeAddress (dv_bus d) (dv_device d) (dv_function d) 0)) 0xffff.

(** The first controller of Intel when there is one, else the last controller; the
    registers are only read. *)
Lemma find_xhc_correct ds acc s :
  let '(r, s') := find_xhc ds acc s in
  conf s' = conf s
  /\ r = match head (filter (fun d => is_xhc d && is_intel (conf s) d) ds) with
         | Some d => Some d
         | None => match list.last (filter (fun d => is_xhc d) ds) with Some d => Some d | None => acc end
         end.
Proof.
  revert acc s. induction ds as [|d ds IH]; intros acc s; [done|]. cbn [find_xhc]. rewrite !filter_cons. fold (is_xhc d).
  destruct (is_xhc d) eqn:Ed; cbn [andb]; [|rewrite !decide_False by (intros []); apply IH].
  rewrite (decide_True (P := Is_true true)) by done. unfold vendor, ReadVendorId, read_reg, WriteAddress, ReadData.
  cbn [latch conf set_latch].
  destruct (is_intel (conf s) d) eqn:Ei; unfold is_intel in Ei; rewrite Ei.
  - by rewrite decide_True by done.
  - rewrite decide_False by (intros []). specialize (IH (Some d) (set_latch s (MakeAddress (dv_bus d) (dv_device d) (dv_function d) 0))).
    destruct (find_xhc _ _ _) as [r s']. destruct IH as [E1 E2]. split; [done|]. rewrite E2. cbn [conf set_latch].
    destruct (head _); [done|]. rewrite last_cons. by destruct (list.last _).
Qed.

(** ** From the reports of a mouse to the screen *)
Section pointer.
Context {W : Type} `{!PixelWriter W} (width height : Z).

(** What the kernel's observer [o] makes of what observers are told. *)
Fixpoint observe (o : Z) (m : MouseCursor) (ns : list note) : option MouseCursor :=
  match ns with
  | [] => Some m
  | MouseMove o' dx dy :: ns =>
      if o' =? o then m ← MouseObserver m dx dy; observe o m ns else observe o m ns
  | KeyPush _ _ :: ns => observe o m ns
  end.

Definition displacement (report : list Z) : Z * Z := (int8 (byte report 1), int8 (byte report 2)).

Lemma observe_moves o m prev reports :
  observe o m (all_notes HIDMouse [o] prev reports) = moves m (displacement <$> reports).
Proof.
  revert m prev. induction reports as [|r rs IH]; intros m prev; [done|]. cbn. rewrite Z.eqb_refl. unfold MouseObserver.
  destruct (MoveRelative m _ _) as [m'|]; [|done]. cbn [mbind option_bind]. apply IH.
Qed.

End pointer.

(** A screen that is a function, a mouse with one observer, and two reports. *)
Definition function_writer : PixelWriter (Z -> Z -> option PixelColor).
Proof.
  refine {| Write := fun w x y c => Some (fun x' y' => if (x' =? x) && (y' =? y) then Some c else w x' y');
            pixel := fun w => w; screen := fun _ _ _ => True |}.
  intros w width height x y c _ _ _. eexists. split; [reflexivity|]. done.
Defined.

Definition demo_mouse_hid : HIDDriver :=
  set_all (new_hid 64 1 2 HIDMouse (mkIf 0 1 3 1 2) 0x100000) [mkEP 3 kInterrupt 8 10].
Definition demo_mouse_usb : usb Z :=
  mkUsb (set_endpoints demo_dev (<[1%nat := 0x100000]> (replicate 16 0)) (ep_configs_ demo_dev) 1)
    {[0x100000 := demo_mouse_hid]} 0x101000 [] 0.
Definition demo_cursor : MouseCursor :=
  mkMouse (W := Z -> Z -> option PixelColor) (cursor_over 5 5 (fun _ _ => Some kDesktopBGColor)) kDesktopBGColor 5 5.

