(* ===== verification/Loader.v ===== *)
(** * The boot loader, UnagiLoaderPkg/efimain.c

    The loader is a UEFI application: it reads the kernel's ELF file, copies its
    segments to where they belong, sets the graphics mode, leaves the boot services and
    enters the kernel.  It acts on the machine only through calls of the firmware and
    through loads from memory, so it is a tree of such [action]s: the firmware, which is
    not part of the repository, is whatever answers them ([run]).  A tree may also end in
    [Spin], an endless loop of the code, or in [Enter], the call of the kernel's entry
    point, from which there is no return.  Texts are left out of [Print]. *)
From Stdlib Require Import ZArith Lia String.
From stdpp Require Import base option list numbers.
From S2P Require Import Prelude.

(** ** What is handed over, memory_map.hpp and frame_buffer_config.hpp *)
Record MemoryMap := mkMap {
  buffer_size : Z; buffer : Z; map_size : Z; map_key : Z; descriptor_size : Z; descriptor_version : Z }.

Inductive PixelFormat := kPixelRGBResv8BitPerColor | kPixelBGRResv8BitPerColor.

Record FrameBufferConfig := mkConfig {
  frame_buffer_base : Z; fb_pixels_per_scan_line : Z; fb_horizontal_resolution : Z; fb_vertical_resolution : Z;
  pixel_format : PixelFormat }.

(** ** The firmware's side

    What the loader reads of EFI_GRAPHICS_OUTPUT_PROTOCOL_MODE. *)
Record GOP_MODE := mkMode {
  MaxMode : Z; PixelFormat_ : Z; HorizontalResolution : Z; VerticalResolution : Z; PixelsPerScanLine : Z;
  FrameBufferBase : Z }.

Definition EFI_SUCCESS : Z := 0.
Definition EFI_INVALID_PARAMETER : Z := 2 ^ 63 + 2.
Definition EFI_UNSUPPORTED : Z := 2 ^ 63 + 3.
Definition EFI_BUFFER_TOO_SMALL : Z := 2 ^ 63 + 5.
Definition EFI_ERROR (status : Z) : bool := 2 ^ 63 <=? status.

Definition PixelRedGreenBlueReserved8BitPerColor : Z := 0.
Definition PixelBlueGreenRedReserved8BitPerColor : Z := 1.

Inductive AllocateType := AllocateAnyPages | AllocateMaxAddress | AllocateAddress.
Definition EfiLoaderData : Z := 2.
Definition EfiConventionalMemory : Z := 7.

Inductive guid := LoadedImageProtocol | SimpleFileSystemProtocol | GraphicsOutputProtocol.
Inductive file_name := memmap_name | kernel_elf_name.
Inductive open_mode := for_reading | for_creation.

(** Pointers that the firmware writes through are results of the action, apart from
    the buffers in memory; a null pointer for such a result is [None]. *)
Inductive action :=
  | OpenProtocol (handle : Z) (protocol : guid)
  | OpenVolume (fs : Z)
  | LocateHandleBuffer (protocol : guid)
  | DeviceHandle (loaded_image : Z)
  | FreePool (p : Z)
  | FileOpen (dir : Z) (name : file_name) (mode : open_mode)
  | FileWrite (file : Z) (bytes : list Z)
  | FileRead (file size addr : Z)
  | FileClose (file : Z)
  | GetFileInfo (file size : Z)
  | AllocatePages (type : AllocateType) (memory_type pages : Z) (addr : option Z)
  | FreePages (addr pages : Z)
  | SetMem (addr size value : Z)
  | CopyMem (dst src size : Z)
  | BsGetMemoryMap (size buf key dsize dversion : Z)
  | ExitBootServices (image key : Z)
  | GopMode (gop : Z)
  | QueryMode (gop mode : Z)
  | SetMode (gop mode : Z)
  | Print
  | Hlt
  | Load (bytes addr : Z).

Definition result (a : action) : Type :=
  match a with
  | OpenProtocol _ _ | OpenVolume _ | FileOpen _ _ _ => Z * Z  (* status, interface *)
  | LocateHandleBuffer _ => Z * Z * Z  (* status, number, buffer *)
  | FileRead _ _ _ => Z * Z  (* status, size *)
  | GetFileInfo _ _ => Z * Z  (* status, FileSize *)
  | AllocatePages _ _ _ _ => Z * Z  (* status, address *)
  | BsGetMemoryMap _ _ _ _ _ => Z * (Z * Z * Z * Z)  (* status; size, key, descriptor size and version *)
  | GopMode _ => GOP_MODE
  | FreePool _ | SetMem _ _ _ | CopyMem _ _ _ | Print | Hlt => unit
  | _ => Z
  end.

(** ** Programs *)
Inductive prog (A : Type) :=
  | Ret (x : A)
  | Spin
  | Enter (entry : Z) (fbc : FrameBufferConfig) (memmap : MemoryMap)
  | Act (a : action) (k : result a -> prog A).
Arguments Ret {A} x.
Arguments Spin {A}.
Arguments Enter {A} entry fbc memmap.
Arguments Act {A} a k.

Fixpoint prog_bind {A B} (p : prog A) (f : A -> prog B) : prog B :=
  match p with
  | Ret x => f x
  | Spin => Spin
  | Enter entry fbc memmap => Enter entry fbc memmap
  | Act a k => Act a (fun r => prog_bind (k r) f)
  end.
#[global] Instance prog_ret : MRet prog := fun A => Ret.
#[global] Instance prog_mbind : MBind prog := fun A B f p => prog_bind p f.

Definition act (a : action) : prog (result a) := Act a Ret.

(** ** Memory maps, GetMemoryMap and SaveMemoryMap *)
Definition GetMemoryMap (map : MemoryMap) : prog (Z * MemoryMap) :=
  if buffer map =? 0 then mret (EFI_BUFFER_TOO_SMALL, map)
  else
    let map := mkMap (buffer_size map) (buffer map) (buffer_size map) (map_key map) (descriptor_size map)
                 (descriptor_version map) in
    r ← act (BsGetMemoryMap (map_size map) (buffer map) (map_key map) (descriptor_size map) (descriptor_version map));
    let '(status, (size, key, dsize, dversion)) := r in
    mret (status, mkMap (buffer_size map) (buffer map) size key dsize dversion).

(** The names of the types of memory and of the pixel formats. *)
Definition GetMemoryTypeUnicode (type : Z) : string :=
  match type with
  | 0 => "EfiReservedMemoryType"
  | 1 => "EfiLoaderCode"
  | 2 => "EfiLoaderData"
  | 3 => "EfiBootServicesCode"
  | 4 => "EfiBootServicesData"
  | 5 => "EfiRuntimeServicesCode"
  | 6 => "EfiRuntimeServicesData"
  | 7 => "EfiConventionalMemory"
  | 8 => "EfiUnusableMemory"
  | 9 => "EfiACPIReclaimMemory"
  | 10 => "EfiACPIMemoryNVS"
  | 11 => "EfiMemoryMappedIO"
  | 12 => "EfiMemoryMappedIOPortSpace"
  | 13 => "EfiPalCode"
  | 14 => "EfiPersistentMemory"
  | 15 => "EfiMaxMemoryType"
  | _ => "InvalidMemoryType"
  end%string.

Definition GetPixelFormatUnicode (fmt : Z) : string :=
  match fmt with
  | 0 => "PixelRedGreenBlueReserved8BitPerColor"
  | 1 => "PixelBlueGreenRedReserved8BitPerColor"
  | 2 => "PixelBitMask"
  | 3 => "PixelBltOnly"
  | 4 => "PixelFormatMax"
  | _ => "InvalidPixelFormat"
  end%string.

Section loader.
(** [AsciiSPrint] makes a line of the fields of a descriptor, [header] is the first
    line; [memmap_buf] is the address of the buffer on the loader's stack. *)
Variable AsciiSPrint : Z -> Z -> string -> Z -> Z -> Z -> list Z.
Variable header : list Z.
Variable memmap_buf : Z.

(** The loop counts [i] in an [int] and [iter] in 64 bits; it needs a turn for each
    descriptor, and does not end when their size is 0. *)
Fixpoint save_loop (fuel : nat) (map : MemoryMap) (file iter i : Z) : prog unit :=
  match fuel with
  | O => Spin
  | S fuel =>
      if iter <? u64 (buffer map + map_size map) then
        type ← act (Load 4 iter);
        start ← act (Load 8 (iter + 8));
        pages ← act (Load 8 (iter + 24));
        attribute ← act (Load 8 (iter + 32));
        act (FileWrite file (AsciiSPrint i type (GetMemoryTypeUnicode type) start pages (Z.land attribute 0xfffff)));;
        save_loop fuel map file (u64 (iter + descriptor_size map)) (i + 1)
      else mret tt
  end.

Definition SaveMemoryMap (map : MemoryMap) (file : Z) : prog Z :=
  act (FileWrite file header);;
  save_loop (S (Z.to_nat (map_size map))) map file (buffer map) 0;;
  mret EFI_SUCCESS.

(** ** Files and graphics *)
Definition OpenRootDir (image_handle : Z) : prog (Z * Z) :=
  r ← act (OpenProtocol image_handle LoadedImageProtocol);
  device ← act (DeviceHandle r.2);
  r ← act (OpenProtocol device SimpleFileSystemProtocol);
  r ← act (OpenVolume r.2);
  mret (EFI_SUCCESS, r.2).

Definition OpenGOP (image_handle : Z) : prog (Z * Z) :=
  r ← act (LocateHandleBuffer GraphicsOutputProtocol);
  let '(_, _, gop_handles) := r in
  handle ← act (Load 8 gop_handles);
  r ← act (OpenProtocol handle GraphicsOutputProtocol);
  act (FreePool gop_handles);;
  mret (EFI_SUCCESS, r.2).

(** The modes are only queried.  [gopModeInfo] is a null pointer when it is given to
    [AllocatePages] as the place for the address and to [SetMem]. *)
Fixpoint query_loop (fuel : nat) (gop modeNum : Z) : prog unit :=
  match fuel with
  | O => Spin
  | S fuel =>
      mode ← act (GopMode gop);
      if modeNum <? u32 (MaxMode mode) then
        act (QueryMode gop modeNum);;
        query_loop fuel gop (modeNum + 1)
      else mret tt
  end.

(** One turn for each of at most [max_modes] modes. *)
Variable max_modes : nat.

Definition sizeof_MODE_INFORMATION : Z := 36.
Definition gopQueryAndSet (gop : Z) : prog Z :=
  act (AllocatePages AllocateAnyPages EfiConventionalMemory ((sizeof_MODE_INFORMATION + 0xfff) / 0x1000) None);;
  act (SetMem 0 ((sizeof_MODE_INFORMATION + 0xfff) / 0x1000 * 0x1000) 0);;
  query_loop (S max_modes) gop 0;;
  act (SetMode gop 17).

Definition SetKernelFrameBufferConfig (fbc : option FrameBufferConfig) (m : option GOP_MODE) :
    Z * option FrameBufferConfig :=
  match fbc, m with
  | Some c, Some m =>
      let set pf :=
        (EFI_SUCCESS, Some (mkConfig (FrameBufferBase m) (PixelsPerScanLine m) (HorizontalResolution m)
                              (VerticalResolution m) pf)) in
      if PixelFormat_ m =? PixelRedGreenBlueReserved8BitPerColor then set kPixelRGBResv8BitPerColor
      else if PixelFormat_ m =? PixelBlueGreenRedReserved8BitPerColor then set kPixelBGRResv8BitPerColor
      else (EFI_UNSUPPORTED, fbc)
  | _, _ => (EFI_INVALID_PARAMETER, fbc)
  end.

(** ** The ELF file, elf.hpp *)
Definition e_entry (h : Z) : prog Z := act (Load 8 (u64 (h + 0x18))).
Definition e_phoff (h : Z) : prog Z := act (Load 8 (u64 (h + 0x20))).
Definition e_phnum (h : Z) : prog Z := n ← act (Load 2 (u64 (h + 0x38))); mret (u16 n).

(** Entry [i] of the table of program headers. *)
Definition phdr (ph i : Z) : Z := u64 (ph + 56 * i).
Definition p_type (p : Z) : prog Z := act (Load 4 p).
Definition p_offset (p : Z) : prog Z := act (Load 8 (u64 (p + 8))).
Definition p_vaddr (p : Z) : prog Z := act (Load 8 (u64 (p + 16))).
Definition p_filesz (p : Z) : prog Z := act (Load 8 (u64 (p + 32))).
Definition p_memsz (p : Z) : prog Z := act (Load 8 (u64 (p + 40))).
Definition ELFFLAGS_PGN_PT_LOAD : Z := 1.

(** [e_phnum] has 16 bits, so that 65536 turns are enough. *)
Definition phdr_fuel : nat := Z.to_nat 65536.
Definition MAX_UINT64 : Z := 2 ^ 64 - 1.

Fixpoint range_loop (fuel : nat) (ehdr ph i first last : Z) : prog (Z * Z) :=
  match fuel with
  | O => Spin
  | S fuel =>
      n ← e_phnum ehdr;
      if i <? n then
        type ← p_type (phdr ph i);
        if negb (type =? ELFFLAGS_PGN_PT_LOAD) then range_loop fuel ehdr ph (i + 1) first last
        else
          vaddr ← p_vaddr (phdr ph i);
          memsz ← p_memsz (phdr ph i);
          range_loop fuel ehdr ph (i + 1) (Z.min first vaddr) (Z.max last (u64 (vaddr + memsz)))
      else mret (first, last)
  end.

Definition CalcLoadAddressRange (ehdr : Z) : prog (Z * Z) :=
  phoff ← e_phoff ehdr;
  range_loop (S phdr_fuel) ehdr (u64 (ehdr + phoff)) 0 MAX_UINT64 0.

Fixpoint copy_loop (fuel : nat) (h ph i : Z) : prog unit :=
  match fuel with
  | O => Spin
  | S fuel =>
      n ← e_phnum h;
      if i <? n then
        type ← p_type (phdr ph i);
        if negb (type =? ELFFLAGS_PGN_PT_LOAD) then copy_loop fuel h ph (i + 1)
        else
          offset ← p_offset (phdr ph i);
          vaddr ← p_vaddr (phdr ph i);
          filesz ← p_filesz (phdr ph i);
          act (CopyMem vaddr (u64 (h + offset)) filesz);;
          memsz ← p_memsz (phdr ph i);
          filesz ← p_filesz (phdr ph i);
          let remain_bytes := u64 (memsz - filesz) in
          vaddr ← p_vaddr (phdr ph i);
          filesz ← p_filesz (phdr ph i);
          act (SetMem (u64 (vaddr + filesz)) remain_bytes 0);;
          copy_loop fuel h ph (i + 1)
      else mret tt
  end.

Definition CopyLoadSegments (h : Z) : prog unit :=
  phoff ← e_phoff h;
  copy_loop (S phdr_fuel) h (u64 (h + phoff)) 0.

(** ** UefiMain

    [hlt] waits for an interrupt, and goes on after it. *)
Definition stop_on (status : Z) : prog unit :=
  if EFI_ERROR status then act Print;; act Hlt;; mret tt else mret tt.

(** The first part, up to the call of [OpenGOP]: the memory map is saved. *)
Definition save_map (image_handle : Z) : prog (MemoryMap * Z * Z) :=
  let memmap := mkMap (4096 * 16) memmap_buf 0 0 0 0 in
  r ← GetMemoryMap memmap;
  let memmap := r.2 in
  r ← OpenRootDir image_handle;
  let root_dir := r.2 in
  r ← act (FileOpen root_dir memmap_name for_creation);
  let '(status, memmap_file) := r in
  stop_on status;;
  SaveMemoryMap memmap memmap_file;;
  act (FileClose memmap_file);;
  mret (memmap, root_dir, status).

(** The file is read to fresh pages.  The [status] that is looked at after the file is
    opened is that of the file before. *)
Definition sizeof_FILE_INFO : Z := 80.
Definition read_kernel (root_dir status : Z) : prog (Z * Z) :=
  r ← act (FileOpen root_dir kernel_elf_name for_reading);
  let kernel_file := r.2 in
  stop_on status;;
  r ← act (GetFileInfo kernel_file (sizeof_FILE_INFO + 2 * 12));
  let kernel_file_size := r.2 in
  let raw_elf_page_num := u64 (kernel_file_size + 0xfff) / 0x1000 in
  r ← act (AllocatePages AllocateAnyPages EfiLoaderData raw_elf_page_num (Some 0));
  let raw_elf_addr := r.2 in
  act (SetMem raw_elf_addr (u64 (raw_elf_page_num * 0x1000)) 0);;
  r ← act (FileRead kernel_file kernel_file_size raw_elf_addr);
  stop_on r.1;;
  act (FileClose kernel_file);;
  act Print;;
  mret (raw_elf_addr, raw_elf_page_num).

(** The segments are copied to pages allocated where they belong. *)
Definition load_kernel (raw_elf_addr raw_elf_page_num : Z) : prog Z :=
  entry ← e_entry raw_elf_addr;
  r ← CalcLoadAddressRange raw_elf_addr;
  let '(first, last) := r in
  let kElf64LoadStartAddr := Z.shiftl (Z.shiftr first 12) 12 in
  let num_pages := u64 (last - kElf64LoadStartAddr + 0xfff) / 0x1000 in
  r ← act (AllocatePages AllocateAddress EfiLoaderData num_pages (Some kElf64LoadStartAddr));
  stop_on r.1;;
  CopyLoadSegments raw_elf_addr;;
  act Print;;
  act Print;;
  status ← act (FreePages raw_elf_addr raw_elf_page_num);
  stop_on status;;
  mret entry.

(** [frameBufferConfig] is a global that starts as zeros. *)
Definition frameBufferConfig_zero : FrameBufferConfig := mkConfig 0 0 0 0 kPixelRGBResv8BitPerColor.

Definition set_graphics (gop : Z) : prog FrameBufferConfig :=
  gopQueryAndSet gop;;
  mode ← act (GopMode gop);
  let '(status, fbc) := SetKernelFrameBufferConfig (Some frameBufferConfig_zero) (Some mode) in
  (if EFI_ERROR status then act Print;; act (SetMode gop 1);; act Hlt;; mret tt else mret tt);;
  act Print;;
  mret (default frameBufferConfig_zero fbc).

(** A second attempt to leave the boot services is made with a new memory map. *)
Definition exit_services (image_handle : Z) (memmap : MemoryMap) : prog MemoryMap :=
  status ← act (ExitBootServices image_handle (map_key memmap));
  if EFI_ERROR status then
    r ← GetMemoryMap memmap;
    let '(status, memmap) := r in
    if EFI_ERROR status then act Print;; Spin
    else
      status ← act (ExitBootServices image_handle (map_key memmap));
      if EFI_ERROR status then act Print;; Spin else mret memmap
  else mret memmap.

Definition UefiMain (image_handle : Z) : prog Z :=
  r ← save_map image_handle;
  let '(memmap, root_dir, status) := r in
  r ← OpenGOP image_handle;
  let gop := r.2 in
  r ← read_kernel root_dir status;
  let '(raw_elf_addr, raw_elf_page_num) := r in
  entry ← load_kernel raw_elf_addr raw_elf_page_num;
  fbc ← set_graphics gop;
  memmap ← exit_services image_handle memmap;
  Enter entry fbc memmap.
End loader.

(** ** The machine

    A firmware answers each action, and changes its state; [run] is how the loader runs
    on it, with the actions made and their results. *)
Definition call : Type := { a : action & result a }.
Definition Called (a : action) (r : result a) : call := existT a r.

Inductive outcome (A : Type) :=
  | Returned (x : A)
  | Spinning
  | Entered (entry : Z) (fbc : FrameBufferConfig) (memmap : MemoryMap).
Arguments Returned {A} x.
Arguments Spinning {A}.
Arguments Entered {A} entry fbc memmap.

Fixpoint run {F A} (fw : forall a, F -> result a * F) (p : prog A) (f : F) : outcome A * F * list call :=
  match p with
  | Ret x => (Returned x, f, [])
  | Spin => (Spinning, f, [])
  | Enter entry fbc memmap => (Entered entry fbc memmap, f, [])
  | Act a k =>
      let '(x, f', t) := run fw (k (fw a f).1) (fw a f).2 in
      (x, f', Called a (fw a f).1 :: t)
  end.
