(* ===== verification/LoaderSpec.v ===== *)
(** * The boot loader against any firmware: how the boot services are left *)
From Stdlib Require Import ZArith Lia String.
From stdpp Require Import base option list numbers.
From S2P Require Import Prelude Loader.

Set Default Proof Using "Type".

#[local] Opaque phdr_fuel.

(** A monitor of the calls: up to the first attempt to leave the boot services everything
    but the entry is allowed.  Then only the memory map may be asked for, and the next
    attempt has to be made with the key of the last map that was got. *)
Inductive stage := Services | Leaving (key : option Z) | Left_ (key : Z) | GaveUp.

Definition left_or (key : Z) (status : Z) : stage := if EFI_ERROR status then Leaving None else Left_ key.

Definition mon_step (st : stage) (c : call) : option stage :=
  match st, c with
  | Services, existT (ExitBootServices _ key) status => Some (left_or key status)
  | Services, _ => Some Services
  | Leaving _, existT (BsGetMemoryMap _ _ _ _ _) r =>
      Some (if EFI_ERROR r.1 then Leaving None else Leaving (Some r.2.1.1.2))
  | Leaving (Some key'), existT (ExitBootServices _ key) status =>
      if key =? key' then Some (left_or key status) else None
  | Leaving None, existT Print _ => Some GaveUp
  | _, _ => None
  end.

Fixpoint mon (st : stage) (t : list call) : option stage :=
  match t with
  | [] => Some st
  | c :: t => match mon_step st c with Some st => mon st t | None => None end
  end.

Lemma mon_app st t u : mon st (t ++ u) = match mon st t with Some st => mon st u | None => None end.
Proof. revert st. induction t as [|c t IH]; intros st; [done|]. cbn. by destruct (mon_step st c). Qed.

(** A tree is safe when the monitor accepts its actions whatever their results are,
    and when it enters the kernel only after it has left with the key of the map that is
    handed over. *)
Fixpoint safe {A} (st : stage) (p : prog A) (Q : stage -> A -> Prop) : Prop :=
  match p with
  | Ret x => Q st x
  | Spin => True
  | Enter _ _ memmap => st = Left_ (map_key memmap)
  | Act a k => forall r, exists st', mon_step st (Called a r) = Some st' /\ safe st' (k r) Q
  end.

Lemma safe_bind {A B} st (p : prog A) (k : A -> prog B) Q R :
  safe st p Q -> (forall st' x, Q st' x -> safe st' (k x) R) -> safe st (p ≫= k) R.
Proof.
  intros Hp Hk. change (safe st (prog_bind p k) R). revert st Hp. induction p as [x| |e c m|a kp IH]; intros st Hp.
  - by apply Hk.
  - done.
  - done.
  - cbn [prog_bind]. intros r. destruct (Hp r) as (st' & E & Hr). exists st'. split; [done|]. by apply IH.
Qed.

Lemma safe_run {F A} (fw : forall a, F -> result a * F) (p : prog A) f st Q :
  safe st p Q ->
  exists st', mon st (run fw p f).2 = Some st'
    /\ (forall x, (run fw p f).1.1 = Returned x -> Q st' x)
    /\ (forall e c m, (run fw p f).1.1 = Entered e c m -> st' = Left_ (map_key m)).
Proof.
  revert f st. induction p as [x| |e c m|a k IH]; intros f st Hs.
  - exists st. cbn. split_and!; [done| |done]. by intros y [= <-].
  - exists st. done.
  - exists st. cbn. split_and!; [done|done|]. intros ??? [= _ _ <-]. exact Hs.
  - destruct (Hs (fw a f).1) as (st1 & E & Hk). destruct (IH (fw a f).1 (fw a f).2 st1 Hk) as (st' & Hm & Hr).
    exists st'. cbn [run]. destruct (run fw (k (fw a f).1) (fw a f).2) as [[x f'] t]. cbn [fst snd mon] in *.
    by rewrite E.
Qed.

(** Programs that neither leave the boot services nor enter the kernel. *)
Definition no_exit (a : action) : bool := match a with ExitBootServices _ _ => false | _ => true end.

Fixpoint plain {A} (p : prog A) : Prop :=
  match p with
  | Ret _ | Spin => True
  | Enter _ _ _ => False
  | Act a k => no_exit a = true /\ forall r, plain (k r)
  end.

Lemma plain_safe {A} (p : prog A) : plain p -> safe Services p (fun st _ => st = Services).
Proof.
  induction p as [x| |e c m|a k IH]; [done|done|done|]. intros [Ha Hk] r. exists Services.
  split; [by destruct a|]. by apply IH.
Qed.

Lemma plain_bind {A B} (p : prog A) (k : A -> prog B) : plain p -> (forall x, plain (k x)) -> plain (p ≫= k).
Proof.
  intros Hp Hk. change (plain (prog_bind p k)). induction p as [x| |e c m|a kp IH]; [apply Hk|done|done|].
  destruct Hp as [Ha Hp]. split; [done|]. intros r. by apply IH.
Qed.

Lemma plain_act a : no_exit a = true -> plain (act a).
Proof. by intros. Qed.

(** Steps through a program until a loop or a case is left. *)
Ltac plain_steps :=
  repeat first
    [ done
    | apply plain_bind; [|intros ?]
    | apply plain_act; reflexivity
    | case_match ].

Section any_firmware.
Context (AsciiSPrint : Z -> Z -> string -> Z -> Z -> Z -> list Z) (header : list Z) (memmap_buf : Z) (max_modes : nat).

Lemma GetMemoryMap_plain map : plain (GetMemoryMap map).
Proof. unfold GetMemoryMap. plain_steps. Qed.

Lemma save_loop_plain fuel map file iter i : plain (save_loop AsciiSPrint fuel map file iter i).
Proof. revert iter i. induction fuel as [|fuel IH]; intros iter i; [done|]. cbn [save_loop]. plain_steps; apply IH. Qed.

Lemma query_loop_plain fuel gop n : plain (query_loop fuel gop n).
Proof. revert n. induction fuel as [|fuel IH]; intros n; [done|]. cbn [query_loop]. plain_steps; apply IH. Qed.

Lemma range_loop_plain fuel h ph i a b : plain (range_loop fuel h ph i a b).
Proof.
  revert i a b. induction fuel as [|fuel IH]; intros i a b; [done|]. cbn [range_loop].
  unfold e_phnum, p_type, p_vaddr, p_memsz. plain_steps; apply IH.
Qed.

Lemma copy_loop_plain fuel h ph i : plain (copy_loop fuel h ph i).
Proof.
  revert i. induction fuel as [|fuel IH]; intros i; [done|]. cbn [copy_loop].
  unfold e_phnum, p_type, p_vaddr, p_memsz, p_offset, p_filesz. plain_steps; apply IH.
Qed.

Lemma stop_on_plain status : plain (stop_on status).
Proof. unfold stop_on. plain_steps. Qed.

Lemma save_map_plain image : plain (save_map AsciiSPrint header memmap_buf image).
Proof.
  unfold save_map, OpenRootDir, SaveMemoryMap. plain_steps; eauto using GetMemoryMap_plain, save_loop_plain, stop_on_plain.
Qed.

Lemma read_kernel_plain dir status : plain (read_kernel dir status).
Proof. unfold read_kernel. plain_steps; apply stop_on_plain. Qed.

Lemma CalcLoadAddressRange_plain h : plain (CalcLoadAddressRange h).
Proof. apply plain_bind; [done|]. intros x. apply range_loop_plain. Qed.

Lemma CopyLoadSegments_plain h : plain (CopyLoadSegments h).
Proof. apply plain_bind; [done|]. intros x. apply copy_loop_plain. Qed.

Lemma load_kernel_plain raw n : plain (load_kernel raw n).
Proof.
  unfold load_kernel. apply plain_bind; [done|intros entry].
  apply plain_bind; [apply CalcLoadAddressRange_plain|intros [first last]].
  apply plain_bind; [done|intros r]. apply plain_bind; [apply stop_on_plain|intros _].
  apply plain_bind; [apply CopyLoadSegments_plain|intros _]. plain_steps. apply stop_on_plain.
Qed.

Lemma set_graphics_plain gop : plain (set_graphics max_modes gop).
Proof. unfold set_graphics, gopQueryAndSet. plain_steps; apply query_loop_plain. Qed.

Lemma exit_services_safe image map :
  safe Services (exit_services image map) (fun st map' => st = Left_ (map_key map')).
Proof.
  unfold exit_services, GetMemoryMap. intros status. eexists. split; [reflexivity|]. unfold left_or. cbn.
  destruct (EFI_ERROR status); [|done]. destruct (buffer map =? 0); cbn.
  - intros []. eexists. split; [reflexivity|done].
  - intros [status' [[[size key] dsize] dversion]]. eexists. split; [reflexivity|]. cbn.
    destruct (EFI_ERROR status') eqn:E; cbn; [intros []; eexists; split; [reflexivity|done]|].
    intros status2. cbn in status2. rewrite Z.eqb_refl. eexists. split; [reflexivity|]. unfold left_or. cbn.
    destruct (EFI_ERROR status2); [|done]. intros []. by eexists.
Qed.

Lemma UefiMain_safe image :
  safe Services (UefiMain AsciiSPrint header memmap_buf max_modes image) (fun _ _ => False).
Proof.
  unfold UefiMain.
  apply (safe_bind _ _ _ _ _ (plain_safe _ (save_map_plain image))). intros st [[memmap dir] status] ->.
  assert (Hg : plain (OpenGOP image)) by (unfold OpenGOP; plain_steps).
  apply (safe_bind _ _ _ _ _ (plain_safe _ Hg)). intros st r ->.
  apply (safe_bind _ _ _ _ _ (plain_safe _ (read_kernel_plain dir status))). intros st [raw n] ->.
  apply (safe_bind _ _ _ _ _ (plain_safe _ (load_kernel_plain raw n))). intros st entry ->.
  apply (safe_bind _ _ _ _ _ (plain_safe _ (set_graphics_plain _))). intros st fbc ->.
  apply (safe_bind _ _ _ _ _ (exit_services_safe image memmap)). by intros st map ->.
Qed.

(** ** What the monitor says of a trace *)
Definition exits (c : call) : bool := match c with existT (ExitBootServices _ _) _ => true | _ => false end.
Definition exits_well (c : call) : bool :=
  match c with existT (ExitBootServices _ _) status => negb (EFI_ERROR status) | _ => false end.

Lemma boot_mon_snoc st t c : mon st (t ++ [c]) = mon st t ≫= fun st => mon_step st c.
Proof. rewrite mon_app. destruct (mon st t) as [st'|]; [|done]. cbn. by destruct (mon_step st' c). Qed.

Lemma mon_no_exit t st : mon Services t = Some st -> (forall k, st <> Left_ k) -> Forall (fun c => exits_well c = false) t.
Proof.
  revert st. induction t as [|c t IH] using rev_ind; intros st Hm Hst; [done|]. rewrite boot_mon_snoc in Hm.
  destruct (mon Services t) as [st'|] eqn:E; [|done]. cbn in Hm. apply Forall_app. split.
  - apply (IH st'); [done|]. intros k ->. by destruct c as [[] ?].
  - constructor; [|done]. destruct c as [a r]. destruct a; try done. cbn in *. unfold left_or in Hm.
    destruct (EFI_ERROR r) eqn:Er; [done|]. exfalso.
    destruct st' as [|[key'|]| |]; try done; cbn in Hm; unfold left_or in Hm; rewrite Er in Hm;
      [|destruct (key =? key'); [|done]]; injection Hm as <-; by apply (Hst key).
Qed.

Lemma mon_services t : mon Services t = Some Services -> Forall (fun c => exits c = false) t.
Proof.
  induction t as [|c t IH] using rev_ind; intros Hm; [done|]. rewrite boot_mon_snoc in Hm.
  destruct (mon Services t) as [st'|] eqn:E; [|done]. cbn in Hm.
  destruct st' as [|[key'|]| |]; destruct c as [a r]; destruct a; try done; cbn in Hm; unfold left_or in Hm;
    try (apply Forall_app; split; [by apply IH|by constructor]); repeat case_match; done.
Qed.

Lemma mon_leaving t key :
  mon Services t = Some (Leaving (Some key)) ->
  exists t1 s b k d v size dsize dversion status,
    t = t1 ++ [Called (BsGetMemoryMap s b k d v) (status, (size, key, dsize, dversion))] /\ EFI_ERROR status = false.
Proof.
  destruct t as [|c t _] using rev_ind; intros Hm; [done|]. rewrite boot_mon_snoc in Hm.
  destruct (mon Services t) as [st'|] eqn:E; [|done]. cbn in Hm.
  destruct st' as [|[key'|]| |]; destruct c as [a r]; destruct a; try done; cbn in Hm; unfold left_or in Hm;
    try (repeat case_match; done);
    (destruct r as [status [[[s' k'] d'] v']]; cbn in Hm; destruct (EFI_ERROR status) eqn:Er; [done|];
     injection Hm as <-; do 10 eexists; split; [reflexivity|done]).
Qed.

Lemma mon_left t k :
  mon Services t = Some (Left_ k) ->
  exists t0 image status,
    t = t0 ++ [Called (ExitBootServices image k) status] /\ EFI_ERROR status = false
    /\ Forall (fun c => exits_well c = false) t0
    /\ (Forall (fun c => exits c = false) t0 \/ mon Services t0 = Some (Leaving (Some k))).
Proof.
  destruct t as [|c t _] using rev_ind; intros Hm; [done|]. rewrite boot_mon_snoc in Hm.
  destruct (mon Services t) as [st'|] eqn:E; [|done]. cbn in Hm.
  destruct st' as [|[key'|]| |]; destruct c as [a r]; destruct a; try done; cbn in Hm; unfold left_or in Hm.
  - destruct (EFI_ERROR r) eqn:Er; [done|]. injection Hm as <-. exists t, image, r.
    split_and!; [done|done|by apply (mon_no_exit _ _ E)|left; by apply mon_services].
  - by destruct (EFI_ERROR _).
  - destruct (Z.eqb_spec key key') as [->|]; [|done]. destruct (EFI_ERROR r) eqn:Er; [done|]. injection Hm as <-.
    exists t, image, r. split_and!; [done|done|by apply (mon_no_exit _ _ E)|by right].
  - by destruct (EFI_ERROR _).
Qed.

(** C15. Whatever the firmware does: the loader never returns, and the kernel is entered
    only right after a call that left the boot services with success - the only such call
    - with the key of the map that the kernel is given.  Either this was the first attempt
    to leave, or the map was got anew immediately before. *)
Theorem handover_safe {F} (fw : forall a, F -> result a * F) (f : F) image :
  let '(o, _, t) := run fw (UefiMain AsciiSPrint header memmap_buf max_modes image) f in
  (forall x, o <> Returned x)
  /\ forall entry fbc memmap, o = Entered entry fbc memmap ->
       exists t0 image' status,
         t = t0 ++ [Called (ExitBootServices image' (map_key memmap)) status] /\ EFI_ERROR status = false
         /\ Forall (fun c => exits_well c = false) t0
         /\ (Forall (fun c => exits c = false) t0
             \/ exists t1 s b k d v size dsize dversion status',
                  t0 = t1 ++ [Called (BsGetMemoryMap s b k d v) (status', (size, map_key memmap, dsize, dversion))]
                  /\ EFI_ERROR status' = false).
Proof.
  destruct (safe_run fw _ f _ _ (UefiMain_safe image)) as (st & Hm & Hr & He).
  destruct (run fw _ f) as [[o f'] t]. cbn in *. split; [intros x Hx; exact (Hr x Hx)|].
  intros e c m ->. specialize (He e c m eq_refl) as ->.
  destruct (mon_left _ _ Hm) as (t0 & image' & status & -> & Hs & Hw & Ht0). exists t0, image', status.
  split_and!; [done|done|done|]. destruct Ht0 as [|Hl]; [by left|right]. by apply mon_leaving.
Qed.
End any_firmware.

(** A firmware that always succeeds, with zeros everywhere and a key of 5. *)
Definition calm (a : action) (f : unit) : result a * unit :=
  match a return result a * unit with
  | OpenProtocol _ _ | OpenVolume _ | FileOpen _ _ _ | FileRead _ _ _ | GetFileInfo _ _ | AllocatePages _ _ _ _ => ((0, 0), f)
  | LocateHandleBuffer _ => ((0, 0, 0), f)
  | BsGetMemoryMap _ _ _ _ _ => ((0, (0, 5, 40, 1)), f)
  | GopMode _ => (mkMode 0 0 0 0 0 0, f)
  | FreePool _ | SetMem _ _ _ | CopyMem _ _ _ | Print | Hlt => (tt, f)
  | DeviceHandle _ | FileWrite _ _ | FileClose _ | FreePages _ _ | ExitBootServices _ _ | QueryMode _ _ | SetMode _ _
  | Load _ _ => (0, f)
  end.

Lemma handover_safe_witness :
  exists t t0 image status,
    (run calm (UefiMain (fun _ _ _ _ _ _ => []) [] 0x1000 1 7) tt).2 = t
    /\ t = t0 ++ [Called (ExitBootServices image 5) status] /\ EFI_ERROR status = false.
Proof.
  pose proof (handover_safe (fun _ _ _ _ _ _ => []) [] 0x1000 1 calm tt 7) as H.
  destruct (run calm _ tt) as [[o f'] t] eqn:E. destruct H as [_ H].
  assert (Ho : o = Entered 0 (mkConfig 0 0 0 0 kPixelRGBResv8BitPerColor) (mkMap 65536 0x1000 0 5 40 1)).
  { assert (Hc : (run calm (UefiMain (fun _ _ _ _ _ _ => []) [] 0x1000 1 7) tt).1.1
      = Entered 0 (mkConfig 0 0 0 0 kPixelRGBResv8BitPerColor) (mkMap 65536 0x1000 0 5 40 1)) by (vm_compute; reflexivity).
    rewrite E in Hc. exact Hc. }
  destruct (H _ _ _ Ho) as (t0 & image & status & Ht & Hs & _). exists t, t0, image, status. split; [reflexivity|]. split; [exact Ht|exact Hs].
Defined.
