(* ===== verification/LoaderKernel.v ===== *)
(** * The boot loader and a conforming firmware: what the kernel finds

    With a firmware that does what the UEFI specification documents ([conforms]) and
    whose calls succeed ([served]), the loader enters the kernel with its segments in
    memory, a memory map that is current, and the mode of the screen. *)
From Stdlib Require Import ZArith Lia String.
From stdpp Require Import base option list numbers.
From S2P Require Import Prelude Frames Loader.

Lemma phdr_fuel_eq : Z.of_nat phdr_fuel = 65536.
Proof. unfold phdr_fuel. by rewrite Z2Nat.id. Qed.

#[local] Opaque phdr_fuel.

(** ** A firmware that conforms to the specification of UEFI

    Its state is seen through the bytes of the memory, the type of each page, the map it
    reports and the key of that map, the mode of the screen, and the contents of the
    files. *)
Fixpoint le (n : nat) (m : Z -> Z) (a : Z) : Z :=
  match n with O => 0 | S n => m a + 256 * le n m (a + 1) end.

(** The descriptors of a map in memory, as the kernel reads them. *)
Definition descriptor_at (m : Z -> Z) (a : Z) : MemoryDescriptor :=
  mkDesc (le 4 m a) (le 8 m (a + 8)) (le 8 m (a + 24)).
Definition descriptors_at (m : Z -> Z) (map : MemoryMap) : list MemoryDescriptor :=
  (fun i => descriptor_at m (buffer map + Z.of_nat i * descriptor_size map))
    <$> seq 0 (Z.to_nat (map_size map / descriptor_size map)).

Definition in_pages (p : Z) (addr n : Z) : Prop := addr / 4096 <= p < addr / 4096 + n.
Definition within (x addr n : Z) : bool := (addr <=? x) && (x <? addr + n).

Lemma within_spec x addr n : within x addr n = true <-> addr <= x < addr + n.
Proof. unfold within. rewrite andb_true_iff, Z.leb_le, Z.ltb_lt. lia. Qed.

Section conforming.
Context {F : Type} (fw : forall a, F -> result a * F).
Context (mem : F -> Z -> Z) (page_type : F -> Z -> Z) (mem_map : F -> list MemoryDescriptor) (key : F -> Z).
Context (gop_mode : F -> GOP_MODE) (contents : Z -> list Z) (kernel_elf : list Z).
Context (memmap_buf : Z).

(** Bytes of the loader: those of its pages, and the buffer on its stack. *)
Definition own (f : F) (x : Z) : Prop := page_type f (x / 4096) = EfiLoaderData.
Definition on_stack (x : Z) : Prop := memmap_buf <= x < memmap_buf + 65536.

(** The firmware leaves the bytes of the loader alone, apart from [P]. *)
Definition keeps (P : Z -> Prop) (f f' : F) : Prop :=
  forall x, own f x \/ on_stack x -> ~ P x -> (own f x -> own f' x) /\ mem f' x = mem f x.

(** Actions that do not write where the loader told them to. *)
Definition quiet (a : action) : bool :=
  match a with
  | SetMem _ _ _ | CopyMem _ _ _ | FileRead _ _ _ | FreePages _ _ | BsGetMemoryMap _ _ _ _ _ => false
  | _ => true
  end.

Record conforms : Prop := {
  c_quiet : forall a f, quiet a = true -> keeps (fun _ => False) f (fw a f).2;
  c_load : forall n a f, (fw (Load n a) f).1 = le (Z.to_nat n) (mem f) a;
  c_copy : forall dst src n f x, own f x \/ on_stack x ->
    (own f x -> own (fw (CopyMem dst src n) f).2 x)
    /\ mem (fw (CopyMem dst src n) f).2 x = if within x dst n then mem f (src + (x - dst)) else mem f x;
  c_set : forall dst n v f x, own f x \/ on_stack x ->
    (own f x -> own (fw (SetMem dst n v) f).2 x)
    /\ mem (fw (SetMem dst n v) f).2 x = if within x dst n then v else mem f x;
  c_open : forall dir f, EFI_ERROR (fw (FileOpen dir kernel_elf_name for_reading) f).1.1 = false ->
    contents (fw (FileOpen dir kernel_elf_name for_reading) f).1.2 = kernel_elf;
  c_info : forall file size f, EFI_ERROR (fw (GetFileInfo file size) f).1.1 = false ->
    (fw (GetFileInfo file size) f).1.2 = Z.of_nat (length (contents file));
  c_read : forall file size a f, let '(r, f') := fw (FileRead file size a) f in
    keeps (fun x => a <= x < a + size) f f'
    /\ (EFI_ERROR r.1 = false -> size <= Z.of_nat (length (contents file)) ->
        forall x, own f x -> a <= x < a + size ->
          own f' x /\ mem f' x = nth (Z.to_nat (x - a)) (contents file) 0);
  c_alloc : forall type mt n a f, let '(r, f') := fw (AllocatePages type mt n (Some a)) f in
    EFI_ERROR r.1 = false ->
    (4096 | r.2) /\ 0 <= r.2 /\ r.2 + n * 4096 <= 2 ^ 64 /\ (type = AllocateAddress -> r.2 = a)
    /\ forall p, in_pages p r.2 n -> page_type f p = EfiConventionalMemory /\ page_type f' p = mt;
  c_free : forall a n f, keeps (fun x => a <= x < a + n * 4096) f (fw (FreePages a n) f).2;
  c_map : forall size buf k d v f, let '(r, f') := fw (BsGetMemoryMap size buf k d v) f in
    let '(status, (size', k', d', v')) := r in
    keeps (fun x => buf <= x < buf + size) f f'
    /\ (EFI_ERROR status = false ->
        k' = key f' /\ 40 <= d' <= 4096 /\ 0 <= size' <= size
        /\ (buf = memmap_buf -> descriptors_at (mem f') (mkMap size buf size' k' d' v') = mem_map f'));
  c_stack : forall f x, on_stack x -> ~ own f x;
  c_exit : forall image k f, let '(status, f') := fw (ExitBootServices image k) f in
    (EFI_ERROR status = false <-> k = key f) /\ (EFI_ERROR status = false -> mem_map f' = mem_map f);
  c_key : forall f f', key f = key f' -> mem_map f = mem_map f';
  c_types : forall f d p, d ∈ mem_map f -> in_pages p (physical_start d) (number_of_pages d) -> page_type f p = d_type d;
  c_mode : forall gop f, (fw (GopMode gop) f).1 = gop_mode f;
  c_gop : forall a f, (forall gop n, a <> SetMode gop n) -> gop_mode (fw a f).2 = gop_mode f;
  }.
(** ** Runs on it

    The calls the loader depends on succeed. *)
Context (max_modes : nat).
Definition served (a : action) : result a -> Prop :=
  match a return result a -> Prop with
  | AllocatePages _ _ _ (Some _) => fun r => EFI_ERROR r.1 = false
  | FileOpen _ kernel_elf_name _ => fun r => EFI_ERROR r.1 = false
  | FileRead _ _ _ => fun r => EFI_ERROR r.1 = false
  | GetFileInfo _ _ => fun r => EFI_ERROR r.1 = false
  | BsGetMemoryMap _ _ _ _ _ => fun r => EFI_ERROR r.1 = false
  | GopMode _ => fun m => u32 (MaxMode m) <= Z.of_nat max_modes /\ (PixelFormat_ m = 0 \/ PixelFormat_ m = 1)
  | _ => fun _ => True
  end.

Definition served_call (c : call) : Prop := served (projT1 c) (projT2 c).

(** When all calls are served, [p] comes to an end in [Q], or enters the kernel in
    [E]. *)
Fixpoint wps {A} (p : prog A) (f : F) (Q : A -> F -> Prop) (E : Z -> FrameBufferConfig -> MemoryMap -> F -> Prop) : Prop :=
  match p with
  | Ret x => Q x f
  | Spin => False
  | Enter e c m => E e c m f
  | Act a k => served a (fw a f).1 -> wps (k (fw a f).1) (fw a f).2 Q E
  end.

Lemma wps_bind {A B} (p : prog A) (k : A -> prog B) f Q R E :
  wps p f Q E -> (forall x f', Q x f' -> wps (k x) f' R E) -> wps (p ≫= k) f R E.
Proof.
  intros Hp Hk. change (wps (prog_bind p k) f R E). revert f Hp. induction p as [x| |e c m|a kp IH]; intros f Hp.
  - by apply Hk.
  - done.
  - done.
  - cbn [prog_bind wps]. intros Hs. apply IH. by apply Hp.
Qed.

Lemma wps_run {A} (p : prog A) f Q E :
  wps p f Q E -> Forall served_call (run fw p f).2 ->
  match (run fw p f).1.1 with
  | Returned x => Q x (run fw p f).1.2
  | Spinning => False
  | Entered e c m => E e c m (run fw p f).1.2
  end.
Proof.
  revert f. induction p as [x| |e c m|a k IH]; intros f Hp Ht; try done. cbn [run wps] in *.
  specialize (IH (fw a f).1 (fw a f).2). destruct (run fw (k (fw a f).1) (fw a f).2) as [[o f'] t]. cbn [fst snd] in *.
  inversion Ht as [|? ? Hc Ht']; subst. apply IH; [by apply Hp|done].
Qed.

(** ** The kernel file *)
Definition byte_of (x : Z) : Z := nth (Z.to_nat x) kernel_elf 0.
Definition file_len : Z := Z.of_nat (length kernel_elf).

Record segment := mkSeg { seg_offset : Z; seg_vaddr : Z; seg_filesz : Z; seg_memsz : Z }.
Definition phoff : Z := le 8 byte_of 0x20.
Definition phnum : Z := u16 (le 2 byte_of 0x38).

(** The segment that program header [i] asks to be loaded. *)
Definition load_at (i : Z) : option segment :=
  let p := phoff + 56 * i in
  if le 4 byte_of p =? ELFFLAGS_PGN_PT_LOAD
  then Some (mkSeg (le 8 byte_of (p + 8)) (le 8 byte_of (p + 16)) (le 8 byte_of (p + 32)) (le 8 byte_of (p + 40)))
  else None.
Definition loads (i : Z) (s : segment) : Prop := 0 <= i < phnum /\ load_at i = Some s.

(** What belongs at address [x] of a segment: bytes of the file, then zeros. *)
Definition segment_byte (s : segment) (x : Z) : Z :=
  if x <? seg_vaddr s + seg_filesz s then byte_of (seg_offset s + (x - seg_vaddr s)) else 0.

Record elf_ok : Prop := {
  elf_header : 64 <= file_len < 2 ^ 63;
  elf_table : 0 <= phoff /\ phoff + 56 * phnum <= file_len;
  elf_segment : forall i s, loads i s ->
    0 <= seg_offset s /\ 0 <= seg_filesz s <= seg_memsz s /\ seg_offset s + seg_filesz s <= file_len
    /\ 4096 <= seg_vaddr s /\ seg_vaddr s + seg_memsz s < 2 ^ 63;
  elf_disjoint : forall i j s s' x, loads i s -> loads j s' -> i <> j ->
    within x (seg_vaddr s) (seg_memsz s) = true -> within x (seg_vaddr s') (seg_memsz s') = false;
  elf_some : exists i s, loads i s }.

(** ** What the loader knows of the memory

    The map [mm] in its buffer is the one of some state of the firmware, the bytes of
    [O] are its own, and those of [C] too, with the values that [C] gives. *)
Record knows (mm : MemoryMap) (O : Z -> Prop) (C : Z -> Z -> Prop) (f : F) : Prop := {
  k_buf : buffer mm = memmap_buf /\ buffer_size mm = 65536;
  k_size : 40 <= descriptor_size mm <= 4096 /\ 0 <= map_size mm <= 65536;
  k_map : exists f0, map_key mm = key f0 /\ descriptors_at (mem f) mm = mem_map f0;
  k_own : forall x, O x -> own f x;
  k_mem : forall x v, C x v -> own f x /\ mem f x = v }.
Context (Hfw : conforms) (Helf : elf_ok).

Lemma le_ext n m m' a : (forall x, a <= x < a + Z.of_nat n -> m' x = m x) -> le n m' a = le n m a.
Proof.
  revert a. induction n as [|n IH]; intros a H; [done|]. cbn [le]. rewrite (H a), (IH (a + 1)); [done|..]; try lia.
  intros x Hx. apply H. lia.
Qed.

Lemma descriptors_same m m' mm :
  buffer mm = memmap_buf -> 40 <= descriptor_size mm -> 0 <= map_size mm <= 65536 ->
  (forall x, on_stack x -> m' x = m x) -> descriptors_at m' mm = descriptors_at m mm.
Proof.
  intros Hb Hd Hs Hm. unfold descriptors_at. apply list_fmap_ext. intros i n Hi. apply lookup_seq in Hi as [-> Hi].
  cbn [Nat.add]. unfold descriptor_at.
  assert (Z.of_nat i * descriptor_size mm + 40 <= 65536).
  { assert (Z.of_nat i + 1 <= map_size mm / descriptor_size mm) by lia.
    assert (descriptor_size mm * (map_size mm / descriptor_size mm) <= map_size mm) by (apply Z.mul_div_le; lia). nia. }
  f_equal; apply le_ext; intros x Hx; apply Hm; unfold on_stack; lia.
Qed.

Lemma knows_keeps P mm O C f f' :
  keeps P f f' -> (forall x, P x -> ~ on_stack x) -> knows mm O C f ->
  knows mm (fun x => O x /\ ~ P x) (fun x v => C x v /\ ~ P x) f'.
Proof.
  intros Hk HP [Hb Hs (f0 & Hkey & Hm) Ho Hc]. constructor; [done|done|..].
  - exists f0. split; [done|]. rewrite <- Hm. apply descriptors_same; [apply Hb|apply Hs|apply Hs|].
    intros x Hx. apply Hk; [by right|]. intros Hp. by apply (HP x).
  - intros x [Hx Hp]. apply (Hk x); [left; by apply Ho|done|by apply Ho].
  - intros x v [[Hx <-]%Hc Hp]. destruct (Hk x) as [H1 H2]; [by left|done|]. split; [by apply H1|done].
Qed.

Lemma knows_mono mm (O O' : Z -> Prop) (C C' : Z -> Z -> Prop) f :
  (forall x, O' x -> O x) -> (forall x v, C' x v -> C x v) -> knows mm O C f -> knows mm O' C' f.
Proof. intros HO HC [Hb Hs Hm Ho Hc]. constructor; auto. Qed.

Lemma knows_quiet a mm O C f : quiet a = true -> knows mm O C f -> knows mm O C (fw a f).2.
Proof.
  intros Ha Hk. apply (knows_mono _ (fun x => O x /\ ~ False) _ (fun x v => C x v /\ ~ False)); [tauto|tauto|].
  apply (knows_keeps _ _ _ _ f); [by apply (c_quiet Hfw)|done|done].
Qed.

Lemma wps_quiet {A} a (k : result a -> prog A) mm O C f Q E :
  quiet a = true -> knows mm O C f ->
  (forall r f', served a r -> knows mm O C f' -> wps (k r) f' Q E) ->
  wps (act a ≫= k) f Q E.
Proof. intros Ha Hk H Hs. apply H; [done|]. by apply knows_quiet. Qed.

Lemma wps_act {A} a (k : result a -> prog A) f Q E r f' :
  fw a f = (r, f') -> (served a r -> wps (k r) f' Q E) -> wps (act a ≫= k) f Q E.
Proof. intros Ha H. change (served a (fw a f).1 -> wps (k (fw a f).1) (fw a f).2 Q E). rewrite Ha. exact H. Qed.

Lemma stop_on_ok status mm O C f E :
  knows mm O C f -> wps (stop_on status) f (fun _ f' => knows mm O C f') E.
Proof.
  intros Hk. unfold stop_on. destruct (EFI_ERROR status); [|done].
  apply (wps_quiet _ _ mm O C); [done|done|]. intros _ f1 _ H1. apply (wps_quiet _ _ mm O C); [done|done|].
  by intros _ f2 _ H2.
Qed.

(** ** The file in memory *)
Definition image (raw : Z) (C : Z -> Z -> Prop) : Prop :=
  0 <= raw /\ raw + file_len <= 2 ^ 64 /\ forall x, raw <= x < raw + file_len -> C x (byte_of (x - raw)).

Lemma wps_word {A} (n : Z) (off raw : Z) a (k : Z -> prog A) mm O C f Q E :
  image raw C -> 0 <= off -> 0 < n -> off + n <= file_len -> a = raw + off -> knows mm O C f ->
  (forall f', knows mm O C f' -> wps (k (le (Z.to_nat n) byte_of off)) f' Q E) ->
  wps (act (Load n a) ≫= k) f Q E.
Proof.
  intros (Hr & Hl & HC) Hoff Hn Hle -> Hk H _. rewrite (c_load Hfw).
  replace (le (Z.to_nat n) (mem f) (raw + off)) with (le (Z.to_nat n) byte_of off); [apply H; by apply knows_quiet|].
  rewrite (le_ext _ (fun x => byte_of (x - raw)) (mem f)).
  - clear -Hoff. revert off Hoff. induction (Z.to_nat n) as [|m IH]; intros off Hoff; [done|]. cbn [le].
    rewrite (IH (off + 1)) by lia. do 2 f_equal; f_equal; lia.
  - intros x Hx. apply (k_mem _ _ _ _ Hk x (byte_of (x - raw))). apply HC. lia.
Qed.
Lemma some_phdr : 1 <= phnum.
Proof. destruct (elf_some Helf) as (i & s & Hi & _). lia. Qed.

Lemma table_addr raw C : image raw C -> u64 (raw + phoff) = raw + phoff.
Proof.
  intros (Hr & Hl & _). pose proof some_phdr. pose proof (elf_table Helf). unfold u64. apply Z.mod_small. lia.
Qed.

Lemma phdr_addr raw C i o :
  image raw C -> 0 <= i < phnum -> 0 <= o < 56 ->
  u64 (phdr (u64 (raw + phoff)) i + o) = raw + (phoff + 56 * i + o).
Proof.
  intros HC Hi Ho. rewrite (table_addr _ _ HC). destruct HC as (Hr & Hl & _). pose proof (elf_table Helf).
  unfold phdr, u64. rewrite Z.add_mod_idemp_l by done. rewrite Z.mod_small by lia. lia.
Qed.

(** The reads of a loop over the program headers. *)
Section table.
Context (raw : Z) (mm : MemoryMap) (O : Z -> Prop) (C : Z -> Z -> Prop) (HC : image raw C).
Context {A : Type} (Q : A -> F -> Prop) (E : Z -> FrameBufferConfig -> MemoryMap -> F -> Prop).

Lemma wps_phnum (k : Z -> prog A) f :
  knows mm O C f -> (forall f', knows mm O C f' -> wps (k phnum) f' Q E) -> wps (e_phnum raw ≫= k) f Q E.
Proof.
  intros Hk H. pose proof (elf_header Helf).
  refine (wps_word 2 0x38 raw _ (fun n => k (u16 n)) mm O C f Q E HC _ _ _ _ Hk _); try lia; [|exact H].
  destruct HC as (Hr & Hl & _). unfold u64. apply Z.mod_small. lia.
Qed.

Lemma wps_field (n o i : Z) a (k : Z -> prog A) f :
  0 <= i < phnum -> 0 <= o -> 0 < n -> o + n <= 56 -> a = u64 (phdr (u64 (raw + phoff)) i + o) -> knows mm O C f ->
  (forall f', knows mm O C f' -> wps (k (le (Z.to_nat n) byte_of (phoff + 56 * i + o))) f' Q E) ->
  wps (act (Load n a) ≫= k) f Q E.
Proof.
  intros Hi Ho Hn Hle -> Hk H. pose proof (elf_table Helf).
  refine (wps_word n (phoff + 56 * i + o) raw _ k mm O C f Q E HC _ Hn _ _ Hk H); try lia.
  by apply (phdr_addr raw C); [|lia..].
Qed.

Lemma wps_type (i : Z) (k : Z -> prog A) f :
  0 <= i < phnum -> knows mm O C f ->
  (forall f', knows mm O C f' -> wps (k (le 4 byte_of (phoff + 56 * i))) f' Q E) ->
  wps (p_type (phdr (u64 (raw + phoff)) i) ≫= k) f Q E.
Proof.
  intros Hi Hk H. refine (wps_field 4 0 i _ k f Hi _ _ _ _ Hk _); try lia.
  - unfold phdr. rewrite Z.add_0_r. unfold u64. by rewrite Zmod_mod.
  - rewrite Z.add_0_r. exact H.
Qed.
End table.

(** ** The range of the segments *)
Definition covers (i first last : Z) : Prop :=
  4096 <= first <= MAX_UINT64 /\ 0 <= last < 2 ^ 63
  /\ forall j s, loads j s -> j < i -> first <= seg_vaddr s /\ seg_vaddr s + seg_memsz s <= last.

Lemma covers_skip i first last : covers i first last -> load_at i = None -> covers (i + 1) first last.
Proof.
  intros (Hf & Hl & H) Hi. split_and!; [lia..|]. intros j s Hs Hj. apply (H j); [done|].
  destruct (Z.eq_dec j i) as [->|]; [|lia]. destruct Hs. congruence.
Qed.

Lemma covers_add i first last s :
  covers i first last -> loads i s ->
  covers (i + 1) (Z.min first (seg_vaddr s)) (Z.max last (u64 (seg_vaddr s + seg_memsz s))).
Proof.
  intros (Hf & Hl & H) Hs. destruct (elf_segment Helf i s Hs) as (_ & Hz & _ & Hv & Hm).
  assert (u64 (seg_vaddr s + seg_memsz s) = seg_vaddr s + seg_memsz s) as -> by (unfold u64; apply Z.mod_small; lia).
  split_and!; [lia..|]. intros j s' Hs' Hj.
  destruct (Z.eq_dec j i) as [->|]; [|destruct (H j s' Hs'); lia]. destruct Hs, Hs'. simplify_eq. lia.
Qed.

Lemma load_at_type i s : load_at i = Some s -> le 4 byte_of (phoff + 56 * i) = ELFFLAGS_PGN_PT_LOAD.
Proof. unfold load_at. destruct (Z.eqb_spec (le 4 byte_of (phoff + 56 * i)) ELFFLAGS_PGN_PT_LOAD); done. Qed.

Lemma load_at_fields i s :
  load_at i = Some s ->
  s = mkSeg (le 8 byte_of (phoff + 56 * i + 8)) (le 8 byte_of (phoff + 56 * i + 16))
        (le 8 byte_of (phoff + 56 * i + 32)) (le 8 byte_of (phoff + 56 * i + 40)).
Proof. unfold load_at. destruct (_ =? _); [|done]. by intros [= <-]. Qed.

Lemma range_loop_ok fuel i first last raw mm O C f E :
  image raw C -> knows mm O C f -> 0 <= i <= phnum -> phnum - i < Z.of_nat fuel -> covers i first last ->
  wps (range_loop fuel raw (u64 (raw + phoff)) i first last) f (fun r f' => knows mm O C f' /\ covers phnum r.1 r.2) E.
Proof.
  intros HC. revert i first last f. induction fuel as [|fuel IH]; intros i first last f Hk Hi Hfuel Hcov; [lia|].
  cbn [range_loop]. apply (wps_phnum raw mm O C HC); [done|]. intros f1 H1.
  destruct (Z.ltb_spec i phnum) as [Hlt|]; [|replace i with phnum in * by lia; done].
  apply (wps_type raw mm O C HC); [lia|done|]. intros f2 H2.
  destruct (load_at i) as [s|] eqn:Es.
  - rewrite (load_at_type i s Es). cbn [negb Z.eqb ELFFLAGS_PGN_PT_LOAD Pos.eqb].
    refine (wps_field raw mm O C HC _ _ 8 16 i _ _ f2 _ _ _ _ eq_refl H2 _); try lia. intros f3 H3.
    refine (wps_field raw mm O C HC _ _ 8 40 i _ _ f3 _ _ _ _ eq_refl H3 _); try lia. intros f4 H4.
    assert (Hs : loads i s) by (split; [lia|done]).
    pose proof (load_at_fields i s Es) as E4.
    pose proof (covers_add i first last s Hcov Hs) as Hc'. rewrite E4 in Hc'. apply IH; [done|lia|lia|exact Hc'].
  - assert (le 4 byte_of (phoff + 56 * i) =? ELFFLAGS_PGN_PT_LOAD = false) as ->.
    { unfold load_at in Es. by destruct (_ =? _). }
    apply IH; [done|lia|lia|by apply covers_skip].
Qed.

Lemma CalcLoadAddressRange_ok raw mm O C f E :
  image raw C -> knows mm O C f ->
  wps (CalcLoadAddressRange raw) f (fun r f' => knows mm O C f' /\ covers phnum r.1 r.2) E.
Proof.
  intros HC Hk. unfold CalcLoadAddressRange, e_phoff. pose proof (elf_header Helf) as Hh. pose proof some_phdr as Hn.
  assert (phnum < 65536) by (unfold phnum, u16; apply Z.mod_pos_bound; lia).
  refine (wps_word 8 0x20 raw _ _ mm O C f _ E HC _ _ _ _ Hk _); try lia.
  { destruct HC as (Hr & Hl & _). unfold u64. apply Z.mod_small. lia. }
  intros f1 H1. apply range_loop_ok; [done|done|lia| |].
  - rewrite Nat2Z.inj_succ, phdr_fuel_eq. lia.
  - split_and!; unfold MAX_UINT64; try lia. intros j s [Hj _] Hj0. lia.
Qed.
(** ** Copying the segments *)
Lemma knows_write a (dst n : Z) (V : Z -> Z) mm (O : Z -> Prop) (C : Z -> Z -> Prop) f :
  (forall x, own f x \/ on_stack x ->
     (own f x -> own (fw a f).2 x) /\ mem (fw a f).2 x = if within x dst n then V x else mem f x) ->
  knows mm O C f -> (forall x, within x dst n = true -> O x) -> (forall x v, C x v -> within x dst n = false) ->
  knows mm O (fun x v => C x v \/ within x dst n = true /\ v = V x) (fw a f).2.
Proof.
  intros Ha [Hb Hs (f0 & Hkey & Hm) Ho Hc] Hdst Hold. constructor; [done|done|..].
  - exists f0. split; [done|]. rewrite <- Hm. apply descriptors_same; [apply Hb|apply Hs|apply Hs|]. intros x Hx.
    destruct (Ha x (or_intror Hx)) as [_ ->]. destruct (within x dst n) eqn:Ew; [|done].
    destruct (c_stack Hfw f x Hx). by apply Ho, Hdst.
  - intros x Hx. apply Ha; [left|]; by apply Ho.
  - intros x v [Hx|[Hx ->]].
    + destruct (Hc x v Hx) as [H1 <-]. destruct (Ha x (or_introl H1)) as [H2 ->]. rewrite (Hold x _ Hx). split; [by apply H2|done].
    + assert (H1 : own f x) by by apply Ho, Hdst. destruct (Ha x (or_introl H1)) as [H2 ->]. rewrite Hx. split; [by apply H2|done].
Qed.

Definition copied (raw i x v : Z) : Prop :=
  raw <= x < raw + file_len /\ v = byte_of (x - raw)
  \/ exists j s, loads j s /\ j < i /\ within x (seg_vaddr s) (seg_memsz s) = true /\ v = segment_byte s x.

Section copying.
Context (raw : Z) (mm : MemoryMap) (O : Z -> Prop).
Context (Hraw : 0 <= raw) (Hraw2 : raw + file_len <= 2 ^ 64).
(** The segments go to pages of the loader, none of them with the file. *)
Context (HO : forall i s x, loads i s -> within x (seg_vaddr s) (seg_memsz s) = true -> O x).
Context (Hapart : forall x, O x -> ~ raw <= x < raw + file_len).

Lemma copied_image i (P : Z -> Z -> Prop) : image raw (fun x v => copied raw i x v \/ P x v).
Proof. split_and!; [done|done|]. intros x Hx. left. by left. Qed.

Lemma copied_apart i s x v : loads i s -> copied raw i x v -> within x (seg_vaddr s) (seg_memsz s) = false.
Proof.
  intros Hs [[Hx _]|(j & s' & Hs' & Hj & Hx & _)].
  - destruct (within x _ _) eqn:E; [|done]. destruct (Hapart x); [by apply (HO i s)|done].
  - apply (elf_disjoint Helf j i s' s); [done|done|lia|done].
Qed.

Definition file_part (s : segment) (x v : Z) : Prop :=
  within x (seg_vaddr s) (seg_filesz s) = true /\ v = segment_byte s x.

Lemma copy_file_part i s f :
  loads i s -> knows mm O (copied raw i) f ->
  knows mm O (fun x v => copied raw i x v \/ file_part s x v)
    (fw (CopyMem (seg_vaddr s) (u64 (raw + seg_offset s)) (seg_filesz s)) f).2.
Proof.
  intros Hs Hk. destruct (elf_segment Helf i s Hs) as (Ho & Hz & Hle & Hv & Hm). refine (knows_write _ (seg_vaddr s) (seg_filesz s) (segment_byte s) _ _ _ _ _ Hk _ _).
  - intros x Hx. destruct (c_copy Hfw (seg_vaddr s) (u64 (raw + seg_offset s)) (seg_filesz s) f x Hx) as [H1 H2].
    split; [done|]. rewrite H2. destruct (within x _ _) eqn:Ew; [|done]. apply within_spec in Ew.
    refine (proj2 (k_mem _ _ _ _ Hk (u64 (raw + seg_offset s) + (x - seg_vaddr s)) (segment_byte s x) _)).
    left. unfold u64. rewrite Z.mod_small by lia. unfold segment_byte. destruct (Z.ltb_spec x (seg_vaddr s + seg_filesz s)); [|lia].
    split; [lia|]. f_equal. lia.
  - intros x Hx. apply (HO i s x Hs). apply within_spec in Hx. apply within_spec. lia.
  - intros x v Hx%(copied_apart i s); [|done]. apply not_true_iff_false. apply not_true_iff_false in Hx.
    rewrite within_spec in *. lia.
Qed.

Lemma clear_rest i s f :
  loads i s -> knows mm O (fun x v => copied raw i x v \/ file_part s x v) f ->
  knows mm O (copied raw (i + 1))
    (fw (SetMem (u64 (seg_vaddr s + seg_filesz s)) (u64 (seg_memsz s - seg_filesz s)) 0) f).2.
Proof.
  intros Hs Hk. destruct (elf_segment Helf i s Hs) as (Ho & Hz & Hle & Hv & Hm).
  unfold u64. rewrite !Z.mod_small by lia. set (a := seg_vaddr s + seg_filesz s). set (n := seg_memsz s - seg_filesz s).
  assert (Hin : forall x, within x a n = true -> within x (seg_vaddr s) (seg_memsz s) = true).
  { intros x. rewrite !within_spec. lia. }
  eapply (knows_mono _ O _ _ (copied raw (i + 1))); [done| |refine (knows_write _ a n (fun _ => 0) _ _ _ _ _ Hk _ _)].
  - intros x v [Hx|(j & s' & Hs' & Hj & Hx & ->)]; [left; left; by left|].
    destruct (Z.eq_dec j i) as [->|]; [|left; left; right; exists j, s'; split_and!; [done|lia|done|done]].
    assert (s' = s) as -> by (destruct Hs, Hs'; congruence). apply within_spec in Hx.
    destruct (Z.ltb_spec x a) as [H|H].
    + left. right. split; [apply within_spec; lia|done].
    + right. split; [apply within_spec; lia|]. unfold segment_byte. fold a. destruct (Z.ltb_spec x a); [lia|done].
  - intros x Hx. destruct (c_set Hfw a n 0 f x Hx) as [H1 H2]. by split.
  - intros x Hx. by apply (HO i s), Hin.
  - intros x v [Hx|[Hx _]].
    + apply (copied_apart i s) in Hx; [|done]. apply not_true_iff_false. intros Hw%Hin. congruence.
    + apply not_true_iff_false. rewrite within_spec in *. lia.
Qed.
Lemma copy_loop_ok fuel i f E :
  0 <= i <= phnum -> phnum - i < Z.of_nat fuel -> knows mm O (copied raw i) f ->
  wps (copy_loop fuel raw (u64 (raw + phoff)) i) f (fun _ f' => knows mm O (copied raw phnum) f') E.
Proof.
  revert i f. induction fuel as [|fuel IH]; intros i f Hi Hfuel Hk; [lia|]. cbn [copy_loop].
  assert (HC : image raw (copied raw i)) by (split_and!; [done|done|]; intros x Hx; by left).
  apply (wps_phnum raw mm O _ HC); [done|]. intros f1 H1.
  destruct (Z.ltb_spec i phnum) as [Hlt|]; [|replace i with phnum in * by lia; done].
  apply (wps_type raw mm O _ HC); [lia|done|]. intros f2 H2.
  destruct (load_at i) as [s|] eqn:Es.
  - rewrite (load_at_type i s Es). cbn [negb Z.eqb ELFFLAGS_PGN_PT_LOAD Pos.eqb].
    refine (wps_field raw mm O _ HC _ _ 8 8 i _ _ f2 _ _ _ _ eq_refl H2 _); try lia. intros f3 H3.
    refine (wps_field raw mm O _ HC _ _ 8 16 i _ _ f3 _ _ _ _ eq_refl H3 _); try lia. intros f4 H4.
    refine (wps_field raw mm O _ HC _ _ 8 32 i _ _ f4 _ _ _ _ eq_refl H4 _); try lia. intros f5 H5.
    assert (Hs : loads i s) by (split; [lia|done]). pose proof (load_at_fields i s Es) as Ef.
    pose proof (copied_image i (file_part s)) as HC'. clear Es. subst s.
    pose proof (copy_file_part i _ f5 Hs H5) as H6.
    cbn [seg_offset seg_vaddr seg_filesz seg_memsz] in H6. intros _.
    refine (wps_field raw mm O _ HC' _ _ 8 40 i _ _ _ _ _ _ _ eq_refl H6 _); try lia. intros f7 H7.
    refine (wps_field raw mm O _ HC' _ _ 8 32 i _ _ f7 _ _ _ _ eq_refl H7 _); try lia. intros f8 H8.
    refine (wps_field raw mm O _ HC' _ _ 8 16 i _ _ f8 _ _ _ _ eq_refl H8 _); try lia. intros f9 H9.
    refine (wps_field raw mm O _ HC' _ _ 8 32 i _ _ f9 _ _ _ _ eq_refl H9 _); try lia. intros f10 H10.
    pose proof (clear_rest i _ f10 Hs H10) as H11. intros _. by apply IH; [lia|lia|].
  - assert (le 4 byte_of (phoff + 56 * i) =? ELFFLAGS_PGN_PT_LOAD = false) as ->.
    { unfold load_at in Es. by destruct (_ =? _). }
    apply IH; [lia|lia|]. apply (knows_mono _ O _ (copied raw i)); [done| |done].
    intros x v [Hx|(j & s & Hs & Hj & Hx)]; [by left|right; exists j, s; split; [done|split; [|done]]].
    destruct (Z.eq_dec j i) as [->|]; [|lia]. destruct Hs. congruence.
Qed.
End copying.
Lemma CopyLoadSegments_ok raw mm O f E :
  0 <= raw -> raw + file_len <= 2 ^ 64 ->
  (forall i s x, loads i s -> within x (seg_vaddr s) (seg_memsz s) = true -> O x) ->
  (forall x, O x -> ~ raw <= x < raw + file_len) ->
  knows mm O (copied raw 0) f ->
  wps (CopyLoadSegments raw) f (fun _ f' => knows mm O (copied raw phnum) f') E.
Proof.
  intros H1 H2 HO Ha Hk. unfold CopyLoadSegments, e_phoff. pose proof (elf_header Helf) as Hh. pose proof some_phdr as Hn.
  assert (HC : image raw (copied raw 0)) by (split_and!; [done|done|]; intros x Hx; by left).
  assert (phnum < 65536) by (unfold phnum, u16; apply Z.mod_pos_bound; lia).
  refine (wps_word 8 0x20 raw _ _ mm O _ f _ E HC _ _ _ _ Hk _); try lia.
  { unfold u64. apply Z.mod_small. lia. }
  intros f1 Hk1. apply copy_loop_ok; try done; [lia|]. rewrite Nat2Z.inj_succ, phdr_fuel_eq. lia.
Qed.

(** ** Memory of the loader *)
Definition in_range (addr n x : Z) : Prop := addr <= x < addr + n * 4096.

Lemma range_pages addr n x : (4096 | addr) -> in_range addr n x -> in_pages (x / 4096) addr n.
Proof.
  intros [q ->] [H1 H2]. unfold in_pages. rewrite Z.div_mul by done. split.
  - apply Z.div_le_lower_bound; lia.
  - apply Z.div_lt_upper_bound; lia.
Qed.

Lemma knows_alloc type n a mm O C f :
  let '(r, f') := fw (AllocatePages type EfiLoaderData n (Some a)) f in
  EFI_ERROR r.1 = false -> knows mm O C f ->
  (4096 | r.2) /\ 0 <= r.2 /\ r.2 + n * 4096 <= 2 ^ 64 /\ (type = AllocateAddress -> r.2 = a)
  /\ knows mm (fun x => O x \/ in_range r.2 n x) C f'
  /\ forall x, in_range r.2 n x -> ~ own f x.
Proof.
  pose proof (c_alloc Hfw type EfiLoaderData n a f) as Ha.
  pose proof (knows_quiet (AllocatePages type EfiLoaderData n (Some a)) mm O C f eq_refl) as Hq.
  destruct (fw (AllocatePages type EfiLoaderData n (Some a)) f) as [r f'].
  intros Hr Hk. destruct (Ha Hr) as (Hal & H0 & Hle & Hat & Hp). specialize (Hq Hk).
  split_and!; [done|done|done|done| |].
  - destruct Hq as [Hb Hs Hm Ho Hc]. constructor; [done|done|done| |done].
    intros x [Hx|Hx]; [by apply Ho|]. by apply Hp, range_pages.
  - intros x Hx Hown. destruct (Hp (x / 4096)) as [H _]; [by apply range_pages|]. by rewrite Hown in H.
Qed.

Lemma GetMemoryMap_ok mm f O C E :
  memmap_buf <> 0 -> buffer mm = memmap_buf -> buffer_size mm = 65536 ->
  (forall x, O x -> own f x) -> (forall x v, C x v -> own f x /\ mem f x = v) ->
  wps (GetMemoryMap mm) f
    (fun r f' => EFI_ERROR r.1 = false /\ map_key r.2 = key f' /\ descriptors_at (mem f') r.2 = mem_map f'
       /\ gop_mode f' = gop_mode f /\ knows r.2 O C f') E.
Proof.
  intros Hne Hb Hs HO HC. unfold GetMemoryMap. rewrite Hb, Hs. rewrite (proj2 (Z.eqb_neq memmap_buf 0) Hne).
  cbn [map_size buffer map_key descriptor_size descriptor_version buffer_size].
  pose proof (c_map Hfw 65536 memmap_buf (map_key mm) (descriptor_size mm) (descriptor_version mm) f) as Hm.
  pose proof (c_gop Hfw (BsGetMemoryMap 65536 memmap_buf (map_key mm) (descriptor_size mm) (descriptor_version mm)) f ltac:(done)) as Hg.
  intros Hsv. cbn [served] in Hsv. revert Hsv Hm Hg.
  destruct (fw _ f) as [[status [[[size k] d] v]] f'] eqn:Ef. cbn [fst snd]. intros Hsv [Hk Hm] Hg.
  destruct (Hm Hsv) as (-> & Hd & Hsz & Hdesc). cbn.
  split; [done|]. specialize (Hdesc eq_refl). split; [done|]. split; [done|]. split; [done|].
  assert (Hns : forall x, own f x -> ~ memmap_buf <= x < memmap_buf + 65536).
  { intros x Hx Hin. exact (c_stack Hfw f x Hin Hx). }
  constructor; [done|done|by exists f'|..].
  - intros x Hx%HO. apply (Hk x); [by left|by apply Hns|done].
  - intros x w [Hx <-]%HC. destruct (Hk x (or_introl Hx) (Hns x Hx)) as [H1 H2]. split; [by apply H1|done].
Qed.
(** ** The parts of UefiMain *)
Context (AsciiSPrint : Z -> Z -> string -> Z -> Z -> Z -> list Z) (header : list Z).
Context (Hbuf : 4096 <= memmap_buf) (Hbuf2 : memmap_buf + 65536 + 4096 < 2 ^ 64).

(** One quiet action after the other. *)
Ltac quiet_step mm O C :=
  match goal with
  | |- wps (act _ ≫= _) _ _ _ => apply (wps_quiet _ _ mm O C); [reflexivity|done|]; intros ? ? ? ?
  | |- wps (stop_on _ ≫= _) _ _ _ => eapply wps_bind; [by apply (stop_on_ok _ mm O C)|]; intros [] ? ?
  end.

Lemma save_loop_ok fuel mm file iter i O C f E :
  knows mm O C f -> memmap_buf <= iter < 2 ^ 64 -> Z.max 0 (memmap_buf + map_size mm - iter) < Z.of_nat fuel ->
  wps (save_loop AsciiSPrint fuel mm file iter i) f (fun _ f' => knows mm O C f') E.
Proof.
  revert iter i f. induction fuel as [|fuel IH]; intros iter i f Hk Hi Hfuel; [lia|].
  cbn [save_loop]. destruct (k_buf _ _ _ _ Hk) as [-> _]. destruct (k_size _ _ _ _ Hk) as [Hd Hs].
  unfold u64. rewrite (Z.mod_small (memmap_buf + map_size mm)) by lia.
  destruct (Z.ltb_spec iter (memmap_buf + map_size mm)) as [Hlt|]; [|done].
  rewrite Z.mod_small by lia. do 5 quiet_step mm O C. apply IH; [done|lia|lia].
Qed.

Lemma save_map_ok image_handle f E :
  wps (save_map AsciiSPrint header memmap_buf image_handle) f
    (fun r f' => knows r.1.1 (fun _ => False) (fun _ _ => False) f') E.
Proof.
  unfold save_map. eapply wps_bind; [apply (GetMemoryMap_ok _ f (fun _ => False) (fun _ _ => False)); [lia|done..]|].
  intros [status mm] f1 (_ & _ & _ & _ & H1). cbn [snd] in *. set (N := fun _ : Z => False). set (C := fun _ _ : Z => False).
  assert (Hdir : wps (OpenRootDir image_handle) f1 (fun _ f' => knows mm N C f') E).
  { unfold OpenRootDir. do 4 quiet_step mm N C. done. }
  eapply wps_bind; [exact Hdir|]. intros r f2 H2. quiet_step mm N C. destruct r0 as [status' file].
  quiet_step mm N C. eapply (wps_bind _ _ _ (fun _ f' => knows mm N C f')).
  { unfold SaveMemoryMap. quiet_step mm N C.
    eapply wps_bind; [apply (save_loop_ok _ mm _ _ _ N C); [done|..]|intros [] f6 H6; done];
      destruct (k_buf _ _ _ _ H2) as [-> _]; pose proof (k_size _ _ _ _ H2); [lia|].
    rewrite Nat2Z.inj_succ, Z2Nat.id by lia. lia. }
  intros z f6 H6. quiet_step mm N C. done.
Qed.

Lemma OpenGOP_ok image_handle mm O C f E :
  knows mm O C f -> wps (OpenGOP image_handle) f (fun _ f' => knows mm O C f') E.
Proof.
  intros Hk. unfold OpenGOP. quiet_step mm O C. destruct r as [[s n] h]. do 3 quiet_step mm O C. done.
Qed.

Definition file_pages : Z := (file_len + 0xfff) / 0x1000.

Lemma file_fits : file_len <= file_pages * 4096 /\ u64 (file_len + 0xfff) / 0x1000 = file_pages.
Proof.
  pose proof (elf_header Helf). unfold file_pages, u64. rewrite Z.mod_small by lia. split; [|done].
  pose proof (Z.div_mod (file_len + 0xfff) 0x1000 ltac:(lia)). pose proof (Z.mod_pos_bound (file_len + 0xfff) 0x1000 ltac:(lia)). lia.
Qed.

Lemma read_kernel_ok root_dir status mm f E :
  knows mm (fun _ => False) (fun _ _ => False) f ->
  wps (read_kernel root_dir status) f
    (fun r f' => r.2 = file_pages /\ 0 <= r.1 /\ r.1 + file_pages * 4096 <= 2 ^ 64
       /\ knows mm (in_range r.1 file_pages) (copied r.1 0) f') E.
Proof.
  intros Hk. unfold read_kernel. set (N := fun _ : Z => False). set (C := fun _ _ : Z => False).
  pose proof (knows_quiet (FileOpen root_dir kernel_elf_name for_reading) mm N C f eq_refl Hk) as H1.
  pose proof (c_open Hfw root_dir f) as Hct.
  destruct (fw (FileOpen root_dir kernel_elf_name for_reading) f) as [[s0 file] f1] eqn:E1. cbn [fst snd] in H1, Hct.
  apply (wps_act _ _ _ _ _ _ _ E1). intros Hsv. specialize (Hct Hsv). cbn [snd].
  quiet_step mm N C. rename f' into f2, H into H2.
  pose proof (knows_quiet (GetFileInfo file (sizeof_FILE_INFO + 2 * 12)) mm N C f2 eq_refl H2) as H3.
  pose proof (c_info Hfw file (sizeof_FILE_INFO + 2 * 12) f2) as Hi.
  destruct (fw (GetFileInfo file (sizeof_FILE_INFO + 2 * 12)) f2) as [[s1 size] f3] eqn:E2. cbn [fst snd] in H3, Hi.
  apply (wps_act _ _ _ _ _ _ _ E2). intros Hsv2. specialize (Hi Hsv2). cbn [snd]. rewrite Hi, Hct. fold file_len.
  destruct file_fits as [Hfit ->].
  pose proof (knows_alloc AllocateAnyPages file_pages 0 mm N C f3) as Ha.
  destruct (fw (AllocatePages AllocateAnyPages EfiLoaderData file_pages (Some 0)) f3) as [[s2 raw] f4] eqn:E3.
  apply (wps_act _ _ _ _ _ _ _ E3). intros Hsv3. destruct (Ha Hsv3 H3) as (Hal & Hr0 & Hr1 & _ & H4 & _). cbn [snd] in *.
  set (O := fun x => N x \/ in_range raw file_pages x) in *. pose proof (elf_header Helf) as Hh.
  assert (Hu : u64 (file_pages * 0x1000) = file_pages * 4096).
  { unfold u64. apply Z.mod_small. unfold file_pages in *. pose proof (Z.mul_div_le (file_len + 0xfff) 0x1000 ltac:(lia)). lia. }
  rewrite Hu.
  assert (H5 : knows mm O C (fw (SetMem raw (file_pages * 4096) 0) f4).2).
  { eapply (knows_mono _ O _ _ C); [done| |refine (knows_write _ raw (file_pages * 4096) (fun _ => 0) _ _ C _ _ H4 _ _)].
    - intros x v Hx. by left.
    - intros x Hx. destruct (c_set Hfw raw (file_pages * 4096) 0 f4 x Hx). by split.
    - intros x Hx%within_spec. right. exact Hx.
    - done. }
  destruct (fw (SetMem raw (file_pages * 4096) 0) f4) as [[] f5] eqn:E4.
  apply (wps_act _ _ _ _ _ _ _ E4). intros _. cbn [snd] in H5.
  pose proof (c_read Hfw file file_len raw f5) as Hrd.
  destruct (fw (FileRead file file_len raw) f5) as [[s3 size'] f6] eqn:E5.
  apply (wps_act _ _ _ _ _ _ _ E5). intros Hsv4. destruct Hrd as [Hkp Hrd]. rewrite Hct in Hrd.
  specialize (Hrd Hsv4 ltac:(reflexivity)).
  assert (H6 : knows mm (in_range raw file_pages) (copied raw 0) f6).
  { pose proof (knows_keeps _ mm O C f5 f6 Hkp) as Hk6. destruct Hk6 as [Kb Ks Km Ko _]; [|done|].
    { intros x Hx Hst. apply (c_stack Hfw f5 x Hst). apply (k_own _ _ _ _ H5). right. split; lia. }
    assert (Hown : forall x, in_range raw file_pages x -> own f5 x) by (intros x Hx; apply (k_own _ _ _ _ H5); by right).
    constructor; [done|done|done|..].
    - intros x Hx. destruct (decide (raw <= x < raw + file_len)) as [Hin|Hout].
      + by apply (Hrd x); [apply Hown|].
      + apply Ko. split; [by right|done].
    - intros x v [[Hx ->]|(j & s & [Hj _] & Hj0 & _)]; [|lia].
      apply (Hrd x); [|done]. apply Hown. split; lia. }
  cbn [fst]. do 3 quiet_step mm (in_range raw file_pages) (copied raw 0). done.
Qed.
Definition loaded (x v : Z) : Prop :=
  exists j s, loads j s /\ within x (seg_vaddr s) (seg_memsz s) = true /\ v = segment_byte s x.

(** The pages from the one of the first segment to the one of the last byte. *)
Lemma load_pages first last :
  covers phnum first last ->
  let start := Z.shiftl (Z.shiftr first 12) 12 in
  let n := u64 (last - start + 0xfff) / 0x1000 in
  forall j s x, loads j s -> within x (seg_vaddr s) (seg_memsz s) = true -> in_range start n x.
Proof.
  intros (Hf & Hl & Hc) start n j s x Hs Hx%within_spec. destruct (Hc j s Hs) as [H1 H2]; [apply Hs|].
  assert (Hst : start <= first < start + 4096).
  { unfold start. rewrite Z.shiftl_mul_pow2, Z.shiftr_div_pow2 by lia. change (2 ^ 12) with 4096.
    pose proof (Z.div_mod first 4096 ltac:(lia)). pose proof (Z.mod_pos_bound first 4096 ltac:(lia)). lia. }
  assert (Hn : last <= start + n * 4096).
  { unfold n, u64. rewrite Z.mod_small by lia. change 0x1000 with 4096.
    pose proof (Z.div_mod (last - start + 0xfff) 4096 ltac:(lia)).
    pose proof (Z.mod_pos_bound (last - start + 0xfff) 4096 ltac:(lia)). lia. }
  split; lia.
Qed.

Lemma load_kernel_ok raw mm f E :
  0 <= raw -> raw + file_pages * 4096 <= 2 ^ 64 -> knows mm (in_range raw file_pages) (copied raw 0) f ->
  wps (load_kernel raw file_pages) f
    (fun entry f' => entry = le 8 byte_of 0x18 /\ knows mm (fun _ => False) loaded f') E.
Proof.
  intros Hr0 Hr1 Hk. unfold load_kernel, e_entry. set (R := in_range raw file_pages) in *.
  pose proof (elf_header Helf) as Hh. destruct file_fits as [Hfit _].
  assert (HC : image raw (copied raw 0)) by (split_and!; [done|lia|]; intros x Hx; by left).
  refine (wps_word 8 0x18 raw _ _ mm R _ f _ E HC _ _ _ _ Hk _); try lia.
  { unfold u64. apply Z.mod_small. lia. }
  intros f1 H1. eapply wps_bind; [by apply (CalcLoadAddressRange_ok raw mm R (copied raw 0) f1)|].
  intros [first last] f2 [H2 Hcov]. cbn [fst snd] in Hcov. pose proof (load_pages first last Hcov) as Hin. cbv zeta in Hin.
  set (start := Z.shiftl (Z.shiftr first 12) 12) in *. set (n := u64 (last - start + 0xfff) / 0x1000) in *.
  pose proof (knows_alloc AllocateAddress n start mm R (copied raw 0) f2) as Ha.
  destruct (fw (AllocatePages AllocateAddress EfiLoaderData n (Some start)) f2) as [[status a] f3] eqn:E3.
  apply (wps_act _ _ _ _ _ _ _ E3). intros Hsv. cbn [fst snd] in *.
  destruct (Ha Hsv H2) as (_ & _ & _ & Hat & H3 & Hfresh). rewrite (Hat eq_refl) in *. clear Ha Hat.
  set (K := in_range start n) in *.
  assert (Hapart : forall x, K x -> ~ R x).
  { intros x Hx Hr. apply (Hfresh x Hx). by apply (k_own _ _ _ _ H2). }
  eapply wps_bind; [by apply (stop_on_ok _ mm _ _ f3 E H3)|]. intros [] f4 H4.
  eapply wps_bind; [apply (CopyLoadSegments_ok raw mm K); [done|lia|exact Hin| |]|].
  { intros x Hx Hf. apply (Hapart x Hx). split; lia. }
  { apply (knows_mono _ (fun x => R x \/ K x) _ (copied raw 0)); [by right|done|done]. }
  intros [] f5 H5. quiet_step mm K (copied raw phnum).
  apply (wps_quiet _ _ mm K (copied raw phnum)); [done|done|]. intros [] f6 _ H6.
  assert (H7 : knows mm (fun _ => False) loaded (fw (FreePages raw file_pages) f6).2).
  { eapply knows_mono; [| |refine (knows_keeps _ mm K _ _ _ (c_free Hfw raw file_pages f6) _ H6)].
    - done.
    - intros x v (j & s & Hs & Hx & ->). split; [right; exists j, s; split_and!; try done; apply Hs|].
      apply (Hapart x). by apply (Hin j s).
    - intros x Hx Hst. apply (c_stack Hfw f2 x Hst). by apply (k_own _ _ _ _ H2). }
  destruct (fw (FreePages raw file_pages) f6) as [status' f7] eqn:E7.
  apply (wps_act _ _ _ _ _ _ _ E7). intros _. cbn [snd] in H7.
  eapply wps_bind; [by apply (stop_on_ok _ mm (fun _ => False) loaded f7)|]. by intros [] f8 H8.
Qed.
Definition nothing (x : Z) : Prop := False.

(** The page at address 0 is cleared on the way, which is not the loader's. *)
Lemma knows_clear_zero mm f :
  knows mm nothing loaded f -> knows mm nothing loaded (fw (SetMem 0 4096 0) f).2.
Proof.
  intros Hk. assert (Hkp : keeps (fun x => 0 <= x < 4096) f (fw (SetMem 0 4096 0) f).2).
  { intros x Hx Hp. destruct (c_set Hfw 0 4096 0 f x Hx) as [H1 H2]. split; [done|]. rewrite H2.
    destruct (within x 0 4096) eqn:E; [|done]. by apply within_spec in E. }
  eapply knows_mono; [| |refine (knows_keeps _ mm _ _ _ _ Hkp _ Hk)].
  - done.
  - intros x v Hx. split; [done|]. destruct Hx as (j & s & Hs & Hw%within_spec & _).
    pose proof (elf_segment Helf j s Hs). lia.
  - unfold on_stack. lia.
Qed.

Lemma query_loop_ok fuel gop i mm f E :
  knows mm nothing loaded f -> Z.max 0 (Z.of_nat max_modes - i) < Z.of_nat fuel ->
  wps (query_loop fuel gop i) f (fun _ f' => knows mm nothing loaded f') E.
Proof.
  revert i f. induction fuel as [|fuel IH]; intros i f Hk Hf; [lia|]. cbn [query_loop].
  apply (wps_quiet _ _ mm nothing loaded); [done|done|]. intros mode f1 [Hm _] H1.
  destruct (Z.ltb_spec i (u32 (MaxMode mode))); [|done]. quiet_step mm nothing loaded. apply IH; [done|lia].
Qed.

Definition config_of (mode : GOP_MODE) (c : FrameBufferConfig) : Prop :=
  SetKernelFrameBufferConfig (Some frameBufferConfig_zero) (Some mode) = (EFI_SUCCESS, Some c).

Lemma set_graphics_ok gop mm f E :
  knows mm nothing loaded f ->
  wps (set_graphics max_modes gop) f (fun c f' => config_of (gop_mode f') c /\ knows mm nothing loaded f') E.
Proof.
  intros Hk. unfold set_graphics. eapply (wps_bind _ _ _ (fun _ f' => knows mm nothing loaded f')).
  { unfold gopQueryAndSet. apply (wps_quiet _ _ mm nothing loaded); [done|done|]. intros r f0 _ H0.
    change ((sizeof_MODE_INFORMATION + 0xfff) / 0x1000 * 0x1000) with 4096.
    pose proof (knows_clear_zero mm _ H0) as H1. destruct (fw (SetMem 0 4096 0) f0) as [[] f2] eqn:E2.
    apply (wps_act _ _ _ _ _ _ _ E2). intros _. cbn [snd] in H1.
    eapply wps_bind; [apply (query_loop_ok _ gop 0 mm f2); [done|]|].
    { rewrite Nat2Z.inj_succ. lia. }
    intros [] f3 H3. intros _. exact (knows_quiet (SetMode gop 17) mm nothing loaded f3 eq_refl H3). }
  intros _ f1 H1. pose proof (knows_quiet (GopMode gop) mm nothing loaded f1 eq_refl H1) as H2.
  pose proof (c_mode Hfw gop f1) as Hm. pose proof (c_gop Hfw (GopMode gop) f1 ltac:(done)) as Hg.
  destruct (fw (GopMode gop) f1) as [mode f2] eqn:E2. cbn [fst snd] in Hm, Hg, H2.
  apply (wps_act _ _ _ _ _ _ _ E2). intros [_ Hpf]. rewrite Hm in *. clear mode Hm E2.
  assert (Hc : exists c, config_of (gop_mode f1) c).
  { unfold config_of, SetKernelFrameBufferConfig. destruct Hpf as [-> | ->]; by eexists. }
  destruct Hc as [c Hc]. unfold config_of in Hc. rewrite Hc. cbn [EFI_ERROR EFI_SUCCESS].
  change (2 ^ 63 <=? 0) with false. cbn iota.
  change (wps (act Print ≫= fun _ => mret c) f2 (fun c f' => config_of (gop_mode f') c /\ knows mm nothing loaded f') E).
  pose proof (c_gop Hfw Print f2 ltac:(done)) as Hg2. pose proof (knows_quiet Print mm nothing loaded f2 eq_refl H2) as H3.
  destruct (fw Print f2) as [[] f3] eqn:E3. apply (wps_act _ _ _ _ _ _ _ E3). intros _. cbn [snd] in *.
  split; [|done]. by rewrite Hg2, Hg.
Qed.
Lemma left_ok image_handle mm c f :
  knows mm nothing loaded f -> config_of (gop_mode f) c -> map_key mm = key f ->
  let '(status, f') := fw (ExitBootServices image_handle (map_key mm)) f in
  EFI_ERROR status = false /\ descriptors_at (mem f') mm = mem_map f' /\ config_of (gop_mode f') c
  /\ knows mm nothing loaded f'.
Proof.
  intros Hk Hc Hkey.
  pose proof (knows_quiet (ExitBootServices image_handle (map_key mm)) mm nothing loaded f eq_refl Hk) as H1.
  pose proof (c_exit Hfw image_handle (map_key mm) f) as He.
  pose proof (c_gop Hfw (ExitBootServices image_handle (map_key mm)) f ltac:(done)) as Hg.
  pose proof (c_quiet Hfw (ExitBootServices image_handle (map_key mm)) f eq_refl) as Hq.
  destruct (fw (ExitBootServices image_handle (map_key mm)) f) as [status f1]. cbn [snd] in *.
  destruct He as [[_ He] Hmm]. specialize (He Hkey). split_and!; [done| |by rewrite Hg|done].
  rewrite (Hmm He). destruct Hk as [[Hb _] [Hd Hs] (f0 & Hk0 & Hds) _ _].
  rewrite (c_key Hfw f f0) by congruence. rewrite <- Hds. apply descriptors_same; [done|lia|done|].
  intros x Hx. apply (Hq x); [by right|tauto].
Qed.

Lemma exit_services_ok image_handle mm c f E :
  knows mm nothing loaded f -> config_of (gop_mode f) c ->
  wps (exit_services image_handle mm) f
    (fun mm' f' => descriptors_at (mem f') mm' = mem_map f' /\ config_of (gop_mode f') c /\ knows mm' nothing loaded f') E.
Proof.
  intros Hk Hc. unfold exit_services. pose proof (left_ok image_handle mm c f Hk Hc) as Hl.
  pose proof (knows_quiet (ExitBootServices image_handle (map_key mm)) mm nothing loaded f eq_refl Hk) as H1.
  pose proof (c_exit Hfw image_handle (map_key mm) f) as He.
  pose proof (c_gop Hfw (ExitBootServices image_handle (map_key mm)) f ltac:(done)) as Hg.
  destruct (fw (ExitBootServices image_handle (map_key mm)) f) as [status f1] eqn:E1. cbn [snd] in H1, Hg.
  apply (wps_act _ _ _ _ _ _ _ E1). intros _. destruct (EFI_ERROR status) eqn:Es.
  - destruct (k_buf _ _ _ _ H1) as [Hb Hbs].
    eapply wps_bind; [apply (GetMemoryMap_ok mm f1 nothing loaded); [lia|done|done|done|apply (k_mem _ _ _ _ H1)]|].
    intros [status' mm'] f2 (Hs & Hkey & Hd & Hg2 & H2). cbn [fst snd] in *. rewrite Hs.
    pose proof (left_ok image_handle mm' c f2 H2 ltac:(by rewrite Hg2, Hg) Hkey) as Hl2.
    destruct (fw (ExitBootServices image_handle (map_key mm')) f2) as [status2 f3] eqn:E3.
    apply (wps_act _ _ _ _ _ _ _ E3). intros _. destruct Hl2 as [-> Hl2]. exact Hl2.
  - destruct He as [[He _] _]. destruct (Hl (He eq_refl)) as [_ Hl']. exact Hl'.
Qed.

(** ** All of it

    In memory are the segments of the kernel, the kernel is given a map of the memory
    that is the firmware's, and the mode that the screen is in. *)
Definition kernel_ready (entry : Z) (c : FrameBufferConfig) (mm : MemoryMap) (f : F) : Prop :=
  entry = le 8 byte_of 0x18
  /\ (forall i s x, loads i s -> seg_vaddr s <= x < seg_vaddr s + seg_memsz s ->
       own f x /\ mem f x = segment_byte s x)
  /\ descriptors_at (mem f) mm = mem_map f
  /\ config_of (gop_mode f) c.

Lemma UefiMain_ok image_handle f :
  wps (UefiMain AsciiSPrint header memmap_buf max_modes image_handle) f (fun _ _ => False) kernel_ready.
Proof.
  unfold UefiMain. eapply wps_bind; [apply save_map_ok|]. intros [[mm dir] status] f1 H1. cbn [fst] in H1.
  eapply wps_bind; [by apply (OpenGOP_ok _ mm (fun _ => False) (fun _ _ => False))|]. intros [s0 gop] f2 H2. cbn [snd].
  eapply wps_bind; [by apply (read_kernel_ok dir status mm)|]. intros [raw n] f3 (Hn & Hr0 & Hr1 & H3). cbn [fst snd] in *. subst n.
  eapply wps_bind; [by apply (load_kernel_ok raw mm)|]. intros entry f4 [-> H4].
  eapply wps_bind; [by apply (set_graphics_ok gop mm)|]. intros c f5 [Hc H5].
  eapply wps_bind; [by apply (exit_services_ok image_handle mm c)|]. intros mm' f6 (Hd & Hc6 & H6).
  cbn [wps]. split_and!; [done| |done|done].
  intros i s x Hs Hx. apply (k_mem _ _ _ _ H6). exists i, s. split_and!; [done|by apply within_spec|done].
Qed.
End conforming.
