(* ===== verification/LoaderBoot.v ===== *)
(** * From the boot loader to the kernel

    The theorems on a conforming firmware; that the kernel, when it builds its bitmap of
    page frames from the map it is given, keeps the frames of its own segments; and a
    small firmware on which the loader runs. *)
From Stdlib Require Import ZArith Lia String.
From stdpp Require Import base option list numbers.
From S2P Require Import Prelude Frames Loader LoaderKernel.

Section booting.
Context {F : Type} (fw : forall a, F -> result a * F).
Context (mem : F -> Z -> Z) (page_type : F -> Z -> Z) (mem_map : F -> list MemoryDescriptor) (key : F -> Z).
Context (gop_mode : F -> GOP_MODE) (contents : Z -> list Z) (kernel_elf : list Z).
Context (memmap_buf : Z) (max_modes : nat).
Context (AsciiSPrint : Z -> Z -> string -> Z -> Z -> Z -> list Z) (header : list Z).

Lemma boot_ready image_handle f o f' t :
  conforms fw mem page_type mem_map key gop_mode contents kernel_elf memmap_buf -> elf_ok kernel_elf ->
  4096 <= memmap_buf -> memmap_buf + 65536 + 4096 < 2 ^ 64 ->
  run fw (UefiMain AsciiSPrint header memmap_buf max_modes image_handle) f = (o, f', t) ->
  Forall (served_call max_modes) t ->
  exists entry fbc memmap, o = Entered entry fbc memmap
    /\ kernel_ready mem page_type mem_map gop_mode kernel_elf entry fbc memmap f'.
Proof.
  intros Hfw Helf Hb1 Hb2 Hrun Ht.
  pose proof (wps_run fw max_modes _ f _ _
    (UefiMain_ok fw mem page_type mem_map key gop_mode contents kernel_elf memmap_buf max_modes Hfw Helf
       AsciiSPrint header Hb1 Hb2 image_handle f)) as H.
  rewrite Hrun in H. specialize (H Ht). cbn [fst snd] in H. destruct o as [x| |entry fbc memmap]; [done|done|].
  by exists entry, fbc, memmap.
Qed.

(** C16. On a firmware that conforms and serves its calls the loader comes to an end: it
    enters the kernel at the address its ELF file names.  Every segment of the file is
    then in memory at its address, its bytes from the file followed by zeros, in pages
    that the firmware regards as the loader's; the memory map that is handed over is the
    firmware's current one, and the configuration is that of the mode of the screen. *)
Theorem kernel_loaded image_handle f o f' t :
  conforms fw mem page_type mem_map key gop_mode contents kernel_elf memmap_buf -> elf_ok kernel_elf ->
  4096 <= memmap_buf -> memmap_buf + 65536 + 4096 < 2 ^ 64 ->
  run fw (UefiMain AsciiSPrint header memmap_buf max_modes image_handle) f = (o, f', t) ->
  Forall (served_call max_modes) t ->
  exists fbc memmap, o = Entered (le 8 (byte_of kernel_elf) 0x18) fbc memmap
    /\ (forall i s x, loads kernel_elf i s -> seg_vaddr s <= x < seg_vaddr s + seg_memsz s ->
         page_type f' (x / 4096) = EfiLoaderData
         /\ mem f' x = if x <? seg_vaddr s + seg_filesz s
                       then byte_of kernel_elf (seg_offset s + (x - seg_vaddr s)) else 0)
    /\ descriptors_at (mem f') memmap = mem_map f'
    /\ SetKernelFrameBufferConfig (Some frameBufferConfig_zero) (Some (gop_mode f')) = (EFI_SUCCESS, Some fbc).
Proof.
  intros Hfw Helf Hb1 Hb2 Hrun Ht.
  destruct (boot_ready image_handle f o f' t Hfw Helf Hb1 Hb2 Hrun Ht) as (e & c & mm & -> & -> & Hs & Hd & Hc).
  by exists c, mm.
Qed.

(** C17. The kernel reads the map it was handed and builds its bitmap of page frames
    from it: no frame that holds a byte of its own segments is free in it. *)
Theorem kernel_image_reserved image_handle f o f' t :
  conforms fw mem page_type mem_map key gop_mode contents kernel_elf memmap_buf -> elf_ok kernel_elf ->
  4096 <= memmap_buf -> memmap_buf + 65536 + 4096 < 2 ^ 64 ->
  run fw (UefiMain AsciiSPrint header memmap_buf max_modes image_handle) f = (o, f', t) ->
  Forall (served_call max_modes) t -> map_ok 0 (mem_map f') ->
  exists entry fbc memmap m, o = Entered entry fbc memmap
    /\ setup_frames (descriptors_at (mem f') memmap) = Some m
    /\ forall i s x, loads kernel_elf i s -> seg_vaddr s <= x < seg_vaddr s + seg_memsz s ->
         x / kBytesPerFrame < range_end_ m -> marked m (x / kBytesPerFrame) = true.
Proof.
  intros Hfw Helf Hb1 Hb2 Hrun Ht Hmap.
  destruct (boot_ready image_handle f o f' t Hfw Helf Hb1 Hb2 Hrun Ht) as (e & c & mm & -> & _ & Hs & Hd & _).
  destruct (setup_frames_correct _ Hmap) as (m & Em & _ & _ & _ & Hm). exists e, c, mm, m. rewrite Hd.
  split_and!; [done|done|]. intros i s x Hl Hx Hend.
  pose proof (elf_segment _ Helf i s Hl) as (_ & _ & _ & Hv & _).
  change kBytesPerFrame with 4096 in *.
  rewrite Hm by (split; [apply Z.div_pos; lia|done]). apply negb_true_iff, not_true_iff_false. unfold available_in.
  rewrite existsb_exists. intros (d & Hin%list_elem_of_In & [Ha Hr]%andb_true_iff). apply in_run_spec in Hr.
  pose proof (c_types _ _ _ _ _ _ _ _ _ Hfw f' d (x / 4096) Hin) as Ht'. unfold in_pages, desc_lo in *.
  change kBytesPerFrame with 4096 in Hr. destruct (Hs i s x Hl Hx) as [Hown _]. unfold own in Hown.
  rewrite Hown in Ht'. rewrite <- Ht' in Ha by lia. done.
Qed.
End booting.

(** ** A small firmware

    It knows the pages it has given out, and reports three pages in its map; the loader's
    stack is the buffer at 2 MiB. *)
Record firm := mkFirm { fmem : Z -> Z; given : list (Z * Z * Z) }.

Definition demo_buf : Z := 0x200000.
Definition demo_stack : Z := 0x200.
Definition demo_type (f : firm) (p : Z) : Z :=
  if (demo_stack <=? p) && (p <? demo_stack + 17) then 4
  else match find (fun '(s, n, _) => (s <=? p) && (p <? s + n)) (given f) with
       | Some (_, _, t) => if t =? 2 then 2 else 7
       | None => 7
       end.

Definition demo_map (f : firm) : list MemoryDescriptor :=
  [mkDesc (demo_type f 1) 0x1000 1; mkDesc (demo_type f 0x100) 0x100000 1; mkDesc (demo_type f 0x300) 0x300000 1].
Definition demo_key (f : firm) : Z := demo_type f 1 * 100 + demo_type f 0x100 * 10 + demo_type f 0x300.

Definition free_run (f : firm) (s n : Z) : bool :=
  ((s + n <=? demo_stack) || (demo_stack + 17 <=? s))
  && forallb (fun '(s', n', _) => (s' + n' <=? s) || (s + n <=? s')) (given f).

Definition demo_mode : GOP_MODE := mkMode 3 1 1024 768 1024 0x80000000.

(** Byte [o] of the map as it is written to the buffer. *)
Definition map_byte (f : firm) (o : Z) : Z :=
  match demo_map f !! Z.to_nat (o / 40) with
  | None => 0
  | Some d =>
      let o := o mod 40 in
      if o =? 0 then d_type d
      else if (8 <=? o) && (o <? 16) then Z.shiftr (physical_start d) (8 * (o - 8)) mod 256
      else if o =? 24 then number_of_pages d
      else 0
  end.

Definition write_map (f : firm) (buf : Z) : firm :=
  mkFirm (fun x => if within x buf 120 then map_byte f (x - buf) else fmem f x) (given f).

Section demo.
Context (elf : list Z).
Definition out_of_resources : Z := 2 ^ 63 + 9.

Definition demo_alloc (type : AllocateType) (mt n a : Z) (f : firm) : Z * Z * firm :=
  let a := match type with AllocateAddress => a | _ => 0x300000 end in
  if (mt =? 2) && (a mod 4096 =? 0) && (0 <=? a) && (a + n * 4096 <=? 2 ^ 64) && free_run f (a / 4096) n
  then (EFI_SUCCESS, a, mkFirm (fmem f) ((a / 4096, n, 2) :: given f))
  else (out_of_resources, a, f).

Definition demo_fw (a : action) (f : firm) : result a * firm :=
  match a return result a * firm with
  | OpenProtocol _ _ | OpenVolume _ => ((EFI_SUCCESS, 1), f)
  | FileOpen _ _ _ => ((EFI_SUCCESS, 1), f)
  | LocateHandleBuffer _ => ((EFI_SUCCESS, 1, 0x8000), f)
  | FileRead _ size addr =>
      ((EFI_SUCCESS, size),
       mkFirm (fun x => if within x addr size then nth (Z.to_nat (x - addr)) elf 0 else fmem f x) (given f))
  | GetFileInfo _ _ => ((EFI_SUCCESS, Z.of_nat (length elf)), f)
  | AllocatePages type mt n (Some a) => demo_alloc type mt n a f
  | AllocatePages _ _ _ None => ((EFI_INVALID_PARAMETER, 0), f)
  | FreePages addr n =>
      if addr mod 4096 =? 0 then (EFI_SUCCESS, mkFirm (fmem f) ((addr / 4096, n, 7) :: given f))
      else (EFI_INVALID_PARAMETER, f)
  | SetMem dst n v => (tt, mkFirm (fun x => if within x dst n then v else fmem f x) (given f))
  | CopyMem dst src n => (tt, mkFirm (fun x => if within x dst n then fmem f (src + (x - dst)) else fmem f x) (given f))
  | BsGetMemoryMap size buf _ _ _ =>
      if 120 <=? size then ((EFI_SUCCESS, (120, demo_key f, 40, 1)), write_map f buf)
      else ((EFI_BUFFER_TOO_SMALL, (120, 0, 40, 1)), f)
  | ExitBootServices _ k => (if k =? demo_key f then EFI_SUCCESS else EFI_INVALID_PARAMETER, f)
  | GopMode _ => (demo_mode, f)
  | Load n addr => (le (Z.to_nat n) (fmem f) addr, f)
  | FreePool _ | Print | Hlt => (tt, f)
  | DeviceHandle _ | FileWrite _ _ | FileClose _ | QueryMode _ _ | SetMode _ _ => (EFI_SUCCESS, f)
  end.

Lemma demo_type_cases f p : demo_type f p = 2 \/ demo_type f p = 4 \/ demo_type f p = 7.
Proof. unfold demo_type. repeat case_match; tauto. Qed.

Lemma demo_key_map f f' : demo_key f = demo_key f' -> demo_map f = demo_map f'.
Proof.
  unfold demo_key, demo_map. intros H.
  pose proof (demo_type_cases f 1); pose proof (demo_type_cases f 0x100); pose proof (demo_type_cases f 0x300).
  pose proof (demo_type_cases f' 1); pose proof (demo_type_cases f' 0x100); pose proof (demo_type_cases f' 0x300).
  assert (demo_type f 1 = demo_type f' 1 /\ demo_type f 0x100 = demo_type f' 0x100 /\ demo_type f 0x300 = demo_type f' 0x300)
    as (-> & -> & ->) by lia. done.
Qed.

Lemma free_run_type f s n p : free_run f s n = true -> s <= p < s + n -> demo_type f p = 7.
Proof.
  intros [Hst Hg]%andb_true_iff Hp. unfold demo_type.
  destruct ((demo_stack <=? p) && (p <? demo_stack + 17)) eqn:E.
  { apply orb_true_iff in Hst. rewrite !Z.leb_le in Hst. apply andb_true_iff in E. rewrite Z.leb_le, Z.ltb_lt in E. lia. }
  destruct (find _ _) as [[[s' n'] t]|] eqn:Ef; [|done]. apply find_some in Ef as [Hin Hr].
  rewrite forallb_forall in Hg. specialize (Hg _ Hin). cbn in Hg, Hr. lia.
Qed.

Lemma demo_map_written f size k v :
  descriptors_at (fmem (write_map f demo_buf)) (mkMap size demo_buf 120 k 40 v) = demo_map f.
Proof.
  unfold descriptors_at, write_map, map_byte, demo_map.
  pose proof (demo_type_cases f 1) as H1. pose proof (demo_type_cases f 0x100) as H2.
  pose proof (demo_type_cases f 0x300) as H3. revert H1 H2 H3.
  generalize (demo_type f 1) (demo_type f 0x100) (demo_type f 0x300). intros t1 t2 t3.
  intros [-> | [-> | ->]] [-> | [-> | ->]] [-> | [-> | ->]]; vm_compute; reflexivity.
Qed.

Lemma demo_given mem mem' g p : demo_type (mkFirm mem g) p = demo_type (mkFirm mem' g) p.
Proof. done. Qed.

Lemma demo_alloc_spec type mt n a f :
  let '(st, r, f') := demo_alloc type mt n a f in
  (forall x, demo_type f x = 2 -> demo_type f' x = 2) /\ fmem f' = fmem f
  /\ (EFI_ERROR st = false ->
      (4096 | r) /\ 0 <= r /\ r + n * 4096 <= 2 ^ 64 /\ (type = AllocateAddress -> r = a)
      /\ forall p, in_pages p r n -> demo_type f p = 7 /\ demo_type f' p = mt).
Proof.
  unfold demo_alloc. set (r := match type with AllocateAddress => a | _ => 0x300000 end).
  destruct (_ && free_run f (r / 4096) n) eqn:E; [|split_and!; done].
  rewrite !andb_true_iff, Z.eqb_eq, Z.eqb_eq, !Z.leb_le in E. destruct E as ((((-> & Hm) & H0) & H1) & Hf).
  assert (Hnew : forall p, demo_type f p = 2 -> demo_type (mkFirm (fmem f) ((r / 4096, n, 2) :: given f)) p = 2).
  { intros p Hp. unfold demo_type in *. destruct (_ && _); [done|]. cbn [given find]. by destruct (_ && _). }
  split_and!; [done|done|]. intros _. split_and!; [by apply Z.mod_divide|done|done|by intros ->|].
  intros p Hp. unfold in_pages in Hp. pose proof (free_run_type f (r / 4096) n p Hf Hp) as H7. split; [done|].
  unfold demo_type in *. destruct (_ && _) eqn:Es; [done|]. cbn [given find].
  replace ((r / 4096 <=? p) && (p <? r / 4096 + n)) with true by lia. done.
Qed.

Lemma demo_conforms :
  conforms demo_fw fmem demo_type demo_map demo_key (fun _ => demo_mode) (fun _ => elf) elf demo_buf.
Proof.
  constructor.
  - intros a f Ha x Hx _. destruct a; try done; cbn [demo_fw snd].
    destruct addr as [a|]; [|done]. pose proof (demo_alloc_spec type memory_type pages a f) as H.
    destruct (demo_alloc _ _ _ _ _) as [[st r] f']. destruct H as (H1 & H2 & _). cbn [snd]. rewrite H2. split; [apply H1|done].
  - done.
  - done.
  - done.
  - done.
  - done.
  - intros file size a f. cbn [demo_fw]. split.
    + intros x _ Hx. cbn [fmem]. split; [done|]. destruct (within x a size) eqn:E; [|done]. by apply within_spec in E.
    + intros _ _ x Hx Hr. split; [done|]. cbn [fmem]. by rewrite (proj2 (within_spec x a size) Hr).
  - intros type mt n a f. cbn [demo_fw]. pose proof (demo_alloc_spec type mt n a f) as H.
    destruct (demo_alloc _ _ _ _ _) as [[st r] f']. cbn [fst snd]. apply H.
  - intros a n f x Hx Hout. cbn [demo_fw]. destruct (Z.eqb_spec (a mod 4096) 0) as [Ha|]; [|done]. cbn [snd].
    split; [|done]. unfold own, demo_type. destruct (_ && _); [done|]. cbn [given find].
    destruct ((a / 4096 <=? x / 4096) && (x / 4096 <? a / 4096 + n)) eqn:E; [|done]. exfalso. apply Hout.
    apply andb_true_iff in E. rewrite Z.leb_le, Z.ltb_lt in E.
    pose proof (Z.div_mod a 4096 ltac:(lia)). pose proof (Z.div_mod x 4096 ltac:(lia)).
    pose proof (Z.mod_pos_bound x 4096 ltac:(lia)). lia.
  - intros size buf k d v f. cbn [demo_fw]. destruct (Z.leb_spec 120 size); [|by split].
    split; [|intros _; split_and!; try lia; [done|intros ->; exact (demo_map_written f _ _ _)]].
    intros x _ Hx. split; [done|]. cbn [write_map fmem]. destruct (within x buf 120) eqn:E; [|done].
    apply within_spec in E. lia.
  - intros f x Hx. unfold own, demo_type. unfold on_stack, demo_buf in Hx.
    assert (demo_stack <= x / 4096 < demo_stack + 17) as [H1 H2].
    { unfold demo_stack. split; [apply Z.div_le_lower_bound; lia|apply Z.div_lt_upper_bound; lia]. }
    apply Z.leb_le in H1. apply Z.ltb_lt in H2. by rewrite H1, H2.
  - intros image k f. cbn [demo_fw]. destruct (Z.eqb_spec k (demo_key f)); split; done.
  - apply demo_key_map.
  - intros f d p Hd Hp. unfold demo_map in Hd. unfold in_pages in Hp.
    rewrite !elem_of_cons, elem_of_nil in Hd. destruct Hd as [-> | [-> | [-> | []]]]; cbn in *.
    + replace p with 1 by (change (4096 / 4096) with 1 in Hp; lia). done.
    + replace p with 0x100 by (change (1048576 / 4096) with 0x100 in Hp; lia). done.
    + replace p with 0x300 by (change (3145728 / 4096) with 0x300 in Hp; lia). done.
  - done.
  - done.
Qed.
End demo.

(** A kernel with one segment of 4 bytes of code and 12 bytes of zeros. *)
Fixpoint bytes (n : nat) (v : Z) : list Z := match n with O => [] | S n => v mod 256 :: bytes n (v / 256) end.
Definition demo_phdr (type offset vaddr filesz memsz : Z) : list Z :=
  bytes 4 type ++ bytes 4 5 ++ bytes 8 offset ++ bytes 8 vaddr ++ bytes 8 vaddr ++ bytes 8 filesz ++ bytes 8 memsz
    ++ bytes 8 4096.
Definition demo_elf : list Z :=
  replicate 24 0 ++ bytes 8 0x100002 ++ bytes 8 64 ++ bytes 8 0 ++ bytes 8 0 ++ bytes 8 2
    ++ demo_phdr 4 0 0 0 0 ++ demo_phdr 1 176 0x100000 4 16 ++ [0x90; 0x90; 0xeb; 0xfe].
Definition demo_code : segment := mkSeg 176 0x100000 4 16.

Lemma demo_loads i s : loads demo_elf i s <-> i = 1 /\ s = demo_code.
Proof.
  unfold loads. assert (phnum demo_elf = 2) as -> by (vm_compute; reflexivity). split.
  - intros [Hi Hs]. assert (i = 0 \/ i = 1) as [-> | ->] by lia; vm_compute in Hs; [done|]. split; [done|]. injection Hs as <-. reflexivity.
  - intros [-> ->]. split; [lia|]. vm_compute. reflexivity.
Qed.

Lemma demo_elf_ok : elf_ok demo_elf.
Proof.
  constructor.
  - vm_compute. split; congruence.
  - vm_compute. split; congruence.
  - intros i s [-> ->]%demo_loads. vm_compute. repeat split; congruence.
  - intros i j s s' x [-> _]%demo_loads [-> _]%demo_loads. done.
  - exists 1, demo_code. exact (proj2 (demo_loads 1 demo_code) (conj eq_refl eq_refl)).
Qed.

(** That a call was served, as a test. *)
Definition servedb (max_modes : nat) (c : call) : bool :=
  match c with
  | existT (AllocatePages _ _ _ (Some _)) r => negb (EFI_ERROR r.1)
  | existT (FileOpen _ kernel_elf_name _) r => negb (EFI_ERROR r.1)
  | existT (FileRead _ _ _) r => negb (EFI_ERROR r.1)
  | existT (GetFileInfo _ _) r => negb (EFI_ERROR r.1)
  | existT (BsGetMemoryMap _ _ _ _ _) r => negb (EFI_ERROR r.1)
  | existT (GopMode _) m => (u32 (MaxMode m) <=? Z.of_nat max_modes) && ((PixelFormat_ m =? 0) || (PixelFormat_ m =? 1))
  | _ => true
  end.

Lemma servedb_served n t : forallb (servedb n) t = true -> Forall (served_call n) t.
Proof.
  rewrite forallb_forall. intros H. apply list.Forall_forall. intros c Hc%list_elem_of_In%H. destruct c as [a r].
  unfold served_call. destruct a; cbn in *; repeat case_match; try done; try by apply negb_true_iff.
  apply andb_true_iff in Hc as [H1 H2]. rewrite orb_true_iff, !Z.eqb_eq in H2. by apply Z.leb_le in H1.
Qed.

Definition demo_boot : outcome Z * firm * list call :=
  run (demo_fw demo_elf) (UefiMain (fun _ _ _ _ _ _ => [10]) [10] demo_buf 30 7) (mkFirm (fun _ => 0) []).

Lemma demo_served : forallb (servedb 30) demo_boot.2 = true.
Proof. vm_compute. reflexivity. Qed.

Lemma kernel_loaded_witness :
  exists fbc memmap, demo_boot.1.1 = Entered 0x100002 fbc memmap /\ fmem demo_boot.1.2 0x100002 = 0xeb
    /\ fmem demo_boot.1.2 0x100004 = 0 /\ pixel_format fbc = kPixelBGRResv8BitPerColor.
Proof.
  destruct demo_boot as [[o f'] t] eqn:E. pose proof demo_served as Hs. rewrite E in Hs. cbn [fst snd] in *.
  destruct (kernel_loaded (demo_fw demo_elf) fmem demo_type demo_map demo_key (fun _ => demo_mode) (fun _ => demo_elf)
    demo_elf demo_buf 30 (fun _ _ _ _ _ _ => [10]) [10] 7 (mkFirm (fun _ => 0) []) o f' t)
    as (fbc & mm & -> & Hseg & _ & Hc);
    [apply demo_conforms|apply demo_elf_ok|unfold demo_buf; lia|unfold demo_buf; lia|exact E|by apply servedb_served|].
  exists fbc, mm. assert (Hl : loads demo_elf 1 demo_code) by exact (proj2 (demo_loads 1 demo_code) (conj eq_refl eq_refl)).
  split; [vm_compute; reflexivity|]. split; [|split].
  - rewrite (proj2 (Hseg 1 demo_code 0x100002 Hl ltac:(cbn; lia))). vm_compute. reflexivity.
  - rewrite (proj2 (Hseg 1 demo_code 0x100004 Hl ltac:(cbn; lia))). vm_compute. reflexivity.
  - cbn in Hc. injection Hc as <-. reflexivity.
Defined.

Lemma demo_map_ok f : map_ok 0 (demo_map f).
Proof.
  cbn -[Z.divide Z.le]. split_and!; first [by vm_compute|exact I|idtac].
  - by exists 1.
  - by exists 0x100.
  - by exists 0x300.
Qed.

Lemma kernel_image_reserved_witness :
  exists entry fbc memmap m, demo_boot.1.1 = Entered entry fbc memmap
    /\ setup_frames (descriptors_at (fmem demo_boot.1.2) memmap) = Some m
    /\ (0x100 < range_end_ m -> marked m 0x100 = true).
Proof.
  destruct demo_boot as [[o f'] t] eqn:E. pose proof demo_served as Hs. rewrite E in Hs. cbn [fst snd] in *.
  destruct (kernel_image_reserved (demo_fw demo_elf) fmem demo_type demo_map demo_key (fun _ => demo_mode)
    (fun _ => demo_elf) demo_elf demo_buf 30 (fun _ _ _ _ _ _ => [10]) [10] 7 (mkFirm (fun _ => 0) []) o f' t)
    as (e & fbc & mm & m & -> & Hm & Hr);
    [apply demo_conforms|apply demo_elf_ok|unfold demo_buf; lia|unfold demo_buf; lia|exact E|by apply servedb_served| |].
  - apply demo_map_ok.
  - exists e, fbc, mm, m. split_and!; [done|done|]. intros Hend.
    refine (Hr 1 demo_code 0x100000 (proj2 (demo_loads 1 demo_code) (conj eq_refl eq_refl)) _ Hend). cbn. lia.
Defined.

(** ** Errors that do not stop the loader

    [hlt] waits for the next interrupt: when the kernel's file cannot be read, the loader
    goes on all the same, and enters the kernel at the address 0 that it reads from the
    cleared pages. *)
Definition EFI_DEVICE_ERROR : Z := 2 ^ 63 + 7.
Definition unreadable (a : action) : firm -> result a * firm :=
  match a return firm -> result a * firm with
  | FileRead _ size _ => fun f => ((EFI_DEVICE_ERROR, size), f)
  | a => demo_fw demo_elf a
  end.

Definition halts (c : call) : bool := match c with existT Hlt _ => true | _ => false end.

Lemma hlt_does_not_stop :
  let '(o, _, t) := run unreadable (UefiMain (fun _ _ _ _ _ _ => [10]) [10] demo_buf 30 7) (mkFirm (fun _ => 0) []) in
  existsb halts t = true /\ exists fbc memmap, o = Entered 0 fbc memmap.
Proof. vm_compute. split; [reflexivity|]. by eexists _, _. Qed.

(** The status of opening the kernel's file is not looked at: no halt, no message. *)
Definition missing (a : action) : firm -> result a * firm :=
  match a return firm -> result a * firm with
  | FileOpen _ kernel_elf_name _ => fun f => ((2 ^ 63 + 14, 0), f)
  | a => demo_fw demo_elf a
  end.

Lemma missing_file_unnoticed :
  let '(o, _, t) := run missing (UefiMain (fun _ _ _ _ _ _ => [10]) [10] demo_buf 30 7) (mkFirm (fun _ => 0) []) in
  existsb halts t = false /\ exists fbc memmap, o = Entered 0x100002 fbc memmap.
Proof. vm_compute. split; [reflexivity|]. by eexists _, _. Qed.

(** The first page of the memory is cleared, because the pointer that
    [gopQueryAndSet] means to allocate stays a null pointer. *)
Definition clears_page_zero (c : call) : bool :=
  match c with existT (SetMem a n v) _ => (a =? 0) && (n =? 4096) && (v =? 0) | _ => false end.

Lemma page_zero_cleared : existsb clears_page_zero demo_boot.2 = true.
Proof. vm_compute. reflexivity. Qed.
