(* ===== verification/Kernel64.v ===== *)
(** * The entry of the 64-bit kernel, KernelMainNewStack of src/src/main.cpp

    From the frame buffer and the memory map of the loader to the main loop: the
    desktop and the console, segments, page tables, page frames, the mouse cursor, the
    queue of messages, the scan of the PCI buses, the start of the USB host controller
    and of its ports.  The parts are those of the other files; here is the order of
    their calls.  Apart from the greeting the lines of the log are left out. *)
From Stdlib Require Import ZArith Lia.
From stdpp Require Import base option list numbers.
From S2P Require Import Prelude Loader Error Bits ArrayQueue Pci UsbMemory ArrayMap Ring Usb Trb XhciDevice Xhci XhciInit.
From S2P Require Import Frames Paging64 Segment64 Graphics64 Console64 Mouse64 Main64.

Set Default Proof Using "Type".

Definition kDesktopFGColor : PixelColor := mkColor 255 255 255.

(** src/src/interrupt.hpp *)
Definition kXHCI : Z := 0x40.
Definition idt_start : list InterruptDescriptor := replicate 256 (mkIDT 0 0 0 0 0 0).

(** "Unagi!\n" *)
Definition greeting : list Z := [85; 110; 97; 103; 105; 33; 10].

(** ** The screen *)
Section screen.
Context {W : Type} `{!PixelWriter W}.
(** The library's [vsprintf], and what the rest of the buffer on the stack holds. *)
Context {args : Type} (vsprintf : list Z -> args -> list Z * Z) (no_args : args) (stack : list Z).

Definition printk (format : list Z) (ap : args) (c : @Console W) : option (Z * @Console W) :=
  let '(text, result) := vsprintf format ap in
  if 1024 <? Z.of_nat (length text) + 1 then None
  else c ← PutString c (text ++ 0 :: stack); Some (result, c).

Definition start_console (w : W) (kFrameWidth kFrameHeight : Z) : option (@Console W) :=
  w ← paint_desktop w kFrameWidth kFrameHeight;
  '(_, c) ← printk greeting no_args (Console_new w kDesktopFGColor kDesktopBGColor);
  Some c.

(** ** The controller *)
Section machine.
Context (pci_hw : (Z -> Z) -> Z -> Z -> (Z -> Z)).
Context (io_hw : list access -> Z -> Z) (port_hw : nat -> Z -> Z) (patience : nat) (memory_pool : Z).
(** The register of the local APIC at 0xfee00020, and the address of [IntHandlerXHCI]. *)
Context (apic_id_register handler : Z).

(** The loop that logs the devices reads their registers. *)
Definition log_devices (ds : list Pci.Device) (s : pci) : pci :=
  foldl (fun s d =>
    let '(_, s) := ReadVendorId (dv_bus d) (dv_device d) (dv_function d) s in
    let '(_, s) := ReadClassCode (dv_bus d) (dv_device d) (dv_function d) s in s) s ds.

(** The rings of a controller as it is constructed. *)
Definition no_rings : Ring * EventRing := (mkRing 0 [] 0 false 0, mkERing 0 [] 0 0 0 0 false (mkIR 0 0 0)).

(** The state of the driver after [Initialize]: no port has been touched yet. *)
Definition xhc_of (rings : option (Ring * EventRing)) (s : io) : xhc :=
  let '(cr, er) := default no_rings rings in
  mkXhc (replicate 256 kNotConnected) 0 cr er
    (mkMgr (replicate (length (io_contexts s)) None) (io_contexts s) kDeviceSize) (io_alloc s) [] [] [] 0.

(** Interrupts by message, and where the registers are. *)
Definition connect_xhc (xhc_dev : Pci.Device) (s : pci) : option (Z * pci) :=
  let bsp_local_apic_id := u8 (Z.shiftr apic_id_register 24) in
  '(_, s) ← ConfigureMSIFixedDestination pci_hw xhc_dev bsp_local_apic_id true 0 kXHCI 0 s;
  let '(bar, _, s) := ReadBar xhc_dev 0 s in
  Some (mmio_base_of bar, s).

(** Its errors are only logged; [None] when a poll of a register does not end. *)
Definition start_xhc (xhc_mmio_base : Z) (xhc_dev : Pci.Device) (p : pci) (s : io)
  : option (Controller * xhc * pci * io) :=
  let '(c, s) := Controller_new io_hw xhc_mmio_base s in
  c ← c;
  let '(v, p) := vendor xhc_dev p in
  let p := if 0x8086 =? v then SwitchEhci2Xhci pci_hw xhc_dev p else p in
  let '(r, s) := Controller_Initialize io_hw patience memory_pool c s in
  '(_, rings) ← r;
  let '(r, s) := Run io_hw patience c s in
  _ ← r;
  Some (c, xhc_of rings s, p, s).

(** ** All together *)
Record kernel64 := mkK64 {
  k64_console : @Console W;
  k64_gdt : list Z * (Z * Z);
  k64_segments : Z * Z * Z;           (** DS, CS and SS *)
  k64_memory : memory;
  k64_cr3 : Z;
  k64_frames : BitmapMemoryManager;
  k64_cursor : @MouseCursor W;        (** with the screen as it is then *)
  k64_idt : list InterruptDescriptor;
  k64_pci : pci;
  k64_io : io;
  k64_loop : kernel
}.

Definition kernel_of (q : ArrayQueue Message) (x : xhc) : kernel := mkKernel q x false false 0 true [] [].

(** Up to the main loop; [main_queue_data] is on the stack. *)
Definition KernelMainNewStack (w : W) (kFrameWidth kFrameHeight : Z) (memoryMap : list MemoryDescriptor)
    (gdt_address : Z) (T : tables) (m : memory) (main_queue_data : list Message) (p : pci) (s : io) : option kernel64 :=
  console ← start_console w kFrameWidth kFrameHeight;
  let gdt := SetupSegments gdt_address in
  let kernel_cs := Z.shiftl 1 3 in
  let kernel_ss := Z.shiftl 2 3 in
  '(m, cr3) ← SetupIdentityPageTable T m;
  memory_manager ← setup_frames memoryMap;
  mouse_cursor ← MouseCursor_new (writer_ console) kDesktopBGColor 600 800;
  let main_queue := ArrayQueue_new main_queue_data 32 in
  '(_, p) ← ScanAllBus p;
  let p := log_devices (pci_devices p) p in
  let '(xhc_dev, p) := find_xhc (pci_devices p) None p in
  match xhc_dev with
  | Some xhc_dev =>
      d ← idt_start$[kXHCI];
      idt ← idt_start$[kXHCI := SetIDTEntry d (MakeIDTAttr kInterruptGate 0 true 0) handler kernel_cs];
      '(mmio, p) ← connect_xhc xhc_dev p;
      '(c, x, p, s) ← start_xhc mmio xhc_dev p s;
      '(_, x) ← configure_ports port_hw patience (max_ports_ c) (Z.to_nat (max_ports_ c)) 1 x;
      Some (mkK64 console gdt (0, kernel_cs, kernel_ss) m cr3 memory_manager mouse_cursor idt p s (kernel_of main_queue x))
  | None =>
      Some (mkK64 console gdt (0, kernel_cs, kernel_ss) m cr3 memory_manager mouse_cursor idt_start p s
              (kernel_of main_queue (xhc_of None s)))
  end.
End machine.
End screen.

(** The writer is chosen by the format of the frame buffer. *)
Definition writer_of (f : PixelFormat) : PixelWriter FrameBufferConfig :=
  match f with
  | kPixelRGBResv8BitPerColor => RGBResv8BitPerColorPixelWriter
  | kPixelBGRResv8BitPerColor => BGRResv8BitPerColorPixelWriter
  end.
