(* ===== verification/Kernel64Spec.v ===== *)
(** * The 64-bit kernel reaches its main loop

    On a machine as documented [KernelMainNewStack] comes to its loop: the screen shows
    the desktop, the greeting and the cursor, memory is mapped and its frames are
    accounted for, and the controller runs with an event ring from which the machine of
    [Main64] starts. *)
From Stdlib Require Import ZArith Lia.
From stdpp Require Import base option list numbers.
From S2P Require Import Prelude Error Bits Fifo ArrayQueue Pci UsbMemory ArrayMap Ring.
From S2P Require Import Usb UsbSpec UsbProtocol Trb XhciDevice Xhci XhciSpec XhciProgress XhciInit XhciInitSpec.
From S2P Require Import Frames Paging64 Segment64 Graphics64 Console64 Mouse64 Main64 MainSpec64 Kernel64.

(** ** The event ring of a started controller

    What a computation keeps of [alloc_ptr], and what it returns when it ends. *)
Section rings.
Context (hw : list access -> Z -> Z) (patience : nat) (memory_pool M : Z).
Context (Hpool : 0 < memory_pool) (HM : memory_pool + kMemoryPoolSize <= M) (HM31 : (2 ^ 31 | M)) (HM62 : M <= 2 ^ 62).

Definition pool_range (s : io) : Prop := memory_pool <= io_alloc s <= M.

Definition yields {A} (m : IO A) (Q : A -> Prop) : Prop :=
  forall s a s', pool_range s -> m s = (Some a, s') -> pool_range s' /\ Q a.

Lemma yields_ret {A} (a : A) (Q : A -> Prop) : Q a -> yields (mret a) Q.
Proof. intros HQ s b s' Hs [= <- <-]. done. Qed.

Lemma yields_bind {A B} (m : IO A) (k : A -> IO B) (P : A -> Prop) Q :
  yields m P -> (forall a, P a -> yields (k a) Q) -> yields (m ≫= k) Q.
Proof.
  intros Hm Hk s b s' Hs. unfold mbind, IO_bind. destruct (m s) as [[a|] s1] eqn:E; [|done].
  destruct (Hm _ _ _ Hs E) as [Hs1 HP]. by apply Hk.
Qed.

Lemma yields_any {A} (m : IO A) Q : yields m Q -> yields m (fun _ => True).
Proof. intros Hm s a s' Hs E. split; [|done]. by eapply Hm. Qed.

Lemma yields_read w a : yields (XhciInit.Read hw w a) (fun _ => True).
Proof. by intros s v s' Hs [= <- <-]. Qed.
Lemma yields_write a v : yields (XhciInit.Write a v) (fun _ => True).
Proof. by intros s u s' Hs [= <- <-]. Qed.
Lemma yields_modify f : (forall s, io_alloc (f s) = io_alloc s) -> yields (modify f) (fun _ => True).
Proof. intros Hf s u s' Hs [= <- <-]. split; [|done]. unfold pool_range. by rewrite Hf. Qed.
Lemma yields_stuck {A} Q : yields (stuck : IO A) Q.
Proof. by intros s a s' Hs [=]. Qed.

Lemma yields_poll fuel a done : yields (poll hw fuel a done) (fun _ => True).
Proof.
  induction fuel as [|fuel IH]; cbn [poll]; [apply yields_stuck|]. eapply yields_bind; [apply yields_read|].
  intros v _. destruct (done v); [by apply yields_ret|done].
Qed.
Lemma yields_legacy fuel reg : yields (find_legacy hw fuel reg) (fun _ => True).
Proof.
  revert reg. induction fuel as [|fuel IH]; intros reg; cbn [find_legacy]; [apply yields_stuck|].
  destruct (reg =? 0); [by apply yields_ret|]. eapply yields_bind; [apply yields_read|]. intros v _.
  destruct (_ =? 1); [by apply yields_ret|]. eapply yields_bind; [apply yields_read|]. auto.
Qed.

Lemma yields_ownership mmio hccp : yields (RequestHCOwnership hw patience mmio hccp) (fun _ => True).
Proof.
  unfold RequestHCOwnership. eapply yields_bind; [apply yields_legacy|]. intros reg _.
  destruct (reg =? 0); [by apply yields_ret|]. eapply yields_bind; [apply yields_read|]. intros r _.
  destruct (hc_os_owned_semaphore r); [by apply yields_ret|]. eapply yields_bind; [apply yields_write|]. intros _ _.
  eapply yields_bind; [apply yields_poll|]. intros _ _. by apply yields_ret.
Qed.
Lemma yields_reset op : yields (halt_and_reset hw patience op) (fun _ => True).
Proof.
  unfold halt_and_reset.
  eapply yields_bind; [apply yields_read|]. intros v _. eapply yields_bind; [apply yields_read|]. intros w _.
  eapply yields_bind; [apply yields_write|]. intros _ _. eapply yields_bind; [apply yields_poll|]. intros _ _.
  eapply yields_bind; [apply yields_read|]. intros x _. eapply yields_bind; [apply yields_write|]. intros _ _.
  eapply yields_bind; [apply yields_poll|]. intros _ _. eapply yields_bind; [apply yields_poll|]. intros _ _.
  by apply yields_ret.
Qed.
Lemma yields_command_ring r a : yields (RegisterCommandRing hw r a) (fun _ => True).
Proof.
  unfold RegisterCommandRing. eapply yields_bind; [apply yields_read|]. intros v _.
  eapply yields_bind; [apply yields_write|]. intros _ _. by apply yields_ret.
Qed.

Lemma yields_sets c : yields (InterrupterRegisterSets hw c) (fun _ => True).
Proof. unfold InterrupterRegisterSets. eapply yields_bind; [apply yields_read|]. intros v _. by apply yields_ret. Qed.

Lemma yields_alloc rq :
  request_ok rq ->
  yields (Alloc memory_pool (rq_size rq) (rq_alignment rq) (rq_boundary rq))
    (fun p => p = 0 \/ block_of memory_pool rq p).
Proof using Hpool HM HM31 HM62.
  intros Hrq s p s' Hs. unfold Alloc.
  destruct (AllocMem_spec memory_pool M Hpool HM HM31 HM62 (io_alloc s) rq Hs Hrq) as (q & ptr & -> & Hp & Hq).
  intros [= <- <-]. split; [unfold pool_range in *; cbn; lia|]. destruct Hq as [[-> _]|(_ & _ & Hq)]; [by left|by right].
Qed.

Ltac pow2 := first [by left | right; first [by exists 6 | by exists 12 | by exists 16]].
Ltac request := split; [cbn [rq_size]; unfold sizeof_TRB; lia | split; cbn [rq_alignment rq_boundary]; pow2].

Lemma yields_ring_init : yields (Ring_Initialize memory_pool 32) (fun _ => True).
Proof using Hpool HM HM31 HM62.
  intros s a s' Hs. unfold Ring_Initialize, Initialize. change (u64 (sizeof_TRB * 32)) with 512.
  destruct (AllocMem memory_pool (io_alloc s) 512 64 (64 * 1024)) as [p ptr] eqn:E. intros E2. split; [|done].
  destruct (yields_alloc (mkRequest 512 64 (64 * 1024)) ltac:(request) s p (set_alloc ptr s) Hs) as [H _].
  { unfold Alloc. cbn [rq_size rq_alignment rq_boundary]. by rewrite E. }
  by destruct (p =? 0); injection E2 as _ <-.
Qed.

Lemma yields_scratch n : yields (scratchpad_buffers memory_pool n) (fun _ => True).
Proof using Hpool HM HM31 HM62.
  induction n as [|n IH]; cbn [scratchpad_buffers]; [by apply yields_ret|].
  eapply yields_bind; [apply (yields_alloc (mkRequest 4096 4096 4096)); request|]. intros p _.
  eapply yields_bind; [exact IH|]. intros ps _. by apply yields_ret.
Qed.

Lemma yields_AllocScratchpad hcs : yields (AllocScratchpad memory_pool hcs) (fun _ => True).
Proof using Hpool HM HM31 HM62.
  unfold AllocScratchpad. set (n := u16 _). destruct (0 <? n); [|by apply yields_ret].
  assert (0 <= n < 2 ^ 16) as Hn by (unfold n, u16; apply Z.mod_pos_bound; lia). clearbody n.
  eapply yields_bind; [apply (yields_alloc (mkRequest (u64 (8 * n)) 64 4096))|].
  { split; [|split; cbn [rq_alignment rq_boundary]; pow2]. cbn [rq_size]. unfold u64. rewrite Z.mod_small; lia. }
  intros p _. destruct (p =? 0); [apply yields_stuck|].
  eapply yields_bind; [apply yields_scratch|]. intros ps _.
  eapply yields_bind; [by apply yields_modify|]. intros _ _. by apply yields_modify.
Qed.

Lemma yields_DeviceManager : yields (DeviceManager_Initialize memory_pool kDeviceSize) (fun _ => True).
Proof using Hpool HM HM31 HM62.
  unfold DeviceManager_Initialize. change (u64 (8 * (kDeviceSize + 1))) with 72.
  eapply yields_bind; [apply (yields_alloc (mkRequest 72 0 0)); request|]. intros p _.
  destruct (p =? 0); [by apply yields_ret|].
  eapply yields_bind; [apply (yields_alloc (mkRequest 72 64 4096)); request|]. intros q _.
  destruct (q =? 0); [by apply yields_ret|].
  eapply yields_bind; [by apply yields_modify|]. intros _ _. by apply yields_ret.
Qed.

(** The ring is empty, and all of it is the controller's. *)
Lemma yields_event_ring ir :
  yields (EventRing_Initialize_io hw memory_pool 32 ir)
    (fun r => match r.2 with Some e => event_ok e 0 [] | None => True end).
Proof using Hpool HM HM31 HM62.
  unfold EventRing_Initialize_io. change (u64 (sizeof_TRB * 32)) with 512.
  eapply yields_bind; [apply (yields_alloc (mkRequest 512 64 (64 * 1024))); request|]. intros p Hp.
  destruct (Z.eqb_spec p 0) as [|Hp0]; [by apply yields_ret|].
  destruct Hp as [|(Hlo & Hhi & Hal & _)]; [done|]. cbn in Hlo, Hhi, Hal.
  eapply yields_bind; [apply (yields_alloc (mkRequest sizeof_TRB 64 (64 * 1024))); request|]. intros q _.
  destruct (q =? 0); [by apply yields_ret|].
  eapply yields_bind; [apply yields_read|]. intros v1 _. eapply yields_bind; [apply yields_write|]. intros _ _.
  eapply yields_bind; [apply yields_read|]. intros v2 _. eapply yields_bind; [apply yields_write|]. intros _ _.
  eapply yields_bind; [apply yields_read|]. intros v3 _. eapply yields_bind; [apply yields_write|]. intros _ _.
  apply yields_ret. cbn [snd].
  assert (16 | p) by (apply Z.divide_trans with 64; [by exists 4|apply Hal; lia]).
  assert (0 <= p < 2 ^ 63) by (unfold kMemoryPoolSize in *; lia).
  eapply EventRing_start; [|done|done|reflexivity|]; [lia|]. apply ERDP_roundtrip; [lia|done].
Qed.

Lemma yields_Initialize c :
  yields (Controller_Initialize hw patience memory_pool c)
    (fun r => match r.2 with Some (_, e) => event_ok e 0 [] | None => True end).
Proof using Hpool HM HM31 HM62.
  unfold Controller_Initialize.
  eapply yields_bind; [apply yields_DeviceManager|]. intros [err contexts] _. destruct (is_error err); [by apply yields_ret|].
  eapply yields_bind; [apply yields_read|]. intros hccp _.
  eapply yields_bind; [apply yields_ownership|]. intros _ _.
  eapply yields_bind; [apply yields_reset|]. intros _ _.
  eapply yields_bind; [apply yields_read|]. intros _ _.
  eapply yields_bind; [apply yields_read|]. intros config _. eapply yields_bind; [apply yields_write|]. intros _ _.
  eapply yields_bind; [apply yields_read|]. intros h2 _.
  eapply yields_bind; [apply yields_AllocScratchpad|]. intros _ _.
  eapply yields_bind; [apply yields_write|]. intros _ _.
  eapply yields_bind; [apply yields_sets|].
  intros ir _. eapply yields_bind; [apply yields_ring_init|]. intros [err2 [cr|]] _; [|by apply yields_ret].
  eapply yields_bind; [apply yields_command_ring|]. intros err3 _. destruct (is_error err3); [by apply yields_ret|].
  eapply yields_bind; [apply yields_event_ring|]. intros [err4 [e|]] He; [|by apply yields_ret]. cbn [snd] in He.
  eapply yields_bind; [apply yields_read|]. intros v _. eapply yields_bind; [apply yields_write|]. intros _ _.
  eapply yields_bind; [apply yields_read|]. intros w _. eapply yields_bind; [apply yields_write|]. intros _ _.
  by apply yields_ret.
Qed.
End rings.

(** ** The ports *)
Section ports.
Context (hw : nat -> Z -> Z) (patience : nat) (max_ports : Z).
(** A reset of a port comes to an end. *)
Context (Hreset : forall p n, exists k, (k < patience)%nat /\ get_bit 4 (hw (n + k)%nat p) = false) (Hmax : max_ports < 256).

Lemma er_ConfigurePort p : keeps er_ (ConfigurePort hw patience max_ports p).
Proof using Type. unfold ConfigurePort, get_phase. pose proof er_ResetPort. eauto 20 with keeps. Qed.

Lemma er_configure_ports n i : keeps er_ (configure_ports hw patience max_ports n i).
Proof using Type.
  revert i. induction n as [|n IH]; intros i; cbn [configure_ports]; [apply keeps_ret|].
  pose proof er_ConfigurePort. eauto 20 with keeps.
Qed.

Lemma ResetPort_ends p s :
  1 <= p <= max_ports -> length (port_config_phase s) = 256%nat ->
  exists err s', ResetPort hw patience max_ports p s = Some (err, s') /\ length (port_config_phase s') = 256%nat.
Proof using Hreset Hmax.
  intros Hp Hl. unfold ResetPort, IsConnected.
  rewrite (bind_run _ _ _ (get_bit 0 (hw (port_reads s) p)) (count_read s)) by (by rewrite (bind_run _ _ _ _ _ (read_run hw max_ports p s Hp))).
  destruct (get_bit 0 _); cbn [negb]; [|by exists kSuccess, (count_read s)].
  rewrite (bind_run _ _ _ _ _ (eq_refl : gets addressing_port (count_read s) = Some (addressing_port s, count_read s))).
  destruct (negb (addressing_port s =? 0)).
  - erewrite bind_run by (apply put_phase_run; cbn; lia). eexists _, _. split; [reflexivity|]. cbn. by rewrite length_insert.
  - destruct (lookupZ_is_Some (port_config_phase s) p) as [ph Eph]; [lia|].
    rewrite (bind_run _ _ _ _ _ (get_phase_run p ph (count_read s) Eph)).
    destruct (_ && _); [by exists kInvalidPhase, (count_read s)|].
    rewrite (bind_run _ _ _ _ _ (eq_refl : puts (set_addressing p) (count_read s) = Some (tt, set_addressing p (count_read s)))).
    erewrite bind_run by (apply put_phase_run; cbn; lia). set (s1 := set_phase_of _ _).
    set (v := Z.lor (Z.land (hw (S (port_reads s)) p) 0x0e00c3e0) 0x00020010).
    destruct (wait_reset_ends hw max_ports patience p (add_port_write p v (count_read s1)) Hp) as (s' & E & Hu); [apply Hreset|].
    exists kSuccess, s'. split.
    + erewrite bind_run; [reflexivity|]. unfold Port_Reset. rewrite (bind_run _ _ _ _ _ (read_run hw max_ports p s1 Hp)).
      rewrite (bind_run _ _ _ _ _ (write_run max_ports p _ (count_read s1) Hp)). exact E.
    + apply (f_equal port_config_phase) in Hu. cbn in Hu. rewrite Hu. by rewrite length_insert.
Qed.

Lemma configure_ports_end n i s :
  1 <= i -> i + Z.of_nat n <= max_ports + 1 -> length (port_config_phase s) = 256%nat ->
  exists s', configure_ports hw patience max_ports n i s = Some (tt, s').
Proof using Hreset Hmax.
  revert i s. induction n as [|n IH]; intros i s Hi Hn Hl; cbn [configure_ports]; [by exists s|].
  assert (Hr : forall s, IsConnected hw max_ports i s = Some (get_bit 0 (hw (port_reads s) i), count_read s)).
  { intros s1. unfold IsConnected. by rewrite (bind_run _ _ _ _ _ (read_run hw max_ports i s1 ltac:(lia))). }
  rewrite (bind_run _ _ _ _ _ (Hr s)), (bind_run _ _ _ _ _ (Hr (count_read s))).
  set (s1 := count_read (count_read s)).
  assert (exists err s2, (if get_bit 0 (hw (port_reads (count_read s)) i)
            then ConfigurePort hw patience max_ports i else mret kSuccess) s1 = Some (err, s2)
          /\ length (port_config_phase s2) = 256%nat) as (err & s2 & E & Hl2).
  { destruct (get_bit 0 _); [|by exists kSuccess, s1]. unfold ConfigurePort.
    destruct (lookupZ_is_Some (port_config_phase s1) i) as [ph Eph]; [cbn; lia|].
    rewrite (bind_run _ _ _ _ _ (get_phase_run i ph s1 Eph)).
    case_bool_decide; [apply ResetPort_ends; [lia|done]|by exists kSuccess, s1]. }
  rewrite (bind_run _ _ _ _ _ E). apply IH; [lia|lia|done].
Qed.
End ports.

(** ** The screen *)
Section desktop.
Context {W : Type} `{!PixelWriter W} (width height : Z).
Local Notation shows := (shows width height).

(** The frame of a rectangle. *)
Definition on_frame (px py sx sy x y : Z) : bool :=
  in_box px py sx sy x y && ((x =? px) || (x =? px + sx - 1) || (y =? py) || (y =? py + sy - 1)).

Lemma DrawRectangle_spec w g px py sx sy c :
  shows w g -> 0 <= px -> 1 <= sx -> px + sx <= width -> 0 <= py -> 2 <= sy -> py + sy <= height ->
  exists w', DrawRectangle w px py sx sy c = Some w'
    /\ shows w' (fun x y => if on_frame px py sx sy x y then Some c else g x y).
Proof.
  intros Hw Hpx Hsx Hwx Hpy Hsy Hwy. unfold DrawRectangle.
  set (row dx x y := (px <=? x) && (x <? px + dx) && ((y =? py) || (y =? py + sy - 1))).
  destruct (for_range_inv (fun dx w => shows w (fun x y => if row dx x y then Some c else g x y)) 0 sx
    (fun dx w => w ← Graphics64.Write w (px + dx) py c; Graphics64.Write w (px + dx) (py + sy - 1) c) w) as (w1 & -> & Hw1); [lia| | |].
  - eapply shows_ext'; [|exact Hw]. intros x y _ _. unfold row. rewrite Z.add_0_r.
    destruct (Z.leb_spec px x), (Z.ltb_spec x px); try done; lia.
  - intros dx w0 Hdx Hw0.
    destruct (paint_pixel width height w0 _ (px + dx) py (Some c) Hw0) as (w2 & -> & Hw2); [lia..|]. cbn [mbind option_bind].
    destruct (paint_pixel width height w2 _ (px + dx) (py + sy - 1) (Some c) Hw2) as (w3 & -> & Hw3); [lia..|].
    exists w3. split; [done|]. eapply shows_ext'; [|exact Hw3]. intros x y _ _. cbn beta. unfold row.
    destruct (Z.eqb_spec x (px + dx)), (Z.eqb_spec y py), (Z.eqb_spec y (py + sy - 1)), (Z.leb_spec px x),
      (Z.ltb_spec x (px + dx)), (Z.ltb_spec x (px + (dx + 1))); cbn [andb orb]; try done; lia.
  - cbn [mbind option_bind].
    set (col dy x y := ((x =? px) || (x =? px + sx - 1)) && (py + 1 <=? y) && (y <? py + dy)).
    destruct (for_range_inv (fun dy w => shows w (fun x y => if row sx x y || col dy x y then Some c else g x y)) 1 (sy - 1)
      (fun dy w => w ← Graphics64.Write w px (py + dy) c; Graphics64.Write w (px + sx - 1) (py + dy) c) w1) as (w2 & -> & Hw2); [lia| | |].
    + eapply shows_ext'; [|exact Hw1]. intros x y _ _. unfold col. destruct (row sx x y); [done|]. cbn [orb].
      destruct (Z.leb_spec (py + 1) y), (Z.ltb_spec y (py + 1)); rewrite ?andb_false_r; try done; lia.
    + intros dy w0 Hdy Hw0.
      destruct (paint_pixel width height w0 _ px (py + dy) (Some c) Hw0) as (w2 & -> & Hw2); [lia..|]. cbn [mbind option_bind].
      destruct (paint_pixel width height w2 _ (px + sx - 1) (py + dy) (Some c) Hw2) as (w3 & -> & Hw3); [lia..|].
      exists w3. split; [done|]. eapply shows_ext'; [|exact Hw3]. intros x y _ _. cbn beta. unfold col.
      destruct (row sx x y); [by destruct (_ && _), (_ && _)|]. cbn [orb].
      destruct (Z.eqb_spec x px), (Z.eqb_spec x (px + sx - 1)), (Z.eqb_spec y (py + dy)), (Z.leb_spec (py + 1) y),
        (Z.ltb_spec y (py + dy)), (Z.ltb_spec y (py + (dy + 1))); cbn [andb orb]; try done; lia.
    + exists w2. split; [done|]. eapply shows_ext'; [|exact Hw2]. intros x y _ _. unfold row, col, on_frame, in_box.
      destruct (Z.eqb_spec x px), (Z.eqb_spec x (px + sx - 1)), (Z.eqb_spec y py), (Z.eqb_spec y (py + sy - 1)),
        (Z.leb_spec px x), (Z.ltb_spec x (px + sx)), (Z.leb_spec (py + 1) y), (Z.leb_spec py y), (Z.ltb_spec y (py + (sy - 1))), (Z.ltb_spec y (py + sy)); cbn [andb orb]; try done; lia.
Qed.

(** The desktop: its colour, the bar at the bottom, and at the left of it a field with
    an empty frame. *)
Definition desktop (g : Z -> Z -> option PixelColor) (x y : Z) : option PixelColor :=
  if on_frame 10 (height - 40) 30 30 x y then Some (mkColor 160 160 160)
  else if in_box 0 (height - 50) (Z.quot width 5) 50 x y then Some (mkColor 80 80 80)
  else if in_box 0 (height - 50) width 50 x y then Some (mkColor 1 8 17)
  else if in_box 0 0 width (height - 50) x y then Some kDesktopBGColor
  else g x y.

(** The console fits above the bar. *)
Context (Hwidth : 8 * kColumns <= width) (Hheight : 16 * kRows + 50 <= height).

Lemma paint_desktop_spec w g :
  shows w g -> exists w', paint_desktop w width height = Some w' /\ shows w' (desktop g).
Proof using Hwidth Hheight.
  intros Hw. unfold paint_desktop, kColumns, kRows in *.
  destruct (FillRectangle_spec width height w g 0 0 width (height - 50) kDesktopBGColor Hw) as (w1 & -> & H1); [lia..|].
  cbn [mbind option_bind].
  destruct (FillRectangle_spec width height w1 _ 0 (height - 50) width 50 (mkColor 1 8 17) H1) as (w2 & -> & H2); [lia..|].
  cbn [mbind option_bind]. assert (0 <= Z.quot width 5 <= width) as Hq by (rewrite Z.quot_div_nonneg by lia; split; [apply Z.div_pos|apply Z.div_le_upper_bound]; lia).
  destruct (FillRectangle_spec width height w2 _ 0 (height - 50) (Z.quot width 5) 50 (mkColor 80 80 80) H2) as (w3 & -> & H3); [lia..|].
  cbn [mbind option_bind].
  destruct (DrawRectangle_spec w3 _ 10 (height - 40) 30 30 (mkColor 160 160 160) H3) as (w4 & -> & H4); [lia..|].
  exists w4. split; [done|]. exact H4.
Qed.

(** Where the console is, there is only the desktop's colour. *)
Lemma console_area g x y :
  0 <= x < width -> 0 <= y < height ->
  desktop g x y = page kDesktopFGColor kDesktopBGColor [] (desktop g) x y.
Proof using Hwidth Hheight.
  intros Hx Hy. unfold page. destruct (in_box 0 0 _ _ x y) eqn:E; [|done]. apply in_box_spec in E.
  unfold kColumns, kRows in *. rewrite Z.add_0_l in E. unfold desktop, on_frame.
  assert (forall px sx sy py, py > y -> in_box px py sx sy x y = false) as Hb.
  { intros px sx sy py Hpy. apply not_true_iff_false. rewrite in_box_spec. lia. }
  rewrite !Hb by lia. cbn [andb].
  assert (in_box 0 0 width (height - 50) x y = true) as -> by (apply in_box_spec; lia).
  unfold lookupZ. by destruct (0 <=? _).
Qed.

Section console.
Context {args : Type} (vsprintf : list Z -> args -> list Z * Z) (no_args : args) (stack : list Z).

Lemma start_console_spec w g :
  (vsprintf greeting no_args).1 = greeting -> shows w g ->
  exists c, start_console vsprintf no_args stack w width height = Some c
    /\ console_ok width height kDesktopFGColor kDesktopBGColor (desktop g) c (feed ([], []) greeting).
Proof using Hwidth Hheight.
  intros Hv Hw. unfold start_console. destruct (paint_desktop_spec w g Hw) as (w1 & -> & H1). cbn [mbind option_bind].
  unfold printk. destruct (vsprintf greeting no_args) as [text result]. cbn [fst] in Hv. subst text.
  change (1024 <? Z.of_nat (length greeting) + 1) with false. cbn iota.
  assert (Hc : console_ok width height kDesktopFGColor kDesktopBGColor (desktop g)
    (Console_new w1 kDesktopFGColor kDesktopBGColor) ([], [])).
  { apply Console_new_ok. eapply shows_ext'; [|exact H1]. intros x y. apply console_area. }
  unfold kColumns, kRows in *.
  destruct (PutString_ok width height ltac:(unfold kColumns; lia) ltac:(unfold kRows; lia) _ _ _ _ _ greeting stack Hc) as (c & -> & Hc').
  - unfold greeting, ascii. repeat (apply list.Forall_cons_2; [lia|]). apply list.Forall_nil_2.
  - done.
  - by exists c.
Qed.
End console.
End desktop.

(** ** The machine *)
Lemma run_then {A B} (a : A) (f : A -> option B) : (Some a ≫= f) = f a.
Proof. done. Qed.
Ltac then_run := rewrite run_then; cbv beta iota zeta.

Section boots.
Context {W : Type} `{!PixelWriter W} (width height : Z).
Context (Hwidth : 8 * kColumns <= width) (Hheight : 16 * kRows + 50 <= height).
Context {args : Type} (vsprintf : list Z -> args -> list Z * Z) (no_args : args) (stack : list Z).
Context (pci_hw : (Z -> Z) -> Z -> Z -> (Z -> Z)).
Context (io_hw : list access -> Z -> Z) (port_hw : nat -> Z -> Z) (patience : nat) (memory_pool : Z).
Context (apic_id_register handler : Z).

(** The scan of the buses and the choice of the controller. *)
Definition search (p : pci) : option (option Pci.Device * pci) :=
  '(_, p) ← ScanAllBus p;
  let p := log_devices (pci_devices p) p in
  Some (find_xhc (pci_devices p) None p).

(** The controller [c] is on the bus, and its registers and ports are as documented. *)
Record has_controller (p : pci) (s : io) (c : Controller) (ir hccp n : Z) : Prop := {
  hc_found : exists dev p1 p2, search p = Some (Some dev, p1)
    /\ connect_xhc pci_hw apic_id_register dev p1 = Some (mmio_base_ c, p2);
  hc_registers : (Controller_new io_hw (mmio_base_ c) s).1 = Some c /\ HCSPARAMS1 (mmio_base_ c) < op_ c;
  hc_documented : documented io_hw patience c ir hccp;
  hc_progress : XhciInitSpec.progress io_hw patience memory_pool c ir hccp n memory_pool;
  hc_ports : forall p n, exists k, (k < patience)%nat /\ get_bit 4 (port_hw (n + k)%nat p) = false
}.

(** The pool is where the linker puts it, not at the end of the address space. *)
Definition pool_ok (M : Z) : Prop :=
  0 < memory_pool /\ memory_pool + kMemoryPoolSize <= M /\ (2 ^ 31 | M) /\ M <= 2 ^ 62.

Lemma new_controller s c :
  trace s = [] -> (Controller_new io_hw (mmio_base_ c) s).1 = Some c -> HCSPARAMS1 (mmio_base_ c) < op_ c ->
  exists s1, Controller_new io_hw (mmio_base_ c) s = (Some c, s1) /\ io_alloc s1 = io_alloc s
    /\ (forall ir, mon (op_ c) ir (trace s1) = Some Begin) /\ 0 <= max_ports_ c < 256.
Proof using Type.
  intros Ht E Hop. unfold Controller_new, mbind, IO_bind, XhciInit.Read, mret, IO_ret in *. cbn in *.
  eexists. split; [rewrite E; reflexivity|]. split; [done|]. split.
  - intros ir. cbn [trace add_access]. rewrite Ht. unfold HCSPARAMS1, CAPLENGTH in *. unfold mon. cbn. unfold mon_read, USBSTS, USBCMD.
    destruct (Z.eqb_spec (mmio_base_ c) (op_ c + 4)); [lia|]. destruct (Z.eqb_spec (mmio_base_ c) (op_ c)); [lia|]. cbn.
    destruct (Z.eqb_spec (mmio_base_ c + 4) (op_ c + 4)); [lia|]. by destruct (Z.eqb_spec (mmio_base_ c + 4) (op_ c)).
  - assert (exists v, max_ports_ c = max_ports_field v) as [v ->] by (apply (f_equal (from_option max_ports_ 0)) in E; cbn in E; eauto).
    pose proof (get_field_range 24 8 v). unfold max_ports_field. change (2 ^ 8) with 256 in *. lia.
Qed.

Lemma idt_entry : exists d, idt_start$[kXHCI] = Some d /\ forall e, exists idt, idt_start$[kXHCI := e] = Some idt.
Proof using Type.
  assert (Hl : 0 <= kXHCI < Z.of_nat (length idt_start)) by (unfold idt_start; rewrite length_replicate; unfold kXHCI; lia).
  destruct (lookupZ_is_Some idt_start kXHCI Hl) as [d E]. exists d. split; [done|]. intros e. rewrite updateZ_in by done. eauto.
Qed.

Lemma kernel_of_start q x : length q = 32%nat -> event_ok (er_ x) 0 [] -> kstart (kernel_of (ArrayQueue_new q 32) x).
Proof using Type.
  intros Hq He. constructor; [exact He| |done]. exists q, 32. split; [done|]. rewrite Hq. lia.
Qed.

(** The part about the controller. *)
Lemma start_xhc_runs M p p1 dev s c ir hccp n :
  pool_ok M -> has_controller p s c ir hccp n -> trace s = [] -> io_alloc s = memory_pool ->
  exists x x' p2 s2,
    start_xhc pci_hw io_hw patience memory_pool (mmio_base_ c) dev p1 s = Some (c, x, p2, s2)
    /\ configure_ports port_hw patience (max_ports_ c) (Z.to_nat (max_ports_ c)) 1 x = Some (tt, x')
    /\ mon (op_ c) ir (trace s2) = Some Running /\ event_ok (er_ x') 0 [].
Proof using Type.
  intros (Hp & HM & HM31 & HM62) [_ [Hc Hop] Hdoc Hpr Hports] Ht Ha. unfold start_xhc.
  destruct (new_controller s c Ht Hc Hop) as (s1 & -> & Ha1 & Hb & Hmax). cbn [mbind option_bind].
  destruct (vendor dev p1) as [v p2]. set (p3 := if 0x8086 =? v then _ else _).
  destruct (controller_runs io_hw patience memory_pool c ir hccp n s1) as ([cr er] & s2 & s3 & Ei & Er & Hm);
    [done|by rewrite Ha1, Ha|apply Hb|].
  assert (event_ok er 0 []) as He.
  { destruct (yields_Initialize io_hw patience memory_pool M Hp HM HM31 HM62 c s1 (kSuccess, Some (cr, er)) s2) as [_ He]; [|exact Ei|exact He].
    unfold pool_range. rewrite Ha1, Ha. unfold kMemoryPoolSize in *. lia. }
  rewrite Ei, Er. cbn [mbind option_bind].
  destruct (configure_ports_end port_hw patience (max_ports_ c) Hports ltac:(lia) (Z.to_nat (max_ports_ c)) 1
    (xhc_of (Some (cr, er)) s3)) as (x' & Ex); [lia|lia|done|].
  exists (xhc_of (Some (cr, er)) s3), x', p3, s3. split_and!; [done|done|done|].
  by rewrite (er_configure_ports _ _ _ _ _ _ _ _ Ex).
Qed.

End boots.

(** ** An example: a host bridge and the controller of [demo_hw] on the bus *)
Definition demo64_conf (a : Z) : Z :=
  if a =? MakeAddress 0 0 0 0x00 then 0x12378086
  else if a =? MakeAddress 0 0 0 0x08 then 0x06000000
  else if a =? MakeAddress 0 0 0 0x0c then 0
  else if a =? MakeAddress 0 2 0 0x00 then 0x1e318086
  else if a =? MakeAddress 0 2 0 0x08 then 0x0c033000
  else if a =? MakeAddress 0 2 0 0x0c then 0
  else if a =? MakeAddress 0 2 0 0x10 then 0x1000
  else if a =? MakeAddress 0 2 0 0x34 then 0
  else 0xffffffff.
Definition demo64_pci : pci := mkPci 0 demo64_conf (replicate 32 no_device) 0.
Definition demo64_dev : Pci.Device := mkDevice 0 2 0 0 (mkClass 0x0c 0x03 0x30).
Definition demo64_found : pci := (default (None, demo64_pci) (search demo64_pci)).2.

Lemma demo64_search : search demo64_pci = Some (Some demo64_dev, demo64_found).
Proof.
  assert (H : fst <$> search demo64_pci = Some (Some demo64_dev)) by (vm_compute; reflexivity).
  unfold demo64_found. destruct (search demo64_pci) as [[d p]|]; [|done]. cbn in *. by injection H as ->.
Qed.

Lemma demo64_connect :
  exists p2, connect_xhc (fun c _ _ => c) 0 demo64_dev demo64_found = Some (0x1000, p2).
Proof.
  assert (H : fst <$> connect_xhc (fun c _ _ => c) 0 demo64_dev demo64_found = Some 0x1000) by (vm_compute; reflexivity).
  destruct (connect_xhc _ _ _ _) as [[b p]|]; [|done]. cbn in H. injection H as ->. by exists p.
Qed.

Lemma demo64_controller :
  has_controller (fun c _ _ => c) demo_hw (fun _ _ => 0) 1 0x200000 0 demo64_pci (demo_io 0x200000) demo_c 0x2020 0 0.
Proof.
  constructor; [|split; reflexivity|apply demo_documented|apply demo_progress|].
  - destruct demo64_connect as [p2 E]. exists demo64_dev, demo64_found, p2. split; [apply demo64_search|exact E].
  - intros p n. exists 0%nat. split; [lia|reflexivity].
Qed.


(** ** Small screens

    The cursor starts at line 800 whatever the resolution: when the frame buffer ends
    before that line, the first pixel of the cursor is written behind it. *)
Lemma low_screen_faults f w e :
  0 <= pixels_per_scan_line w -> 4 * (pixels_per_scan_line w * 800 + 600) < 2 ^ 32 ->
  Z.of_nat (length (frame_buffer w)) <= 4 * (pixels_per_scan_line w * 800) ->
  @MouseCursor_new _ (writer_of f) w e 600 800 = None.
Proof.
  intros Hp H32 Hl. unfold MouseCursor_new.
  assert (@Graphics64.Write _ (writer_of f) w 600 800 (mkColor 0 0 0) = None) as E.
  { assert (PixelAt w 600 800 = 4 * (pixels_per_scan_line w * 800 + 600)) as Ep.
    { unfold PixelAt. by rewrite !u32_small; rewrite ?u32_small; rewrite ?u32_small; try lia. }
    destruct f; cbn [Graphics64.Write writer_of RGBResv8BitPerColorPixelWriter BGRResv8BitPerColorPixelWriter]; unfold RGB_Write, BGR_Write, write3; rewrite Ep, updateZ_out; done || lia. }
  unfold DrawMouseCursor, for_range. change (Z.to_nat (kMouseCursorHeight - 0)) with 24%nat.
  change (Z.to_nat (kMouseCursorWidth - 0)) with 15%nat. cbn [for_loop].
  change (shape_at 0 0) with (Some c_at). rewrite !run_then. cbn iota. change (Ascii.eqb c_at c_at) with true. cbn iota.
  change (600 + 0) with 600. change (800 + 0) with 800. by rewrite E.
Qed.
