(* ===== verification/Paging32.v ===== *)
(** * Page tables of the 32-bit kernel, src/src/memory/paging/paging.c and features.c

    [pd_init] allocates a directory of 1024 tables with 1024 entries each that map every
    address to itself; [paging_set_page] changes an entry.  The tables live in memory seen
    as 32-bit words.  The code is a client of the kernel's allocator: it is written and
    proved against the interface of Allocator.v, for one whose blocks start at pages. *)
From Stdlib Require Import ZArith Lia.
From stdpp Require Import base option list gmap numbers sorting.
From S2P Require Import Prelude Bits Allocator Paging64.

Definition PAGE_DIRECTORY_TOTAL_ENTRIES : Z := 1024.
Definition PAGE_TABLE_TOTAL_ENTRIES : Z := 1024.
Definition PAGE_OS_PAGE_SIZE : Z := 4096.
Definition sizeof_PAGE_DIRECTORY_4KB : Z := 4096.

Definition words := Z -> Z.
Definition put (a v : Z) (m : words) : words := fun b => if b =? a then v else m b.

(** ** Entries

    The fields of PAGE_DIRECTORY_ENTRY_4KB are P, R_W, U_S, A, PWT, PCD, AVL1 and PS, a
    bit each from bit 0 on, then AVL0 and [higher_address]; those of PAGE_TABLE_ENTRY_4KB
    are P, R_W, U_S, PWT, PCD, A, D, PAT and G, then AVL and [higher_address]. *)
Definition flag (flags k : Z) : Z := Z.land (Z.shiftr flags k) 1.

(** [higher_address << 12]: the page that an entry points to. *)
Definition frame (e : Z) : Z := Z.shiftl (get_field 12 20 e) 12.

Definition pd_entry_set_flags (e flags : Z) : Z :=
  let e := set_field 8 4 (Z.land (Z.shiftr flags 8) 0xf) e in
  let e := set_field 7 1 (flag flags 7) e in
  let e := set_field 6 1 (flag flags 6) e in
  let e := set_field 3 1 (flag flags 5) e in
  let e := set_field 5 1 (flag flags 4) e in
  let e := set_field 4 1 (flag flags 3) e in
  let e := set_field 2 1 (flag flags 2) e in
  let e := set_field 1 1 (flag flags 1) e in
  set_field 0 1 (flag flags 0) e.

Definition pd_entry_to_val (e : Z) : Z :=
  u32 (Z.lor (Z.shiftl (get_field 12 20 e) 12)
    (Z.lor (Z.shiftl (get_field 8 4 e) 8)
    (Z.lor (Z.shiftl (get_field 7 1 e) 7)
    (Z.lor (Z.shiftl (get_field 6 1 e) 6)
    (Z.lor (Z.shiftl (get_field 3 1 e) 5)
    (Z.lor (Z.shiftl (get_field 5 1 e) 4)
    (Z.lor (Z.shiftl (get_field 4 1 e) 3)
    (Z.lor (Z.shiftl (get_field 2 1 e) 2)
    (Z.lor (Z.shiftl (get_field 1 1 e) 1)
      (get_field 0 1 e)))))))))).

Definition pd_table_set (e data : Z) : Z :=
  let e := set_field 12 20 (Z.land (Z.shiftr data 12) 0xfffff) e in
  let e := set_field 9 3 (Z.land (Z.shiftr data 9) 7) e in
  let e := set_field 8 1 (flag data 8) e in
  let e := set_field 7 1 (flag data 7) e in
  let e := set_field 6 1 (flag data 6) e in
  let e := set_field 5 1 (flag data 5) e in
  let e := set_field 4 1 (flag data 4) e in
  let e := set_field 3 1 (flag data 3) e in
  let e := set_field 2 1 (flag data 2) e in
  let e := set_field 1 1 (flag data 1) e in
  set_field 0 1 (flag data 0) e.

(** The stores of [pd_init] to an entry of a table. *)
Definition set_identity (e real_mem_address : Z) : Z :=
  let e := set_field 12 20 (Z.land (Z.shiftr real_mem_address 12) 0xfffff) e in
  let e := set_field 2 1 1 e in
  let e := set_field 1 1 1 e in
  set_field 0 1 1 e.

(** ** Indexes *)
Definition is_address_aligned_4KB (addr : Z) : bool := addr mod PAGE_OS_PAGE_SIZE =? 0.

Definition align_addr_to_lower (val : Z) : Z :=
  let residual := val mod PAGE_OS_PAGE_SIZE in
  if residual =? 0 then val else u32 (val - residual).

Definition vaddress_to_page_indexes (virtual_address : Z) : Z * Z :=
  let a := align_addr_to_lower virtual_address in
  (a / (PAGE_OS_PAGE_SIZE * PAGE_DIRECTORY_TOTAL_ENTRIES),
   a mod (PAGE_OS_PAGE_SIZE * PAGE_DIRECTORY_TOTAL_ENTRIES) / PAGE_OS_PAGE_SIZE).

(** ** Operations *)
Section paging.
Context {H : Type} (malloc : H -> Z -> option (Z * H)).

Definition zero_words (p size : Z) (m : words) : words :=
  fun a => if (p <=? a) && (a <? p + size) then 0 else m a.

Definition kzalloc_words (h : H) (m : words) (size : Z) : option (Z * H * words) :=
  r ← malloc h size;
  let '(p, h) := r in
  Some (p, h, if p =? 0 then m else zero_words p size m).

(** The inner loop, over the entries of [table]. *)
Definition fill_entry (table j : Z) (s : Z * words) : option (Z * words) :=
  let '(address_offset, m) := s in
  if table =? 0 then None
  else
    let real_mem_address := address_offset in
    let address_offset := u64 (address_offset + PAGE_OS_PAGE_SIZE) in
    Some (address_offset, put (table + 4 * j) (set_identity (m (table + 4 * j)) real_mem_address) m).

(** The outer loop, over the entries of the directory. *)
Definition fill_table (pd_entries flags i : Z) (s : Z * H * words) : option (Z * H * words) :=
  let '(address_offset, h, m) := s in
  r ← kzalloc_words h m (4 * PAGE_TABLE_TOTAL_ENTRIES);
  let '(table, h, m) := r in
  if pd_entries =? 0 then None
  else
    let e := pd_entries + 4 * i in
    let m := put e (set_field 12 20 (Z.land (Z.shiftr table 12) 0xfffff) (m e)) m in
    let m := put e (pd_entry_set_flags (m e) flags) m in
    r ← for_range 0 PAGE_TABLE_TOTAL_ENTRIES (fill_entry table) (address_offset, m);
    let '(address_offset, m) := r in
    Some (address_offset, h, m).

Definition pd_init (flags : Z) (h : H) (m : words) : option (Z * H * words) :=
  r ← kzalloc_words h m sizeof_PAGE_DIRECTORY_4KB;
  let '(pd, h, m) := r in
  r ← kzalloc_words h m (4 * PAGE_DIRECTORY_TOTAL_ENTRIES);
  let '(pd_entries, h, m) := r in
  if pd =? 0 then None
  else
    let m := put pd pd_entries m in
    r ← for_range 0 PAGE_DIRECTORY_TOTAL_ENTRIES (fill_table pd_entries flags) (0, h, m);
    let '(_, h, m) := r in
    Some (pd, h, m).
End paging.

(** CR3 and [current_directory]. *)
Record paging_state := mkPaging { cr3 : Z; current_directory : Z }.
Definition paging_switch (directory : Z) (m : words) : paging_state := mkPaging (m directory) directory.

Definition paging_set_page (dir virtual_address data : Z) (m : words) : option (Z * words) :=
  let '(dir_index, table_index) := vaddress_to_page_indexes virtual_address in
  let table := frame (m (dir + 4 * dir_index)) in
  if table =? 0 then None
  else
    let e := table + 4 * table_index in
    Some (0, put e (pd_table_set (m e) data) m).

(** The tables of features.c: the first 4 MiB, in two arrays of the linker's. *)
Definition pg (page_directory first_page_table : Z) (m : words) : option (Z * words) :=
  m ← for_range 0 1024 (fun i m => Some (put (page_directory + 4 * i) 2 m)) m;
  m ← for_range 0 1024 (fun i m => Some (put (first_page_table + 4 * i) (Z.lor (u32 (i * 0x1000)) 3) m)) m;
  let m := put page_directory (Z.lor first_page_table 7) m in
  Some (page_directory, m).

(** ** The processor's walk

    Bits 22 to 31 of an address select an entry of the directory, bits 12 to 21 one of the
    table; bit 0 of an entry says that it is there, bit 1 that it can be written, bit 2
    that it is the user's.  The result is the physical address and these two rights. *)
Definition walk (m : words) (dir la : Z) : option (Z * bool * bool) :=
  let d := m (dir + 4 * get_field 22 10 la) in
  if negb (get_bit 0 d) then None
  else if get_bit 7 d then Some (Z.shiftl (get_field 22 10 d) 22 + get_field 0 22 la, get_bit 1 d, get_bit 2 d)
  else
    let e := m (frame d + 4 * get_field 12 10 la) in
    if negb (get_bit 0 e) then None
    else Some (frame e + get_field 0 12 la, get_bit 1 d && get_bit 1 e, get_bit 2 d && get_bit 2 e).

(** ** Lemmas on entries *)
Lemma flag_range flags k : 0 <= flag flags k < 2 ^ 1.
Proof. exact (get_field_range k 1 flags ltac:(lia)). Qed.

Lemma flag_bit0 flags k : 0 <= k -> Z.testbit (flag flags k) 0 = Z.testbit flags k.
Proof. intros Hk. unfold flag. rewrite Z.land_spec, Z.shiftr_spec by lia. rewrite Z.add_0_l. apply andb_true_r. Qed.

Lemma get_set_flag pos flags k e : 0 <= pos -> 0 <= k -> get_bit pos (set_field pos 1 (flag flags k) e) = get_bit k flags.
Proof.
  intros Hp Hk. unfold get_bit. rewrite set_field_bits by lia.
  replace ((pos <=? pos) && (pos <? pos + 1)) with true by lia. rewrite Z.sub_diag. by apply flag_bit0.
Qed.

Ltac field_simpl :=
  repeat first
    [ rewrite get_set_flag by lia
    | rewrite get_set_bit_other by lia
    | rewrite get_set_same by (first [lia | apply flag_range])
    | rewrite get_set_other by lia ].

Lemma set_flags_fields e flags :
  let d := pd_entry_set_flags e flags in
  frame d = frame e /\ get_bit 0 d = get_bit 0 flags /\ get_bit 1 d = get_bit 1 flags /\ get_bit 2 d = get_bit 2 flags
  /\ get_bit 7 d = get_bit 7 flags.
Proof. unfold pd_entry_set_flags, frame. cbv zeta. split_and!; field_simpl; reflexivity. Qed.

Lemma higher_range a : 0 <= Z.land (Z.shiftr a 12) 0xfffff < 2 ^ 20.
Proof. exact (get_field_range 12 20 a ltac:(lia)). Qed.

Lemma frame_set a e : 0 <= a < 2 ^ 32 -> frame (set_field 12 20 (Z.land (Z.shiftr a 12) 0xfffff) e) = a / 4096 * 4096.
Proof.
  intros Ha. unfold frame. rewrite get_set_same by (first [lia|apply higher_range]).
  change 0xfffff with (Z.ones 20). rewrite Z.land_ones, Z.shiftr_div_pow2, Z.shiftl_mul_pow2 by lia.
  change (2 ^ 12) with 4096. rewrite Z.mod_small; [done|]. split; [apply Z.div_pos; lia|apply Z.div_lt_upper_bound; lia].
Qed.

Lemma set_identity_fields e a :
  0 <= a < 2 ^ 32 ->
  frame (set_identity e a) = a / 4096 * 4096 /\ get_bit 0 (set_identity e a) = true
  /\ get_bit 1 (set_identity e a) = true /\ get_bit 2 (set_identity e a) = true.
Proof.
  intros Ha. unfold set_identity. cbv zeta. set (e' := set_field 12 20 _ e).
  assert (frame e' = a / 4096 * 4096) as <- by by apply frame_set. unfold frame.
  split_and!; [by rewrite !get_set_other by lia|..]; rewrite ?get_set_bit_other by lia;
    (refine (get_set_bit _ true _ _); lia).
Qed.

Lemma pd_table_set_fields e data :
  let d := pd_table_set e data in
  frame d = frame data /\ get_bit 0 d = get_bit 0 data /\ get_bit 1 d = get_bit 1 data /\ get_bit 2 d = get_bit 2 data.
Proof.
  unfold pd_table_set, frame. cbv zeta. split_and!; field_simpl; [|reflexivity..].
  f_equal. apply get_set_same; [lia|apply higher_range|lia].
Qed.

(** ** Indexes are those of the processor *)
Lemma indexes_spec v : 0 <= v < 2 ^ 32 -> vaddress_to_page_indexes v = (get_field 22 10 v, get_field 12 10 v).
Proof.
  intros Hv. rewrite !get_field_div by lia. unfold vaddress_to_page_indexes, align_addr_to_lower.
  change PAGE_OS_PAGE_SIZE with 4096. change (4096 * PAGE_DIRECTORY_TOTAL_ENTRIES) with (4096 * 1024).
  change (2 ^ 22) with (4096 * 1024). change (2 ^ 12) with 4096. change (2 ^ 10) with 1024.
  pose proof (Z.div_mod v 4096 ltac:(lia)) as Hd. pose proof (Z.mod_pos_bound v 4096 ltac:(lia)) as Hm.
  assert (E : (if v mod 4096 =? 0 then v else u32 (v - v mod 4096)) = v / 4096 * 4096).
  { destruct (Z.eqb_spec (v mod 4096) 0); [lia|]. unfold u32. rewrite Z.mod_small by lia. lia. }
  rewrite E. set (q := v / 4096) in *. assert (Hq : 0 <= q < 2 ^ 20) by lia.
  rewrite <- (Z.div_div v 4096 1024) by lia. fold q. rewrite (Z.mul_comm 4096 1024).
  rewrite Z.div_mul_cancel_r, Z.mul_mod_distr_r, Z.div_mul by lia.
  rewrite (Z.mod_small (q / 1024)); [done|]. split; [apply Z.div_pos; lia|apply Z.div_lt_upper_bound; lia].
Qed.

(** ** What a directory maps

    Table [ts !! k] holds the entries of the pages from [1024 * k] on; [E] is the entry of
    each page. *)
Definition table_at (ts : list Z) (k : Z) : Z := default 0 (ts !! Z.to_nat k).

Record dir_ok (dir : Z) (ts : list Z) : Prop := {
  d_len : length ts = 1024%nat;
  d_aligned : forall k, 0 <= k < 1024 -> (4096 | table_at ts k) /\ 0 < table_at ts k /\ table_at ts k + 4096 <= 2 ^ 32;
  d_apart : forall k, 0 <= k < 1024 -> table_at ts k + 4096 <= dir \/ dir + 4096 <= table_at ts k;
  d_distinct : forall k l, 0 <= k < 1024 -> 0 <= l < 1024 -> k <> l ->
    table_at ts k + 4096 <= table_at ts l \/ table_at ts l + 4096 <= table_at ts k }.

Definition pde (flags t : Z) : Z :=
  pd_entry_set_flags (set_field 12 20 (Z.land (Z.shiftr t 12) 0xfffff) 0) flags.

Definition holds_entries (flags dir : Z) (ts : list Z) (E : Z -> Z) (m : words) : Prop :=
  (forall k, 0 <= k < 1024 -> m (dir + 4 * k) = pde flags (table_at ts k))
  /\ forall k j, 0 <= k < 1024 -> 0 <= j < 1024 -> m (table_at ts k + 4 * j) = E (1024 * k + j).

(** What the processor makes of the entry [e] of a page. *)
Definition mapped_to (flags e la : Z) : option (Z * bool * bool) :=
  if get_bit 0 e
  then Some (frame e + la mod 4096, get_bit 1 flags && get_bit 1 e, get_bit 2 flags && get_bit 2 e)
  else None.

Lemma pde_page flags t : 0 <= t < 2 ^ 32 -> frame (pde flags t) = t / 4096 * 4096.
Proof. intros Ht. unfold pde. rewrite (proj1 (set_flags_fields _ flags)). by apply frame_set. Qed.

Lemma pde_frame flags t : 0 <= t < 2 ^ 32 -> (4096 | t) -> frame (pde flags t) = t.
Proof. intros Ht [q ->]. rewrite pde_page by done. by rewrite Z.div_mul. Qed.

Lemma pde_bits flags t :
  get_bit 0 (pde flags t) = get_bit 0 flags /\ get_bit 1 (pde flags t) = get_bit 1 flags
  /\ get_bit 2 (pde flags t) = get_bit 2 flags /\ get_bit 7 (pde flags t) = get_bit 7 flags.
Proof. apply set_flags_fields. Qed.

Lemma page_split la : 0 <= la < 2 ^ 32 ->
  0 <= get_field 22 10 la < 1024 /\ 0 <= get_field 12 10 la < 1024
  /\ 1024 * get_field 22 10 la + get_field 12 10 la = la / 4096 /\ get_field 0 12 la = la mod 4096.
Proof.
  intros Hla. pose proof (get_field_range 22 10 la ltac:(lia)). pose proof (get_field_range 12 10 la ltac:(lia)).
  split_and!; [lia..| |].
  - rewrite !get_field_div by lia. change (2 ^ 22) with (4096 * 1024). change (2 ^ 12) with 4096. change (2 ^ 10) with 1024.
    rewrite <- Z.div_div by lia. rewrite (Z.mod_small (la / 4096 / 1024)).
    + symmetry. apply Z.div_mod. lia.
    + split; [apply Z.div_pos; [apply Z.div_pos; lia|lia]|]. apply Z.div_lt_upper_bound; [lia|]. apply Z.div_lt_upper_bound; lia.
  - rewrite get_field_div, Z.pow_0_r, Z.div_1_r by lia. done.
Qed.

Lemma walk_entry flags dir ts E m la :
  dir_ok dir ts -> holds_entries flags dir ts E m -> get_bit 0 flags = true -> get_bit 7 flags = false ->
  0 <= la < 2 ^ 32 -> walk m dir la = mapped_to flags (E (la / 4096)) la.
Proof.
  intros Hd [He Ht] Hp Hs Hla. destruct (page_split la Hla) as (R1 & R2 & Hpage & Hoff).
  unfold walk. rewrite He by done. destruct (d_aligned _ _ Hd _ R1) as (Hal & H0 & Hle).
  rewrite pde_frame by (done || lia).
  destruct (pde_bits flags (table_at ts (get_field 22 10 la))) as (F0 & F1 & F2 & F7).
  rewrite F0, F1, F2, F7, Hp, Hs. cbn [negb]. rewrite (Ht _ _ R1 R2), Hpage. unfold mapped_to.
  destruct (get_bit 0 (E (la / 4096))); cbn [negb]; [|done]. by rewrite Hoff.
Qed.

(** ** Changing an entry *)
Definition put_entry (E : Z -> Z) (v data : Z) : Z -> Z := fun n => if n =? v / 4096 then data else E n.

Lemma set_page_entries flags dir ts E m v data :
  dir_ok dir ts -> holds_entries flags dir ts E m -> 0 <= v < 2 ^ 32 ->
  exists m' e, paging_set_page dir v data m = Some (0, m')
    /\ frame e = frame data /\ get_bit 0 e = get_bit 0 data /\ get_bit 1 e = get_bit 1 data /\ get_bit 2 e = get_bit 2 data
    /\ holds_entries flags dir ts (put_entry E v e) m'.
Proof.
  intros Hd [He Ht] Hv. destruct (page_split v Hv) as (R1 & R2 & Hpage & _). unfold paging_set_page. rewrite indexes_spec by done.
  rewrite He by done. destruct (d_aligned _ _ Hd _ R1) as (Hal & H0 & Hle).
  rewrite pde_frame by (done || lia). destruct (Z.eqb_spec (table_at ts (get_field 22 10 v)) 0); [lia|].
  set (k := get_field 22 10 v) in *. set (j := get_field 12 10 v) in *. set (t := table_at ts k) in *.
  destruct (pd_table_set_fields (m (t + 4 * j)) data) as (P0 & P1 & P2 & P3).
  eexists _, _. split; [reflexivity|]. split_and!; [exact P0|exact P1|exact P2|exact P3|]. split.
  - intros k' Hk'. unfold put. destruct (Z.eqb_spec (dir + 4 * k') (t + 4 * j)); [|by apply He].
    pose proof (d_apart _ _ Hd k R1). fold t in H. lia.
  - intros k' j' Hk' Hj'. unfold put, put_entry. rewrite <- Hpage.
    destruct (Z.eq_dec k' k) as [->|Hne].
    + fold t. destruct (Z.eqb_spec (t + 4 * j') (t + 4 * j)), (Z.eqb_spec (1024 * k + j') (1024 * k + j)); try lia.
      by apply Ht.
    + destruct (Z.eqb_spec (1024 * k' + j') (1024 * k + j)); [lia|].
      pose proof (d_distinct _ _ Hd k k' R1 Hk' ltac:(lia)) as Hdis. fold t in Hdis.
      destruct (Z.eqb_spec (table_at ts k' + 4 * j') (t + 4 * j)); [lia|]. by apply Ht.
Qed.

(** ** Building the directory *)
Section building.
Context {H : Type} (malloc : H -> Z -> option (Z * H)) (free : H -> Z -> option H).
Context `{HA : !Allocator H 4096 malloc free}.
Context (h0 : H) (flags : Z) (Hlive : al_live h0 []) (Hregion : (al_region h0).2 <= 2 ^ 32).

(** The next [n] requests for a page are granted. *)
Fixpoint grants (n : nat) (h : H) : Prop :=
  match n with
  | O => True
  | S n => exists p h', malloc h 4096 = Some (p, h') /\ p <> 0 /\ grants n h'
  end.

(** The blocks got so far, the first one first. *)
Definition got (L : list Z) (h : H) : Prop := client (malloc := malloc) (free := free) (align := 4096) h0 h ((fun p => (p, 4096)) <$> reverse L).

Lemma got_one L h n :
  got L h -> grants (S n) h -> exists p h', malloc h 4096 = Some (p, h') /\ p <> 0 /\ got (L ++ [p]) h' /\ grants n h'.
Proof.
  intros Hg (p & h' & E & Hp & Hn). exists p, h'. split_and!; [done|done| |done].
  unfold got. rewrite reverse_snoc. cbn. apply (client_malloc h0 h); [done|lia|by exists 1|done|done].
Qed.

Lemma got_blocks L h i p :
  got L h -> L !! i = Some p -> (4096 | p) /\ 0 < p /\ p + 4096 <= 2 ^ 32.
Proof.
  intros Hg Hi. destruct (client_safe h0 h _ Hlive Hg) as (Hb & _). rewrite list.Forall_forall in Hb.
  specialize (Hb (p, 4096)). pose proof (al_region_pos h0 [] Hlive). destruct Hb as (H1 & H2 & _ & H3).
  - apply list_elem_of_fmap. exists p. split; [done|]. apply elem_of_reverse. by apply list_elem_of_lookup_2 in Hi.
  - cbn [fst snd] in *. split_and!; [done|lia|lia].
Qed.

Lemma got_apart L h i j p q :
  got L h -> L !! i = Some p -> L !! j = Some q -> i <> j -> p + 4096 <= q \/ q + 4096 <= p.
Proof.
  intros Hg Hi Hj Hne. destruct (client_safe h0 h _ Hlive Hg) as (_ & Hd & _).
  pose proof (lookup_lt_Some _ _ _ Hi). pose proof (lookup_lt_Some _ _ _ Hj).
  destruct (Hd (length L - S i)%nat (length L - S j)%nat (p, 4096) (q, 4096)) as [Hb|Hb]; [lia|..];
    try (unfold before in Hb; cbn in Hb; lia);
    rewrite list_lookup_fmap, reverse_lookup by lia; apply fmap_Some; eexists; (split; [|done]).
  - replace (length L - S (length L - S i))%nat with i by lia. done.
  - replace (length L - S (length L - S j))%nat with j by lia. done.
Qed.

Definition identity_entry (n : Z) : Z := set_identity 0 (4096 * n).

Lemma fill_entries t i m :
  0 < t -> 0 <= i < 1024 -> (forall j, 0 <= j < 1024 -> m (t + 4 * j) = 0) ->
  exists m', for_range 0 PAGE_TABLE_TOTAL_ENTRIES (fill_entry t) (4194304 * i, m) = Some (4194304 * (i + 1), m')
    /\ (forall j, 0 <= j < 1024 -> m' (t + 4 * j) = identity_entry (1024 * i + j))
    /\ forall a, a < t \/ t + 4096 <= a -> m' a = m a.
Proof.
  intros Ht Hi H0. unfold PAGE_TABLE_TOTAL_ENTRIES.
  destruct (for_range_inv (fun j '(off, m1) => off = 4194304 * i + 4096 * j
      /\ (forall j', 0 <= j' < j -> m1 (t + 4 * j') = identity_entry (1024 * i + j'))
      /\ (forall j', j <= j' < 1024 -> m1 (t + 4 * j') = 0)
      /\ forall a, a < t \/ t + 4096 <= a -> m1 a = m a) 0 1024 (fill_entry t) (4194304 * i, m))
    as ([off m'] & E & Hoff & Hf & _ & Ho); [lia| | |].
  - split_and!; [lia|lia| |done]. intros j' Hj'. apply H0. lia.
  - intros j [off m1] Hj (-> & Hf & Hz & Ho). cbn [fill_entry]. destruct (Z.eqb_spec t 0); [lia|].
    eexists. split; [reflexivity|]. unfold u64, PAGE_OS_PAGE_SIZE. rewrite Z.mod_small by lia.
    rewrite (Hz j) by lia. unfold put. split_and!; [lia| | |].
    + intros j' Hj'. destruct (Z.eqb_spec (t + 4 * j') (t + 4 * j)) as [E|E].
      * assert (j' = j) as -> by lia. unfold identity_entry. f_equal. lia.
      * apply Hf. assert (j' <> j) by (intros ->; done). lia.
    + intros j' Hj'. destruct (Z.eqb_spec (t + 4 * j') (t + 4 * j)); [lia|]. apply Hz. lia.
    + intros a Ha. destruct (Z.eqb_spec a (t + 4 * j)); [lia|]. by apply Ho.
  - exists m'. split; [|done]. etransitivity; [exact E|]. rewrite Hoff. do 2 f_equal. lia.
Qed.

(** Up to table [i] the directory is built. *)
Record built (pd dir i off : Z) (h : H) (m : words) (ts : list Z) : Prop := {
  b_off : off = 4194304 * i;
  b_len : Z.of_nat (length ts) = i;
  b_got : got (pd :: dir :: ts) h;
  b_left : grants (Z.to_nat (1024 - i)) h;
  b_pd : m pd = dir;
  b_dir : forall k, 0 <= k < i -> m (dir + 4 * k) = pde flags (table_at ts k);
  b_zero : forall k, i <= k < 1024 -> m (dir + 4 * k) = 0;
  b_tables : forall k j, 0 <= k < i -> 0 <= j < 1024 -> m (table_at ts k + 4 * j) = identity_entry (1024 * k + j) }.

Lemma table_at_lookup ts k : 0 <= k < Z.of_nat (length ts) -> ts !! Z.to_nat k = Some (table_at ts k).
Proof.
  intros Hk. unfold table_at. destruct (ts !! Z.to_nat k) as [t|] eqn:E; [done|]. apply lookup_ge_None in E. lia.
Qed.

Lemma table_at_app ts t k : 0 <= k < Z.of_nat (length ts) -> table_at (ts ++ [t]) k = table_at ts k.
Proof. intros Hk. unfold table_at. by rewrite lookup_app_l by lia. Qed.

Lemma table_at_end ts t : table_at (ts ++ [t]) (Z.of_nat (length ts)) = t.
Proof. unfold table_at. by rewrite Nat2Z.id, list_lookup_middle. Qed.

Lemma fill_table_built pd dir i off h m ts :
  0 <= i < 1024 -> built pd dir i off h m ts ->
  exists off' h' m' t, fill_table malloc dir flags i (off, h, m) = Some (off', h', m')
    /\ built pd dir (i + 1) off' h' m' (ts ++ [t]).
Proof.
  intros Hi [Hoff Hlen Hgot Hleft Hpd Hdir Hzero Htab].
  replace (Z.to_nat (1024 - i)) with (S (Z.to_nat (1024 - (i + 1)))) in Hleft by lia.
  destruct (got_one _ _ _ Hgot Hleft) as (t & h' & E & Ht & Hgot' & Hleft').
  change ((pd :: dir :: ts) ++ [t]) with (pd :: dir :: (ts ++ [t])) in Hgot'.
  pose proof (got_blocks _ _ 1 dir Hgot' eq_refl) as (_ & Hd0 & _).
  assert (Hlt : (pd :: dir :: (ts ++ [t])) !! (2 + length ts)%nat = Some t) by (cbn; by apply list_lookup_middle).
  pose proof (got_blocks _ _ _ t Hgot' Hlt) as (Htal & Ht0 & Htle).
  pose proof (got_apart _ _ _ 1 t dir Hgot' Hlt eq_refl ltac:(lia)) as Htd.
  pose proof (got_apart _ _ _ 0 t pd Hgot' Hlt eq_refl ltac:(lia)) as Htp.
  pose proof (got_apart _ _ 0 1 pd dir Hgot' eq_refl eq_refl ltac:(lia)) as Hpdd.
  cbn [fill_table]. unfold kzalloc_words. change (4 * PAGE_TABLE_TOTAL_ENTRIES) with 4096. rewrite E.
  cbn [mbind option_bind]. destruct (Z.eqb_spec t 0); [done|]. destruct (Z.eqb_spec dir 0); [lia|].
  set (e := dir + 4 * i). set (mz := zero_words t 4096 m).
  assert (Hmz : forall a, a < t \/ t + 4096 <= a -> mz a = m a).
  { intros a Ha. unfold mz, zero_words. destruct (Z.leb_spec t a), (Z.ltb_spec a (t + 4096)); cbn [andb]; try done; lia. }
  set (m2 := put e (pd_entry_set_flags _ flags) _).
  assert (He : m2 e = pde flags t).
  { unfold m2, put. rewrite !Z.eqb_refl. rewrite Hmz by lia. unfold e. rewrite Hzero by lia. unfold pde. reflexivity. }
  assert (Hm2 : forall a, a <> e -> a < t \/ t + 4096 <= a -> m2 a = m a).
  { intros a Ha Ho. unfold m2, put. rewrite !(proj2 (Z.eqb_neq a e) Ha). by apply Hmz. }
  destruct (fill_entries t i m2 Ht0 Hi) as (m' & E' & Hf & Ho).
  { intros j Hj. unfold m2, put. rewrite !(proj2 (Z.eqb_neq (t + 4 * j) e)) by lia.
    unfold mz, zero_words. destruct (Z.leb_spec t (t + 4 * j)), (Z.ltb_spec (t + 4 * j) (t + 4096)); try lia. done. }
  unfold words in *. rewrite Hoff, E'. cbn [mbind option_bind]. eexists _, _, _, t. split; [reflexivity|].
  assert (Hkeep : forall a, a <> e -> a < t \/ t + 4096 <= a -> m' a = m a).
  { intros a Ha Hout. rewrite Ho by done. by apply Hm2. }
  constructor; [lia|rewrite length_app; cbn; lia|done|done|..].
  - rewrite Hkeep by (unfold e; lia). done.
  - intros k Hk. destruct (Z.eq_dec k i) as [->|].
    + rewrite Ho by lia. fold e. rewrite He. f_equal. rewrite <- Hlen at 1. symmetry. apply table_at_end.
    + rewrite table_at_app by lia. rewrite Hkeep by (unfold e; lia). apply Hdir. lia.
  - intros k Hk. rewrite Hkeep by (unfold e; lia). apply Hzero. lia.
  - intros k j Hk Hj. destruct (Z.eq_dec k i) as [->|].
    + rewrite <- Hlen at 1. rewrite table_at_end. by apply Hf.
    + rewrite table_at_app by lia. pose proof (table_at_lookup ts k ltac:(lia)) as Hlk.
      assert (Hlk' : (pd :: dir :: (ts ++ [t])) !! (2 + Z.to_nat k)%nat = Some (table_at ts k))
        by (change ((ts ++ [t]) !! Z.to_nat k = Some (table_at ts k)); by rewrite lookup_app_l by lia).
      pose proof (got_apart _ _ _ _ _ _ Hgot' Hlk' Hlt ltac:(lia)) as H1.
      pose proof (got_apart _ _ _ 1 _ dir Hgot' Hlk' eq_refl ltac:(lia)) as H2.
      rewrite Hkeep by (unfold e; lia). apply Htab; lia.
Qed.

Lemma pd_init_entries m :
  grants 1026 h0 ->
  exists pd h ts m', pd_init malloc flags h0 m = Some (pd, h, m') /\ dir_ok (m' pd) ts
    /\ holds_entries flags (m' pd) ts identity_entry m'.
Proof.
  intros Hg. assert (Hstart : got [] h0) by constructor.
  destruct (got_one _ _ _ Hstart Hg) as (pd & h1 & E1 & Hpd & Hg1 & Hleft1).
  destruct (got_one _ _ _ Hg1 Hleft1) as (dir & h2 & E2 & Hdir & Hg2 & Hleft2). cbn [app] in Hg1, Hg2.
  unfold pd_init, kzalloc_words. change sizeof_PAGE_DIRECTORY_4KB with 4096. rewrite E1. cbn [mbind option_bind].
  change (4 * PAGE_DIRECTORY_TOTAL_ENTRIES) with 4096. rewrite E2. cbn [mbind option_bind].
  destruct (Z.eqb_spec pd 0); [done|]. destruct (Z.eqb_spec dir 0); [done|].
  set (m0 := put pd dir _).
  pose proof (got_apart _ _ 0 1 pd dir Hg2 eq_refl eq_refl ltac:(lia)) as Hpdd.
  destruct (for_range_inv (fun i '(off, h, m1) => exists ts, built pd dir i off h m1 ts) 0 PAGE_DIRECTORY_TOTAL_ENTRIES
    (fill_table malloc dir flags) (0, h2, m0)) as ([[off h] m'] & E & ts & Hb); [done| | |].
  - exists []. constructor; try done; try lia.
    + unfold m0, put. by rewrite Z.eqb_refl.
    + intros k Hk. unfold m0, put. destruct (Z.eqb_spec (dir + 4 * k) pd); [lia|]. unfold zero_words.
      destruct (Z.leb_spec dir (dir + 4 * k)), (Z.ltb_spec (dir + 4 * k) (dir + 4096)); try lia. done.
  - intros i [[off h] m1] Hi (ts & Hb). unfold PAGE_DIRECTORY_TOTAL_ENTRIES in Hi.
    destruct (fill_table_built pd dir i off h m1 ts Hi Hb) as (off' & h' & m2 & t & E & Hb').
    exists (off', h', m2). split; [done|]. by exists (ts ++ [t]).
  - unfold words in *. rewrite E. cbn [mbind option_bind]. exists pd, h, ts, m'. split; [done|].
    destruct Hb as [_ Hlen Hgot _ Hmpd Hd _ Ht]. unfold PAGE_DIRECTORY_TOTAL_ENTRIES in *. rewrite Hmpd.
    assert (Hlk : forall k, 0 <= k < 1024 -> (pd :: dir :: ts) !! (2 + Z.to_nat k)%nat = Some (table_at ts k))
      by (intros k Hk; apply table_at_lookup; lia).
    split; [|split; [done|]].
    + constructor; [lia|..].
      * intros k Hk. by apply (got_blocks _ _ _ _ Hgot (Hlk k Hk)).
      * intros k Hk. by apply (got_apart _ _ _ 1 _ _ Hgot (Hlk k Hk) eq_refl); lia.
      * intros k l Hk Hl Hne. by apply (got_apart _ _ _ _ _ _ Hgot (Hlk k Hk) (Hlk l Hl)); lia.
    + intros k j Hk Hj. by apply Ht.
Qed.
End building.

(** ** Entries that mean the same to the processor *)
Definition same_entry (e e' : Z) : Prop :=
  frame e = frame e' /\ get_bit 0 e = get_bit 0 e' /\ get_bit 1 e = get_bit 1 e' /\ get_bit 2 e = get_bit 2 e'.

#[global] Instance same_entry_equiv : Equivalence same_entry.
Proof.
  split.
  - by intros e.
  - intros e e' (? & ? & ? & ?). by split_and!.
  - intros e1 e2 e3 (? & ? & ? & ?) (? & ? & ? & ?). split_and!; etransitivity; eassumption.
Qed.

#[global] Instance mapped_to_proper flags : Proper (same_entry ==> eq ==> eq) (mapped_to flags).
Proof. intros e e' (Hf & H0 & H1 & H2) la _ <-. unfold mapped_to. by rewrite Hf, H0, H1, H2. Qed.

(** Any number of calls of [paging_set_page]. *)
Fixpoint set_pages (dir : Z) (sets : list (Z * Z)) (m : words) : option words :=
  match sets with
  | [] => Some m
  | (v, data) :: sets => r ← paging_set_page dir v data m; set_pages dir sets r.2
  end.

(** What was last set for each page. *)
Definition pages_set (sets : list (Z * Z)) (M : gmap Z Z) : gmap Z Z :=
  foldl (fun M '(v, data) => <[v / 4096 := data]> M) M sets.
Definition entry_of (M : gmap Z Z) (n : Z) : Z := default (identity_entry n) (M !! n).

Lemma set_pages_entries flags dir ts sets M E m :
  dir_ok dir ts -> Forall (fun s => 0 <= s.1 < 2 ^ 32) sets -> holds_entries flags dir ts E m ->
  (forall n, same_entry (E n) (entry_of M n)) ->
  exists m' E', set_pages dir sets m = Some m' /\ holds_entries flags dir ts E' m'
    /\ forall n, same_entry (E' n) (entry_of (pages_set sets M) n).
Proof.
  intros Hd. revert M E m. induction sets as [|[v data] sets IH]; intros M E m Hs He HE; [by exists m, E|].
  apply list.Forall_cons in Hs as [Hv Hs]. cbn [fst] in Hv.
  destruct (set_page_entries flags dir ts E m v data Hd He Hv) as (m1 & e & E1 & F & B0 & B1 & B2 & He1).
  cbn [set_pages]. rewrite E1. cbn [mbind option_bind snd]. cbn [pages_set foldl].
  apply (IH (<[v / 4096 := data]> M) (put_entry E v e) m1); [done|done|]. intros n. unfold put_entry, entry_of.
  destruct (Z.eqb_spec n (v / 4096)) as [->|Hne].
  - rewrite lookup_insert_eq. by split_and!.
  - rewrite lookup_insert_ne by done. apply HE.
Qed.

Lemma identity_mapped flags la :
  0 <= la < 2 ^ 32 -> mapped_to flags (identity_entry (la / 4096)) la = Some (la, get_bit 1 flags, get_bit 2 flags).
Proof.
  intros Hla. unfold mapped_to, identity_entry.
  assert (Hq : 0 <= 4096 * (la / 4096) < 2 ^ 32).
  { pose proof (Z.mul_div_le la 4096 ltac:(lia)). pose proof (Z.div_pos la 4096 ltac:(lia) ltac:(lia)). lia. }
  destruct (set_identity_fields 0 _ Hq) as (Hf & -> & -> & ->). rewrite !andb_true_r. do 3 f_equal.
  rewrite Hf, (Z.mul_comm 4096), Z.div_mul by lia. pose proof (Z.div_mod la 4096 ltac:(lia)). lia.
Qed.

(** With an allocator of whole pages that grants the 1026 requests of [pd_init],
    and flags for present tables: after [pd_init], [paging_switch] and any calls of
    [paging_set_page] the processor's walk from CR3 finds for each address what was last
    set for its page, and the address itself where nothing was set. *)
Theorem page_tables_refine {H} (malloc : H -> Z -> option (Z * H)) (free : H -> Z -> option H)
    `{HA : !Allocator H 4096 malloc free} h0 flags m sets :
  al_live h0 [] -> (al_region h0).2 <= 2 ^ 32 -> grants malloc 1026 h0 ->
  get_bit 0 flags = true -> get_bit 7 flags = false -> Forall (fun s => 0 <= s.1 < 2 ^ 32) sets ->
  exists pd h m1 m2, pd_init malloc flags h0 m = Some (pd, h, m1)
    /\ set_pages (cr3 (paging_switch pd m1)) sets m1 = Some m2
    /\ forall la, 0 <= la < 2 ^ 32 ->
         walk m2 (cr3 (paging_switch pd m1)) la
         = match pages_set sets ∅ !! (la / 4096) with
           | Some data => mapped_to flags data la
           | None => Some (la, get_bit 1 flags, get_bit 2 flags)
           end.
Proof.
  intros Hl Hr Hg Hp Hps Hs. destruct (pd_init_entries malloc free h0 flags Hl Hr m Hg) as (pd & h & ts & m1 & E & Hd & He).
  destruct (set_pages_entries flags (m1 pd) ts sets ∅ identity_entry m1 Hd Hs He) as (m2 & E' & Es & He2 & Hsame).
  { intros n. unfold entry_of. rewrite lookup_empty. reflexivity. }
  exists pd, h, m1, m2. split; [done|]. split; [done|]. intros la Hla. cbn [cr3 paging_switch].
  rewrite (walk_entry flags (m1 pd) ts E' m2 la) by done. rewrite (Hsame (la / 4096)). unfold entry_of.
  destruct (pages_set sets ∅ !! (la / 4096)) as [data|]; [done|]. cbn [default]. by apply identity_mapped.
Qed.

(** ** An allocator of pages, for which the theorem holds

    Blocks are taken from the region upwards, a page apart, and given back in any
    order; what was given back is not used again. *)
Record bump := mkBump { bump_next : Z; bump_live : list (Z * Z) }.
Definition bump_hi : Z := 0x10000000.

Definition bump_malloc (h : bump) (s : Z) : option (Z * bump) :=
  if bump_next h + s <=? bump_hi
  then Some (bump_next h, mkBump (bump_next h + s + 4096) (bump_live h ++ [(bump_next h, s)]))
  else Some (0, h).

Definition bump_free (h : bump) (p : Z) : option bump :=
  if p =? 0 then Some h else Some (mkBump (bump_next h) (filter (fun b => b.1 <> p) (bump_live h))).

Definition bump_ok (h : bump) (bs : list (Z * Z)) : Prop :=
  bump_live h = bs /\ StronglySorted before bs /\ 4096 <= bump_next h /\ (4096 | bump_next h)
  /\ Forall (fun b => 4096 <= b.1 /\ b.1 + b.2 < bump_next h /\ b.1 + b.2 <= bump_hi /\ 0 <= b.2 /\ (4096 | b.1)) bs.

Lemma bump_malloc_ok h bs s :
  bump_ok h bs -> 0 <= s < 2 ^ 32 -> (4096 | s) ->
  exists p h', bump_malloc h s = Some (p, h') /\ (0, bump_hi) = (0, bump_hi)
    /\ ((p = 0 /\ h' = h)
        \/ exists bs1 bs2 n, bs = bs1 ++ bs2 /\ s <= n /\ bump_ok h' (bs1 ++ (p, n) :: bs2)).
Proof.
  intros (Hl & Hs & H0 & Ha & HF) Hsz Hal. unfold bump_malloc.
  destruct (Z.leb_spec (bump_next h + s) bump_hi); eexists _, _; (split; [reflexivity|split; [done|]]); [right|by left].
  exists bs, [], s. rewrite app_nil_r. split_and!; [done|lia|].
  split_and!; cbn [bump_live bump_next]; [by rewrite Hl| |lia| |].
  - apply StronglySorted_app. split_and!; [|done|by repeat constructor].
    intros b1 b2 H1 ->%list_elem_of_singleton. rewrite list.Forall_forall in HF. destruct (HF b1 H1) as (_ & Hb & _).
    unfold before. cbn [fst snd]. lia.
  - apply Z.divide_add_r; [by apply Z.divide_add_r|by exists 1].
  - apply Forall_app. split; [|by repeat constructor; cbn [fst snd]; [lia..|]].
    eapply Forall_impl; [exact HF|]. cbn beta. intros b (? & ? & ? & ? & ?). split_and!; try done; lia.
Qed.

Lemma filter_other p (bs1 bs2 : list (Z * Z)) n :
  StronglySorted before (bs1 ++ (p, n) :: bs2) -> Forall (fun b => 0 <= b.2) (bs1 ++ (p, n) :: bs2) ->
  filter (fun b => b.1 <> p) (bs1 ++ (p, n) :: bs2) = bs1 ++ bs2.
Proof.
  intros Hs HF. pose proof (sorted_before_nodup _ Hs HF) as Hn. rewrite fmap_app, fmap_cons in Hn.
  apply list.NoDup_app in Hn as (_ & H1 & H2). cbn [fst] in H1, H2. apply list.NoDup_cons in H2 as [H2 _].
  rewrite filter_app, filter_cons_False by (cbn; tauto). f_equal; apply filter_all; intros b Hb E.
  - apply (H1 b.1); [by apply list_elem_of_fmap_2|]. rewrite E. left.
  - apply H2. rewrite <- E. by apply list_elem_of_fmap_2.
Qed.

#[global] Program Instance bump_allocator : Allocator bump 4096 bump_malloc bump_free := {
  al_live := bump_ok;
  al_region _ := (0, bump_hi);
  al_malloc := bump_malloc_ok }.
Next Obligation. done. Qed.
Next Obligation. by intros h bs (_ & Hs & _). Qed.
Next Obligation.
  intros h bs (_ & _ & _ & _ & HF). eapply Forall_impl; [exact HF|]. cbn. intros b (? & ? & ? & ? & ?).
  unfold block_ok. split_and!; try done; lia.
Qed.
Next Obligation.
  intros h bs1 bs2 p n (Hl & Hs & H0 & Ha & HF). unfold bump_free.
  assert (Hp : 4096 <= p) by (apply Forall_app in HF as [_ [[? _] _]%list.Forall_cons]; done).
  destruct (Z.eqb_spec p 0); [lia|]. eexists. split; [reflexivity|]. split; [done|].
  assert (HF2 : Forall (fun b => 0 <= b.2) (bs1 ++ (p, n) :: bs2)) by (eapply Forall_impl; [exact HF|]; cbn; tauto).
  split_and!; cbn [bump_live bump_next]; [rewrite Hl; by apply filter_other| |done|done|].
  - apply StronglySorted_app in Hs as (H1 & H2 & H3). apply StronglySorted_app. inversion H3 as [|? ? H4 H5]; subst.
    split_and!; [|done|done]. intros b1 b2 Hb1 Hb2. apply H1; [done|by right].
  - apply Forall_app in HF as [HF1 HF3]. apply list.Forall_cons in HF3 as [_ HF3]. by apply Forall_app.
Qed.
Next Obligation. done. Qed.

Definition grantsb {H} (malloc : H -> Z -> option (Z * H)) : nat -> H -> bool :=
  fix go n h := match n with
                | O => true
                | S n => match malloc h 4096 with Some (p, h') => negb (p =? 0) && go n h' | None => false end
                end.

Lemma grantsb_grants {H} (malloc : H -> Z -> option (Z * H)) n h : grantsb malloc n h = true -> grants malloc n h.
Proof.
  revert h. induction n as [|n IH]; intros h; cbn [grantsb grants]; [done|].
  destruct (malloc h 4096) as [[p h']|]; [|done]. intros [Hp Hn]%andb_true_iff. exists p, h'. split; [done|].
  split; [|by apply IH]. by apply negb_true_iff, Z.eqb_neq in Hp.
Qed.

Lemma page_tables_refine_witness :
  exists pd h m1 m2, pd_init bump_malloc 7 (mkBump 4096 []) (fun _ => 0) = Some (pd, h, m1)
    /\ set_pages (cr3 (paging_switch pd m1)) [(0x1000, 0xabc007); (0x1234, 0xdef005)] m1 = Some m2
    /\ walk m2 (cr3 (paging_switch pd m1)) 0x1010 = Some (0xdef010, false, true)
    /\ walk m2 (cr3 (paging_switch pd m1)) 0xdeadbeef = Some (0xdeadbeef, true, true).
Proof.
  destruct (page_tables_refine bump_malloc bump_free (mkBump 4096 []) 7 (fun _ => 0) [(0x1000, 0xabc007); (0x1234, 0xdef005)])
    as (pd & h & m1 & m2 & E1 & E2 & Hw).
  - split_and!; cbn; try done; first [constructor|by exists 1].
  - cbn. unfold bump_hi. lia.
  - apply grantsb_grants. vm_compute. reflexivity.
  - reflexivity.
  - reflexivity.
  - repeat constructor; cbn; lia.
  - exists pd, h, m1, m2. split; [exact E1|]. split; [exact E2|].
    split; (rewrite Hw by lia; vm_compute; reflexivity).
Defined.

(** ** The tables of features.c *)
Lemma fill_words base (v : Z -> Z) (n : Z) m :
  0 <= n ->
  exists m', for_range 0 n (fun i m => Some (put (base + 4 * i) (v i) m)) m = Some m'
    /\ (forall i, 0 <= i < n -> m' (base + 4 * i) = v i) /\ forall a, a < base \/ base + 4 * n <= a -> m' a = m a.
Proof.
  intros Hn. destruct (for_range_inv (fun i m1 => (forall j, 0 <= j < i -> m1 (base + 4 * j) = v j)
      /\ forall a, a < base \/ base + 4 * n <= a -> m1 a = m a) 0 n (fun i m => Some (put (base + 4 * i) (v i) m)) m)
    as (m' & E & Hf & Ho); [done|split; [lia|done]| |by exists m'].
  intros i m1 Hi [Hf Ho]. eexists. split; [reflexivity|]. unfold put. split.
  - intros j Hj. destruct (Z.eqb_spec (base + 4 * j) (base + 4 * i)) as [E|E].
    + by assert (j = i) as -> by lia.
    + apply Hf. assert (j <> i) by (intros ->; done). lia.
  - intros a Ha. destruct (Z.eqb_spec a (base + 4 * i)); [lia|]. by apply Ho.
Qed.

(** [pg] maps the first 4 MiB to themselves, for the kernel only, and nothing else. *)
Theorem pg_maps_first_table dir t m :
  (4096 | t) -> 0 < t -> t + 4096 <= 2 ^ 32 -> dir + 4096 <= t \/ t + 4096 <= dir ->
  exists m', pg dir t m = Some (dir, m')
    /\ forall la, 0 <= la < 2 ^ 32 -> walk m' dir la = if la <? 2 ^ 22 then Some (la, true, false) else None.
Proof.
  intros Hal H0 Hle Hap. unfold pg.
  destruct (fill_words dir (fun _ => 2) 1024 m) as (m1 & E1 & Hd1 & _); [done|]. rewrite E1. cbn [mbind option_bind].
  destruct (fill_words t (fun i => Z.lor (u32 (i * 0x1000)) 3) 1024 m1) as (m2 & E2 & Ht2 & Ho2); [done|]. rewrite E2.
  cbn [mbind option_bind]. eexists. split; [reflexivity|]. intros la Hla.
  destruct (page_split la Hla) as (R1 & R2 & Hpage & Hoff).
  assert (Hdir : put dir (Z.lor t 7) m2 (dir + 4 * get_field 22 10 la) = if get_field 22 10 la =? 0 then Z.lor t 7 else 2).
  { unfold put. destruct (Z.eqb_spec (get_field 22 10 la) 0) as [->|]; [by rewrite Z.mul_0_r, Z.add_0_r, Z.eqb_refl|].
    destruct (Z.eqb_spec (dir + 4 * get_field 22 10 la) dir); [lia|]. rewrite Ho2 by lia. by apply Hd1. }
  unfold walk. rewrite Hdir. set (k := get_field 22 10 la) in *. destruct (Z.eqb_spec k 0) as [Hk0|Hk0].
  - change 4096 with (2 ^ 12) in Hal.
    assert (Hd : frame (Z.lor t 7) = t) by (apply (entry_address t 12 20 7); [lia|lia|exact Hal|lia|lia]).
    rewrite Hd. unfold put. destruct (Z.eqb_spec (t + 4 * get_field 12 10 la) dir); [lia|].
    rewrite Ht2 by lia. set (j := get_field 12 10 la) in *. unfold u32. rewrite Z.mod_small by lia.
    assert (Hj : (2 ^ 12 | j * 4096)) by apply Z.divide_factor_r.
    assert (He : frame (Z.lor (j * 4096) 3) = j * 4096) by (apply (entry_address (j * 4096) 12 20 3); [lia|lia|exact Hj|lia|lia]).
    change 0x1000 with 4096. rewrite !(flag_bit t 12), !(flag_bit (j * 4096) 12), He by first [lia|exact Hal|exact Hj].
    change (Z.testbit 7 0) with true. change (Z.testbit 7 7) with false. change (Z.testbit 7 1) with true.
    change (Z.testbit 7 2) with true. change (Z.testbit 3 0) with true. change (Z.testbit 3 1) with true.
    change (Z.testbit 3 2) with false. cbn [negb andb].
    pose proof (Z.div_mod la 4096 ltac:(lia)). pose proof (Z.mod_pos_bound la 4096 ltac:(lia)).
    destruct (Z.ltb_spec la (2 ^ 22)); [|lia]. do 3 f_equal. lia.
  - cbn. destruct (Z.ltb_spec la (2 ^ 22)); [|done].
    assert (la / 4096 < 1024) by (apply Z.div_lt_upper_bound; lia). lia.
Qed.

(** ** What goes wrong

    The flags A, PCD and PWT are written to the bits of other flags: asking for
    write-through (bit 3) sets bit 4 of the entry, which disables the cache. *)
Lemma pd_flags_misplaced : pd_entry_set_flags 0 0x8 = 0x10 /\ pd_entry_to_val (pd_entry_set_flags 0 0x8) = 0x8.
Proof. split; reflexivity. Qed.

(** A table that does not start at a page is lost: the entry points elsewhere.  The
    blocks of the chunk allocator are aligned to 16 bytes only. *)
Lemma unaligned_table_lost flags t : 0 <= t < 2 ^ 32 -> ~ (4096 | t) -> frame (pde flags t) <> t.
Proof.
  intros Ht Hal E. apply Hal. exists (t / 4096). by rewrite pde_page in E.
Qed.
