(* ===== verification/Terminal.v ===== *)
(** * The text mode terminal, src/src/drivers/graphic/colortextmode.c

    The video memory is an array of 25 rows of 80 cells, a character with its colour
    each.  The terminal writes at a position of its own and scrolls at the end of the
    last row.  The refinement is to a roll of lines that only grows: the screen shows the
    last 25 of them. *)
From Stdlib Require Import ZArith Lia.
From stdpp Require Import base option list numbers.
From S2P Require Import Prelude Kutil.

Set Default Proof Using "Type".

Definition VGA_WIDTH : Z := 80.
Definition VGA_HEIGHT : Z := 25.

(** [video_mem], [current_terminal_row] and [current_terminal_col]. *)
Record terminal := mkTerminal { video_mem : list Z; current_terminal_row : Z; current_terminal_col : Z }.

Definition set_video (t : terminal) (v : list Z) : terminal := mkTerminal v (current_terminal_row t) (current_terminal_col t).
Definition set_row (t : terminal) (y : Z) : terminal := mkTerminal (video_mem t) y (current_terminal_col t).
Definition set_col (t : terminal) (x : Z) : terminal := mkTerminal (video_mem t) (current_terminal_row t) x.

(** [c] is a signed [char]. *)
Definition colortextmode_terminal_make_char (c color : Z) : Z := u16 (Z.lor (Z.shiftl color 8) c).

Definition colortextmode_terminal_put_char (x y c color : Z) (t : terminal) : option terminal :=
  v ← (video_mem t)$[y * VGA_WIDTH + x := colortextmode_terminal_make_char c color];
  Some (set_video t v).

Definition colortextmode_terminal_initialize (t : terminal) : option terminal :=
  for_range 0 VGA_HEIGHT (fun y t =>
    for_range 0 VGA_WIDTH (fun x t => colortextmode_terminal_put_char x y 32 0 t) t) t.

Definition _terminal_scroll (t : terminal) : option terminal :=
  t ← for_range 1 VGA_HEIGHT (fun y t =>
        for_range 0 VGA_WIDTH (fun x t =>
          c ← (video_mem t)$[y * VGA_WIDTH + x];
          v ← (video_mem t)$[(y - 1) * VGA_WIDTH + x := c];
          Some (set_video t v)) t) t;
  for_range 0 VGA_WIDTH (fun z t => colortextmode_terminal_put_char z (VGA_HEIGHT - 1) 32 0 t) t.

Definition current_terminal_row_scrolldown (t : terminal) : option terminal :=
  let t := set_row t (u16 (current_terminal_row t + 1)) in
  if current_terminal_row t >=? VGA_HEIGHT then
    t ← _terminal_scroll t;
    Some (set_row t (VGA_HEIGHT - 1))
  else Some t.

Definition terminal_write_char (c color : Z) (t : terminal) : option terminal :=
  if c =? 10 then current_terminal_row_scrolldown (set_col t 0)
  else
    t ← colortextmode_terminal_put_char (current_terminal_col t) (current_terminal_row t) c color t;
    let t := set_col t (u16 (current_terminal_col t + 1)) in
    if current_terminal_col t >=? VGA_WIDTH then current_terminal_row_scrolldown (set_col t 0) else Some t.

(** "kernel.c/colortextmode_kprint: Input too long", with its terminator. *)
Definition error_msg : list Z :=
  [107; 101; 114; 110; 101; 108; 46; 99; 47; 99; 111; 108; 111; 114; 116; 101; 120; 116; 109; 111; 100; 101; 95; 107;
   112; 114; 105; 110; 116; 58; 32; 73; 110; 112; 117; 116; 32; 116; 111; 111; 32; 108; 111; 110; 103; 0].

Definition print_loop (str : list Z) (color len : Z) (t : terminal) : option terminal :=
  for_range 0 len (fun i t => c ← str$[i]; terminal_write_char c color t) t.

Definition colortextmode_kprint (str : list Z) (len color : Z) (t : terminal) : option terminal :=
  if len >? 51200 then print_loop error_msg 4 len t else print_loop str color len t.

Definition colortextmode_kfprint (str : list Z) (color : Z) (t : terminal) : option terminal :=
  len ← kstrlen str;
  colortextmode_kprint str len color t.

(** ** The roll of lines

    All finished lines and the current one, of cells. *)
Definition roll : Type := list (list Z) * list Z.
Definition roll_char (color : Z) (r : roll) (c : Z) : roll :=
  if c =? 10 then (r.1 ++ [r.2], [])
  else
    let l := r.2 ++ [colortextmode_terminal_make_char c color] in
    if Z.of_nat (length l) <? VGA_WIDTH then (r.1, l) else (r.1 ++ [l], []).
Definition roll_text (color : Z) (r : roll) (text : list Z) : roll := foldl (roll_char color) r text.

(** The lines on the screen, and the cell at a place. *)
Definition visible (r : roll) : list (list Z) := drop (length r.1 - 24) r.1 ++ [r.2].
Definition blank : Z := colortextmode_terminal_make_char 32 0.
Definition cell_at (v : list (list Z)) (y x : Z) : Z :=
  default blank (v !! Z.to_nat y ≫= fun l => l !! Z.to_nat x).

Record on_screen (t : terminal) (r : roll) : Prop := {
  os_length : length (video_mem t) = 2000%nat;
  os_row : current_terminal_row t = Z.of_nat (length (visible r)) - 1;
  os_col : current_terminal_col t = Z.of_nat (length r.2);
  os_line : Z.of_nat (length r.2) < VGA_WIDTH;
  os_cells : forall y x, 0 <= y < VGA_HEIGHT -> 0 <= x < VGA_WIDTH ->
    (video_mem t)$[y * VGA_WIDTH + x] = Some (cell_at (visible r) y x) }.

(** ** The video memory *)
Lemma put_char_spec x y c color t :
  length (video_mem t) = 2000%nat -> 0 <= y < VGA_HEIGHT -> 0 <= x < VGA_WIDTH ->
  exists v, colortextmode_terminal_put_char x y c color t = Some (set_video t v) /\ length v = 2000%nat
    /\ forall i, v$[i] = if i =? y * VGA_WIDTH + x then Some (colortextmode_terminal_make_char c color) else (video_mem t)$[i].
Proof.
  unfold VGA_WIDTH, VGA_HEIGHT. intros Hl Hy Hx. unfold colortextmode_terminal_put_char, VGA_WIDTH.
  rewrite updateZ_in by lia. cbn [mbind option_bind]. eexists. split; [reflexivity|]. split; [by rewrite length_insert|].
  intros i. rewrite lookupZ_insert by lia. case_decide as E; destruct (Z.eqb_spec i (y * 80 + x)); try done; lia.
Qed.

(** A row is filled with blanks up to column [n]. *)
Lemma clear_row y t :
  length (video_mem t) = 2000%nat -> 0 <= y < VGA_HEIGHT ->
  exists v, for_range 0 VGA_WIDTH (fun x t => colortextmode_terminal_put_char x y 32 0 t) t = Some (set_video t v)
    /\ length v = 2000%nat
    /\ forall i, v$[i] = if (y * VGA_WIDTH <=? i) && (i <? (y + 1) * VGA_WIDTH) then Some blank else (video_mem t)$[i].
Proof.
  unfold VGA_HEIGHT. intros Hl Hy.
  destruct (for_range_inv (fun x t1 => exists v, t1 = set_video t v /\ length v = 2000%nat
      /\ forall i, v$[i] = if (y * VGA_WIDTH <=? i) && (i <? y * VGA_WIDTH + x) then Some blank else (video_mem t)$[i])
    0 VGA_WIDTH (fun x t => colortextmode_terminal_put_char x y 32 0 t) t) as (t' & E & v & -> & Hv & Hi).
  - done.
  - exists (video_mem t). split; [by destruct t|]. split; [done|]. intros i.
    destruct (Z.leb_spec (y * VGA_WIDTH) i), (Z.ltb_spec i (y * VGA_WIDTH + 0)); try done. lia.
  - intros x t1 Hx (v & -> & Hv & Hi). destruct (put_char_spec x y 32 0 (set_video t v) Hv Hy Hx) as (v' & -> & Hv' & Hi').
    eexists. split; [reflexivity|]. exists v'. split; [done|]. split; [done|]. intros i. rewrite Hi'. cbn [video_mem set_video].
    rewrite Hi. unfold VGA_WIDTH in *.
    destruct (Z.eqb_spec i (y * 80 + x)), (Z.leb_spec (y * 80) i), (Z.ltb_spec i (y * 80 + x)), (Z.ltb_spec i (y * 80 + (x + 1)));
      try lia; done.
  - exists v. split; [done|]. split; [done|]. intros i. rewrite Hi. by replace ((y + 1) * VGA_WIDTH) with (y * VGA_WIDTH + VGA_WIDTH) by lia.
Qed.

Lemma initialize_blank t :
  length (video_mem t) = 2000%nat ->
  exists v, colortextmode_terminal_initialize t = Some (set_video t v) /\ length v = 2000%nat
    /\ forall i, 0 <= i < 2000 -> v$[i] = Some blank.
Proof.
  intros Hl. destruct (for_range_inv (fun y t1 => exists v, t1 = set_video t v /\ length v = 2000%nat
      /\ forall i, 0 <= i < y * VGA_WIDTH -> v$[i] = Some blank) 0 VGA_HEIGHT
    (fun y t => for_range 0 VGA_WIDTH (fun x t => colortextmode_terminal_put_char x y 32 0 t) t) t)
    as (t' & E & v & -> & Hv & Hi); [done| | |].
  - exists (video_mem t). split; [by destruct t|]. split; [done|]. lia.
  - intros y t1 Hy (v & -> & Hv & Hi). destruct (clear_row y (set_video t v) Hv Hy) as (v' & E & Hv' & Hi').
    eexists. split; [exact E|]. exists v'. split; [done|]. split; [done|]. intros i Hr. rewrite Hi'. unfold VGA_WIDTH in *.
    destruct (Z.leb_spec (y * 80) i), (Z.ltb_spec i ((y + 1) * 80)); cbn [andb]; try done; try lia. apply Hi. lia.
  - exists v. split; [exact E|]. by split.
Qed.

(** The rows move up by one, and the last one is cleared. *)
Lemma scroll_spec t :
  length (video_mem t) = 2000%nat ->
  exists v, _terminal_scroll t = Some (set_video t v) /\ length v = 2000%nat
    /\ forall i, 0 <= i < 2000 -> v$[i] = if i <? 1920 then (video_mem t)$[i + 80] else Some blank.
Proof.
  intros Hl. unfold _terminal_scroll.
  set (body := fun y t => for_range 0 VGA_WIDTH _ t).
  set (moved := fun n v => length v = 2000%nat /\ forall i, 0 <= i < 2000 -> v$[i] = if i <? n then (video_mem t)$[i + 80] else (video_mem t)$[i]).
  assert (Hrow : forall y t1, 1 <= y < VGA_HEIGHT -> (exists v, t1 = set_video t v /\ moved ((y - 1) * 80) v) ->
    exists t2, body y t1 = Some t2 /\ exists v, t2 = set_video t v /\ moved (y * 80) v).
  { unfold VGA_HEIGHT. intros y t1 Hy (v & -> & Hv). unfold body.
    destruct (for_range_inv (fun x t1 => exists v, t1 = set_video t v /\ moved ((y - 1) * 80 + x) v) 0 VGA_WIDTH
      (fun x t0 => c ← (video_mem t0)$[y * VGA_WIDTH + x]; v ← (video_mem t0)$[(y - 1) * VGA_WIDTH + x := c]; Some (set_video t0 v))
      (set_video t v)) as (t2 & E & v2 & -> & Hv2); [done|exists v; by rewrite Z.add_0_r| |].
    - unfold VGA_WIDTH. intros x t2 Hx (v2 & -> & Hl2 & Hi2). cbn [video_mem set_video].
      destruct (lookupZ_is_Some (video_mem t) (y * 80 + x)) as [c Hc]; [lia|].
      rewrite Hi2 by lia. destruct (Z.ltb_spec (y * 80 + x) ((y - 1) * 80 + x)); [lia|]. rewrite Hc. cbn [mbind option_bind].
      rewrite updateZ_in by lia. cbn [mbind option_bind]. eexists. split; [reflexivity|]. eexists. split; [reflexivity|].
      split; [by rewrite length_insert|]. intros i Hi. rewrite lookupZ_insert by lia. rewrite Hi2 by done.
      case_decide as Ei; destruct (Z.ltb_spec i ((y - 1) * 80 + x)), (Z.ltb_spec i ((y - 1) * 80 + (x + 1))); try lia; try done.
      rewrite <- Hc. f_equal. lia.
    - exists (set_video t v2). split; [exact E|]. exists v2. split; [done|].
      by replace (y * 80) with ((y - 1) * 80 + VGA_WIDTH) by (unfold VGA_WIDTH; lia). }
  destruct (for_range_inv (fun y t1 => exists v, t1 = set_video t v /\ moved ((y - 1) * 80) v) 1 VGA_HEIGHT body t)
    as (t1 & E & v & -> & Hv & Hi); [done| | |].
  - exists (video_mem t). split; [by destruct t|]. split; [done|]. intros i Hi. destruct (Z.ltb_spec i ((1 - 1) * 80)); [lia|done].
  - intros y t1 Hy H1. replace (y + 1 - 1) with y by lia. by apply Hrow.
  - rewrite E. cbn [mbind option_bind]. destruct (clear_row 24 (set_video t v) Hv) as (v' & E' & Hv' & Hi'); [done|].
    change (VGA_HEIGHT - 1) with 24. rewrite E'. exists v'. split; [done|]. split; [done|]. intros i Hr. rewrite Hi'.
    cbn [video_mem set_video]. rewrite Hi by done. unfold VGA_WIDTH, VGA_HEIGHT.
    destruct (Z.leb_spec (24 * 80) i), (Z.ltb_spec i ((24 + 1) * 80)), (Z.ltb_spec i 1920), (Z.ltb_spec i ((25 - 1) * 80)); cbn [andb]; try lia; done.
Qed.

(** ** Lines *)
Lemma cell_empty_line v y x : cell_at (v ++ [[]]) y x = cell_at v y x.
Proof.
  unfold cell_at. destruct (decide (Z.to_nat y < length v)%nat); [by rewrite lookup_app_l|].
  rewrite (lookup_ge_None_2 v) by lia. cbn [mbind option_bind].
  destruct (decide (Z.to_nat y = length v)) as [->|]; [by rewrite list_lookup_middle|].
  by rewrite lookup_ge_None_2 by (rewrite length_app; cbn; lia).
Qed.

Lemma cell_next_line l v y x : 0 <= y -> cell_at (l :: v) (y + 1) x = cell_at v y x.
Proof. intros Hy. unfold cell_at. by replace (Z.to_nat (y + 1)) with (S (Z.to_nat y)) by lia. Qed.

Lemma cell_char v l c y x :
  0 <= y -> 0 <= x ->
  cell_at (v ++ [l ++ [c]]) y x
  = if (y =? Z.of_nat (length v)) && (x =? Z.of_nat (length l)) then c else cell_at (v ++ [l]) y x.
Proof.
  intros Hy Hx. unfold cell_at. destruct (Z.eqb_spec y (Z.of_nat (length v))) as [->|Hne]; cbn [andb].
  - rewrite Nat2Z.id, !list_lookup_middle by done. cbn [mbind option_bind].
    destruct (Z.eqb_spec x (Z.of_nat (length l))) as [->|]; [by rewrite Nat2Z.id, list_lookup_middle|].
    destruct (decide (Z.to_nat x < length l)%nat); [by rewrite lookup_app_l|].
    by rewrite !lookup_ge_None_2 by (rewrite ?length_app; cbn; lia).
  - destruct (decide (Z.to_nat y < length v)%nat); [by rewrite !lookup_app_l|].
    by rewrite !lookup_ge_None_2 by (rewrite length_app; cbn; lia).
Qed.

Lemma visible_finish r1 l :
  visible (r1 ++ [l], [])
  = (if decide (length r1 < 24)%nat then visible (r1, l) else tail (visible (r1, l))) ++ [[]].
Proof.
  unfold visible. cbn [fst snd]. f_equal. rewrite length_app. cbn [length]. case_decide.
  - replace (length r1 + 1 - 24)%nat with 0%nat by lia. by replace (length r1 - 24)%nat with 0%nat by lia.
  - replace (length r1 + 1 - 24)%nat with (S (length r1 - 24)) by lia. rewrite drop_app_le by lia.
    destruct (drop (length r1 - 24) r1) as [|x v] eqn:E.
    + apply (f_equal length) in E. rewrite length_drop in E. cbn in E. lia.
    + cbn [app tail]. f_equal. replace (S (length r1 - 24)) with (1 + (length r1 - 24))%nat by lia.
      rewrite Nat.add_comm, <- drop_drop, E. done.
Qed.

Lemma visible_length r : length (visible r) = S (Nat.min (length r.1) 24).
Proof. unfold visible. rewrite length_app, length_drop. cbn. lia. Qed.

(** The cells are those of the roll; the column does not matter. *)
Definition shows_roll (t : terminal) (r : roll) : Prop :=
  length (video_mem t) = 2000%nat /\ current_terminal_row t = Z.of_nat (length (visible r)) - 1
  /\ forall y x, 0 <= y < VGA_HEIGHT -> 0 <= x < VGA_WIDTH ->
       (video_mem t)$[y * VGA_WIDTH + x] = Some (cell_at (visible r) y x).

Lemma finish_line t r1 l :
  shows_roll t (r1, l) ->
  exists t', current_terminal_row_scrolldown (set_col t 0) = Some t' /\ on_screen t' (r1 ++ [l], []).
Proof.
  intros (Hlen & Hrow & Hc). pose proof (visible_length (r1, l)) as Hv. cbn [fst] in Hv.
  unfold current_terminal_row_scrolldown. cbn [set_row set_col current_terminal_row video_mem current_terminal_col].
  unfold u16. rewrite Z.mod_small by lia. rewrite Z.geb_leb. pose proof (visible_finish r1 l) as Hfin.
  destruct (Z.leb_spec VGA_HEIGHT (current_terminal_row t + 1)) as [Hs|Hs]; unfold VGA_HEIGHT in Hs; rewrite Hrow, Hv in Hs.
  - destruct (scroll_spec (mkTerminal (video_mem t) (current_terminal_row t + 1) 0) Hlen) as (v & E & Hl & Hi).
    rewrite decide_False in Hfin by lia.
    unfold set_row, set_col. cbn [video_mem current_terminal_row current_terminal_col]. rewrite E. cbn [mbind option_bind].
    eexists. split; [reflexivity|]. destruct (visible (r1, l)) as [|x vs] eqn:Ev; [cbn in Hv; lia|]. cbn [tail] in Hfin.
    constructor; cbn [set_video video_mem current_terminal_row current_terminal_col snd length]; rewrite ?Hfin; try done.
    + rewrite length_app. cbn in Hv |- *. unfold VGA_HEIGHT. lia.
    + intros y x' Hy Hx. unfold VGA_HEIGHT, VGA_WIDTH in *. rewrite Hi by lia. cbn [video_mem].
      rewrite cell_empty_line. destruct (Z.ltb_spec (y * 80 + x') 1920).
      * replace (y * 80 + x' + 80) with ((y + 1) * 80 + x') by lia. rewrite Hc by lia. by rewrite cell_next_line by lia.
      * assert (y = 24) as -> by lia. unfold cell_at. rewrite lookup_ge_None_2; [done|]. cbn in Hv. lia.
  - rewrite decide_True in Hfin by lia. eexists. split; [reflexivity|].
    constructor; cbn [set_row set_col video_mem current_terminal_row current_terminal_col snd length]; rewrite ?Hfin; try done.
    + rewrite length_app. cbn [length]. lia.
    + intros y x Hy Hx. rewrite cell_empty_line. by apply Hc.
Qed.

Lemma write_char_ok t r c color :
  on_screen t r -> exists t', terminal_write_char c color t = Some t' /\ on_screen t' (roll_char color r c).
Proof.
  intros [Hlen Hrow Hcol Hline Hc]. destruct r as [r1 l]. cbn [snd] in *. unfold terminal_write_char, roll_char. cbn [fst snd].
  destruct (Z.eqb_spec c 10); [by apply finish_line|].
  pose proof (visible_length (r1, l)) as Hv. cbn [fst] in Hv.
  destruct (put_char_spec (current_terminal_col t) (current_terminal_row t) c color t) as (v & -> & Hl & Hi);
    [done|unfold VGA_HEIGHT; lia|lia|]. cbn [mbind option_bind].
  set (l' := l ++ [colortextmode_terminal_make_char c color]).
  assert (Hvis : visible (r1, l') = drop (length r1 - 24) r1 ++ [l']) by done.
  assert (Hvis0 : visible (r1, l) = drop (length r1 - 24) r1 ++ [l]) by done.
  assert (Hn : current_terminal_row t = Z.of_nat (length (drop (length r1 - 24) r1)))
    by (rewrite Hrow, Hvis0, length_app; cbn [length]; lia).
  assert (Hsh : shows_roll (set_video t v) (r1, l')).
  { split; [done|]. split.
    - cbn [set_video current_terminal_row]. rewrite Hrow, !visible_length. done.
    - intros y x Hy Hx. cbn [set_video video_mem]. rewrite Hi, Hvis. unfold l'. rewrite cell_char by lia.
      rewrite <- Hvis0, <- Hn, <- Hcol. unfold VGA_WIDTH, VGA_HEIGHT in *.
      destruct (Z.eqb_spec (y * 80 + x) (current_terminal_row t * 80 + current_terminal_col t)),
        (Z.eqb_spec y (current_terminal_row t)), (Z.eqb_spec x (current_terminal_col t)); cbn [andb]; try lia; try done; by apply Hc. }
  cbn [set_col set_video current_terminal_col]. unfold u16. rewrite Hcol, Z.mod_small by (unfold VGA_WIDTH in *; lia).
  assert (Hl' : Z.of_nat (length l') = Z.of_nat (length l) + 1) by (unfold l'; rewrite length_app; cbn [length]; lia).
  rewrite Z.geb_leb, Hl'. destruct (Z.leb_spec VGA_WIDTH (Z.of_nat (length l) + 1)), (Z.ltb_spec (Z.of_nat (length l) + 1) VGA_WIDTH); try lia.
  - by apply (finish_line (set_video t v)).
  - eexists. split; [reflexivity|]. destruct Hsh as (H1 & H2 & H3). constructor; cbn [snd]; try done; cbn [current_terminal_col]; lia.
Qed.

(** Printing any text of at most 51200 characters returns, and afterwards the
    screen shows the last 25 lines of the roll to which the text was added, each cell the
    character with its colour; lines are cut at 80 cells, and what is not written is
    blank. *)
Theorem terminal_shows_text t r str len color :
  on_screen t r -> 0 <= len <= 51200 -> len <= Z.of_nat (length str) ->
  exists t', colortextmode_kprint str len color t = Some t'
    /\ on_screen t' (roll_text color r (take (Z.to_nat len) str)).
Proof.
  intros Ht Hlen Hstr. unfold colortextmode_kprint. rewrite Z.gtb_ltb. destruct (Z.ltb_spec 51200 len); [lia|].
  destruct (for_range_inv (fun i t1 => on_screen t1 (roll_text color r (take (Z.to_nat i) str))) 0 len
    (fun i t => c ← str$[i]; terminal_write_char c color t) t) as (t' & E & Ht'); [lia|done| |by exists t'].
  intros i t1 Hi H1. destruct (lookupZ_is_Some str i) as [c Hc]; [lia|]. rewrite Hc. cbn [mbind option_bind].
  destruct (write_char_ok t1 _ c color H1) as (t2 & E2 & H2). exists t2. split; [done|].
  apply lookupZ_Some in Hc as [_ Hc]. replace (Z.to_nat (i + 1)) with (S (Z.to_nat i)) by lia.
  rewrite (take_S_r _ _ _ Hc). unfold roll_text. by rewrite foldl_app.
Qed.

Lemma initialize_shows t :
  length (video_mem t) = 2000%nat -> current_terminal_row t = 0 -> current_terminal_col t = 0 ->
  exists t', colortextmode_terminal_initialize t = Some t' /\ on_screen t' ([], []).
Proof.
  intros Hl Hr Hc. destruct (initialize_blank t Hl) as (v & E & Hv & Hi). exists (set_video t v). split; [done|].
  constructor; try done. intros y x Hy Hx. unfold VGA_HEIGHT, VGA_WIDTH in *. cbn [set_video video_mem]. rewrite Hi by lia.
  f_equal. symmetry. exact (cell_empty_line [] y x).
Qed.

Definition fresh_terminal : terminal := mkTerminal (replicate 2000 0) 0 0.

(** "Hi", a new line, and "!". *)
Lemma terminal_shows_text_witness :
  exists t0 t, colortextmode_terminal_initialize fresh_terminal = Some t0
    /\ colortextmode_kprint [72; 105; 10; 33] 4 7 t0 = Some t
    /\ (video_mem t)$[1] = Some 0x769 /\ (video_mem t)$[80] = Some 0x721 /\ (video_mem t)$[81] = Some 0x20.
Proof.
  destruct (initialize_shows fresh_terminal eq_refl eq_refl eq_refl) as (t0 & E0 & H0).
  destruct (terminal_shows_text t0 ([], []) [72; 105; 10; 33] 4 7 H0 ltac:(lia) ltac:(cbn; lia)) as (t & E & [_ _ _ _ Hc]).
  set (v := visible _) in Hc. assert (C1 : cell_at v 0 1 = 0x769) by (vm_compute; reflexivity).
  assert (C2 : cell_at v 1 0 = 0x721) by (vm_compute; reflexivity). assert (C3 : cell_at v 1 1 = 0x20) by (vm_compute; reflexivity).
  clearbody v. pose proof (Hc 0 1) as H1. pose proof (Hc 1 0) as H2. pose proof (Hc 1 1) as H3.
  rewrite C1 in H1. rewrite C2 in H2. rewrite C3 in H3. unfold VGA_HEIGHT, VGA_WIDTH in *.
  exists t0, t. split; [exact E0|]. split; [exact E|]. split; [apply H1; lia|]. split; [apply H2; lia|apply H3; lia].
Defined.

(** ** What goes wrong

    A text that is too long: the loop that prints the message runs to the length of the
    text, and reads behind the message. *)
Lemma loop_leaves_string str color n i t r :
  on_screen t r -> 0 <= i <= Z.of_nat (length str) -> Z.of_nat (length str) < i + Z.of_nat n ->
  for_loop n i (fun i t => c ← str$[i]; terminal_write_char c color t) t = None.
Proof.
  revert i t r. induction n as [|n IH]; intros i t r Ht Hi Hn; [lia|]. cbn [for_loop].
  destruct (decide (i < Z.of_nat (length str))) as [Hlt|Hge].
  - destruct (lookupZ_is_Some str i) as [c ->]; [lia|]. cbn [mbind option_bind].
    destruct (write_char_ok t r c color Ht) as (t' & -> & Ht'). cbn [mbind option_bind]. apply (IH _ _ _ Ht'); lia.
  - assert (str$[i] = None) as ->; [|done]. unfold lookupZ. destruct (0 <=? i); [|done]. apply lookup_ge_None_2. lia.
Qed.

Lemma long_text_faults t r str len color : on_screen t r -> 51200 < len -> colortextmode_kprint str len color t = None.
Proof.
  intros Ht Hlen. unfold colortextmode_kprint. rewrite Z.gtb_ltb. destruct (Z.ltb_spec 51200 len); [|lia].
  apply (loop_leaves_string error_msg 4 _ 0 t r Ht); cbn [length error_msg]; lia.
Qed.

(** A character above 127 is negative, and its sign covers the colour. *)
Lemma negative_char_colour : colortextmode_terminal_make_char (-100) 7 = 0xff9c.
Proof. reflexivity. Qed.
