(* ===== verification/Support64.v ===== *)
(** * Support of the 64-bit kernel: logger.cpp, newlib_support.c, libcxx_support.cpp

    The logger prints to the console what is important enough.  The C library calls back
    into the kernel for memory and files; there are none. *)
From Stdlib Require Import ZArith Lia.
From stdpp Require Import base option list numbers.
From S2P Require Import Prelude Font Graphics64 Console64.

(** ** The logger *)
Inductive LogLevel := kError | kWarn | kInfo | kDebug.
Definition level_value (l : LogLevel) : Z :=
  match l with kError => 3 | kWarn => 4 | kInfo => 6 | kDebug => 7 end.

Definition debug_break : Z := 0.

Section logger.
Context {W : Type} `{!PixelWriter W}.
(** What the library's [vsprintf] makes of a format and its arguments: the text, without
    its terminator, and the result; [stack] is what the rest of the buffer holds. *)
Context {args : Type} (vsprintf : list Z -> args -> list Z * Z) (stack : list Z).

Record log_state := mkLog { log_level : LogLevel; log_console : @Console W }.

Definition SetLogLevel (level : LogLevel) (s : log_state) : log_state := mkLog level (log_console s).

(** The buffer has 1024 bytes; [vsprintf] knows nothing of that. *)
Definition Log (level : LogLevel) (format : list Z) (ap : args) (s : log_state) : option (Z * log_state) :=
  if level_value level >? level_value (log_level s) then Some (0, s)
  else
    let '(text, result) := vsprintf format ap in
    if 1024 <? Z.of_nat (length text) + 1 then None
    else
      c ← PutString (log_console s) (text ++ 0 :: stack);
      Some (result, mkLog (log_level s) c).

(** A run of the program: levels are set and messages logged. *)
Inductive log_op := OSetLevel (level : LogLevel) | OLog (level : LogLevel) (format : list Z) (ap : args).

Fixpoint log_run (ops : list log_op) (s : log_state) : option log_state :=
  match ops with
  | [] => Some s
  | OSetLevel level :: ops => log_run ops (SetLogLevel level s)
  | OLog level format ap :: ops => r ← Log level format ap s; log_run ops r.2
  end.

(** The text that is written: that of the messages at or below the level in force. *)
Fixpoint logged (threshold : LogLevel) (ops : list log_op) : list Z :=
  match ops with
  | [] => []
  | OSetLevel level :: ops => logged level ops
  | OLog level format ap :: ops =>
      (if level_value level <=? level_value threshold then (vsprintf format ap).1 else []) ++ logged threshold ops
  end.

Definition op_ok (op : log_op) : Prop :=
  match op with
  | OSetLevel _ => True
  | OLog _ format ap => Forall ascii (vsprintf format ap).1 /\ Z.of_nat (length (vsprintf format ap).1) < 1024
  end.

Context (width height : Z) (Hwidth : 8 * kColumns <= width) (Hheight : 16 * kRows <= height).
Context (fg bg : PixelColor) (g : Z -> Z -> option PixelColor).

Lemma Log_ok level format ap s t :
  console_ok width height fg bg g (log_console s) t -> op_ok (OLog level format ap) ->
  exists r s', Log level format ap s = Some (r, s') /\ log_level s' = log_level s
    /\ console_ok width height fg bg g (log_console s')
         (feed t (if level_value level <=? level_value (log_level s) then (vsprintf format ap).1 else [])).
Proof using Hwidth Hheight.
  intros Hc [Ha Hn]. unfold Log. rewrite Z.gtb_ltb.
  destruct (Z.ltb_spec (level_value (log_level s)) (level_value level)), (Z.leb_spec (level_value level) (level_value (log_level s)));
    try lia; [by exists 0, s|].
  destruct (vsprintf format ap) as [text result]. cbn [fst] in *. destruct (Z.ltb_spec 1024 (Z.of_nat (length text) + 1)); [lia|].
  destruct (PutString_ok width height Hwidth Hheight fg bg g (log_console s) t text stack Hc Ha) as (c & E & Hc').
  { change (SYS_MAX_ITER - 1) with (ltac:(let x := eval vm_compute in (SYS_MAX_ITER - 1) in exact x)). lia. }
  rewrite E. cbn [mbind option_bind]. by exists result, (mkLog (log_level s) c).
Qed.

(** Whatever is logged, with texts that fit into the buffer: the console shows the
    texts of exactly the messages whose level is at most the one in force, in order. *)
Theorem log_filters ops s t :
  console_ok width height fg bg g (log_console s) t -> Forall op_ok ops ->
  exists s', log_run ops s = Some s'
    /\ console_ok width height fg bg g (log_console s') (feed t (logged (log_level s) ops)).
Proof using Hwidth Hheight.
  revert s t. induction ops as [|[level|level format ap] ops IH]; intros s t Hc Hok; [by exists s| |].
  - apply list.Forall_cons in Hok as [_ Hok]. exact (IH (SetLogLevel level s) t Hc Hok).
  - apply list.Forall_cons in Hok as [Hop Hok]. destruct (Log_ok level format ap s t Hc Hop) as (r & s1 & E & El & H1).
    cbn [log_run]. rewrite E. cbn [mbind option_bind snd].
    destruct (IH s1 _ H1 Hok) as (s' & E' & Hc'). exists s'. split; [done|].
    cbn [logged]. rewrite El in Hc'. unfold feed in *. by rewrite foldl_app.
Qed.

(** A text of 1024 characters or more overruns the buffer. *)
Lemma long_message_faults level format ap s :
  level_value level <= level_value (log_level s) -> 1024 <= Z.of_nat (length (vsprintf format ap).1) ->
  Log level format ap s = None.
Proof.
  intros Hl Hn. unfold Log. rewrite Z.gtb_ltb. destruct (Z.ltb_spec (level_value (log_level s)) (level_value level)); [lia|].
  destruct (vsprintf format ap) as [text result]. cbn [fst] in Hn. destruct (Z.ltb_spec 1024 (Z.of_nat (length text) + 1)); [done|lia].
Qed.
End logger.

(** ** The C library's callbacks *)
Definition ENOMEM_ : Z := 12.
Definition EINVAL : Z := 22.
Definition EBADF : Z := 9.
Definition ENOENT : Z := 2.

Record libc := mkLibc { errno : Z; program_break : Z; program_break_end : Z }.
Definition set_errno (e : Z) (s : libc) : libc := mkLibc e (program_break s) (program_break_end s).
Definition fails (e : Z) (s : libc) : Z * libc := (-1, set_errno e s).

(** Pointers are 64-bit; [incr] is an [int]; [(caddr_t)-1] is the result of a failure. *)
Definition sbrk (incr : Z) (s : libc) : Z * libc :=
  if (program_break s =? 0) || (u64 (program_break s + incr) >=? program_break_end s)
  then (2 ^ 64 - 1, set_errno ENOMEM_ s)
  else (program_break s, mkLibc (errno s) (u64 (program_break s + incr)) (program_break_end s)).

Definition getpid (s : libc) : Z * libc := (1, s).
Definition kill (pid sig : Z) (s : libc) : Z * libc := fails EINVAL s.
Definition close (fd : Z) (s : libc) : Z * libc := fails EBADF s.
Definition lseek (fd offset whence : Z) (s : libc) : Z * libc := fails EBADF s.
Definition open_ (path : list Z) (flags : Z) (s : libc) : Z * libc := fails ENOENT s.
Definition read_ (fd buf count : Z) (s : libc) : Z * libc := fails EBADF s.
Definition write_ (fd buf count : Z) (s : libc) : Z * libc := fails EBADF s.
Definition fstat (fd buf : Z) (s : libc) : Z * libc := fails EBADF s.
Definition isatty (fd : Z) (s : libc) : Z * libc := fails EBADF s.
Definition posix_memalign : Z := ENOMEM_.

(** A program asks for memory, never gives any back: the blocks it gets. *)
Fixpoint sbrks (incrs : list Z) (s : libc) : list (Z * Z) * libc :=
  match incrs with
  | [] => ([], s)
  | n :: incrs =>
      let '(p, s) := sbrk n s in
      let '(bs, s) := sbrks incrs s in
      (if p =? 2 ^ 64 - 1 then bs else (p, n) :: bs, s)
  end.

(** The blocks follow each other from [lo] on. *)
Fixpoint tiles (lo hi : Z) (bs : list (Z * Z)) : Prop :=
  match bs with
  | [] => lo = hi
  | (p, n) :: bs => p = lo /\ tiles (lo + n) hi bs
  end.

(** Whatever sizes are asked for, and whichever requests fail: the blocks tile the
    memory from the break on, which stays below its end. *)
Theorem sbrk_tiles incrs s :
  Forall (fun n => 0 <= n < 2 ^ 31) incrs -> 0 < program_break s < program_break_end s -> program_break_end s < 2 ^ 63 ->
  let '(bs, s') := sbrks incrs s in
  tiles (program_break s) (program_break s') bs /\ program_break s' < program_break_end s.
Proof.
  revert s. induction incrs as [|n incrs IH]; intros s Hn Hb He; cbn [sbrks]; [cbn [tiles]; lia|].
  apply list.Forall_cons in Hn as [Hn Hns]. unfold sbrk. destruct (Z.eqb_spec (program_break s) 0); [lia|]. cbn [orb].
  unfold u64. rewrite Z.geb_leb, Z.mod_small by lia.
  destruct (Z.leb_spec (program_break_end s) (program_break s + n)) as [Hfull|Hfits].
  - specialize (IH (set_errno ENOMEM_ s) Hns Hb He). destruct (sbrks incrs _) as [bs s']. rewrite Z.eqb_refl. exact IH.
  - specialize (IH (mkLibc (errno s) (program_break s + n) (program_break_end s)) Hns). cbn [program_break program_break_end] in IH.
    destruct (sbrks incrs _) as [bs s']. destruct IH as [H1 H2]; [lia|lia|].
    destruct (Z.eqb_spec (program_break s) (2 ^ 64 - 1)); [lia|]. cbn [tiles]. split; [split; [done|exact H1]|exact H2].
Qed.

(** Nothing in the repository sets the break: the kernel starts with 0, and every
    request of the C library for memory fails. *)
Lemma no_heap incr s : program_break s = 0 -> sbrk incr s = (2 ^ 64 - 1, set_errno ENOMEM_ s).
Proof. intros H. unfold sbrk. by rewrite H. Qed.
